(* ===== verification/_CoqProject ===== *)
-Q . S2P
Prelude.v
Js.v
Types.v
Wire.v
Http.v
Outcome.v
Database.v
OperationRepo.v
Samples.v
OperationLease.v
OperationSpec.v
MediaRepos.v
Schema.v
RouteProtocol.v
Interfaces.v
Directory.v
SessionStore.v
LocClient.v
SampleNet.v
LocClientSpec.v
SessionClient.v
SessionClientSpec.v
LiveReconciler.v
SampleWorld.v
LiveReconcilerSpec.v
LiveOpen.v
LiveOpenSpec.v
VodUsage.v
AbrExchange.v
JobClient.v
JobClientSpec.v
AbrOrchestrator.v
AbrRecovery.v
Preserve.v
AbrSpec.v
JsonCompare.v
RouteHealth.v
RouteSelector.v
RouteSelectorSpec.v
Selection.v
HttpTransport.v
HttpTransportSpec.v
RouteDiscovery.v
Fairness.v
RateLimit.v
Accounts.v
AccountsSpec.v
AuthRoutes.v
AuthRoutesSpec.v
Dispatcher.v
DispatcherSpec.v
ProductRoutes.v
ProductSpec.v
OperationSecrets.v
CallerProof.v
ControlSource.v
Numbers.v
SourceProbe.v
Config.v
Migrations.v
Email.v
Manifest.v
Catalog.v
Startup.v
Gateway.v
GatewaySpec.v
Browser.v
Portal.v
PortalSpec.v
AdminPages.v
Polling.v
Shell.v
Pages.v
Elements.v
Backends.v
Dynamic.v
Testers.v
TestersSpec.v
Templates.v
TemplatesSpec.v
