(* ===== verification/Prelude.v ===== *)
(** * A verification development of the transcode gateway

    The program under src/transcode-gateway sells video transcoding that is paid for
    per work unit.  A paid operation (a one-shot VOD job or a live session) is opened
    with LOC, the ledger of credit, run by a broker and its runner, and settled with
    signed evidence of the units used.  Any number of gateway instances share one
    PostgreSQL database; an operation survives the crash of the instance that runs it,
    because everything needed to go on is stored, encrypted, before the outside world
    is asked for anything.

    ** The parts, and where they are modelled

    Language and libraries.  [Prelude] has results, the effect monad [M S E A] (a state
    that survives a throw, as in JavaScript), record update, tactics and generic lemmas.
    [Js] models the JavaScript values the sources use: numbers as integers, exact
    fractions or non-finite values, strings, dates, decimal text, the stable sort of
    arrays under a comparator and the collation of localeCompare.  [Wire] has the zod
    combinators as decoders of [json].  [Http] has requests, responses and headers
    (livepeer/headers.ts), hexadecimal and base64; what the platform computes (URL
    parsing, sha256, JSON text, dates) is the class [Platform], and the network is the class [Fetch]: any function
    of the exchange's number and request; its last part counts the exchanges of a program.

    Data.  [Types] has the records of engine/types/paidOperation.ts, worker.ts and
    engine/repo/paidOperationRepo.ts; [Interfaces] the records of engine/interfaces and,
    as classes with laws, the LOC client and the paid-session client: services are
    proved against the classes, [LocClient] and [SessionClientSpec] discharge them.

    Storage.  [Database] is the state of the tables with the constraints of the schema
    (checks, keys, unique columns): a statement that violates one fails.  [OperationRepo]
    is repo/paidOperations.ts, a transaction per method: [db -> result exn (A * db)].
    [MediaRepos] has repo/liveStreams.ts, playbackIds.ts, assets.ts, uploads.ts,
    renditions.ts and encodingJobs.ts, a module each.

    Protocols.  [Outcome] is livepeer/v2Outcome.ts; [RouteProtocol] is
    livepeer/routeProtocol.ts; [LocClient] is livepeer/locClient.ts over an abstract
    transport; [SessionClient] is livepeer/paidSessionClient.ts; [JobClient] is
    livepeer/paidJobClient.ts; [Directory] is livepeer/liveSessionDirectory.ts.
    [VodUsage] is engine/service/vodUsage.ts, whose products are those of doubles, and
    [AbrExchange] is engine/service/abrExchange.ts, with the framing of server-sent
    events.

    Services.  [SessionStore] is livepeer/paidSessionStore.ts and the [world] of one
    instance: tables, network, directory and a clock of awaits.  Before every statement
    the rest of the system may run: [others] is any sequence of repository transactions,
    so a theorem over [Environment] holds for every interleaving.  [LiveReconciler] is
    engine/service/paidLiveReconciler.ts and [LiveOpen] is engine/service/paidLiveOpen.ts.
    [AbrOrchestrator] is engine/service/paidAbrOrchestrator.ts and [AbrRecovery] is
    engine/service/paidAbrRecovery.ts, over the class [PaidJobClient], which
    [JobClientSpec] discharges, and the classes of the storage and the source probe.

    Routes to brokers.  [JsonCompare] is livepeer/routeSelectorHelpers.ts;
    [RouteHealth] is livepeer/routeHealth.ts, the tracker and its metrics;
    [RouteSelector] is livepeer/routeSelector.ts with capabilityMap.ts and the worker
    resolvers, over a resolver service, with other tasks at every await; [Selection] has
    the encoding ladder (engine/config/encodingLadder.ts), its planner and tiers and
    livepeer/selectionPolicy.ts; [HttpTransport] is livepeer/locHttpTransport.ts, an
    instance of the transport [LocClient] is written against, and
    livepeer/locWorkerResolver.ts.  [OperationSecrets] is livepeer/operationSecrets.ts
    over an abstract AEAD, an instance of the cipher [OperationRepo] is written against.

    Accounts.  [RateLimit] is auth/rateLimit.ts; [Accounts] has the other files of auth/
    and middleware/ as transactions on the account tables of db/schema.ts; [AuthRoutes]
    has the handlers of routes/auth, with other instances at every statement.

    The edge.  [Dispatcher] is runtime/rtmp/dispatcher.ts: the event handlers cut into
    steps at their awaits, over the shared relay objects and the two maps.
    [ProductRoutes] has the handlers of routes/live and routes/vod over the services
    above, routes/paidOperationStatus.ts and the object keys of storage/s3.ts.  [Backends] has the
    provider of storage/s3.ts over the AWS SDK (Module Storage), runtime/rtmp/server.ts and index.ts, the media server with the dispatcher attached,
    over a TCP server of Node (MediaServer), and middleware/requestLogger.ts with
    db/pool.ts (ServerHooks).
    [SourceProbe] is runtime/sourceProbe.ts, with [Numbers] for the texts it reads as
    numbers; [ControlSource] is livepeer/paidSessionControlSource.ts, a socket as the
    sequence of its events; [CallerProof] is livepeer/callerProof.ts, over a decoder of base64;
    [Manifest] has the playlist and playback address builders; [Email] is email/;
    [Catalog] has the capability catalogue and the statistics.  [Preserve] is a program
    logic that carries a property of the tables through every effect.

    The process.  [Config] is config.ts; [Migrations] is db/migrate.ts; [Schema] states
    the media tables of db/schema.ts as properties of the state; [Startup] is main of
    index.ts up to listening; [Gateway] is the running process: every route of server.ts
    with its check and the error handler, the RTMP events, the two recovery timers with
    their flags, background runs and the shutdown, as events on one state.

    The front ends.  [Browser] is a page: session storage, window events, requests,
    percent encoding.  [Portal] is portal/lib and [AdminPages] is admin/lib and site/lib.
    [Polling] has the elements that refresh themselves, cut into steps at their awaits,
    with their timers; [Pages] the upload page and the waiting list; [Shell] the two
    applications with their logins; [Elements] the smaller elements.  [Templates] has the
    render methods of the asset, live and operation pages as functions to trees, those of
    the catalogue and the dashboards (Module CatalogPages), and the shells with their
    navigation drawer, the theme switch and the display of a key (Drawer, Theme,
    KeyDisplay, ShellView), the logins, uploads and public forms (Forms) and the waiting
    list (SignupsPage).  [Dynamic] is what
    JavaScript does with a parsed value that nobody has checked.

    The integration tests.  [Testers] has both programs of src/transcode-tester over a
    clock, a console and a network that takes its time.

    [Samples], [SampleNet], [SampleWorld] and the first part of [AbrSpec] are concrete
    inputs, transports, brokers and tables on which the theorems are instantiated.

    ** What is shown

    - [OperationLease]: the tables refine an abstract lease machine (free, held by an
      owner until an instant, closed) under any interleaving; well-formedness is
      invariant; a settled operation is final; a stale claim is fenced off from every
      mutation and every secret.
    - [OperationSpec]: mutual exclusion of claims, the recovery sweep, reading back
      operations and secrets, settlement of live sessions and VOD jobs as a whole.
    - [MediaRepos], [Directory]: lookups, and three behaviours of the code that its
      callers do not expect (a status update that drops fields, a cursor that skips
      ties, a removal that unlists a newer session).
    - [RouteProtocol], [Outcome]: accepted declarations are typed by their protocol and
      round trip; which failures count against a route.
    - [LocClientSpec], [SessionClientSpec]: whatever LOC and brokers answer, what the
      clients accept is about what was asked, and a session is ended only on evidence
      that agrees with every party's account.
    - [LiveReconcilerSpec]: a pass acts on the tables only through the repositories, so
      the invariants survive it; retries back off; refills stay within policy; a session
      whose end succeeded is settled if it is still held, and never by halves otherwise.
    - [LiveOpenSpec]: an open that is refused is left to recovery, unless another instance
      has changed the operation by then, and recovery repeats the very request that was
      interrupted.
    - [VodUsage]: the funding of a ladder covers every delivery within its frames.
    - [AbrExchange]: a stored request encodes again to itself; the last result of a
      stream is the one that is read.
    - [JobClientSpec]: on every path a job is settled only on evidence that agrees with
      what was opened.
    - [AbrSpec]: the services act on the tables only through the repositories; a
      run or a recovery sweep completes an asset only with the delivery that was asked and
      paid for, and with its whole ladder; a recovered job repeats the first request except for its estimate.
    - [Fairness]: an operation that is due is taken after a bounded number of sweeps.
    - [JsonCompare]: the two JSON comparisons of the program are one relation.
    - [RouteHealth], [RouteSelectorSpec], [Selection]: health follows from the history of
      attempts; a selection is exactly the eligible routes, in order; the chosen worker
      can serve; the support filter covers the ladder.
    - [HttpTransportSpec], [RouteDiscovery]: a request to LOC is one checked exchange; a
      job ends after a bounded number of exchanges; a discovered route is opened with
      LOC's own binding, and what the services may still refuse in it is the estimator
      (jobs) and the refill (sessions).
    - [OperationSecrets]: secrets open for their operation only.
    - [RateLimit], [AccountsSpec], [AuthRoutesSpec]: the limit holds in every window;
      keys belong to vetted users after any requests; who passes holds a live
      credential; a revoked session stays out; a login opens a session; the export reads
      back.
    - [DispatcherSpec]: a publisher is accepted only with its session leased, and a
      stream has one relay, provided a relay's exit is seen before the next one starts
      ([late_exit_admits_a_second_relay] shows that without it there can be two).
    - [ProductSpec]: tenants cannot touch or see each other's rows; object keys of
      different assets differ.
    - [Schema]: every statement of every repository keeps keys, references and unique
      columns.
    - [CallerProof], [ControlSource], [SourceProbe]: a proof names its caller; a control
      read settles once; what the pricing gets was measured.
    - [Manifest], [Email], [Catalog]: a player reads back what was built; names
      and links cannot become markup; the catalogue reads back; the counts agree.
    - [Config], [Startup], [Migrations]: a configuration that loads starts what it
      configures; every script runs once, also with other instances.
    - [GatewaySpec]: the whole process keeps the tables well formed and settled operations
      final, runs one recovery pass of a kind at a time and none after the signal to
      stop; a customer's rows change with the customer's key only.
    - [PortalSpec]: the portal sends its credentials where they belong and forgets them
      when refused, except by the deletion of an asset; a login opens a session that the gateway then admits; two calls that
      the gateway can never accept ([rotation_never_happens], [logout_revokes_nothing]).
    - [Polling], [Pages], [Shell]: the live pages refresh while shown and stop when left,
      which two other pages do not; an upload is all of its calls or an error; the
      administrator acts on what was shown; the portal shows its pages exactly to who is
      signed in.
    - [Elements]: the asset list shows the pages of the gateway one after the other; a
      masked key shows ten characters; a sign-up is sent filled in.
    - [TemplatesSpec], [Templates]: what the gateway answers is rendered
      without an error; the key of a stream is the value of a password field and nothing
      else of the page depends on it; the catalogue shows what matches; the open drawer
      keeps the focus and gives it back; the upload page, the account page, the forms and
      the waiting list offer exactly the events that [Pages], [Elements] and [Shell] take.
    - [Backends]: the provider is a store of its bucket, for keys that need no encoding;
      the stop of the listener ends no connection and waits for the last; a request is
      logged once, with its own id.
    - [TestersSpec]: a test ends after a bounded number of requests, and passes only when
      the job was accepted and the last status is a finished one.

    ** Bounds and fuel

    Most loops of the code run over lists and need no fuel.  [split_fuel] takes a
    string's length, which [split_fuel_enough] shows to be enough; the rounding to a
    double searches at most as many binades as doubles have; [poll_loop] runs the
    attempts the client is configured with.  The loops of [Testers] get the polls that fit
    in their time at their interval, which [ends_main] shows to be enough: a poll takes
    its delay at least.  A database BIGINT, INT or NUMERIC is [Z]
    with its range checked where a value is stored (the duration of an asset is kept as
    given, without the rounding of NUMERIC(12,3)); a JavaScript number used as a count
    is checked to be a safe integer where the code checks it.  [trimStart] strips ASCII
    white space.

    ** What is not modelled

    Logging but for the request log; AES-GCM, SHA-256, secp256k1, URL parsing, the random
    source and the other functions of the platform, which are classes with the laws the
    code relies on; the gRPC channel of the resolver, what node-media-server does with
    RTMP, ffmpeg and ffprobe, the AWS SDK, the e-mail provider, Fastify's own answers and
    the headers of CORS, which are third-party code behind classes, events or parameters;
    the styles and the drawings of the icons; the functions that rename the fields of a
    decoded answer, which the decoders do here; the Go runners and the end-to-end scripts, which are other
    programs. *)

From stdpp Require Export base tactics option list list_numbers strings gmap fin_maps sorting pretty relations.
From Stdlib Require Export ZArith Lia.
From Stdlib Require Import Ascii.

#[export] Set Default Goal Selector "!".
#[export] Set Warnings "-notation-incompatible-prefix,-non-boolean-if,-clear-no-such-hyp,-register-all".

(** ** Results and the effect monad

    A call either returns a value or throws.  [M S E A] is a computation over
    an explicit state [S] that keeps the state reached at the point of a throw,
    as JavaScript does: a [catch] or a [finally] runs in that state. *)

Inductive result (E A : Type) : Type :=
| Ok (a : A)
| Err (e : E).
Arguments Ok {E A} a.
Arguments Err {E A} e.

Declare Scope gateway_scope.
Delimit Scope gateway_scope with gw.
Open Scope gateway_scope.

Definition result_bind {E A B} (x : result E A) (f : A -> result E B) : result E B :=
  match x with
  | Ok a => f a
  | Err e => Err e
  end.

Notation "'let?' x ':=' c1 'in' c2" := (result_bind c1 (fun x => c2))
  (at level 10, x binder, c1 at level 100, c2 at level 200) : gateway_scope.

(** [if (bad) throw e;] *)
Definition refuse_if {E} (bad : bool) (e : E) : result E unit :=
  if bad then Err e else Ok tt.

Notation "'throw_if' b 'with' e ';;' c" := (result_bind (refuse_if b e) (fun _ => c))
  (at level 10, b at level 99, e at level 99, c at level 200) : gateway_scope.

Definition is_ok {E A} (x : result E A) : bool :=
  match x with Ok _ => true | Err _ => false end.

Definition M (S E A : Type) : Type := S -> result E A * S.

Section monad.
Context {S E : Type}.

Definition mret_ {A} (a : A) : M S E A := fun s => (Ok a, s).
Definition mthrow {A} (e : E) : M S E A := fun s => (Err e, s).
Definition mbind_ {A B} (m : M S E A) (k : A -> M S E B) : M S E B :=
  fun s => match m s with
           | (Ok a, s') => k a s'
           | (Err e, s') => (Err e, s')
           end.
(** [try { m } catch (e) { h e }] *)
Definition mcatch {A} (m : M S E A) (h : E -> M S E A) : M S E A :=
  fun s => match m s with
           | (Ok a, s') => (Ok a, s')
           | (Err e, s') => h e s'
           end.
(** [try { m } finally { f }]: a throw of [f] replaces the outcome of [m]. *)
Definition mfinally {A} (m : M S E A) (f : M S E unit) : M S E A :=
  fun s => match m s with
           | (r, s') => match f s' with
                        | (Ok _, s'') => (r, s'')
                        | (Err e, s'') => (Err e, s'')
                        end
           end.
Definition mlift {A} (r : result E A) : M S E A := fun s => (r, s).
Definition mget {A} (f : S -> A) : M S E A := fun s => (Ok (f s), s).
Definition mmodify (f : S -> S) : M S E unit := fun s => (Ok tt, f s).
Fixpoint mfold {A B} (f : B -> A -> M S E B) (b : B) (l : list A) : M S E B :=
  match l with
  | [] => mret_ b
  | x :: l' => mbind_ (f b x) (fun b' => mfold f b' l')
  end.
End monad.

Notation "'do!' x <- c1 ; c2" := (mbind_ c1 (fun x => c2))
  (at level 10, x binder, c1 at level 100, c2 at level 200) : gateway_scope.
Notation "'run!' c1 ; c2" := (mbind_ c1 (fun _ => c2))
  (at level 10, c1 at level 100, c2 at level 200) : gateway_scope.

(** ** Record update

    [r <| f := v |>] is [r] with field [f] replaced.  A record type opts in with
    a [RecEta] instance, its eta expansion; the updater of a projection is found
    by abstracting the projection in that expansion. *)

Class RecEta (R : Type) := rec_eta : R -> R.
Class Updater {R T : Type} (proj : R -> T) := update_field : (T -> T) -> R -> R.

Ltac build_updater proj :=
  lazymatch type of proj with
  | ?R -> _ =>
      let inst := constr:(_ : RecEta R) in
      let body := eval hnf in inst in
      lazymatch eval pattern proj in body with
      | (fun _ => ?b) _ => fail "not a field of" R
      | ?abs _ =>
          let u := eval cbv beta in (fun f => abs (fun r => f (proj r))) in
          exact u
      end
  end.
#[export] Hint Extern 0 (Updater ?proj) => build_updater proj : typeclass_instances.

Notation "r <| proj := v |>" := (update_field (proj := proj) (fun _ => v) r)
  (at level 1, left associativity, proj at level 0, v at level 200,
   format "r <| proj  :=  v |>") : gateway_scope.

(** ** Decidable comparisons as the code writes them *)

Notation "a ==? b" := (bool_decide (a = b)) (at level 70, no associativity) : gateway_scope.
Notation "a !=? b" := (negb (bool_decide (a = b))) (at level 70, no associativity) : gateway_scope.

(** JavaScript's [x ?? d] on a value that may be absent. *)
Definition or_default {A} (d : A) (o : option A) : A :=
  match o with Some a => a | None => d end.
Notation "o ?? d" := (or_default d o) (at level 60, right associativity) : gateway_scope.

(** The first present one of two optional values. *)
Definition or_else {A} (o o' : option A) : option A :=
  match o with Some _ => o | None => o' end.

Definition is_present {A} (o : option A) : bool :=
  match o with Some _ => true | None => false end.

(** ** Tactics of the development

    [bools] turns the boolean guards of the code into propositions; [cases_in H]
    splits the innermost match of a hypothesis; [run_in H] executes a computation of
    the result or effect monad in a hypothesis until it meets a branch. *)

Create HintDb gateway.

Lemma negb_bool_decide_false (P : Prop) `{!Decision P} :
  negb (bool_decide P) = false <-> P.
Proof. rewrite negb_false_iff. apply bool_decide_eq_true. Qed.

Lemma negb_bool_decide_true (P : Prop) `{!Decision P} :
  negb (bool_decide P) = true <-> ~ P.
Proof. rewrite negb_true_iff. apply bool_decide_eq_false. Qed.

Ltac bools :=
  cbv beta in *;
  repeat match goal with
  | H : context [negb (bool_decide _) = false] |- _ => setoid_rewrite negb_bool_decide_false in H
  | H : context [negb (bool_decide _) = true] |- _ => setoid_rewrite negb_bool_decide_true in H
  | H : (_ || _)%bool = false |- _ => apply orb_false_iff in H; destruct H
  | H : (_ && _)%bool = true |- _ => apply andb_true_iff in H; destruct H
  | H : (_ || _)%bool = true |- _ => apply orb_true_iff in H
  | H : (_ && _)%bool = false |- _ => apply andb_false_iff in H
  | H : negb _ = true |- _ => apply negb_true_iff in H
  | H : negb _ = false |- _ => apply negb_false_iff in H
  | H : bool_decide _ = true |- _ => apply bool_decide_eq_true in H
  | H : bool_decide _ = false |- _ => apply bool_decide_eq_false in H
  | H : (_ <? _)%Z = true |- _ => apply Z.ltb_lt in H
  | H : (_ <? _)%Z = false |- _ => apply Z.ltb_ge in H
  | H : (_ <=? _)%Z = true |- _ => apply Z.leb_le in H
  | H : (_ <=? _)%Z = false |- _ => apply Z.leb_gt in H
  | H : (_ =? _)%Z = true |- _ => apply Z.eqb_eq in H
  | H : (_ =? _)%Z = false |- _ => apply Z.eqb_neq in H
  end.

Ltac cases_in H :=
  match type of H with
  | context [match ?x with _ => _ end] =>
      lazymatch x with
      | context [match _ with _ => _ end] => fail
      | _ => let E := fresh "E" in destruct x eqn:E; cbn beta iota in H
      end
  end.

Ltac cases_goal :=
  match goal with
  | |- context [match ?x with _ => _ end] =>
      lazymatch x with
      | context [match _ with _ => _ end] => fail
      | _ => let E := fresh "E" in destruct x eqn:E; cbn beta iota
      end
  end.

(** ** Shared lemmas *)

Lemma result_bind_Ok {E A B} (x : result E A) (f : A -> result E B) (b : B) :
  result_bind x f = Ok b <-> exists a, x = Ok a /\ f a = Ok b.
Proof. destruct x; cbn; naive_solver. Qed.

Lemma refuse_if_Ok {E} (b : bool) (e : E) (u : unit) :
  refuse_if b e = Ok u <-> b = false.
Proof. destruct b, u; cbn; naive_solver. Qed.

Lemma guard_Ok {E B} (b : bool) (e : E) (c : result E B) (v : B) :
  result_bind (refuse_if b e) (fun _ => c) = Ok v <-> b = false /\ c = Ok v.
Proof. destruct b; cbn; naive_solver. Qed.

Lemma mbind_Ok {S E A B} (m : M S E A) (k : A -> M S E B) (s s' : S) (b : B) :
  mbind_ m k s = (Ok b, s') <-> exists a s1, m s = (Ok a, s1) /\ k a s1 = (Ok b, s').
Proof. unfold mbind_. destruct (m s) as [[a|e] s1]; naive_solver. Qed.

Lemma or_default_Some {A} (d a : A) : (Some a ?? d) = a.
Proof. reflexivity. Qed.

(** The elements a filter keeps, as a membership fact both ways. *)
Lemma elem_of_filter_bool {A} (f : A -> bool) (l : list A) (x : A) :
  x ∈ List.filter f l <-> f x = true /\ x ∈ l.
Proof. rewrite !list_elem_of_In, List.filter_In. tauto. Qed.

Lemma Z_ceil_div_le_mono a b d :
  (0 < d)%Z -> (a <= b)%Z -> ((a + (d - 1)) / d <= (b + (d - 1)) / d)%Z.
Proof. intros Hd Hab. apply Z.div_le_mono; lia. Qed.
