(* ===== verification/Js.v ===== *)
(** * The JavaScript values the gateway computes with

    Numbers, strings and the regular expressions of the sources, as executable
    definitions.  A number of the program is an IEEE double; [jsnum] keeps its
    value (an integer, a non-integral fraction in lowest terms, an infinity or
    NaN), which is what every test of the code looks at.  A decimal string that
    is read back with [Number(...)] keeps its exact value here: the code accepts
    the result only if [Number.isSafeInteger] holds, and a decimal string above
    2^53-1 rounds to a double that is at least 2^53, so both sides refuse it.

    The last part is [Array.prototype.sort] and the comparators given to it. *)

From S2P Require Import Prelude.
From Stdlib Require Import Ascii.
Open Scope Z_scope.

(** ** Numbers *)

Inductive jsnum : Type :=
| NInt (z : Z)
| NFrac (num : Z) (den : positive)
| NInf (negative : bool)
| NNaN.

#[export] Instance jsnum_eq_dec : EqDecision jsnum.
Proof. solve_decision. Defined.

Definition MAX_SAFE_INTEGER : Z := 9007199254740991.
Definition UINT64_MAX : Z := 18446744073709551615.

(** [Number.isSafeInteger] *)
Definition safe_integer (z : Z) : bool := Z.abs z <=? MAX_SAFE_INTEGER.
Definition isSafeInteger (n : jsnum) : bool :=
  match n with NInt z => safe_integer z | _ => false end.
Definition isFinite (n : jsnum) : bool :=
  match n with NInt _ | NFrac _ _ => true | _ => false end.

(** [a === b] on numbers: NaN equals nothing. *)
Definition num_eqb (a b : jsnum) : bool :=
  match a, b with
  | NNaN, _ | _, NNaN => false
  | _, _ => bool_decide (a = b)
  end.

(** [n >= 0] and [n > 0] *)
Definition num_nonneg (n : jsnum) : bool :=
  match n with
  | NInt z | NFrac z _ => 0 <=? z
  | NInf neg => negb neg
  | NNaN => false
  end.
Definition num_pos (n : jsnum) : bool :=
  match n with
  | NInt z | NFrac z _ => 0 <? z
  | NInf neg => negb neg
  | NNaN => false
  end.

(** A count: an integer the code has checked with [Number.isSafeInteger] and a
    lower bound. *)
Definition safe_at_least (lo : Z) (n : jsnum) : bool :=
  match n with NInt z => safe_integer z && (lo <=? z) | _ => false end.

(** The sum of two integers below 2^53: exact up to 2^53, then rounded to an even
    number, ties to a multiple of four, as doubles are. *)
Definition num_add (a b : Z) : Z :=
  let s := a + b in
  if s <=? MAX_SAFE_INTEGER + 1 then s
  else if Z.even s then s
  else if (s - 1) mod 4 =? 0 then s - 1 else s + 1.

(** ** Arithmetic on doubles

    The exact rational result is rounded to the nearest double, ties to even.  The
    sign of zero is not kept. *)

(** [q * 2^k] as a number in lowest terms, for [0 <= q]. *)
Fixpoint dyadic (fuel : nat) (q k : Z) : jsnum :=
  if 0 <=? k then NInt (q * 2 ^ k)
  else match fuel with
       | O => NInt 0
       | S fuel' => if Z.even q then dyadic fuel' (q / 2) (k + 1) else NFrac q (Z.to_pos (2 ^ (- k)))
       end.

(** The double nearest to [n / d], for [0 < n]: a 53-bit significand [q] and an
    exponent [k] of at least -1074. *)
Definition round_positive (n : Z) (d : positive) : jsnum :=
  let e0 := Z.log2 n - Z.log2 (Zpos d) in
  let below := if 0 <=? e0 then n <? Zpos d * 2 ^ e0 else n * 2 ^ (- e0) <? Zpos d in
  let e := if below then e0 - 1 else e0 in
  let k := Z.max (e - 52) (-1074) in
  let '(a, b) := if 0 <=? k then (n, Zpos d * 2 ^ k) else (n * 2 ^ (- k), Zpos d) in
  let q := a / b in
  let r := a mod b in
  let q' := match 2 * r ?= b with
            | Lt => q
            | Gt => q + 1
            | Eq => if Z.even q then q else q + 1
            end in
  if (0 <=? k) && (2 ^ 1024 <=? q' * 2 ^ k) then NInf false else dyadic 1075 q' k.

Definition num_opp (n : jsnum) : jsnum :=
  match n with NInt z => NInt (- z) | NFrac z d => NFrac (- z) d | NInf b => NInf (negb b) | NNaN => NNaN end.
Definition round_double (n : Z) (d : positive) : jsnum :=
  match n with
  | Z0 => NInt 0
  | Zpos _ => round_positive n d
  | Zneg p => num_opp (round_positive (Zpos p) d)
  end.

Definition fraction (n : jsnum) : option (Z * positive) :=
  match n with NInt z => Some (z, 1%positive) | NFrac z d => Some (z, d) | _ => None end.

(** [a * b] and [a + b] *)
Definition num_mul (a b : jsnum) : jsnum :=
  match fraction a, fraction b with
  | Some (x, d), Some (y, e) => round_double (x * y) (d * e)
  | _, _ =>
      match a, b with
      | NNaN, _ | _, NNaN => NNaN
      | _, _ => if num_eqb a (NInt 0) || num_eqb b (NInt 0) then NNaN
                else NInf (negb (Bool.eqb (num_pos a) (num_pos b)))
      end
  end.
Definition num_plus (a b : jsnum) : jsnum :=
  match fraction a, fraction b with
  | Some (x, d), Some (y, e) => round_double (x * Zpos e + y * Zpos d) (d * e)
  | _, _ =>
      match a, b with
      | NNaN, _ | _, NNaN => NNaN
      | NInf s, NInf t => if Bool.eqb s t then NInf s else NNaN
      | NInf s, _ | _, NInf s => NInf s
      | _, _ => NNaN
      end
  end.
(** [Math.ceil(n)] *)
Definition num_ceil (n : jsnum) : jsnum :=
  match n with NFrac z d => NInt (- ((- z) / Zpos d)) | _ => n end.

(** ** Characters and strings *)

Definition code (c : ascii) : nat := nat_of_ascii c.
Definition in_range (lo hi : nat) (c : ascii) : bool := Nat.leb lo (code c) && Nat.leb (code c) hi.
Definition is_digit (c : ascii) : bool := in_range 48 57 c.
Definition is_lower (c : ascii) : bool := in_range 97 122 c.
Definition is_upper (c : ascii) : bool := in_range 65 90 c.
Definition is_lowhex (c : ascii) : bool := is_digit c || in_range 97 102 c.
Definition is_hex (c : ascii) : bool := is_lowhex c || in_range 65 70 c.

Fixpoint all_chars (p : ascii -> bool) (s : string) : bool :=
  match s with
  | EmptyString => true
  | String c s' => p c && all_chars p s'
  end.

Definition str_len (s : string) : Z := Z.of_nat (String.length s).

(** Truthiness of a string. *)
Definition nonempty (s : string) : bool :=
  match s with EmptyString => false | String _ _ => true end.
(** Truthiness of a string that may be absent. *)
Definition truthy (s : option string) : bool :=
  match s with Some s => nonempty s | None => false end.

Fixpoint startsWith (prefix s : string) : bool :=
  match prefix, s with
  | EmptyString, _ => true
  | String c p, String d s' => bool_decide (c = d) && startsWith p s'
  | String _ _, EmptyString => false
  end.

Fixpoint drop (n : nat) (s : string) : string :=
  match n, s with
  | O, _ => s
  | S n', String _ s' => drop n' s'
  | S _, EmptyString => EmptyString
  end.

(** [/^[a-z][a-z0-9_]{lo,hi}$/] *)
Definition reason_char (c : ascii) : bool := is_lower c || is_digit c || bool_decide (c = "_"%char).
Definition snake_code (lo hi : nat) (s : string) : bool :=
  match s with
  | EmptyString => false
  | String c s' => is_lower c && all_chars reason_char s' &&
                   Nat.leb lo (String.length s') && Nat.leb (String.length s') hi
  end.

(** [/^[0-9a-f]{64}$/] and [/^0x[0-9a-f]{64}$/] *)
Definition fingerprint_regex (s : string) : bool :=
  all_chars is_lowhex s && Nat.eqb (String.length s) 64.
Definition domain_regex (s : string) : bool :=
  startsWith "0x" s && fingerprint_regex (drop 2 s).
Definition repeat_char (c : ascii) (n : nat) : string :=
  Nat.iter n (String c) EmptyString.
Definition zero_domain : string := "0x" +:+ repeat_char "0" 64.

(** [s.replace(/\/$/, "")] *)
Fixpoint strip_slash (s : string) : string :=
  match s with
  | EmptyString => EmptyString
  | String c EmptyString => if bool_decide (c = "/"%char) then EmptyString else s
  | String c s' => String c (strip_slash s')
  end.

(** ASCII whitespace trimming and lower-casing, as [trim] and [toLowerCase] do
    on ASCII text. *)
Definition is_space (c : ascii) : bool := in_range 9 13 c || bool_decide (c = " "%char).
Fixpoint trim_start (s : string) : string :=
  match s with
  | EmptyString => EmptyString
  | String c s' => if is_space c then trim_start s' else s
  end.
Fixpoint trim_end (s : string) : string :=
  match s with
  | EmptyString => EmptyString
  | String c s' =>
      match trim_end s' with
      | EmptyString => if is_space c then EmptyString else String c EmptyString
      | t => String c t
      end
  end.
Definition trim (s : string) : string := trim_end (trim_start s).
Definition lower_char (c : ascii) : ascii :=
  if is_upper c then ascii_of_nat (code c + 32) else c.
Fixpoint toLowerCase (s : string) : string :=
  match s with
  | EmptyString => EmptyString
  | String c s' => String (lower_char c) (toLowerCase s')
  end.

(** ** Decimal strings *)

Definition digit_value (c : ascii) : Z := Z.of_nat (code c) - 48.
Fixpoint digits_value (acc : Z) (s : string) : option Z :=
  match s with
  | EmptyString => Some acc
  | String c s' => if is_digit c then digits_value (10 * acc + digit_value c) s' else None
  end.

(** The sources' pattern of a canonical decimal: a single zero, or digits that do
    not start with one. *)
Definition canonical_decimal (s : string) : bool :=
  match s with
  | EmptyString => false
  | String "0" s' => bool_decide (s' = EmptyString)
  | String c s' => is_digit c && all_chars is_digit s'
  end.

(** The value of a canonical decimal string. *)
Definition decimal_value (s : string) : option Z :=
  if canonical_decimal s then digits_value 0 s else None.

(** [String(n)] of a non-negative integer below 10^21. *)
Definition string_of_Z (z : Z) : string := pretty z.

(** [Number.isSafeInteger(Number(s))] for a canonical decimal, with the value. *)
Definition safe_decimal (s : string) : option Z :=
  match decimal_value s with
  | Some z => if safe_integer z then Some z else None
  | None => None
  end.

(** ** Facts about decimal strings *)

Lemma pretty_N_char_digit (d : N) :
  (d < 10)%N -> is_digit (pretty_N_char d) = true /\ digit_value (pretty_N_char d) = Z.of_N d.
Proof.
  intros Hd.
  assert (d = 0 \/ d = 1 \/ d = 2 \/ d = 3 \/ d = 4 \/ d = 5 \/ d = 6 \/ d = 7 \/ d = 8 \/ d = 9)%N
    as Hcases by lia.
  repeat (destruct Hcases as [->|Hcases]; [by vm_compute|]). by subst.
Qed.

Lemma pretty_N_go_value (x : N) (s : string) (acc : Z) :
  exists k, 0 <= k /\
  digits_value acc (pretty_N_go x s) =
    digits_value (acc * 10 ^ k + Z.of_N x) s /\
  (x = 0%N -> k = 0).
Proof.
  revert s. induction (N.lt_wf_0 x) as [x _ IH]. intros s.
  destruct (decide (x = 0%N)) as [->|Hx].
  - rewrite pretty_N_go_0. exists 0. split_and!; [lia| |done]. f_equal. lia.
  - rewrite pretty_N_go_step by lia.
    destruct (IH (x `div` 10)%N ltac:(apply N.div_lt; lia)
      (String (pretty_N_char (x `mod` 10)) s)) as (k & Hk & Heq & _).
    exists (k + 1). split_and!; [lia| |lia].
    rewrite Heq. cbn.
    destruct (pretty_N_char_digit (x `mod` 10)) as [-> ->]; [apply N.mod_lt; lia|].
    f_equal. rewrite Z.pow_add_r, Z.pow_1_r by lia.
    rewrite N2Z.inj_div, N2Z.inj_mod.
    pose proof (Z.div_mod (Z.of_N x) 10 ltac:(lia)). lia.
Qed.

Lemma pretty_N_go_digits (x : N) (s : string) :
  all_chars is_digit s = true -> all_chars is_digit (pretty_N_go x s) = true.
Proof.
  revert s. induction (N.lt_wf_0 x) as [x _ IH]. intros s Hs.
  destruct (decide (x = 0%N)) as [->|Hx]; [by rewrite pretty_N_go_0|].
  rewrite pretty_N_go_step by lia. apply IH; [apply N.div_lt; lia|].
  cbn. destruct (pretty_N_char_digit (x `mod` 10)) as [-> _]; [apply N.mod_lt; lia|done].
Qed.

(** The leading digit of a positive number is not zero. *)
Lemma pretty_N_go_head (x : N) (s : string) :
  (0 < x)%N -> exists c s', pretty_N_go x s = String c s' /\ c <> "0"%char.
Proof.
  revert s. induction (N.lt_wf_0 x) as [x _ IH]. intros s Hx.
  rewrite pretty_N_go_step by lia.
  destruct (decide (x `div` 10 = 0)%N) as [Hd|Hd].
  - rewrite Hd, pretty_N_go_0. eexists _, _. split; [done|].
    assert (x < 10)%N as Hlt by (by apply N.div_small_iff).
    rewrite N.mod_small by done.
    intros Hc. destruct (pretty_N_char_digit x Hlt) as [_ Hv].
    rewrite Hc in Hv. change (digit_value "0") with 0 in Hv. lia.
  - apply IH; [apply N.div_lt; lia|by apply N.neq_0_lt_0].
Qed.

(** Reading back what [String(n)] wrote gives [n]. *)
Lemma string_of_Z_value (z : Z) :
  0 <= z -> decimal_value (string_of_Z z) = Some z.
Proof.
  intros Hz. unfold decimal_value, string_of_Z.
  destruct z as [|p|p]; [done| |lia].
  change (pretty (Z.pos p)) with (pretty (N.pos p)).
  unfold pretty, pretty_N. rewrite decide_False by done.
  destruct (pretty_N_go_head (N.pos p) "" ltac:(lia)) as (c & s' & Hgo & Hc).
  assert (Hdig := pretty_N_go_digits (N.pos p) "" eq_refl).
  destruct (pretty_N_go_value (N.pos p) "" 0) as (k & Hk & Hval & _).
  rewrite Z.mul_0_l, Z.add_0_l in Hval.
  assert (canonical_decimal (pretty_N_go (N.pos p) "") = true) as ->.
  { rewrite Hgo in Hdig |- *. cbn in Hdig. apply andb_true_iff in Hdig as [Hd1 Hd2].
    destruct c as [[] [] [] [] [] [] [] []]; try done; cbn [canonical_decimal];
      by rewrite ?Hd1, ?Hd2. }
  rewrite Hval. reflexivity.
Qed.

Lemma digits_value_nonneg acc s z :
  0 <= acc -> digits_value acc s = Some z -> 0 <= z.
Proof.
  revert acc. induction s as [|c s IH]; intros acc Hacc; cbn; [naive_solver|].
  destruct (is_digit c) eqn:Hd; [|done]. apply IH.
  unfold is_digit, in_range in Hd. apply andb_true_iff in Hd as [Hd _].
  apply Nat.leb_le in Hd. unfold digit_value. lia.
Qed.

Lemma decimal_value_nonneg s z : decimal_value s = Some z -> 0 <= z.
Proof.
  unfold decimal_value. destruct (canonical_decimal s); [|done].
  by apply digits_value_nonneg.
Qed.

Lemma safe_decimal_bounds s z :
  safe_decimal s = Some z -> 0 <= z <= MAX_SAFE_INTEGER.
Proof.
  unfold safe_decimal. destruct (decimal_value s) as [v|] eqn:Hv; [|done].
  pose proof (decimal_value_nonneg _ _ Hv).
  destruct (safe_integer v) eqn:Hs; [|done]. intros [= ->].
  unfold safe_integer in Hs. bools. lia.
Qed.

Lemma safe_decimal_string_of_Z z :
  0 <= z <= MAX_SAFE_INTEGER -> safe_decimal (string_of_Z z) = Some z.
Proof.
  intros Hz. unfold safe_decimal. rewrite string_of_Z_value by lia.
  unfold safe_integer. by rewrite (proj2 (Z.leb_le _ _)) by lia.
Qed.

Lemma string_of_Z_inj a b :
  0 <= a -> 0 <= b -> string_of_Z a = string_of_Z b -> a = b.
Proof.
  intros Ha Hb Heq. apply string_of_Z_value in Ha, Hb. rewrite Heq in Ha. congruence.
Qed.

(** ... and writing back what was read gives the canonical text. *)
Lemma digit_char (c : ascii) :
  is_digit c = true ->
  exists d, (d < 10)%N /\ c = pretty_N_char d /\ digit_value c = Z.of_N d.
Proof.
  intros Hc. exists (N.of_nat (code c - 48)).
  by destruct c as [[] [] [] [] [] [] [] []]; try done; vm_compute.
Qed.

Lemma pretty_N_go_digits_value (s t : string) (a : N) (z : Z) :
  (0 < a)%N -> digits_value (Z.of_N a) s = Some z ->
  pretty_N_go (Z.to_N z) t = pretty_N_go a (s +:+ t) /\ 0 < z.
Proof.
  revert a. induction s as [|c s IH]; intros a Ha; cbn [digits_value].
  { intros [= <-]. rewrite N2Z.id. by split; [|lia]. }
  destruct (is_digit c) eqn:Hd; [|done]. destruct (digit_char c Hd) as (d & Hd10 & -> & ->).
  intros H. replace (10 * Z.of_N a + Z.of_N d) with (Z.of_N (10 * a + d)) in H by lia.
  apply IH in H as [H Hz]; [|lia]. split; [|done]. rewrite H, pretty_N_go_step by lia.
  rewrite (N.mul_comm 10), N.add_comm, N.div_add, N.Div0.mod_add by lia.
  by rewrite N.div_small, N.mod_small, N.add_0_l by lia.
Qed.

Lemma string_of_Z_decimal s z : decimal_value s = Some z -> string_of_Z z = s.
Proof.
  unfold decimal_value. destruct (canonical_decimal s) eqn:Hc; [|done].
  destruct s as [|c s]; [done|]. intros Hv.
  destruct (decide (c = "0"%char)) as [->|Hne].
  { cbn in Hc. bools. subst s. cbn in Hv. by injection Hv as <-. }
  assert (is_digit c = true) as Hd.
  { destruct c as [[] [] [] [] [] [] [] []]; try done; cbn in Hc; try done; by bools. }
  cbn [digits_value] in Hv. rewrite Hd in Hv.
  destruct (digit_char c Hd) as (d & Hd10 & -> & Hdv). rewrite Hdv, Z.mul_0_r, Z.add_0_l in Hv.
  assert (0 < d)%N as Hpos by (destruct (decide (d = 0)%N) as [->|]; [done|lia]).
  apply (pretty_N_go_digits_value s "" d z Hpos) in Hv as [Hgo Hz].
  unfold string_of_Z. destruct z as [|p|p]; [lia| |lia].
  change (pretty (Z.pos p)) with (pretty (N.pos p)). unfold pretty, pretty_N.
  rewrite decide_False by done. cbn [Z.to_N] in Hgo. rewrite Hgo, pretty_N_go_step by done.
  rewrite N.div_small, N.mod_small by done.
  rewrite pretty_N_go_0. f_equal. clear. induction s as [|c s IH]; [done|].
  change (String c s +:+ "") with (String c (s +:+ "")). by rewrite IH.
Qed.

Lemma safe_at_least_spec lo n :
  safe_at_least lo n = true <-> exists z, n = NInt z /\ lo <= z /\ Z.abs z <= MAX_SAFE_INTEGER.
Proof.
  destruct n; cbn; try naive_solver. unfold safe_integer.
  rewrite andb_true_iff, !Z.leb_le. naive_solver.
Qed.

Lemma num_add_exact a b : a + b <= MAX_SAFE_INTEGER + 1 -> num_add a b = a + b.
Proof. intros H. unfold num_add. by rewrite (proj2 (Z.leb_le _ _)) by lia. Qed.

Lemma num_add_nonneg a b : 0 <= a -> 0 <= b -> 0 <= num_add a b <= a + b + 1.
Proof.
  intros Ha Hb. unfold num_add, MAX_SAFE_INTEGER. repeat case_match; bools; lia.
Qed.

(** ** Facts about doubles *)

Lemma dyadic_nonneg fuel q k : 0 <= q -> num_nonneg (dyadic fuel q k) = true.
Proof.
  revert q k. induction fuel as [|fuel IH]; intros q k Hq; cbn [dyadic]; destruct (0 <=? k) eqn:E; bools.
  1,3: cbn; apply Z.leb_le; nia.
  - done.
  - destruct (Z.even q); [apply IH, Z.div_pos; lia|]. cbn. by apply Z.leb_le.
Qed.

(** The rounded significand of a positive quotient. *)
Lemma round_positive_nonneg n d : 0 < n -> num_nonneg (round_positive n d) = true.
Proof.
  intros Hn. unfold round_positive.
  set (k := Z.max _ _). clearbody k.
  destruct (if 0 <=? k then (n, _) else _) as [a b] eqn:Hab.
  assert (0 < b /\ 0 <= a) as [Hb Ha].
  { destruct (0 <=? k) eqn:Ek; bools; injection Hab as <- <-.
    - pose proof (Z.pow_pos_nonneg 2 k). lia.
    - pose proof (Z.pow_pos_nonneg 2 (- k)). nia. }
  pose proof (Z.div_pos a b ltac:(lia) Hb). destruct (_ && _); [done|].
  apply dyadic_nonneg. repeat case_match; lia.
Qed.

Lemma dyadic_integer fuel q k : 0 <= k -> dyadic fuel q k = NInt (q * 2 ^ k).
Proof. intros Hk. destruct fuel; cbn [dyadic]; by rewrite (proj2 (Z.leb_le 0 k)). Qed.

Lemma dyadic_shift fuel q j : (j <= fuel)%nat -> dyadic fuel (q * 2 ^ Z.of_nat j) (- Z.of_nat j) = NInt q.
Proof.
  revert fuel. induction j as [|j IH]; intros fuel Hj.
  { destruct fuel; cbn; f_equal; lia. }
  destruct fuel as [|fuel]; [lia|]. cbn [dyadic].
  rewrite (proj2 (Z.leb_gt 0 (- Z.of_nat (S j)))) by lia.
  replace (q * 2 ^ Z.of_nat (S j)) with (q * 2 ^ Z.of_nat j * 2)
    by (rewrite Nat2Z.inj_succ, Z.pow_succ_r by lia; lia).
  rewrite Z.even_mul, orb_true_r, Z.div_mul by lia.
  replace (- Z.of_nat (S j) + 1) with (- Z.of_nat j) by lia. apply IH. lia.
Qed.

(** An integer up to 2^53 is a double; a greater one rounds to at least 2^53. *)
Lemma round_integer n :
  0 < n ->
  match round_positive n 1 with
  | NInt z => z = n \/ (MAX_SAFE_INTEGER < z /\ MAX_SAFE_INTEGER < n)
  | _ => True
  end.
Proof.
  intros Hn. unfold round_positive. change (Z.log2 1) with 0. rewrite Z.sub_0_r.
  pose proof (Z.log2_spec n Hn) as Hl. pose proof (Z.log2_nonneg n) as Hl0.
  rewrite (proj2 (Z.leb_le 0 (Z.log2 n))) by lia. rewrite Z.mul_1_l, (proj2 (Z.ltb_ge n _)) by lia.
  set (k := Z.max (Z.log2 n - 52) (-1074)). destruct (0 <=? k) eqn:Ek; bools.
  - rewrite Z.mul_1_l. set (q' := match _ with Eq => _ | Lt => _ | Gt => _ end).
    destruct (_ && _); [done|]. rewrite dyadic_integer by done.
    destruct (Z.eq_dec k 0) as [Hk|Hk].
    + left. unfold q'. rewrite Hk, Z.pow_0_r, Z.div_1_r, Z.mod_1_r. apply Z.mul_1_r.
    + assert (k = Z.log2 n - 52) as Hkd by (unfold k in *; lia).
      assert (2 ^ k * 2 ^ 52 = 2 ^ Z.log2 n) as Hp by (rewrite <- Z.pow_add_r by lia; f_equal; lia).
      assert (2 <= 2 ^ k) as H2.
      { replace 2 with (2 ^ 1) at 1 by lia. apply Z.pow_le_mono_r; lia. }
      assert (2 ^ 52 <= n / 2 ^ k) as Hq by (apply Z.div_le_lower_bound; lia).
      assert (n / 2 ^ k <= q') as Hq' by (unfold q'; repeat case_match; lia).
      right. unfold MAX_SAFE_INTEGER. change (2 ^ 52) with 4503599627370496 in *. nia.
  - rewrite Z.mod_1_r, Z.div_1_r. change (2 * 0 ?= 1) with Lt. cbv iota. cbn [andb].
    assert (- k = Z.of_nat (Z.to_nat (- k))) as Hk by lia.
    assert (dyadic 1075 (n * 2 ^ (- k)) k = NInt n) as ->; [|by left].
    rewrite Hk. replace k with (- Z.of_nat (Z.to_nat (- k))) at 2 by lia. apply dyadic_shift. lia.
Qed.

(** ** Dates

    A [Date] object holds a time value in milliseconds or is invalid. *)

Inductive jsdate : Type :=
| DateMs (ms : Z)
| InvalidDate.

#[export] Instance jsdate_eq_dec : EqDecision jsdate.
Proof. solve_decision. Defined.

(** [new Date(ms)]: time values beyond 8.64e15 ms make an invalid date. *)
Definition new_date (ms : Z) : jsdate :=
  if Z.abs ms <=? 8640000000000000 then DateMs ms else InvalidDate.

(** [a <= b] on dates: false when either is invalid. *)
Definition date_le (a : jsdate) (b : Z) : bool :=
  match a with DateMs x => x <=? b | InvalidDate => false end.

Lemma num_mul_nonneg a b :
  num_pos a = true -> isFinite a = true -> num_pos b = true -> isFinite b = true -> num_nonneg (num_mul a b) = true.
Proof.
  intros Ha Fa Hb Fb. unfold num_mul.
  assert (forall x d y e, 0 < x -> 0 < y -> num_nonneg (round_double (x * y) (d * e)) = true) as H.
  { intros x d y e Hx Hy. unfold round_double. destruct (x * y) as [|p|p] eqn:E; [done| |nia].
    by apply round_positive_nonneg. }
  destruct a, b; try done; cbn in *; apply H; by apply Z.ltb_lt.
Qed.

Lemma num_ceil_nonneg n z : num_nonneg n = true -> num_ceil n = NInt z -> 0 <= z.
Proof.
  destruct n as [x|x d| |]; cbn; intros H [= <-]; bools; [done|].
  apply Z.opp_nonneg_nonpos, Z.div_le_upper_bound; lia.
Qed.

Lemma num_plus_ge a b m :
  0 <= a <= MAX_SAFE_INTEGER -> 0 <= b -> num_plus (NInt a) (NInt b) = NInt m -> a <= m.
Proof.
  intros Ha Hb. unfold num_plus. cbn [fraction]. rewrite !Z.mul_1_r. unfold round_double.
  destruct (a + b) as [|p|p] eqn:E; [intros [= <-]; lia| |lia].
  intros H. pose proof (round_integer (Zpos p) ltac:(lia)) as Hr. change (1 * 1)%positive with 1%positive in H.
  rewrite H in Hr. destruct Hr; lia.
Qed.

(** ** Comparators and Array.prototype.sort

    A JavaScript comparator returns a number of which only the sign is used; here it
    returns a [comparison].  The language requires [sort] to be stable but leaves the
    algorithm open: [sort_by] is one stable sort, and [stable_sort_unique] shows that
    every stable sort with a consistent comparator returns the same list, so that the
    choice of the algorithm is not a choice of the model. *)

(** A consistent comparator: a total preorder. *)
Class Comparator {A} (cmp : A -> A -> comparison) : Prop := {
  cmp_opp a b : cmp b a = CompOpp (cmp a b);
  cmp_trans a b c : cmp a b <> Gt -> cmp b c <> Gt -> cmp a c <> Gt
}.
Arguments cmp_opp {A} cmp {_} a b.
Arguments cmp_trans {A} cmp {_} a b c.

Section comparator.
Context {A : Type} (cmp : A -> A -> comparison).

Definition cmp_le (a b : A) : Prop := cmp a b <> Gt.
Definition tie (a b : A) : bool := match cmp a b with Eq => true | _ => false end.

#[export] Instance cmp_le_dec a b : Decision (cmp_le a b).
Proof. unfold cmp_le. apply _. Defined.

(** An element goes before the first one that is not smaller: equal elements keep
    their order. *)
Fixpoint insert_by (x : A) (l : list A) : list A :=
  match l with
  | [] => [x]
  | y :: l' => match cmp x y with Gt => y :: insert_by x l' | _ => x :: l end
  end.
Fixpoint sort_by (l : list A) : list A :=
  match l with
  | [] => []
  | x :: l' => insert_by x (sort_by l')
  end.

Context `{!Comparator cmp}.

Lemma cmp_refl a : cmp a a = Eq.
Proof. pose proof (cmp_opp cmp a a) as H. by destruct (cmp a a). Qed.
#[export] Instance cmp_le_trans : Transitive cmp_le.
Proof. intros a b c. apply (cmp_trans cmp). Qed.
Lemma cmp_le_total a b : cmp_le a b \/ cmp_le b a.
Proof. unfold cmp_le. rewrite (cmp_opp cmp a b). destruct (cmp a b); cbn; auto. Qed.
Lemma tie_le a b : tie a b = true <-> cmp_le a b /\ cmp_le b a.
Proof. unfold tie, cmp_le. rewrite (cmp_opp cmp a b). destruct (cmp a b); cbn; naive_solver. Qed.
Lemma tie_refl a : tie a a = true.
Proof. unfold tie. by rewrite cmp_refl. Qed.
Lemma tie_trans a b c : tie a b = true -> tie b c = true -> tie a c = true.
Proof. rewrite !tie_le. intros [] []. split; by etrans. Qed.
Lemma tie_sym a b : tie a b = true -> tie b a = true.
Proof. rewrite !tie_le. tauto. Qed.
Lemma cmp_gt_le a b : cmp a b = Gt -> cmp_le b a.
Proof. unfold cmp_le. rewrite (cmp_opp cmp a b). by intros ->. Qed.

Lemma insert_by_Permutation x l : insert_by x l ≡ₚ x :: l.
Proof.
  induction l as [|y l IH]; cbn; [done|]. destruct (cmp x y); [done..|].
  rewrite IH. apply Permutation_swap.
Qed.
Lemma sort_by_Permutation l : sort_by l ≡ₚ l.
Proof. induction l as [|x l IH]; cbn; [done|]. by rewrite insert_by_Permutation, IH. Qed.
Lemma elem_of_sort_by x l : x ∈ sort_by l <-> x ∈ l.
Proof. by rewrite sort_by_Permutation. Qed.

Lemma insert_by_sorted x l : StronglySorted cmp_le l -> StronglySorted cmp_le (insert_by x l).
Proof.
  induction 1 as [|y l Hl IH Hy]; cbn; [by repeat constructor|].
  destruct (cmp x y) eqn:E.
  1,2: assert (cmp_le x y) as Hxy by (unfold cmp_le; congruence);
    (constructor; [by constructor|]); (constructor; [done|]);
    (eapply Forall_impl; [exact Hy|]); intros z Hz; by etrans.
  constructor; [done|]. rewrite insert_by_Permutation. constructor; [by apply cmp_gt_le|done].
Qed.
Lemma sort_by_sorted l : StronglySorted cmp_le (sort_by l).
Proof. induction l as [|x l IH]; cbn; [constructor|]. by apply insert_by_sorted. Qed.

Lemma filter_insert_tie a x l :
  List.filter (tie a) (insert_by x l) = List.filter (tie a) (x :: l).
Proof.
  induction l as [|y l IH]; cbn; [done|]. destruct (cmp x y) eqn:E; [done..|].
  cbn [List.filter] in *. rewrite IH. destruct (tie a x) eqn:Ex, (tie a y) eqn:Ey; try done.
  exfalso. assert (tie x y = true) as Hxy by (eapply tie_trans; [by apply tie_sym|done]).
  unfold tie in Hxy. by rewrite E in Hxy.
Qed.
Lemma sort_by_stable a l : List.filter (tie a) (sort_by l) = List.filter (tie a) l.
Proof.
  induction l as [|x l IH]; cbn [sort_by]; [done|]. rewrite filter_insert_tie. cbn [List.filter].
  by rewrite IH.
Qed.

Lemma class_elem a l l' :
  List.filter (tie a) l = List.filter (tie a) l' -> a ∈ l -> a ∈ l'.
Proof.
  intros Heq Hin. assert (a ∈ List.filter (tie a) l) as H
    by (apply elem_of_filter_bool; by rewrite tie_refl).
  rewrite Heq in H. by apply elem_of_filter_bool in H as [_ H].
Qed.

(** Sorted lists with the same classes, each in the same order, are equal. *)
Lemma sorted_classes_unique l1 l2 :
  StronglySorted cmp_le l1 -> StronglySorted cmp_le l2 ->
  (forall a, List.filter (tie a) l1 = List.filter (tie a) l2) -> l1 = l2.
Proof.
  intros H1. revert l2. induction H1 as [|a l1 H1 IH Ha]; intros l2 H2 Hcl.
  { destruct l2 as [|b l2]; [done|]. specialize (Hcl b). cbn in Hcl. by rewrite tie_refl in Hcl. }
  assert (a ∈ l2) as Hin by (apply (class_elem a (a :: l1)); [apply Hcl|left]).
  destruct l2 as [|b l2]; [by apply not_elem_of_nil in Hin|].
  assert (b ∈ a :: l1) as Hinb by (apply (class_elem b (b :: l2)); [by rewrite Hcl|left]).
  apply StronglySorted_inv in H2 as [H2 Hb].
  assert (tie a b = true) as Htie.
  { apply tie_le. apply elem_of_cons in Hin as [->|Hin]; [by apply tie_le, tie_refl|].
    apply elem_of_cons in Hinb as [->|Hinb]; [by apply tie_le, tie_refl|].
    split; [by apply (proj1 (Forall_forall _ _) Ha)|by apply (proj1 (Forall_forall _ _) Hb)]. }
  pose proof (Hcl a) as Hc. cbn in Hc. rewrite tie_refl, Htie in Hc. injection Hc as <- _.
  f_equal. apply IH; [done|]. intros c. specialize (Hcl c). cbn in Hcl.
  destruct (tie c a); [by injection Hcl|done].
Qed.

(** Whatever stable algorithm the engine uses, the result is [sort_by]. *)
Lemma stable_sort_unique l l' :
  StronglySorted cmp_le l' -> (forall a, List.filter (tie a) l' = List.filter (tie a) l) -> l' = sort_by l.
Proof.
  intros Hs Hf. apply sorted_classes_unique; [done|apply sort_by_sorted|].
  intros a. by rewrite sort_by_stable, Hf.
Qed.
End comparator.

(** *** Building comparators *)

(** Comparing by a key. *)
Definition compare_on {A B} (f : A -> B) (cmp : B -> B -> comparison) (a b : A) : comparison := cmp (f a) (f b).
(** The first comparison that is not a tie. *)
Definition then_by {A} (c1 c2 : A -> A -> comparison) (a b : A) : comparison :=
  match c1 a b with Eq => c2 a b | c => c end.
Definition reversed {A} (cmp : A -> A -> comparison) (a b : A) : comparison := cmp b a.
#[global] Typeclasses Opaque compare_on then_by reversed.

#[export] Instance compare_on_comparator {A B} (f : A -> B) cmp :
  Comparator cmp -> Comparator (compare_on f cmp).
Proof. intros H. split; unfold compare_on; [intros; apply (cmp_opp cmp)|intros a b c; apply (cmp_trans cmp)]. Qed.

#[export] Instance reversed_comparator {A} (cmp : A -> A -> comparison) :
  Comparator cmp -> Comparator (reversed cmp).
Proof.
  intros H. split; unfold reversed; [intros; apply (cmp_opp cmp)|].
  intros a b c Hab Hbc. by apply (cmp_trans cmp c b a).
Qed.

#[export] Instance then_by_comparator {A} (c1 c2 : A -> A -> comparison) :
  Comparator c1 -> Comparator c2 -> Comparator (then_by c1 c2).
Proof.
  intros H1 H2. split; unfold then_by.
  - intros a b. rewrite (cmp_opp c1 a b), (cmp_opp c2 a b). by destruct (c1 a b).
  - intros a b c Hab Hbc.
    pose proof (cmp_trans c1 a b c) as T1. pose proof (cmp_trans c2 a b c) as T2.
    pose proof (cmp_trans c1 c a b) as T3. pose proof (cmp_trans c1 b c a) as T4.
    rewrite (cmp_opp c1 a c), (cmp_opp c1 b c) in *.
    rewrite (cmp_opp c1 a b) in T4.
    destruct (c1 a b), (c1 b c), (c1 a c); cbn in *; auto; try congruence.
    all: exfalso; first [by apply T1|by apply T3|by apply T4].
Qed.

#[export] Instance Z_comparator : Comparator Z.compare.
Proof.
  split; [intros; apply Z.compare_antisym|]. intros a b c. rewrite !Z.compare_le_iff. lia.
Qed.

(** [true] before [false]. *)
Definition true_first (a b : bool) : comparison :=
  match a, b with
  | true, false => Lt
  | false, true => Gt
  | _, _ => Eq
  end.
#[export] Instance true_first_comparator : Comparator true_first.
Proof. split; [by intros [] []|]. by intros [] [] []. Qed.

(** *** Collation

    [a.localeCompare(b)] is computed by the engine from the collation of its locale.
    The code relies on its being a total preorder; distinct strings may compare as
    equal. *)
Class Collation := {
  localeCompare : string -> string -> comparison;
  #[export] localeCompare_comparator :: Comparator localeCompare
}.

Lemma le_compare (a b : string) : String.le a b <-> String.compare a b <> Gt.
Proof. unfold String.le, String.leb. destruct (String.compare a b); naive_solver. Qed.

(** The order of code units: [Array.prototype.sort] without a comparator, and an
    instance of a collation. *)
#[export] Instance code_unit_comparator : Comparator String.compare.
Proof.
  split; [intros; apply String.compare_antisym|].
  intros a b c. rewrite <- !le_compare. by apply transitivity.
Qed.
Definition code_unit_collation : Collation := {| localeCompare := String.compare |}.
