(* ===== verification/Types.v ===== *)
(** * The data of the paid-operation core

    JSON values, the exceptions of the gateway, and the records of
    engine/types/paidOperation.ts, engine/types/worker.ts and
    engine/repo/paidOperationRepo.ts.  An optional field is an [option]; a field
    name carries a prefix for its record, since the sources reuse names across
    interfaces. *)

From S2P Require Import Prelude Js.
Open Scope Z_scope.

(** ** JSON *)

Inductive json : Type :=
| JNull
| JBool (b : bool)
| JNum (n : jsnum)
| JStr (s : string)
| JArr (items : list json)
| JObj (fields : list (string * json)).

(** A property of a plain object, [None] for [undefined]. *)
Fixpoint assoc {A} (k : string) (l : list (string * A)) : option A :=
  match l with
  | [] => None
  | (k', v) :: l' => if bool_decide (k = k') then Some v else assoc k l'
  end.

(** ** Exceptions

    The error classes the code distinguishes with [instanceof]; every other
    throw (a plain [Error], a schema error, a database error) is [PlainError]. *)

Record LocError := mkLocError {
  loc_code : string;
  loc_operation : option string;
  loc_status : option Z;
  loc_remoteCode : option string;
  loc_retryable : bool;
  loc_retryAfterSeconds : option Z
}.
#[export] Instance LocError_eta : RecEta LocError := fun e =>
  mkLocError (loc_code e) (loc_operation e) (loc_status e) (loc_remoteCode e)
    (loc_retryable e) (loc_retryAfterSeconds e).

Inductive exn : Type :=
| PaidSessionClientError (code : string) (retryable : bool)
| PaidJobClientError (code : string) (retryable : bool)
| LocTransportError (e : LocError)
| AbrUsageError (code : string)
| AbrExchangeError (code : string) (retryable : bool)
| SourceProbeError (code : string) (retryable : bool)
| PlainError (message : string).

#[export] Instance LocError_eq_dec : EqDecision LocError.
Proof. solve_decision. Defined.
#[export] Instance exn_eq_dec : EqDecision exn.
Proof. solve_decision. Defined.

Definition bytes : Type := list Byte.byte.

(** ** engine/types/paidOperation.ts *)

Inductive PaidOperationKind : Type := job | session.
#[export] Instance PaidOperationKind_eq_dec : EqDecision PaidOperationKind.
Proof. solve_decision. Defined.

Record PaidRouteSnapshot := mkPaidRouteSnapshot {
  route_protocol : string;
  route_transport : option string;
  route_capability : string;
  route_offering : string;
  route_requestDescriptor : string;
  route_responseDescriptor : option string;
  route_workUnit : string;
  route_estimator : option json;
  route_pricePerUnitWei : string;
  route_unitsPerPrice : string;
  route_quoteId : string;
  route_quoteVersion : string;
  route_constraintFingerprint : string;
  route_routeFingerprint : string;
  route_settlementDomainId : option string;
  route_settlementKey : string;
  route_raw : json
}.

Inductive PublisherMode : Type := gateway_relay | direct_publisher.
Inductive RelayStatus : Type :=
| relay_pending | relay_starting | relay_active | relay_reconnecting
| relay_stopping | relay_stopped | relay_failed.
Inductive OutputState : Type :=
| output_unknown | output_waiting | output_producing | output_stalled.
#[export] Instance PublisherMode_eq_dec : EqDecision PublisherMode.
Proof. solve_decision. Defined.
#[export] Instance RelayStatus_eq_dec : EqDecision RelayStatus.
Proof. solve_decision. Defined.
#[export] Instance OutputState_eq_dec : EqDecision OutputState.
Proof. solve_decision. Defined.

Record PaidSessionRuntimeState := mkRuntime {
  rt_publisherMode : PublisherMode;
  rt_relayStatus : RelayStatus;
  rt_relayGeneration : Z;
  rt_runnerSessionId : option string;
  rt_runnerHlsUrl : option string;
  rt_lastRunnerEventId : option string;
  rt_lastRunnerSequence : string;
  rt_lastRunnerUsage : string;
  rt_controlCursor : option string;
  rt_refillCount : option Z;
  rt_lastHttpReconcileAt : option string;
  rt_relayDisconnectedAt : option string;
  rt_winddownReason : option string;
  rt_outputState : option OutputState;
  rt_outputStateSince : option string;
  rt_lastFailureCode : option string
}.
#[export] Instance PaidSessionRuntimeState_eta : RecEta PaidSessionRuntimeState := fun r =>
  mkRuntime (rt_publisherMode r) (rt_relayStatus r) (rt_relayGeneration r)
    (rt_runnerSessionId r) (rt_runnerHlsUrl r) (rt_lastRunnerEventId r)
    (rt_lastRunnerSequence r) (rt_lastRunnerUsage r) (rt_controlCursor r)
    (rt_refillCount r) (rt_lastHttpReconcileAt r) (rt_relayDisconnectedAt r)
    (rt_winddownReason r) (rt_outputState r) (rt_outputStateSince r) (rt_lastFailureCode r).
#[export] Instance PaidSessionRuntimeState_eq_dec : EqDecision PaidSessionRuntimeState.
Proof. solve_decision. Defined.

Record PaidTerminalEvidence := mkEvidence {
  ev_httpStatus : Z;
  ev_responseSha256 : string;
  ev_workUnit : string;
  ev_workUnits : string;
  ev_protocolError : option string;
  ev_claimSignature : option string;
  ev_closeReason : option string
}.

Record PaidOperation := mkPaidOperation {
  op_id : string;
  op_kind : PaidOperationKind;
  op_apiKeyId : string;
  op_assetId : option string;
  op_liveStreamId : option string;
  op_requestId : string;
  op_requestContentSha256 : string;
  op_workId : string;
  op_rotationGeneration : Z;
  op_route : PaidRouteSnapshot;
  op_status : string;
  op_locOperationId : option string;
  op_brokerJobId : option string;
  op_brokerSessionId : option string;
  op_fundedUnits : string;
  op_claimedUnits : option string;
  op_balanceUnits : option string;
  op_willRefuseNextRefill : option bool;
  op_leaseExpiresAt : option Z;
  op_settlementSequence : string;
  op_lifecycleVersion : string;
  op_recoveryOwner : option string;
  op_recoveryLeaseExpiresAt : option Z;
  op_sessionRuntime : option PaidSessionRuntimeState;
  op_retryCount : Z;
  op_nextRetryAt : option Z;
  op_lastErrorCode : option string;
  op_terminalEvidence : option PaidTerminalEvidence;
  op_createdAt : Z;
  op_updatedAt : Z;
  op_terminalAt : option Z
}.

Record PaidOperationSecrets := mkSecrets {
  sec_openIntent : option json;
  sec_routeIntent : option json;
  sec_sessionParams : option json;
  sec_grants : option json;
  sec_control : option json;
  sec_loc : option json;
  sec_runnerIngestUrl : option string;
  sec_runnerIngestKey : option string;
  sec_credentials : option json;
  sec_refillIntent : option json
}.
#[export] Instance PaidOperationSecrets_eta : RecEta PaidOperationSecrets := fun s =>
  mkSecrets (sec_openIntent s) (sec_routeIntent s) (sec_sessionParams s) (sec_grants s)
    (sec_control s) (sec_loc s) (sec_runnerIngestUrl s) (sec_runnerIngestKey s)
    (sec_credentials s) (sec_refillIntent s).

(** ** engine/repo/paidOperationRepo.ts *)

Record NewPaidOperation := mkNew {
  new_id : string;
  new_kind : PaidOperationKind;
  new_apiKeyId : string;
  new_assetId : option string;
  new_liveStreamId : option string;
  new_requestId : string;
  new_requestContentSha256 : string;
  new_workId : string;
  new_rotationGeneration : option Z;
  new_route : PaidRouteSnapshot;
  new_status : string;
  new_fundedUnits : string;
  new_sessionRuntime : option PaidSessionRuntimeState
}.

Record PaidOperationClaim := mkClaim {
  cl_owner : string;
  cl_version : string;
  cl_leaseExpiresAt : jsdate
}.

Record PaidOperationProgress := mkProgress {
  pr_lastErrorCode : option string;
  pr_nextRetryAt : option Z;
  pr_retryCount : option Z;
  pr_status : string;
  pr_workId : option string;
  pr_rotationGeneration : option Z;
  pr_requestId : option string;
  pr_locOperationId : option string;
  pr_brokerJobId : option string;
  pr_brokerSessionId : option string;
  pr_fundedUnits : option string;
  pr_claimedUnits : option string;
  pr_balanceUnits : option string;
  pr_willRefuseNextRefill : option bool;
  pr_leaseExpiresAt : option Z;
  pr_settlementSequence : option string;
  pr_sessionRuntime : option PaidSessionRuntimeState
}.
#[export] Instance PaidOperationProgress_eta : RecEta PaidOperationProgress := fun p =>
  mkProgress (pr_lastErrorCode p) (pr_nextRetryAt p) (pr_retryCount p) (pr_status p)
    (pr_workId p) (pr_rotationGeneration p) (pr_requestId p) (pr_locOperationId p)
    (pr_brokerJobId p) (pr_brokerSessionId p) (pr_fundedUnits p) (pr_claimedUnits p)
    (pr_balanceUnits p) (pr_willRefuseNextRefill p) (pr_leaseExpiresAt p)
    (pr_settlementSequence p) (pr_sessionRuntime p).

(** A progress value with only its status, the base the call sites extend. *)
Definition progress (status : string) : PaidOperationProgress :=
  mkProgress None None None status None None None None None None None None None None None
    None None.

(** The value objects of [recordRetry], [recordTerminal], [recordLiveTerminal] and
    [recordVodTerminal]. *)
Record RetryValue := mkRetry {
  rv_status : string;
  rv_nextRetryAt : Z;
  rv_errorCode : string
}.

Record TerminalValue := mkTerminal {
  tv_status : string;
  tv_claimedUnits : string;
  tv_settlementSequence : string;
  tv_evidence : PaidTerminalEvidence;
  tv_terminalAt : Z
}.

Record LiveTerminalValue := mkLiveTerminal {
  lt_liveStreamId : string;
  lt_claimedUnits : string;
  lt_settlementSequence : string;
  lt_evidence : PaidTerminalEvidence;
  lt_terminalAt : Z
}.

Record TerminalRendition := mkTerminalRendition {
  tr_renditionId : string;
  tr_storageKey : string;
  tr_durationSeconds : jsnum
}.

Record VodTerminalValue := mkVodTerminal {
  vt_assetId : string;
  vt_encodingJobId : string;
  vt_playbackId : string;
  vt_apiKeyId : string;
  vt_locOperationId : string;
  vt_brokerJobId : string;
  vt_brokerRequestId : string;
  vt_claimedUnits : string;
  vt_settlementSequence : string;
  vt_evidence : PaidTerminalEvidence;
  vt_terminalAt : Z;
  vt_renditions : list TerminalRendition
}.

(** ** engine/types/worker.ts *)

Inductive Transport : Type := unary | stream | multipart.
Inductive Attachment : Type := external | inband_ws.
Inductive Metering : Type := runner_reported | broker_observed.
Inductive Refill : Type := extensible | bounded.
Inductive LeasePolicy : Type := funding_tracking | fixed.
#[export] Instance Transport_eq_dec : EqDecision Transport.
Proof. solve_decision. Defined.
#[export] Instance Attachment_eq_dec : EqDecision Attachment.
Proof. solve_decision. Defined.
#[export] Instance Metering_eq_dec : EqDecision Metering.
Proof. solve_decision. Defined.
#[export] Instance Refill_eq_dec : EqDecision Refill.
Proof. solve_decision. Defined.
#[export] Instance LeasePolicy_eq_dec : EqDecision LeasePolicy.
Proof. solve_decision. Defined.

Record PaidSessionHeartbeat := mkHeartbeat {
  hb_intervalSeconds : Z;
  hb_missedThreshold : Z
}.
Record PaidSessionLease := mkLease {
  le_policy : LeasePolicy;
  le_maxSeconds : option Z
}.
Record PaidSessionAxes := mkSessionAxes {
  ax_descriptorSchema : string;
  ax_attachment : Attachment;
  ax_metering : Metering;
  ax_refill : Refill;
  ax_heartbeat : PaidSessionHeartbeat;
  ax_lease : PaidSessionLease;
  ax_toleranceBandPct : option jsnum;
  ax_runwayIncrementUnits : option Z;
  ax_sessionParamsSchema : option json
}.
Record PaidJobAxes := mkJobAxes { jx_transports : list Transport }.

Record WorkUnitEstimator := mkEstimator {
  est_id : string;
  est_rounding : string;
  est_exactness : string;
  est_package : option string;
  est_fixtures : option string
}.
Record SettlementKey := mkSettlementKey {
  sk_publicKey : string;
  sk_notBefore : string;
  sk_expiresAt : string;
  sk_introducedInPublicationSeq : string
}.

Record SelectedWorkerRoute := mkSelectedRoute {
  sw_workerUrl : string;
  sw_ethAddress : string;
  sw_capability : string;
  sw_offering : string;
  sw_pricePerWorkUnitWei : string;
  sw_workUnit : string;
  sw_protocol : string;
  sw_job : option PaidJobAxes;
  sw_session : option PaidSessionAxes;
  sw_workUnitEstimator : option WorkUnitEstimator;
  sw_settlementKeys : list SettlementKey;
  sw_settlementDomainId : option string;
  sw_unitsPerPrice : option string;
  sw_quoteId : option string;
  sw_quoteVersion : option string;
  sw_constraintFingerprint : option bytes;
  sw_routeFingerprint : option bytes;
  sw_extra : option json;
  sw_constraints : option json
}.
