(* ===== verification/Wire.v ===== *)
(** * Decoding wire messages

    The gateway validates every message from another service with a zod schema.
    A schema is a decoder [json -> option A] here; the combinators below are the
    ones the sources use.  [int()] of zod 4 accepts safe integers only. *)

From S2P Require Import Prelude Js Types.
Open Scope Z_scope.

Definition decoder (A : Type) : Type := json -> option A.

(** [z.string()], [z.string().min(1)], [z.boolean()], [z.json()] *)
Definition z_string : decoder string := fun j => match j with JStr s => Some s | _ => None end.
Definition z_text : decoder string := fun j =>
  match j with JStr s => if nonempty s then Some s else None | _ => None end.
Definition z_boolean : decoder bool := fun j => match j with JBool b => Some b | _ => None end.
Definition z_json : decoder json := fun j => Some j.

(** [z.number().int()] with [nonnegative()] or [positive()] *)
Definition z_int_from (lo : Z) : decoder Z := fun j =>
  match j with JNum (NInt z) => if safe_integer z && (lo <=? z) then Some z else None | _ => None end.
Definition z_nonneg : decoder Z := z_int_from 0.
Definition z_positive : decoder Z := z_int_from 1.

(** [z.string().refine(p)] and [regex(p)] *)
Definition z_refined (p : string -> bool) : decoder string := fun j =>
  match j with JStr s => if p s then Some s else None | _ => None end.

(** [z.enum([...])] *)
Definition z_enum {A} (names : list (string * A)) : decoder A := fun j =>
  match j with JStr s => assoc s names | _ => None end.

Fixpoint decode_all {A} (dec : decoder A) (l : list json) : option (list A) :=
  match l with
  | [] => Some []
  | x :: l' => a ← dec x; r ← decode_all dec l'; Some (a :: r)
  end.

(** [z.array(dec).min(n)] *)
Definition z_array {A} (n : nat) (dec : decoder A) : decoder (list A) := fun j =>
  match j with
  | JArr l => if Nat.leb n (length l) then decode_all dec l else None
  | _ => None
  end.

(** [z.object({...})]: the decoder of the fields applied to the properties. *)
Definition z_object {A} (dec : list (string * json) -> option A) : decoder A := fun j =>
  match j with JObj fields => dec fields | _ => None end.

(** A required property, an optional one (absent is [undefined]; null is refused). *)
Definition field {A} (fields : list (string * json)) (k : string) (dec : decoder A) : option A :=
  match assoc k fields with Some j => dec j | None => None end.
Definition opt_field {A} (fields : list (string * json)) (k : string) (dec : decoder A)
    : option (option A) :=
  match assoc k fields with
  | Some j => match dec j with Some a => Some (Some a) | None => None end
  | None => Some None
  end.

(** [.strict()]: no property outside the schema. *)
Definition strict (keys : list string) (fields : list (string * json)) : option unit :=
  if forallb (fun kv => bool_decide (fst kv ∈ keys)) fields then Some tt else None.

(** Properties of a decoded [z.record(...)] or passed-through object. *)
Definition z_record : decoder (list (string * json)) := fun j =>
  match j with JObj fields => Some fields | _ => None end.

Lemma z_int_from_spec lo j z :
  z_int_from lo j = Some z -> j = JNum (NInt z) /\ lo <= z /\ Z.abs z <= MAX_SAFE_INTEGER.
Proof.
  destruct j as [| |n| | |]; try done. destruct n; try done. cbn.
  destruct (_ && _) eqn:E; [|done]. intros [= ->]. unfold safe_integer in E. by bools.
Qed.

Lemma z_text_nonempty j s : z_text j = Some s -> nonempty s = true.
Proof. destruct j; try done. cbn. destruct (nonempty s0) eqn:E; [|done]. by intros [= <-]. Qed.

Lemma field_Some {A} fields k (dec : decoder A) a :
  field fields k dec = Some a -> exists j, assoc k fields = Some j /\ dec j = Some a.
Proof. unfold field. destruct (assoc k fields); [eauto|done]. Qed.

Lemma field_literal {A} fields k j (dec : decoder A) a :
  assoc k fields = Some j -> field fields k dec = Some a -> dec j = Some a.
Proof. unfold field. by intros ->. Qed.
Lemma field_at {A} (a : A) fields k j (dec : decoder A) :
  assoc k fields = Some j -> dec j = Some a -> field fields k dec = Some a.
Proof. unfold field. by intros ->. Qed.
Lemma opt_field_at {A} (o : option A) fields k (to : A -> json) (dec : decoder A) :
  assoc k fields = to <$> o -> (forall a, o = Some a -> dec (to a) = Some a) -> opt_field fields k dec = Some o.
Proof. unfold opt_field. intros ->. destruct o as [a|]; [|done]. intros H. cbn. by rewrite (H a eq_refl). Qed.

Lemma z_refined_Some p j s : z_refined p j = Some s -> j = JStr s /\ p s = true.
Proof. destruct j; try done. cbn. destruct (p s0) eqn:E; [|done]. by intros [= <-]. Qed.
Lemma z_text_Some j s : z_text j = Some s -> j = JStr s /\ nonempty s = true.
Proof. destruct j; try done. cbn. destruct (nonempty s0) eqn:E; [|done]. by intros [= <-]. Qed.
Lemma z_object_Some {A} (dec : list (string * json) -> option A) j a :
  z_object dec j = Some a -> exists f, j = JObj f /\ dec f = Some a.
Proof. destruct j; try done. cbn. eauto. Qed.
Lemma field_decodes {A} f k (dec : decoder A) a : field f k dec = Some a -> exists j, dec j = Some a.
Proof. intros H. apply field_Some in H as (j & _ & H). eauto. Qed.

(** A value that passed a schema passes it again in the shape the code rebuilds. *)
Lemma z_text_again j s : z_text j = Some s -> z_text (JStr s) = Some s.
Proof. intros [-> H]%z_text_Some. cbn -[nonempty]. by rewrite H. Qed.
Lemma z_refined_again p j s : z_refined p j = Some s -> z_refined p (JStr s) = Some s.
Proof. intros [-> H]%z_refined_Some. cbn. by rewrite H. Qed.

(** Read one property of a literal object, the value being recovered by [tac]. *)
Tactic Notation "reading" constr(k) "as" constr(a) "by" tactic3(tac) :=
  erewrite (field_at a _ k); [|reflexivity|tac].
Tactic Notation "maybe" constr(k) "as" constr(o) "by" tactic3(tac) :=
  erewrite (opt_field_at o _ k); [|tac|].

(** Invert the properties of a decoded object one by one. *)
Ltac decoding H := repeat
  match type of H with
  | (_ ≫= _) = Some _ => let x := fresh "x" in let Hx := fresh "D" in apply bind_Some in H as (x & Hx & H)
  end.
