(* ===== verification/Http.v ===== *)
(** * Calls to other services

    A computation that talks to the network runs over [net]: the number of calls
    made so far, which indexes the answers of the outside world, and the requests
    sent, latest first.  The platform's functions whose algorithm no property
    depends on (hashing, JSON text, URL syntax, dates, signatures) are the
    parameters of [Platform].  The last part counts the exchanges of a program. *)

From S2P Require Import Prelude Js Types Wire.
From Stdlib Require Import Ascii.
Open Scope Z_scope.

Record HttpRequest := mkHttpRequest {
  rq_method : string;
  rq_url : string;
  rq_headers : list (string * string);
  rq_body : option string
}.

(** A response: its status, its headers by lower-case name, what [response.json()]
    resolves to ([None] when it rejects), and the bytes of the body.  Nothing ties the
    two views of the body together: the other side may answer with any pair. *)
Record HttpResponse := mkHttpResponse {
  rs_status : Z;
  rs_headers : list (string * string);
  rs_json : option json;
  rs_body : string
}.

Definition response_ok (r : HttpResponse) : bool := (200 <=? rs_status r) && (rs_status r <=? 299).
(** [response.headers.get(name)] *)
Definition get_header (name : string) (r : HttpResponse) : option string :=
  assoc (toLowerCase name) (rs_headers r).

(** [Buffer.from(s, "hex")]: pairs of hex digits up to the first other character. *)
Definition hex_value (c : ascii) : option nat :=
  let n := code c in
  if is_digit c then Some (n - 48)%nat
  else if in_range 97 102 c then Some (n - 87)%nat
  else if in_range 65 70 c then Some (n - 55)%nat
  else None.
Fixpoint bytes_of_hex (s : string) : bytes :=
  match s with
  | String a (String b s') =>
      match hex_value a, hex_value b with
      | Some x, Some y =>
          match Byte.of_nat (16 * x + y) with Some c => c :: bytes_of_hex s' | None => [] end
      | _, _ => []
      end
  | _ => []
  end.

(** [.toString("base64")]: three bytes in four digits, padded. *)
Definition base64_alphabet : string := "ABCDEFGHIJKLMNOPQRSTUVWXYZabcdefghijklmnopqrstuvwxyz0123456789+/".
Definition base64_digit (n : nat) : ascii :=
  match String.get n base64_alphabet with Some c => c | None => "="%char end.
Fixpoint base64 (l : bytes) : string :=
  match l with
  | [] => ""
  | [a] => let n := Byte.to_nat a in
      String (base64_digit (n / 4)) (String (base64_digit (n mod 4 * 16)) "==")
  | [a; b] => let n := Byte.to_nat a in let m := Byte.to_nat b in
      String (base64_digit (n / 4)) (String (base64_digit (n mod 4 * 16 + m / 16))
        (String (base64_digit (m mod 16 * 4)) "="))
  | a :: b :: c :: l' => let n := Byte.to_nat a in let m := Byte.to_nat b in let k := Byte.to_nat c in
      String (base64_digit (n / 4)) (String (base64_digit (n mod 4 * 16 + m / 16))
        (String (base64_digit (m mod 16 * 4 + k / 64)) (String (base64_digit (k mod 64)) (base64 l'))))
  end.
Definition hexAsBase64 (hex : string) : string := base64 (bytes_of_hex hex).
Example base64_padding : (hexAsBase64 "4d616e", hexAsBase64 "4d61", hexAsBase64 "ff") = ("TWFu", "TWE=", "/w==").
Proof. reflexivity. Qed.

(** [new URL(s)] *)
Record URL := mkURL {
  url_protocol : string;
  url_username : string;
  url_password : string;
  url_hash : string
}.

Class Platform := {
  is_url : string -> bool;                         (* zod's [url()] *)
  is_uuid : string -> bool;                        (* zod's [uuid()] *)
  new_URL : string -> option URL;                  (* [new URL(s)], [None] on throw *)
  stringify : json -> string;                      (* [JSON.stringify] *)
  json_parse : string -> option json;              (* [JSON.parse], [None] on throw *)
  base64_text : string -> string;                  (* [Buffer.from(s, "base64").toString("utf8")] *)
  sha256_hex : string -> string;
  date_parse : string -> option Z;                 (* [Date.parse], [None] for NaN *)
  toISOString : Z -> string;
  headers_valid : list (string * string) -> bool;  (* [new Headers(init)] does not throw *)
  caller_publicKey : string;
  signAuthorization : string -> result exn string  (* livepeer/callerProof.ts *)
}.

(** [new Headers(init)] *)
Definition new_headers `{Platform} (init : list (string * string)) : result exn (list (string * string)) :=
  if headers_valid init then Ok init else Err (PlainError "invalid header").

(** ** The network *)

Record net := mkNet {
  net_calls : nat;
  net_log : list HttpRequest
}.

Definition N (A : Type) : Type := M net exn A.

Class Fetch := fetch_answer : nat -> HttpRequest -> result exn HttpResponse.

(** [await fetchImpl(request)] *)
Definition fetch `{Fetch} (rq : HttpRequest) : N HttpResponse := fun n =>
  (fetch_answer (net_calls n) rq, mkNet (S (net_calls n)) (rq :: net_log n)).

(** [encodeURIComponent] on the bytes of the string. *)
Definition unreserved (c : ascii) : bool :=
  is_digit c || is_lower c || is_upper c ||
  bool_decide (c ∈ ["-"; "_"; "."; "!"; "~"; "*"; "'"; "("; ")"]%char).
Definition hex_digit (n : nat) : ascii :=
  ascii_of_nat (if Nat.ltb n 10 then 48 + n else 55 + n).
Fixpoint encodeURIComponent (s : string) : string :=
  match s with
  | EmptyString => EmptyString
  | String c s' =>
      if unreserved c then String c (encodeURIComponent s')
      else String "%" (String (hex_digit (code c / 16)) (String (hex_digit (code c mod 16))
             (encodeURIComponent s')))
  end.

(** ** livepeer/headers.ts *)
Module HEADER.
Definition CAPABILITY : string := "Livepeer-Capability".
Definition OFFERING : string := "Livepeer-Offering".
Definition PAYMENT : string := "Livepeer-Payment".
Definition AUTHORIZATION : string := "Livepeer-Authorization".
Definition CALLER_PROOF : string := "Livepeer-Caller-Proof".
Definition PROTOCOL : string := "Livepeer-Protocol".
Definition REQUEST_ID : string := "Livepeer-Request-Id".
Definition WORK_UNITS : string := "Livepeer-Work-Units".
Definition WORK_UNIT : string := "Livepeer-Work-Unit".
Definition JOB_ID : string := "Livepeer-Job-Id".
Definition SETTLEMENT : string := "Livepeer-Settlement".
Definition ERROR : string := "Livepeer-Error".
End HEADER.

(** ** Counting exchanges

    [sends P k m]: whatever the other sides answer, [m] makes at most [k] exchanges and
    every request it sends satisfies [P].  The bounds of a program follow from those of
    its parts. *)

Definition sends {A} (P : HttpRequest -> Prop) (k : nat) (m : N A) : Prop :=
  forall n, exists l,
    net_log (snd (m n)) = l ++ net_log n /\ net_calls (snd (m n)) = (length l + net_calls n)%nat /\
    (length l <= k)%nat /\ Forall P l.

Section sends.
Context (P : HttpRequest -> Prop).

Lemma sends_pure {A} (r : result exn A) k : sends P k (mlift r).
Proof. intros n. exists []. cbn. split_and!; [done..|lia|constructor]. Qed.
Lemma sends_ret {A} (a : A) k : sends P k (mret_ a).
Proof. apply (sends_pure (Ok a)). Qed.
Lemma sends_throw {A} e k : sends P k (mthrow e : N A).
Proof. apply (sends_pure (Err e)). Qed.

Lemma sends_weaken {A} (m : N A) j k : sends P j m -> (j <= k)%nat -> sends P k m.
Proof. intros H Hjk n. destruct (H n) as (l & ? & ? & ? & ?). exists l. split_and!; [done..|lia|done]. Qed.

Lemma sends_bind {A B} (m : N A) (f : A -> N B) j k :
  sends P j m -> (forall a, sends P k (f a)) -> sends P (j + k) (mbind_ m f).
Proof.
  intros Hm Hf n. unfold mbind_. destruct (Hm n) as (l & Hl & Hc & Hj & HP).
  destruct (m n) as [[a|e] n1]; cbn in *.
  - destruct (Hf a n1) as (l' & Hl' & Hc' & Hk & HP'). exists (l' ++ l).
    rewrite Hl', Hl, Hc', Hc, length_app. split_and!; [by rewrite app_assoc|lia..|by apply Forall_app].
  - exists l. split_and!; [done..|lia|done].
Qed.

Lemma sends_catch {A} (m : N A) (h : exn -> N A) j k :
  sends P j m -> (forall e, sends P k (h e)) -> sends P (j + k) (mcatch m h).
Proof.
  intros Hm Hf n. unfold mcatch. destruct (Hm n) as (l & Hl & Hc & Hj & HP).
  destruct (m n) as [[a|e] n1]; cbn in *.
  - exists l. split_and!; [done..|lia|done].
  - destruct (Hf e n1) as (l' & Hl' & Hc' & Hk & HP'). exists (l' ++ l).
    rewrite Hl', Hl, Hc', Hc, length_app. split_and!; [by rewrite app_assoc|lia..|by apply Forall_app].
Qed.

(** Rules for a given budget. *)
Lemma sends_pure_bind {A B} (r : result exn A) (f : A -> N B) k :
  (forall a, r = Ok a -> sends P k (f a)) -> sends P k (mbind_ (mlift r) f).
Proof. intros Hf n. unfold mbind_, mlift. destruct r as [a|e]; [by apply Hf|]. apply (sends_throw e k n). Qed.
Lemma sends_one_bind {A B} (m : N A) (f : A -> N B) k :
  sends P 1 m -> (forall a, sends P k (f a)) -> sends P (S k) (mbind_ m f).
Proof. apply sends_bind. Qed.
Lemma sends_last {A B} (m : N A) (f : A -> N B) k :
  sends P k m -> (forall a, sends P 0 (f a)) -> sends P k (mbind_ m f).
Proof. intros Hm Hf. rewrite <- (Nat.add_0_r k). by apply sends_bind. Qed.
Lemma sends_rethrow {A} (m : N A) (h : exn -> N A) k :
  sends P k m -> (forall e, sends P 0 (h e)) -> sends P k (mcatch m h).
Proof. intros Hm Hf. rewrite <- (Nat.add_0_r k). by apply sends_catch. Qed.

Lemma sends_fetch `{Fetch} rq k : P rq -> sends P (S k) (fetch rq).
Proof. intros HP n. exists [rq]. cbn. split_and!; [done..|lia|by constructor]. Qed.
End sends.

Create HintDb exchanges.
#[export] Hint Resolve sends_pure sends_ret sends_throw : exchanges.

(** Steps through a computation that sends nothing before its next branch. *)
Ltac meter :=
  repeat match goal with
  | |- sends _ _ (mbind_ (mlift _) _) => apply sends_pure_bind; intros ? ?
  | |- sends _ _ (mlift _) => apply sends_pure
  | |- sends _ _ (mret_ _) => apply sends_ret
  | |- sends _ _ (mthrow _) => apply sends_throw
  | |- sends _ _ (if ?b then _ else _) => destruct b
  | |- sends _ _ (let _ := _ in _) => cbv zeta
  | |- sends _ _ (match ?x with _ => _ end) => destruct x
  end.
