(* ===== verification/Outcome.v ===== *)
(** * Failure classification (livepeer/v2Outcome.ts)

    The table that maps a broker or LOC error code to a category, whether the call
    may be retried, and whether the route is penalised for it. *)

From S2P Require Import Prelude Js Types.
Open Scope Z_scope.

Inductive V2FailureCategory : Type :=
| caller | capacity | payment | backend | protocol | recovery | evidence.
#[export] Instance V2FailureCategory_eq_dec : EqDecision V2FailureCategory.
Proof. solve_decision. Defined.

(** [vf_category] is absent only for the two codes that name an inherited property
    of the table object, see [classifyV2Failure]. *)
Record V2FailureClassification := mkClassification {
  vf_code : string;
  vf_category : option V2FailureCategory;
  vf_retryable : bool;
  vf_penalizeRoute : bool
}.

Definition CLASSIFICATIONS : list (string * (V2FailureCategory * bool * bool)) :=
  [("protocol_transport_unsupported", (protocol, false, false));
   ("protocol_unsupported", (protocol, false, false));
   ("capability_not_served", (protocol, false, false));
   ("request_id_reuse", (caller, false, false));
   ("idempotency_key_reuse", (caller, false, false));
   ("job_in_flight", (recovery, true, false));
   ("accounting_pending", (recovery, true, false));
   ("idempotency_in_progress", (recovery, true, false));
   ("idempotency_outcome_unknown", (recovery, true, false));
   ("recipient_rotated", (payment, true, false));
   ("rebind_refused", (payment, false, false));
   ("refill_refused", (payment, false, false));
   ("insufficient_balance", (payment, false, false));
   ("cap_reached", (payment, false, false));
   ("debit_failed", (payment, false, false));
   ("admitted_evidence_expired", (evidence, false, false));
   ("admitted_outcome_unknown", (evidence, false, false));
   ("settlement_invalid", (evidence, false, false));
   ("payment_invalid", (payment, false, false));
   ("payment_envelope_mismatch", (payment, false, false));
   ("daemon_unavailable", (payment, true, false));
   ("backend_unavailable", (backend, true, true));
   ("backend_timeout", (backend, true, true));
   ("capacity_exhausted", (capacity, true, true))].

(** [s || d] on strings *)
Definition or_text (s d : string) : string := if nonempty s then s else d.

(** [status === 408 || status === 425 || status >= 500] *)
Definition transient_status (status : option Z) : bool :=
  match status with
  | Some z => (z =? 408) || (z =? 425) || (500 <=? z)
  | None => false
  end.

(** The table is an object literal, so two lower-case names find a property of
    [Object.prototype] instead of an entry; spreading that adds no field. *)
Definition inherited_name (s : string) : bool := (s ==? "constructor") || (s ==? "__proto__").

Definition classifyV2Failure (code : string) (status : option Z) : V2FailureClassification :=
  let normalized := toLowerCase (trim code) in
  match assoc normalized CLASSIFICATIONS with
  | Some (category, retryable, penalize) => mkClassification normalized (Some category) retryable penalize
  | None =>
      if inherited_name normalized then mkClassification normalized None false false
      else if status ==? Some 429 then
        mkClassification (or_text normalized "rate_limited") (Some capacity) true true
      else if transient_status status then
        mkClassification (or_text normalized "backend_unavailable") (Some backend) true true
      else mkClassification (or_text normalized "protocol_failure") (Some protocol) false false
  end.

Record V2Correlation := mkCorrelation {
  co_requestId : option string;
  co_locOperationId : option string;
  co_workId : option string;
  co_brokerJobId : option string;
  co_brokerSessionId : option string;
  co_gatewaySessionId : option string
}.

(** The entries that are present and not empty, in order. *)
Definition v2CorrelationContext (value : V2Correlation) : list (string * string) :=
  omap (fun kv => match snd kv with
                  | Some candidate => if nonempty candidate then Some (fst kv, candidate) else None
                  | None => None
                  end)
    [("request_id", co_requestId value); ("loc_operation_id", co_locOperationId value);
     ("work_id", co_workId value); ("broker_job_id", co_brokerJobId value);
     ("broker_session_id", co_brokerSessionId value);
     ("gateway_session_id", co_gatewaySessionId value)].

(** ** Properties *)

(** What the table itself guarantees, by inspection of its rows. *)
Lemma table_rows :
  Forall (fun row => let '(_, (category, retryable, penalize)) := row in
     (penalize = true -> retryable = true) /\
     (penalize = true <-> category = backend \/ category = capacity) /\
     (category = evidence -> retryable = false) /\ (category = recovery -> retryable = true))
    CLASSIFICATIONS.
Proof. repeat (constructor; [naive_solver|]). constructor. Qed.

Lemma assoc_elem_of {A} k (l : list (string * A)) v : assoc k l = Some v -> (k, v) ∈ l.
Proof.
  induction l as [|[k' v'] l IH]; cbn; [done|]. case_bool_decide as E.
  - intros [= ->]. subst. left.
  - intros H. right. auto.
Qed.

Ltac classify_cases :=
  unfold classifyV2Failure;
  match goal with |- context [assoc ?n CLASSIFICATIONS] =>
    destruct (assoc n CLASSIFICATIONS) as [[[c r] p]|] eqn:Hrow;
    [apply assoc_elem_of, (proj1 (Forall_forall _ _) table_rows) in Hrow; cbn in Hrow|] end.

(** Only failures the route itself is to blame for count against it: a code
    that penalises the route is a backend or capacity failure and may be retried
    elsewhere, while payment, evidence, caller, recovery and protocol failures never
    penalise; lost evidence is never retried and an operation still being resolved
    always is. *)
Lemma only_route_faults_are_penalized code status :
  let c := classifyV2Failure code status in
  (vf_penalizeRoute c = true ->
     vf_retryable c = true /\ (vf_category c = Some backend \/ vf_category c = Some capacity)) /\
  (vf_category c = Some evidence -> vf_retryable c = false) /\
  (vf_category c = Some recovery -> vf_retryable c = true).
Proof.
  cbv zeta. classify_cases.
  - naive_solver.
  - repeat case_match; cbn; naive_solver.
Qed.

(** The code decides before the HTTP status: two responses with a code of the
    table are classified alike whatever their status, so a 503 that carries a
    payment refusal is not retried and a 400 that carries capacity exhaustion is. *)
Lemma known_code_overrides_status code s1 s2 :
  is_present (assoc (toLowerCase (trim code)) CLASSIFICATIONS) = true ->
  classifyV2Failure code s1 = classifyV2Failure code s2.
Proof. unfold classifyV2Failure. by destruct (assoc _ _) as [[[? ?] ?]|]. Qed.

Lemma known_code_overrides_status_witness :
  classifyV2Failure " Refill_Refused" (Some 503) = classifyV2Failure " Refill_Refused" None.
Proof. apply (known_code_overrides_status " Refill_Refused" (Some 503) None). reflexivity. Defined.
