(* ===== verification/Database.v ===== *)
(** * The gateway's tables

    The media schema as the repositories of src/repo see it: one record per row
    type, a finite map per table, and a transaction type.  A statement either
    commits its effect or leaves every table as it was; the column constraints of
    the migrations are checked when a row is written. *)

From S2P Require Import Prelude Js Types.
Open Scope Z_scope.

(** ** Row types *)

(** media.paid_operations ([Row] of repo/paidOperations.ts).  The driver renders
    BIGINT and NUMERIC columns as decimal strings; the table keeps the number and
    [rowToOperation] renders it. *)
Record Row := mkRow {
  row_id : string;
  row_operation_kind : PaidOperationKind;
  row_api_key_id : string;
  row_asset_id : option string;
  row_live_stream_id : option string;
  row_request_id : string;
  row_request_content_sha256 : string;
  row_work_id : string;
  row_rotation_generation : Z;
  row_protocol : string;
  row_transport : option string;
  row_capability : string;
  row_offering : string;
  row_request_descriptor : string;
  row_response_descriptor : option string;
  row_work_unit : string;
  row_estimator : option json;
  row_price_per_unit_wei : Z;
  row_units_per_price : Z;
  row_quote_id : string;
  row_quote_version : string;
  row_constraint_fingerprint : string;
  row_route_fingerprint : string;
  row_settlement_domain_id : option string;
  row_settlement_key : string;
  row_route_snapshot : json;
  row_status : string;
  row_loc_operation_id : option string;
  row_broker_job_id : option string;
  row_broker_session_id : option string;
  row_funded_units : Z;
  row_claimed_units : option Z;
  row_balance_units : option Z;
  row_will_refuse_next_refill : option bool;
  row_lease_expires_at : option Z;
  row_settlement_sequence : Z;
  row_lifecycle_version : Z;
  row_recovery_owner : option string;
  row_recovery_lease_expires_at : option Z;
  row_session_runtime : option PaidSessionRuntimeState;
  row_retry_count : Z;
  row_next_retry_at : option Z;
  row_last_error_code : option string;
  row_terminal_evidence : option PaidTerminalEvidence;
  row_created_at : Z;
  row_updated_at : Z;
  row_terminal_at : option Z
}.
#[export] Instance Row_eta : RecEta Row := fun r =>
  mkRow (row_id r) (row_operation_kind r) (row_api_key_id r) (row_asset_id r)
    (row_live_stream_id r) (row_request_id r) (row_request_content_sha256 r) (row_work_id r)
    (row_rotation_generation r) (row_protocol r) (row_transport r) (row_capability r)
    (row_offering r) (row_request_descriptor r) (row_response_descriptor r) (row_work_unit r)
    (row_estimator r) (row_price_per_unit_wei r) (row_units_per_price r) (row_quote_id r)
    (row_quote_version r) (row_constraint_fingerprint r) (row_route_fingerprint r)
    (row_settlement_domain_id r) (row_settlement_key r) (row_route_snapshot r) (row_status r)
    (row_loc_operation_id r) (row_broker_job_id r) (row_broker_session_id r)
    (row_funded_units r) (row_claimed_units r) (row_balance_units r)
    (row_will_refuse_next_refill r) (row_lease_expires_at r) (row_settlement_sequence r)
    (row_lifecycle_version r) (row_recovery_owner r) (row_recovery_lease_expires_at r)
    (row_session_runtime r) (row_retry_count r) (row_next_retry_at r) (row_last_error_code r)
    (row_terminal_evidence r) (row_created_at r) (row_updated_at r) (row_terminal_at r).

(** media.paid_operation_secrets: [SecretRow], which has the fields of
    [EncryptedOperationSecrets] (livepeer/operationSecrets.ts). *)
Record EncryptedOperationSecrets := mkEncrypted {
  enc_keyId : string;
  enc_wrappedKey : bytes;
  enc_wrappedKeyIv : bytes;
  enc_wrappedKeyTag : bytes;
  enc_ciphertext : bytes;
  enc_payloadIv : bytes;
  enc_payloadTag : bytes
}.

(** media.live_streams ([Row] of repo/liveStreams.ts). *)
Record LiveStream := mkLiveStream {
  ls_id : string;
  ls_apiKeyId : string;
  ls_name : option string;
  ls_streamKeyHash : string;
  ls_status : string;
  ls_ingestProtocol : string;
  ls_sessionId : option string;
  ls_workerId : option string;
  ls_workerUrl : option string;
  ls_selectedCapability : option string;
  ls_selectedOffering : option string;
  ls_selectedWorkUnit : option string;
  ls_selectedPricePerWorkUnitWei : option string;
  ls_lastSeenAt : option Z;
  ls_createdAt : Z;
  ls_endedAt : option Z
}.
#[export] Instance LiveStream_eta : RecEta LiveStream := fun s =>
  mkLiveStream (ls_id s) (ls_apiKeyId s) (ls_name s) (ls_streamKeyHash s) (ls_status s)
    (ls_ingestProtocol s) (ls_sessionId s) (ls_workerId s) (ls_workerUrl s)
    (ls_selectedCapability s) (ls_selectedOffering s) (ls_selectedWorkUnit s)
    (ls_selectedPricePerWorkUnitWei s) (ls_lastSeenAt s) (ls_createdAt s) (ls_endedAt s).

(** media.playback_ids ([Row] of repo/playbackIds.ts). *)
Record PlaybackId := mkPlaybackId {
  pb_id : string;
  pb_apiKeyId : string;
  pb_assetId : option string;
  pb_liveStreamId : option string;
  pb_policy : string;
  pb_tokenRequired : bool;
  pb_createdAt : Z
}.

(** media.renditions ([Row] of repo/renditions.ts). *)
Record Rendition := mkRendition {
  rend_id : string;
  rend_assetId : string;
  rend_resolution : string;
  rend_codec : string;
  rend_bitrateKbps : Z;
  rend_storageKey : option string;
  rend_status : string;
  rend_durationSec : option jsnum;
  rend_createdAt : Z;
  rend_completedAt : option Z
}.
#[export] Instance Rendition_eta : RecEta Rendition := fun r =>
  mkRendition (rend_id r) (rend_assetId r) (rend_resolution r) (rend_codec r)
    (rend_bitrateKbps r) (rend_storageKey r) (rend_status r) (rend_durationSec r)
    (rend_createdAt r) (rend_completedAt r).

(** media.encoding_jobs ([Row] of repo/encodingJobs.ts). *)
Record EncodingJob := mkEncodingJob {
  ej_id : string;
  ej_assetId : string;
  ej_renditionId : option string;
  ej_kind : string;
  ej_status : string;
  ej_workerUrl : option string;
  ej_attemptCount : Z;
  ej_inputUrl : option string;
  ej_outputPrefix : option string;
  ej_errorMessage : option string;
  ej_startedAt : option Z;
  ej_completedAt : option Z;
  ej_createdAt : Z
}.
#[export] Instance EncodingJob_eta : RecEta EncodingJob := fun j =>
  mkEncodingJob (ej_id j) (ej_assetId j) (ej_renditionId j) (ej_kind j) (ej_status j)
    (ej_workerUrl j) (ej_attemptCount j) (ej_inputUrl j) (ej_outputPrefix j)
    (ej_errorMessage j) (ej_startedAt j) (ej_completedAt j) (ej_createdAt j).

(** media.assets ([Row] of repo/assets.ts). *)
Record Asset := mkAsset {
  as_id : string;
  as_apiKeyId : string;
  as_status : string;
  as_sourceType : string;
  as_selectedOffering : option string;
  as_sourceUrl : option string;
  as_durationSec : option jsnum;
  as_width : option Z;
  as_height : option Z;
  as_frameRate : option jsnum;
  as_audioCodec : option string;
  as_videoCodec : option string;
  as_encodingTier : string;
  as_ffprobeJson : option json;
  as_errorMessage : option string;
  as_createdAt : Z;
  as_readyAt : option Z;
  as_deletedAt : option Z
}.
#[export] Instance Asset_eta : RecEta Asset := fun a =>
  mkAsset (as_id a) (as_apiKeyId a) (as_status a) (as_sourceType a) (as_selectedOffering a)
    (as_sourceUrl a) (as_durationSec a) (as_width a) (as_height a) (as_frameRate a)
    (as_audioCodec a) (as_videoCodec a) (as_encodingTier a) (as_ffprobeJson a)
    (as_errorMessage a) (as_createdAt a) (as_readyAt a) (as_deletedAt a).

(** media.uploads ([Row] of repo/uploads.ts). *)
Record Upload := mkUpload {
  up_id : string;
  up_apiKeyId : string;
  up_assetId : option string;
  up_status : string;
  up_uploadUrl : string;
  up_storageKey : string;
  up_expiresAt : Z;
  up_createdAt : Z;
  up_completedAt : option Z
}.
#[export] Instance Upload_eta : RecEta Upload := fun u =>
  mkUpload (up_id u) (up_apiKeyId u) (up_assetId u) (up_status u) (up_uploadUrl u)
    (up_storageKey u) (up_expiresAt u) (up_createdAt u) (up_completedAt u).

(** ** The database *)

Record db := mkDb {
  db_now : Z;
  db_paid_operations : gmap string Row;
  db_secrets : gmap string EncryptedOperationSecrets;
  db_live_streams : gmap string LiveStream;
  db_playback_ids : gmap string PlaybackId;
  db_renditions : gmap string Rendition;
  db_encoding_jobs : gmap string EncodingJob;
  db_assets : gmap string Asset;
  db_uploads : gmap string Upload;
  db_api_keys : gset string
}.
#[export] Instance db_eta : RecEta db := fun d =>
  mkDb (db_now d) (db_paid_operations d) (db_secrets d) (db_live_streams d)
    (db_playback_ids d) (db_renditions d) (db_encoding_jobs d) (db_assets d) (db_uploads d) (db_api_keys d).

(** A transaction: the value with the committed tables, or an error, after which
    nothing of it remains. *)
Definition tx (A : Type) : Type := db -> result exn (A * db).

(** Running a transaction as an effect of the program. *)
Definition exec {A} (t : tx A) : M db exn A :=
  fun d => match t d with
           | Ok (a, d') => (Ok a, d')
           | Err e => (Err e, d)
           end.

Definition pg_error : exn := PlainError "database error".

(** ** Constraints of media.paid_operations (migrations, db/schema.ts) *)

Definition INT4_MAX : Z := 2147483647.
Definition INT8_MAX : Z := 9223372036854775807.

Definition nonneg_opt (o : option Z) : bool :=
  match o with Some z => 0 <=? z | None => true end.

(** The CHECK constraints and the ranges of the integer columns. *)
Definition row_check (r : Row) : bool :=
  fingerprint_regex (row_request_content_sha256 r) &&
  (0 <=? row_rotation_generation r) && (row_rotation_generation r <=? INT4_MAX) &&
  ((row_protocol r ==? "paid-job/v1") || (row_protocol r ==? "paid-session/v1")) &&
  (0 <=? row_price_per_unit_wei r) && (0 <? row_units_per_price r) &&
  (0 <=? row_funded_units r) && nonneg_opt (row_claimed_units r) &&
  nonneg_opt (row_balance_units r) && (0 <=? row_settlement_sequence r) &&
  (0 <=? row_retry_count r) && (row_retry_count r <=? INT4_MAX) &&
  match row_operation_kind r with
  | job => is_present (row_asset_id r) && negb (is_present (row_live_stream_id r)) &&
           (row_protocol r ==? "paid-job/v1") && is_present (row_transport r) &&
           negb (is_present (row_session_runtime r))
  | session => negb (is_present (row_asset_id r)) && is_present (row_live_stream_id r) &&
               (row_protocol r ==? "paid-session/v1")
  end &&
  (0 <=? row_lifecycle_version r) && (row_lifecycle_version r <=? INT8_MAX) &&
  Bool.eqb (is_present (row_recovery_owner r)) (is_present (row_recovery_lease_expires_at r)) &&
  match row_settlement_domain_id r with
  | Some d => domain_regex d && (d !=? zero_domain)
  | None => true
  end.

(** Two rows share a value of a nullable unique column. *)
Definition clash (a b : option string) : bool :=
  match a, b with Some x, Some y => x ==? y | _, _ => false end.

(** The unique columns: [r] conflicts with the stored row [r']. *)
Definition rows_conflict (r r' : Row) : bool :=
  (row_request_id r ==? row_request_id r') ||
  clash (row_loc_operation_id r) (row_loc_operation_id r') ||
  clash (row_broker_job_id r) (row_broker_job_id r') ||
  clash (row_broker_session_id r) (row_broker_session_id r').

Definition row_unique (r : Row) (t : gmap string Row) : bool :=
  bool_decide (map_Forall (fun k r' => k = row_id r \/ rows_conflict r r' = false) t).

(** Writing a row, as INSERT and UPDATE do once their WHERE clause holds. *)
Definition store_row (r : Row) (d : db) : result exn db :=
  if row_check r && row_unique r (db_paid_operations d)
  then Ok (d <| db_paid_operations := <[row_id r := r]> (db_paid_operations d) |>)
  else Err pg_error.

(** ** Reading tables *)

(** The rows of a table that satisfy a WHERE clause. *)
Definition rows_where {A} (p : A -> bool) (t : gmap string A) : list A :=
  List.filter p (map_to_list t).*2.

(** ORDER BY an integer key, ascending or descending. *)
Definition key_le {A} (key : A -> Z) (a b : A) : Prop := key a <= key b.
#[export] Instance key_le_dec {A} (key : A -> Z) : RelDecision (key_le key).
Proof. intros a b. unfold key_le. apply _. Defined.
#[export] Instance key_le_trans {A} (key : A -> Z) : Transitive (key_le key).
Proof. intros a b c. unfold key_le. lia. Qed.
#[export] Instance key_le_total {A} (key : A -> Z) : Total (key_le key).
Proof. intros a b. unfold key_le. lia. Qed.

Definition order_asc {A} (key : A -> Z) (l : list A) : list A :=
  merge_sort (key_le key) l.
Definition order_desc {A} (key : A -> Z) (l : list A) : list A :=
  merge_sort (key_le (fun x => - key x)) l.

Lemma elem_of_rows_where {A} (p : A -> bool) (t : gmap string A) (x : A) :
  x ∈ rows_where p t <-> p x = true /\ exists k, t !! k = Some x.
Proof.
  unfold rows_where. rewrite elem_of_filter_bool, list_elem_of_fmap.
  split; intros [Hp H]; (split; [done|]).
  - destruct H as ([k y] & -> & Hin). exists k. by apply elem_of_map_to_list.
  - destruct H as [k Hk]. exists (k, x). split; [done|]. by apply elem_of_map_to_list.
Qed.

Lemma elem_of_order_asc {A} (key : A -> Z) (l : list A) (x : A) :
  x ∈ order_asc key l <-> x ∈ l.
Proof. unfold order_asc. by rewrite merge_sort_Permutation. Qed.

Lemma elem_of_order_desc {A} (key : A -> Z) (l : list A) (x : A) :
  x ∈ order_desc key l <-> x ∈ l.
Proof. unfold order_desc. by rewrite merge_sort_Permutation. Qed.

Lemma head_elem_of {A} (l : list A) (x : A) : head l = Some x -> x ∈ l.
Proof. destruct l; [done|]. intros [= ->]. left. Qed.

(** The first row of a descending order has the greatest key. *)
Lemma head_order_desc {A} (key : A -> Z) (l : list A) (x : A) :
  head (order_desc key l) = Some x -> x ∈ l /\ forall y, y ∈ l -> key y <= key x.
Proof.
  intros Hh. assert (StronglySorted (key_le (fun x => - key x)) (order_desc key l)) as Hs.
  { apply (StronglySorted_merge_sort _). }
  split; [by apply (elem_of_order_desc key), head_elem_of|].
  intros y Hy. apply (elem_of_order_desc key) in Hy.
  destruct (order_desc key l) as [|z l'] eqn:E; [done|].
  injection Hh as ->. apply StronglySorted_inv in Hs as [_ Hs].
  apply elem_of_cons in Hy as [->|Hy]; [lia|].
  rewrite Forall_forall in Hs. specialize (Hs y Hy). unfold key_le in Hs. lia.
Qed.

Lemma store_row_inv r d d' :
  store_row r d = Ok d' ->
  row_check r = true /\ d' = d <| db_paid_operations := <[row_id r := r]> (db_paid_operations d) |>.
Proof.
  unfold store_row. destruct (_ && _) eqn:E; [|done]. intros [= <-]. bools. done.
Qed.

Lemma exec_Ok {A} (t : tx A) d a d' :
  exec t d = (Ok a, d') <-> t d = Ok (a, d').
Proof. unfold exec. destruct (t d) as [[? ?]|?]; naive_solver. Qed.
