(* ===== verification/OperationRepo.v ===== *)
(** * The paid-operation repository (repo/paidOperations.ts)

    Every method of [createPaidOperationRepo] as a transaction on the tables: the
    validation of its arguments, the WHERE clause of its statement, the columns it
    sets and the value it returns.  A row is leased to a gateway instance by
    [recovery_owner] and [recovery_lease_expires_at]; [lifecycle_version] is the
    fence every claimed mutation compares and increments. *)

From S2P Require Import Prelude Js Types Database.
Open Scope Z_scope.

(** ** Rows to values *)

Definition routeFromRow (row : Row) : PaidRouteSnapshot :=
  {| route_protocol := row_protocol row;
     route_transport := row_transport row;
     route_capability := row_capability row;
     route_offering := row_offering row;
     route_requestDescriptor := row_request_descriptor row;
     route_responseDescriptor := row_response_descriptor row;
     route_workUnit := row_work_unit row;
     route_estimator := row_estimator row;
     route_pricePerUnitWei := string_of_Z (row_price_per_unit_wei row);
     route_unitsPerPrice := string_of_Z (row_units_per_price row);
     route_quoteId := row_quote_id row;
     route_quoteVersion := row_quote_version row;
     route_constraintFingerprint := row_constraint_fingerprint row;
     route_routeFingerprint := row_route_fingerprint row;
     route_settlementDomainId := row_settlement_domain_id row;
     route_settlementKey := row_settlement_key row;
     route_raw := row_route_snapshot row |}.

Definition rowToOperation (row : Row) : PaidOperation :=
  {| op_id := row_id row;
     op_kind := row_operation_kind row;
     op_apiKeyId := row_api_key_id row;
     op_assetId := row_asset_id row;
     op_liveStreamId := row_live_stream_id row;
     op_requestId := row_request_id row;
     op_requestContentSha256 := row_request_content_sha256 row;
     op_workId := row_work_id row;
     op_rotationGeneration := row_rotation_generation row;
     op_route := routeFromRow row;
     op_status := row_status row;
     op_locOperationId := row_loc_operation_id row;
     op_brokerJobId := row_broker_job_id row;
     op_brokerSessionId := row_broker_session_id row;
     op_fundedUnits := string_of_Z (row_funded_units row);
     op_claimedUnits := string_of_Z <$> row_claimed_units row;
     op_balanceUnits := string_of_Z <$> row_balance_units row;
     op_willRefuseNextRefill := row_will_refuse_next_refill row;
     op_leaseExpiresAt := row_lease_expires_at row;
     op_settlementSequence := string_of_Z (row_settlement_sequence row);
     op_lifecycleVersion := string_of_Z (row_lifecycle_version row);
     op_recoveryOwner := row_recovery_owner row;
     op_recoveryLeaseExpiresAt := row_recovery_lease_expires_at row;
     op_sessionRuntime := row_session_runtime row;
     op_retryCount := row_retry_count row;
     op_nextRetryAt := row_next_retry_at row;
     op_lastErrorCode := row_last_error_code row;
     op_terminalEvidence := row_terminal_evidence row;
     op_createdAt := row_created_at row;
     op_updatedAt := row_updated_at row;
     op_terminalAt := row_terminal_at row |}.

(** ** Parameters of statements *)

(** A text parameter cast to BIGINT or to NUMERIC(78,0). *)
Definition pg_bigint (s : string) : result exn Z :=
  match decimal_value s with
  | Some z => if z <=? INT8_MAX then Ok z else Err pg_error
  | None => Err pg_error
  end.
Definition pg_numeric (s : string) : result exn Z :=
  match decimal_value s with
  | Some z => if z <? 10 ^ 78 then Ok z else Err pg_error
  | None => Err pg_error
  end.
Definition pg_numeric_opt (s : option string) : result exn (option Z) :=
  match s with
  | Some s => let? z := pg_numeric s in Ok (Some z)
  | None => Ok None
  end.

Definition validateClaim (claim : PaidOperationClaim) : result exn unit :=
  refuse_if ((str_len (cl_owner claim) =? 0) ||
             (255 <? str_len (cl_owner claim)) ||
             negb (canonical_decimal (cl_version claim)) ||
             (cl_leaseExpiresAt claim ==? InvalidDate))
    (PlainError "paid operation claim is invalid").

(** [id = $ AND recovery_owner = $ AND lifecycle_version = $ AND
    recovery_lease_expires_at = $] *)
Definition holds_claim (claim : PaidOperationClaim) (version : Z) (r : Row) : bool :=
  (row_recovery_owner r ==? Some (cl_owner claim)) &&
  (row_lifecycle_version r =? version) &&
  match cl_leaseExpiresAt claim with
  | DateMs l => row_recovery_lease_expires_at r ==? Some l
  | InvalidDate => false
  end.

(** [recovery_lease_expires_at > NOW()] *)
Definition lease_live (now : Z) (r : Row) : bool :=
  match row_recovery_lease_expires_at r with
  | Some l => now <? l
  | None => false
  end.

Definition not_terminal (r : Row) : bool := negb (is_present (row_terminal_at r)).

(** [lifecycle_version = lifecycle_version + 1, updated_at = NOW()] *)
Definition bump (now : Z) (r : Row) : Row :=
  r <| row_lifecycle_version := row_lifecycle_version r + 1 |> <| row_updated_at := now |>.

Definition clear_owner (r : Row) : Row :=
  r <| row_recovery_owner := None |> <| row_recovery_lease_expires_at := None |>.

(** UPDATE media.paid_operations ... WHERE id = $1 AND the claim AND [extra]. *)
Definition update_claimed (id : string) (claim : PaidOperationClaim)
    (extra : Row -> bool) (f : Row -> Row) : tx (option Row) := fun d =>
  let? version := pg_bigint (cl_version claim) in
  match db_paid_operations d !! id with
  | Some r =>
      if holds_claim claim version r && extra r then
        let? d' := store_row (f r) d in Ok (Some (f r), d')
      else Ok (None, d)
  | None => Ok (None, d)
  end.

(** ** Inserting *)

(** [insertStatement]: the row of the INSERT, its parameters cast. *)
Definition insertStatement (now : Z) (value : NewPaidOperation)
    (claim : option (string * jsdate)) : result exn Row :=
  let route := new_route value in
  let? price := pg_numeric (route_pricePerUnitWei route) in
  let? units := pg_numeric (route_unitsPerPrice route) in
  let? funded := pg_numeric (new_fundedUnits value) in
  let? lease := match claim with
                | Some (_, DateMs l) => Ok (Some l)
                | Some (_, InvalidDate) => Err pg_error
                | None => Ok None
                end in
  Ok {| row_id := new_id value;
        row_operation_kind := new_kind value;
        row_api_key_id := new_apiKeyId value;
        row_asset_id := new_assetId value;
        row_live_stream_id := new_liveStreamId value;
        row_request_id := new_requestId value;
        row_request_content_sha256 := new_requestContentSha256 value;
        row_work_id := new_workId value;
        row_rotation_generation := new_rotationGeneration value ?? 0;
        row_protocol := route_protocol route;
        row_transport := route_transport route;
        row_capability := route_capability route;
        row_offering := route_offering route;
        row_request_descriptor := route_requestDescriptor route;
        row_response_descriptor := route_responseDescriptor route;
        row_work_unit := route_workUnit route;
        row_estimator := route_estimator route;
        row_price_per_unit_wei := price;
        row_units_per_price := units;
        row_quote_id := route_quoteId route;
        row_quote_version := route_quoteVersion route;
        row_constraint_fingerprint := route_constraintFingerprint route;
        row_route_fingerprint := route_routeFingerprint route;
        row_settlement_domain_id := route_settlementDomainId route;
        row_settlement_key := route_settlementKey route;
        row_route_snapshot := route_raw route;
        row_status := new_status value;
        row_loc_operation_id := None;
        row_broker_job_id := None;
        row_broker_session_id := None;
        row_funded_units := funded;
        row_claimed_units := None;
        row_balance_units := None;
        row_will_refuse_next_refill := None;
        row_lease_expires_at := None;
        row_settlement_sequence := 0;
        row_lifecycle_version := if is_present claim then 1 else 0;
        row_recovery_owner := fst <$> claim;
        row_recovery_lease_expires_at := lease;
        row_session_runtime := new_sessionRuntime value;
        row_retry_count := 0;
        row_next_retry_at := None;
        row_last_error_code := None;
        row_terminal_evidence := None;
        row_created_at := now;
        row_updated_at := now;
        row_terminal_at := None |}.

(** The primary key and the foreign keys of an inserted row. *)
Definition insert_allowed (r : Row) (d : db) : bool :=
  negb (is_present (db_paid_operations d !! row_id r)) &&
  bool_decide (row_api_key_id r ∈ db_api_keys d) &&
  match row_asset_id r with Some a => is_present (db_assets d !! a) | None => true end &&
  match row_live_stream_id r with Some s => is_present (db_live_streams d !! s) | None => true end.

Definition insert_row (r : Row) (d : db) : result exn db :=
  if insert_allowed r d then store_row r d else Err pg_error.

Definition set_secrets (id : string) (e : EncryptedOperationSecrets) (d : db) : db :=
  d <| db_secrets := <[id := e]> (db_secrets d) |>.
Definition erase_secrets (id : string) (d : db) : db :=
  d <| db_secrets := delete id (db_secrets d) |>.

(** ** The cipher the repository is given

    [OperationSecretCipher] of livepeer/operationSecrets.ts.  Encryption draws
    random keys and IVs, here an explicit argument; the law is what the
    repository relies on. *)
Class OperationSecretCipher (entropy : Type) := {
  encrypt : entropy -> string -> PaidOperationSecrets -> EncryptedOperationSecrets;
  decrypt : string -> EncryptedOperationSecrets -> result exn PaidOperationSecrets;
  decrypt_encrypt : forall rnd id v, decrypt id (encrypt rnd id v) = Ok v
}.

Section repo.
Context `{Cipher : OperationSecretCipher entropy}.

Definition insert (value : NewPaidOperation) : tx PaidOperation := fun d =>
  let? r := insertStatement (db_now d) value None in
  let? d' := insert_row r d in
  Ok (rowToOperation r, d').

Definition insertWithSecrets (rnd : entropy) (value : NewPaidOperation)
    (secrets : PaidOperationSecrets) (owner : string) (leaseExpiresAt : jsdate)
    : tx PaidOperation := fun d =>
  let? _ := validateClaim (mkClaim owner "1" leaseExpiresAt) in
  let encrypted := encrypt rnd (new_id value) secrets in
  let? r := insertStatement (db_now d) value (Some (owner, leaseExpiresAt)) in
  let? d' := insert_row r d in
  Ok (rowToOperation r, set_secrets (new_id value) encrypted d').

(** ** Queries *)

Definition byId (id : string) (d : db) : option PaidOperation :=
  rowToOperation <$> db_paid_operations d !! id.

Definition byIdForApiKey (id apiKeyId : string) (d : db) : option PaidOperation :=
  match db_paid_operations d !! id with
  | Some r => if row_api_key_id r ==? apiKeyId then Some (rowToOperation r) else None
  | None => None
  end.

Definition byRequestId (requestId : string) (d : db) : option PaidOperation :=
  rowToOperation <$> head (rows_where (fun r => row_request_id r ==? requestId) (db_paid_operations d)).

Definition byAssetId (assetId : string) (d : db) : option PaidOperation :=
  rowToOperation <$> head (order_desc row_created_at
    (rows_where (fun r => (row_asset_id r ==? Some assetId) && (row_operation_kind r ==? job))
       (db_paid_operations d))).

Definition byLiveStreamId (liveStreamId : string) (d : db) : option PaidOperation :=
  rowToOperation <$> head (order_desc row_rotation_generation
    (rows_where (fun r => (row_live_stream_id r ==? Some liveStreamId) &&
                          (row_operation_kind r ==? session))
       (db_paid_operations d))).

Definition byBrokerSessionId (brokerSessionId : string) (d : db) : option PaidOperation :=
  rowToOperation <$> head (order_desc row_rotation_generation
    (rows_where (fun r => (row_broker_session_id r ==? Some brokerSessionId) &&
                          (row_operation_kind r ==? session))
       (db_paid_operations d))).

Definition listForAdmin (kind : option PaidOperationKind) (status : option string)
    (limit : jsnum) (d : db) : result exn (list PaidOperation) :=
  match limit with
  | NInt n =>
      if negb (safe_integer n) || (n <? 1) || (200 <? n)
      then Err (PlainError "paid operation admin list limit is invalid")
      else Ok (rowToOperation <$> take (Z.to_nat n) (order_desc row_updated_at
             (rows_where (fun r =>
                match kind with Some k => row_operation_kind r ==? k | None => true end &&
                (negb (truthy status) || (Some (row_status r) ==? status)))
                (db_paid_operations d))))
  | _ => Err (PlainError "paid operation admin list limit is invalid")
  end.

(** ** Claiming *)

(** [SET recovery_owner = $2, recovery_lease_expires_at = $4, lifecycle_version =
    lifecycle_version + 1, updated_at = NOW()] *)
Definition take_lease (owner : string) (lease now : Z) (r : Row) : Row :=
  bump now r <| row_recovery_owner := Some owner |> <| row_recovery_lease_expires_at := Some lease |>.

(** The candidates of [claimRecoverable]; [locked] are the rows a concurrent
    transaction holds, which FOR UPDATE SKIP LOCKED passes over. *)
Definition recoverable (kind : PaidOperationKind) (now : Z) (locked : gset string) (r : Row) : bool :=
  (row_operation_kind r ==? kind) && not_terminal r &&
  match row_next_retry_at r with Some t => t <=? now | None => true end &&
  match row_recovery_lease_expires_at r with Some l => l <=? now | None => true end &&
  bool_decide (row_id r ∉ locked).

(** Updating the rows of a statement one by one. *)
Fixpoint update_rows (f : Row -> Row) (rs : list Row) (d : db) : result exn (list Row * db) :=
  match rs with
  | [] => Ok ([], d)
  | r :: rs' =>
      let? d1 := store_row (f r) d in
      let? out := update_rows f rs' d1 in
      Ok (f r :: fst out, snd out)
  end.

Definition claimRecoverable (locked : gset string) (kind : PaidOperationKind) (owner : string)
    (now : Z) (leaseExpiresAt : jsdate) (limit : Z) : tx (list PaidOperation) := fun d =>
  let? _ := validateClaim (mkClaim owner "0" leaseExpiresAt) in
  throw_if negb (safe_integer limit) || (limit <? 1) || (1000 <? limit) || date_le leaseExpiresAt now
    with PlainError "recovery claim inputs are invalid" ;;
  match leaseExpiresAt with
  | InvalidDate => Err pg_error
  | DateMs lease =>
      let candidates := take (Z.to_nat limit)
        (order_asc row_updated_at (rows_where (recoverable kind now locked) (db_paid_operations d))) in
      let? out := update_rows (take_lease owner lease (db_now d)) candidates d in
      Ok (rowToOperation <$> fst out, snd out)
  end.

(** The session of a stream that [owner] may claim now. *)
Definition claimable_session (liveStreamId owner : string) (now : Z) (locked : gset string) (r : Row) : bool :=
  (row_live_stream_id r ==? Some liveStreamId) && (row_operation_kind r ==? session) &&
  not_terminal r &&
  ((row_recovery_owner r ==? Some owner) ||
   match row_recovery_lease_expires_at r with Some l => l <=? now | None => true end) &&
  bool_decide (row_id r ∉ locked).

Definition claimSessionByLiveStreamId (locked : gset string) (liveStreamId owner : string)
    (now : Z) (leaseExpiresAt : jsdate) : tx (option PaidOperation) := fun d =>
  let? _ := validateClaim (mkClaim owner "0" leaseExpiresAt) in
  throw_if negb (nonempty liveStreamId) || date_le leaseExpiresAt now
    with PlainError "paid session claim inputs are invalid" ;;
  match leaseExpiresAt with
  | InvalidDate => Err pg_error
  | DateMs lease =>
      match head (order_desc row_rotation_generation
              (rows_where (claimable_session liveStreamId owner now locked) (db_paid_operations d))) with
      | Some r =>
          let r' := take_lease owner lease (db_now d) r in
          let? d' := store_row r' d in Ok (Some (rowToOperation r'), d')
      | None => Ok (None, d)
      end
  end.

(** [session_runtime || jsonb_build_object('winddownReason', $2)]: null stays null. *)
Definition winddown_row (reason : string) (now : Z) (r : Row) : Row :=
  clear_owner (bump now r)
    <| row_status := "winddown_requested" |>
    <| row_session_runtime :=
         (fun rt => rt <| rt_winddownReason := Some reason |>) <$> row_session_runtime r |>.

Definition requestSessionWinddown (liveStreamId reason : string) : tx (option PaidOperation) := fun d =>
  throw_if negb (nonempty liveStreamId) || negb (snake_code 2 63 reason)
    with PlainError "paid session winddown request is invalid" ;;
  match head (order_desc row_rotation_generation
          (rows_where (fun r => (row_live_stream_id r ==? Some liveStreamId) &&
                                (row_operation_kind r ==? session) && not_terminal r)
             (db_paid_operations d))) with
  | Some r =>
      let r' := winddown_row reason (db_now d) r in
      let? d' := store_row r' d in Ok (Some (rowToOperation r'), d')
  | None => Ok (None, d)
  end.

Definition renewClaim (id : string) (claim : PaidOperationClaim) (leaseExpiresAt : jsdate)
    : tx (option PaidOperation) := fun d =>
  let? _ := validateClaim claim in
  match leaseExpiresAt, cl_leaseExpiresAt claim with
  | DateMs lease, DateMs held =>
      throw_if lease <=? held with PlainError "recovery lease extension is invalid" ;;
      let? out := update_claimed id claim (fun r => lease_live (db_now d) r && not_terminal r)
        (fun r => bump (db_now d) r <| row_recovery_lease_expires_at := Some lease |>) d in
      Ok (rowToOperation <$> fst out, snd out)
  | _, _ => Err (PlainError "recovery lease extension is invalid")
  end.

Definition releaseClaim (id : string) (claim : PaidOperationClaim) : tx bool := fun d =>
  let? _ := validateClaim claim in
  let? out := update_claimed id claim (fun _ => true) (fun r => clear_owner (bump (db_now d) r)) d in
  Ok (is_present (fst out), snd out).

(** ** Claimed mutations *)

(** [if (fieldValue === undefined) continue;] for one column. *)
Definition keep {A} (old : A) (new : option A) : A := new ?? old.
Definition keep_opt {A} (old new : option A) : option A := or_else new old.

(** The numeric parameters of [recordProgress], cast. *)
Definition cast_progress (value : PaidOperationProgress)
    : result exn (option Z * option Z * option Z * option Z) :=
  let? funded := pg_numeric_opt (pr_fundedUnits value) in
  let? claimed := pg_numeric_opt (pr_claimedUnits value) in
  let? balance := pg_numeric_opt (pr_balanceUnits value) in
  let? sequence := pg_numeric_opt (pr_settlementSequence value) in
  Ok (funded, claimed, balance, sequence).

(** The SET list of [recordProgress]. *)
Definition progress_row (now : Z) (value : PaidOperationProgress)
    (nums : option Z * option Z * option Z * option Z) (r : Row) : Row :=
  let '(funded, claimed, balance, sequence) := nums in
  bump now r
    <| row_status := pr_status value |>
    <| row_last_error_code := pr_lastErrorCode value |>
    <| row_next_retry_at := pr_nextRetryAt value |>
    <| row_retry_count := keep (row_retry_count r) (pr_retryCount value) |>
    <| row_work_id := keep (row_work_id r) (pr_workId value) |>
    <| row_rotation_generation := keep (row_rotation_generation r) (pr_rotationGeneration value) |>
    <| row_request_id := keep (row_request_id r) (pr_requestId value) |>
    <| row_loc_operation_id := keep_opt (row_loc_operation_id r) (pr_locOperationId value) |>
    <| row_broker_job_id := keep_opt (row_broker_job_id r) (pr_brokerJobId value) |>
    <| row_broker_session_id := keep_opt (row_broker_session_id r) (pr_brokerSessionId value) |>
    <| row_funded_units := keep (row_funded_units r) funded |>
    <| row_claimed_units := keep_opt (row_claimed_units r) claimed |>
    <| row_balance_units := keep_opt (row_balance_units r) balance |>
    <| row_will_refuse_next_refill := keep_opt (row_will_refuse_next_refill r) (pr_willRefuseNextRefill value) |>
    <| row_lease_expires_at := keep_opt (row_lease_expires_at r) (pr_leaseExpiresAt value) |>
    <| row_settlement_sequence := keep (row_settlement_sequence r) sequence |>
    <| row_session_runtime := keep_opt (row_session_runtime r) (pr_sessionRuntime value) |>.

Definition recordProgress (id : string) (claim : PaidOperationClaim)
    (value : PaidOperationProgress) : tx (option PaidOperation) := fun d =>
  let? _ := validateClaim claim in
  let? nums := cast_progress value in
  let? out := update_claimed id claim (lease_live (db_now d)) (progress_row (db_now d) value nums) d in
  Ok (rowToOperation <$> fst out, snd out).

Definition retry_row (now : Z) (value : RetryValue) (r : Row) : Row :=
  bump now r
    <| row_status := rv_status value |>
    <| row_retry_count := row_retry_count r + 1 |>
    <| row_next_retry_at := Some (rv_nextRetryAt value) |>
    <| row_last_error_code := Some (rv_errorCode value) |>.

Definition recordRetry (id : string) (claim : PaidOperationClaim)
    (value : RetryValue) : tx (option PaidOperation) := fun d =>
  let? _ := validateClaim claim in
  let? out := update_claimed id claim (lease_live (db_now d)) (retry_row (db_now d) value) d in
  Ok (rowToOperation <$> fst out, snd out).

(** The columns every terminal statement sets. *)
Definition terminal_row (now : Z) (status : string) (claimed sequence : Z)
    (evidence : PaidTerminalEvidence) (terminalAt : Z) (r : Row) : Row :=
  clear_owner (bump now r)
    <| row_status := status |>
    <| row_claimed_units := Some claimed |>
    <| row_settlement_sequence := sequence |>
    <| row_terminal_evidence := Some evidence |>
    <| row_terminal_at := Some terminalAt |>
    <| row_next_retry_at := None |>
    <| row_last_error_code := None |>.

Definition recordTerminal (id : string) (claim : PaidOperationClaim)
    (value : TerminalValue) : tx bool := fun d =>
  let? _ := validateClaim claim in
  let? claimed := pg_numeric (tv_claimedUnits value) in
  let? sequence := pg_numeric (tv_settlementSequence value) in
  let? out := update_claimed id claim (lease_live (db_now d))
    (terminal_row (db_now d) (tv_status value) claimed sequence (tv_evidence value)
       (tv_terminalAt value)) d in
  match out with
  | (Some _, d') => Ok (true, erase_secrets id d')
  | (None, d') => Ok (false, d')
  end.

(** [UPDATE media.live_streams SET status = 'ended', last_seen_at = $2, ended_at = $2
    WHERE id = $1 AND ended_at IS NULL], which must match one row. *)
Definition end_stream (liveStreamId : string) (terminalAt : Z) (d : db) : result exn db :=
  match db_live_streams d !! liveStreamId with
  | Some s =>
      if is_present (ls_endedAt s) then Err (PlainError "live terminal stream identity mismatch")
      else Ok (d <| db_live_streams := <[liveStreamId :=
             s <| ls_status := "ended" |> <| ls_lastSeenAt := Some terminalAt |>
               <| ls_endedAt := Some terminalAt |>]> (db_live_streams d) |>)
  | None => Err (PlainError "live terminal stream identity mismatch")
  end.

Definition recordLiveTerminal (id : string) (claim : PaidOperationClaim)
    (value : LiveTerminalValue) : tx bool := fun d =>
  let? _ := validateClaim claim in
  let? claimed := pg_numeric (lt_claimedUnits value) in
  let? sequence := pg_numeric (lt_settlementSequence value) in
  let? out := update_claimed id claim
    (fun r => (row_live_stream_id r ==? Some (lt_liveStreamId value)) &&
              (row_operation_kind r ==? session) && lease_live (db_now d) r && not_terminal r)
    (terminal_row (db_now d) "settled" claimed sequence (lt_evidence value) (lt_terminalAt value)) d in
  match out with
  | (None, _) => Ok (false, d)
  | (Some _, d1) =>
      let? d2 := end_stream (lt_liveStreamId value) (lt_terminalAt value) d1 in
      let d3 := d2 <| db_playback_ids :=
        filter (fun kv => pb_liveStreamId (snd kv) <> Some (lt_liveStreamId value)) (db_playback_ids d2) |> in
      Ok (true, erase_secrets id d3)
  end.

(** The renditions of a finished asset, one UPDATE each, which must match one row. *)
Fixpoint complete_renditions (assetId : string) (terminalAt : Z)
    (rs : list TerminalRendition) (d : db) : result exn db :=
  match rs with
  | [] => Ok d
  | x :: rs' =>
      match db_renditions d !! tr_renditionId x with
      | Some r =>
          if (rend_assetId r ==? assetId) &&
             ((rend_status r ==? "queued") || (rend_status r ==? "running"))
          then complete_renditions assetId terminalAt rs'
                 (d <| db_renditions := <[tr_renditionId x :=
                    r <| rend_status := "completed" |>
                      <| rend_storageKey := Some (tr_storageKey x) |>
                      <| rend_durationSec := Some (tr_durationSeconds x) |>
                      <| rend_completedAt := Some terminalAt |>]> (db_renditions d) |>)
          else Err (PlainError "terminal rendition identity mismatch")
      | None => Err (PlainError "terminal rendition identity mismatch")
      end
  end.

Definition complete_job (jobId assetId : string) (terminalAt : Z) (d : db) : result exn db :=
  match db_encoding_jobs d !! jobId with
  | Some j =>
      if ej_assetId j ==? assetId
      then Ok (d <| db_encoding_jobs := <[jobId :=
             j <| ej_status := "completed" |> <| ej_completedAt := Some terminalAt |>]> (db_encoding_jobs d) |>)
      else Err (PlainError "terminal encoding job identity mismatch")
  | None => Err (PlainError "terminal encoding job identity mismatch")
  end.

Definition ready_asset (assetId : string) (terminalAt : Z) (d : db) : result exn db :=
  match db_assets d !! assetId with
  | Some a => Ok (d <| db_assets := <[assetId :=
      a <| as_status := "ready" |> <| as_readyAt := Some terminalAt |>]> (db_assets d) |>)
  | None => Err (PlainError "terminal asset identity mismatch")
  end.

(** [INSERT INTO media.playback_ids ... WHERE NOT EXISTS (... asset_id = $3)] *)
Definition add_playback (playbackId apiKeyId assetId : string) (d : db) : result exn db :=
  if negb (bool_decide (rows_where (fun p => pb_assetId p ==? Some assetId) (db_playback_ids d) = []))
  then Ok d
  else if is_present (db_playback_ids d !! playbackId) || negb (bool_decide (apiKeyId ∈ db_api_keys d))
  then Err pg_error
  else Ok (d <| db_playback_ids := <[playbackId :=
         mkPlaybackId playbackId apiKeyId (Some assetId) None "public" false (db_now d)]> (db_playback_ids d) |>).

Definition recordVodTerminal (id : string) (claim : PaidOperationClaim)
    (value : VodTerminalValue) : tx bool := fun d =>
  let? _ := validateClaim claim in
  let? claimed := pg_numeric (vt_claimedUnits value) in
  let? sequence := pg_numeric (vt_settlementSequence value) in
  let? out := update_claimed id claim
    (fun r => (row_asset_id r ==? Some (vt_assetId value)) && lease_live (db_now d) r && not_terminal r)
    (fun r => terminal_row (db_now d) "settled" claimed sequence (vt_evidence value) (vt_terminalAt value) r
       <| row_loc_operation_id := Some (vt_locOperationId value) |>
       <| row_broker_job_id := Some (vt_brokerJobId value) |>
       <| row_request_id := vt_brokerRequestId value |>) d in
  match out with
  | (None, _) => Ok (false, d)
  | (Some _, d1) =>
      let? d2 := complete_renditions (vt_assetId value) (vt_terminalAt value) (vt_renditions value) d1 in
      let? d3 := complete_job (vt_encodingJobId value) (vt_assetId value) (vt_terminalAt value) d2 in
      let? d4 := ready_asset (vt_assetId value) (vt_terminalAt value) d3 in
      let? d5 := add_playback (vt_playbackId value) (vt_apiKeyId value) (vt_assetId value) d4 in
      Ok (true, erase_secrets id d5)
  end.

(** ** Secrets *)

(** The operation [id] is leased to [claim], and the lease has not expired. *)
Definition claim_is_live (id : string) (claim : PaidOperationClaim) (d : db) : result exn bool :=
  let? version := pg_bigint (cl_version claim) in
  Ok match db_paid_operations d !! id with
     | Some r => holds_claim claim version r && lease_live (db_now d) r
     | None => false
     end.

Definition putSecrets (rnd : entropy) (id : string) (claim : PaidOperationClaim)
    (value : PaidOperationSecrets) : tx bool := fun d =>
  let? _ := validateClaim claim in
  let encrypted := encrypt rnd id value in
  let? live := claim_is_live id claim d in
  if live then Ok (true, set_secrets id encrypted d) else Ok (false, d).

Definition readSecrets (id : string) (claim : PaidOperationClaim)
    : tx (option PaidOperationSecrets) := fun d =>
  let? _ := validateClaim claim in
  let? live := claim_is_live id claim d in
  match db_secrets d !! id with
  | Some e =>
      if live then let? v := decrypt id e in Ok (Some v, d) else Ok (None, d)
  | None => Ok (None, d)
  end.

Definition deleteSecrets (id : string) (claim : PaidOperationClaim) : tx bool := fun d =>
  let? _ := validateClaim claim in
  let? live := claim_is_live id claim d in
  if live && is_present (db_secrets d !! id) then Ok (true, erase_secrets id d) else Ok (false, d).

End repo.
