(* ===== verification/Samples.v ===== *)
(** * Concrete data for the witnesses

    A small database, one operation of each kind and a transparent cipher: the
    values the witnesses of the development evaluate the definitions on. *)

From S2P Require Import Prelude Js Types Database OperationRepo.
From stdpp Require Import countable.
From Stdlib Require Import Ascii.
Open Scope Z_scope.

(** ** A transparent cipher

    JSON values are countable, so secrets can be written as bits; the sample cipher
    stores them in the clear under the operation's id. *)

#[export] Instance jsnum_countable : Countable jsnum.
Proof.
  apply (inj_countable'
    (fun n => match n with
              | NInt z => inl z | NFrac z p => inr (inl (z, p))
              | NInf b => inr (inr (inl b)) | NNaN => inr (inr (inr tt)) end)
    (fun s => match s with
              | inl z => NInt z | inr (inl (z, p)) => NFrac z p
              | inr (inr (inl b)) => NInf b | inr (inr (inr _)) => NNaN end)).
  by intros [].
Defined.

Definition leaf : Type := bool + (jsnum + (string + nat)).

Fixpoint json_tree (j : json) : gen_tree leaf :=
  match j with
  | JNull => GenNode 0 []
  | JBool b => GenLeaf (inl b)
  | JNum n => GenLeaf (inr (inl n))
  | JStr s => GenLeaf (inr (inr (inl s)))
  | JArr l => GenNode 1 (map json_tree l)
  | JObj fs => GenNode 2 (map (fun kv => GenNode 3 [GenLeaf (inr (inr (inl (fst kv)))); json_tree (snd kv)]) fs)
  end.

Fixpoint tree_json (t : gen_tree leaf) : json :=
  match t with
  | GenLeaf (inl b) => JBool b
  | GenLeaf (inr (inl n)) => JNum n
  | GenLeaf (inr (inr (inl s))) => JStr s
  | GenNode 1 l => JArr (map tree_json l)
  | GenNode 2 l => JObj (map (fun t => match t with
                                       | GenNode _ [GenLeaf (inr (inr (inl k))); v] => (k, tree_json v)
                                       | _ => (EmptyString, JNull)
                                       end) l)
  | _ => JNull
  end.

Fixpoint tree_json_tree (j : json) : tree_json (json_tree j) = j.
Proof.
  destruct j as [|b|n|s|l|fs]; try reflexivity; cbn; f_equal.
  - induction l as [|x l IH]; cbn; [done|]. by rewrite tree_json_tree, IH.
  - induction fs as [|[k v] fs IH]; cbn; [done|]. by rewrite tree_json_tree, IH.
Qed.

#[export] Instance json_eq_dec : EqDecision json.
Proof.
  intros a b. destruct (decide (json_tree a = json_tree b)) as [E|E].
  - left. by rewrite <- (tree_json_tree a), E, tree_json_tree.
  - right. by intros ->.
Defined.

#[export] Instance json_countable : Countable json :=
  inj_countable' json_tree tree_json tree_json_tree.

Definition opt_json (o : option json) : json :=
  JArr match o with Some j => [j] | None => [] end.
Definition json_opt (j : json) : option json :=
  match j with JArr [j] => Some j | _ => None end.
Definition json_str (j : json) : option string :=
  match j with JArr [JStr s] => Some s | _ => None end.

Definition secrets_json (s : PaidOperationSecrets) : json :=
  JArr [opt_json (sec_openIntent s); opt_json (sec_routeIntent s); opt_json (sec_sessionParams s);
        opt_json (sec_grants s); opt_json (sec_control s); opt_json (sec_loc s);
        opt_json (JStr <$> sec_runnerIngestUrl s); opt_json (JStr <$> sec_runnerIngestKey s);
        opt_json (sec_credentials s); opt_json (sec_refillIntent s)].
Definition json_secrets (j : json) : option PaidOperationSecrets :=
  match j with
  | JArr [a; b; c; d; e; f; g; h; i; k] =>
      Some (mkSecrets (json_opt a) (json_opt b) (json_opt c) (json_opt d) (json_opt e) (json_opt f)
              (json_str g) (json_str h) (json_opt i) (json_opt k))
  | _ => None
  end.

Lemma json_secrets_json s : json_secrets (secrets_json s) = Some s.
Proof. destruct s as [[] [] [] [] [] [] [] [] [] []]; reflexivity. Qed.

(** Bits as bytes, least significant first. *)
Fixpoint positive_bytes (p : positive) : bytes :=
  match p with
  | xH => []
  | xO p => Byte.x00 :: positive_bytes p
  | xI p => Byte.x01 :: positive_bytes p
  end.
Fixpoint bytes_positive (l : bytes) : positive :=
  match l with
  | [] => xH
  | Byte.x00 :: l => xO (bytes_positive l)
  | _ :: l => xI (bytes_positive l)
  end.

Lemma bytes_positive_bytes p : bytes_positive (positive_bytes p) = p.
Proof. induction p as [p IH|p IH|]; cbn; [by rewrite IH..|done]. Qed.

Definition encode_secrets (s : PaidOperationSecrets) : bytes :=
  positive_bytes (encode (secrets_json s)).
Definition decode_secrets (l : bytes) : option PaidOperationSecrets :=
  match decode (bytes_positive l) with
  | Some j => json_secrets j
  | None => None
  end.

Lemma decode_encode_secrets s : decode_secrets (encode_secrets s) = Some s.
Proof.
  unfold decode_secrets, encode_secrets.
  by rewrite bytes_positive_bytes, decode_encode, json_secrets_json.
Qed.

#[export] Instance sample_cipher : OperationSecretCipher unit.
Proof.
  refine {| encrypt := fun _ id v => mkEncrypted id [] [] [] (encode_secrets v) [] [];
            decrypt := fun id e => match decode_secrets (enc_ciphertext e) with
                                   | Some v => Ok v
                                   | None => Err (PlainError "operation secret unreadable")
                                   end |}.
  intros [] id v. cbn. by rewrite decode_encode_secrets.
Defined.

(** ** Operations *)

Definition sha_a : string := repeat_char "a"%char 64.

Definition sample_route (protocol : string) (transport : option string) : PaidRouteSnapshot :=
  {| route_protocol := protocol; route_transport := transport;
     route_capability := "video:transcode"; route_offering := "abr"; route_requestDescriptor := "req";
     route_responseDescriptor := None; route_workUnit := if transport then "video_frame_megapixel" else "output_seconds";
     route_estimator := None; route_pricePerUnitWei := "100"; route_unitsPerPrice := "1";
     route_quoteId := "q"; route_quoteVersion := "1"; route_constraintFingerprint := sha_a;
     route_routeFingerprint := sha_a; route_settlementDomainId := None;
     route_settlementKey := "k"; route_raw := JObj [] |}.

Definition sample_runtime : PaidSessionRuntimeState :=
  {| rt_publisherMode := gateway_relay; rt_relayStatus := relay_pending; rt_relayGeneration := 0;
     rt_runnerSessionId := None; rt_runnerHlsUrl := None; rt_lastRunnerEventId := None;
     rt_lastRunnerSequence := "0"; rt_lastRunnerUsage := "0"; rt_controlCursor := None;
     rt_refillCount := None; rt_lastHttpReconcileAt := None; rt_relayDisconnectedAt := None;
     rt_winddownReason := None; rt_outputState := None; rt_outputStateSince := None;
     rt_lastFailureCode := None |}.

Definition sample_session : NewPaidOperation :=
  {| new_id := "op"; new_kind := session; new_apiKeyId := "key"; new_assetId := None;
     new_liveStreamId := Some "stream"; new_requestId := "req-1";
     new_requestContentSha256 := sha_a; new_workId := "work"; new_rotationGeneration := None;
     new_route := sample_route "paid-session/v1" None; new_status := "opening";
     new_fundedUnits := "10"; new_sessionRuntime := Some sample_runtime |}.

Definition sample_job : NewPaidOperation :=
  {| new_id := "job"; new_kind := job; new_apiKeyId := "key"; new_assetId := Some "asset";
     new_liveStreamId := None; new_requestId := "req-2";
     new_requestContentSha256 := sha_a; new_workId := "work"; new_rotationGeneration := None;
     new_route := sample_route "paid-job/v1" (Some "unary"); new_status := "submitting";
     new_fundedUnits := "10"; new_sessionRuntime := None |}.

Definition sample_secrets : PaidOperationSecrets :=
  mkSecrets (Some (JObj [("work_id", JStr "work")])) None None None None None None
    (Some "ingest-key") None None.

Definition sample_stream : LiveStream :=
  mkLiveStream "stream" "key" None "hash" "live" "rtmp" None None None None None None None None 0 None.
Definition sample_asset : Asset :=
  mkAsset "asset" "key" "encoding" "upload" None None None None None None None None "baseline"
    None None 0 None None.
Definition sample_rendition : Rendition :=
  mkRendition "rend" "asset" "720p" "h264" 3000 None "queued" None 0 None.
Definition sample_encoding : EncodingJob :=
  mkEncodingJob "enc" "asset" None "abr" "running" None 0 None None None None None 0.
Definition sample_playback : PlaybackId :=
  mkPlaybackId "pb" "key" None (Some "stream") "public" false 0.

(** The tables before any paid operation. *)
Definition empty_db : db :=
  {| db_now := 0; db_paid_operations := ∅; db_secrets := ∅;
     db_live_streams := {[ "stream" := sample_stream ]};
     db_playback_ids := {[ "pb" := sample_playback ]};
     db_renditions := {[ "rend" := sample_rendition ]};
     db_encoding_jobs := {[ "enc" := sample_encoding ]};
     db_assets := {[ "asset" := sample_asset ]};
     db_uploads := ∅; db_api_keys := {[ "key" ]} |}.

(** The tables a transaction leaves, or the ones it started from. *)
Definition run {A} (t : tx A) (d : db) : db :=
  match t d with Ok (_, d') => d' | Err _ => d end.

Lemma run_Ok {A} (t : tx A) (d : db) :
  is_ok (t d) = true -> exists a, t d = Ok (a, run t d).
Proof. unfold run. destruct (t d) as [[a d']|e]; [eauto|done]. Qed.

Definition alice_lease : jsdate := DateMs 100.
Definition alice (version : string) : PaidOperationClaim := mkClaim "alice" version alice_lease.

Definition session_db : db :=
  run (insertWithSecrets tt sample_session sample_secrets "alice" alice_lease) empty_db.
Definition job_db : db :=
  run (insertWithSecrets tt sample_job sample_secrets "alice" alice_lease) empty_db.

Definition sample_evidence : PaidTerminalEvidence :=
  mkEvidence 200 sha_a "video_frame_megapixel" "7" None None None.
Definition sample_live_terminal : LiveTerminalValue :=
  mkLiveTerminal "stream" "7" "3" sample_evidence 50.
Definition sample_vod_terminal : VodTerminalValue :=
  mkVodTerminal "asset" "enc" "pb-2" "key" "loc" "bjob" "breq" "7" "3" sample_evidence 50
    [mkTerminalRendition "rend" "out/720p" (NInt 12)].
Definition settled_db : db := run (recordLiveTerminal "op" (alice "1") sample_live_terminal) session_db.
Definition released_db : db := run (releaseClaim "op" (alice "1")) session_db.
