(* ===== verification/OperationLease.v ===== *)
(** * The lease machine of a paid operation

    What the paid-operation repository promises to the recovery loops: an
    operation is free, leased to one gateway instance until an instant, or
    closed; every accepted mutation moves it along [lease_step] and increments its
    version; a closed operation never changes again.  The transactions of
    OperationRepo.v refine this machine, whatever the interleaving of instances. *)

From S2P Require Import Prelude Js Types Database OperationRepo Samples.
Open Scope Z_scope.

(** ** The abstract machine *)

Inductive lease : Type :=
| Free
| Held (owner : string) (until : Z)
| Closed.

Definition lease_of (r : Row) : lease :=
  match row_terminal_at r with
  | Some _ => Closed
  | None =>
      match row_recovery_owner r, row_recovery_lease_expires_at r with
      | Some o, Some l => Held o l
      | _, _ => Free
      end
  end.

(** One accepted mutation at database time [now].  A claim names the instant [t]
    its caller read from the clock. *)
Inductive lease_step (now : Z) : lease -> lease -> Prop :=
| lease_acquire s o l t :
    s <> Closed -> (forall o' l', s = Held o' l' -> o' = o \/ l' <= t) -> t < l ->
    lease_step now s (Held o l)
| lease_write o l : now < l -> lease_step now (Held o l) (Held o l)
| lease_extend o l l' : now < l -> l < l' -> lease_step now (Held o l) (Held o l')
| lease_release o l : lease_step now (Held o l) Free
| lease_preempt s : s <> Closed -> lease_step now s Free
| lease_close o l : now < l -> lease_step now (Held o l) Closed.

(** The columns no mutation touches: whose operation it is, for what, and at which
    price. *)
Definition same_identity (r r' : Row) : Prop :=
  row_id r' = row_id r /\ row_operation_kind r' = row_operation_kind r /\
  row_api_key_id r' = row_api_key_id r /\ row_asset_id r' = row_asset_id r /\
  row_live_stream_id r' = row_live_stream_id r /\
  row_request_content_sha256 r' = row_request_content_sha256 r /\
  routeFromRow r' = routeFromRow r /\ row_created_at r' = row_created_at r.

(** [r'] is what one accepted mutation made of [r]. *)
Record evolves (now : Z) (r r' : Row) : Prop := {
  evolves_identity : same_identity r r';
  evolves_version : row_lifecycle_version r' = row_lifecycle_version r + 1;
  evolves_updated : row_updated_at r' = now;
  evolves_lease : lease_step now (lease_of r) (lease_of r')
}.

(** ** Well-formed tables *)

Record db_wf (d : db) : Prop := {
  wf_keyed : map_Forall (fun k r => row_id r = k) (db_paid_operations d);
  wf_check : map_Forall (fun _ r => row_check r = true) (db_paid_operations d);
  wf_closed : map_Forall (fun _ r => is_present (row_terminal_at r) = true ->
                                     row_recovery_owner r = None) (db_paid_operations d);
  wf_secrets : map_Forall (fun k _ => exists r, db_paid_operations d !! k = Some r /\
                                                row_terminal_at r = None) (db_secrets d);
  wf_unique : forall k k' r r', db_paid_operations d !! k = Some r ->
      db_paid_operations d !! k' = Some r' -> k <> k' -> rows_conflict r r' = false
}.

(** ** The steps of the running system

    Any gateway instance may run any repository transaction at any time, with any
    arguments; the database clock advances; other repositories write the other
    tables. *)

Definition same_operations (d d' : db) : Prop :=
  db_paid_operations d' = db_paid_operations d /\ db_secrets d' = db_secrets d.

Section system.
Context `{Cipher : OperationSecretCipher entropy}.

Inductive repo_step : db -> db -> Prop :=
| step_insert v d o d' : insert v d = Ok (o, d') -> repo_step d d'
| step_insertWithSecrets rnd v s owner l d o d' :
    insertWithSecrets rnd v s owner l d = Ok (o, d') -> repo_step d d'
| step_claimRecoverable locked kind owner now l limit d o d' :
    claimRecoverable locked kind owner now l limit d = Ok (o, d') -> repo_step d d'
| step_claimSession locked stream owner now l d o d' :
    claimSessionByLiveStreamId locked stream owner now l d = Ok (o, d') -> repo_step d d'
| step_winddown stream reason d o d' :
    requestSessionWinddown stream reason d = Ok (o, d') -> repo_step d d'
| step_renew id claim l d o d' : renewClaim id claim l d = Ok (o, d') -> repo_step d d'
| step_release id claim d o d' : releaseClaim id claim d = Ok (o, d') -> repo_step d d'
| step_progress id claim v d o d' : recordProgress id claim v d = Ok (o, d') -> repo_step d d'
| step_retry id claim v d o d' : recordRetry id claim v d = Ok (o, d') -> repo_step d d'
| step_terminal id claim v d o d' : recordTerminal id claim v d = Ok (o, d') -> repo_step d d'
| step_liveTerminal id claim v d o d' : recordLiveTerminal id claim v d = Ok (o, d') -> repo_step d d'
| step_vodTerminal id claim v d o d' : recordVodTerminal id claim v d = Ok (o, d') -> repo_step d d'
| step_putSecrets rnd id claim v d o d' : putSecrets rnd id claim v d = Ok (o, d') -> repo_step d d'
| step_readSecrets id claim d o d' : readSecrets id claim d = Ok (o, d') -> repo_step d d'
| step_deleteSecrets id claim d o d' : deleteSecrets id claim d = Ok (o, d') -> repo_step d d'
| step_clock t d : db_now d <= t -> repo_step d (d <| db_now := t |>)
| step_media d d' : same_operations d d' -> db_now d' = db_now d -> repo_step d d'.

(** ** Row steps

    The effect of a transaction on the operation tables, one row at a time. *)

Inductive row_step : db -> db -> Prop :=
| row_other d d' : same_operations d d' -> db_now d <= db_now d' -> row_step d d'
| row_insert r d d1 d' :
    db_paid_operations d !! row_id r = None -> row_terminal_at r = None -> row_updated_at r = db_now d ->
    store_row r d = Ok d1 ->
    (db_secrets d' = db_secrets d \/ exists e, db_secrets d' = <[row_id r := e]> (db_secrets d)) ->
    db_paid_operations d' = db_paid_operations d1 -> db_now d' = db_now d -> row_step d d'
| row_update r r' d d1 d' :
    db_paid_operations d !! row_id r = Some r -> evolves (db_now d) r r' ->
    store_row r' d = Ok d1 ->
    (row_terminal_at r' = None -> db_secrets d' = db_secrets d) ->
    (row_terminal_at r' <> None ->
       row_recovery_owner r' = None /\ db_secrets d' = delete (row_id r) (db_secrets d)) ->
    db_paid_operations d' = db_paid_operations d1 -> db_now d' = db_now d -> row_step d d'
| row_secret id r e d d' :
    db_paid_operations d !! id = Some r -> row_terminal_at r = None ->
    d' = set_secrets id e d -> row_step d d'
| row_unsecret id d d' : d' = erase_secrets id d -> row_step d d'.

(** ** Row steps keep the tables well formed *)

Lemma clash_sym a b : clash a b = clash b a.
Proof. destruct a, b; cbn; try done. by apply bool_decide_ext. Qed.

Lemma rows_conflict_sym r r' : rows_conflict r r' = rows_conflict r' r.
Proof.
  unfold rows_conflict. rewrite (clash_sym (row_loc_operation_id r)),
    (clash_sym (row_broker_job_id r)), (clash_sym (row_broker_session_id r)). do 3 f_equal. by apply bool_decide_ext.
Qed.

Lemma store_row_wf r d d1 :
  db_wf d -> store_row r d = Ok d1 ->
  (is_present (row_terminal_at r) = true -> row_recovery_owner r = None) ->
  map_Forall (fun k r => row_id r = k) (db_paid_operations d1) /\
  map_Forall (fun _ r => row_check r = true) (db_paid_operations d1) /\
  map_Forall (fun _ r => is_present (row_terminal_at r) = true ->
                         row_recovery_owner r = None) (db_paid_operations d1) /\
  (forall k k' a b, db_paid_operations d1 !! k = Some a -> db_paid_operations d1 !! k' = Some b ->
     k <> k' -> rows_conflict a b = false).
Proof.
  intros [Hk Hc Ht _ Hu]. unfold store_row.
  destruct (row_check r && row_unique r (db_paid_operations d)) eqn:E; [|done].
  intros [= <-] Hclosed. bools. unfold row_unique in *. bools. cbn.
  split_and!; [by apply map_Forall_insert_2..|].
  match goal with H : map_Forall _ _ |- _ => rename H into Huq end.
  assert (forall k b, k <> row_id r -> db_paid_operations d !! k = Some b ->
            rows_conflict r b = false) as Hnew.
  { intros k b Hne Hb. destruct (Huq k b Hb) as [->|]; done. }
  intros k k' a b Ha Hb Hne.
  apply lookup_insert_Some in Ha as [[<- <-]|[Hka Ha]];
    apply lookup_insert_Some in Hb as [[<- <-]|[Hkb Hb]]; [done| | |by eapply Hu].
  - by eapply Hnew.
  - rewrite rows_conflict_sym. by eapply Hnew.
Qed.

Lemma row_step_wf d d' : row_step d d' -> db_wf d -> db_wf d'.
Proof.
  intros Hstep Hwf. pose proof Hwf as [Hk Hc Ht Hs Hu].
  destruct Hstep as
    [d d' [Ho He] _|r d d1 d' Hnone Hterm _ Hst Hsec Hops _|r r' d d1 d' Hr Hev Hst Hopen Hclose Hops _
    |id r e d d' Hr Hterm ->|id d d' ->].
  - constructor; rewrite ?Ho, ?He; done.
  - destruct (store_row_wf _ _ _ Hwf Hst) as (Hk1 & Hc1 & Ht1 & Hu1); [by rewrite Hterm|].
    apply store_row_inv in Hst as [_ ->].
    constructor; rewrite ?Hops; try done. cbn in *.
    intros k e He. destruct (decide (k = row_id r)) as [->|Hne].
    { exists r. by rewrite lookup_insert_eq. }
    rewrite lookup_insert_ne by done.
    assert (db_secrets d !! k = Some e) as He'.
    { destruct Hsec as [Hsec|[e' Hsec]]; rewrite Hsec in He; [done|].
      by rewrite lookup_insert_ne in He by done. }
    by apply (Hs k e).
  - destruct (store_row_wf _ _ _ Hwf Hst) as (Hk1 & Hc1 & Ht1 & Hu1).
    { intros Hp. apply Hclose. destruct (row_terminal_at r'); done. }
    apply store_row_inv in Hst as [_ ->].
    constructor; rewrite ?Hops; try done. cbn in *.
    destruct Hev as [[Hid _] _ _]. rewrite Hid in *.
    intros k e He. destruct (decide (k = row_id r)) as [->|Hne].
    + destruct (row_terminal_at r') eqn:Et.
      * destruct (Hclose ltac:(done)) as [_ Hsec]. rewrite Hsec, lookup_delete_eq in He. done.
      * exists r'. by rewrite lookup_insert_eq.
    + rewrite lookup_insert_ne by done. apply (Hs k e).
      destruct (row_terminal_at r').
      * destruct (Hclose ltac:(done)) as [_ Hsec]. by rewrite Hsec, lookup_delete_ne in He by done.
      * by rewrite Hopen in He by done.
  - constructor; try done. cbn. intros k e' He'.
    apply lookup_insert_Some in He' as [[<- _]|[_ He']]; [by exists r|by apply (Hs k e')].
  - constructor; try done. cbn. intros k e' He'.
    apply lookup_delete_Some in He' as [_ He']. by apply (Hs k e').
Qed.

Lemma row_steps_wf d d' : rtc row_step d d' -> db_wf d -> db_wf d'.
Proof. induction 1; eauto using row_step_wf. Qed.

(** ** How one row fares under a row step *)

Lemma row_step_lookup d d' id r :
  db_wf d -> row_step d d' -> db_paid_operations d !! id = Some r ->
  exists r', db_paid_operations d' !! id = Some r' /\
    (r' = r \/ evolves (db_now d) r r').
Proof.
  intros Hwf Hstep Hr. pose proof (wf_keyed _ Hwf _ _ Hr) as Hid. cbn in Hid.
  destruct Hstep as
    [d d' [Ho He] _|r0 d d1 d' Hnone Hterm _ Hst Hsec Hops _|r0 r1 d d1 d' Hr0 Hev Hst _ _ Hops _
    |id0 r0 e d d' _ _ ->|id0 d d' ->].
  - rewrite Ho. eauto.
  - apply store_row_inv in Hst as [_ ->]. rewrite Hops. cbn.
    rewrite lookup_insert_ne by congruence. eauto.
  - apply store_row_inv in Hst as [_ ->]. rewrite Hops. cbn.
    destruct (evolves_identity _ _ _ Hev) as [Heq _]. rewrite Heq.
    destruct (decide (row_id r0 = id)) as [E|E].
    + rewrite E, lookup_insert_eq. exists r1. split; [done|right].
      by replace r with r0 by congruence.
    + rewrite lookup_insert_ne by done. eauto.
  - eauto.
  - eauto.
Qed.

(** ** The transactions as row steps *)

Lemma update_claimed_inv id claim extra f d o d' :
  update_claimed id claim extra f d = Ok (o, d') ->
  (o = None /\ d' = d) \/
  exists r version, pg_bigint (cl_version claim) = Ok version /\
    db_paid_operations d !! id = Some r /\ holds_claim claim version r = true /\
    extra r = true /\ o = Some (f r) /\ store_row (f r) d = Ok d'.
Proof.
  unfold update_claimed. rewrite result_bind_Ok. intros (version & Hv & H).
  destruct (db_paid_operations d !! id) as [r|] eqn:Hr; [|by left; simplify_eq/=].
  destruct (holds_claim claim version r && extra r) eqn:Hc; [|by left; simplify_eq/=].
  right. apply result_bind_Ok in H as (d1 & Hst & H). bools. simplify_eq/=. eauto 10.
Qed.

(** A row that matches a claim is open and leased to the claim's owner. *)
Lemma holds_claim_held d id claim version r :
  db_wf d -> db_paid_operations d !! id = Some r -> holds_claim claim version r = true ->
  row_terminal_at r = None /\ row_recovery_owner r = Some (cl_owner claim) /\
  row_lifecycle_version r = version /\
  exists l, cl_leaseExpiresAt claim = DateMs l /\ row_recovery_lease_expires_at r = Some l /\
            lease_of r = Held (cl_owner claim) l.
Proof.
  intros Hwf Hr. unfold holds_claim. intros Hc. bools.
  destruct (cl_leaseExpiresAt claim) as [l|]; [|done]. bools.
  assert (row_terminal_at r = None) as Ht.
  { destruct (row_terminal_at r) eqn:Et; [|done].
    pose proof (wf_closed _ Hwf _ _ Hr) as Hcl. cbn in Hcl. rewrite Et in Hcl.
    specialize (Hcl eq_refl). congruence. }
  split_and!; try done. exists l. split_and!; try done.
  unfold lease_of. rewrite Ht. by simplify_option_eq.
Qed.

(** A claimed update is one row step, when its row function is a mutation the
    machine has. *)
Lemma claimed_row_step id claim extra f d o d' :
  db_wf d -> update_claimed id claim extra f d = Ok (o, d') ->
  (forall r l, lease_of r = Held (cl_owner claim) l -> cl_leaseExpiresAt claim = DateMs l ->
     row_recovery_owner r = Some (cl_owner claim) -> row_recovery_lease_expires_at r = Some l ->
     row_terminal_at r = None ->
     extra r = true -> evolves (db_now d) r (f r) /\ row_terminal_at (f r) = None) ->
  rtc row_step d d'.
Proof.
  intros Hwf Hu Hf. apply update_claimed_inv in Hu as
    [[-> ->]|(r & version & _ & Hr & Hc & Hx & -> & Hst)]; [apply rtc_refl|].
  destruct (holds_claim_held _ _ _ _ _ Hwf Hr Hc) as (Ht & Ho & _ & l & Hcl & Hl & Hlease).
  destruct (Hf r l) as [Hev Hopen]; try done.
  pose proof (wf_keyed _ Hwf _ _ Hr) as Hid. cbn in Hid. subst id.
  apply rtc_once. eapply row_update; try done; by apply store_row_inv in Hst as [_ ->].
Qed.

Lemma lease_live_held now r l :
  row_recovery_lease_expires_at r = Some l -> lease_live now r = true -> now < l.
Proof. unfold lease_live. intros ->. intros. by bools. Qed.

Ltac identity := by (split_and!; reflexivity).

(** A closing update with the erasure of the secrets is one row step. *)
Lemma closing_row_step id claim extra f d d1 d' r at_ :
  db_wf d -> update_claimed id claim extra f d = Ok (Some r, d1) ->
  (forall r, extra r = true -> lease_live (db_now d) r = true) ->
  (forall r, same_identity r (f r) /\ row_lifecycle_version (f r) = row_lifecycle_version r + 1 /\
     row_updated_at (f r) = db_now d /\ row_recovery_owner (f r) = None /\ row_terminal_at (f r) = Some at_) ->
  db_paid_operations d' = db_paid_operations d1 -> db_secrets d' = delete id (db_secrets d) ->
  db_now d' = db_now d ->
  row_step d d'.
Proof.
  intros Hwf Hu Hx Hf Hops Hsec Hnow. apply update_claimed_inv in Hu as
    [[? _]|(r0 & version & _ & Hr & Hc & Hx0 & Heq & Hst)]; [done|].
  destruct (holds_claim_held _ _ _ _ _ Hwf Hr Hc) as (Ht & Ho & _ & l & Hcl & Hl & Hlease).
  pose proof (wf_keyed _ Hwf _ _ Hr) as Hid. cbn in Hid. subst id.
  destruct (Hf r0) as (Hident & Hver & Hupd & Hown & Hterm).
  eapply (row_update r0 (f r0)); try done.
  - constructor; [done|done|done|]. rewrite Hlease. unfold lease_of. rewrite Hterm.
    apply lease_close. eapply lease_live_held; eauto.
  - by rewrite Hterm.
Qed.

(** The rows a multi-row UPDATE changes, one after the other. *)
Lemma update_rows_steps f rs d out d' :
  update_rows f rs d = Ok (out, d') ->
  NoDup (row_id <$> rs) ->
  (forall r, r ∈ rs -> db_paid_operations d !! row_id r = Some r) ->
  (forall r, r ∈ rs -> evolves (db_now d) r (f r) /\ row_terminal_at (f r) = None) ->
  rtc row_step d d' /\ out = f <$> rs /\ db_now d' = db_now d /\ db_secrets d' = db_secrets d.
Proof.
  revert d out. induction rs as [|r rs IH]; cbn; intros d out H Hnd Hin Hf.
  { by simplify_eq/=. }
  apply result_bind_Ok in H as (d1 & Hst & H).
  apply result_bind_Ok in H as ([out' d2] & Hrest & H). cbn in H. simplify_eq/=.
  apply NoDup_cons in Hnd as [Hnotin Hnd].
  destruct (Hf r) as [Hev Hopen]; [left|].
  pose proof (proj1 (evolves_identity _ _ _ Hev)) as Hid.
  pose proof Hst as Hst'. apply store_row_inv in Hst' as [_ ->].
  destruct (IH _ _ Hrest Hnd) as (Hsteps & -> & Hn & Hs).
  - intros x Hx. cbn. rewrite Hid, lookup_insert_ne; [apply Hin; by right|].
    intros Heq. apply Hnotin. rewrite Heq. by apply list_elem_of_fmap_2.
  - intros x Hx. apply Hf. by right.
  - split_and!; try done. eapply rtc_l; [|exact Hsteps].
    eapply row_update; try done. apply Hin. left.
Qed.

(** Every row of a selection is the stored row of its id, once. *)
Lemma rows_where_stored d p r :
  db_wf d -> r ∈ rows_where p (db_paid_operations d) ->
  p r = true /\ db_paid_operations d !! row_id r = Some r.
Proof.
  intros Hwf. rewrite elem_of_rows_where. intros (Hp & k & Hk).
  pose proof (wf_keyed _ Hwf _ _ Hk) as Hid. cbn in Hid. by subst k.
Qed.

Lemma rows_where_NoDup d p :
  db_wf d -> NoDup (row_id <$> rows_where p (db_paid_operations d)).
Proof.
  intros Hwf. unfold rows_where.
  pose proof (NoDup_fst_map_to_list (db_paid_operations d)) as Hnd.
  assert (forall k r, (k, r) ∈ map_to_list (db_paid_operations d) -> row_id r = k) as Hkey.
  { intros k r Hin. apply elem_of_map_to_list in Hin. by apply (wf_keyed _ Hwf) in Hin. }
  induction (map_to_list (db_paid_operations d)) as [|[k r] l IH]; cbn in *; [constructor|].
  apply NoDup_cons in Hnd as [Hni Hnd].
  assert (NoDup (row_id <$> List.filter p l.*2)) as Htail.
  { apply IH; [done|]. intros. apply Hkey. by right. }
  destruct (p r); [|done]. cbn. constructor; [|done].
  intros Hin. apply Hni. apply list_elem_of_fmap in Hin as (r' & Heq & Hin).
  apply elem_of_filter_bool in Hin as [_ Hin].
  apply list_elem_of_fmap in Hin as ([k' r''] & -> & Hin). cbn in *.
  rewrite (Hkey k r) in Heq by left. rewrite Heq, (Hkey k' r'') by (by right).
  by apply (list_elem_of_fmap_2 fst) in Hin.
Qed.

(** Taking a lease is a move of the machine when the old one does not stand in the
    way. *)
Lemma take_lease_evolves owner lease now t r :
  row_terminal_at r = None -> t < lease ->
  (row_recovery_owner r = Some owner \/
   match row_recovery_lease_expires_at r with Some l => l <=? t | None => true end = true) ->
  evolves now r (take_lease owner lease now r) /\
  row_terminal_at (take_lease owner lease now r) = None.
Proof.
  intros Ht Hl Hfree. split; [|done]. constructor; [identity|done|done|].
  replace (lease_of (take_lease owner lease now r)) with (Held owner lease)
    by (unfold lease_of; cbn; by rewrite Ht).
  apply (lease_acquire _ _ _ _ t); [|intros o' l'|done]; unfold lease_of; rewrite Ht.
  - by repeat case_match.
  - repeat case_match; try done. intros [= <- <-].
    destruct Hfree as [Ho|Hx]; [left; congruence|right]. by bools.
Qed.

(** The first rows of an ordered selection. *)
Lemma selected_stored d p key n r :
  db_wf d -> r ∈ take n (order_asc key (rows_where p (db_paid_operations d))) ->
  p r = true /\ db_paid_operations d !! row_id r = Some r.
Proof.
  intros Hwf Hr. apply elem_of_take in Hr as (i & Hr & _).
  apply list_elem_of_lookup_2, elem_of_order_asc in Hr. by apply rows_where_stored.
Qed.

Lemma selected_NoDup d p key n :
  db_wf d -> NoDup (row_id <$> take n (order_asc key (rows_where p (db_paid_operations d)))).
Proof.
  intros Hwf. rewrite fmap_take. eapply sublist_NoDup; [|apply sublist_take].
  unfold order_asc. rewrite merge_sort_Permutation. by apply rows_where_NoDup.
Qed.

(** What [claimRecoverable] does: the oldest claimable rows, at most [limit], each
    leased to the caller. *)
Lemma claimRecoverable_steps locked kind owner now l limit d o d' :
  db_wf d -> claimRecoverable locked kind owner now l limit d = Ok (o, d') ->
  rtc row_step d d' /\ exists lease, l = DateMs lease /\ now < lease /\ limit <= 1000 /\
  let candidates := take (Z.to_nat limit) (order_asc row_updated_at
        (rows_where (recoverable kind now locked) (db_paid_operations d))) in
  o = rowToOperation <$> (take_lease owner lease (db_now d) <$> candidates).
Proof.
  intros Hwf. unfold claimRecoverable. rewrite result_bind_Ok. intros (_ & _ & H).
  apply guard_Ok in H as [Hg H]. destruct l as [lease|]; [|done]. cbn in Hg. bools.
  apply result_bind_Ok in H as ([out d1] & Hup & H). cbn in H. simplify_eq/=.
  apply update_rows_steps in Hup as (Hsteps & -> & _ & _).
  - split; [done|]. exists lease. done.
  - by apply selected_NoDup.
  - intros r Hr. by apply selected_stored in Hr as [_ ?].
  - intros r Hr. apply selected_stored in Hr as [Hp _]; [|done].
    unfold recoverable, not_terminal in Hp. bools.
    apply (take_lease_evolves _ _ _ now); [by destruct (row_terminal_at r)|done|by right].
Qed.

(** A single selected row replaced by what the machine allows. *)
Lemma stored_row_step r r' d d' :
  db_paid_operations d !! row_id r = Some r -> evolves (db_now d) r r' ->
  row_terminal_at r' = None -> store_row r' d = Ok d' -> rtc row_step d d'.
Proof.
  intros Hr Hev Ht Hst. pose proof Hst as Hst'. apply store_row_inv in Hst' as [_ ->].
  apply rtc_once. by eapply row_update.
Qed.

Lemma claimSession_steps locked stream owner now l d o d' :
  db_wf d -> claimSessionByLiveStreamId locked stream owner now l d = Ok (o, d') ->
  rtc row_step d d'.
Proof.
  intros Hwf. unfold claimSessionByLiveStreamId. rewrite result_bind_Ok. intros (_ & _ & H).
  apply guard_Ok in H as [Hg H]. destruct l as [lease|]; [|done]. cbn in Hg. bools.
  destruct (head _) as [r|] eqn:Hh; [|by simplify_eq/=].
  apply head_order_desc in Hh as [Hh _]. apply rows_where_stored in Hh as [Hp Hr]; [|done].
  apply result_bind_Ok in H as (d1 & Hst & H). simplify_eq/=.
  unfold claimable_session, not_terminal in Hp. bools.
  destruct (take_lease_evolves owner lease (db_now d) now r) as [Hev Ht]; [|done| |].
  - by destruct (row_terminal_at r).
  - match goal with H : _ = true \/ _ = true |- _ => destruct H; bools; auto end.
  - by eapply stored_row_step.
Qed.

Lemma winddown_evolves reason now r :
  row_terminal_at r = None ->
  evolves now r (winddown_row reason now r) /\ row_terminal_at (winddown_row reason now r) = None.
Proof.
  intros Ht. split; [|done]. constructor; [identity|done|done|].
  unfold lease_of at 2. cbn. rewrite Ht. apply lease_preempt.
  unfold lease_of. rewrite Ht. by repeat case_match.
Qed.

Lemma winddown_steps stream reason d o d' :
  db_wf d -> requestSessionWinddown stream reason d = Ok (o, d') -> rtc row_step d d'.
Proof.
  intros Hwf. unfold requestSessionWinddown. rewrite guard_Ok. intros [_ H].
  destruct (head _) as [r|] eqn:Hh; [|by simplify_eq/=].
  apply head_order_desc in Hh as [Hh _]. apply rows_where_stored in Hh as [Hp Hr]; [|done].
  apply result_bind_Ok in H as (d1 & Hst & H). simplify_eq/=.
  unfold not_terminal in Hp. bools.
  destruct (winddown_evolves reason (db_now d) r) as [Hev Ht]; [by destruct (row_terminal_at r)|].
  by eapply stored_row_step.
Qed.

(** Row functions that keep the lease of the row. *)
Lemma write_evolves now r r' o l :
  same_identity r r' -> row_lifecycle_version r' = row_lifecycle_version r + 1 -> row_updated_at r' = now ->
  row_terminal_at r' = None -> row_recovery_owner r' = Some o ->
  row_recovery_lease_expires_at r' = Some l ->
  lease_of r = Held o l -> now < l -> evolves now r r'.
Proof.
  intros Hid Hv Hu Ht Ho Hl Hr Hlive. constructor; [done|done|done|].
  rewrite Hr. unfold lease_of. rewrite Ht, Ho, Hl. by apply lease_write.
Qed.

Lemma renew_steps id claim l d o d' :
  db_wf d -> renewClaim id claim l d = Ok (o, d') -> rtc row_step d d'.
Proof.
  intros Hwf. unfold renewClaim. rewrite result_bind_Ok. intros (_ & _ & H).
  destruct l as [lease|]; [|done]. destruct (cl_leaseExpiresAt claim) as [held|] eqn:Hcl; [|done].
  apply guard_Ok in H as [Hg H]. apply result_bind_Ok in H as ([o' d1] & Hu & H). simplify_eq/=.
  eapply claimed_row_step; [done|exact Hu|]. intros r l Hlease Hl Ho Hrl Ht Hx. bools.
  split; [|done]. constructor; [identity|done|done|]. simplify_eq/=. rewrite Hlease.
  replace (lease_of _) with (Held (cl_owner claim) lease)
    by (unfold lease_of; cbn; by rewrite Ht, Ho).
  bools. rewrite Hcl in Hl. injection Hl as <-.
  apply lease_extend; [by eauto using lease_live_held|done].
Qed.

Lemma release_steps id claim d o d' :
  db_wf d -> releaseClaim id claim d = Ok (o, d') -> rtc row_step d d'.
Proof.
  intros Hwf. unfold releaseClaim. rewrite result_bind_Ok. intros (_ & _ & H).
  apply result_bind_Ok in H as ([o' d1] & Hu & H). simplify_eq/=.
  eapply claimed_row_step; [done|exact Hu|]. intros r l Hlease _ _ _ Ht _.
  split; [|done]. constructor; [identity|done|done|]. rewrite Hlease.
  replace (lease_of _) with Free by (unfold lease_of; cbn; by rewrite Ht).
  apply lease_release.
Qed.

Lemma progress_steps id claim v d o d' :
  db_wf d -> recordProgress id claim v d = Ok (o, d') -> rtc row_step d d'.
Proof.
  intros Hwf. unfold recordProgress. rewrite result_bind_Ok. intros (_ & _ & H).
  apply result_bind_Ok in H as ([[[f c] b] q] & _ & H).
  apply result_bind_Ok in H as ([o' d1] & Hu & H). simplify_eq/=.
  eapply claimed_row_step; [done|exact Hu|]. intros r l Hlease _ Ho Hl Ht Hx.
  split; [|done]. eapply write_evolves; eauto using lease_live_held. identity.
Qed.

Lemma retry_steps id claim v d o d' :
  db_wf d -> recordRetry id claim v d = Ok (o, d') -> rtc row_step d d'.
Proof.
  intros Hwf. unfold recordRetry. rewrite result_bind_Ok. intros (_ & _ & H).
  apply result_bind_Ok in H as ([o' d1] & Hu & H). simplify_eq/=.
  eapply claimed_row_step; [done|exact Hu|]. intros r l Hlease _ Ho Hl Ht Hx.
  split; [|done]. eapply write_evolves; eauto using lease_live_held. identity.
Qed.

(** The claim of a terminal transaction that found no row changes nothing. *)
Lemma update_claimed_None id claim extra f d d' :
  update_claimed id claim extra f d = Ok (None, d') -> d' = d.
Proof. intros Hu. by apply update_claimed_inv in Hu as [[_ ->]|(?&?&?&?&?&?&?&?)]. Qed.

Lemma update_claimed_frame id claim extra f d o d' :
  update_claimed id claim extra f d = Ok (o, d') ->
  db_secrets d' = db_secrets d /\ db_now d' = db_now d /\
  db_live_streams d' = db_live_streams d /\ db_playback_ids d' = db_playback_ids d /\
  db_renditions d' = db_renditions d /\ db_encoding_jobs d' = db_encoding_jobs d /\
  db_assets d' = db_assets d /\ db_api_keys d' = db_api_keys d.
Proof.
  intros Hu. apply update_claimed_inv in Hu as
    [[_ ->]|(r & v & _ & _ & _ & _ & _ & Hst)]; [done|].
  by apply store_row_inv in Hst as [_ ->].
Qed.

Lemma terminal_steps id claim v d o d' :
  db_wf d -> recordTerminal id claim v d = Ok (o, d') -> rtc row_step d d'.
Proof.
  intros Hwf. unfold recordTerminal. rewrite !result_bind_Ok. intros (_ & _ & H).
  apply result_bind_Ok in H as (c & _ & H). apply result_bind_Ok in H as (q & _ & H).
  apply result_bind_Ok in H as ([[r|] d1] & Hu & H); simplify_eq/=.
  - pose proof (update_claimed_frame _ _ _ _ _ _ _ Hu) as (Hs & Hn & _).
    apply rtc_once. eapply closing_row_step; [done|exact Hu|done| |done| |done].
    + intros r0. split_and!; [identity|reflexivity..].
    + cbn. by rewrite Hs.
  - by apply update_claimed_None in Hu as ->.
Qed.

Lemma end_stream_frame id t d d' :
  end_stream id t d = Ok d' ->
  exists s, db_live_streams d !! id = Some s /\ ls_endedAt s = None /\
  d' = d <| db_live_streams := <[id := s <| ls_status := "ended" |>
         <| ls_lastSeenAt := Some t |> <| ls_endedAt := Some t |>]> (db_live_streams d) |>.
Proof.
  unfold end_stream. destruct (db_live_streams d !! id) as [s|]; [|done].
  destruct (ls_endedAt s) eqn:E; cbn; [done|]. intros [= <-]. by exists s.
Qed.

Lemma liveTerminal_steps id claim v d o d' :
  db_wf d -> recordLiveTerminal id claim v d = Ok (o, d') -> rtc row_step d d'.
Proof.
  intros Hwf. unfold recordLiveTerminal. rewrite !result_bind_Ok. intros (_ & _ & H).
  apply result_bind_Ok in H as (c & _ & H). apply result_bind_Ok in H as (q & _ & H).
  apply result_bind_Ok in H as ([[r|] d1] & Hu & H); [|by simplify_eq/=].
  apply result_bind_Ok in H as (d2 & He & H). apply end_stream_frame in He as (s & _ & _ & ->).
  simplify_eq/=.
  pose proof (update_claimed_frame _ _ _ _ _ _ _ Hu) as (Hs & Hn & _).
  apply rtc_once. eapply closing_row_step; [done|exact Hu| | |done| |done].
  + intros r0 Hx. by bools.
  + intros r0. split_and!; [identity|reflexivity..].
  + cbn. by rewrite Hs.
Qed.

Lemma complete_renditions_frame a t rs d d' :
  complete_renditions a t rs d = Ok d' -> exists m, d' = d <| db_renditions := m |>.
Proof.
  revert d. induction rs as [|x rs IH]; cbn; intros d H.
  { injection H as <-. exists (db_renditions d). by destruct d. }
  repeat case_match; try done. apply IH in H as [m ->]. by exists m.
Qed.

Lemma add_playback_frame p k a d d' :
  add_playback p k a d = Ok d' -> exists m, d' = d <| db_playback_ids := m |>.
Proof.
  unfold add_playback. intros Hx; repeat case_match; simplify_eq/=; [|by eexists].
  exists (db_playback_ids d'). by destruct d'.
Qed.

Lemma complete_job_frame j a t d d' :
  complete_job j a t d = Ok d' ->
  exists ej, db_encoding_jobs d !! j = Some ej /\ ej_assetId ej = a /\
  d' = d <| db_encoding_jobs := <[j := ej <| ej_status := "completed" |>
         <| ej_completedAt := Some t |>]> (db_encoding_jobs d) |>.
Proof. unfold complete_job. intros Hx; repeat case_match; simplify_eq/=. bools. eauto. Qed.

Lemma ready_asset_frame a t d d' :
  ready_asset a t d = Ok d' ->
  exists x, db_assets d !! a = Some x /\
  d' = d <| db_assets := <[a := x <| as_status := "ready" |> <| as_readyAt := Some t |>]> (db_assets d) |>.
Proof. unfold ready_asset. intros Hx; repeat case_match; simplify_eq/=. eauto. Qed.

Lemma vodTerminal_steps id claim v d o d' :
  db_wf d -> recordVodTerminal id claim v d = Ok (o, d') -> rtc row_step d d'.
Proof.
  intros Hwf. unfold recordVodTerminal. rewrite !result_bind_Ok. intros (_ & _ & H).
  apply result_bind_Ok in H as (c & _ & H). apply result_bind_Ok in H as (q & _ & H).
  apply result_bind_Ok in H as ([[r|] d1] & Hu & H); [|by simplify_eq/=].
  apply result_bind_Ok in H as (d2 & H2 & H). apply complete_renditions_frame in H2 as (m & ->).
  apply result_bind_Ok in H as (d3 & H3 & H). apply complete_job_frame in H3 as (ej & _ & _ & ->).
  apply result_bind_Ok in H as (d4 & H4 & H). apply ready_asset_frame in H4 as (a & _ & ->).
  apply result_bind_Ok in H as (d5 & H5 & H). apply add_playback_frame in H5 as (pm & ->).
  simplify_eq/=.
  pose proof (update_claimed_frame _ _ _ _ _ _ _ Hu) as (Hs & Hn & _).
  apply rtc_once. eapply closing_row_step; [done|exact Hu| | |done| |done].
  + intros r0 Hx. by bools.
  + intros r0. split_and!; [identity|reflexivity..].
  + cbn. by rewrite Hs.
Qed.

Lemma insertStatement_fields now v claim r :
  insertStatement now v claim = Ok r ->
  row_id r = new_id v /\ row_terminal_at r = None /\ row_updated_at r = now /\
  row_lifecycle_version r = (if is_present claim then 1 else 0) /\
  row_recovery_owner r = fst <$> claim.
Proof.
  unfold insertStatement. rewrite !result_bind_Ok. intros (? & _ & H).
  apply result_bind_Ok in H as (? & _ & H). apply result_bind_Ok in H as (? & _ & H).
  apply result_bind_Ok in H as (? & _ & H). by simplify_eq/=.
Qed.

Lemma insert_row_inv r d d' :
  insert_row r d = Ok d' -> db_paid_operations d !! row_id r = None /\ store_row r d = Ok d'.
Proof.
  unfold insert_row, insert_allowed. destruct (_ && _) eqn:E; [|done]. bools.
  by destruct (db_paid_operations d !! row_id r).
Qed.

Lemma insert_steps v d o d' : insert v d = Ok (o, d') -> rtc row_step d d'.
Proof.
  unfold insert. rewrite !result_bind_Ok. intros (r & Hr & H).
  apply result_bind_Ok in H as (d1 & Hi & H). simplify_eq/=.
  apply insert_row_inv in Hi as [Hnone Hst]. apply insertStatement_fields in Hr as (_ & Ht & Hu & _).
  pose proof Hst as Hst'. apply store_row_inv in Hst' as [_ ->].
  apply rtc_once. eapply row_insert; try done. by left.
Qed.

Lemma insertWithSecrets_steps rnd v s owner l d o d' :
  insertWithSecrets rnd v s owner l d = Ok (o, d') -> rtc row_step d d'.
Proof.
  unfold insertWithSecrets. rewrite !result_bind_Ok. intros (_ & _ & H).
  apply result_bind_Ok in H as (r & Hr & H).
  apply result_bind_Ok in H as (d1 & Hi & H). simplify_eq/=.
  apply insert_row_inv in Hi as [Hnone Hst]. apply insertStatement_fields in Hr as (Hid & Ht & Hu & _).
  pose proof Hst as Hst'. apply store_row_inv in Hst' as [_ ->].
  apply rtc_once. eapply (row_insert r); try done. right. cbn. rewrite Hid. by eexists.
Qed.

Lemma claim_is_live_inv id claim d :
  claim_is_live id claim d = Ok true ->
  exists r version, pg_bigint (cl_version claim) = Ok version /\
    db_paid_operations d !! id = Some r /\ holds_claim claim version r = true /\
    lease_live (db_now d) r = true.
Proof.
  unfold claim_is_live. rewrite result_bind_Ok. intros (version & Hv & H).
  destruct (db_paid_operations d !! id) as [r|]; simplify_eq/=. bools. eauto 10.
Qed.

Lemma putSecrets_steps rnd id claim v d o d' :
  db_wf d -> putSecrets rnd id claim v d = Ok (o, d') -> rtc row_step d d'.
Proof.
  intros Hwf. unfold putSecrets. rewrite !result_bind_Ok. intros (_ & _ & H).
  apply result_bind_Ok in H as ([] & Hl & H); simplify_eq/=; [|done].
  apply claim_is_live_inv in Hl as (r & version & _ & Hr & Hc & _).
  destruct (holds_claim_held _ _ _ _ _ Hwf Hr Hc) as (Ht & _).
  apply rtc_once. by eapply row_secret.
Qed.

Lemma deleteSecrets_steps id claim d o d' :
  deleteSecrets id claim d = Ok (o, d') -> rtc row_step d d'.
Proof.
  unfold deleteSecrets. rewrite !result_bind_Ok. intros (_ & _ & H).
  apply result_bind_Ok in H as (live & _ & H). case_match; simplify_eq/=; [|done].
  apply rtc_once. by eapply row_unsecret.
Qed.

Lemma readSecrets_pure id claim d o d' : readSecrets id claim d = Ok (o, d') -> d' = d.
Proof.
  unfold readSecrets. rewrite !result_bind_Ok. intros (_ & _ & H).
  apply result_bind_Ok in H as (live & _ & H). repeat case_match; simplify_eq/=; try done.
  by apply result_bind_Ok in H as (? & _ & [= _ <-]).
Qed.

(** Every step of the system is a sequence of row steps. *)
Lemma repo_step_rows d d' : db_wf d -> repo_step d d' -> rtc row_step d d'.
Proof.
  intros Hwf H. destruct H;
    eauto using insert_steps, insertWithSecrets_steps, claimSession_steps, winddown_steps,
      renew_steps, release_steps, progress_steps, retry_steps, terminal_steps, liveTerminal_steps,
      vodTerminal_steps, putSecrets_steps, deleteSecrets_steps.
  - by eapply claimRecoverable_steps.
  - by rewrite (readSecrets_pure _ _ _ _ _ H).
  - apply rtc_once. by apply row_other.
  - apply rtc_once. apply row_other; [done|lia].
Qed.

Lemma repo_steps_rows d d' : db_wf d -> rtc repo_step d d' -> rtc row_step d d'.
Proof.
  intros Hwf Hs. revert Hwf. induction Hs as [d|d d1 d' H1 _ IH]; intros Hwf; [done|].
  pose proof (repo_step_rows _ _ Hwf H1). etrans; eauto using row_steps_wf.
Qed.

(** [n] accepted mutations of one row. *)
Definition evolved (n : nat) : Row -> Row -> Prop :=
  nsteps (fun r r' => exists now, evolves now r r') n.

Lemma evolved_version n r r' :
  evolved n r r' -> row_lifecycle_version r' = row_lifecycle_version r + Z.of_nat n.
Proof.
  induction 1 as [r|n r r1 r' [now He] _ IH]; [lia|].
  rewrite IH, (evolves_version _ _ _ He). lia.
Qed.

Lemma evolved_identity n r r' : evolved n r r' -> same_identity r r'.
Proof.
  induction 1 as [r|n r r1 r' [now He] _ IH]; [identity|].
  pose proof (evolves_identity _ _ _ He) as H1. unfold same_identity in *.
  destruct H1 as (?&?&?&?&?&?&?&?), IH as (?&?&?&?&?&?&?&?). split_and!; congruence.
Qed.

Lemma row_steps_lookup d d' id r :
  db_wf d -> rtc row_step d d' -> db_paid_operations d !! id = Some r ->
  exists n r', db_paid_operations d' !! id = Some r' /\ evolved n r r'.
Proof.
  intros Hwf Hs. revert Hwf r. induction Hs as [d|d d1 d' H1 _ IH]; intros Hwf r Hr.
  { exists 0%nat, r. split; [done|constructor]. }
  destruct (row_step_lookup _ _ _ _ Hwf H1 Hr) as (r1 & Hr1 & Hev).
  destruct (IH (row_step_wf _ _ H1 Hwf) r1 Hr1) as (n & r' & Hr' & Hn).
  destruct Hev as [->|Hev]; [by exists n, r'|].
  exists (S n), r'. split; [done|]. econstructor; eauto.
Qed.

Lemma fresh_wf d : db_paid_operations d = ∅ -> db_secrets d = ∅ -> db_wf d.
Proof. intros Ho Hs. constructor; rewrite ?Ho, ?Hs; by intros ?. Qed.

(** Whatever gateway instances do, in whatever order, every table state the
    system can reach is well formed: each operation is stored under its own id, its
    columns pass the checks of the migrations (lease and owner set together, units
    and version non-negative and in range), request, LOC and broker ids are unique,
    a terminal operation has no owner, and secrets exist only for an operation that
    is still open. *)
Lemma reachable_tables_well_formed d d' :
  db_wf d -> rtc repo_step d d' -> db_wf d'.
Proof. eauto using row_steps_wf, repo_steps_rows. Qed.

(** C1: the repository refines the lease machine.  Over any interleaving of
    repository transactions an operation's row moves by some number of accepted
    mutations, each an edge of [lease_step] that leaves the identity and the priced
    route of the operation alone, and the version column counts them exactly. *)
Theorem repository_refines_lease_machine d d' id r :
  db_wf d -> rtc repo_step d d' -> db_paid_operations d !! id = Some r ->
  exists n r', db_paid_operations d' !! id = Some r' /\ evolved n r r' /\
    same_identity r r' /\
    row_lifecycle_version r' = row_lifecycle_version r + Z.of_nat n.
Proof.
  intros Hwf Hs Hr.
  destruct (row_steps_lookup d d' id r) as (n & r' & Hr' & Hn); eauto using repo_steps_rows.
  exists n, r'. split_and!; eauto using evolved_version, evolved_identity.
Qed.

Lemma closed_stuck now r r' : row_terminal_at r <> None -> ~ evolves now r r'.
Proof.
  intros Ht [_ _ _ Hl]. unfold lease_of at 1 in Hl. destruct (row_terminal_at r); [|done].
  inversion Hl; congruence.
Qed.

(** C3: a terminal operation is final: no later transaction of any instance, with
    any claim, changes any column of its row. *)
Theorem terminal_operation_is_final d d' id r :
  db_wf d -> rtc repo_step d d' -> db_paid_operations d !! id = Some r ->
  row_terminal_at r <> None ->
  db_paid_operations d' !! id = Some r.
Proof.
  intros Hwf Hs Hr Ht.
  destruct (row_steps_lookup d d' id r) as (n & r' & Hr' & Hn); eauto using repo_steps_rows.
  destruct Hn as [|n ? r1 r' [now He] _]; [done|]. by apply closed_stuck in He.
Qed.

(** ** Fencing *)

Lemma pg_bigint_string_of_Z v : 0 <= v <= INT8_MAX -> pg_bigint (string_of_Z v) = Ok v.
Proof.
  intros Hv. unfold pg_bigint. rewrite string_of_Z_value by lia.
  by rewrite (proj2 (Z.leb_le _ _)) by lia.
Qed.

Lemma row_check_version r :
  row_check r = true -> 0 <= row_lifecycle_version r <= INT8_MAX.
Proof. unfold row_check. intros H. by bools. Qed.

(** A claim whose version is not the row's matches nothing. *)
Lemma stale_update id claim extra f d r v :
  db_paid_operations d !! id = Some r -> pg_bigint (cl_version claim) = Ok v ->
  row_lifecycle_version r <> v -> update_claimed id claim extra f d = Ok (None, d).
Proof.
  intros Hr Hv Hne. unfold update_claimed. rewrite Hv. cbn. rewrite Hr.
  unfold holds_claim. rewrite (proj2 (Z.eqb_neq _ _)) by done. by rewrite andb_false_r.
Qed.

Lemma stale_not_live id claim d r v :
  db_paid_operations d !! id = Some r -> pg_bigint (cl_version claim) = Ok v ->
  row_lifecycle_version r <> v -> claim_is_live id claim d = Ok false.
Proof.
  intros Hr Hv Hne. unfold claim_is_live. rewrite Hv. cbn. rewrite Hr.
  unfold holds_claim. rewrite (proj2 (Z.eqb_neq _ _)) by done. by rewrite andb_false_r.
Qed.

(** [t] accepts nothing in [d]: if it does not throw it answers [no] and changes
    nothing. *)
Definition refuses {A} (t : tx A) (no : A) (d : db) : Prop :=
  forall a d', t d = Ok (a, d') -> a = no /\ d' = d.

(** Every claimed operation refuses a claim with another version than the row's. *)
Lemma wrong_version_refused d id r claim v :
  db_paid_operations d !! id = Some r -> pg_bigint (cl_version claim) = Ok v ->
  row_lifecycle_version r <> v ->
  (forall l, refuses (renewClaim id claim l) None d) /\
  refuses (releaseClaim id claim) false d /\
  (forall p, refuses (recordProgress id claim p) None d) /\
  (forall p, refuses (recordRetry id claim p) None d) /\
  (forall t, refuses (recordTerminal id claim t) false d) /\
  (forall t, refuses (recordLiveTerminal id claim t) false d) /\
  (forall t, refuses (recordVodTerminal id claim t) false d) /\
  (forall rnd s, refuses (putSecrets rnd id claim s) false d) /\
  refuses (readSecrets id claim) None d /\
  refuses (deleteSecrets id claim) false d.
Proof.
  intros Hr Hv Hne. pose proof (fun x f => stale_update id claim x f d r v Hr Hv Hne) as Hu.
  pose proof (stale_not_live id claim d r v Hr Hv Hne) as Hl.
  split_and!; intros; intros a d' H.
  - unfold renewClaim in H. apply result_bind_Ok in H as (? & _ & H).
    repeat case_match; try done. apply guard_Ok in H as [_ H]. rewrite Hu in H. by simplify_eq/=.
  - unfold releaseClaim in H. apply result_bind_Ok in H as (? & _ & H).
    rewrite Hu in H. by simplify_eq/=.
  - unfold recordProgress in H. apply result_bind_Ok in H as (? & _ & H).
    apply result_bind_Ok in H as (? & _ & H). rewrite Hu in H. by simplify_eq/=.
  - unfold recordRetry in H. apply result_bind_Ok in H as (? & _ & H).
    rewrite Hu in H. by simplify_eq/=.
  - unfold recordTerminal in H. do 3 apply result_bind_Ok in H as (? & _ & H).
    rewrite Hu in H. by simplify_eq/=.
  - unfold recordLiveTerminal in H. do 3 apply result_bind_Ok in H as (? & _ & H).
    rewrite Hu in H. by simplify_eq/=.
  - unfold recordVodTerminal in H. do 3 apply result_bind_Ok in H as (? & _ & H).
    rewrite Hu in H. by simplify_eq/=.
  - unfold putSecrets in H. apply result_bind_Ok in H as (? & _ & H). rewrite Hl in H.
    by simplify_eq/=.
  - unfold readSecrets in H. apply result_bind_Ok in H as (? & _ & H). rewrite Hl in H.
    cbn in H. case_match; by simplify_eq/=.
  - unfold deleteSecrets in H. apply result_bind_Ok in H as (? & _ & H). rewrite Hl in H.
    by simplify_eq/=.
Qed.

(** C2: fencing.  An instance that read an operation and stalled while anyone
    changed its row is refused by every claimed operation: renewal, release,
    progress, retry, the three terminal transactions and the secret accesses answer
    no and leave every table as it is, whatever the owner and lease it presents. *)
Theorem stale_claim_is_fenced d d' id r r' claim :
  db_wf d -> rtc repo_step d d' ->
  db_paid_operations d !! id = Some r -> db_paid_operations d' !! id = Some r' -> r' <> r ->
  cl_version claim = op_lifecycleVersion (rowToOperation r) ->
  (forall l, refuses (renewClaim id claim l) None d') /\
  refuses (releaseClaim id claim) false d' /\
  (forall p, refuses (recordProgress id claim p) None d') /\
  (forall p, refuses (recordRetry id claim p) None d') /\
  (forall t, refuses (recordTerminal id claim t) false d') /\
  (forall t, refuses (recordLiveTerminal id claim t) false d') /\
  (forall t, refuses (recordVodTerminal id claim t) false d') /\
  (forall rnd s, refuses (putSecrets rnd id claim s) false d') /\
  refuses (readSecrets id claim) None d' /\
  refuses (deleteSecrets id claim) false d'.
Proof.
  intros Hwf Hs Hr Hr' Hne Hcl.
  destruct (row_steps_lookup d d' id r) as (n & r0 & Hr0 & Hn); eauto using repo_steps_rows.
  assert (r0 = r') as -> by congruence.
  eapply (wrong_version_refused d' id r' claim (row_lifecycle_version r)); [done| |].
  - rewrite Hcl. apply pg_bigint_string_of_Z, row_check_version. apply (wf_check _ Hwf _ _ Hr).
  - rewrite (evolved_version _ _ _ Hn). destruct Hn; [done|lia].
Qed.

End system.

(** ** Witnesses *)

Lemma session_db_reachable : rtc repo_step empty_db session_db.
Proof.
  apply rtc_once. destruct (run_Ok (insertWithSecrets tt sample_session sample_secrets "alice" alice_lease)
    empty_db ltac:(vm_compute; reflexivity)) as [o H]. by eapply step_insertWithSecrets.
Qed.

Lemma session_db_wf : db_wf session_db.
Proof.
  eapply row_steps_wf; [|by apply (fresh_wf empty_db)].
  apply repo_steps_rows; [by apply fresh_wf|apply session_db_reachable].
Qed.

Lemma settled_db_reachable : rtc repo_step session_db settled_db.
Proof.
  apply rtc_once. destruct (run_Ok (recordLiveTerminal "op" (alice "1") sample_live_terminal)
    session_db ltac:(vm_compute; reflexivity)) as [o H]. by eapply step_liveTerminal.
Qed.

Lemma released_db_reachable : rtc repo_step session_db released_db.
Proof.
  apply rtc_once. destruct (run_Ok (releaseClaim "op" (alice "1"))
    session_db ltac:(vm_compute; reflexivity)) as [o H]. by eapply step_release.
Qed.

Lemma reachable_tables_well_formed_witness : db_wf settled_db.
Proof.
  apply (reachable_tables_well_formed session_db settled_db).
  - apply session_db_wf.
  - apply settled_db_reachable.
Defined.

Lemma repository_refines_lease_machine_witness :
  exists n r r', db_paid_operations session_db !! "op" = Some r /\
    db_paid_operations settled_db !! "op" = Some r' /\ evolved n r r' /\ same_identity r r' /\
    row_lifecycle_version r' = row_lifecycle_version r + Z.of_nat n.
Proof.
  destruct (db_paid_operations session_db !! "op") as [r|] eqn:Hr.
  - destruct (repository_refines_lease_machine session_db settled_db "op" r session_db_wf
      settled_db_reachable Hr) as (n & r' & H). exists n, r, r'. split; [reflexivity|exact H].
  - exfalso. vm_compute in Hr. discriminate Hr.
Defined.

Lemma terminal_operation_is_final_witness :
  exists r, row_terminal_at r = Some 50 /\
    db_paid_operations (run (requestSessionWinddown "stream" "operator_stop") settled_db) !! "op" = Some r.
Proof.
  destruct (db_paid_operations settled_db !! "op") as [r|] eqn:Hr.
  2: { exfalso. vm_compute in Hr. discriminate Hr. }
  assert (row_terminal_at r = Some 50) as Ht by (vm_compute in Hr; injection Hr as <-; reflexivity).
  exists r. split; [exact Ht|].
  apply (terminal_operation_is_final settled_db _ "op" r).
  - eapply row_steps_wf; [|apply session_db_wf].
    apply repo_steps_rows; [apply session_db_wf|apply settled_db_reachable].
  - apply rtc_once. destruct (run_Ok (requestSessionWinddown "stream" "operator_stop") settled_db
      ltac:(vm_compute; reflexivity)) as [o H]. by eapply step_winddown.
  - exact Hr.
  - rewrite Ht. discriminate.
Defined.

Lemma stale_claim_is_fenced_witness :
  refuses (recordLiveTerminal "op" (alice "1") sample_live_terminal) false released_db.
Proof.
  destruct (db_paid_operations session_db !! "op") as [r|] eqn:Hr.
  2: { exfalso. vm_compute in Hr. discriminate Hr. }
  destruct (db_paid_operations released_db !! "op") as [r'|] eqn:Hr'.
  2: { exfalso. vm_compute in Hr'. discriminate Hr'. }
  eapply (stale_claim_is_fenced session_db released_db "op" r r' (alice "1")).
  - apply session_db_wf.
  - apply released_db_reachable.
  - exact Hr.
  - exact Hr'.
  - intros ->. vm_compute in Hr, Hr'. rewrite <- Hr' in Hr. discriminate Hr.
  - vm_compute in Hr. injection Hr as <-. reflexivity.
Defined.
