(* ===== verification/OperationSpec.v ===== *)
(** * What each repository operation does

    Functional specifications of the transactions of OperationRepo.v on every
    branch: claiming excludes a live lease of another instance, an inserted
    operation reads back, secrets round-trip, a terminal transaction takes effect as
    a whole or not at all. *)

From S2P Require Import Prelude Js Types Database OperationRepo Samples OperationLease.
Open Scope Z_scope.

Section spec.
Context `{Cipher : OperationSecretCipher entropy}.

(** ** Claiming *)

Lemma update_rows_frame f rs d out d' id :
  update_rows f rs d = Ok (out, d') -> (forall r, r ∈ rs -> row_id (f r) <> id) ->
  db_paid_operations d' !! id = db_paid_operations d !! id.
Proof.
  revert d out. induction rs as [|r rs IH]; cbn; intros d out H Hne; [by simplify_eq/=|].
  apply result_bind_Ok in H as (d1 & Hst & H).
  apply result_bind_Ok in H as ([out' d2] & Hrest & H). simplify_eq/=.
  rewrite (IH _ _ Hrest) by (intros; apply Hne; by right).
  apply store_row_inv in Hst as [_ ->]. cbn. rewrite lookup_insert_ne; [done|].
  apply Hne. left.
Qed.

(** C7: mutual exclusion.  While an operation is leased, no recovery sweep of any
    instance, and no claim by stream of another instance than the holder, returns it or
    touches its row, as long as the claimant's clock has not passed the lease.  (The
    holder itself may claim the stream's session again.) *)
Theorem live_lease_excludes_other_claims d id r holder until :
  db_wf d -> db_paid_operations d !! id = Some r -> lease_of r = Held holder until ->
  (forall locked kind owner now l limit out d',
     now < until -> claimRecoverable locked kind owner now l limit d = Ok (out, d') ->
     (id ∉ (op_id <$> out)) /\ db_paid_operations d' !! id = Some r) /\
  (forall locked stream owner now l out d',
     owner <> holder -> now < until ->
     claimSessionByLiveStreamId locked stream owner now l d = Ok (out, d') ->
     (op_id <$> out) <> Some id /\ db_paid_operations d' !! id = Some r).
Proof.
  intros Hwf Hr Hlease.
  assert (row_recovery_owner r = Some holder /\ row_recovery_lease_expires_at r = Some until)
    as [Ho Hl].
  { unfold lease_of in Hlease. repeat case_match; by simplify_eq/=. }
  split.
  - intros locked kind owner now l limit out d' Hnow H.
    assert (forall x, x ∈ take (Z.to_nat limit) (order_asc row_updated_at
      (rows_where (recoverable kind now locked) (db_paid_operations d))) -> row_id x <> id) as Hne.
    { intros x Hx Hid. apply selected_stored in Hx as [Hp Hx]; [|done].
      rewrite Hid, Hr in Hx. injection Hx as <-. unfold recoverable in Hp.
      rewrite Hl in Hp. bools. lia. }
    pose proof (claimRecoverable_steps _ _ _ _ _ _ _ _ _ Hwf H) as (_ & lease & -> & _ & _ & Hout).
    split.
    + cbn in Hout. rewrite Hout, <- !list_fmap_compose. intros Hin.
      apply list_elem_of_fmap in Hin as (x & -> & Hx). by apply (Hne x Hx).
    + rewrite <- Hr. unfold claimRecoverable in H.
      apply result_bind_Ok in H as (_ & _ & H). apply guard_Ok in H as [_ H].
      apply result_bind_Ok in H as ([o' d1] & Hu & H). simplify_eq/=.
      eapply update_rows_frame; [exact Hu|]. intros x Hx. by apply (Hne x Hx).
  - intros locked stream owner now l out d' Hown Hnow H.
    unfold claimSessionByLiveStreamId in H.
    apply result_bind_Ok in H as (_ & _ & H). apply guard_Ok in H as [_ H].
    destruct l as [lease|]; [|done].
    destruct (head _) as [x|] eqn:Hh; [|by simplify_eq/=].
    apply head_order_desc in Hh as [Hh _]. apply rows_where_stored in Hh as [Hp Hx]; [|done].
    apply result_bind_Ok in H as (d1 & Hst & H). simplify_eq/=.
    assert (row_id x <> id) as Hne.
    { intros Hid. rewrite Hid, Hr in Hx. injection Hx as <-. unfold claimable_session in Hp.
      rewrite Hl, Ho in Hp. bools.
      match goal with H : _ = true \/ _ = true |- _ => destruct H; bools; [congruence|lia] end. }
    split; [congruence|]. apply store_row_inv in Hst as [_ ->]. cbn.
    by rewrite lookup_insert_ne by done.
Qed.

(** A recovery sweep returns at most its limit of operations, each of which was
    of the requested kind, open, due and not leased past the sweep's clock; each
    comes back leased to the sweeping instance until the requested instant with its
    version increased by one, and no claimable operation left out was updated
    earlier than one that was taken. *)
Lemma recovery_sweep_spec locked kind owner now l limit d out d' :
  db_wf d -> claimRecoverable locked kind owner now l limit d = Ok (out, d') ->
  Z.of_nat (length out) <= limit /\
  (forall o, o ∈ out -> exists r lease, db_paid_operations d !! op_id o = Some r /\
     l = DateMs lease /\ recoverable kind now locked r = true /\
     o = rowToOperation (take_lease owner lease (db_now d) r)) /\
  (forall r o, db_paid_operations d !! row_id r = Some r -> recoverable kind now locked r = true ->
     row_id r ∉ (op_id <$> out) -> o ∈ out ->
     exists r0, db_paid_operations d !! op_id o = Some r0 /\ row_updated_at r0 <= row_updated_at r).
Proof.
  intros Hwf H. assert (1 <= limit) as Hlim.
  { unfold claimRecoverable in H. apply result_bind_Ok in H as (_ & _ & H).
    apply guard_Ok in H as [Hg _]. by bools. }
  apply claimRecoverable_steps in H as (_ & lease & -> & _ & _ & Hout); [|done]. cbn in Hout.
  set (sel := order_asc row_updated_at (rows_where (recoverable kind now locked) (db_paid_operations d)))
    in *.
  split_and!.
  - subst out. rewrite !length_fmap. pose proof (length_take_le sel (Z.to_nat limit)) as Hle.
    rewrite length_take. lia.
  - intros o Ho. subst out. rewrite <- list_fmap_compose in Ho.
    apply list_elem_of_fmap in Ho as (r & -> & Hr). apply selected_stored in Hr as [Hp Hr]; [|done].
    by exists r, lease.
  - intros r o Hr Hp Hnot Ho. subst out. rewrite <- list_fmap_compose in Ho.
    apply list_elem_of_fmap in Ho as (r0 & -> & Hr0). exists r0.
    split; [by apply selected_stored in Hr0 as [_ Hr0]|].
    assert (r ∈ skipn (Z.to_nat limit) sel) as Hrest.
    { assert (r ∈ sel) as Hin.
      { apply elem_of_order_asc, elem_of_rows_where. eauto. }
      rewrite <- (take_drop (Z.to_nat limit) sel) in Hin. apply elem_of_app in Hin as [Hin|Hin]; [|done].
      exfalso. apply Hnot. rewrite <- !list_fmap_compose.
      apply list_elem_of_fmap. by exists r. }
    assert (StronglySorted (key_le row_updated_at) sel) as Hs by apply (StronglySorted_merge_sort _).
    rewrite <- (take_drop (Z.to_nat limit) sel) in Hs.
    by eapply (StronglySorted_app_1_elem_of (key_le row_updated_at)) in Hs.
Qed.

(** ** Reading back what was inserted *)

Lemma pg_numeric_text s z : pg_numeric s = Ok z -> string_of_Z z = s.
Proof.
  unfold pg_numeric. destruct (decimal_value s) as [v|] eqn:Hv; [|done].
  case_match; intros; simplify_eq/=. by apply string_of_Z_decimal.
Qed.

(** The operation the caller of an insertion expects to see. *)
Definition inserted_operation (now : Z) (v : NewPaidOperation) (owner : option string)
    (lease : option Z) : PaidOperation :=
  {| op_id := new_id v; op_kind := new_kind v; op_apiKeyId := new_apiKeyId v;
     op_assetId := new_assetId v; op_liveStreamId := new_liveStreamId v;
     op_requestId := new_requestId v; op_requestContentSha256 := new_requestContentSha256 v;
     op_workId := new_workId v; op_rotationGeneration := new_rotationGeneration v ?? 0;
     op_route := new_route v; op_status := new_status v; op_locOperationId := None;
     op_brokerJobId := None; op_brokerSessionId := None; op_fundedUnits := new_fundedUnits v;
     op_claimedUnits := None; op_balanceUnits := None; op_willRefuseNextRefill := None;
     op_leaseExpiresAt := None; op_settlementSequence := "0";
     op_lifecycleVersion := if owner then "1" else "0"; op_recoveryOwner := owner;
     op_recoveryLeaseExpiresAt := lease; op_sessionRuntime := new_sessionRuntime v;
     op_retryCount := 0; op_nextRetryAt := None; op_lastErrorCode := None;
     op_terminalEvidence := None; op_createdAt := now; op_updatedAt := now;
     op_terminalAt := None |}.

Lemma insertStatement_operation now v claim r :
  insertStatement now v claim = Ok r ->
  rowToOperation r = inserted_operation now v (fst <$> claim)
    match claim with Some (_, DateMs l) => Some l | _ => None end.
Proof.
  unfold insertStatement. rewrite !result_bind_Ok. intros (p & Hp & H).
  apply result_bind_Ok in H as (u & Hu & H). apply result_bind_Ok in H as (f & Hf & H).
  apply result_bind_Ok in H as (l & Hl & H). simplify_eq/=.
  apply pg_numeric_text in Hp, Hu, Hf. unfold rowToOperation, routeFromRow, inserted_operation.
  cbn. rewrite Hp, Hu, Hf. destruct (new_route v), claim as [[o []]|]; cbn in *; by simplify_eq/=.
Qed.

Lemma stored_lookup r d d' : store_row r d = Ok d' -> db_paid_operations d' !! row_id r = Some r.
Proof. intros H. apply store_row_inv in H as [_ ->]. cbn. apply lookup_insert_eq. Qed.

(** An inserted operation reads back exactly as given: [byId] returns the
    caller's identity, route, funding and runtime state (decimal amounts survive
    the NUMERIC columns digit for digit), version 0 and no owner, and every other
    operation is untouched. *)
Lemma insert_reads_back v d o d' :
  insert v d = Ok (o, d') ->
  byId (new_id v) d' = Some (inserted_operation (db_now d) v None None) /\
  o = inserted_operation (db_now d) v None None /\
  forall id, id <> new_id v -> byId id d' = byId id d.
Proof.
  unfold insert. rewrite !result_bind_Ok. intros (r & Hr & H).
  apply result_bind_Ok in H as (d1 & Hi & H). simplify_eq/=.
  pose proof (insertStatement_operation _ _ _ _ Hr) as Hop. cbn in Hop.
  apply insertStatement_fields in Hr as (Hid & _). apply insert_row_inv in Hi as [_ Hst].
  unfold byId. rewrite <- Hid. split_and!; [|done|].
  - rewrite (stored_lookup _ _ _ Hst). cbn. by rewrite Hop.
  - intros id Hne. apply store_row_inv in Hst as [_ ->]. cbn. by rewrite lookup_insert_ne by done.
Qed.

(** ** Secrets *)

Lemma validateClaim_inv claim :
  validateClaim claim = Ok tt -> exists l, cl_leaseExpiresAt claim = DateMs l.
Proof.
  unfold validateClaim. rewrite refuse_if_Ok. intros H. bools.
  destruct (cl_leaseExpiresAt claim); [eauto|done].
Qed.

(** A live claim on a stored row. *)
Lemma claim_is_live_intro id claim d r l :
  db_paid_operations d !! id = Some r -> row_check r = true ->
  cl_version claim = string_of_Z (row_lifecycle_version r) ->
  row_recovery_owner r = Some (cl_owner claim) ->
  cl_leaseExpiresAt claim = DateMs l -> row_recovery_lease_expires_at r = Some l ->
  db_now d < l -> claim_is_live id claim d = Ok true.
Proof.
  intros Hr Hc Hv Ho Hcl Hl Hnow. unfold claim_is_live.
  rewrite Hv, pg_bigint_string_of_Z by (by apply row_check_version). cbn. rewrite Hr.
  unfold holds_claim, lease_live. rewrite Ho, Hcl, Hl, Z.eqb_refl.
  rewrite !bool_decide_eq_true_2 by done. cbn. by rewrite (proj2 (Z.ltb_lt _ _)) by done.
Qed.

(** The secrets stored with a new operation are what its owner reads: with the
    claim the insertion returned, while the lease lasts, [readSecrets] decrypts to
    exactly the value that was passed in. *)
Lemma inserted_secrets_read_back rnd v s owner l d o d' :
  insertWithSecrets rnd v s owner (DateMs l) d = Ok (o, d') -> db_now d < l ->
  op_lifecycleVersion o = "1" /\
  readSecrets (op_id o) (mkClaim owner (op_lifecycleVersion o) (DateMs l)) d' = Ok (Some s, d').
Proof.
  intros H Hnow. unfold insertWithSecrets in H. apply result_bind_Ok in H as ([] & Hv & H).
  apply result_bind_Ok in H as (r & Hr & H). apply result_bind_Ok in H as (d1 & Hi & H).
  pose proof (insertStatement_operation _ _ _ _ Hr) as Hop. cbn in Hop.
  apply insertStatement_fields in Hr as (Hid & _). apply insert_row_inv in Hi as [_ Hst].
  injection H as <- <-. rewrite Hop. cbn [op_lifecycleVersion op_id inserted_operation].
  split; [done|]. unfold readSecrets. rewrite Hv. cbn [result_bind].
  erewrite claim_is_live_intro with (r := r) (l := l).
  - cbn. rewrite lookup_insert_eq, decrypt_encrypt. done.
  - cbn. rewrite <- Hid. by eapply stored_lookup.
  - by apply store_row_inv in Hst as [? _].
  - by injection Hop.
  - by injection Hop.
  - done.
  - by injection Hop.
  - apply store_row_inv in Hst as [_ ->]. done.
Qed.

(** An accepted [putSecrets] is what the next [readSecrets] with the same claim
    returns; it changes no operation row, so the claim stays valid. *)
Lemma put_secrets_read_back rnd id claim s d d' :
  putSecrets rnd id claim s d = Ok (true, d') ->
  readSecrets id claim d' = Ok (Some s, d') /\
  db_paid_operations d' = db_paid_operations d.
Proof.
  unfold putSecrets, readSecrets. rewrite result_bind_Ok. intros ([] & Hv & H).
  apply result_bind_Ok in H as ([] & Hl & H); simplify_eq/=. split; [|done].
  rewrite Hv. cbn [result_bind].
  change (claim_is_live id claim _) with (claim_is_live id claim d). rewrite Hl.
  cbn. by rewrite lookup_insert_eq, decrypt_encrypt.
Qed.

(** ** Terminal transactions *)

(** The claim of a terminal transaction and the row it closed. *)
Lemma closed_by_claim id claim extra f d r d1 :
  db_wf d -> update_claimed id claim extra f d = Ok (Some r, d1) ->
  exists r0 l, db_paid_operations d !! id = Some r0 /\ lease_of r0 = Held (cl_owner claim) l /\
    cl_leaseExpiresAt claim = DateMs l /\ extra r0 = true /\ row_id r0 = id /\
    d1 = d <| db_paid_operations := <[row_id (f r0) := f r0]> (db_paid_operations d) |>.
Proof.
  intros Hwf Hu. apply update_claimed_inv in Hu as
    [[? _]|(r0 & version & _ & Hr & Hc & Hx & _ & Hst)]; [done|].
  destruct (holds_claim_held _ _ _ _ _ Hwf Hr Hc) as (_ & _ & _ & l & Hcl & _ & Hlease).
  apply store_row_inv in Hst as [_ ->]. pose proof (wf_keyed _ Hwf _ _ Hr). eauto 10.
Qed.

Lemma live_settlement_spec id claim v d ok d' :
  db_wf d -> recordLiveTerminal id claim v d = Ok (ok, d') ->
  if ok then
    exists r r' l s, db_paid_operations d !! id = Some r /\
      lease_of r = Held (cl_owner claim) l /\ db_now d < l /\
      row_operation_kind r = session /\ row_live_stream_id r = Some (lt_liveStreamId v) /\
      db_paid_operations d' = <[id := r']> (db_paid_operations d) /\
      lease_of r' = Closed /\ row_status r' = "settled" /\
      row_terminal_evidence r' = Some (lt_evidence v) /\
      string_of_Z <$> row_claimed_units r' = Some (lt_claimedUnits v) /\
      string_of_Z (row_settlement_sequence r') = lt_settlementSequence v /\
      db_live_streams d !! lt_liveStreamId v = Some s /\ ls_endedAt s = None /\
      db_live_streams d' = <[lt_liveStreamId v := s <| ls_status := "ended" |>
        <| ls_lastSeenAt := Some (lt_terminalAt v) |> <| ls_endedAt := Some (lt_terminalAt v) |>]>
          (db_live_streams d) /\
      (forall k p, db_playback_ids d' !! k = Some p <->
         db_playback_ids d !! k = Some p /\ pb_liveStreamId p <> Some (lt_liveStreamId v)) /\
      db_secrets d' = delete id (db_secrets d)
  else d' = d.
Proof.
  intros Hwf. unfold recordLiveTerminal. rewrite !result_bind_Ok. intros (_ & _ & H).
  apply result_bind_Ok in H as (c & Hcu & H). apply result_bind_Ok in H as (q & Hq & H).
  apply result_bind_Ok in H as ([[r|] d1] & Hu & H); [|by simplify_eq/=].
  apply closed_by_claim in Hu as (r0 & l & Hr0 & Hlease & Hcl & Hx & Hid & ->); [|done].
  apply result_bind_Ok in H as (d2 & He & H). apply end_stream_frame in He as (s & Hs & Hend & ->).
  simplify_eq/=. bools.
  exists r0, (terminal_row (db_now d) "settled" c q (lt_evidence v) (lt_terminalAt v) r0), l, s.
  apply pg_numeric_text in Hcu, Hq. split_and!; try done.
  - assert (row_recovery_lease_expires_at r0 = Some l) as Hrl.
    { unfold lease_of in Hlease. repeat case_match; by simplify_eq/=. }
    by eapply lease_live_held.
  - cbn. by rewrite Hcu.
  - intros k p. cbn. by rewrite map_lookup_filter_Some.
Qed.

(** C4: settling a live session takes effect as a whole.  If
    [recordLiveTerminal] answers yes, the session was leased to the caller until
    after now and was the stream's session, and in one transaction the operation is
    settled with the given evidence and final units, the stream is ended, its
    playback ids are gone and the operation's secrets are erased; if it answers no,
    nothing has changed. *)
Theorem live_settlement_is_atomic id claim v d ok d' :
  db_wf d -> recordLiveTerminal id claim v d = Ok (ok, d') ->
  if ok then
    exists r r' l s, db_paid_operations d !! id = Some r /\
      lease_of r = Held (cl_owner claim) l /\ db_now d < l /\
      row_operation_kind r = session /\ row_live_stream_id r = Some (lt_liveStreamId v) /\
      db_paid_operations d' = <[id := r']> (db_paid_operations d) /\
      lease_of r' = Closed /\ row_status r' = "settled" /\
      row_terminal_evidence r' = Some (lt_evidence v) /\
      string_of_Z <$> row_claimed_units r' = Some (lt_claimedUnits v) /\
      string_of_Z (row_settlement_sequence r') = lt_settlementSequence v /\
      db_live_streams d !! lt_liveStreamId v = Some s /\ ls_endedAt s = None /\
      db_live_streams d' = <[lt_liveStreamId v := s <| ls_status := "ended" |>
        <| ls_lastSeenAt := Some (lt_terminalAt v) |> <| ls_endedAt := Some (lt_terminalAt v) |>]>
          (db_live_streams d) /\
      (forall k p, db_playback_ids d' !! k = Some p <->
         db_playback_ids d !! k = Some p /\ pb_liveStreamId p <> Some (lt_liveStreamId v)) /\
      db_secrets d' = delete id (db_secrets d)
  else d' = d.
Proof. apply live_settlement_spec. Qed.

(** The rendition row a finished encode leaves. *)
Definition finished_rendition (t : Z) (x : TerminalRendition) (r : Rendition) : Rendition :=
  r <| rend_status := "completed" |> <| rend_storageKey := Some (tr_storageKey x) |>
    <| rend_durationSec := Some (tr_durationSeconds x) |> <| rend_completedAt := Some t |>.

Lemma complete_renditions_once a t rs d d' y :
  complete_renditions a t rs d = Ok d' -> y ∈ rs ->
  exists r, db_renditions d !! tr_renditionId y = Some r /\
    (rend_status r = "queued" \/ rend_status r = "running").
Proof.
  revert d. induction rs as [|x rs IH]; intros d; cbn [complete_renditions]; [by intros _ ?%elem_of_nil|].
  destruct (db_renditions d !! tr_renditionId x) as [r|] eqn:Hr; [|done].
  destruct (_ && _) eqn:Hg; [|done]. intros H Hy. bools.
  apply elem_of_cons in Hy as [->|Hy].
  { exists r. split; [done|]. match goal with H : _ = true \/ _ |- _ => destruct H; bools; auto end. }
  destruct (IH _ H Hy) as (r' & Hr' & Hs). cbn in Hr'.
  destruct (decide (tr_renditionId x = tr_renditionId y)) as [E|E].
  - rewrite E, lookup_insert_eq in Hr'. injection Hr' as <-. by destruct Hs.
  - rewrite lookup_insert_ne in Hr' by done. eauto.
Qed.

Lemma complete_renditions_spec a t rs d d' :
  complete_renditions a t rs d = Ok d' ->
  NoDup (tr_renditionId <$> rs) /\
  (forall x, x ∈ rs -> exists r, db_renditions d !! tr_renditionId x = Some r /\ rend_assetId r = a /\
     db_renditions d' !! tr_renditionId x = Some (finished_rendition t x r)) /\
  (forall k, k ∉ (tr_renditionId <$> rs) -> db_renditions d' !! k = db_renditions d !! k).
Proof.
  revert d. induction rs as [|x rs IH]; intros d; cbn [complete_renditions fmap list_fmap].
  { intros [= <-]. split_and!; [constructor|by intros ? ?%elem_of_nil|done]. }
  destruct (db_renditions d !! tr_renditionId x) as [r|] eqn:Hr; [|done].
  destruct (_ && _) eqn:Hg; [|done]. intros H. bools.
  destruct (IH _ H) as (Hnd & Hin & Hout). clear IH.
  assert (tr_renditionId x ∉ (tr_renditionId <$> rs)) as Hnew.
  { intros Hx. apply list_elem_of_fmap in Hx as (y & Hy & Hyin).
    destruct (complete_renditions_once _ _ _ _ _ y H Hyin) as (r' & Hr' & Hs).
    rewrite <- Hy in Hr'. cbn in Hr'. rewrite lookup_insert_eq in Hr'. injection Hr' as <-.
    by destruct Hs. }
  split_and!.
  - by constructor.
  - intros y Hy. apply elem_of_cons in Hy as [->|Hy].
    + exists r. split_and!; [done|done|]. rewrite Hout by done. cbn. by rewrite lookup_insert_eq.
    + destruct (Hin y Hy) as (r' & Hr' & Ha & Hd). exists r'. split_and!; [|done|done].
      cbn in Hr'. rewrite lookup_insert_ne in Hr'; [done|].
      intros Heq. apply Hnew. rewrite Heq. by apply list_elem_of_fmap_2.
  - intros k Hk. apply not_elem_of_cons in Hk as [Hk1 Hk2]. rewrite Hout by done. cbn.
    by rewrite lookup_insert_ne by done.
Qed.

(** A playback id exists for the asset once [add_playback] returned. *)
Lemma add_playback_spec p k a d d' :
  add_playback p k a d = Ok d' ->
  exists key pb, db_playback_ids d' !! key = Some pb /\ pb_assetId pb = Some a.
Proof.
  unfold add_playback. destruct (negb _) eqn:E; intros H.
  - simplify_eq/=. bools. destruct (rows_where _ _) as [|pb l] eqn:Hl; [done|].
    assert (pb ∈ rows_where (fun p => pb_assetId p ==? Some a) (db_playback_ids d')) as Hin
      by (rewrite Hl; left).
    apply elem_of_rows_where in Hin as (Hp & key & Hk). bools. eauto.
  - case_match; simplify_eq/=. eexists p, _. by rewrite lookup_insert_eq.
Qed.

(** Settling a VOD job takes effect as a whole.  If [recordVodTerminal] answers
    yes, the job was leased to the caller and was the asset's, and in one
    transaction it is settled under the reported LOC, job and request ids, every
    listed rendition (no rendition is listed twice) is completed with its storage
    key, the encoding job is completed, the asset is ready and has a playback id,
    and the secrets are erased; if it answers no, nothing has changed. *)
Lemma vod_settlement_is_atomic id claim v d ok d' :
  db_wf d -> recordVodTerminal id claim v d = Ok (ok, d') ->
  if ok then
    exists r r' l a ej, db_paid_operations d !! id = Some r /\
      lease_of r = Held (cl_owner claim) l /\ db_now d < l /\ row_asset_id r = Some (vt_assetId v) /\
      db_paid_operations d' = <[id := r']> (db_paid_operations d) /\
      lease_of r' = Closed /\ row_status r' = "settled" /\ row_asset_id r' = Some (vt_assetId v) /\
      row_terminal_evidence r' = Some (vt_evidence v) /\
      row_loc_operation_id r' = Some (vt_locOperationId v) /\
      row_broker_job_id r' = Some (vt_brokerJobId v) /\ row_request_id r' = vt_brokerRequestId v /\
      NoDup (tr_renditionId <$> vt_renditions v) /\
      (forall x, x ∈ vt_renditions v -> exists rd, db_renditions d !! tr_renditionId x = Some rd /\
         rend_assetId rd = vt_assetId v /\
         db_renditions d' !! tr_renditionId x = Some (finished_rendition (vt_terminalAt v) x rd)) /\
      db_encoding_jobs d !! vt_encodingJobId v = Some ej /\ ej_assetId ej = vt_assetId v /\
      ej_status <$> db_encoding_jobs d' !! vt_encodingJobId v = Some "completed" /\
      db_assets d !! vt_assetId v = Some a /\
      db_assets d' = <[vt_assetId v := a <| as_status := "ready" |>
                          <| as_readyAt := Some (vt_terminalAt v) |>]> (db_assets d) /\
      (exists k p, db_playback_ids d' !! k = Some p /\ pb_assetId p = Some (vt_assetId v)) /\
      db_secrets d' = delete id (db_secrets d)
  else d' = d.
Proof.
  intros Hwf. unfold recordVodTerminal. rewrite !result_bind_Ok. intros (_ & _ & H).
  apply result_bind_Ok in H as (c & Hcu & H). apply result_bind_Ok in H as (q & Hq & H).
  apply result_bind_Ok in H as ([[r|] d1] & Hu & H); [|by simplify_eq/=].
  apply closed_by_claim in Hu as (r0 & l & Hr0 & Hlease & Hcl & Hx & Hid & ->); [|done].
  apply result_bind_Ok in H as (d2 & H2 & H).
  pose proof (complete_renditions_spec _ _ _ _ _ H2) as (Hnd & Hrend & _).
  apply complete_renditions_frame in H2 as (m & ->).
  apply result_bind_Ok in H as (d3 & H3 & H). apply complete_job_frame in H3 as (ej & Hej & Hea & ->).
  apply result_bind_Ok in H as (d4 & H4 & H). apply ready_asset_frame in H4 as (a & Ha & ->).
  apply result_bind_Ok in H as (d5 & H5 & H). pose proof (add_playback_spec _ _ _ _ _ H5) as Hpb.
  apply add_playback_frame in H5 as (pm & ->). simplify_eq/=. bools.
  eexists r0, _, l, a, ej. split_and!; try done.
  - assert (row_recovery_lease_expires_at r0 = Some l) as Hrl.
    { unfold lease_of in Hlease. repeat case_match; by simplify_eq/=. }
    by eapply lease_live_held.
  - cbn. by rewrite lookup_insert_eq.
Qed.

(** ** Queries *)

(** [byLiveStreamId] answers with the stream's session of the greatest rotation
    generation: it finds one whenever one exists, and no session of the stream has
    a greater generation. *)
Lemma latest_session_of_stream stream d :
  db_wf d ->
  match byLiveStreamId stream d with
  | Some o => op_liveStreamId o = Some stream /\ op_kind o = session /\
      byId (op_id o) d = Some o /\
      forall id o', byId id d = Some o' -> op_liveStreamId o' = Some stream -> op_kind o' = session ->
        op_rotationGeneration o' <= op_rotationGeneration o
  | None => forall id o', byId id d = Some o' -> op_liveStreamId o' = Some stream ->
        op_kind o' = session -> False
  end.
Proof.
  intros Hwf. unfold byLiveStreamId. set (p := fun r => _).
  assert (forall id o', byId id d = Some o' -> op_liveStreamId o' = Some stream ->
    op_kind o' = session -> exists r, o' = rowToOperation r /\ r ∈ rows_where p (db_paid_operations d)) as Hin.
  { intros id o' Hb Hs Hk. unfold byId in Hb. destruct (db_paid_operations d !! id) as [r|] eqn:Hr; [|done].
    injection Hb as <-. exists r. split; [done|]. apply elem_of_rows_where. split; [|eauto].
    unfold p. cbn in Hs, Hk. rewrite Hs, Hk. by rewrite !bool_decide_eq_true_2. }
  destruct (head _) as [r|] eqn:Hh; cbn.
  - apply head_order_desc in Hh as [Hh Hmax]. apply rows_where_stored in Hh as [Hp Hr]; [|done].
    unfold p in Hp. bools. split_and!; [done|done|unfold byId; by rewrite Hr|].
    intros id o' Hb Hs Hk. destruct (Hin id o' Hb Hs Hk) as (r' & -> & Hr'). by apply Hmax.
  - intros id o' Hb Hs Hk. destruct (Hin id o' Hb Hs Hk) as (r' & -> & Hr').
    apply (elem_of_order_desc row_rotation_generation) in Hr'.
    destruct (order_desc _ _); [by apply elem_of_nil in Hr'|done].
Qed.

End spec.

(** ** Witnesses *)

Lemma job_db_wf : db_wf job_db.
Proof.
  eapply row_steps_wf; [|by apply (fresh_wf empty_db)].
  apply repo_steps_rows; [by apply fresh_wf|]. apply rtc_once.
  destruct (run_Ok (insertWithSecrets tt sample_job sample_secrets "alice" alice_lease)
    empty_db ltac:(vm_compute; reflexivity)) as [o H]. by eapply step_insertWithSecrets.
Qed.

Lemma live_lease_excludes_other_claims_witness :
  exists r, db_paid_operations session_db !! "op" = Some r /\
  forall out d', claimSessionByLiveStreamId ∅ "stream" "bob" 99 (DateMs 200) session_db = Ok (out, d') ->
    (op_id <$> out) <> Some "op" /\ db_paid_operations d' !! "op" = Some r.
Proof.
  destruct (db_paid_operations session_db !! "op") as [r|] eqn:Hr.
  2: { exfalso. vm_compute in Hr. discriminate Hr. }
  exists r. split; [reflexivity|]. intros out d' H.
  apply (proj2 (live_lease_excludes_other_claims session_db "op" r "alice" 100 session_db_wf Hr
    ltac:(vm_compute in Hr; injection Hr as <-; reflexivity)) ∅ "stream" "bob" 99 (DateMs 200)).
  - discriminate.
  - reflexivity.
  - exact H.
Defined.

Lemma recovery_sweep_spec_witness :
  exists out d', claimRecoverable ∅ session "bob" 150 (DateMs 200) 10 session_db = Ok (out, d') /\
  length out = 1%nat /\ Z.of_nat (length out) <= 10.
Proof.
  destruct (claimRecoverable ∅ session "bob" 150 (DateMs 200) 10 session_db) as [[out d']|e] eqn:H.
  - exists out, d'. split_and!; [reflexivity| |].
    + vm_compute in H. injection H as <- <-. reflexivity.
    + eapply (recovery_sweep_spec ∅ session "bob" 150 (DateMs 200) 10 session_db out d').
      * apply session_db_wf.
      * exact H.
  - exfalso. vm_compute in H. discriminate H.
Defined.

Lemma insert_reads_back_witness :
  byId "op" (run (insert sample_session) empty_db) =
    Some (inserted_operation 0 sample_session None None).
Proof.
  destruct (insert sample_session empty_db) as [[o d']|e] eqn:H.
  - unfold run. rewrite H. apply (insert_reads_back sample_session empty_db o d' H).
  - exfalso. vm_compute in H. discriminate H.
Defined.

Lemma inserted_secrets_read_back_witness :
  exists o, op_id o = "op" /\
  readSecrets (op_id o) (mkClaim "alice" (op_lifecycleVersion o) (DateMs 100)) session_db
    = Ok (Some sample_secrets, session_db).
Proof.
  destruct (insertWithSecrets tt sample_session sample_secrets "alice" (DateMs 100) empty_db)
    as [[o d']|e] eqn:H.
  - exists o. unfold session_db, run, alice_lease. rewrite H. split.
    + vm_compute in H. injection H as <- <-. reflexivity.
    + apply (inserted_secrets_read_back tt sample_session sample_secrets "alice" 100 empty_db o d' H).
      reflexivity.
  - exfalso. vm_compute in H. discriminate H.
Defined.

Lemma put_secrets_read_back_witness :
  readSecrets "job" (alice "1") (run (putSecrets tt "job" (alice "1") sample_secrets) job_db)
    = Ok (Some sample_secrets, run (putSecrets tt "job" (alice "1") sample_secrets) job_db).
Proof.
  destruct (putSecrets tt "job" (alice "1") sample_secrets job_db) as [[[] d']|e] eqn:H.
  - unfold run. rewrite H. apply (put_secrets_read_back tt "job" (alice "1") sample_secrets job_db d' H).
  - exfalso. vm_compute in H. discriminate H.
  - exfalso. vm_compute in H. discriminate H.
Defined.

Lemma live_settlement_is_atomic_witness :
  exists s, db_live_streams settled_db !! "stream" = Some s /\ ls_status s = "ended".
Proof.
  destruct (recordLiveTerminal "op" (alice "1") sample_live_terminal session_db)
    as [[[] d']|e] eqn:H.
  - pose proof (live_settlement_is_atomic "op" (alice "1") sample_live_terminal session_db true d'
      session_db_wf H) as (r & r' & l & s & _ & _ & _ & _ & _ & _ & _ & _ & _ & _ & _ & _ & _ & Hs & _).
    unfold settled_db, run. rewrite H, Hs. eexists. split; [apply lookup_insert_eq|reflexivity].
  - exfalso. vm_compute in H. discriminate H.
  - exfalso. vm_compute in H. discriminate H.
Defined.

Lemma vod_settlement_is_atomic_witness :
  exists k p, db_playback_ids (run (recordVodTerminal "job" (alice "1") sample_vod_terminal) job_db) !! k
    = Some p /\ pb_assetId p = Some "asset".
Proof.
  destruct (recordVodTerminal "job" (alice "1") sample_vod_terminal job_db) as [[[] d']|e] eqn:H.
  - pose proof (vod_settlement_is_atomic "job" (alice "1") sample_vod_terminal job_db true d'
      job_db_wf H) as (r & r' & l & a & ej & _ & _ & _ & _ & _ & _ & _ & _ & _ & _ & _ & _ & _ & _ & _ & _
      & _ & _ & _ & Hp & _).
    unfold run. rewrite H. exact Hp.
  - exfalso. vm_compute in H. discriminate H.
  - exfalso. vm_compute in H. discriminate H.
Defined.

Lemma latest_session_of_stream_witness :
  match byLiveStreamId "stream" session_db with
  | Some o => byId (op_id o) session_db = Some o
  | None => False
  end.
Proof.
  pose proof (latest_session_of_stream "stream" session_db session_db_wf) as H.
  destruct (byLiveStreamId "stream" session_db) as [o|] eqn:E.
  - apply H.
  - exfalso. vm_compute in E. discriminate E.
Defined.
