(* ===== verification/MediaRepos.v ===== *)
(** * The media repositories (repo/assets.ts, liveStreams.ts, playbackIds.ts, uploads.ts,
      renditions.ts, encodingJobs.ts)

    Plain tables next to the paid operations.  An update of a row that does not
    exist changes nothing and reports nothing, as in the sources. *)

From S2P Require Import Prelude Js Types Database OperationRepo Samples OperationLease.
Open Scope Z_scope.

(** UPDATE ... WHERE id = $1 *)
Definition update_by_id {A} (id : string) (f : A -> A) (t : gmap string A) : gmap string A :=
  match t !! id with Some a => <[id := f a]> t | None => t end.

(** [if (fields?.x !== undefined) map[col] = fields.x] *)
Definition set_field {A} (new : option A) (old : option A) : option A := or_else new old.

(** ** Live streams *)
Module LiveStreams.

Record fields := mkFields {
  f_sessionId : option string;
  f_workerId : option string;
  f_workerUrl : option string;
  f_selectedCapability : option string;
  f_selectedOffering : option string;
  f_selectedWorkUnit : option string;
  f_selectedPricePerWorkUnitWei : option string;
  f_lastSeenAt : option Z;
  f_endedAt : option Z
}.
Definition no_fields : fields := mkFields None None None None None None None None None.

Definition insert (stream : LiveStream) : tx LiveStream := fun d =>
  let row := stream <| ls_createdAt := db_now d |> in
  if is_present (db_live_streams d !! ls_id stream) || negb (bool_decide (ls_apiKeyId stream ∈ db_api_keys d)) ||
     negb (bool_decide (rows_where (fun s => ls_streamKeyHash s ==? ls_streamKeyHash stream)
                          (db_live_streams d) = []))
  then Err pg_error
  else Ok (row, d <| db_live_streams := <[ls_id stream := row]> (db_live_streams d) |>).

Definition listForApiKey (apiKeyId : string) (d : db) : list LiveStream :=
  take 100 (order_desc ls_createdAt (rows_where (fun s => ls_apiKeyId s ==? apiKeyId) (db_live_streams d))).
Definition byId (id : string) (d : db) : option LiveStream := db_live_streams d !! id.
Definition byStreamKeyHash (hash : string) (d : db) : option LiveStream :=
  head (rows_where (fun s => ls_streamKeyHash s ==? hash) (db_live_streams d)).

Definition updateStatus (id status : string) (f : fields) : tx unit := fun d =>
  Ok (tt, d <| db_live_streams := update_by_id id (fun s => s
      <| ls_status := status |>
      <| ls_sessionId := set_field (f_sessionId f) (ls_sessionId s) |>
      <| ls_workerId := set_field (f_workerId f) (ls_workerId s) |>
      <| ls_workerUrl := set_field (f_workerUrl f) (ls_workerUrl s) |>
      <| ls_selectedCapability := set_field (f_selectedCapability f) (ls_selectedCapability s) |>
      <| ls_selectedOffering := set_field (f_selectedOffering f) (ls_selectedOffering s) |>
      <| ls_selectedWorkUnit := set_field (f_selectedWorkUnit f) (ls_selectedWorkUnit s) |>
      <| ls_selectedPricePerWorkUnitWei :=
           set_field (f_selectedPricePerWorkUnitWei f) (ls_selectedPricePerWorkUnitWei s) |>
      <| ls_lastSeenAt := set_field (f_lastSeenAt f) (ls_lastSeenAt s) |>
      <| ls_endedAt := set_field (f_endedAt f) (ls_endedAt s) |>) (db_live_streams d) |>).

Definition is_active (s : LiveStream) : bool := (ls_status s ==? "active") || (ls_status s ==? "reconnecting").
Definition active (d : db) : list LiveStream :=
  order_desc ls_createdAt (rows_where is_active (db_live_streams d)).

Definition stale (cutoff : Z) (s : LiveStream) : bool :=
  is_active s && match ls_lastSeenAt s with Some t => t <? cutoff | None => false end.
Definition sweepStale (cutoff : Z) : tx (list LiveStream) := fun d =>
  let swept s := s <| ls_status := "ended" |> <| ls_endedAt := Some (db_now d) |> in
  Ok (swept <$> rows_where (stale cutoff) (db_live_streams d),
      d <| db_live_streams := (fun s => if stale cutoff s then swept s else s) <$> db_live_streams d |>).
End LiveStreams.

(** ** Playback ids *)
Module PlaybackIds.
Definition insert (pb : PlaybackId) : tx PlaybackId := fun d =>
  let row := mkPlaybackId (pb_id pb) (pb_apiKeyId pb) (pb_assetId pb) (pb_liveStreamId pb)
               (pb_policy pb) (pb_tokenRequired pb) (db_now d) in
  if is_present (db_playback_ids d !! pb_id pb) || negb (bool_decide (pb_apiKeyId pb ∈ db_api_keys d)) ||
     Bool.eqb (is_present (pb_assetId pb)) (is_present (pb_liveStreamId pb)) ||
     match pb_assetId pb with Some a => negb (is_present (db_assets d !! a)) | None => false end ||
     match pb_liveStreamId pb with Some s => negb (is_present (db_live_streams d !! s)) | None => false end
  then Err pg_error
  else Ok (row, d <| db_playback_ids := <[pb_id pb := row]> (db_playback_ids d) |>).

Definition byId (id : string) (d : db) : option PlaybackId := db_playback_ids d !! id.
Definition byAsset (assetId : string) (d : db) : list PlaybackId :=
  order_asc pb_createdAt (rows_where (fun p => pb_assetId p ==? Some assetId) (db_playback_ids d)).
Definition byLiveStream (liveStreamId : string) (d : db) : list PlaybackId :=
  order_asc pb_createdAt (rows_where (fun p => pb_liveStreamId p ==? Some liveStreamId) (db_playback_ids d)).
Definition delete (id : string) : tx unit := fun d =>
  Ok (tt, d <| db_playback_ids := base.delete id (db_playback_ids d) |>).
End PlaybackIds.

(** ** Assets *)
Module Assets.

(** The optional fields of [updateStatus]; the interface's [Partial<Asset>] has more,
    which the repository does not read. *)
Record fields := mkFields {
  f_durationSec : option jsnum;
  f_width : option Z;
  f_height : option Z;
  f_frameRate : option jsnum;
  f_audioCodec : option string;
  f_videoCodec : option string;
  f_ffprobeJson : option json;
  f_errorMessage : option string;
  f_readyAt : option Z;
  f_sourceUrl : option string;
  f_encodingTier : option string;
  f_selectedOffering : option string
}.
Definition no_fields : fields := mkFields None None None None None None None None None None None None.

Definition insert (asset : Asset) : tx Asset := fun d =>
  let row := asset <| as_createdAt := db_now d |> in
  if is_present (db_assets d !! as_id asset) || negb (bool_decide (as_apiKeyId asset ∈ db_api_keys d))
  then Err pg_error
  else Ok (row, d <| db_assets := <[as_id asset := row]> (db_assets d) |>).

Definition byId (id : string) (d : db) : option Asset := db_assets d !! id.
Definition byPlaybackId (playbackId : string) (d : db) : option Asset :=
  match db_playback_ids d !! playbackId with
  | Some p => match pb_assetId p with Some a => db_assets d !! a | None => None end
  | None => None
  end.

Definition updateStatus (id status : string) (f : fields) : tx unit := fun d =>
  Ok (tt, d <| db_assets := update_by_id id (fun a => a
      <| as_status := status |>
      <| as_durationSec := set_field (f_durationSec f) (as_durationSec a) |>
      <| as_width := set_field (f_width f) (as_width a) |>
      <| as_height := set_field (f_height f) (as_height a) |>
      <| as_frameRate := set_field (f_frameRate f) (as_frameRate a) |>
      <| as_audioCodec := set_field (f_audioCodec f) (as_audioCodec a) |>
      <| as_videoCodec := set_field (f_videoCodec f) (as_videoCodec a) |>
      <| as_ffprobeJson := set_field (f_ffprobeJson f) (as_ffprobeJson a) |>
      <| as_errorMessage := set_field (f_errorMessage f) (as_errorMessage a) |>
      <| as_readyAt := set_field (f_readyAt f) (as_readyAt a) |>) (db_assets d) |>).

Definition softDelete (id : string) (at_ : Z) : tx unit := fun d =>
  Ok (tt, d <| db_assets := update_by_id id (fun a => a
      <| as_deletedAt := Some at_ |> <| as_status := "deleted" |>) (db_assets d) |>).

(** ORDER BY created_at DESC, id DESC: [str_le] is the order of the text column. *)
Definition str_le (a b : string) : bool := String.leb a b.
Definition newer (a b : Asset) : Prop :=
  as_createdAt b < as_createdAt a \/ (as_createdAt a = as_createdAt b /\ str_le (as_id b) (as_id a) = true).
#[export] Instance newer_dec : RelDecision newer.
Proof. intros a b. unfold newer. apply _. Defined.

Record page := mkPage { p_items : list Asset; p_nextCursor : option string }.

Definition list_ (apiKeyId : string) (includeDeleted : bool) (cursor : option string) (limit : nat)
    (d : db) : page :=
  let before a := match cursor with
                  | Some c => if nonempty c
                              then match db_assets d !! c with
                                   | Some x => as_createdAt a <? as_createdAt x
                                   | None => false
                                   end
                              else true
                  | None => true
                  end in
  let rows := take (S limit) (merge_sort newer (rows_where (fun a =>
      (as_apiKeyId a ==? apiKeyId) &&
      (includeDeleted || negb (is_present (as_deletedAt a))) && before a) (db_assets d))) in
  mkPage (take limit rows)
    (if Nat.ltb limit (length rows) then as_id <$> (rows !! (limit - 1)%nat) else None).

Definition recent (limit : nat) (d : db) : list Asset :=
  take limit (order_desc as_createdAt (rows_where (fun a => negb (is_present (as_deletedAt a))) (db_assets d))).
End Assets.

(** ** Uploads *)
Module Uploads.
Definition insert (u : Upload) : tx Upload := fun d =>
  let row := u <| up_createdAt := db_now d |> in
  if is_present (db_uploads d !! up_id u) || negb (bool_decide (up_apiKeyId u ∈ db_api_keys d)) ||
     match up_assetId u with Some a => negb (is_present (db_assets d !! a)) | None => false end
  then Err pg_error
  else Ok (row, d <| db_uploads := <[up_id u := row]> (db_uploads d) |>).
Definition byId (id : string) (d : db) : option Upload := db_uploads d !! id.
Definition updateStatus (id status : string) (assetId : option string) (completedAt : option Z) : tx unit := fun d =>
  match assetId with
  | Some a =>
      if is_present (db_uploads d !! id) && negb (is_present (db_assets d !! a)) then Err pg_error
      else Ok (tt, d <| db_uploads := update_by_id id (fun u => u <| up_status := status |>
             <| up_assetId := Some a |> <| up_completedAt := set_field completedAt (up_completedAt u) |>)
             (db_uploads d) |>)
  | None =>
      Ok (tt, d <| db_uploads := update_by_id id (fun u => u <| up_status := status |>
             <| up_completedAt := set_field completedAt (up_completedAt u) |>) (db_uploads d) |>)
  end.
Definition expired (now : Z) (u : Upload) : bool :=
  (up_expiresAt u <? now) && ((up_status u ==? "waiting") || (up_status u ==? "uploading")).
Definition sweepExpired (now : Z) : tx (list Upload) := fun d =>
  let swept u := u <| up_status := "expired" |> in
  Ok (swept <$> rows_where (expired now) (db_uploads d),
      d <| db_uploads := (fun u => if expired now u then swept u else u) <$> db_uploads d |>).
End Uploads.

(** ** Renditions *)
Module Renditions.
(** The unique key of the table. *)
Definition same_output (a b : Rendition) : bool :=
  (rend_assetId a ==? rend_assetId b) && (rend_resolution a ==? rend_resolution b) && (rend_codec a ==? rend_codec b).
Definition insert (r : Rendition) : tx Rendition := fun d =>
  let row := r <| rend_createdAt := db_now d |> in
  if is_present (db_renditions d !! rend_id r) || negb (is_present (db_assets d !! rend_assetId r)) ||
     negb (bool_decide (rows_where (same_output r) (db_renditions d) = []))
  then Err pg_error
  else Ok (row, d <| db_renditions := <[rend_id r := row]> (db_renditions d) |>).
Definition byAsset (assetId : string) (d : db) : list Rendition :=
  order_asc rend_createdAt (rows_where (fun r => rend_assetId r ==? assetId) (db_renditions d)).
Definition updateStatus (id status : string) (storageKey : option string) (durationSec : option jsnum)
    (completedAt : option Z) : tx unit := fun d =>
  Ok (tt, d <| db_renditions := update_by_id id (fun r => r
      <| rend_status := status |>
      <| rend_storageKey := set_field storageKey (rend_storageKey r) |>
      <| rend_durationSec := set_field durationSec (rend_durationSec r) |>
      <| rend_completedAt := set_field completedAt (rend_completedAt r) |>) (db_renditions d) |>).
End Renditions.

(** ** Encoding jobs *)
Module EncodingJobs.
Record fields := mkFields {
  f_workerUrl : option string;
  f_outputPrefix : option string;
  f_errorMessage : option string;
  f_startedAt : option Z;
  f_completedAt : option Z
}.
Definition no_fields : fields := mkFields None None None None None.
Definition insert (j : EncodingJob) : tx EncodingJob := fun d =>
  let row := j <| ej_createdAt := db_now d |> in
  if is_present (db_encoding_jobs d !! ej_id j) || negb (is_present (db_assets d !! ej_assetId j)) ||
     match ej_renditionId j with Some r => negb (is_present (db_renditions d !! r)) | None => false end
  then Err pg_error
  else Ok (row, d <| db_encoding_jobs := <[ej_id j := row]> (db_encoding_jobs d) |>).
Definition byId (id : string) (d : db) : option EncodingJob := db_encoding_jobs d !! id.
Definition byAsset (assetId : string) (d : db) : list EncodingJob :=
  order_asc ej_createdAt (rows_where (fun j => ej_assetId j ==? assetId) (db_encoding_jobs d)).
Definition queued (assetId : string) (kinds : list string) (d : db) : list EncodingJob :=
  order_asc ej_createdAt (rows_where (fun j => (ej_assetId j ==? assetId) && (ej_status j ==? "queued") &&
    bool_decide (ej_kind j ∈ kinds)) (db_encoding_jobs d)).
Definition updateStatus (id status : string) (f : fields) : tx unit := fun d =>
  Ok (tt, d <| db_encoding_jobs := update_by_id id (fun j => j
      <| ej_status := status |>
      <| ej_workerUrl := set_field (f_workerUrl f) (ej_workerUrl j) |>
      <| ej_outputPrefix := set_field (f_outputPrefix f) (ej_outputPrefix j) |>
      <| ej_errorMessage := set_field (f_errorMessage f) (ej_errorMessage j) |>
      <| ej_startedAt := set_field (f_startedAt f) (ej_startedAt j) |>
      <| ej_completedAt := set_field (f_completedAt f) (ej_completedAt j) |>) (db_encoding_jobs d) |>).
Definition incrementAttempt (id : string) : tx unit := fun d =>
  match db_encoding_jobs d !! id with
  | Some j => if ej_attemptCount j + 1 <=? INT4_MAX
              then Ok (tt, d <| db_encoding_jobs :=
                     <[id := j <| ej_attemptCount := ej_attemptCount j + 1 |>]> (db_encoding_jobs d) |>)
              else Err pg_error
  | None => Ok (tt, d)
  end.
End EncodingJobs.

(** ** Properties *)

(** The media repositories never touch the paid operations or their secrets. *)
Definition media_only {A} (t : tx A) : Prop :=
  forall d a d', t d = Ok (a, d') -> same_operations d d' /\ db_now d' = db_now d.

Lemma liveStreams_updateStatus_media id st f : media_only (LiveStreams.updateStatus id st f).
Proof. intros d a d' [= _ <-]. done. Qed.
Lemma liveStreams_insert_media s : media_only (LiveStreams.insert s).
Proof. intros d a d'. unfold LiveStreams.insert. case_match; [done|]. by intros [= _ <-]. Qed.
Lemma playbackIds_insert_media p : media_only (PlaybackIds.insert p).
Proof. intros d a d'. unfold PlaybackIds.insert. case_match; [done|]. by intros [= _ <-]. Qed.
Lemma assets_updateStatus_media id st f : media_only (Assets.updateStatus id st f).
Proof. intros d a d' [= _ <-]. done. Qed.
Lemma renditions_updateStatus_media id st k du c : media_only (Renditions.updateStatus id st k du c).
Proof. intros d a d' [= _ <-]. done. Qed.
Lemma encodingJobs_updateStatus_media id st f : media_only (EncodingJobs.updateStatus id st f).
Proof. intros d a d' [= _ <-]. done. Qed.
Lemma encodingJobs_insert_media j : media_only (EncodingJobs.insert j).
Proof. intros d a d'. unfold EncodingJobs.insert. case_match; [done|]. by intros [= _ <-]. Qed.
Lemma renditions_insert_media r : media_only (Renditions.insert r).
Proof. intros d a d'. unfold Renditions.insert. case_match; [done|]. by intros [= _ <-]. Qed.
Lemma encodingJobs_incrementAttempt_media id : media_only (EncodingJobs.incrementAttempt id).
Proof. intros d a d'. unfold EncodingJobs.incrementAttempt. repeat case_match; try done; by intros [= _ <-]. Qed.
#[export] Hint Resolve liveStreams_updateStatus_media liveStreams_insert_media playbackIds_insert_media
  assets_updateStatus_media renditions_updateStatus_media encodingJobs_updateStatus_media encodingJobs_insert_media
  renditions_insert_media encodingJobs_incrementAttempt_media : gateway.

(** Updating an asset's status cannot set its source: whatever fields the caller
    passes, the stored source URL, encoding tier and selected offering stay as they
    were, so an asset created before its upload keeps no source after it. *)
Lemma asset_update_never_sets_source id status f d d' a a' :
  Assets.updateStatus id status f d = Ok (tt, d') ->
  Assets.byId id d = Some a -> Assets.byId id d' = Some a' ->
  as_status a' = status /\ as_sourceUrl a' = as_sourceUrl a /\ as_encodingTier a' = as_encodingTier a /\
  as_selectedOffering a' = as_selectedOffering a.
Proof.
  intros [= <-] Ha. unfold Assets.byId, update_by_id in *. cbn. rewrite Ha, lookup_insert_eq.
  by intros [= <-].
Qed.

Lemma asset_update_never_sets_source_witness :
  exists d' a', Assets.updateStatus "asset" "queued"
      (Assets.mkFields None None None None None None None None None (Some "s3://src") None None) empty_db = Ok (tt, d') /\
    Assets.byId "asset" d' = Some a' /\ as_sourceUrl a' = None.
Proof.
  eexists _, _. split_and!; [reflexivity|vm_compute; reflexivity|].
  eapply (asset_update_never_sets_source "asset" "queued"
    (Assets.mkFields None None None None None None None None None (Some "s3://src") None None) empty_db
    _ sample_asset _ eq_refl eq_refl ltac:(vm_compute; reflexivity)).
Defined.

(** Three assets of one key, two of them created in the same instant. *)
Definition tied_assets : db :=
  empty_db <| db_assets :=
    {[ "a1" := sample_asset <| as_id := "a1" |> <| as_createdAt := 10 |>;
       "a2" := sample_asset <| as_id := "a2" |> <| as_createdAt := 10 |>;
       "a3" := sample_asset <| as_id := "a3" |> <| as_createdAt := 5 |> ]} |>.

(** Following the cursors of the asset list can skip an asset: with two assets of
    the same creation time on a page boundary, the pages reached from the first one
    never contain the second. *)
Lemma asset_pages_skip_ties :
  exists d first second third,
    Assets.list_ "key" false None 1 d = first /\
    Assets.list_ "key" false (Assets.p_nextCursor first) 1 d = second /\
    Assets.list_ "key" false (Assets.p_nextCursor second) 1 d = third /\
    as_id <$> Assets.p_items first = ["a2"] /\ as_id <$> Assets.p_items second = ["a3"] /\
    Assets.p_nextCursor second = None /\
    is_present (Assets.byId "a1" d) = true.
Proof.
  exists tied_assets. eexists _, _, _. split_and!; try reflexivity.
Qed.
