(* ===== verification/Schema.v ===== *)
(** * The media schema (db/schema.ts)

    What the keys, references and unique columns of the tables say, as a property of the
    state, and that every statement of the repositories keeps it: what a statement checks
    when it writes a row is enough, because no statement removes a row that another one
    refers to. *)

From S2P Require Import Prelude Js Types Database OperationRepo Samples OperationLease MediaRepos.
Open Scope Z_scope.

(** ** The tables *)

(** A nullable column that references a table. *)
Definition refers {A} (t : gmap string A) (o : option string) : Prop :=
  match o with Some k => is_Some (t !! k) | None => True end.
#[export] Instance refers_dec {A} (t : gmap string A) o : Decision (refers t o).
Proof. destruct o; cbn; apply _. Defined.

Definition assets (d : db) (k : string) (a : Asset) : Prop := as_id a = k /\ as_apiKeyId a ∈ db_api_keys d.
Definition uploads (d : db) (k : string) (u : Upload) : Prop :=
  up_id u = k /\ up_apiKeyId u ∈ db_api_keys d /\ refers (db_assets d) (up_assetId u).
Definition renditions (d : db) (k : string) (r : Rendition) : Prop :=
  rend_id r = k /\ refers (db_assets d) (Some (rend_assetId r)).
Definition encodingJobs (d : db) (k : string) (j : EncodingJob) : Prop :=
  ej_id j = k /\ refers (db_assets d) (Some (ej_assetId j)) /\ refers (db_renditions d) (ej_renditionId j).
Definition liveStreams (d : db) (k : string) (s : LiveStream) : Prop := ls_id s = k /\ ls_apiKeyId s ∈ db_api_keys d.
Definition paidOperations (d : db) (k : string) (r : Row) : Prop :=
  row_id r = k /\ row_api_key_id r ∈ db_api_keys d /\ refers (db_assets d) (row_asset_id r) /\
  refers (db_live_streams d) (row_live_stream_id r).
Definition paidOperationSecrets (d : db) (k : string) (_ : EncryptedOperationSecrets) : Prop :=
  refers (db_paid_operations d) (Some k).
Definition playbackIds (d : db) (k : string) (p : PlaybackId) : Prop :=
  pb_id p = k /\ pb_apiKeyId p ∈ db_api_keys d /\ refers (db_assets d) (pb_assetId p) /\
  refers (db_live_streams d) (pb_liveStreamId p) /\ is_present (pb_assetId p) <> is_present (pb_liveStreamId p).

(** A unique column, or several. *)
Definition unique_by {A B} (g : A -> B) (t : gmap string A) : Prop :=
  forall k k' a a', t !! k = Some a -> t !! k' = Some a' -> g a = g a' -> k = k'.
Definition output_of (r : Rendition) : string * string * string := (rend_assetId r, rend_resolution r, rend_codec r).

Record references (d : db) : Prop := mkReferences {
  ref_assets : map_Forall (assets d) (db_assets d);
  ref_uploads : map_Forall (uploads d) (db_uploads d);
  ref_renditions : map_Forall (renditions d) (db_renditions d);
  ref_encodingJobs : map_Forall (encodingJobs d) (db_encoding_jobs d);
  ref_liveStreams : map_Forall (liveStreams d) (db_live_streams d);
  ref_paidOperations : map_Forall (paidOperations d) (db_paid_operations d);
  ref_playbackIds : map_Forall (playbackIds d) (db_playback_ids d);
  unique_hashes : unique_by ls_streamKeyHash (db_live_streams d);
  unique_outputs : unique_by output_of (db_renditions d)
}.

(** ** Writing one table *)

Definition covers {A} (t t' : gmap string A) : Prop := forall k, is_Some (t !! k) -> is_Some (t' !! k).
Lemma refers_covers {A} (t t' : gmap string A) o : covers t t' -> refers t o -> refers t' o.
Proof. destruct o; [|done]. intros H. apply H. Qed.
Lemma covers_insert {A} (t : gmap string A) k a : covers t (<[k := a]> t).
Proof. intros i Hi. destruct (decide (i = k)) as [->|]; [rewrite lookup_insert_eq; by eexists|by rewrite lookup_insert_ne]. Qed.
Lemma covers_update {A} (t : gmap string A) k f : covers t (update_by_id k f t).
Proof. unfold update_by_id. destruct (t !! k); [apply covers_insert|by intros i]. Qed.
Lemma covers_fmap {A} (t : gmap string A) (f : A -> A) : covers t (f <$> t).
Proof. intros i [a Ha]. rewrite lookup_fmap, Ha. by eexists. Qed.
Create HintDb schema.
#[export] Hint Resolve covers_insert covers_update covers_fmap refers_covers : schema.

Lemma unique_from {A B} (g : A -> B) (t t' : gmap string A) :
  (forall k a', t' !! k = Some a' -> exists a, t !! k = Some a /\ g a' = g a) -> unique_by g t -> unique_by g t'.
Proof.
  intros H Hu k k' a a' Ha Ha' Hg. destruct (H _ _ Ha) as (b & Hb & E). destruct (H _ _ Ha') as (b' & Hb' & E').
  apply (Hu _ _ b b'); congruence.
Qed.
Lemma unique_insert {A B} (g : A -> B) (t : gmap string A) k a :
  (forall k' a', t !! k' = Some a' -> g a' <> g a) -> unique_by g t -> unique_by g (<[k := a]> t).
Proof.
  intros Hn Hu i i' x x'. destruct (decide (i = k)) as [->|]; destruct (decide (i' = k)) as [->|];
    rewrite ?lookup_insert_eq, ?lookup_insert_ne by congruence; [done|..].
  - intros [= <-] H E. by destruct (Hn _ _ H).
  - intros H [= <-] E. by destruct (Hn _ _ H).
  - apply Hu.
Qed.
Lemma unique_replace {A B} (g : A -> B) (t : gmap string A) k a a' :
  t !! k = Some a -> g a' = g a -> unique_by g t -> unique_by g (<[k := a']> t).
Proof.
  intros Ha Hg. apply unique_from. intros i x. destruct (decide (i = k)) as [->|].
  - rewrite lookup_insert_eq. intros [= <-]. by exists a.
  - rewrite lookup_insert_ne by congruence. by exists x.
Qed.
Lemma unique_update {A B} (g : A -> B) (t : gmap string A) k f :
  (forall a, g (f a) = g a) -> unique_by g t -> unique_by g (update_by_id k f t).
Proof. intros Hg. unfold update_by_id. destruct (t !! k) as [a|] eqn:E; [|done]. by apply (unique_replace g t k a). Qed.
Lemma unique_fmap {A B} (g : A -> B) (t : gmap string A) f : (forall a, g (f a) = g a) -> unique_by g t -> unique_by g (f <$> t).
Proof.
  intros Hg. apply unique_from. intros k a'. rewrite lookup_fmap. destruct (t !! k) as [a|]; [|done].
  intros [= <-]. by exists a.
Qed.
Lemma Forall_update {A} (P : string -> A -> Prop) (t : gmap string A) k f :
  (forall a, P k a -> P k (f a)) -> map_Forall P t -> map_Forall P (update_by_id k f t).
Proof.
  intros Hf Ht. unfold update_by_id. destruct (t !! k) as [a|] eqn:E; [|done]. apply map_Forall_insert_2; [|done].
  apply Hf. by apply (Ht k a).
Qed.
Lemma Forall_replace {A} (P : string -> A -> Prop) (t : gmap string A) k a a' :
  t !! k = Some a -> (P k a -> P k a') -> map_Forall P t -> map_Forall P (<[k := a']> t).
Proof. intros Ha Hf Ht. apply map_Forall_insert_2; [|done]. by apply Hf, Ht. Qed.
Lemma Forall_fmap_map {A} (P : string -> A -> Prop) (t : gmap string A) f :
  (forall k a, P k a -> P k (f a)) -> map_Forall P t -> map_Forall P (f <$> t).
Proof. intros Hf Ht k a'. rewrite lookup_fmap. destruct (t !! k) as [a|] eqn:E; [|done]. intros [= <-]. by apply Hf, Ht. Qed.

(** A table may be written when its rows keep their references and no row that others
    may refer to goes. *)
Section write.
Context (d : db) (H : references d).
Ltac carry := eapply map_Forall_impl; [eassumption|]; intros ? ? ?; unfold uploads, renditions, encodingJobs, paidOperations, playbackIds in *;
  cbn; intuition eauto with schema.
Lemma write_assets m : covers (db_assets d) m -> map_Forall (assets d) m -> references (d <| db_assets := m |>).
Proof. intros Hc Hm. destruct H. split; cbn; try done; carry. Qed.
Lemma write_uploads m : map_Forall (uploads d) m -> references (d <| db_uploads := m |>).
Proof. intros Hm. destruct H. by split. Qed.
Lemma write_renditions m : covers (db_renditions d) m -> map_Forall (renditions d) m -> unique_by output_of m ->
  references (d <| db_renditions := m |>).
Proof. intros Hc Hm Hu. destruct H. split; cbn; try done; carry. Qed.
Lemma write_encodingJobs m : map_Forall (encodingJobs d) m -> references (d <| db_encoding_jobs := m |>).
Proof. intros Hm. destruct H. by split. Qed.
Lemma write_liveStreams m : covers (db_live_streams d) m -> map_Forall (liveStreams d) m -> unique_by ls_streamKeyHash m ->
  references (d <| db_live_streams := m |>).
Proof. intros Hc Hm Hu. destruct H. split; cbn; try done; carry. Qed.
Lemma write_paidOperations m : map_Forall (paidOperations d) m -> references (d <| db_paid_operations := m |>).
Proof. intros Hm. destruct H. by split. Qed.
Lemma write_playbackIds m : map_Forall (playbackIds d) m -> references (d <| db_playback_ids := m |>).
Proof. intros Hm. destruct H. by split. Qed.
Lemma write_secrets m : references (d <| db_secrets := m |>).
Proof. destruct H. by split. Qed.
Lemma write_clock t : references (d <| db_now := t |>).
Proof. destruct H. by split. Qed.
End write.

(** ** The statements *)

Section statements.
Context `{Cipher : OperationSecretCipher entropy}.

(** The repositories of repo/, a constructor for each method that writes. *)
Inductive media_statement : forall A, tx A -> Prop :=
| st_asset a : media_statement _ (Assets.insert a)
| st_asset_status id st f : media_statement _ (Assets.updateStatus id st f)
| st_asset_delete id at_ : media_statement _ (Assets.softDelete id at_)
| st_upload u : media_statement _ (Uploads.insert u)
| st_upload_status id st a c : media_statement _ (Uploads.updateStatus id st a c)
| st_upload_sweep now : media_statement _ (Uploads.sweepExpired now)
| st_rendition r : media_statement _ (Renditions.insert r)
| st_rendition_status id st k du c : media_statement _ (Renditions.updateStatus id st k du c)
| st_job j : media_statement _ (EncodingJobs.insert j)
| st_job_status id st f : media_statement _ (EncodingJobs.updateStatus id st f)
| st_job_attempt id : media_statement _ (EncodingJobs.incrementAttempt id)
| st_stream s : media_statement _ (LiveStreams.insert s)
| st_stream_status id st f : media_statement _ (LiveStreams.updateStatus id st f)
| st_stream_sweep cutoff : media_statement _ (LiveStreams.sweepStale cutoff)
| st_playback pb : media_statement _ (PlaybackIds.insert pb)
| st_playback_delete id : media_statement _ (PlaybackIds.delete id).
Inductive operation_statement : forall A, tx A -> Prop :=
| so_insert v : operation_statement _ (insert v)
| so_insertWithSecrets rnd v s owner l : operation_statement _ (insertWithSecrets rnd v s owner l)
| so_claimRecoverable locked kind owner now l limit : operation_statement _ (claimRecoverable locked kind owner now l limit)
| so_claimSession locked stream owner now l : operation_statement _ (claimSessionByLiveStreamId locked stream owner now l)
| so_winddown stream reason : operation_statement _ (requestSessionWinddown stream reason)
| so_renew id claim l : operation_statement _ (renewClaim id claim l)
| so_release id claim : operation_statement _ (releaseClaim id claim)
| so_progress id claim v : operation_statement _ (recordProgress id claim v)
| so_retry id claim v : operation_statement _ (recordRetry id claim v)
| so_terminal id claim v : operation_statement _ (recordTerminal id claim v)
| so_liveTerminal id claim v : operation_statement _ (recordLiveTerminal id claim v)
| so_vodTerminal id claim v : operation_statement _ (recordVodTerminal id claim v)
| so_putSecrets rnd id claim v : operation_statement _ (putSecrets rnd id claim v)
| so_readSecrets id claim : operation_statement _ (readSecrets id claim)
| so_deleteSecrets id claim : operation_statement _ (deleteSecrets id claim).

Definition keeps_references {A} (t : tx A) : Prop := forall d a d', t d = Ok (a, d') -> references d -> references d'.

Ltac passed H := repeat (apply orb_false_elim in H as [H ?]).
Lemma is_present_Some {A} (o : option A) : is_present o = true -> is_Some o.
Proof. destruct o; [by eexists|done]. Qed.
Lemma not_missing {A} (t : gmap string A) o :
  match o with Some k => negb (is_present (t !! k)) | None => false end = false -> refers t o.
Proof. destruct o as [k|]; [|done]. cbn. destruct (t !! k); [by eexists|done]. Qed.
Lemma nothing_where {A} (p : A -> bool) (t : gmap string A) k a :
  negb (bool_decide (rows_where p t = [])) = false -> t !! k = Some a -> p a = false.
Proof.
  intros H Ha. destruct (p a) eqn:E; [|done]. assert (Hin : a ∈ rows_where p t) by (apply elem_of_rows_where; eauto).
  destruct (rows_where p t); [set_solver|done].
Qed.

Lemma key_allowed (k : string) (s : gset string) : negb (bool_decide (k ∈ s)) = false -> k ∈ s.
Proof. intros H. by bools. Qed.

Lemma asset_keeps a : keeps_references (Assets.insert a).
Proof.
  intros d x d' E Hd. pose proof Hd as []. unfold Assets.insert in E. destruct (_ || _) eqn:H; [done|]. injection E as <- <-.
  passed H. apply write_assets; auto with schema. apply map_Forall_insert_2; [|done]. split; [done|by apply key_allowed].
Qed.
Lemma upload_keeps u : keeps_references (Uploads.insert u).
Proof.
  intros d x d' E Hd. pose proof Hd as []. unfold Uploads.insert in E. destruct (_ || _) eqn:H; [done|]. injection E as <- <-.
  passed H. apply write_uploads; [done|]. apply map_Forall_insert_2; [|done].
  split_and!; [done|by apply key_allowed|by apply not_missing].
Qed.
Lemma upload_status_keeps id st a c : keeps_references (Uploads.updateStatus id st a c).
Proof.
  intros d x d' E Hd. pose proof Hd as []. unfold Uploads.updateStatus in E. destruct a as [a|].
  - destruct (is_present (db_uploads d !! id)) eqn:Hu; cbn [andb] in E.
    + destruct (is_present (db_assets d !! a)) eqn:Ha; [|done]. injection E as <- <-. apply write_uploads; [done|].
      apply Forall_update; [|done]. intros u (H1 & H2 & _). split_and!; [done..|]. by apply is_present_Some.
    + injection E as <- <-. apply write_uploads; [done|]. unfold update_by_id. by destruct (db_uploads d !! id).
  - injection E as <- <-. apply write_uploads; [done|]. by apply Forall_update.
Qed.
Lemma rendition_keeps r : keeps_references (Renditions.insert r).
Proof.
  intros d x d' E Hd. pose proof Hd as []. unfold Renditions.insert in E. destruct (_ || _) eqn:H; [done|]. injection E as <- <-.
  passed H. apply write_renditions; auto with schema.
  - apply map_Forall_insert_2; [|done]. split; [done|]. by apply (not_missing _ (Some (rend_assetId r))).
  - apply unique_insert; [|done]. intros k a Ha Hg. injection Hg as G1 G2 G3.
    assert (Hn : Renditions.same_output r a = false) by (by eapply nothing_where).
    unfold Renditions.same_output in Hn. rewrite G1, G2, G3, !bool_decide_true in Hn by done. done.
Qed.
Lemma job_keeps j : keeps_references (EncodingJobs.insert j).
Proof.
  intros d x d' E Hd. pose proof Hd as []. unfold EncodingJobs.insert in E. destruct (_ || _) eqn:H; [done|]. injection E as <- <-.
  passed H. apply write_encodingJobs; [done|]. apply map_Forall_insert_2; [|done].
  split_and!; [done|by apply (not_missing _ (Some (ej_assetId j)))|by apply not_missing].
Qed.
Lemma attempt_keeps id : keeps_references (EncodingJobs.incrementAttempt id).
Proof.
  intros d x d' E Hd. pose proof Hd as []. unfold EncodingJobs.incrementAttempt in E.
  destruct (db_encoding_jobs d !! id) as [j|] eqn:Hj; [|by injection E as <- <-]. destruct (_ <=? _); [|done].
  injection E as <- <-. apply write_encodingJobs; [done|]. by apply (Forall_replace _ _ id j).
Qed.
Lemma stream_keeps s : keeps_references (LiveStreams.insert s).
Proof.
  intros d x d' E Hd. pose proof Hd as []. unfold LiveStreams.insert in E. destruct (_ || _) eqn:H; [done|]. injection E as <- <-.
  passed H. apply write_liveStreams; auto with schema.
  - apply map_Forall_insert_2; [|done]. split; [done|by apply key_allowed].
  - apply unique_insert; [|done]. intros k a Ha Hg.
    pose proof (nothing_where _ _ _ _ H0 Ha) as Hn. cbv beta in Hn. by apply bool_decide_eq_false in Hn.
Qed.
Lemma playback_keeps pb : keeps_references (PlaybackIds.insert pb).
Proof.
  intros d x d' E Hd. pose proof Hd as []. unfold PlaybackIds.insert in E. destruct (_ || _) eqn:H; [done|]. injection E as <- <-.
  passed H. apply write_playbackIds; [done|]. apply map_Forall_insert_2; [|done].
  split_and!; [done|by apply key_allowed|by apply not_missing..|]. cbn. intros Hp. by rewrite Hp, eqb_reflx in *.
Qed.

Lemma media_keeps A (t : tx A) : media_statement A t -> keeps_references t.
Proof.
  intros [a|id st f|id at_|u|id st a c|now|r|id st k du c|j|id st f|id|s|id st f|cutoff|pb|id].
  1: apply asset_keeps. 3: apply upload_keeps. 3: apply upload_status_keeps. 4: apply rendition_keeps. 5: apply job_keeps.
  6: apply attempt_keeps. 6: apply stream_keeps. 8: apply playback_keeps.
  all: intros d x d' E Hd; pose proof Hd as []; injection E as <- <-.
  - apply write_assets; auto with schema. by apply Forall_update.
  - apply write_assets; auto with schema. by apply Forall_update.
  - apply write_uploads; [done|]. apply Forall_fmap_map; [|done]. intros k u Hu. by destruct (Uploads.expired now u).
  - apply write_renditions; auto with schema; [by apply Forall_update|by apply unique_update].
  - apply write_encodingJobs; [done|]. by apply Forall_update.
  - apply write_liveStreams; auto with schema; [by apply Forall_update|by apply unique_update].
  - apply write_liveStreams; auto with schema.
    + apply Forall_fmap_map; [|done]. intros k s Hs. by destruct (LiveStreams.stale cutoff s).
    + apply unique_fmap; [|done]. intros s. by destruct (LiveStreams.stale cutoff s).
  - apply write_playbackIds; [done|]. by apply map_Forall_delete.
Qed.

(** *** Operations *)

Definition same_refs (r r' : Row) : Prop :=
  row_id r' = row_id r /\ row_api_key_id r' = row_api_key_id r /\ row_asset_id r' = row_asset_id r /\
  row_live_stream_id r' = row_live_stream_id r.
Lemma same_refs_row d k r r' : same_refs r r' -> paidOperations d k r -> paidOperations d (row_id r') r'.
Proof. intros (H1 & H2 & H3 & H4) (<- & H). unfold paidOperations. rewrite H2, H3, H4. by split. Qed.
Lemma store_keeps r d d' : store_row r d = Ok d' -> paidOperations d (row_id r) r -> references d -> references d'.
Proof.
  intros H Hr Hd. apply store_row_inv in H as [_ ->]. apply write_paidOperations; [done|].
  apply map_Forall_insert_2; [done|]. by destruct Hd.
Qed.
Lemma changed_keeps r r' k d d' : store_row r' d = Ok d' -> db_paid_operations d !! k = Some r -> same_refs r r' ->
  references d -> references d'.
Proof.
  intros H Hk Hs Hd. eapply store_keeps; [exact H| |done]. eapply same_refs_row; [exact Hs|]. by apply (ref_paidOperations d Hd k).
Qed.
Lemma update_claimed_keeps id claim p f : (forall r, same_refs r (f r)) -> keeps_references (update_claimed id claim p f).
Proof.
  intros Hf d o d' H. apply update_claimed_inv in H as [[_ ->]|(r & v & _ & Hr & _ & _ & _ & H)]; [done|].
  by eapply changed_keeps.
Qed.
Lemma insert_row_keeps r d d' : insert_row r d = Ok d' -> references d -> references d'.
Proof.
  unfold insert_row, insert_allowed. destruct (_ && _) eqn:H; [|done]. intros Hst. eapply store_keeps; [exact Hst|].
  apply andb_prop in H as [H H4]. apply andb_prop in H as [H H3]. apply andb_prop in H as [_ H2]. apply bool_decide_eq_true in H2.
  split_and!; [done|done|..]; [destruct (row_asset_id r)|destruct (row_live_stream_id r)]; try done; by apply is_present_Some.
Qed.
Lemma update_rows_keeps f rs : (forall r, same_refs r (f r)) -> forall d out d', update_rows f rs d = Ok (out, d') ->
  Forall (fun r => paidOperations d (row_id r) r) rs -> references d -> references d'.
Proof.
  intros Hf. induction rs as [|r rs IH]; intros d out d' H Hrs Hd; [by injection H as <- <-|]. cbn in H.
  apply result_bind_Ok in H as (d1 & Hst & H). apply result_bind_Ok in H as ([o1 d2] & H & [= <- <-]).
  apply Forall_cons in Hrs as [Hr Hrs]. eapply IH; [exact H| |].
  - apply store_row_inv in Hst as [_ ->]. exact Hrs.
  - eapply store_keeps; [exact Hst| |done]. by eapply same_refs_row.
Qed.
Lemma where_rows d p : references d -> Forall (fun r => paidOperations d (row_id r) r) (rows_where p (db_paid_operations d)).
Proof.
  intros Hd. apply Forall_forall. intros r Hr. apply elem_of_rows_where in Hr as (_ & k & Hk).
  pose proof (ref_paidOperations d Hd k r Hk) as H. by destruct H as (<- & ?).
Qed.
Lemma head_where_keeps key p r r' d d' :
  head (order_desc key (rows_where p (db_paid_operations d))) = Some r -> store_row r' d = Ok d' -> same_refs r r' ->
  references d -> references d'.
Proof.
  intros Hh Hst Hs Hd. apply head_elem_of, elem_of_order_desc, elem_of_rows_where in Hh as (_ & k & Hk). by eapply changed_keeps.
Qed.

Lemma claimRecoverable_keeps locked kind owner now l limit : keeps_references (claimRecoverable locked kind owner now l limit).
Proof.
  intros d o d' H Hd. unfold claimRecoverable in H. apply result_bind_Ok in H as (_ & _ & H). apply guard_Ok in H as [_ H].
  destruct l as [lease|]; [|done]. apply result_bind_Ok in H as ([rs d1] & H & [= <- <-]).
  eapply update_rows_keeps; [|exact H| |done]; [done|]. apply Forall_take. unfold order_asc.
  rewrite merge_sort_Permutation. by apply where_rows.
Qed.
Lemma terminal_keeps id claim v : keeps_references (recordTerminal id claim v).
Proof.
  intros d o d' H Hd. unfold recordTerminal in H. repeat (apply result_bind_Ok in H as (? & ? & H)).
  match goal with x : option Row * db |- _ => destruct x as [[r|] d1] end; injection H as <- <-; [apply write_secrets|];
    (eapply update_claimed_keeps; [|eassumption|done]); done.
Qed.
Lemma liveTerminal_keeps id claim v : keeps_references (recordLiveTerminal id claim v).
Proof.
  intros d o d' H Hd. unfold recordLiveTerminal in H. repeat (apply result_bind_Ok in H as (? & ? & H)).
  match goal with x : option Row * db |- _ => destruct x as [[r|] d1] end; [|by injection H as <- <-].
  match goal with Hu : update_claimed _ _ _ _ _ = _ |- _ => apply update_claimed_keeps in Hu; [|done]; specialize (Hu Hd); rename Hu into Hd1 end.
  apply result_bind_Ok in H as (d2 & He & [= <- <-]). apply end_stream_frame in He as (s & Hs & _ & ->). apply write_secrets.
  pose proof Hd1 as []. assert (Hd2 : references (d1 <| db_live_streams := <[lt_liveStreamId v := s <| ls_status := "ended" |>
    <| ls_lastSeenAt := Some (lt_terminalAt v) |> <| ls_endedAt := Some (lt_terminalAt v) |>]> (db_live_streams d1) |>)).
  { apply write_liveStreams; auto with schema; [by apply (Forall_replace _ _ _ s)|by apply (unique_replace _ _ _ s)]. }
  apply write_playbackIds; [done|]. intros k p Hk. apply map_lookup_filter_Some in Hk as [Hk _].
  by apply (ref_playbackIds _ Hd2 k).
Qed.

Lemma complete_renditions_keeps a t rs : forall d d', complete_renditions a t rs d = Ok d' -> references d -> references d'.
Proof.
  induction rs as [|x rs IH]; intros d d' H Hd; [by injection H as <-|]. cbn in H.
  destruct (db_renditions d !! tr_renditionId x) as [r|] eqn:Hr; [|done]. destruct (_ && _); [|done]. eapply IH; [exact H|].
  pose proof Hd as []. apply write_renditions; auto with schema; [by apply (Forall_replace _ _ _ r)|by apply (unique_replace _ _ _ r)].
Qed.
Lemma complete_job_keeps j a t d d' : complete_job j a t d = Ok d' -> references d -> references d'.
Proof.
  intros H Hd. apply complete_job_frame in H as (ej & Hj & _ & ->). pose proof Hd as [].
  apply write_encodingJobs; [done|]. by apply (Forall_replace _ _ _ ej).
Qed.
Lemma ready_asset_keeps a t d d' : ready_asset a t d = Ok d' -> references d -> references d' /\ is_Some (db_assets d' !! a).
Proof.
  intros H Hd. apply ready_asset_frame in H as (x & Hx & ->). pose proof Hd as []. split.
  - apply write_assets; auto with schema. by apply (Forall_replace _ _ _ x).
  - cbn. rewrite lookup_insert_eq. by eexists.
Qed.
Lemma add_playback_keeps p k a d d' : add_playback p k a d = Ok d' -> is_Some (db_assets d !! a) -> references d -> references d'.
Proof.
  unfold add_playback. intros H Ha Hd. destruct (negb _); [by injection H as <-|]. destruct (_ || _) eqn:E; [done|].
  injection H as <-. apply orb_false_elim in E as [_ E]. pose proof Hd as []. apply write_playbackIds; [done|].
  apply map_Forall_insert_2; [|done]. split_and!; [done|by apply key_allowed|done..].
Qed.
Lemma vodTerminal_keeps id claim v : keeps_references (recordVodTerminal id claim v).
Proof.
  intros d o d' H Hd. unfold recordVodTerminal in H. repeat (apply result_bind_Ok in H as (? & ? & H)).
  match goal with x : option Row * db |- _ => destruct x as [[r|] d1] end; [|by injection H as <- <-].
  match goal with Hu : update_claimed _ _ _ _ _ = _ |- _ => apply update_claimed_keeps in Hu; [|done]; specialize (Hu Hd); rename Hu into Hd1 end.
  apply result_bind_Ok in H as (d2 & K2 & H). apply complete_renditions_keeps in K2; [|done].
  apply result_bind_Ok in H as (d3 & K3 & H). apply complete_job_keeps in K3; [|done].
  apply result_bind_Ok in H as (d4 & K4 & H). apply ready_asset_keeps in K4 as [K4 Ha]; [|done].
  apply result_bind_Ok in H as (d5 & K5 & [= <- <-]). apply add_playback_keeps in K5; [|done..]. by apply write_secrets.
Qed.

Lemma operation_keeps A (t : tx A) : operation_statement A t -> keeps_references t.
Proof.
  intros [v|rnd v s owner l|locked kind owner now l limit|locked stream owner now l|stream reason|id claim l|id claim|id claim v|id claim v
    |id claim v|id claim v|id claim v|rnd id claim v|id claim|id claim].
  3: apply claimRecoverable_keeps. 9: apply terminal_keeps. 9: apply liveTerminal_keeps. 9: apply vodTerminal_keeps.
  all: intros d o d' H Hd.
  - unfold insert in H. apply result_bind_Ok in H as (r & _ & H). apply result_bind_Ok in H as (d1 & Hr & [= <- <-]).
    by eapply insert_row_keeps.
  - unfold insertWithSecrets in H. apply result_bind_Ok in H as (_ & _ & H). apply result_bind_Ok in H as (r & _ & H).
    apply result_bind_Ok in H as (d1 & Hr & [= <- <-]). apply write_secrets. by eapply insert_row_keeps.
  - unfold claimSessionByLiveStreamId in H. apply result_bind_Ok in H as (_ & _ & H). apply guard_Ok in H as [_ H].
    destruct l as [lease|]; [|done]. destruct (head _) as [r|] eqn:Hh; [|by injection H as <- <-].
    apply result_bind_Ok in H as (d1 & Hst & [= <- <-]). eapply head_where_keeps; [exact Hh|exact Hst|by repeat split|exact Hd].
  - unfold requestSessionWinddown in H. apply guard_Ok in H as [_ H]. destruct (head _) as [r|] eqn:Hh; [|by injection H as <- <-].
    apply result_bind_Ok in H as (d1 & Hst & [= <- <-]). eapply head_where_keeps; [exact Hh|exact Hst|by repeat split|exact Hd].
  - unfold renewClaim in H. apply result_bind_Ok in H as (_ & _ & H). destruct l as [lease|], (cl_leaseExpiresAt claim); try done.
    apply guard_Ok in H as [_ H]. apply result_bind_Ok in H as ([o1 d1] & Hu & [= <- <-]). eapply update_claimed_keeps; [|exact Hu|exact Hd]; by repeat split.
  - unfold releaseClaim in H. apply result_bind_Ok in H as (_ & _ & H).
    apply result_bind_Ok in H as ([o1 d1] & Hu & [= <- <-]). eapply update_claimed_keeps; [|exact Hu|exact Hd]; by repeat split.
  - unfold recordProgress in H. apply result_bind_Ok in H as (_ & _ & H). apply result_bind_Ok in H as (nums & _ & H).
    apply result_bind_Ok in H as ([o1 d1] & Hu & [= <- <-]). eapply update_claimed_keeps; [|exact Hu|exact Hd].
    intros r. repeat match goal with x : (_ * _)%type |- _ => destruct x end. by repeat split.
  - unfold recordRetry in H. apply result_bind_Ok in H as (_ & _ & H).
    apply result_bind_Ok in H as ([o1 d1] & Hu & [= <- <-]). eapply update_claimed_keeps; [|exact Hu|exact Hd]; by repeat split.
  - unfold putSecrets in H. apply result_bind_Ok in H as (_ & _ & H). apply result_bind_Ok in H as ([] & _ & [= <- <-]); [|done].
    by apply write_secrets.
  - by apply readSecrets_pure in H as ->.
  - unfold deleteSecrets in H. apply result_bind_Ok in H as (_ & _ & H). apply result_bind_Ok in H as (live & _ & H).
    destruct (live && _); injection H as <- <-; [|done]. by apply write_secrets.
Qed.

Lemma statement_wf A (t : tx A) d a d' : media_statement A t \/ operation_statement A t -> t d = Ok (a, d') -> db_wf d -> db_wf d'.
Proof.
  intros Ht E Hw. apply (row_steps_wf d); [|done]. apply repo_step_rows; [done|]. destruct Ht as [Ht|Ht].
  - assert (Hm : same_operations d d' /\ db_now d' = db_now d); [|by destruct Hm; apply step_media].
    revert E. destruct Ht; intros E; try (by injection E as <- <-).
    all: unfold Assets.insert, Uploads.insert, Uploads.updateStatus, Renditions.insert, EncodingJobs.insert,
      EncodingJobs.incrementAttempt, LiveStreams.insert, PlaybackIds.insert in E;
      repeat (case_match; try done); by injection E as <- <-.
  - destruct Ht; eauto using repo_step.
Qed.

(** C13: the database keeps its schema.  From tables that satisfy it, through any sequence
    of statements of the repositories, of any instances and with any arguments, and with
    the clock running: every row stays under its own key; an API key, asset, rendition,
    live stream or operation that a row refers to exists; no two live streams share a
    stream key and no two renditions of an asset an output; an operation satisfies the
    checks of its table, its unique columns are unique, and secrets are those of an
    operation that is still open. *)
Theorem statements_keep_the_schema d d' :
  rtc (fun d d' => (exists A (t : tx A) a, (media_statement A t \/ operation_statement A t) /\ t d = Ok (a, d')) \/
                   exists now, db_now d <= now /\ d' = d <| db_now := now |>) d d' ->
  references d -> db_wf d ->
  references d' /\ db_wf d' /\ map_Forall (paidOperationSecrets d') (db_secrets d').
Proof.
  intros Hrun Hd Hw. assert (H : references d' /\ db_wf d').
  { induction Hrun as [d|d d1 d' [(A & t & a & Ht & E)|(now & Hn & ->)] _ IH]; [done|..]; apply IH.
    - destruct Ht as [Ht|Ht]; [by eapply media_keeps|by eapply operation_keeps].
    - by eapply statement_wf.
    - by apply write_clock.
    - by destruct Hw. }
  destruct H as [H1 H2]. split_and!; [done..|]. intros k e He. destruct (wf_secrets _ H2 k e He) as (r & Hr & _). by exists r.
Qed.
End statements.

(** An asset and its upload, from nothing but an API key; an upload of an asset that does
    not exist is refused. *)
Definition blank_db : db := mkDb 1000 ∅ ∅ ∅ ∅ ∅ ∅ ∅ ∅ {[ "key" ]}.
Definition sample_source (asset : string) : Upload := Database.mkUpload "up_1" "key" (Some asset) "waiting" "https://s3/raw" "raw/a.mp4" 2000 0 None.
Lemma blank_references : references blank_db /\ db_wf blank_db.
Proof. split; split; try apply map_Forall_empty; by intros k k' a a' H. Qed.
Example upload_needs_its_asset : Uploads.insert (sample_source "asset") blank_db = Err pg_error.
Proof. by vm_compute. Qed.
Lemma statements_keep_the_schema_witness :
  let stored := match Assets.insert sample_asset blank_db with Ok (_, d) => d | Err _ => blank_db end in
  let uploading := match Uploads.insert (sample_source "asset") stored with Ok (_, d) => d | Err _ => blank_db end in
  is_present (db_uploads uploading !! "up_1") = true /\ references uploading.
Proof.
  intros stored uploading. split; [by vm_compute|]. destruct blank_references as [H1 H2].
  apply (statements_keep_the_schema (Cipher := sample_cipher) blank_db uploading); [|done..].
  eapply rtc_l; [left; eexists _, (Assets.insert sample_asset), _; split; [left; constructor|vm_compute; reflexivity]|].
  eapply rtc_l; [left; eexists _, (Uploads.insert (sample_source "asset")), _; split; [left; constructor|vm_compute; reflexivity]|].
  apply rtc_refl.
Defined.
