(* ===== verification/RouteProtocol.v ===== *)
(** * Route declarations (livepeer/routeProtocol.ts)

    A broker publishes for each offering a protocol and its axes.  The parsers
    below turn that untrusted JSON into the typed axes of engine/types/worker.ts, or
    refuse it. *)

From S2P Require Import Prelude Js Types.
Open Scope Z_scope.

Inductive LivepeerProtocol : Type := paid_job | paid_session.
#[export] Instance LivepeerProtocol_eq_dec : EqDecision LivepeerProtocol.
Proof. solve_decision. Defined.
Definition protocol_name (p : LivepeerProtocol) : string :=
  match p with paid_job => "paid-job/v1" | paid_session => "paid-session/v1" end.

Record RouteProtocolDeclaration := mkDeclaration {
  rd_protocol : LivepeerProtocol;
  rd_job : option PaidJobAxes;
  rd_session : option PaidSessionAxes
}.

Record RouteProtocolRequirement := mkRequirement {
  rr_protocol : LivepeerProtocol;
  rr_acceptedTransports : option (list Transport);
  rr_descriptorSchema : option string;
  rr_attachment : option Attachment
}.

(** ** Untyped values: [None] is [undefined] *)

Definition asObject (value : option json) : option (list (string * json)) :=
  match value with Some (JObj fields) => Some fields | _ => None end.

Definition nonEmptyString (value : option json) : option string :=
  match value with
  | Some (JStr s) => if nonempty s then Some s else None
  | _ => None
  end.

(** [a ?? b] on untyped values *)
Definition coalesce (a b : option json) : option json :=
  match a with Some JNull | None => b | _ => a end.

(** The three results of an optional parser: absent, a value, or malformed. *)
Inductive parsed (A : Type) : Type :=
| absent
| present (a : A)
| malformed.
Arguments absent {A}.
Arguments present {A} a.
Arguments malformed {A}.

Definition to_option {A} (p : parsed A) : option A :=
  match p with present a => Some a | _ => None end.
Definition is_malformed {A} (p : parsed A) : bool :=
  match p with malformed => true | _ => false end.

Definition optionalNonEmptyString (value : option json) : parsed string :=
  match value with
  | None | Some (JStr EmptyString) => absent
  | Some (JStr s) => present s
  | Some _ => malformed
  end.

(** [Number(value)] of an all-digits string *)
Definition all_digits (s : string) : option Z :=
  if nonempty s then digits_value 0 s else None.

Definition positiveSafeInteger (value : json) : option Z :=
  let at_least_one z := if safe_integer z && (1 <=? z) then Some z else None in
  match value with
  | JNum (NInt z) => at_least_one z
  | JStr s => match all_digits s with Some z => at_least_one z | None => None end
  | _ => None
  end.

Definition optionalPositiveSafeInteger (value : option json) : parsed Z :=
  match value with
  | None => absent
  | Some j => match positiveSafeInteger j with Some z => present z | None => malformed end
  end.

Definition optionalNonNegativeNumber (value : option json) : parsed jsnum :=
  match value with
  | None => absent
  | Some (JNum n) => if isFinite n && num_nonneg n then present n else malformed
  | Some _ => malformed
  end.

Definition optionalObject (value : option json) : parsed json :=
  match value with
  | None => absent
  | Some (JObj f) => present (JObj f)
  | Some _ => malformed
  end.

Definition canonicalUint64 (value : option json) : option string :=
  match value with
  | Some (JNum (NInt z)) => if safe_integer z && (0 <=? z) then Some (string_of_Z z) else None
  | Some (JStr s) =>
      match decimal_value s with
      | Some z => if z <=? UINT64_MAX then Some s else None
      | None => None
      end
  | _ => None
  end.

(** ** Axes *)

Definition JOB_TRANSPORTS : list (string * Transport) :=
  [("unary", unary); ("stream", stream); ("multipart", multipart)].

Fixpoint parse_transports (seen : list Transport) (l : list json) : option (list Transport) :=
  match l with
  | [] => Some seen
  | JStr s :: l' =>
      match assoc s JOB_TRANSPORTS with
      | Some t => if bool_decide (t ∈ seen) then None else parse_transports (seen ++ [t]) l'
      | None => None
      end
  | _ :: _ => None
  end.

Definition parseJobAxes (value : option json) : option PaidJobAxes :=
  match asObject value with
  | Some raw =>
      match assoc "transports" raw with
      | Some (JArr ((_ :: _) as l)) =>
          match parse_transports [] l with Some ts => Some (mkJobAxes ts) | None => None end
      | _ => None
      end
  | None => None
  end.

Definition parseHeartbeat (value : option json) : option PaidSessionHeartbeat :=
  match value with
  | None => Some (mkHeartbeat 10 3)
  | Some _ =>
      match asObject value with
      | Some raw =>
          let interval := optionalPositiveSafeInteger (assoc "interval_seconds" raw) in
          let missed := optionalPositiveSafeInteger (assoc "missed_threshold" raw) in
          if is_malformed interval || is_malformed missed then None
          else Some (mkHeartbeat (to_option interval ?? 10) (to_option missed ?? 3))
      | None => None
      end
  end.

Definition lease_policy (value : option json) : option LeasePolicy :=
  match value with
  | Some (JStr "funding-tracking") | Some JNull | None => Some funding_tracking
  | Some (JStr "fixed") => Some fixed
  | _ => None
  end.

Definition parseLease (value : option json) : option PaidSessionLease :=
  match value with
  | None => Some (mkLease funding_tracking None)
  | Some _ =>
      match asObject value with
      | Some raw =>
          match lease_policy (assoc "policy" raw) with
          | Some policy =>
              let maxSeconds := optionalPositiveSafeInteger (assoc "max_seconds" raw) in
              if is_malformed maxSeconds then None else Some (mkLease policy (to_option maxSeconds))
          | None => None
          end
      | None => None
      end
  end.

Definition metering_of (value : option json) : option Metering :=
  match value with
  | Some (JStr "runner-reported") => Some runner_reported
  | Some (JStr "broker-observed") => Some broker_observed
  | _ => None
  end.
Definition attachment_of (value : option json) : option Attachment :=
  match value with
  | Some (JStr "external") | Some JNull | None => Some external
  | Some (JStr "inband-ws") => Some inband_ws
  | _ => None
  end.
Definition refill_of (value : option json) : option Refill :=
  match value with
  | Some (JStr "extensible") | Some JNull | None => Some extensible
  | Some (JStr "bounded") => Some bounded
  | _ => None
  end.

Definition parseSessionAxes (value : option json) : option PaidSessionAxes :=
  raw ← asObject value;
  descriptorSchema ← nonEmptyString (assoc "descriptor_schema" raw);
  metering ← metering_of (assoc "metering" raw);
  attachment ← attachment_of (assoc "attachment" raw);
  if bool_decide (metering = broker_observed) && negb (bool_decide (attachment = inband_ws)) then None
  else
    refill ← refill_of (assoc "refill" raw);
    heartbeat ← parseHeartbeat (assoc "heartbeat" raw);
    lease ← parseLease (assoc "lease" raw);
    let tolerance := optionalNonNegativeNumber (assoc "tolerance_band_pct" raw) in
    let runway := optionalPositiveSafeInteger (assoc "runway_increment_units" raw) in
    let schema := optionalObject (assoc "session_params_schema" raw) in
    if is_malformed tolerance || is_malformed runway || is_malformed schema then None
    else Some {| ax_descriptorSchema := descriptorSchema; ax_attachment := attachment;
                 ax_metering := metering; ax_refill := refill; ax_heartbeat := heartbeat;
                 ax_lease := lease; ax_toleranceBandPct := to_option tolerance;
                 ax_runwayIncrementUnits := to_option runway;
                 ax_sessionParamsSchema := to_option schema |}.

(** ** Declarations *)

(** [root.protocol !== undefined && root.protocol !== typedProtocol] *)
Definition protocol_contradicts (typedProtocol : string) (root : list (string * json)) : bool :=
  match assoc "protocol" root with
  | Some (JStr s) => s !=? typedProtocol
  | Some _ => true
  | None => false
  end.

Definition parseRouteProtocolDeclaration (typedProtocol : string) (extra : json)
    : option RouteProtocolDeclaration :=
  if (typedProtocol !=? "paid-job/v1") && (typedProtocol !=? "paid-session/v1") then None
  else
    root ← asObject (Some extra);
    if protocol_contradicts typedProtocol root then None
    else if typedProtocol ==? "paid-job/v1" then
      if is_present (assoc "session" root) then None
      else job ← parseJobAxes (assoc "job" root); Some (mkDeclaration paid_job (Some job) None)
    else if is_present (assoc "job" root) then None
    else session ← parseSessionAxes (assoc "session" root);
         Some (mkDeclaration paid_session None (Some session)).

Definition meets {A} `{EqDecision A} (required : option A) (offered : A) : bool :=
  match required with Some r => offered ==? r | None => true end.

Definition routeSatisfiesRequirement (declaration : RouteProtocolDeclaration)
    (requirement : RouteProtocolRequirement) : bool :=
  (rd_protocol declaration ==? rr_protocol requirement) &&
  match rr_protocol requirement with
  | paid_job =>
      match rd_job declaration with
      | Some j =>
          match rr_acceptedTransports requirement with
          | Some accepted => existsb (fun t => bool_decide (t ∈ jx_transports j)) accepted
          | None => true
          end
      | None => false
      end
  | paid_session =>
      match rd_session declaration with
      | Some s => meets (rr_descriptorSchema requirement) (ax_descriptorSchema s) &&
                  meets (rr_attachment requirement) (ax_attachment s)
      | None => false
      end
  end.

(** ** Estimators and settlement keys *)

Definition parseWorkUnitEstimator (value : option json) : option WorkUnitEstimator :=
  raw ← asObject value;
  id ← nonEmptyString (assoc "id" raw);
  rounding ← nonEmptyString (assoc "rounding" raw);
  exactness ← nonEmptyString (assoc "exactness" raw);
  let packageName := optionalNonEmptyString (assoc "package" raw) in
  let fixtures := optionalNonEmptyString (assoc "fixtures" raw) in
  if is_malformed packageName || is_malformed fixtures then None
  else Some (mkEstimator id rounding exactness (to_option packageName) (to_option fixtures)).

Definition parse_settlement_key (item : json) : option SettlementKey :=
  raw ← asObject (Some item);
  publicKey ← nonEmptyString (coalesce (assoc "publicKey" raw) (assoc "public_key" raw));
  notBefore ← nonEmptyString (coalesce (assoc "notBefore" raw) (assoc "not_before" raw));
  expiresAt ← nonEmptyString (coalesce (assoc "expiresAt" raw) (assoc "expires_at" raw));
  introduced ← canonicalUint64 (coalesce (assoc "introducedInPublicationSeq" raw)
                                         (assoc "introduced_in_publication_seq" raw));
  Some (mkSettlementKey publicKey notBefore expiresAt introduced).

Fixpoint parse_keys (l : list json) : option (list SettlementKey) :=
  match l with
  | [] => Some []
  | item :: l' => key ← parse_settlement_key item; keys ← parse_keys l'; Some (key :: keys)
  end.

Definition parseSettlementKeys (value : json) : option (list SettlementKey) :=
  match value with JArr l => parse_keys l | _ => None end.

(** ** What a parsed declaration guarantees *)

Lemma nonEmptyString_nonempty v s : nonEmptyString v = Some s -> nonempty s = true.
Proof.
  destruct v as [[| | |t| |]|]; try done. cbn. destruct (nonempty t) eqn:E; [|done].
  by intros [= <-].
Qed.

Lemma parse_transports_spec seen l ts :
  NoDup seen -> parse_transports seen l = Some ts ->
  NoDup ts /\ length ts = (length seen + length l)%nat.
Proof.
  revert seen. induction l as [|x l IH]; intros seen Hnd; cbn [parse_transports].
  { intros [= <-]. split; [done|cbn; lia]. }
  destruct x; try done. destruct (assoc s JOB_TRANSPORTS) as [t|]; [|done].
  case_bool_decide as Ht; [done|]. intros H. apply IH in H as [H1 H2].
  - split; [done|]. rewrite H2, length_app. cbn. lia.
  - apply NoDup_app. split_and!; [done| |apply NoDup_singleton].
    intros y Hy Hy'. apply list_elem_of_singleton in Hy'. by subst.
Qed.

Lemma positiveSafeInteger_pos j z : positiveSafeInteger j = Some z -> 1 <= z <= MAX_SAFE_INTEGER.
Proof.
  unfold positiveSafeInteger, safe_integer. destruct j; try done; repeat case_match; intros [= <-]; bools; lia.
Qed.

Lemma optionalPositive_pos v d :
  is_malformed (optionalPositiveSafeInteger v) = false -> 1 <= d ->
  1 <= (to_option (optionalPositiveSafeInteger v) ?? d).
Proof.
  destruct v as [j|]; cbn; [|lia]. destruct (positiveSafeInteger j) eqn:E; cbn; [|done].
  apply positiveSafeInteger_pos in E. lia.
Qed.

Lemma parseHeartbeat_pos v h :
  parseHeartbeat v = Some h -> 1 <= hb_intervalSeconds h /\ 1 <= hb_missedThreshold h.
Proof.
  unfold parseHeartbeat. destruct v; [|intros [= <-]; done].
  destruct (asObject _); [|done]. destruct (_ || _) eqn:E; [done|]. bools.
  intros [= <-]. cbn [hb_intervalSeconds hb_missedThreshold].
  split; apply optionalPositive_pos; done.
Qed.

Lemma parseJobAxes_ok v j :
  parseJobAxes v = Some j -> NoDup (jx_transports j) /\ jx_transports j <> [].
Proof.
  unfold parseJobAxes. destruct (asObject v) as [raw|]; [|done].
  destruct (assoc "transports" raw) as [[| | | |[|x l]|]|]; try done.
  destruct (parse_transports [] (x :: l)) as [ts|] eqn:E; [|done]. intros [= <-].
  apply parse_transports_spec in E as [H1 H2]; [|constructor].
  split; [done|]. cbn. intros ->. done.
Qed.

(** The guarantees of a session's axes. *)
Record session_axes_ok (a : PaidSessionAxes) : Prop := {
  axes_schema : nonempty (ax_descriptorSchema a) = true;
  axes_metering : ax_metering a = broker_observed -> ax_attachment a = inband_ws;
  axes_heartbeat : 1 <= hb_intervalSeconds (ax_heartbeat a) /\ 1 <= hb_missedThreshold (ax_heartbeat a);
  axes_runway : match ax_runwayIncrementUnits a with Some z => 1 <= z | None => True end
}.

Lemma parseSessionAxes_ok v a : parseSessionAxes v = Some a -> session_axes_ok a.
Proof.
  unfold parseSessionAxes. rewrite bind_Some. intros (raw & _ & H).
  apply bind_Some in H as (ds & Hds & H). apply bind_Some in H as (m & Hm & H).
  apply bind_Some in H as (at_ & Hat & H). destruct (_ && _) eqn:Hg; [done|].
  apply bind_Some in H as (rf & Hrf & H). apply bind_Some in H as (hb & Hhb & H).
  apply bind_Some in H as (le & Hle & H). destruct (_ || _) eqn:Hmal; [done|]. bools.
  injection H as <-. constructor; cbn.
  - by eapply nonEmptyString_nonempty.
  - intros ->. destruct Hg as [Hg|Hg]; by bools.
  - by eapply parseHeartbeat_pos.
  - destruct (assoc "runway_increment_units" raw) as [j|]; cbn in *; [|done].
    destruct (positiveSafeInteger j) eqn:E; cbn in *; [|done]. apply positiveSafeInteger_pos in E. lia.
Qed.

Lemma declaration_axes name extra d :
  parseRouteProtocolDeclaration name extra = Some d ->
  name = protocol_name (rd_protocol d) /\
  match rd_protocol d with
  | paid_job => rd_session d = None /\
      exists j, rd_job d = Some j /\ NoDup (jx_transports j) /\ jx_transports j <> []
  | paid_session => rd_job d = None /\ exists a, rd_session d = Some a /\ session_axes_ok a
  end.
Proof.
  unfold parseRouteProtocolDeclaration. destruct (_ && _) eqn:Hn; [done|].
  rewrite bind_Some. intros (root & _ & H). destruct (protocol_contradicts name root); [done|].
  case_bool_decide as Hj.
  - destruct (is_present (assoc "session" root)); [done|].
    apply bind_Some in H as (j & Hj' & [= <-]). cbn. split; [done|]. split; [done|].
    exists j. split; [done|]. by eapply parseJobAxes_ok.
  - destruct (is_present (assoc "job" root)); [done|].
    apply bind_Some in H as (a & Ha & [= <-]). cbn. bools.
    assert (name = "paid-session/v1") as -> by (destruct Hn as [Hn|Hn]; by bools).
    split; [done|]. split; [done|]. exists a. split; [done|]. by eapply parseSessionAxes_ok.
Qed.

(** C32: a route declaration is typed exactly by its protocol.  If the parser accepts
    one, a job route has job axes and no session axes, with at least one transport
    and none twice; a session route has session axes and no job axes, a descriptor,
    positive heartbeat parameters, and observes metering at the broker only over an
    in-band attachment. *)
Theorem declaration_matches_protocol name extra d :
  parseRouteProtocolDeclaration name extra = Some d ->
  name = protocol_name (rd_protocol d) /\
  match rd_protocol d with
  | paid_job => rd_session d = None /\
      exists j, rd_job d = Some j /\ NoDup (jx_transports j) /\ jx_transports j <> []
  | paid_session => rd_job d = None /\ exists a, rd_session d = Some a /\ session_axes_ok a
  end.
Proof. apply declaration_axes. Qed.

(** ** Publishing and reading back *)

Definition opt_prop {A} (k : string) (to : A -> json) (o : option A) : list (string * json) :=
  match o with Some a => [(k, to a)] | None => [] end.

Definition metering_name (m : Metering) : string :=
  match m with runner_reported => "runner-reported" | broker_observed => "broker-observed" end.
Definition attachment_name (a : Attachment) : string :=
  match a with external => "external" | inband_ws => "inband-ws" end.
Definition refill_name (r : Refill) : string :=
  match r with extensible => "extensible" | bounded => "bounded" end.
Definition policy_name (p : LeasePolicy) : string :=
  match p with funding_tracking => "funding-tracking" | fixed => "fixed" end.
Definition int_json (z : Z) : json := JNum (NInt z).

Definition heartbeat_wire (h : PaidSessionHeartbeat) : json :=
  JObj [("interval_seconds", int_json (hb_intervalSeconds h));
        ("missed_threshold", int_json (hb_missedThreshold h))].
Definition lease_wire (l : PaidSessionLease) : json :=
  JObj (("policy", JStr (policy_name (le_policy l))) :: opt_prop "max_seconds" int_json (le_maxSeconds l)).

(** The wire form a broker publishes of a session's axes. *)
Definition session_axes_wire (a : PaidSessionAxes) : json :=
  JObj ([("descriptor_schema", JStr (ax_descriptorSchema a));
         ("metering", JStr (metering_name (ax_metering a)));
         ("attachment", JStr (attachment_name (ax_attachment a)));
         ("refill", JStr (refill_name (ax_refill a)));
         ("heartbeat", heartbeat_wire (ax_heartbeat a));
         ("lease", lease_wire (ax_lease a))]
        ++ opt_prop "tolerance_band_pct" JNum (ax_toleranceBandPct a)
        ++ opt_prop "runway_increment_units" int_json (ax_runwayIncrementUnits a)
        ++ opt_prop "session_params_schema" id (ax_sessionParamsSchema a)).

Definition pos_safe (z : Z) : bool := safe_integer z && (1 <=? z).
Definition opt_ok {A} (p : A -> bool) (o : option A) : bool :=
  match o with Some a => p a | None => true end.

(** The axes a broker may publish. *)
Definition publishable (a : PaidSessionAxes) : bool :=
  nonempty (ax_descriptorSchema a) &&
  (negb (bool_decide (ax_metering a = broker_observed)) || bool_decide (ax_attachment a = inband_ws)) &&
  pos_safe (hb_intervalSeconds (ax_heartbeat a)) && pos_safe (hb_missedThreshold (ax_heartbeat a)) &&
  opt_ok pos_safe (le_maxSeconds (ax_lease a)) &&
  opt_ok (fun n => isFinite n && num_nonneg n) (ax_toleranceBandPct a) &&
  opt_ok pos_safe (ax_runwayIncrementUnits a) &&
  opt_ok (fun j => match j with JObj _ => true | _ => false end) (ax_sessionParamsSchema a).

Lemma positive_wire z :
  pos_safe z = true -> optionalPositiveSafeInteger (Some (int_json z)) = present z.
Proof. unfold pos_safe. cbn. by intros ->. Qed.

Lemma heartbeat_round_trip h :
  pos_safe (hb_intervalSeconds h) = true -> pos_safe (hb_missedThreshold h) = true ->
  parseHeartbeat (Some (heartbeat_wire h)) = Some h.
Proof.
  intros Hi Hm. unfold parseHeartbeat, heartbeat_wire. cbn [asObject].
  change (assoc "interval_seconds" _) with (Some (int_json (hb_intervalSeconds h))).
  change (assoc "missed_threshold" _) with (Some (int_json (hb_missedThreshold h))).
  rewrite (positive_wire _ Hi), (positive_wire _ Hm). by destruct h.
Qed.

Lemma lease_round_trip l :
  opt_ok pos_safe (le_maxSeconds l) = true -> parseLease (Some (lease_wire l)) = Some l.
Proof.
  destruct l as [p [m|]]; intros Hm; unfold parseLease, lease_wire; cbn [asObject le_policy le_maxSeconds];
    change (assoc "policy" _) with (Some (JStr (policy_name p)));
    (replace (lease_policy _) with (Some p) by (by destruct p)).
  - change (assoc "max_seconds" _) with (Some (int_json m)). by rewrite (positive_wire _ Hm).
  - reflexivity.
Qed.

Lemma session_axes_parse a :
  publishable a = true -> parseSessionAxes (Some (session_axes_wire a)) = Some a.
Proof.
  unfold publishable. rewrite !andb_true_iff.
  intros [[[[[[[Hds Hma] Hhi] Hhm] Hlm] Htol] Hrun] Hps].
  unfold parseSessionAxes, session_axes_wire. cbn [asObject mbind option_bind].
  set (fields := _ ++ _).
  change (assoc "descriptor_schema" fields) with (Some (JStr (ax_descriptorSchema a))).
  change (assoc "metering" fields) with (Some (JStr (metering_name (ax_metering a)))).
  change (assoc "attachment" fields) with (Some (JStr (attachment_name (ax_attachment a)))).
  change (assoc "refill" fields) with (Some (JStr (refill_name (ax_refill a)))).
  change (assoc "heartbeat" fields) with (Some (heartbeat_wire (ax_heartbeat a))).
  change (assoc "lease" fields) with (Some (lease_wire (ax_lease a))).
  replace (nonEmptyString _) with (Some (ax_descriptorSchema a)) by (cbn; by rewrite Hds).
  replace (metering_of _) with (Some (ax_metering a)) by (by destruct (ax_metering a)).
  replace (attachment_of _) with (Some (ax_attachment a)) by (by destruct (ax_attachment a)).
  replace (refill_of _) with (Some (ax_refill a)) by (by destruct (ax_refill a)).
  rewrite heartbeat_round_trip, lease_round_trip by done. cbn [mbind option_bind].
  replace (_ && _) with false by (destruct (ax_metering a), (ax_attachment a); done).
  replace (optionalNonNegativeNumber _) with
    (match ax_toleranceBandPct a with Some n => present n | None => absent end).
  2: { unfold fields. destruct (ax_toleranceBandPct a) as [n|].
       { change (optionalNonNegativeNumber _) with
           (if isFinite n && num_nonneg n then present n else malformed).
         cbn [opt_ok] in Htol. by rewrite Htol. }
       by destruct (ax_runwayIncrementUnits a), (ax_sessionParamsSchema a). }
  replace (optionalPositiveSafeInteger _) with
    (match ax_runwayIncrementUnits a with Some n => present n | None => absent end).
  2: { unfold fields. destruct (ax_runwayIncrementUnits a) as [n|].
       - cbn in Hrun. rewrite <- (positive_wire _ Hrun). by destruct (ax_toleranceBandPct a).
       - by destruct (ax_toleranceBandPct a), (ax_sessionParamsSchema a). }
  replace (optionalObject _) with
    (match ax_sessionParamsSchema a with Some n => present n | None => absent end).
  2: { unfold fields. destruct (ax_sessionParamsSchema a) as [[]|];
       by destruct (ax_toleranceBandPct a), (ax_runwayIncrementUnits a). }
  clear fields. destruct a as [ds at_ me rf hb le [] [] []]; reflexivity.
Qed.

(** Publishing and reading back.  The axes of any session route a broker may
    publish are recovered exactly from their wire form: no default overrides a
    published value and none of the optional limits is lost. *)
Lemma session_axes_round_trip a :
  publishable a = true ->
  parseRouteProtocolDeclaration "paid-session/v1" (JObj [("session", session_axes_wire a)])
    = Some (mkDeclaration paid_session None (Some a)).
Proof.
  intros Ha. apply session_axes_parse in Ha. unfold parseRouteProtocolDeclaration.
  cbn [asObject mbind option_bind].
  change (assoc "session" _) with (Some (session_axes_wire a)). rewrite Ha. reflexivity.
Qed.

Lemma declaration_matches_protocol_witness :
  exists d, parseRouteProtocolDeclaration "paid-job/v1"
    (JObj [("job", JObj [("transports", JArr [JStr "unary"; JStr "stream"])])]) = Some d /\
  "paid-job/v1" = protocol_name (rd_protocol d).
Proof.
  eexists. split; [vm_compute; reflexivity|].
  eapply (proj1 (declaration_matches_protocol "paid-job/v1"
    (JObj [("job", JObj [("transports", JArr [JStr "unary"; JStr "stream"])])]) _
    ltac:(vm_compute; reflexivity))).
Defined.

Definition sample_axes : PaidSessionAxes :=
  mkSessionAxes "rtmp-hls/v1" external runner_reported extensible (mkHeartbeat 5 2)
    (mkLease fixed (Some 600)) (Some (NFrac 1 2)) (Some 30) None.

Lemma session_axes_round_trip_witness :
  parseRouteProtocolDeclaration "paid-session/v1" (JObj [("session", session_axes_wire sample_axes)])
    = Some (mkDeclaration paid_session None (Some sample_axes)).
Proof. apply (session_axes_round_trip sample_axes). vm_compute. reflexivity. Defined.
