(* ===== verification/Interfaces.v ===== *)
(** * The interfaces between the gateway's components

    The values that LOC and the brokers exchange with the engine
    (engine/interfaces/locClient.ts, paidSessionClient.ts) and the type classes
    [LocClient] and [PaidSessionClient]: what a client offers, and the guarantees
    its callers rely on. *)

From S2P Require Import Prelude Js Types Wire Http.
Open Scope Z_scope.

(** ** engine/interfaces/locClient.ts *)

Record LocRouteBinding := mkBinding {
  rb_quoteId : string;
  rb_quoteVersion : string;
  rb_constraintFingerprint : string;
  rb_routeFingerprint : string;
  rb_settlementDomainId : string
}.
#[export] Instance LocRouteBinding_eq_dec : EqDecision LocRouteBinding.
Proof. solve_decision. Defined.

Record LocRouteSnapshot := mkLocRoute {
  lr_brokerUrl : string;
  lr_ethAddress : string;
  lr_capability : string;
  lr_offering : string;
  lr_protocol : string;
  lr_workUnit : string;
  lr_pricePerWorkUnitWei : string;
  lr_unitsPerPrice : string;
  lr_binding : LocRouteBinding;
  lr_settlementDomainId : string;
  lr_settlementKeys : list SettlementKey;
  lr_workUnitEstimator : option WorkUnitEstimator;
  lr_job : option PaidJobAxes;
  lr_session : option PaidSessionAxes;
  lr_extra : json;
  lr_raw : json
}.

Record LocSettlementEnvelope := mkEnvelope {
  en_payload : list (string * json);
  en_signature : string
}.

Record LocPrepareSessionInput := mkPrepareInput {
  pi_requestId : string;
  pi_capability : string;
  pi_offering : string;
  pi_descriptorSchema : string;
  pi_routeBinding : LocRouteBinding
}.
Record LocPrepareSessionResult := mkPrepared {
  pp_gatewaySessionId : string;
  pp_routeBinding : LocRouteBinding;
  pp_brokerUrl : string;
  pp_preparationToken : string;
  pp_expiresAt : string
}.
Record LocOpenSessionInput := mkOpenInput {
  oi_requestId : string;
  oi_capability : string;
  oi_offering : string;
  oi_descriptorSchema : string;
  oi_sessionParams : list (string * json);
  oi_estimatedRunwayUnits : Z;
  oi_maxTotalUnits : Z;
  oi_routeBinding : LocRouteBinding;
  oi_gatewaySessionId : string;
  oi_preparationToken : string;
  oi_workloadRequestDigest : string;
  oi_callerPublicKey : string
}.
Record LocOpenSessionResult := mkLocOpened {
  lo_operationId : string;
  lo_gatewaySessionId : string;
  lo_requestId : string;
  lo_workId : string;
  lo_brokerUrl : string;
  lo_session : PaidSessionAxes;
  lo_routeSnapshot : LocRouteSnapshot;
  lo_spendAuthorization : string;
  lo_paymentEnvelope : option string;
  lo_expectedValueWei : string;
  lo_fundedValueWei : string;
  lo_refillEndpoint : string;
  lo_closeEndpoint : string;
  lo_openedAt : string
}.
Record LocCapStatus := mkCapStatus {
  cs_sessionPctUsed : jsnum;
  cs_spendPeriodPctUsed : option jsnum;
  cs_userBalancePctUsed : option jsnum;
  cs_operatorPoolPctUsed : option jsnum;
  cs_willRefuseNextRefill : bool;
  cs_winddownReason : option string
}.
Record LocRefillSessionInput := mkRefillInput {
  ri_operationId : string;
  ri_requestId : string;
  ri_observedConsumedUnits : option Z;
  ri_maxTotalUnits : Z;
  ri_workloadRequestDigest : string
}.
Record LocRefillSessionResult := mkLocRefilled {
  rf_workId : string;
  rf_requestId : string;
  rf_refillSequence : Z;
  rf_spendAuthorization : string;
  rf_paymentEnvelope : option string;
  rf_expectedValueWei : string;
  rf_fundedValueWei : string;
  rf_capStatus : LocCapStatus
}.
Record LocSessionStatus := mkLocStatus {
  st_operationId : string;
  st_workId : string;
  st_state : string;
  st_fundedValueWei : string;
  st_billedValueWei : string;
  st_refillCount : Z;
  st_capStatus : option LocCapStatus;
  st_actualUnits : option Z;
  st_outcome : option string;
  st_closedAt : option string
}.
Record LocCloseSessionInput := mkCloseInput {
  ci_operationId : string;
  ci_actualUnits : Z;
  ci_outcome : option string;
  ci_settlement : LocSettlementEnvelope
}.
Record LocCloseSessionResult := mkLocClosed {
  cc_operationId : string;
  cc_workId : string;
  cc_actualUnits : Z;
  cc_billedValueWei : string;
  cc_refundWei : string;
  cc_outcome : string;
  cc_closedAt : string
}.
Record LocOpenJobInput := mkOpenJobInput {
  ji_requestId : string;
  ji_capability : string;
  ji_offering : string;
  ji_transport : Transport;
  ji_estimatedUnits : Z;
  ji_maxTotalUnits : option Z;
  ji_routeBinding : LocRouteBinding;
  ji_workloadRequestDigest : string;
  ji_callerPublicKey : string
}.
Record LocOpenJobResult := mkLocJob {
  jo_operationId : string;
  jo_requestId : string;
  jo_workId : string;
  jo_brokerUrl : string;
  jo_transport : Transport;
  jo_workUnit : string;
  jo_routeSnapshot : LocRouteSnapshot;
  jo_spendAuthorization : string;
  jo_paymentEnvelope : option string;
  jo_expectedValueWei : string;
  jo_fundedValueWei : string;
  jo_settleEndpoint : string;
  jo_openedAt : string
}.
Record LocSettleJobInput := mkSettleInput {
  si_operationId : string;
  si_actualUnits : Z;
  si_brokerJobId : string;
  si_workUnit : string;
  si_outcome : string;
  si_settlement : LocSettlementEnvelope
}.
Record LocSettleJobResult := mkLocSettled {
  sj_operationId : string;
  sj_workId : string;
  sj_actualUnits : Z;
  sj_billedValueWei : string;
  sj_refundWei : string;
  sj_outcome : string;
  sj_closedAt : string
}.

Class LocClient := {
  openJob : LocOpenJobInput -> N LocOpenJobResult;
  settleJob : LocSettleJobInput -> N LocSettleJobResult;
  prepareSession : LocPrepareSessionInput -> N LocPrepareSessionResult;
  openSession : LocOpenSessionInput -> N LocOpenSessionResult;
  refillSession : LocRefillSessionInput -> N LocRefillSessionResult;
  getSession : string -> N LocSessionStatus;
  closeSession : LocCloseSessionInput -> N LocCloseSessionResult
}.

(** ** engine/interfaces/paidSessionClient.ts *)

Record PaidSessionOpenRequest := mkOpenRequest {
  or_requestId : string;
  or_route : SelectedWorkerRoute;
  or_descriptorSchema : string;
  or_sessionParams : list (string * json);
  or_estimatedRunwayUnits : Z;
  or_maxTotalUnits : Z
}.
Record PaidSessionGrant := mkGrant {
  gr_id : string;
  gr_operations : list string;
  gr_secret : string;
  gr_expiresAt : string;
  gr_maxUses : option Z
}.
Inductive BalanceStatus : Type := balance_ok | balance_low | balance_exhausted.
#[export] Instance BalanceStatus_eq_dec : EqDecision BalanceStatus.
Proof. solve_decision. Defined.
Record PaidSessionBalance := mkBalance {
  ba_claimedUnits : Z;
  ba_debitedUnits : Z;
  ba_unit : string;
  ba_authorizationId : string;
  ba_authorizationMaxUnits : Z;
  ba_authorizationCapRemainingUnits : Z;
  ba_authorizationReservedValueWei : string;
  ba_cumulativeBilledValueWei : string;
  ba_accountAvailableValueWei : option string;
  ba_accountVersion : option Z;
  ba_runwayUnits : option Z;
  ba_runwaySecondsEstimate : option Z;
  ba_status : BalanceStatus;
  ba_willRefuseNextRefill : bool
}.
Record PaidSessionControl := mkControl {
  co_statusUrl : string;
  co_topupUrl : string;
  co_endUrl : string;
  co_eventsWs : string
}.
Record PaidSessionStreamKeyRequest := mkKeyRequest {
  kr_keyIssueUrl : string;
  kr_grant : PaidSessionGrant;
  kr_requestId : string;
  kr_audience : PublisherMode
}.
Record PaidSessionStreamKeyResult := mkKeyResult {
  kx_requestId : string;
  kx_streamKey : string;
  kx_expiresAt : string
}.
Record PaidSessionOpenResult := mkOpenResult {
  po_opened : LocOpenSessionResult;
  po_gatewaySessionId : string;
  po_brokerSessionId : string;
  po_workId : string;
  po_state : string;
  po_credential : string;
  po_runtimeSchema : string;
  po_runtimePublic : json;
  po_grants : list PaidSessionGrant;
  po_leaseExpiresAt : string;
  po_balance : PaidSessionBalance;
  po_control : PaidSessionControl
}.
Record PaidSessionRecoveryHandle := mkRecoveryHandle {
  rh_operationId : string;
  rh_brokerUrl : string;
  rh_gatewaySessionId : string;
  rh_descriptorSchema : string;
  rh_workUnit : string;
  rh_settlementDomainId : string;
  rh_maxTotalUnits : Z
}.
(** [PaidSessionControlHandle = LocOpenSessionResult | PaidSessionRecoveryHandle] *)
Inductive PaidSessionControlHandle : Type :=
| Opened (o : LocOpenSessionResult)
| Recovered (h : PaidSessionRecoveryHandle).

Record PaidSessionRefillRequest := mkRefillRequest {
  fr_opened : PaidSessionControlHandle;
  fr_brokerSessionId : string;
  fr_credential : string;
  fr_requestId : string;
  fr_observedConsumedUnits : option Z;
  fr_maxTotalUnits : Z
}.
Record PaidSessionRefillResult := mkRefillResult {
  fx_loc : LocRefillSessionResult;
  fx_brokerSessionId : string;
  fx_workId : string;
  fx_leaseExpiresAt : string;
  fx_balance : PaidSessionBalance
}.
Record PaidSessionStatusRequest := mkStatusRequest {
  sr_opened : PaidSessionControlHandle;
  sr_brokerSessionId : string;
  sr_workId : string;
  sr_credential : string
}.
Record PaidSessionStatusResult := mkStatusResult {
  sx_brokerSessionId : string;
  sx_gatewaySessionId : string;
  sx_workId : string;
  sx_state : string;
  sx_runtimeSchema : string;
  sx_runtimePublic : json;
  sx_claimedUnits : Z;
  sx_workUnit : string;
  sx_leaseExpiresAt : string;
  sx_balance : PaidSessionBalance;
  sx_closeReason : option string;
  sx_outputState : OutputState;
  sx_outputStateSince : option string;
  sx_lastFailureCode : option string
}.
Record PaidSessionEndRequest := mkEndRequest {
  er_opened : PaidSessionControlHandle;
  er_gatewaySessionId : string;
  er_brokerSessionId : string;
  er_credential : string;
  er_reason : string
}.
Record PaidSessionEndResult := mkEndResult {
  ex_brokerSessionId : string;
  ex_workId : string;
  ex_state : string;
  ex_closeReason : string;
  ex_settlementSequence : Z;
  ex_actualUnits : Z;
  ex_outcome : string;
  ex_envelope : LocSettlementEnvelope;
  ex_accounting : LocCloseSessionResult
}.

Inductive PaidSessionControlEvent : Type :=
| usage_tick (sequence : Z) (unit_ : string) (claimedTotal debitedUnits : Z)
| balance_event (balance : PaidSessionBalance)
| output_health (outputState : OutputState) (outputStateSince : string) (lastFailureCode : option string)
| session_ended (state closeReason : string)
| session_rebound (rotationGeneration : Z) (predecessorWorkId workId : string).

(** Units of a balance are safe non-negative integers. *)
Definition safe_nat (z : Z) : Prop := 0 <= z <= MAX_SAFE_INTEGER.
Definition safe_opt (o : option Z) : Prop := match o with Some z => safe_nat z | None => True end.
Record balance_ok_units (b : PaidSessionBalance) : Prop := {
  bok_claimed : safe_nat (ba_claimedUnits b);
  bok_debited : safe_nat (ba_debitedUnits b);
  bok_max : safe_nat (ba_authorizationMaxUnits b) /\ 1 <= ba_authorizationMaxUnits b;
  bok_runway : safe_opt (ba_runwayUnits b)
}.

(** What the engine may assume of a session client, whatever the brokers answer:
    every unit count it is handed is a safe non-negative integer, a status or a
    refill is the requested session's, and a settlement names the session that was
    ended and bills exactly the units the envelope was verified for. *)
Class PaidSessionClient := {
  ps_open : PaidSessionOpenRequest -> N PaidSessionOpenResult;
  ps_issueStreamKey : PaidSessionStreamKeyRequest -> N PaidSessionStreamKeyResult;
  ps_status : PaidSessionStatusRequest -> N PaidSessionStatusResult;
  ps_refill : PaidSessionRefillRequest -> N PaidSessionRefillResult;
  ps_end : PaidSessionEndRequest -> N PaidSessionEndResult;
  ps_open_units : forall i n r n', ps_open i n = (Ok r, n') -> balance_ok_units (po_balance r);
  ps_status_units : forall i n r n', ps_status i n = (Ok r, n') ->
    balance_ok_units (sx_balance r) /\ safe_nat (sx_claimedUnits r) /\
    sx_brokerSessionId r = sr_brokerSessionId i /\ sx_workId r = sr_workId i;
  ps_refill_units : forall i n r n', ps_refill i n = (Ok r, n') ->
    balance_ok_units (fx_balance r) /\ fx_brokerSessionId r = fr_brokerSessionId i;
  ps_end_units : forall i n r n', ps_end i n = (Ok r, n') ->
    safe_nat (ex_actualUnits r) /\ safe_nat (ex_settlementSequence r) /\
    ex_brokerSessionId r = er_brokerSessionId i
}.
