(* ===== verification/Directory.v ===== *)
(** * The live-session directory (livepeer/liveSessionDirectory.ts)

    Two in-memory maps from session id and from stream id to the route of a live
    session. *)

From S2P Require Import Prelude Js Types.

Record LiveSessionRoute := mkRoute {
  lv_streamId : string;
  lv_sessionId : string;
  lv_brokerUrl : string;
  lv_brokerRtmpUrl : string;
  lv_streamKey : string;
  lv_hlsPlaybackUrl : string
}.

Record LiveSessionDirectory := mkDirectory {
  routesBySessionId : gmap string LiveSessionRoute;
  routesByStreamId : gmap string LiveSessionRoute
}.

Definition empty_directory : LiveSessionDirectory := mkDirectory ∅ ∅.

Definition dir_record (route : LiveSessionRoute) (t : LiveSessionDirectory) : LiveSessionDirectory :=
  mkDirectory (<[lv_sessionId route := route]> (routesBySessionId t))
              (<[lv_streamId route := route]> (routesByStreamId t)).
Definition dir_get (sessionId : string) (t : LiveSessionDirectory) : option LiveSessionRoute :=
  routesBySessionId t !! sessionId.
Definition dir_getByStreamId (streamId : string) (t : LiveSessionDirectory) : option LiveSessionRoute :=
  routesByStreamId t !! streamId.
Definition dir_remove (sessionId : string) (t : LiveSessionDirectory) : LiveSessionDirectory :=
  match routesBySessionId t !! sessionId with
  | Some route => mkDirectory (delete sessionId (routesBySessionId t))
                              (delete (lv_streamId route) (routesByStreamId t))
  | None => t
  end.

(** The operations, and the directories they build. *)
Inductive dir_op : Type := RecordRoute (route : LiveSessionRoute) | RemoveSession (sessionId : string).
Definition dir_apply (t : LiveSessionDirectory) (o : dir_op) : LiveSessionDirectory :=
  match o with RecordRoute r => dir_record r t | RemoveSession s => dir_remove s t end.
Definition dir_run (ops : list dir_op) : LiveSessionDirectory := foldl dir_apply empty_directory ops.

(** A directory every lookup of which answers with a route for the asked key. *)
Record dir_wf (t : LiveSessionDirectory) : Prop := {
  dir_by_session : map_Forall (fun k r => lv_sessionId r = k) (routesBySessionId t);
  dir_by_stream : map_Forall (fun k r => lv_streamId r = k) (routesByStreamId t)
}.

Lemma dir_apply_wf t o : dir_wf t -> dir_wf (dir_apply t o).
Proof.
  intros [H1 H2]. destruct o as [r|s]; cbn.
  - constructor; cbn; by apply map_Forall_insert_2.
  - unfold dir_remove. case_match; [|done]. constructor; cbn; by apply map_Forall_delete.
Qed.

Lemma dir_run_snoc ops o : dir_run (ops ++ [o]) = dir_apply (dir_run ops) o.
Proof. unfold dir_run. by rewrite foldl_snoc. Qed.
Lemma dir_run_wf ops : dir_wf (dir_run ops).
Proof.
  induction ops as [|o ops IH] using rev_ind; [by constructor|]. rewrite dir_run_snoc. by apply dir_apply_wf.
Qed.

(** The specification of a session lookup, over the history from the latest operation
    back: the latest record of the session, if it was not removed since. *)
Fixpoint latest_route (k : string) (history : list dir_op) : option LiveSessionRoute :=
  match history with
  | [] => None
  | RecordRoute r :: h => if decide (lv_sessionId r = k) then Some r else latest_route k h
  | RemoveSession s :: h => if decide (s = k) then None else latest_route k h
  end.

Lemma dir_get_apply k t o :
  dir_get k (dir_apply t o) =
    match o with
    | RecordRoute r => if decide (lv_sessionId r = k) then Some r else dir_get k t
    | RemoveSession s => if decide (s = k) then None else dir_get k t
    end.
Proof.
  destruct o as [r|s]; unfold dir_get; cbn.
  - destruct (decide _) as [<-|]; [apply lookup_insert_eq|by apply lookup_insert_ne].
  - unfold dir_remove. destruct (routesBySessionId t !! s) eqn:E; cbn; destruct (decide _) as [<-|]; try done.
    + apply lookup_delete_eq.
    + by apply lookup_delete_ne.
Qed.

(** Whatever sequence of records and removals ran, a lookup by session answers
    with the latest route recorded for it and not removed since, and a lookup by
    stream only ever answers with a route of that stream. *)
Lemma directory_lookups_are_keyed ops k :
  dir_get k (dir_run ops) = latest_route k (rev ops) /\
  match dir_getByStreamId k (dir_run ops) with Some r => lv_streamId r = k | None => True end.
Proof.
  split.
  - induction ops as [|o ops IH] using rev_ind; [done|].
    rewrite dir_run_snoc, dir_get_apply, rev_app_distr, IH. by destruct o.
  - destruct (dir_run_wf ops) as [_ H2]. destruct (dir_getByStreamId k (dir_run ops)) as [r|] eqn:E; [|done].
    by apply (H2 k r).
Qed.

(** A stream whose session was replaced becomes unreachable when the old session
    is removed: removal deletes the stream's entry even though it belongs to the new
    session, which is still listed by its session id. *)
Lemma removing_replaced_session_unlists_stream t old new :
  lv_streamId new = lv_streamId old -> lv_sessionId new <> lv_sessionId old ->
  let t' := dir_remove (lv_sessionId old) (dir_record new (dir_record old t)) in
  dir_getByStreamId (lv_streamId new) t' = None /\ dir_get (lv_sessionId new) t' = Some new.
Proof.
  intros Hs Hne. unfold dir_remove, dir_record, dir_get, dir_getByStreamId. cbn.
  rewrite lookup_insert_ne, lookup_insert_eq by done. cbn.
  rewrite Hs, lookup_delete_eq. split; [done|].
  by rewrite lookup_delete_ne, lookup_insert_eq by done.
Qed.

Lemma removing_replaced_session_unlists_stream_witness :
  dir_getByStreamId "st" (dir_remove "s1"
    (dir_record (mkRoute "st" "s2" "b" "r" "k" "h") (dir_record (mkRoute "st" "s1" "b" "r" "k" "h") empty_directory)))
  = None.
Proof.
  apply (removing_replaced_session_unlists_stream empty_directory
    (mkRoute "st" "s1" "b" "r" "k" "h") (mkRoute "st" "s2" "b" "r" "k" "h")).
  - reflexivity.
  - discriminate.
Defined.
