(* ===== verification/SessionStore.v ===== *)
(** * The paid-session store (livepeer/paidSessionStore.ts) and the running gateway

    [world] is what one gateway instance sees: the shared tables, the network, its
    own session directory.  Every await of the instance lets the rest of the system
    run: [others] is what the other instances and the passing of time do to the
    tables before the instance's next statement.  The store pairs an operation with
    the claim that its owner may present. *)

From S2P Require Import Prelude Js Types Wire Http Interfaces Database OperationRepo Samples.
From S2P Require Import OperationLease MediaRepos Directory.
Open Scope Z_scope.

Record world := mkWorld {
  w_db : db;
  w_net : net;
  w_dir : LiveSessionDirectory;
  w_tick : nat
}.
#[export] Instance world_eta : RecEta world := fun w =>
  mkWorld (w_db w) (w_net w) (w_dir w) (w_tick w).

Definition W (A : Type) : Type := M world exn A.

(** The environment of an instance, indexed by the awaits it has made. *)
Class Environment `{Cipher : OperationSecretCipher entropy} := {
  others : nat -> db -> db;
  others_steps : forall n d, rtc repo_step d (others n d);
  locks : nat -> gset string;
  entropy_at : nat -> entropy;
  clock : nat -> Z;
  random_hex : nat -> nat -> string;
  random_uuid : nat -> string
}.

Section world.
Context `{Env : Environment}.

(** [await] of a statement: the others run, then the statement. *)
Definition query {A} (t : nat -> tx A) : W A := fun w =>
  let n := w_tick w in
  let '(r, d) := exec (t n) (others n (w_db w)) in
  (r, w <| w_db := d |> <| w_tick := S n |>).

(** A query that only reads. *)
Definition query_read {A} (f : db -> A) : W A := query (fun _ d => Ok (f d, d)).

(** [await] of a call of a client. *)
Definition call {A} (m : N A) : W A := fun w =>
  let '(r, n) := m (w_net w) in (r, w <| w_net := n |> <| w_tick := S (w_tick w) |>).

(** [new Date()], and fresh identifiers *)
Definition now_ : W Z := fun w => (Ok (clock (w_tick w)), w).
Definition fresh_hex (bytes_ : nat) : W string := fun w =>
  (Ok (random_hex (w_tick w) bytes_), w <| w_tick := S (w_tick w) |>).
Definition fresh_uuid : W string := fun w =>
  (Ok (random_uuid (w_tick w)), w <| w_tick := S (w_tick w) |>).
Definition newRequestId : W string := do! h <- fresh_hex 8; mret_ ("req_" +:+ h).
Definition directory (f : LiveSessionDirectory -> LiveSessionDirectory) : W unit :=
  mmodify (fun w => w <| w_dir := f (w_dir w) |>).

(** ** The store *)

Record OwnedPaidSession := mkOwned {
  ow_operation : PaidOperation;
  ow_claim : PaidOperationClaim
}.

Record PaidSessionStoreOptions := mkStoreOptions {
  so_owner : string;
  so_leaseDurationMs : Z
}.

Definition claimFor (operation : PaidOperation) (expectedOwner : string) : result exn PaidOperationClaim :=
  let bad := PlainError "paid session is missing durable recovery state" in
  throw_if (op_kind operation !=? session) || negb (truthy (op_liveStreamId operation)) ||
           negb (is_present (op_sessionRuntime operation)) ||
           (op_recoveryOwner operation !=? Some expectedOwner) with bad ;;
  match op_recoveryLeaseExpiresAt operation with
  | Some l => Ok (mkClaim expectedOwner (op_lifecycleVersion operation) (DateMs l))
  | None => Err bad
  end.

Definition owned (operation : PaidOperation) (expectedOwner : string) : result exn OwnedPaidSession :=
  let? claim := claimFor operation expectedOwner in Ok (mkOwned operation claim).

Definition valid_options (o : PaidSessionStoreOptions) : bool :=
  nonempty (so_owner o) && (str_len (so_owner o) <=? 255) &&
  safe_integer (so_leaseDurationMs o) && (1000 <=? so_leaseDurationMs o).

Context (options : PaidSessionStoreOptions).

Definition leaseAfter (now : Z) : jsdate := new_date (now + so_leaseDurationMs options).

(** The result of a repository call, paired with its claim. *)
Definition own_opt (o : option PaidOperation) : W (option OwnedPaidSession) :=
  match o with
  | Some op => do! x <- mlift (owned op (so_owner options)); mret_ (Some x)
  | None => mret_ None
  end.

Fixpoint own_all (ops : list PaidOperation) : result exn (list OwnedPaidSession) :=
  match ops with
  | [] => Ok []
  | op :: ops' => let? x := owned op (so_owner options) in let? xs := own_all ops' in Ok (x :: xs)
  end.

Definition store_create (value : NewPaidOperation) (secrets : PaidOperationSecrets) : W OwnedPaidSession :=
  do! now <- now_;
  run! mlift (refuse_if ((new_kind value !=? session) || negb (truthy (new_liveStreamId value)) ||
                         negb (is_present (new_sessionRuntime value)))
                (PlainError "paid session create requires live recovery state"));
  do! op <- query (fun n => insertWithSecrets (entropy_at n) value secrets (so_owner options) (leaseAfter now));
  mlift (owned op (so_owner options)).

Definition store_claimRecoverable (limit : Z) : W (list OwnedPaidSession) :=
  do! now <- now_;
  do! ops <- query (fun n => claimRecoverable (locks n) session (so_owner options) now (leaseAfter now) limit);
  mlift (own_all ops).

Definition store_claimByLiveStreamId (liveStreamId : string) : W (option OwnedPaidSession) :=
  do! now <- now_;
  do! op <- query (fun n => claimSessionByLiveStreamId (locks n) liveStreamId (so_owner options) now (leaseAfter now));
  own_opt op.

Definition store_byLiveStreamId (liveStreamId : string) : W (option PaidOperation) :=
  query_read (byLiveStreamId liveStreamId).
Definition store_byBrokerSessionId (brokerSessionId : string) : W (option PaidOperation) :=
  query_read (byBrokerSessionId brokerSessionId).
Definition store_requestWinddown (liveStreamId reason : string) : W (option PaidOperation) :=
  query (fun _ => requestSessionWinddown liveStreamId reason).
Definition store_readSecrets (value : OwnedPaidSession) : W (option PaidOperationSecrets) :=
  query (fun _ => readSecrets (op_id (ow_operation value)) (ow_claim value)).
Definition store_putSecrets (value : OwnedPaidSession) (secrets : PaidOperationSecrets) : W bool :=
  query (fun n => putSecrets (entropy_at n) (op_id (ow_operation value)) (ow_claim value) secrets).
Definition store_recordProgress (value : OwnedPaidSession) (p : PaidOperationProgress)
    : W (option OwnedPaidSession) :=
  do! op <- query (fun _ => recordProgress (op_id (ow_operation value)) (ow_claim value) p); own_opt op.
Definition store_recordTerminal (value : OwnedPaidSession) (t : TerminalValue) : W bool :=
  query (fun _ => recordTerminal (op_id (ow_operation value)) (ow_claim value) t).
Definition store_recordLiveTerminal (value : OwnedPaidSession) (t : LiveTerminalValue) : W bool :=
  query (fun _ => recordLiveTerminal (op_id (ow_operation value)) (ow_claim value) t).
Definition store_renew (value : OwnedPaidSession) : W (option OwnedPaidSession) :=
  do! now <- now_;
  do! op <- query (fun _ => renewClaim (op_id (ow_operation value)) (ow_claim value) (leaseAfter now));
  own_opt op.
Definition store_release (value : OwnedPaidSession) : W bool :=
  query (fun _ => releaseClaim (op_id (ow_operation value)) (ow_claim value)).

(** ** Computations that act on the tables only through the repositories

    [acts m]: whatever [m] does to the tables, the system could have done with
    repository transactions.  The class closes under the monad, so a service that
    is built from store calls has it by construction.  A computation may carry more
    state than the world, such as the local variables a handler reads. *)
Definition acts_on {S A} (tables : S -> db) (m : M S exn A) : Prop :=
  forall s r s', m s = (r, s') -> rtc repo_step (tables s) (tables s').

Section generic.
Context {S : Type} (tables : S -> db).

Lemma acts_ret {A} (a : A) : acts_on tables (mret_ a).
Proof. intros w r w' [= _ <-]. done. Qed.
Lemma acts_throw {A} e : acts_on (A := A) tables (mthrow e).
Proof. intros w r w' [= _ <-]. done. Qed.
Lemma acts_lift {A} (x : result exn A) : acts_on tables (mlift x).
Proof. intros w r w' [= _ <-]. done. Qed.
Lemma acts_get {A} (f : S -> A) : acts_on tables (mget f).
Proof. intros w r w' [= _ <-]. done. Qed.
Lemma acts_bind {A B} (m : M S exn A) (k : A -> M S exn B) :
  acts_on tables m -> (forall a, acts_on tables (k a)) -> acts_on tables (mbind_ m k).
Proof.
  intros Hm Hk w r w'. unfold mbind_. destruct (m w) as [[a|e] w1] eqn:E.
  - intros H. etrans; [by eapply Hm|by eapply Hk].
  - intros [= _ <-]. by eapply Hm.
Qed.
Lemma acts_catch {A} (m : M S exn A) h :
  acts_on tables m -> (forall e, acts_on tables (h e)) -> acts_on tables (mcatch m h).
Proof.
  intros Hm Hh w r w'. unfold mcatch. destruct (m w) as [[a|e] w1] eqn:E.
  - intros [= _ <-]. by eapply Hm.
  - intros H. etrans; [by eapply Hm|by eapply Hh].
Qed.
Lemma acts_finally {A} (m : M S exn A) f :
  acts_on tables m -> acts_on tables f -> acts_on tables (mfinally m f).
Proof.
  intros Hm Hf w r w'. unfold mfinally. destruct (m w) as [x w1] eqn:E.
  destruct (f w1) as [[u|e] w2] eqn:E2; intros [= _ <-]; (etrans; [by eapply Hm|by eapply Hf]).
Qed.
Lemma acts_fold {A B} (f : B -> A -> M S exn B) b l :
  (forall b a, acts_on tables (f b a)) -> acts_on tables (mfold f b l).
Proof.
  intros Hf. revert b. induction l as [|x l IH]; intros b; cbn; [apply acts_ret|]. by apply acts_bind.
Qed.
Lemma acts_if {A} (b : bool) (m k : M S exn A) :
  acts_on tables m -> acts_on tables k -> acts_on tables (if b then m else k).
Proof. by destruct b. Qed.
Lemma acts_option {A B} (o : option A) (m : A -> M S exn B) (k : M S exn B) :
  (forall a, acts_on tables (m a)) -> acts_on tables k ->
  acts_on tables (match o with Some a => m a | None => k end).
Proof. destruct o; auto. Qed.
End generic.

Abbreviation acts := (acts_on w_db).

Lemma acts_now : acts now_.
Proof. intros w r w' [= _ <-]. done. Qed.
Lemma acts_call {A} (m : N A) : acts (call m).
Proof. intros w r w'. unfold call. destruct (m (w_net w)). intros [= _ <-]. done. Qed.
Lemma acts_fresh_hex k : acts (fresh_hex k).
Proof. intros w r w' [= _ <-]. done. Qed.
Lemma acts_fresh_uuid : acts fresh_uuid.
Proof. intros w r w' [= _ <-]. done. Qed.
Lemma acts_directory f : acts (directory f).
Proof. intros w r w' [= _ <-]. done. Qed.

Lemma acts_query {A} (t : nat -> tx A) :
  (forall n d a d', t n d = Ok (a, d') -> rtc repo_step d d') -> acts (query t).
Proof.
  intros Ht w r w'. unfold query, exec.
  destruct (t (w_tick w) (others (w_tick w) (w_db w))) as [[a d]|e] eqn:E; intros [= _ <-]; cbn.
  - etrans; [apply others_steps|by eapply Ht].
  - apply others_steps.
Qed.
Lemma query_Ok {A} (t : nat -> tx A) w x w' :
  query t w = (Ok x, w') ->
  exists d, rtc repo_step (w_db w) d /\ t (w_tick w) d = Ok (x, w_db w').
Proof.
  unfold query, exec. destruct (t _ _) as [[y d']|e] eqn:E; [|done]. intros [= <- <-].
  eexists. split; [apply others_steps|exact E].
Qed.
Lemma acts_query_read {A} (f : db -> A) : acts (query_read f).
Proof. apply acts_query. intros n d a d' [= _ <-]. done. Qed.
Lemma acts_query_media {A} (t : nat -> tx A) : (forall n, media_only (t n)) -> acts (query t).
Proof.
  intros Ht. apply acts_query. intros n d a d' H. apply Ht in H as [H1 H2].
  apply rtc_once. by apply step_media.
Qed.

Lemma acts_own_opt o : acts (own_opt o).
Proof. destruct o; cbn; [apply acts_bind; [apply acts_lift|intros; apply acts_ret]|apply acts_ret]. Qed.

Lemma acts_newRequestId : acts newRequestId.
Proof. apply acts_bind; [apply acts_fresh_hex|intros; apply acts_ret]. Qed.

End world.

Abbreviation acts := (acts_on w_db).

#[export] Hint Resolve acts_ret acts_throw acts_lift acts_get acts_bind acts_catch acts_finally acts_fold acts_if acts_option
  acts_now acts_call acts_fresh_hex acts_fresh_uuid acts_directory acts_query_read acts_own_opt
  acts_newRequestId : gateway.

Section store_acts.
Context `{Env : Environment} (options : PaidSessionStoreOptions).

(** Every method of the store acts through the repository. *)
Lemma store_create_acts v s : acts (store_create options v s).
Proof. unfold store_create. eauto 10 using acts_query, rtc_once, step_insertWithSecrets with gateway. Qed.
Lemma store_claimRecoverable_acts k : acts (store_claimRecoverable options k).
Proof. unfold store_claimRecoverable. eauto 10 using acts_query, rtc_once, step_claimRecoverable with gateway. Qed.
Lemma store_claimByLiveStreamId_acts k : acts (store_claimByLiveStreamId options k).
Proof. unfold store_claimByLiveStreamId. eauto 10 using acts_query, rtc_once, step_claimSession with gateway. Qed.
Lemma store_requestWinddown_acts k r : acts (store_requestWinddown k r).
Proof. unfold store_requestWinddown. eauto 10 using acts_query, rtc_once, step_winddown with gateway. Qed.
Lemma store_readSecrets_acts v : acts (store_readSecrets v).
Proof. unfold store_readSecrets. eauto 10 using acts_query, rtc_once, step_readSecrets with gateway. Qed.
Lemma store_putSecrets_acts v s : acts (store_putSecrets v s).
Proof. unfold store_putSecrets. eauto 10 using acts_query, rtc_once, step_putSecrets with gateway. Qed.
Lemma store_recordProgress_acts v p : acts (store_recordProgress options v p).
Proof. unfold store_recordProgress. eauto 10 using acts_query, rtc_once, step_progress with gateway. Qed.
Lemma store_recordTerminal_acts v p : acts (store_recordTerminal v p).
Proof. unfold store_recordTerminal. eauto 10 using acts_query, rtc_once, step_terminal with gateway. Qed.
Lemma store_recordLiveTerminal_acts v p : acts (store_recordLiveTerminal v p).
Proof. unfold store_recordLiveTerminal. eauto 10 using acts_query, rtc_once, step_liveTerminal with gateway. Qed.
Lemma store_renew_acts v : acts (store_renew options v).
Proof. unfold store_renew. eauto 10 using acts_query, rtc_once, step_renew with gateway. Qed.
Lemma store_release_acts v : acts (store_release v).
Proof. unfold store_release. eauto 10 using acts_query, rtc_once, step_release with gateway. Qed.

End store_acts.

#[export] Hint Resolve store_create_acts store_claimRecoverable_acts store_claimByLiveStreamId_acts
  store_requestWinddown_acts store_readSecrets_acts store_putSecrets_acts store_recordProgress_acts
  store_recordTerminal_acts store_recordLiveTerminal_acts store_renew_acts store_release_acts : gateway.
