(* ===== verification/LocClient.v ===== *)
(** * The LOC client (livepeer/locClient.ts)

    Requests to the clearinghouse and the checks on its answers.  [transport] sends
    one request and decodes the answer with the given schema; an answer is accepted
    only if it is about the operation, the units, the route and the endpoints that
    were asked for. *)

From S2P Require Import Prelude Js Types Wire Http Interfaces RouteProtocol.
Open Scope Z_scope.

(** ** engine/interfaces/locTransport.ts *)

Record LocRequest (A : Type) := mkLocRequest {
  lq_method : string;
  lq_path : string;
  lq_schema : decoder A;
  lq_body : option json;
  lq_idempotencyKey : option string
}.
Arguments mkLocRequest {A}.
Arguments lq_method {A}.
Arguments lq_path {A}.
Arguments lq_schema {A}.
Arguments lq_body {A}.
Arguments lq_idempotencyKey {A}.

Class LocTransport := transport_request : forall A, LocRequest A -> N A.
Arguments transport_request {_ A}.

Definition loc_error (code : string) : exn := LocTransportError (mkLocError code None None None false None).
Definition invalidRequest : exn := loc_error "loc_request_invalid".
Definition invalidResponse : exn := loc_error "loc_response_invalid".

Section schemas.
Context `{Plat : Platform}.

(** ** Schemas *)

Definition uint64_text (s : string) : bool :=
  match decimal_value s with Some z => z <=? UINT64_MAX | None => false end.
Definition z_uint64 : decoder string := z_refined uint64_text.
Definition z_positive_uint64 : decoder string := z_refined (fun s => uint64_text s && (s !=? "0")).
Definition weiDecimal : decoder string := z_refined canonical_decimal.
Definition z_fingerprint : decoder string := z_refined fingerprint_regex.
Definition z_domain : decoder string := z_refined domain_regex.
Definition z_uuid : decoder string := z_refined is_uuid.
Definition http_url (s : string) : bool :=
  is_url s &&
  match new_URL s with
  | Some u => ((url_protocol u ==? "http:") || (url_protocol u ==? "https:")) &&
              (url_username u ==? "") && (url_password u ==? "")
  | None => false
  end.
Definition httpUrl : decoder string := z_refined http_url.
Definition z_literal (s : string) : decoder string := z_refined (fun t => t ==? s).
(** [dec.nullable()] on an optional property: absent or null is [None]. *)
Definition nullish {A} (fields : list (string * json)) (k : string) (dec : decoder A) : option (option A) :=
  match assoc k fields with
  | None | Some JNull => Some None
  | Some j => match dec j with Some a => Some (Some a) | None => None end
  end.
(** [dec.nullable()], required. *)
Definition nullable {A} (fields : list (string * json)) (k : string) (dec : decoder A) : option (option A) :=
  match assoc k fields with
  | None => None
  | Some JNull => Some None
  | Some j => match dec j with Some a => Some (Some a) | None => None end
  end.

Definition routeBindingWire : decoder LocRouteBinding := z_object (fun f =>
  _ ← strict ["quote_id"; "quote_version"; "constraint_fingerprint"; "route_fingerprint"; "settlement_domain_id"] f;
  quoteId ← field f "quote_id" z_text;
  quoteVersion ← field f "quote_version" z_positive_uint64;
  constraintFingerprint ← field f "constraint_fingerprint" z_fingerprint;
  routeFingerprint ← field f "route_fingerprint" z_fingerprint;
  settlementDomainId ← field f "settlement_domain_id" z_domain;
  Some (mkBinding quoteId quoteVersion constraintFingerprint routeFingerprint settlementDomainId)).

Definition binding_json (b : LocRouteBinding) : json :=
  JObj [("quote_id", JStr (rb_quoteId b)); ("quote_version", JStr (rb_quoteVersion b));
        ("constraint_fingerprint", JStr (rb_constraintFingerprint b));
        ("route_fingerprint", JStr (rb_routeFingerprint b));
        ("settlement_domain_id", JStr (rb_settlementDomainId b))].

(** [routeSnapshotWire] with its nested schemas; the decoded object keeps its
    properties, and [mapRouteSnapshot] reads them. *)
Definition settlementKeyWire : decoder unit := z_object (fun f =>
  _ ← strict ["public_key"; "not_before"; "expires_at"; "introduced_in_publication_seq"] f;
  _ ← field f "public_key" z_text; _ ← field f "not_before" z_text; _ ← field f "expires_at" z_text;
  _ ← field f "introduced_in_publication_seq" z_uint64; Some tt).
Definition estimatorWire : decoder unit := z_object (fun f =>
  _ ← strict ["id"; "rounding"; "exactness"; "package"; "fixtures"] f;
  _ ← field f "id" z_text; _ ← field f "rounding" z_text; _ ← field f "exactness" z_text;
  _ ← nullish f "package" z_text; _ ← field f "fixtures" z_text; Some tt).

Record RouteSnapshotWire := mkSnapshotWire {
  rw_broker_url : string;
  rw_eth_address : string;
  rw_capability : string;
  rw_offering : string;
  rw_protocol : string;
  rw_work_unit : string;
  rw_price_per_work_unit_wei : string;
  rw_units_per_price : string;
  rw_binding : LocRouteBinding;
  rw_settlement_keys : json;
  rw_work_unit_estimator : option json;
  rw_job : option json;
  rw_session : option json;
  rw_extra : option json;
  rw_value : json
}.

Definition routeSnapshotWire : decoder RouteSnapshotWire := z_object (fun f =>
  _ ← strict ["schema_version"; "broker_url"; "eth_address"; "capability"; "offering"; "protocol";
              "work_unit"; "price_per_work_unit_wei"; "units_per_price"; "quote_id"; "quote_version";
              "constraint_fingerprint"; "route_fingerprint"; "settlement_domain_id"; "settlement_keys";
              "work_unit_estimator"; "job"; "session"; "extra"] f;
  _ ← field f "schema_version" (z_literal "route-snapshot/v1");
  brokerUrl ← field f "broker_url" httpUrl;
  ethAddress ← field f "eth_address" z_text;
  capability ← field f "capability" z_text;
  offering ← field f "offering" z_text;
  protocol ← field f "protocol" (z_refined (fun s => (s ==? "paid-job/v1") || (s ==? "paid-session/v1")));
  workUnit ← field f "work_unit" z_text;
  price ← field f "price_per_work_unit_wei" weiDecimal;
  units ← field f "units_per_price" z_positive_uint64;
  quoteId ← field f "quote_id" z_text;
  quoteVersion ← field f "quote_version" z_positive_uint64;
  constraintFingerprint ← field f "constraint_fingerprint" z_fingerprint;
  routeFingerprint ← field f "route_fingerprint" z_fingerprint;
  domain ← field f "settlement_domain_id" z_domain;
  _ ← field f "settlement_keys" (z_array 1 settlementKeyWire);
  keys ← assoc "settlement_keys" f;
  _ ← nullish f "work_unit_estimator" estimatorWire;
  estimator ← nullish f "work_unit_estimator" z_json;
  job ← nullish f "job" z_json;
  session ← nullish f "session" z_json;
  Some {| rw_broker_url := brokerUrl; rw_eth_address := ethAddress; rw_capability := capability;
          rw_offering := offering; rw_protocol := protocol; rw_work_unit := workUnit;
          rw_price_per_work_unit_wei := price; rw_units_per_price := units;
          rw_binding := mkBinding quoteId quoteVersion constraintFingerprint routeFingerprint domain;
          rw_settlement_keys := keys; rw_work_unit_estimator := estimator; rw_job := job;
          rw_session := session; rw_extra := assoc "extra" f; rw_value := JObj f |}).

Definition commonOpen_keys : list string :=
  ["request_id"; "work_id"; "broker_url"; "route_snapshot"; "spend_authorization"; "payment_envelope";
   "accounting_mode"; "expected_value_wei"; "funded_value_wei"; "opened_at"].
Record CommonOpen := mkCommonOpen {
  co_request_id : string;
  co_work_id : string;
  co_broker_url : string;
  co_route_snapshot : RouteSnapshotWire;
  co_spend_authorization : string;
  co_payment_envelope : option string;
  co_expected_value_wei : string;
  co_funded_value_wei : string;
  co_opened_at : string
}.
Definition commonOpen (f : list (string * json)) : option CommonOpen :=
  requestId ← field f "request_id" z_text;
  workId ← field f "work_id" z_text;
  brokerUrl ← field f "broker_url" httpUrl;
  snapshot ← field f "route_snapshot" routeSnapshotWire;
  spend ← field f "spend_authorization" z_text;
  payment ← nullish f "payment_envelope" z_text;
  _ ← field f "accounting_mode" (z_literal "wholesale_account");
  expected ← field f "expected_value_wei" weiDecimal;
  funded ← field f "funded_value_wei" weiDecimal;
  openedAt ← field f "opened_at" z_text;
  Some (mkCommonOpen requestId workId brokerUrl snapshot spend payment expected funded openedAt).

Definition prepareSessionWire : decoder LocPrepareSessionResult := z_object (fun f =>
  _ ← strict ["gateway_session_id"; "route_binding"; "broker_url"; "preparation_token"; "expires_at"] f;
  gatewaySessionId ← field f "gateway_session_id" z_uuid;
  binding ← field f "route_binding" routeBindingWire;
  brokerUrl ← field f "broker_url" httpUrl;
  token ← field f "preparation_token" z_text;
  expiresAt ← field f "expires_at" z_text;
  Some (mkPrepared gatewaySessionId binding brokerUrl token expiresAt)).

Record JobOpenWire := mkJobOpenWire {
  jw_common : CommonOpen;
  jw_job_id : string;
  jw_transport : Transport;
  jw_work_unit : string;
  jw_settle_endpoint : string
}.
Definition jobOpenWire : decoder JobOpenWire := z_object (fun f =>
  _ ← strict (commonOpen_keys ++ ["job_id"; "protocol"; "transport"; "work_unit"; "settle_endpoint"]) f;
  common ← commonOpen f;
  jobId ← field f "job_id" z_uuid;
  _ ← field f "protocol" (z_literal "paid-job/v1");
  transport ← field f "transport" (z_enum JOB_TRANSPORTS);
  workUnit ← field f "work_unit" z_text;
  settle ← field f "settle_endpoint" z_text;
  Some (mkJobOpenWire common jobId transport workUnit settle)).

Record SessionOpenWire := mkSessionOpenWire {
  sw_common : CommonOpen;
  sw_session_id : string;
  sw_session_axes : option json;
  sw_refill_endpoint : string;
  sw_close_endpoint : string
}.
Definition sessionOpenWire : decoder SessionOpenWire := z_object (fun f =>
  _ ← strict (commonOpen_keys ++ ["session_id"; "protocol"; "session"; "refill_endpoint"; "close_endpoint"]) f;
  common ← commonOpen f;
  sessionId ← field f "session_id" z_uuid;
  _ ← field f "protocol" (z_literal "paid-session/v1");
  refill ← field f "refill_endpoint" z_text;
  close ← field f "close_endpoint" z_text;
  Some (mkSessionOpenWire common sessionId (assoc "session" f) refill close)).

(** [/^0x[0-9a-fA-F]{130}$/] *)
Definition signature_regex (s : string) : bool :=
  startsWith "0x" s && all_chars is_hex (drop 2 s) && Nat.eqb (String.length s) 132.

Definition settlementEnvelopeWire : decoder LocSettlementEnvelope := z_object (fun f =>
  _ ← strict ["payload"; "signature"] f;
  payload ← field f "payload" z_record;
  signature ← field f "signature" (z_object (fun g =>
    _ ← strict ["algorithm"; "canonicalization"; "value"] g;
    _ ← field g "algorithm" (z_literal "secp256k1");
    _ ← field g "canonicalization" (z_literal "jcs");
    field g "value" (z_refined signature_regex)));
  Some (mkEnvelope payload signature)).
Definition envelope_json (e : LocSettlementEnvelope) : json :=
  JObj [("payload", JObj (en_payload e));
        ("signature", JObj [("algorithm", JStr "secp256k1"); ("canonicalization", JStr "jcs");
                            ("value", JStr (en_signature e))])].

Definition settleJobWire : decoder LocSettleJobResult := z_object (fun f =>
  _ ← strict ["job_id"; "work_id"; "actual_units"; "billed_value_wei"; "refund_wei"; "outcome";
              "closed_at"; "cap_status"] f;
  jobId ← field f "job_id" z_uuid;
  workId ← field f "work_id" z_text;
  units ← field f "actual_units" z_nonneg;
  billed ← field f "billed_value_wei" weiDecimal;
  refund ← field f "refund_wei" weiDecimal;
  outcome ← field f "outcome" z_text;
  closedAt ← field f "closed_at" z_text;
  Some (mkLocSettled jobId workId units billed refund outcome closedAt)).

(** [z.number().min(0).max(1)] *)
Definition z_fraction : decoder jsnum := fun j =>
  match j with
  | JNum (NInt z) => if (0 <=? z) && (z <=? 1) then Some (NInt z) else None
  | JNum (NFrac n d) => if (0 <=? n) && (n <=? Zpos d) then Some (NFrac n d) else None
  | _ => None
  end.
Definition capStatusWire : decoder LocCapStatus := z_object (fun f =>
  _ ← strict ["session_pct_used"; "spend_period_pct_used"; "user_balance_pct_used";
              "operator_pool_pct_used"; "will_refuse_next_refill"; "winddown_reason"] f;
  session ← field f "session_pct_used" z_fraction;
  spend ← nullable f "spend_period_pct_used" z_fraction;
  user ← nullable f "user_balance_pct_used" z_fraction;
  pool ← nullable f "operator_pool_pct_used" z_fraction;
  refuse ← field f "will_refuse_next_refill" z_boolean;
  reason ← nullable f "winddown_reason" z_string;
  Some (mkCapStatus session spend user pool refuse reason)).

Definition refillSessionWire : decoder LocRefillSessionResult := z_object (fun f =>
  _ ← strict ["work_id"; "request_id"; "refill_seq"; "spend_authorization"; "payment_envelope";
              "accounting_mode"; "expected_value_wei"; "funded_value_wei"; "cap_status"] f;
  workId ← field f "work_id" z_text;
  requestId ← field f "request_id" z_text;
  seq ← field f "refill_seq" z_nonneg;
  spend ← field f "spend_authorization" z_text;
  payment ← nullish f "payment_envelope" z_text;
  _ ← field f "accounting_mode" (z_literal "wholesale_account");
  expected ← field f "expected_value_wei" weiDecimal;
  funded ← field f "funded_value_wei" weiDecimal;
  cap ← field f "cap_status" capStatusWire;
  Some (mkLocRefilled workId requestId seq spend payment expected funded cap)).

Definition sessionStatusWire : decoder LocSessionStatus := z_object (fun f =>
  _ ← strict ["session_id"; "work_id"; "capability"; "offering"; "protocol"; "state"; "estimated_units";
              "max_total_units"; "funded_value_wei"; "billed_value_wei"; "refill_count"; "cap_status";
              "opened_at"; "closed_at"; "actual_units"; "outcome"] f;
  sessionId ← field f "session_id" z_uuid;
  workId ← field f "work_id" z_text;
  _ ← field f "capability" z_text;
  _ ← field f "offering" z_text;
  _ ← field f "protocol" (z_literal "paid-session/v1");
  state ← field f "state" z_text;
  _ ← field f "estimated_units" z_positive;
  _ ← field f "max_total_units" z_positive;
  funded ← field f "funded_value_wei" weiDecimal;
  billed ← field f "billed_value_wei" weiDecimal;
  refills ← field f "refill_count" z_nonneg;
  cap ← nullable f "cap_status" capStatusWire;
  _ ← field f "opened_at" z_text;
  closedAt ← nullable f "closed_at" z_string;
  units ← nullable f "actual_units" z_nonneg;
  outcome ← nullable f "outcome" z_string;
  Some (mkLocStatus sessionId workId state funded billed refills cap units outcome closedAt)).

Definition closeSessionWire : decoder LocCloseSessionResult := z_object (fun f =>
  _ ← strict ["session_id"; "work_id"; "actual_units"; "billed_value_wei"; "refund_wei"; "outcome";
              "closed_at"] f;
  sessionId ← field f "session_id" z_uuid;
  workId ← field f "work_id" z_text;
  units ← field f "actual_units" z_nonneg;
  billed ← field f "billed_value_wei" weiDecimal;
  refund ← field f "refund_wei" weiDecimal;
  outcome ← field f "outcome" z_text;
  closedAt ← field f "closed_at" z_text;
  Some (mkLocClosed sessionId workId units billed refund outcome closedAt)).

End schemas.

(** ** JSON comparison *)

Fixpoint isJsonValue (value : json) : bool :=
  match value with
  | JNull | JStr _ | JBool _ => true
  | JNum n => isFinite n
  | JArr l => forallb isJsonValue l
  | JObj fields => forallb (fun kv => isJsonValue (snd kv)) fields
  end.

Definition jsonValue (value : option json) : result exn json :=
  match value with
  | Some j => if isJsonValue j then Ok j else Err invalidResponse
  | None => Err invalidResponse
  end.

(** Objects are equal when they have the same keys with equal values, whatever the
    order; a JSON object has each key once. *)
Fixpoint sameJson (left right : json) {struct left} : bool :=
  match left, right with
  | JNull, JNull => true
  | JBool a, JBool b => Bool.eqb a b
  | JStr a, JStr b => a ==? b
  | JNum a, JNum b => num_eqb a b
  | JArr l, JArr r =>
      (fix each (l r : list json) : bool :=
         match l, r with
         | [], [] => true
         | x :: l', y :: r' => sameJson x y && each l' r'
         | _, _ => false
         end) l r
  | JObj l, JObj r =>
      Nat.eqb (length l) (length r) &&
      (fix each (l : list (string * json)) : bool :=
         match l with
         | [] => true
         | (k, v) :: l' => match assoc k r with Some w => sameJson v w | None => false end && each l'
         end) l
  | _, _ => false
  end.

(** [sameJson] on two session axes: the schema is compared as JSON, the other
    properties are strings and numbers. *)
Definition same_opt_json (a b : option json) : bool :=
  match a, b with
  | Some a, Some b => sameJson a b
  | None, None => true
  | _, _ => false
  end.
Definition same_opt_num (a b : option jsnum) : bool :=
  match a, b with
  | Some a, Some b => num_eqb a b
  | None, None => true
  | _, _ => false
  end.
Definition same_axes (a : PaidSessionAxes) (b : option PaidSessionAxes) : bool :=
  match b with
  | None => false
  | Some b =>
      (ax_descriptorSchema a ==? ax_descriptorSchema b) && (ax_attachment a ==? ax_attachment b) &&
      (ax_metering a ==? ax_metering b) && (ax_refill a ==? ax_refill b) &&
      (hb_intervalSeconds (ax_heartbeat a) =? hb_intervalSeconds (ax_heartbeat b)) &&
      (hb_missedThreshold (ax_heartbeat a) =? hb_missedThreshold (ax_heartbeat b)) &&
      (le_policy (ax_lease a) ==? le_policy (ax_lease b)) &&
      (le_maxSeconds (ax_lease a) ==? le_maxSeconds (ax_lease b)) &&
      same_opt_num (ax_toleranceBandPct a) (ax_toleranceBandPct b) &&
      (ax_runwayIncrementUnits a ==? ax_runwayIncrementUnits b) &&
      same_opt_json (ax_sessionParamsSchema a) (ax_sessionParamsSchema b)
  end.

Definition sameBinding (l r : LocRouteBinding) : bool :=
  (rb_quoteId l ==? rb_quoteId r) && (rb_quoteVersion l ==? rb_quoteVersion r) &&
  (rb_constraintFingerprint l ==? rb_constraintFingerprint r) &&
  (rb_routeFingerprint l ==? rb_routeFingerprint r) &&
  (rb_settlementDomainId l ==? rb_settlementDomainId r).

Section client.
Context `{Plat : Platform}.

(** ** Bindings *)

(** [Buffer.from(value).toString("hex")] *)
Definition hex_byte (b : Byte.byte) : string :=
  let n := N.to_nat (Byte.to_N b) in
  let digit k := Ascii.ascii_of_nat (if Nat.ltb k 10 then 48 + k else 87 + k) in
  String (digit (n / 16)%nat) (String (digit (n mod 16)%nat) EmptyString).
Fixpoint hex_string (l : bytes) : string :=
  match l with [] => EmptyString | b :: l' => hex_byte b +:+ hex_string l' end.
Definition hexFingerprint (value : bytes) : string :=
  if Nat.eqb (length value) 32 then hex_string value else "".

Definition bindingToWire (value : LocRouteBinding) : result exn LocRouteBinding :=
  match routeBindingWire (binding_json value) with
  | Some b => Ok b
  | None => Err invalidRequest
  end.

Definition routeBindingFor (route : SelectedWorkerRoute) : result exn LocRouteBinding :=
  match sw_quoteId route, sw_quoteVersion route, sw_constraintFingerprint route,
        sw_routeFingerprint route, sw_settlementDomainId route with
  | Some q, Some v, Some c, Some r, Some d =>
      throw_if negb (nonempty q) || negb (nonempty v) || negb (nonempty d) with invalidRequest ;;
      bindingToWire (mkBinding q v (hexFingerprint c) (hexFingerprint r) d)
  | _, _, _, _, _ => Err invalidRequest
  end.

(** ** Validation of inputs *)

Definition safe_in (lo : Z) (z : Z) : bool := safe_integer z && (lo <=? z).

Definition validateOpenUnits (estimated : Z) (maximum : option Z) : result exn unit :=
  refuse_if (negb (safe_in 1 estimated) ||
             match maximum with Some m => negb (safe_integer m) || (m <? estimated) | None => false end)
    invalidRequest.

Definition envelope_valid (e : LocSettlementEnvelope) : bool :=
  is_present (settlementEnvelopeWire (envelope_json e)).

Definition validateSettleJob (input : LocSettleJobInput) : result exn unit :=
  refuse_if (negb (is_uuid (si_operationId input)) || negb (safe_in 0 (si_actualUnits input)) ||
             negb (nonempty (si_brokerJobId input)) || negb (nonempty (si_workUnit input)) ||
             negb (nonempty (si_outcome input)) || negb (envelope_valid (si_settlement input)))
    invalidRequest.

Definition validateRefill (input : LocRefillSessionInput) : result exn unit :=
  refuse_if (negb (is_uuid (ri_operationId input)) || negb (nonempty (ri_requestId input)) ||
             match ri_observedConsumedUnits input with Some z => negb (safe_in 0 z) | None => false end ||
             negb (safe_in 1 (ri_maxTotalUnits input)) ||
             negb (fingerprint_regex (ri_workloadRequestDigest input)))
    invalidRequest.

Definition validateClose (input : LocCloseSessionInput) : result exn unit :=
  refuse_if (negb (is_uuid (ci_operationId input)) || negb (safe_in 0 (ci_actualUnits input)) ||
             match ci_outcome input with Some o => negb (nonempty o) | None => false end ||
             negb (envelope_valid (ci_settlement input)))
    invalidRequest.

(** ** Mapping of answers *)

Definition axes_object (value : RouteSnapshotWire) : result exn json :=
  let? jobField := match rw_job value with
              | Some j => let? v := jsonValue (Some j) in Ok [("job", v)]
              | None => Ok []
              end in
  let? sessionField := match rw_session value with
                  | Some j => let? v := jsonValue (Some j) in Ok [("session", v)]
                  | None => Ok []
                  end in
  Ok (JObj (jobField ++ sessionField)).

Definition mapRouteSnapshot (value : RouteSnapshotWire) : result exn LocRouteSnapshot :=
  let? declared := axes_object value in
  let axes := parseRouteProtocolDeclaration (rw_protocol value) declared in
  let keys := parseSettlementKeys (rw_settlement_keys value) in
  let estimator := match rw_work_unit_estimator value with
                   | Some e => parseWorkUnitEstimator (Some e)
                   | None => None
                   end in
  match axes, keys with
  | Some axes, Some ((_ :: _) as keys) =>
      throw_if is_present (rw_work_unit_estimator value) && negb (is_present estimator)
        with invalidResponse ;;
      let? extra := jsonValue (Some (rw_extra value ?? JObj [])) in
      let? raw := jsonValue (Some (rw_value value)) in
      Ok {| lr_brokerUrl := rw_broker_url value; lr_ethAddress := rw_eth_address value;
            lr_capability := rw_capability value; lr_offering := rw_offering value;
            lr_protocol := rw_protocol value; lr_workUnit := rw_work_unit value;
            lr_pricePerWorkUnitWei := rw_price_per_work_unit_wei value;
            lr_unitsPerPrice := rw_units_per_price value; lr_binding := rw_binding value;
            lr_settlementDomainId := rb_settlementDomainId (rw_binding value);
            lr_settlementKeys := keys; lr_workUnitEstimator := estimator;
            lr_job := rd_job axes; lr_session := rd_session axes; lr_extra := extra; lr_raw := raw |}
  | _, _ => Err invalidResponse
  end.

Definition requireSnapshot (capability offering : string) (binding : LocRouteBinding)
    (snapshot : LocRouteSnapshot) (protocol : string) : result exn unit :=
  refuse_if ((lr_capability snapshot !=? capability) || (lr_offering snapshot !=? offering) ||
             (lr_protocol snapshot !=? protocol) || negb (sameBinding (lr_binding snapshot) binding))
    invalidResponse.

Definition mapPreparedSession (value : LocPrepareSessionResult) (input : LocPrepareSessionInput)
    : result exn LocPrepareSessionResult :=
  throw_if negb (sameBinding (pp_routeBinding value) (pi_routeBinding input)) with invalidResponse ;;
  Ok value.

Definition mapJobOpen (value : JobOpenWire) (input : LocOpenJobInput) : result exn LocOpenJobResult :=
  let common := jw_common value in
  let? snapshot := mapRouteSnapshot (co_route_snapshot common) in
  let? _ := requireSnapshot (ji_capability input) (ji_offering input) (ji_routeBinding input)
              snapshot "paid-job/v1" in
  throw_if (co_broker_url common !=? lr_brokerUrl snapshot) ||
           (jw_work_unit value !=? lr_workUnit snapshot) ||
           (jw_transport value !=? ji_transport input) ||
           match lr_job snapshot with
           | Some j => negb (bool_decide (ji_transport input ∈ jx_transports j))
           | None => true
           end ||
           (jw_settle_endpoint value !=? ("/v1/jobs/" +:+ jw_job_id value +:+ "/settle"))
    with invalidResponse ;;
  Ok {| jo_operationId := jw_job_id value; jo_requestId := co_request_id common;
        jo_workId := co_work_id common; jo_brokerUrl := co_broker_url common;
        jo_transport := jw_transport value; jo_workUnit := jw_work_unit value;
        jo_routeSnapshot := snapshot; jo_spendAuthorization := co_spend_authorization common;
        jo_paymentEnvelope := co_payment_envelope common;
        jo_expectedValueWei := co_expected_value_wei common;
        jo_fundedValueWei := co_funded_value_wei common;
        jo_settleEndpoint := jw_settle_endpoint value; jo_openedAt := co_opened_at common |}.

Definition mapSessionOpen (value : SessionOpenWire) (input : LocOpenSessionInput)
    : result exn LocOpenSessionResult :=
  let common := sw_common value in
  let? snapshot := mapRouteSnapshot (co_route_snapshot common) in
  let? _ := requireSnapshot (oi_capability input) (oi_offering input) (oi_routeBinding input)
              snapshot "paid-session/v1" in
  let? declared := jsonValue (sw_session_axes value) in
  let declaration := parseRouteProtocolDeclaration "paid-session/v1" (JObj [("session", declared)]) in
  match declaration ≫= rd_session with
  | Some axes =>
      throw_if (co_broker_url common !=? lr_brokerUrl snapshot) ||
               (ax_descriptorSchema axes !=? oi_descriptorSchema input) ||
               negb (same_axes axes (lr_session snapshot)) ||
               (sw_refill_endpoint value !=? ("/v1/sessions/" +:+ sw_session_id value +:+ "/refill")) ||
               (sw_close_endpoint value !=? ("/v1/sessions/" +:+ sw_session_id value +:+ "/close"))
        with invalidResponse ;;
      Ok {| lo_operationId := sw_session_id value; lo_gatewaySessionId := oi_gatewaySessionId input;
            lo_requestId := co_request_id common; lo_workId := co_work_id common;
            lo_brokerUrl := co_broker_url common; lo_session := axes; lo_routeSnapshot := snapshot;
            lo_spendAuthorization := co_spend_authorization common;
            lo_paymentEnvelope := co_payment_envelope common;
            lo_expectedValueWei := co_expected_value_wei common;
            lo_fundedValueWei := co_funded_value_wei common;
            lo_refillEndpoint := sw_refill_endpoint value; lo_closeEndpoint := sw_close_endpoint value;
            lo_openedAt := co_opened_at common |}
  | None => Err invalidResponse
  end.

Definition mapSessionStatus (value : LocSessionStatus) (operationId : string) : result exn LocSessionStatus :=
  throw_if st_operationId value !=? operationId with invalidResponse ;; Ok value.

Definition mapClose (value : LocCloseSessionResult) (input : LocCloseSessionInput)
    : result exn LocCloseSessionResult :=
  throw_if (cc_operationId value !=? ci_operationId input) ||
           negb (cc_actualUnits value =? ci_actualUnits input) ||
           match ci_outcome input with Some o => cc_outcome value !=? o | None => false end
    with invalidResponse ;; Ok value.

Definition mapJobSettlement (value : LocSettleJobResult) (input : LocSettleJobInput)
    : result exn LocSettleJobResult :=
  throw_if (sj_operationId value !=? si_operationId input) ||
           negb (sj_actualUnits value =? si_actualUnits input) ||
           (sj_outcome value !=? si_outcome input)
    with invalidResponse ;; Ok value.

(** ** The client *)

Context `{Transport_ : LocTransport}.

Definition post {A} (path key : string) (body : list (string * json)) (schema : decoder A) : N A :=
  transport_request (mkLocRequest "POST" path schema (Some (JObj body)) (Some key)).

Definition transport_name (t : Transport) : string :=
  match t with unary => "unary" | stream => "stream" | multipart => "multipart" end.

Definition loc_openJob (input : LocOpenJobInput) : N LocOpenJobResult :=
  run! mlift (validateOpenUnits (ji_estimatedUnits input) (ji_maxTotalUnits input));
  do! binding <- mlift (bindingToWire (ji_routeBinding input));
  do! response <- post "/v1/jobs" (ji_requestId input)
    ([("capability", JStr (ji_capability input)); ("offering", JStr (ji_offering input));
      ("transport", JStr (transport_name (ji_transport input)));
      ("estimated_units", int_json (ji_estimatedUnits input))] ++
     opt_prop "max_total_units" int_json (ji_maxTotalUnits input) ++
     [("route_binding", binding_json binding);
      ("workload_request_digest", JStr (ji_workloadRequestDigest input));
      ("caller_public_key", JStr (ji_callerPublicKey input))]) jobOpenWire;
  mlift (mapJobOpen response input).

Definition loc_prepareSession (input : LocPrepareSessionInput) : N LocPrepareSessionResult :=
  do! binding <- mlift (bindingToWire (pi_routeBinding input));
  do! response <- post "/v1/sessions/prepare" (pi_requestId input +:+ ":prepare")
    [("capability", JStr (pi_capability input)); ("offering", JStr (pi_offering input));
     ("descriptor_schema", JStr (pi_descriptorSchema input)); ("route_binding", binding_json binding)]
    prepareSessionWire;
  mlift (mapPreparedSession response input).

Definition loc_settleJob (input : LocSettleJobInput) : N LocSettleJobResult :=
  run! mlift (validateSettleJob input);
  do! response <- post ("/v1/jobs/" +:+ encodeURIComponent (si_operationId input) +:+ "/settle")
    ("settle:" +:+ si_operationId input)
    [("actual_units", int_json (si_actualUnits input)); ("broker_job_id", JStr (si_brokerJobId input));
     ("work_unit", JStr (si_workUnit input)); ("outcome", JStr (si_outcome input));
     ("settlement", envelope_json (si_settlement input))] settleJobWire;
  mlift (mapJobSettlement response input).

Definition loc_openSession (input : LocOpenSessionInput) : N LocOpenSessionResult :=
  run! mlift (validateOpenUnits (oi_estimatedRunwayUnits input) (Some (oi_maxTotalUnits input)));
  do! binding <- mlift (bindingToWire (oi_routeBinding input));
  do! response <- post "/v1/sessions" (oi_requestId input)
    [("capability", JStr (oi_capability input)); ("offering", JStr (oi_offering input));
     ("descriptor_schema", JStr (oi_descriptorSchema input));
     ("session_params", JObj (oi_sessionParams input));
     ("estimated_runway_units", int_json (oi_estimatedRunwayUnits input));
     ("max_total_units", int_json (oi_maxTotalUnits input));
     ("route_binding", binding_json binding);
     ("gateway_session_id", JStr (oi_gatewaySessionId input));
     ("preparation_token", JStr (oi_preparationToken input));
     ("workload_request_digest", JStr (oi_workloadRequestDigest input));
     ("caller_public_key", JStr (oi_callerPublicKey input))] sessionOpenWire;
  mlift (mapSessionOpen response input).

Definition loc_refillSession (input : LocRefillSessionInput) : N LocRefillSessionResult :=
  run! mlift (validateRefill input);
  post ("/v1/sessions/" +:+ encodeURIComponent (ri_operationId input) +:+ "/refill")
    (ri_requestId input)
    (opt_prop "observed_consumed_units" int_json (ri_observedConsumedUnits input) ++
     [("max_total_units", int_json (ri_maxTotalUnits input));
      ("workload_request_digest", JStr (ri_workloadRequestDigest input))]) refillSessionWire.

Definition loc_getSession (operationId : string) : N LocSessionStatus :=
  run! mlift (refuse_if (negb (is_uuid operationId)) invalidRequest);
  do! response <- transport_request (mkLocRequest "GET"
    ("/v1/sessions/" +:+ encodeURIComponent operationId) sessionStatusWire None None);
  mlift (mapSessionStatus response operationId).

Definition loc_closeSession (input : LocCloseSessionInput) : N LocCloseSessionResult :=
  run! mlift (validateClose input);
  do! response <- post ("/v1/sessions/" +:+ encodeURIComponent (ci_operationId input) +:+ "/close")
    ("close:" +:+ ci_operationId input)
    ([("actual_units", int_json (ci_actualUnits input))] ++
     opt_prop "outcome" JStr (ci_outcome input) ++
     [("settlement", envelope_json (ci_settlement input))]) closeSessionWire;
  mlift (mapClose response input).

#[export] Instance createLocClient : LocClient := {|
  openJob := loc_openJob;
  settleJob := loc_settleJob;
  prepareSession := loc_prepareSession;
  openSession := loc_openSession;
  refillSession := loc_refillSession;
  getSession := loc_getSession;
  closeSession := loc_closeSession
|}.

End client.
