(* ===== verification/SampleNet.v ===== *)
(** * A concrete platform and network for the witnesses

    Simple total functions in place of the platform's; answers are given by a
    finite script. *)

From S2P Require Import Prelude Js Types Wire Http Interfaces RouteProtocol LocClient.
From Stdlib Require Import Ascii.
Open Scope Z_scope.

(** Text of a JSON value, enough to tell requests apart. *)
Fixpoint sample_stringify (j : json) : string :=
  match j with
  | JNull => "null"
  | JBool b => if b then "true" else "false"
  | JNum (NInt z) => string_of_Z z
  | JNum _ => "number"
  | JStr s => "'" +:+ s +:+ "'"
  | JArr l => "[" +:+ String.concat "," (map sample_stringify l) +:+ "]"
  | JObj fs => "{" +:+ String.concat "," (map (fun kv => fst kv +:+ ":" +:+ sample_stringify (snd kv)) fs) +:+ "}"
  end.

Definition sample_digest : string := repeat_char "d"%char 64.
Definition sample_domain : string := "0x" +:+ repeat_char "1"%char 64.
Definition sample_fingerprint : string := repeat_char "0"%char 64.
Definition sample_bytes : bytes := repeat Byte.x00 32.
Definition sample_signature : string := "0x" +:+ repeat_char "a"%char 130.

Definition assoc_of (table : list (string * json)) (k : string) : option json := assoc k table.

(** The encoded settlement headers the samples use decode to these envelopes. *)
Definition sample_envelope (units seq : string) : json :=
  JObj [("payload", JObj [("state", JStr "closed"); ("gateway_session_id", JStr "uuid-g");
          ("session_id", JStr "bs"); ("work_id", JStr "work"); ("authorization_id", JStr "work");
          ("settlement_domain_id", JStr sample_domain); ("work_unit_name", JStr "output_seconds");
          ("actual_units", JStr units); ("claimed_units", JStr units); ("debited_units", JStr units);
          ("settlement_seq", JStr seq)]);
        ("signature", JObj [("algorithm", JStr "secp256k1"); ("canonicalization", JStr "jcs");
                            ("value", JStr sample_signature)])].

(** A finished job of 300 frames in three sizes, and its settlement. *)
Definition sample_rendition_json (name : string) (width height : Z) : json :=
  JObj [("name", JStr name); ("playlist_uri", JStr (name +:+ "/playlist.m3u8"));
        ("stream_uri", JStr (name +:+ "/stream.mp4"));
        ("video", JObj [("actual_frames", JNum (NInt 300)); ("width", JNum (NInt width));
                        ("height", JNum (NInt height))]); ("file_size_bytes", JNum (NInt 1))].
Definition sample_result_json : json :=
  JObj [("schema", JStr "video-transcode-abr-result/v2"); ("workload_id", JStr "asset");
        ("request_sha256", JStr sample_digest); ("outcome", JStr "succeeded"); ("manifest_uri", JStr "master.m3u8");
        ("renditions", JArr [sample_rendition_json "720p" 1280 720; sample_rendition_json "480p" 854 480;
                             sample_rendition_json "360p" 640 360]);
        ("usage", JObj [("unit", JStr "video-frame-megapixel"); ("units", JNum (NInt 469))])].
Definition sample_job_envelope : json :=
  JObj [("payload", JObj [("request_id", JStr "req"); ("job_id", JStr "bj"); ("work_id", JStr "work");
          ("authorization_id", JStr "work"); ("settlement_domain_id", JStr sample_domain);
          ("work_unit_name", JStr "video-frame-megapixel"); ("actual_units", JStr "469");
          ("billed_units", JStr "469"); ("debited_units", JStr "469"); ("outcome", JStr "OK");
          ("accepted_quote_ref", JObj [("quote_id", JStr "quote"); ("quote_version", JStr "1");
             ("constraint_fingerprint", JStr (hexAsBase64 sample_fingerprint));
             ("route_fingerprint", JStr (hexAsBase64 sample_fingerprint))])]);
        ("signature", JObj [("algorithm", JStr "secp256k1"); ("canonicalization", JStr "jcs");
                            ("value", JStr sample_signature)])].

#[export] Instance sample_platform : Platform := {|
  is_url := startsWith "http";
  is_uuid := startsWith "uuid";
  new_URL := fun s => if startsWith "http" s then Some (mkURL "https:" "" "" "") else None;
  stringify := sample_stringify;
  json_parse := assoc_of [("settled-7", sample_envelope "7" "3"); ("progress", JObj [("schema", JStr "progress")]);
                          ("result", sample_result_json); ("job-settled", sample_job_envelope)];
  base64_text := fun s => s;
  sha256_hex := fun _ => sample_digest;
  date_parse := fun s => decimal_value s;
  toISOString := string_of_Z;
  headers_valid := fun _ => true;
  caller_publicKey := "caller";
  signAuthorization := fun a => Ok ("signed " +:+ a)
|}.

Definition sample_binding : LocRouteBinding :=
  mkBinding "quote" "1" sample_fingerprint sample_fingerprint sample_domain.

Definition sample_session_wire : json :=
  JObj [("descriptor_schema", JStr "rtmp-hls/v1"); ("metering", JStr "runner-reported")].

Definition snapshot_fields (unit_ protocol : string) (axes : list (string * json)) : json :=
  JObj ([("schema_version", JStr "route-snapshot/v1"); ("broker_url", JStr "https://broker");
         ("eth_address", JStr "0xabc"); ("capability", JStr "video:transcode.live");
         ("offering", JStr "std"); ("protocol", JStr protocol); ("work_unit", JStr unit_);
         ("price_per_work_unit_wei", JStr "10"); ("units_per_price", JStr "1");
         ("quote_id", JStr "quote"); ("quote_version", JStr "1");
         ("constraint_fingerprint", JStr sample_fingerprint);
         ("route_fingerprint", JStr sample_fingerprint); ("settlement_domain_id", JStr sample_domain);
         ("settlement_keys", JArr [JObj [("public_key", JStr "pk"); ("not_before", JStr "0");
            ("expires_at", JStr "9"); ("introduced_in_publication_seq", JStr "1")]])] ++ axes).

Definition sample_snapshot_fields : string -> list (string * json) -> json := snapshot_fields "output_seconds".
Definition sample_common (snapshot : json) : list (string * json) :=
  [("request_id", JStr "req"); ("work_id", JStr "work"); ("broker_url", JStr "https://broker");
   ("route_snapshot", snapshot); ("spend_authorization", JStr "spend");
   ("accounting_mode", JStr "wholesale_account"); ("expected_value_wei", JStr "1");
   ("funded_value_wei", JStr "1"); ("opened_at", JStr "1")].

Definition sample_open_json : json :=
  JObj (sample_common (sample_snapshot_fields "paid-session/v1" [("session", sample_session_wire)]) ++
    [("session_id", JStr "uuid-1"); ("protocol", JStr "paid-session/v1"); ("session", sample_session_wire);
     ("refill_endpoint", JStr "/v1/sessions/uuid-1/refill");
     ("close_endpoint", JStr "/v1/sessions/uuid-1/close")]).
Definition sample_job_json : json :=
  JObj (sample_common (sample_snapshot_fields "paid-job/v1"
      [("job", JObj [("transports", JArr [JStr "unary"])])]) ++
    [("job_id", JStr "uuid-1"); ("protocol", JStr "paid-job/v1"); ("transport", JStr "unary");
     ("work_unit", JStr "output_seconds"); ("settle_endpoint", JStr "/v1/jobs/uuid-1/settle")]).
Definition sample_prepare_json : json :=
  JObj [("gateway_session_id", JStr "uuid-g"); ("route_binding", binding_json sample_binding);
        ("broker_url", JStr "https://broker"); ("preparation_token", JStr "token");
        ("expires_at", JStr "9")].
Definition sample_close_json : json :=
  JObj [("session_id", JStr "uuid-1"); ("work_id", JStr "work"); ("actual_units", JNum (NInt 7));
        ("billed_value_wei", JStr "70"); ("refund_wei", JStr "0"); ("outcome", JStr "ok");
        ("closed_at", JStr "9")].
Definition sample_refill_json : json :=
  JObj [("work_id", JStr "work"); ("request_id", JStr "req"); ("refill_seq", JNum (NInt 1));
        ("spend_authorization", JStr "spend"); ("accounting_mode", JStr "wholesale_account");
        ("expected_value_wei", JStr "1"); ("funded_value_wei", JStr "1");
        ("cap_status", JObj [("session_pct_used", JNum (NFrac 1 2)); ("spend_period_pct_used", JNull);
           ("user_balance_pct_used", JNull); ("operator_pool_pct_used", JNull);
           ("will_refuse_next_refill", JBool false); ("winddown_reason", JNull)])].

(** A transport that answers by path. *)
Definition answer_for (path : string) : json :=
  if path ==? "/v1/sessions" then sample_open_json
  else if path ==? "/v1/sessions/prepare" then sample_prepare_json
  else if path ==? "/v1/jobs" then sample_job_json
  else if path ==? "/v1/sessions/uuid-1/close" then sample_close_json
  else if path ==? "/v1/sessions/uuid-1/refill" then sample_refill_json
  else JNull.
#[export] Instance sample_transport : LocTransport := fun A rq n =>
  match lq_schema rq (answer_for (lq_path rq)) with
  | Some a => (Ok a, mkNet (S (net_calls n)) (net_log n))
  | None => (Err invalidResponse, mkNet (S (net_calls n)) (net_log n))
  end.

Definition net0 : net := mkNet 0 [].

Definition sample_open_input : LocOpenSessionInput :=
  mkOpenInput "req" "video:transcode.live" "std" "rtmp-hls/v1" [] 10 20 sample_binding "uuid-g" "token"
    sample_digest "caller".
Definition sample_job_input : LocOpenJobInput :=
  mkOpenJobInput "req" "video:transcode.live" "std" unary 10 None sample_binding sample_digest "caller".
Definition sample_close_input : LocCloseSessionInput :=
  mkCloseInput "uuid-1" 7 (Some "ok") (mkEnvelope [] sample_signature).

(** ** A broker *)

Definition sample_balance_json (runway : Z) : json :=
  JObj [("claimed_units", JNum (NInt 7)); ("debited_units", JNum (NInt 7)); ("unit", JStr "output_seconds");
        ("authorization_id", JStr "work"); ("authorization_max_units", JNum (NInt 10));
        ("authorization_cap_remaining_units", JNum (NInt 3));
        ("authorization_reserved_value_wei", JStr "0"); ("cumulative_billed_value_wei", JStr "0");
        ("runway_units", JNum (NInt runway)); ("status", JStr "ok");
        ("will_refuse_next_refill", JBool false)].
Definition sample_lease_json : json := JObj [("expires_at", JStr "900000")].
Definition sample_open_session_json : json :=
  JObj [("session_id", JStr "bs"); ("work_id", JStr "work"); ("state", JStr "open");
        ("runtime", JObj [("schema", JStr "rtmp-hls/v1");
           ("public", JObj [("rtmp_url", JStr "http://runner/rtmp"); ("hls_url", JStr "http://runner/hls");
                            ("key_issue_url", JStr "http://runner/key")]);
           ("grants", JArr [JObj [("id", JStr "g"); ("operations", JArr [JStr "stream-key-issue"]);
                                  ("secret", JStr "s"); ("expires_at", JStr "9")]])]);
        ("lease", sample_lease_json);
        ("control", JObj [("status_url", JStr "http://b/s"); ("topup_url", JStr "http://b/t");
                          ("end_url", JStr "http://b/e"); ("events_ws", JStr "http://b/w")]);
        ("credential", JStr "cred"); ("balance", sample_balance_json 3)].
Definition sample_key_json : json :=
  JObj [("request_id", JStr "key-req"); ("stream_key", JStr "sk"); ("expires_at", JStr "9")].
Definition sample_status_json (state : string) (runway : Z) : json :=
  JObj [("session_id", JStr "bs"); ("gateway_session_id", JStr "uuid-g"); ("work_id", JStr "work");
        ("authorization_id", JStr "work"); ("state", JStr state);
        ("runtime", JObj [("schema", JStr "rtmp-hls/v1"); ("public", JNull)]);
        ("usage", JObj [("unit", JStr "output_seconds"); ("claimed_total", JNum (NInt 7))]);
        ("lease", sample_lease_json); ("balance", sample_balance_json runway); ("started_at", JStr "1")].
Definition sample_topup_json : json :=
  JObj [("session_id", JStr "bs"); ("work_id", JStr "work"); ("lease", sample_lease_json);
        ("balance", sample_balance_json 13)].
Definition sample_end_json : json :=
  JObj [("session_id", JStr "bs"); ("work_id", JStr "work"); ("state", JStr "closed");
        ("close_reason", JStr "gateway_close"); ("ended_at", JStr "8")].
Definition sample_lookup_json : json :=
  JObj [("session_id", JStr "bs"); ("gateway_session_id", JStr "uuid-g"); ("work_id", JStr "work");
        ("authorization_id", JStr "work"); ("state", JStr "closed"); ("unit", JStr "output_seconds");
        ("claimed_units", JNum (NInt 7)); ("debited_units", JNum (NInt 7)); ("settlement_seq", JNum (NInt 3))].

Definition ok_response (j : json) : HttpResponse := mkHttpResponse 200 [] (Some j) "".

(** A broker that answers by URL. *)
Definition sample_broker (state : string) (runway : Z) : Fetch := fun _ rq =>
  let url := rq_url rq in
  Ok (if url ==? "https://broker/v1/session" then ok_response sample_open_session_json
      else if url ==? "http://runner/key" then ok_response sample_key_json
      else if url ==? "https://broker/v1/session/bs" then ok_response (sample_status_json state runway)
      else if url ==? "https://broker/v1/session/bs/topup" then ok_response sample_topup_json
      else if url ==? "https://broker/v1/session/bs/end" then ok_response sample_end_json
      else if url ==? "https://broker/v1/settlement/uuid-g" then
        mkHttpResponse 200 [("livepeer-settlement", "settled-7")] (Some sample_lookup_json) ""
      else mkHttpResponse 404 [] None "").

Definition sample_handle : PaidSessionControlHandle :=
  Recovered (mkRecoveryHandle "uuid-1" "https://broker" "uuid-g" "rtmp-hls/v1" "output_seconds" sample_domain 10).
Definition sample_end_request : PaidSessionEndRequest :=
  mkEndRequest sample_handle "uuid-g" "bs" "cred" "customer_end".
Definition sample_status_request : PaidSessionStatusRequest :=
  mkStatusRequest sample_handle "bs" "work" "cred".

(** ** Jobs *)

(** The ledger and the broker of a streamed job that ends in one answer. *)
Definition streamed_job_json : json :=
  JObj (sample_common (snapshot_fields "video-frame-megapixel" "paid-job/v1"
      [("job", JObj [("transports", JArr [JStr "stream"])])]) ++
    [("job_id", JStr "uuid-1"); ("protocol", JStr "paid-job/v1"); ("transport", JStr "stream");
     ("work_unit", JStr "video-frame-megapixel"); ("settle_endpoint", JStr "/v1/jobs/uuid-1/settle")]).
Definition settled_job_json : json :=
  JObj [("job_id", JStr "uuid-1"); ("work_id", JStr "work"); ("actual_units", JNum (NInt 469));
        ("billed_value_wei", JStr "4690"); ("refund_wei", JStr "0"); ("outcome", JStr "OK"); ("closed_at", JStr "9")].
Definition job_transport : LocTransport := fun A rq n =>
  match lq_schema rq (if lq_path rq ==? "/v1/jobs" then streamed_job_json else settled_job_json) with
  | Some a => (Ok a, mkNet (S (net_calls n)) (net_log n))
  | None => (Err invalidResponse, mkNet (S (net_calls n)) (net_log n))
  end.
Definition job_loc : LocClient := createLocClient (Transport_ := job_transport).

Definition newline_ : string := String "010"%char "".
Definition job_broker : Fetch := fun _ rq =>
  Ok (if rq_url rq ==? "https://broker/v1/job"
      then mkHttpResponse 200 [("livepeer-job-id", "bj"); ("livepeer-settlement", "job-settled");
                               ("livepeer-work-units", "469"); ("livepeer-work-unit", "video-frame-megapixel")]
             None ("data: progress" +:+ newline_ +:+ newline_ +:+ "data: result" +:+ newline_ +:+ newline_)
      else mkHttpResponse 404 [] None "").

Definition sample_estimator : WorkUnitEstimator :=
  mkEstimator "abr-output-frame-megapixels/v1" "ceil-total" "ceiling" None None.
Definition sample_job_route : SelectedWorkerRoute :=
  mkSelectedRoute "https://broker" "0xabc" "video:transcode.live" "std" "10" "video-frame-megapixel"
    "paid-job/v1" (Some (mkJobAxes [stream])) None (Some sample_estimator) [mkSettlementKey "pk" "0" "9" "1"]
    (Some sample_domain) (Some "1") (Some "quote") (Some "1") (Some sample_bytes) (Some sample_bytes)
    None None.
