(* ===== verification/LocClientSpec.v ===== *)
(** * What an accepted LOC answer guarantees

    For every transport, however it answers: an opened session or job is bound to
    the requested capability, offering and route; a closed or settled operation is
    the one that was closed, for the units that were reported. *)

From S2P Require Import Prelude Js Types Wire Http Interfaces RouteProtocol LocClient SampleNet.
Open Scope Z_scope.

Section spec.
Context `{Plat : Platform}.

(** ** Bindings *)

(** A binding that passes the schema is unchanged by it. *)
Lemma bindingToWire_id b b' : bindingToWire b = Ok b' -> b' = b.
Proof.
  unfold bindingToWire. destruct (routeBindingWire (binding_json b)) as [x|] eqn:E; [|done].
  intros [= <-]. unfold routeBindingWire, binding_json, z_object in E.
  apply bind_Some in E as ([] & _ & E). unfold field in E. cbn [assoc] in E.
  repeat match type of E with context [bool_decide ?P] =>
    first [rewrite (bool_decide_eq_true_2 P) in E by reflexivity
          |rewrite (bool_decide_eq_false_2 P) in E by discriminate] end.
  apply bind_Some in E as (q & Hq & E). apply bind_Some in E as (v & Hv & E).
  apply bind_Some in E as (c & Hc & E). apply bind_Some in E as (r & Hr & E).
  apply bind_Some in E as (d & Hd & E).
  apply z_text_Some in Hq as [Hq _].
  apply z_refined_Some in Hv as [Hv _]. apply z_refined_Some in Hc as [Hc _].
  apply z_refined_Some in Hr as [Hr _]. apply z_refined_Some in Hd as [Hd _].
  destruct b. cbn in *. by simplify_eq/=.
Qed.

(** The route binding sent to LOC is the selected route's, field by field: the
    quote, its version, the settlement domain, and the fingerprints in hex; a route
    whose fingerprints are not 32 bytes is refused before any request. *)
Lemma binding_is_the_routes route b :
  routeBindingFor route = Ok b ->
  sw_quoteId route = Some (rb_quoteId b) /\ sw_quoteVersion route = Some (rb_quoteVersion b) /\
  sw_settlementDomainId route = Some (rb_settlementDomainId b) /\
  exists c r, sw_constraintFingerprint route = Some c /\ sw_routeFingerprint route = Some r /\
    length c = 32%nat /\ length r = 32%nat /\
    rb_constraintFingerprint b = hex_string c /\ rb_routeFingerprint b = hex_string r.
Proof.
  unfold routeBindingFor.
  destruct (sw_quoteId route) as [q|], (sw_quoteVersion route) as [v|],
    (sw_constraintFingerprint route) as [c|], (sw_routeFingerprint route) as [r|],
    (sw_settlementDomainId route) as [d|]; try done.
  rewrite guard_Ok. intros [_ H]. pose proof H as Hok. apply bindingToWire_id in H as ->. cbn.
  split_and!; try done. exists c, r. unfold hexFingerprint.
  assert (forall x, fingerprint_regex (if Nat.eqb (length x) 32 then hex_string x else "") = true ->
            length x = 32%nat) as Hlen.
  { intros x. destruct (Nat.eqb (length x) 32) eqn:E; [|done]. intros _. by apply Nat.eqb_eq. }
  unfold bindingToWire in Hok.
  destruct (routeBindingWire _) as [x|] eqn:E; [|done]. unfold routeBindingWire, binding_json, z_object in E.
  apply bind_Some in E as ([] & _ & E). unfold field in E. cbn [assoc] in E.
  repeat match type of E with context [bool_decide ?P] =>
    first [rewrite (bool_decide_eq_true_2 P) in E by reflexivity
          |rewrite (bool_decide_eq_false_2 P) in E by discriminate] end.
  do 2 apply bind_Some in E as (? & _ & E).
  apply bind_Some in E as (c' & Hc & E). apply bind_Some in E as (r' & Hr & E).
  apply z_refined_Some in Hc as [[= <-] Hc]. apply z_refined_Some in Hr as [[= <-] Hr].
  apply Hlen in Hc, Hr. rewrite Hc, Hr. done.
Qed.

Lemma sameBinding_eq l r : sameBinding l r = true -> l = r.
Proof. unfold sameBinding. intros H. bools. destruct l, r. cbn in *. congruence. Qed.

(** ** Opening *)

Lemma mlift_Ok {S E A} (r : result E A) (s s' : S) a :
  mlift r s = (Ok a, s') <-> r = Ok a /\ s' = s.
Proof. unfold mlift. naive_solver. Qed.

Lemma requireSnapshot_inv cap off b snap p :
  requireSnapshot cap off b snap p = Ok tt ->
  lr_capability snap = cap /\ lr_offering snap = off /\ lr_protocol snap = p /\ lr_binding snap = b.
Proof.
  unfold requireSnapshot. rewrite refuse_if_Ok. intros H. bools.
  split_and!; try done. by apply sameBinding_eq.
Qed.

Lemma safe_in_spec lo z : safe_in lo z = true <-> lo <= z /\ Z.abs z <= MAX_SAFE_INTEGER.
Proof. unfold safe_in, safe_integer. rewrite andb_true_iff, !Z.leb_le. tauto. Qed.

Lemma mapRouteSnapshot_session w snap :
  mapRouteSnapshot w = Ok snap -> lr_protocol snap = "paid-session/v1" ->
  exists a, lr_session snap = Some a /\ session_axes_ok a.
Proof.
  unfold mapRouteSnapshot. rewrite result_bind_Ok. intros (dcl & _ & H) Hp.
  destruct (parseRouteProtocolDeclaration _ _) as [axes|] eqn:Ha; [|done].
  destruct (parseSettlementKeys _) as [[|k ks]|]; try done.
  apply guard_Ok in H as [_ H]. apply result_bind_Ok in H as (e & _ & H).
  apply result_bind_Ok in H as (raw & _ & H). injection H as <-. cbn in *.
  apply declaration_axes in Ha as [Hn Hm]. rewrite Hp in Hn.
  destruct (rd_protocol axes); [done|]. destruct Hm as [_ (a & Ha & Hok)]. eauto.
Qed.

Context `{Tr : LocTransport}.

(** Whatever LOC answers, an accepted session open is about what was asked: the
    snapshot carries the requested capability, offering, protocol and binding; the
    broker is the snapshot's; the session axes are well formed and of the requested
    descriptor; both endpoints belong to the returned operation; and units were
    funded only for a positive estimate within the cap. *)
Lemma opened_session_is_as_requested input n r n' :
  loc_openSession input n = (Ok r, n') ->
  let s := lo_routeSnapshot r in
  lr_capability s = oi_capability input /\ lr_offering s = oi_offering input /\
  lr_protocol s = "paid-session/v1" /\ lr_binding s = oi_routeBinding input /\
  lo_brokerUrl r = lr_brokerUrl s /\ ax_descriptorSchema (lo_session r) = oi_descriptorSchema input /\
  session_axes_ok (lo_session r) /\ lo_gatewaySessionId r = oi_gatewaySessionId input /\
  lo_refillEndpoint r = "/v1/sessions/" +:+ lo_operationId r +:+ "/refill" /\
  lo_closeEndpoint r = "/v1/sessions/" +:+ lo_operationId r +:+ "/close" /\
  1 <= oi_estimatedRunwayUnits input <= oi_maxTotalUnits input.
Proof.
  unfold loc_openSession. rewrite mbind_Ok. intros (u & n1 & Hv & H).
  apply mlift_Ok in Hv as [Hv ->]. apply mbind_Ok in H as (b & n2 & _ & H).
  apply mbind_Ok in H as (w & n3 & _ & H). apply mlift_Ok in H as [H ->].
  unfold mapSessionOpen in H. apply result_bind_Ok in H as (snap & Hsnap & H).
  apply result_bind_Ok in H as ([] & Hreq & H). apply requireSnapshot_inv in Hreq as (?&?&?&?).
  apply result_bind_Ok in H as (sj & _ & H).
  destruct (parseRouteProtocolDeclaration _ _) as [dcl|] eqn:Hd; [|done].
  cbn [mbind option_bind] in H. destruct (rd_session dcl) as [axes|] eqn:Hax; [|done].
  apply guard_Ok in H as [Hg H]. bools. injection H as <-. cbn.
  apply declaration_axes in Hd as [_ Hd].
  assert (session_axes_ok axes) as Hok.
  { destruct (rd_protocol dcl); [naive_solver|]. destruct Hd as [_ (a & Ha & Hok)]. congruence. }
  destruct u. apply refuse_if_Ok in Hv. bools. 
  match goal with H : safe_in 1 _ = true |- _ => apply safe_in_spec in H end.
  split_and!; try done; lia.
Qed.

(** An accepted job open is about what was asked, for the transport and the work
    unit that were asked for, and its settlement endpoint is the returned job's. *)
Lemma opened_job_is_as_requested input n r n' :
  loc_openJob input n = (Ok r, n') ->
  let s := jo_routeSnapshot r in
  lr_capability s = ji_capability input /\ lr_offering s = ji_offering input /\
  lr_protocol s = "paid-job/v1" /\ lr_binding s = ji_routeBinding input /\
  jo_brokerUrl r = lr_brokerUrl s /\ jo_workUnit r = lr_workUnit s /\ jo_transport r = ji_transport input /\
  (exists j, lr_job s = Some j /\ ji_transport input ∈ jx_transports j) /\
  jo_settleEndpoint r = "/v1/jobs/" +:+ jo_operationId r +:+ "/settle" /\
  1 <= ji_estimatedUnits input.
Proof.
  unfold loc_openJob. rewrite mbind_Ok. intros (u & n1 & Hv & H).
  apply mlift_Ok in Hv as [Hv ->]. apply mbind_Ok in H as (b & n2 & _ & H).
  apply mbind_Ok in H as (w & n3 & _ & H). apply mlift_Ok in H as [H ->].
  unfold mapJobOpen in H. apply result_bind_Ok in H as (snap & Hsnap & H).
  apply result_bind_Ok in H as ([] & Hreq & H). apply requireSnapshot_inv in Hreq as (?&?&?&?).
  apply guard_Ok in H as [Hg H]. bools. injection H as <-. cbn.
  destruct (lr_job snap) as [j|] eqn:Hj; [|done]. bools.
  destruct u. apply refuse_if_Ok in Hv. bools.
  match goal with H : safe_in 1 _ = true |- _ => apply safe_in_spec in H end.
  split_and!; try done; [eauto|lia].
Qed.

(** An accepted close or settlement is for the operation, the units and the
    outcome that were reported; a LOC answer that bills other units is refused. *)
Lemma accounting_matches_report :
  (forall input n r n', loc_closeSession input n = (Ok r, n') ->
     cc_operationId r = ci_operationId input /\ cc_actualUnits r = ci_actualUnits input /\
     0 <= cc_actualUnits r <= MAX_SAFE_INTEGER /\
     (forall o, ci_outcome input = Some o -> cc_outcome r = o)) /\
  (forall input n r n', loc_settleJob input n = (Ok r, n') ->
     sj_operationId r = si_operationId input /\ sj_actualUnits r = si_actualUnits input /\
     0 <= sj_actualUnits r <= MAX_SAFE_INTEGER /\ sj_outcome r = si_outcome input).
Proof.
  split; intros input n r n'.
  - unfold loc_closeSession. rewrite mbind_Ok. intros (u & n1 & Hv & H).
    apply mlift_Ok in Hv as [Hv ->]. apply mbind_Ok in H as (w & n3 & _ & H).
    apply mlift_Ok in H as [H ->]. unfold mapClose in H. apply guard_Ok in H as [Hg H].
    injection H as ->. destruct u. apply refuse_if_Ok in Hv. bools.
    match goal with H : safe_in 0 _ = true |- _ => apply safe_in_spec in H end.
    split_and!; try done; try lia. intros o Ho.
    match goal with H : match ci_outcome input with _ => _ end = false |- _ => rewrite Ho in H; by bools end.
  - unfold loc_settleJob. rewrite mbind_Ok. intros (u & n1 & Hv & H).
    apply mlift_Ok in Hv as [Hv ->]. apply mbind_Ok in H as (w & n3 & _ & H).
    apply mlift_Ok in H as [H ->]. unfold mapJobSettlement in H. apply guard_Ok in H as [Hg H].
    injection H as ->. destruct u. apply refuse_if_Ok in Hv. bools.
    match goal with H : safe_in 0 _ = true |- _ => apply safe_in_spec in H end.
    split_and!; try done; lia.
Qed.

End spec.

(** ** Witnesses *)

Definition sample_worker_route : SelectedWorkerRoute :=
  mkSelectedRoute "https://broker" "0xabc" "video:transcode.live" "std" "10" "output_seconds"
    "paid-session/v1" None (Some sample_axes) None [mkSettlementKey "pk" "0" "9" "1"]
    (Some sample_domain) (Some "1") (Some "quote") (Some "1") (Some sample_bytes) (Some sample_bytes)
    None None.

Lemma binding_is_the_routes_witness :
  routeBindingFor sample_worker_route = Ok sample_binding /\
  sw_quoteId sample_worker_route = Some (rb_quoteId sample_binding).
Proof.
  assert (routeBindingFor sample_worker_route = Ok sample_binding) as H by (vm_compute; reflexivity).
  split; [exact H|]. apply (binding_is_the_routes sample_worker_route sample_binding H).
Defined.

Lemma opened_session_is_as_requested_witness :
  exists r n', loc_openSession sample_open_input net0 = (Ok r, n') /\
    lr_binding (lo_routeSnapshot r) = sample_binding.
Proof.
  destruct (loc_openSession sample_open_input net0) as [[r|e] n'] eqn:H.
  - exists r, n'. split; [reflexivity|].
    apply (opened_session_is_as_requested sample_open_input net0 r n' H).
  - exfalso. vm_compute in H. discriminate H.
Defined.

Lemma opened_job_is_as_requested_witness :
  exists r n', loc_openJob sample_job_input net0 = (Ok r, n') /\ jo_transport r = unary.
Proof.
  destruct (loc_openJob sample_job_input net0) as [[r|e] n'] eqn:H.
  - exists r, n'. split; [reflexivity|].
    apply (opened_job_is_as_requested sample_job_input net0 r n' H).
  - exfalso. vm_compute in H. discriminate H.
Defined.

Lemma accounting_matches_report_witness :
  exists r n', loc_closeSession sample_close_input net0 = (Ok r, n') /\ cc_actualUnits r = 7.
Proof.
  destruct (loc_closeSession sample_close_input net0) as [[r|e] n'] eqn:H.
  - exists r, n'. split; [reflexivity|].
    apply (proj1 (accounting_matches_report) sample_close_input net0 r n' H).
  - exfalso. vm_compute in H. discriminate H.
Defined.
