(* ===== verification/SessionClient.v ===== *)
(** * The paid-session client (livepeer/paidSessionClient.ts)

    Opening, keying, polling, refilling and ending a session at a broker, with LOC
    for authorisation and accounting.  Every answer is decoded with its schema and
    compared with the request before anything is returned; ending a session verifies
    the signed settlement against the lookup and the handle before LOC is told to
    close. *)

From S2P Require Import Prelude Js Types Wire Http Interfaces RouteProtocol LocClient Outcome.
Open Scope Z_scope.

Definition PROTOCOL : string := "paid-session/v1".

Definition session_error (code : string) (retryable : bool) : exn := PaidSessionClientError code retryable.
Definition invalidRequest : exn := session_error "paid_session_request_invalid" false.
Definition invalidEvidence : exn := session_error "paid_session_evidence_invalid" false.

(** ** Schemas *)

(** [/^[a-z][a-z0-9_]{0,63}$/] *)
Definition safeFailureCode : decoder string := z_refined (snake_code 0 63).

Section schemas.
Context `{Plat : Platform}.

Definition z_url : decoder string := z_refined is_url.
Definition validTimestamp (value : string) : bool := is_present (date_parse value).

Definition grantWire : decoder PaidSessionGrant := z_object (fun f =>
  _ ← strict ["id"; "operations"; "secret"; "expires_at"; "max_uses"] f;
  id ← field f "id" z_text;
  operations ← field f "operations" (z_array 1 z_text);
  secret ← field f "secret" z_text;
  expiresAt ← field f "expires_at" z_text;
  maxUses ← opt_field f "max_uses" z_positive;
  Some (mkGrant id operations secret expiresAt maxUses)).

Definition balance_names : list (string * BalanceStatus) :=
  [("ok", balance_ok); ("low", balance_low); ("exhausted", balance_exhausted)].

Definition balanceWire : decoder PaidSessionBalance := z_object (fun f =>
  _ ← strict ["claimed_units"; "debited_units"; "unit"; "authorization_id"; "authorization_max_units";
              "authorization_cap_remaining_units"; "authorization_reserved_value_wei";
              "cumulative_billed_value_wei"; "account_available_value_wei"; "account_version";
              "runway_units"; "runway_seconds_estimate"; "status"; "will_refuse_next_refill"] f;
  claimed ← field f "claimed_units" z_nonneg;
  debited ← field f "debited_units" z_nonneg;
  unit_ ← field f "unit" z_text;
  authorization ← field f "authorization_id" z_text;
  maxUnits ← field f "authorization_max_units" z_positive;
  remaining ← field f "authorization_cap_remaining_units" z_nonneg;
  reserved ← field f "authorization_reserved_value_wei" weiDecimal;
  billed ← field f "cumulative_billed_value_wei" weiDecimal;
  available ← opt_field f "account_available_value_wei" weiDecimal;
  version ← opt_field f "account_version" z_nonneg;
  runway ← opt_field f "runway_units" z_nonneg;
  seconds ← opt_field f "runway_seconds_estimate" z_nonneg;
  status ← field f "status" (z_enum balance_names);
  refuse ← field f "will_refuse_next_refill" z_boolean;
  Some (mkBalance claimed debited unit_ authorization maxUnits remaining reserved billed available
          version runway seconds status refuse)).

Definition controlWire : decoder PaidSessionControl := z_object (fun f =>
  _ ← strict ["status_url"; "topup_url"; "end_url"; "events_ws"] f;
  status ← field f "status_url" z_url;
  topup ← field f "topup_url" z_url;
  end_ ← field f "end_url" z_url;
  events ← field f "events_ws" z_url;
  Some (mkControl status topup end_ events)).

(** [lease: z.object({ expires_at }).strict()] *)
Definition leaseWire : decoder string := z_object (fun f =>
  _ ← strict ["expires_at"] f; field f "expires_at" z_text).

Record OpenWire := mkOpenWire {
  ow_session_id : string;
  ow_work_id : string;
  ow_state : string;
  ow_schema : string;
  ow_public : json;
  ow_grants : list PaidSessionGrant;
  ow_lease_expires_at : string;
  ow_control : PaidSessionControl;
  ow_credential : string;
  ow_balance : PaidSessionBalance
}.
Definition openWire : decoder OpenWire := z_object (fun f =>
  _ ← strict ["session_id"; "work_id"; "state"; "runtime"; "lease"; "control"; "credential"; "balance"] f;
  sessionId ← field f "session_id" z_text;
  workId ← field f "work_id" z_text;
  state ← field f "state" z_text;
  runtime ← field f "runtime" (z_object (fun g =>
    _ ← strict ["schema"; "public"; "grants"] g;
    schema ← field g "schema" z_text;
    public ← field g "public" z_json;
    grants ← opt_field g "grants" (z_array 0 grantWire);
    Some (schema, public, grants ?? [])));
  expiresAt ← field f "lease" leaseWire;
  control ← field f "control" controlWire;
  credential ← field f "credential" z_text;
  balance ← field f "balance" balanceWire;
  let '(schema, public, grants) := runtime in
  Some (mkOpenWire sessionId workId state schema public grants expiresAt control credential balance)).

Record CapacityOpenWire := mkCapacityOpen {
  cw_session_id : string;
  cw_gateway_session_id : string;
  cw_work_id : string
}.
Definition capacityOpenWire : decoder CapacityOpenWire := z_object (fun f =>
  sessionId ← field f "session_id" z_text;
  gatewaySessionId ← field f "gateway_session_id" z_text;
  workId ← field f "work_id" z_text;
  _ ← field f "settlement_url" z_url;
  Some (mkCapacityOpen sessionId gatewaySessionId workId)).

Definition streamKeyWire : decoder PaidSessionStreamKeyResult := z_object (fun f =>
  _ ← strict ["request_id"; "stream_key"; "expires_at"] f;
  requestId ← field f "request_id" z_text;
  key ← field f "stream_key" (z_refined (fun s => nonempty s && (str_len s <=? 512)));
  expiresAt ← field f "expires_at" z_text;
  Some (mkKeyResult requestId key expiresAt)).

Definition output_names : list (string * OutputState) :=
  [("waiting", output_waiting); ("producing", output_producing); ("stalled", output_stalled)].

Record StatusWire := mkStatusWire {
  tw_session_id : string;
  tw_gateway_session_id : string;
  tw_work_id : string;
  tw_authorization_id : string;
  tw_state : string;
  tw_schema : string;
  tw_public : json;
  tw_usage_unit : string;
  tw_claimed_total : Z;
  tw_lease_expires_at : string;
  tw_balance : PaidSessionBalance;
  tw_close_reason : option string;
  tw_output_state : OutputState;
  tw_output_state_since : option string;
  tw_last_failure_code : option string
}.
Definition statusWire : decoder StatusWire := z_object (fun f =>
  _ ← strict ["session_id"; "gateway_session_id"; "work_id"; "authorization_id"; "state"; "runtime";
              "usage"; "lease"; "balance"; "started_at"; "rotation"; "ended_at"; "close_reason";
              "output_state"; "output_state_since"; "last_failure_code"] f;
  sessionId ← field f "session_id" z_text;
  gatewaySessionId ← field f "gateway_session_id" z_text;
  workId ← field f "work_id" z_text;
  authorization ← field f "authorization_id" z_text;
  state ← field f "state" z_text;
  runtime ← field f "runtime" (z_object (fun g =>
    _ ← strict ["schema"; "public"] g;
    schema ← field g "schema" z_text; public ← field g "public" z_json; Some (schema, public)));
  usage ← field f "usage" (z_object (fun g =>
    _ ← strict ["unit"; "claimed_total"] g;
    unit_ ← field g "unit" z_text; total ← field g "claimed_total" z_nonneg; Some (unit_, total)));
  expiresAt ← field f "lease" leaseWire;
  balance ← field f "balance" balanceWire;
  _ ← field f "started_at" z_text;
  _ ← opt_field f "ended_at" z_string;
  closeReason ← opt_field f "close_reason" z_string;
  output ← opt_field f "output_state" (z_enum (("unknown", output_unknown) :: output_names));
  since ← opt_field f "output_state_since" z_text;
  failure ← opt_field f "last_failure_code" safeFailureCode;
  Some (mkStatusWire sessionId gatewaySessionId workId authorization state (fst runtime) (snd runtime)
          (fst usage) (snd usage) expiresAt balance closeReason (output ?? output_unknown) since failure)).

Record TopupWire := mkTopupWire {
  uw_session_id : string;
  uw_work_id : string;
  uw_lease_expires_at : string;
  uw_balance : PaidSessionBalance
}.
Definition topupWire : decoder TopupWire := z_object (fun f =>
  _ ← strict ["session_id"; "work_id"; "lease"; "balance"] f;
  sessionId ← field f "session_id" z_text;
  workId ← field f "work_id" z_text;
  expiresAt ← field f "lease" leaseWire;
  balance ← field f "balance" balanceWire;
  Some (mkTopupWire sessionId workId expiresAt balance)).

Record EndWire := mkEndWire {
  dw_session_id : string;
  dw_work_id : string;
  dw_state : string;
  dw_close_reason : string
}.
Definition endWire : decoder EndWire := z_object (fun f =>
  _ ← strict ["session_id"; "work_id"; "state"; "close_reason"; "ended_at"] f;
  sessionId ← field f "session_id" z_text;
  workId ← field f "work_id" z_text;
  state ← field f "state" z_text;
  reason ← field f "close_reason" z_string;
  _ ← field f "ended_at" z_text;
  Some (mkEndWire sessionId workId state reason)).

Record SettlementLookupWire := mkLookupWire {
  lw_session_id : string;
  lw_gateway_session_id : string;
  lw_work_id : string;
  lw_authorization_id : string;
  lw_state : string;
  lw_unit : string;
  lw_claimed_units : Z;
  lw_debited_units : Z;
  lw_settlement_seq : Z;
  lw_settlement : option string
}.
Definition settlementLookupWire : decoder SettlementLookupWire := z_object (fun f =>
  sessionId ← field f "session_id" z_text;
  gatewaySessionId ← field f "gateway_session_id" z_text;
  workId ← field f "work_id" z_text;
  authorization ← field f "authorization_id" z_text;
  _ ← opt_field f "predecessor_work_id" z_string;
  _ ← opt_field f "rotation_generation" z_nonneg;
  state ← field f "state" z_text;
  unit_ ← field f "unit" z_text;
  claimed ← field f "claimed_units" z_nonneg;
  debited ← field f "debited_units" z_nonneg;
  seq ← field f "settlement_seq" z_positive;
  settlement ← opt_field f "settlement" z_string;
  Some (mkLookupWire sessionId gatewaySessionId workId authorization state unit_ claimed debited seq settlement)).

(** [controlEventWire] with [parsePaidSessionControlEvent]'s mapping. *)
Definition control_event (type : string) : decoder PaidSessionControlEvent :=
  if type ==? "session.usage.tick" then z_object (fun g =>
    _ ← strict ["sequence"; "unit"; "claimed_total"; "debited_units"] g;
    sequence ← field g "sequence" z_positive;
    unit_ ← field g "unit" z_text;
    total ← field g "claimed_total" z_nonneg;
    debited ← field g "debited_units" z_nonneg;
    Some (usage_tick sequence unit_ total debited))
  else if type ==? "session.balance" then fun j =>
    balance ← balanceWire j; Some (balance_event balance)
  else if type ==? "session.output.health" then z_object (fun g =>
    _ ← strict ["output_state"; "output_state_since"; "last_failure_code"] g;
    state ← field g "output_state" (z_enum output_names);
    since ← field g "output_state_since" (z_refined validTimestamp);
    failure ← opt_field g "last_failure_code" safeFailureCode;
    Some (output_health state since failure))
  else if type ==? "session.ended" then z_object (fun g =>
    _ ← strict ["state"; "close_reason"] g;
    state ← field g "state" z_text;
    reason ← field g "close_reason" z_text;
    Some (session_ended state reason))
  else if type ==? "session.rebound" then z_object (fun g =>
    _ ← strict ["rotation_generation"; "predecessor_work_id"; "work_id"] g;
    generation ← field g "rotation_generation" z_positive;
    predecessor ← field g "predecessor_work_id" z_text;
    workId ← field g "work_id" z_text;
    Some (session_rebound generation predecessor workId))
  else fun _ => None.

Definition controlEventWire : decoder PaidSessionControlEvent := z_object (fun f =>
  _ ← strict ["type"; "body"] f;
  type ← field f "type" z_string;
  field f "body" (control_event type)).

Definition parsePaidSessionControlEvent (value : json) : result exn PaidSessionControlEvent :=
  match controlEventWire value with
  | Some event => Ok event
  | None => Err invalidEvidence
  end.

End schemas.

Section client.
Context `{Plat : Platform} `{Net : Fetch} `{Loc : LocClient}.

(** ** Handles and headers *)

Definition handle_operationId (h : PaidSessionControlHandle) : string :=
  match h with Opened o => lo_operationId o | Recovered r => rh_operationId r end.
Definition handle_brokerUrl (h : PaidSessionControlHandle) : string :=
  match h with Opened o => lo_brokerUrl o | Recovered r => rh_brokerUrl r end.
Definition controlDescriptor (h : PaidSessionControlHandle) : string :=
  match h with Opened o => ax_descriptorSchema (lo_session o) | Recovered r => rh_descriptorSchema r end.
Definition controlWorkUnit (h : PaidSessionControlHandle) : string :=
  match h with Opened o => lr_workUnit (lo_routeSnapshot o) | Recovered r => rh_workUnit r end.
Definition controlSettlementDomain (h : PaidSessionControlHandle) : string :=
  match h with Opened o => lr_settlementDomainId (lo_routeSnapshot o) | Recovered r => rh_settlementDomainId r end.

Definition brokerControlUrl (brokerUrl id suffix : string) : result exn string :=
  throw_if negb (nonempty id) with invalidRequest ;;
  Ok (strip_slash brokerUrl +:+ "/v1/session/" +:+ encodeURIComponent id +:+ suffix).

Definition authHeaders (credential : string) : result exn (list (string * string)) :=
  throw_if negb (nonempty credential) with invalidRequest ;;
  new_headers [("Authorization", "Bearer " +:+ credential)].

Definition payment_header (payment : option string) : list (string * string) :=
  match payment with
  | Some p => if nonempty p then [(HEADER.PAYMENT, p)] else []
  | None => []
  end.

Definition brokerOpenHeaders (opened : LocOpenSessionResult) : result exn (list (string * string)) :=
  let? proof := signAuthorization (lo_spendAuthorization opened) in
  new_headers ([(HEADER.CAPABILITY, lr_capability (lo_routeSnapshot opened));
                (HEADER.OFFERING, lr_offering (lo_routeSnapshot opened));
                (HEADER.AUTHORIZATION, lo_spendAuthorization opened);
                (HEADER.CALLER_PROOF, proof);
                (HEADER.PROTOCOL, PROTOCOL);
                (HEADER.REQUEST_ID, lo_requestId opened);
                ("Content-Type", "application/json")] ++ payment_header (lo_paymentEnvelope opened)).

(** ** Responses *)

Definition parseResponse {A} (response : HttpResponse) (schema : decoder A) : result exn A :=
  if negb (response_ok response) then
    let code := get_header HEADER.ERROR response ?? "paid_session_broker_refused" in
    Err (session_error code (vf_retryable (classifyV2Failure code (Some (rs_status response)))))
  else
    match rs_json response ≫= schema with
    | Some a => Ok a
    | None => Err (session_error "paid_session_response_invalid" false)
    end.

Definition jsonRequest {A} (rq : HttpRequest) (schema : decoder A) : N A :=
  do! response <- fetch rq; mlift (parseResponse response schema).

Definition decodeEnvelope (encoded : string) : result exn LocSettlementEnvelope :=
  match json_parse (base64_text encoded) ≫= settlementEnvelopeWire with
  | Some e => Ok e
  | None => Err (session_error "paid_session_settlement_invalid" false)
  end.

Definition safeUnits (value : option json) : result exn Z :=
  match value with
  | Some (JStr s) => match safe_decimal s with Some z => Ok z | None => Err invalidEvidence end
  | _ => Err invalidEvidence
  end.
Definition requiredString (value : option json) : result exn string :=
  match value with
  | Some (JStr s) => if nonempty s then Ok s else Err invalidEvidence
  | _ => Err invalidEvidence
  end.

(** ** Validation of requests *)

Definition validateOpen (input : PaidSessionOpenRequest) : result exn unit :=
  refuse_if ((sw_protocol (or_route input) !=? PROTOCOL) ||
             match sw_session (or_route input) with
             | Some a => ax_descriptorSchema a !=? or_descriptorSchema input
             | None => true
             end ||
             negb (nonempty (or_requestId input)) ||
             negb (safe_in 1 (or_estimatedRunwayUnits input)) ||
             negb (safe_integer (or_maxTotalUnits input)) ||
             (or_maxTotalUnits input <? or_estimatedRunwayUnits input))
    invalidRequest.

Definition validRunnerUrl (value : string) : bool :=
  match new_URL value with
  | Some u => ((url_protocol u ==? "http:") || (url_protocol u ==? "https:")) &&
              (url_username u ==? "") && (url_password u ==? "") && (url_hash u ==? "")
  | None => false
  end.

Definition validateRefill (input : PaidSessionRefillRequest) : result exn unit :=
  refuse_if (negb (nonempty (fr_requestId input)) || negb (safe_in 1 (fr_maxTotalUnits input))) invalidRequest.

Definition validateEnd (input : PaidSessionEndRequest) : result exn unit :=
  refuse_if (negb (nonempty (er_gatewaySessionId input)) || negb (nonempty (er_brokerSessionId input)) ||
             negb (nonempty (er_credential input)) || negb (nonempty (er_reason input)))
    invalidRequest.

(** The reason sent to the runner: an alias of the product's reason, or the reason
    itself, when the descriptor knows it. *)
Definition close_aliases : list (string * string) :=
  [("customer_end", "gateway_close"); ("publisher_disconnect", "gateway_close");
   ("broker_ended", "gateway_close"); ("lease_exhausted", "lease_expired");
   ("relay_failure", "ingest_failed"); ("refill_preannounced_refusal", "refill_refused");
   ("refill_policy_exhausted", "refill_refused"); ("refill_total_exceeded", "refill_refused");
   ("runner_ended", "gateway_close"); ("insufficient_balance", "runway_exhausted");
   ("authorization_exhausted", "runway_exhausted"); ("open_failed", "recovery_failed");
   ("capacity_exhausted", "recovery_failed")].
Definition runner_reasons : list string :=
  ["gateway_close"; "lease_expired"; "heartbeat_lost"; "runway_exhausted"; "refill_refused";
   "recovery_failed"; "payment_unrecoverable"; "runner_failed"; "ingest_failed"; "output_failed"].
Definition runnerCloseReason (reason : string) : result exn string :=
  let mapped := assoc reason close_aliases ?? reason in
  throw_if negb (bool_decide (mapped ∈ runner_reasons)) with invalidRequest ;;
  Ok mapped.

(** ** LOC calls *)

(** [sessionLocCall]: name the LOC operation a transport error came from. *)
Definition sessionLocCall {A} (operation : string) (call : N A) : N A :=
  mcatch call (fun error =>
    mthrow match error with
           | LocTransportError e => LocTransportError (e <| loc_operation := Some operation |>)
           | _ => error
           end).

(** Transport errors of an accounting call become errors of the session client. *)
Definition as_session_error (error : exn) : exn :=
  match error with
  | LocTransportError e => session_error (loc_remoteCode e ?? loc_code e) (loc_retryable e)
  | _ => error
  end.
Definition accounting_call {A} (call : N A) : N A :=
  mcatch call (fun error => mthrow (as_session_error error)).

(** ** settleCapacityOpen

    A broker out of capacity refuses the open with a zero settlement, which is
    verified and closed at LOC before the refusal is reported. *)
Definition check_zero_units (value : option json) : result exn unit :=
  let? z := safeUnits value in refuse_if (negb (z =? 0)) invalidEvidence.
Definition check_string (value : option json) (expected : string) : result exn unit :=
  let? s := requiredString value in refuse_if (s !=? expected) invalidEvidence.

Definition settleCapacityOpen (opened : LocOpenSessionResult) (gatewaySessionId : string)
    (response : HttpResponse) : N unit :=
  do! body <- mlift match rs_json response ≫= capacityOpenWire with
                    | Some b => Ok b
                    | None => Err (session_error "paid_session_response_invalid" false)
                    end;
  do! encoded <- mlift match get_header HEADER.SETTLEMENT response with
                       | Some e => if nonempty e then Ok e else Err invalidEvidence
                       | None => Err invalidEvidence
                       end;
  do! envelope <- mlift (decodeEnvelope encoded);
  let payload := en_payload envelope in
  do! outcome <- mlift (requiredString (assoc "outcome" payload));
  run! mlift (refuse_if ((cw_gateway_session_id body !=? gatewaySessionId) ||
                         (cw_work_id body !=? lo_workId opened)) invalidEvidence);
  run! mlift (check_string (assoc "gateway_session_id" payload) gatewaySessionId);
  run! mlift (check_string (assoc "session_id" payload) (cw_session_id body));
  run! mlift (check_string (assoc "work_id" payload) (lo_workId opened));
  run! mlift (check_string (assoc "authorization_id" payload) (lo_workId opened));
  run! mlift (check_string (assoc "settlement_domain_id" payload)
                (lr_settlementDomainId (lo_routeSnapshot opened)));
  run! mlift (check_string (assoc "work_unit_name" payload) (lr_workUnit (lo_routeSnapshot opened)));
  run! mlift (check_zero_units (assoc "actual_units" payload));
  run! mlift (check_zero_units (assoc "claimed_units" payload));
  run! mlift (check_zero_units (assoc "debited_units" payload));
  accounting_call (
    do! accounting <- closeSession (mkCloseInput (lo_operationId opened) 0 (Some outcome) envelope);
    mlift (refuse_if ((cc_workId accounting !=? lo_workId opened) || negb (cc_actualUnits accounting =? 0))
             invalidEvidence)).

(** ** open *)
Definition session_open (input : PaidSessionOpenRequest) : N PaidSessionOpenResult :=
  run! mlift (validateOpen input);
  do! binding <- mlift (routeBindingFor (or_route input));
  do! prepared <- sessionLocCall "prepare_session" (prepareSession
    (mkPrepareInput (or_requestId input) (sw_capability (or_route input)) (sw_offering (or_route input))
       (or_descriptorSchema input) binding));
  let body := stringify (JObj [("gateway_session_id", JStr (pp_gatewaySessionId prepared));
                               ("session_params", JObj (or_sessionParams input))]) in
  run! mlift (refuse_if (pp_brokerUrl prepared !=? sw_workerUrl (or_route input)) invalidEvidence);
  do! opened <- sessionLocCall "open_session" (openSession
    (mkOpenInput (or_requestId input) (sw_capability (or_route input)) (sw_offering (or_route input))
       (or_descriptorSchema input) (or_sessionParams input) (or_estimatedRunwayUnits input)
       (or_maxTotalUnits input) binding (pp_gatewaySessionId prepared) (pp_preparationToken prepared)
       (sha256_hex body) caller_publicKey));
  do! headers <- mlift (brokerOpenHeaders opened);
  do! response <- fetch (mkHttpRequest "POST" (strip_slash (lo_brokerUrl opened) +:+ "/v1/session")
                           headers (Some body));
  if (rs_status response =? 503) && (get_header HEADER.ERROR response ==? Some "capacity_exhausted") then
    run! settleCapacityOpen opened (pp_gatewaySessionId prepared) response;
    mthrow (session_error "capacity_exhausted" true)
  else
    do! value <- mlift (parseResponse response openWire);
    run! mlift (refuse_if ((ow_work_id value !=? lo_workId opened) ||
                           (ow_schema value !=? or_descriptorSchema input) ||
                           (ba_unit (ow_balance value) !=? lr_workUnit (lo_routeSnapshot opened)))
                  invalidEvidence);
    mret_ {| po_opened := opened; po_gatewaySessionId := pp_gatewaySessionId prepared;
             po_brokerSessionId := ow_session_id value; po_workId := ow_work_id value;
             po_state := ow_state value; po_credential := ow_credential value;
             po_runtimeSchema := ow_schema value; po_runtimePublic := ow_public value;
             po_grants := ow_grants value; po_leaseExpiresAt := ow_lease_expires_at value;
             po_balance := ow_balance value; po_control := ow_control value |}.

Definition audience_name (m : PublisherMode) : string :=
  match m with gateway_relay => "gateway-relay" | direct_publisher => "direct-publisher" end.

(** ** issueStreamKey *)
Definition session_issueStreamKey (input : PaidSessionStreamKeyRequest) : N PaidSessionStreamKeyResult :=
  run! mlift (refuse_if (negb (nonempty (kr_requestId input)) ||
                         negb (bool_decide ("stream-key-issue" ∈ gr_operations (kr_grant input))) ||
                         negb (nonempty (gr_secret (kr_grant input))) ||
                         negb (validRunnerUrl (kr_keyIssueUrl input))) invalidRequest);
  do! headers <- mlift (new_headers [("Authorization", "Bearer " +:+ gr_secret (kr_grant input));
                                     ("Content-Type", "application/json")]);
  do! value <- jsonRequest (mkHttpRequest "POST" (kr_keyIssueUrl input) headers
    (Some (stringify (JObj [("request_id", JStr (kr_requestId input));
                            ("audience", JStr (audience_name (kr_audience input)))])))) streamKeyWire;
  run! mlift (refuse_if ((kx_requestId value !=? kr_requestId input) ||
                         negb (validTimestamp (kx_expiresAt value))) invalidEvidence);
  mret_ value.

(** ** status *)
Definition session_status (input : PaidSessionStatusRequest) : N PaidSessionStatusResult :=
  do! url <- mlift (brokerControlUrl (handle_brokerUrl (sr_opened input)) (sr_brokerSessionId input) "");
  do! headers <- mlift (authHeaders (sr_credential input));
  do! value <- jsonRequest (mkHttpRequest "GET" url headers None) statusWire;
  run! mlift (refuse_if
    ((tw_session_id value !=? sr_brokerSessionId input) || (tw_work_id value !=? sr_workId input) ||
     (tw_authorization_id value !=? tw_work_id value) ||
     (ba_authorizationId (tw_balance value) !=? tw_authorization_id value) ||
     (tw_schema value !=? controlDescriptor (sr_opened input)) ||
     (tw_usage_unit value !=? controlWorkUnit (sr_opened input)) ||
     (ba_unit (tw_balance value) !=? controlWorkUnit (sr_opened input)) ||
     match tw_output_state_since value with Some t => negb (validTimestamp t) | None => false end)
    invalidEvidence);
  mret_ {| sx_brokerSessionId := tw_session_id value; sx_gatewaySessionId := tw_gateway_session_id value;
           sx_workId := tw_work_id value; sx_state := tw_state value; sx_runtimeSchema := tw_schema value;
           sx_runtimePublic := tw_public value; sx_claimedUnits := tw_claimed_total value;
           sx_workUnit := tw_usage_unit value; sx_leaseExpiresAt := tw_lease_expires_at value;
           sx_balance := tw_balance value; sx_closeReason := tw_close_reason value;
           sx_outputState := tw_output_state value; sx_outputStateSince := tw_output_state_since value;
           sx_lastFailureCode := tw_last_failure_code value |}.

(** ** refill *)
Definition session_refill (input : PaidSessionRefillRequest) : N PaidSessionRefillResult :=
  run! mlift (validateRefill input);
  do! refill <- accounting_call (refillSession
    (mkRefillInput (handle_operationId (fr_opened input)) (fr_requestId input)
       (fr_observedConsumedUnits input) (fr_maxTotalUnits input) (sha256_hex "{}")));
  do! auth <- mlift (authHeaders (fr_credential input));
  do! proof <- mlift (signAuthorization (rf_spendAuthorization refill));
  do! headers <- mlift (new_headers (auth ++
    [(HEADER.AUTHORIZATION, rf_spendAuthorization refill); (HEADER.CALLER_PROOF, proof);
     (HEADER.REQUEST_ID, rf_requestId refill); ("Content-Type", "application/json")] ++
    payment_header (rf_paymentEnvelope refill)));
  do! url <- mlift (brokerControlUrl (handle_brokerUrl (fr_opened input)) (fr_brokerSessionId input) "/topup");
  do! value <- jsonRequest (mkHttpRequest "POST" url headers (Some "{}")) topupWire;
  run! mlift (refuse_if ((uw_session_id value !=? fr_brokerSessionId input) ||
                         (uw_work_id value !=? rf_workId refill) ||
                         (ba_unit (uw_balance value) !=? controlWorkUnit (fr_opened input)))
                invalidEvidence);
  mret_ (mkRefillResult refill (uw_session_id value) (uw_work_id value) (uw_lease_expires_at value)
           (uw_balance value)).

(** ** end *)

(** [response.headers.get(...) ?? header ?? wire.settlement] *)
Definition settlementLookup (brokerUrl gatewaySessionId : string) (header : option string)
    : N (SettlementLookupWire * LocSettlementEnvelope) :=
  do! response <- fetch (mkHttpRequest "GET"
    (strip_slash brokerUrl +:+ "/v1/settlement/" +:+ encodeURIComponent gatewaySessionId) [] None);
  do! wire <- mlift (parseResponse response settlementLookupWire);
  match or_else (get_header HEADER.SETTLEMENT response) (or_else header (lw_settlement wire)) with
  | Some encoded =>
      if nonempty encoded then do! envelope <- mlift (decodeEnvelope encoded); mret_ (wire, envelope)
      else mthrow invalidEvidence
  | None => mthrow invalidEvidence
  end.

(** The outcome of a settlement payload; protobuf JSON omits the unspecified one. *)
Definition settlement_outcome (payload : list (string * json)) : result exn (option string) :=
  match assoc "outcome" payload with
  | None => Ok None
  | Some (JStr s) =>
      if s ==? "SETTLEMENT_OUTCOME_UNSPECIFIED" then Ok None
      else let? o := requiredString (Some (JStr s)) in Ok (Some o)
  | Some j => let? o := requiredString (Some j) in Ok (Some o)
  end.

(** [payload[k] ?? "0"] *)
Definition units_or_zero (payload : list (string * json)) (k : string) : result exn Z :=
  safeUnits (Some (match assoc k payload with Some JNull | None => JStr "0" | Some j => j end)).

(** The mismatch test of [end]: its disjuncts are evaluated left to right, and the
    extractors throw on their own. *)
Definition settlement_mismatch (input : PaidSessionEndRequest) (wire : SettlementLookupWire)
    (payload : list (string * json)) (actualUnits : Z) (outcome : option string) : result exn bool :=
  let mismatch (r : result exn bool) (k : result exn bool) :=
    let? bad := r in if bad then Ok true else k in
  let differs (k expected : string) := let? s := requiredString (assoc k payload) in Ok (s !=? expected) in
  mismatch (Ok (outcome ==? Some "DEBIT_FAILED"))
  (mismatch (Ok match assoc "state" payload with Some (JStr s) => s !=? "closed" | _ => true end)
  (mismatch (differs "gateway_session_id" (er_gatewaySessionId input))
  (mismatch (differs "session_id" (er_brokerSessionId input))
  (mismatch (differs "work_id" (lw_work_id wire))
  (mismatch (differs "authorization_id" (lw_authorization_id wire))
  (mismatch (differs "settlement_domain_id" (controlSettlementDomain (er_opened input)))
  (mismatch (differs "work_unit_name" (lw_unit wire))
  (mismatch (Ok (negb (actualUnits =? lw_claimed_units wire)))
  (mismatch (let? z := units_or_zero payload "claimed_units" in Ok (negb (z =? actualUnits)))
  (mismatch (let? z := units_or_zero payload "debited_units" in Ok (negb (z =? actualUnits)))
  (let? z := safeUnits (assoc "settlement_seq" payload) in
   Ok (negb (z =? lw_settlement_seq wire))))))))))))).

Definition close_pending : exn := session_error "paid_session_close_pending" true.

Definition session_end (input : PaidSessionEndRequest) : N PaidSessionEndResult :=
  run! mlift (validateEnd input);
  do! url <- mlift (brokerControlUrl (handle_brokerUrl (er_opened input)) (er_brokerSessionId input) "/end");
  do! auth <- mlift (authHeaders (er_credential input));
  do! headers <- mlift (new_headers (auth ++ [("Content-Type", "application/json")]));
  do! reason <- mlift (runnerCloseReason (er_reason input));
  do! response <- fetch (mkHttpRequest "POST" url headers
                           (Some (stringify (JObj [("reason", JStr reason)]))));
  do! body <- mlift (parseResponse response endWire);
  run! mlift (refuse_if (dw_session_id body !=? er_brokerSessionId input) invalidEvidence);
  run! mlift (refuse_if ((dw_state body ==? "winding_down") || (dw_state body ==? "open") ||
                         (dw_state body ==? "active")) close_pending);
  run! mlift (refuse_if (negb (bool_decide (dw_state body ∈ ["closed"; "ended"; "failed"]))) invalidEvidence);
  do! lookup <- settlementLookup (handle_brokerUrl (er_opened input)) (er_gatewaySessionId input)
                  (get_header HEADER.SETTLEMENT response);
  let wire := fst lookup in
  let payload := en_payload (snd lookup) in
  run! mlift (refuse_if ((lw_state wire ==? "winding_down") || (lw_state wire ==? "open")) close_pending);
  run! mlift (refuse_if
    ((lw_session_id wire !=? er_brokerSessionId input) ||
     (lw_gateway_session_id wire !=? er_gatewaySessionId input) ||
     (lw_work_id wire !=? dw_work_id body) || (lw_authorization_id wire !=? lw_work_id wire) ||
     (lw_unit wire !=? controlWorkUnit (er_opened input)) ||
     negb (lw_claimed_units wire =? lw_debited_units wire) || (lw_state wire !=? "closed")) invalidEvidence);
  do! actualUnits <- mlift (units_or_zero payload "actual_units");
  do! outcome <- mlift (settlement_outcome payload);
  do! bad <- mlift (settlement_mismatch input wire payload actualUnits outcome);
  run! mlift (refuse_if bad (session_error
    (if outcome ==? Some "DEBIT_FAILED" then "paid_session_debit_failed"
     else "paid_session_settlement_identity_mismatch") false));
  do! accounting <- accounting_call (closeSession
    (mkCloseInput (handle_operationId (er_opened input)) actualUnits outcome (snd lookup)));
  run! mlift (refuse_if (cc_workId accounting !=? lw_work_id wire) invalidEvidence);
  mret_ {| ex_brokerSessionId := dw_session_id body; ex_workId := dw_work_id body;
           ex_state := dw_state body; ex_closeReason := dw_close_reason body;
           ex_settlementSequence := lw_settlement_seq wire; ex_actualUnits := actualUnits;
           ex_outcome := cc_outcome accounting; ex_envelope := snd lookup; ex_accounting := accounting |}.

End client.
