(* ===== verification/SessionClientSpec.v ===== *)
(** * What the session client guarantees

    The client discharges the [PaidSessionClient] interface for every network and
    every LOC client, and an ended session carries a verified settlement. *)

From S2P Require Import Prelude Js Types Wire Http Interfaces RouteProtocol LocClient SampleNet.
From S2P Require Import Outcome SessionClient.
Open Scope Z_scope.

Section spec.
Context `{Plat : Platform}.

(** ** Decoded units *)

Lemma field_nonneg f k z : field f k z_nonneg = Some z -> safe_nat z.
Proof.
  intros H. apply field_Some in H as (j & _ & H). apply z_int_from_spec in H as (_ & H1 & H2).
  unfold safe_nat. lia.
Qed.

Lemma field_positive f k z : field f k z_positive = Some z -> safe_nat z /\ 1 <= z.
Proof.
  intros H. apply field_Some in H as (j & _ & H). apply z_int_from_spec in H as (_ & H1 & H2).
  unfold safe_nat. lia.
Qed.

Lemma opt_field_nonneg f k o : opt_field f k z_nonneg = Some o -> safe_opt o.
Proof.
  unfold opt_field. destruct (assoc k f) as [j|]; [|by intros [= <-]].
  destruct (z_nonneg j) as [z|] eqn:E; [|done]. intros [= <-].
  apply z_int_from_spec in E as (_ & H1 & H2). cbn. unfold safe_nat. lia.
Qed.

Ltac next H := apply bind_Some in H as (? & ? & H).

Lemma balanceWire_units j b : balanceWire j = Some b -> balance_ok_units b.
Proof.
  intros H. apply z_object_Some in H as (f & -> & H). cbv beta in H.
  do 15 next H. injection H as <-. constructor; cbn.
  - by eapply field_nonneg.
  - by eapply field_nonneg.
  - by eapply field_positive.
  - by eapply opt_field_nonneg.
Qed.

Lemma field_balance f k b : field f k balanceWire = Some b -> balance_ok_units b.
Proof. intros H. apply field_Some in H as (j & _ & H). by eapply balanceWire_units. Qed.

Lemma openWire_units j w : openWire j = Some w -> balance_ok_units (ow_balance w).
Proof.
  intros H. apply z_object_Some in H as (f & -> & H). cbv beta in H.
  do 9 next H. case_match; simplify_eq/=. case_match; simplify_eq/=. by eapply field_balance.
Qed.

Lemma statusWire_units j w :
  statusWire j = Some w -> balance_ok_units (tw_balance w) /\ safe_nat (tw_claimed_total w).
Proof.
  intros H. apply z_object_Some in H as (f & -> & H). cbv beta in H.
  do 16 next H. injection H as <-. cbn. split; [by eapply field_balance|].
  match goal with Hu : field _ "usage" _ = Some _ |- _ => apply field_Some in Hu as (j & _ & Hu) end.
  match goal with Hu : z_object _ j = Some _ |- _ => rename Hu into Hu' end.
  rename Hu' into Hu. apply z_object_Some in Hu as (g & -> & Hu). cbv beta in Hu.
  do 3 next Hu. injection Hu as <-. cbn. by eapply field_nonneg.
Qed.

Lemma topupWire_units j w : topupWire j = Some w -> balance_ok_units (uw_balance w).
Proof.
  intros H. apply z_object_Some in H as (f & -> & H). cbv beta in H.
  do 5 next H. injection H as <-. by eapply field_balance.
Qed.

Lemma lookupWire_units j w :
  settlementLookupWire j = Some w ->
  safe_nat (lw_claimed_units w) /\ safe_nat (lw_settlement_seq w) /\ 1 <= lw_settlement_seq w.
Proof.
  intros H. apply z_object_Some in H as (f & -> & H). cbv beta in H.
  do 12 next H. injection H as <-. cbn.
  split; [by eapply field_nonneg|]. by eapply field_positive.
Qed.

(** ** Running the client *)

Lemma parseResponse_Ok {A} response (schema : decoder A) a :
  parseResponse response schema = Ok a ->
  response_ok response = true /\ exists j, rs_json response = Some j /\ schema j = Some a.
Proof.
  unfold parseResponse. destruct (response_ok response); cbn; [|done].
  destruct (rs_json response) as [j|]; cbn; [|done].
  destruct (schema j) eqn:E; [|done]. intros [= <-]. eauto.
Qed.

Context `{Net : Fetch}.

Lemma jsonRequest_Ok {A} rq (schema : decoder A) n a n' :
  jsonRequest rq schema n = (Ok a, n') -> exists j, schema j = Some a.
Proof.
  unfold jsonRequest. rewrite mbind_Ok. intros (response & n1 & _ & H). unfold mlift in H.
  injection H as H _. apply parseResponse_Ok in H as (_ & j & _ & H). eauto.
Qed.

Ltac step H a Ha := apply mbind_Ok in H as (a & ? & Ha & H).
Ltac check H Hc := apply mbind_Ok in H as ([] & ? & Hc & H); unfold mlift in Hc; injection Hc as Hc <-.

Context `{Loc : LocClient}.

Lemma session_open_units i n r n' :
  session_open i n = (Ok r, n') -> balance_ok_units (po_balance r).
Proof.
  unfold session_open. intros H. check H Hv. step H b Hb. step H p Hp. check H Hc.
  step H o Ho. step H hdrs Hh. step H resp Hr. case_match.
  - step H u Hu. done.
  - step H w Hw. check H Hid. unfold mret_ in H. injection H as <- _. cbn.
    unfold mlift in Hw. injection Hw as Hw _. apply parseResponse_Ok in Hw as (_ & j & _ & Hw).
    by eapply openWire_units.
Qed.

Lemma session_status_units i n r n' :
  session_status i n = (Ok r, n') ->
  balance_ok_units (sx_balance r) /\ safe_nat (sx_claimedUnits r) /\
  sx_brokerSessionId r = sr_brokerSessionId i /\ sx_workId r = sr_workId i.
Proof.
  unfold session_status. intros H. step H u Hu. step H hdrs Hh. step H w Hw.
  apply jsonRequest_Ok in Hw as (j & Hw). apply statusWire_units in Hw as [H1 H2].
  check H Hc. apply refuse_if_Ok in Hc. bools. unfold mret_ in H. injection H as <- _. done.
Qed.

Lemma session_refill_units i n r n' :
  session_refill i n = (Ok r, n') ->
  balance_ok_units (fx_balance r) /\ fx_brokerSessionId r = fr_brokerSessionId i.
Proof.
  unfold session_refill. intros H. check H Hv. step H rf Hrf. step H au Hau. step H pr Hpr.
  step H hdrs Hh. step H u Hu. step H w Hw.
  apply jsonRequest_Ok in Hw as (j & Hw). apply topupWire_units in Hw.
  check H Hc. apply refuse_if_Ok in Hc. bools. unfold mret_ in H. injection H as <- _. done.
Qed.

(** ** Ending a session *)

Lemma safeUnits_Ok v z : safeUnits v = Ok z -> safe_nat z /\ v = Some (JStr (string_of_Z z)).
Proof.
  unfold safeUnits. destruct v as [[| | |s| |]|]; try done.
  destruct (safe_decimal s) as [y|] eqn:E; [|done]. intros [= <-].
  pose proof (safe_decimal_bounds _ _ E) as Hb. split; [done|].
  unfold safe_decimal in E. destruct (decimal_value s) as [v|] eqn:Hv; [|done].
  destruct (safe_integer v); [|done]. injection E as ->. by rewrite (string_of_Z_decimal _ _ Hv).
Qed.

Lemma requiredString_Ok v s : requiredString v = Ok s -> v = Some (JStr s).
Proof. unfold requiredString. repeat case_match; intros; by simplify_eq/=. Qed.

(** The facts a settlement payload must establish about the ended session. *)
Record settlement_matches (input : PaidSessionEndRequest) (wire : SettlementLookupWire)
    (payload : list (string * json)) (units : Z) : Prop := {
  sm_state : assoc "state" payload = Some (JStr "closed");
  sm_gateway : assoc "gateway_session_id" payload = Some (JStr (er_gatewaySessionId input));
  sm_session : assoc "session_id" payload = Some (JStr (er_brokerSessionId input));
  sm_work : assoc "work_id" payload = Some (JStr (lw_work_id wire));
  sm_authorization : assoc "authorization_id" payload = Some (JStr (lw_authorization_id wire));
  sm_domain : assoc "settlement_domain_id" payload
    = Some (JStr (controlSettlementDomain (er_opened input)));
  sm_unit : assoc "work_unit_name" payload = Some (JStr (lw_unit wire));
  sm_claimed : units = lw_claimed_units wire /\ units_or_zero payload "claimed_units" = Ok units;
  sm_debited : units_or_zero payload "debited_units" = Ok units;
  sm_sequence : assoc "settlement_seq" payload = Some (JStr (string_of_Z (lw_settlement_seq wire)))
}.

Lemma settlement_mismatch_false input wire payload units outcome :
  settlement_mismatch input wire payload units outcome = Ok false ->
  outcome <> Some "DEBIT_FAILED" /\ settlement_matches input wire payload units.
Proof.
  unfold settlement_mismatch. cbn [result_bind].
  destruct (outcome ==? Some "DEBIT_FAILED") eqn:Eo; [done|]. bools.
  destruct (assoc "state" payload) as [[| | |st| |]|] eqn:Est; try done.
  destruct (st !=? "closed") eqn:Ec; [done|]. bools. subst st.
  assert (forall k e (K : result exn bool),
    (let? bad := let? s := requiredString (assoc k payload) in Ok (s !=? e) in
     if bad then Ok true else K) = Ok false ->
    assoc k payload = Some (JStr e) /\ K = Ok false) as Hstr.
  { intros k e K H. apply result_bind_Ok in H as (bad & Hb & H).
    apply result_bind_Ok in Hb as (s & Hs & Hb). apply requiredString_Ok in Hs. rewrite Hs.
    injection Hb as <-. destruct (s !=? e) eqn:E; [done|]. bools. by subst s. }
  assert (forall (r : result exn Z) e (K : result exn bool),
    (let? bad := let? z := r in Ok (negb (z =? e)) in if bad then Ok true else K) = Ok false ->
    r = Ok e /\ K = Ok false) as Hnum.
  { intros r e K H. apply result_bind_Ok in H as (bad & Hb & H).
    apply result_bind_Ok in Hb as (z & Hz & Hb). injection Hb as <-.
    destruct (z =? e) eqn:E; [|done]. bools. by subst z. }
  intros H. split; [done|].
  apply Hstr in H as [H1 H]. apply Hstr in H as [H2 H]. apply Hstr in H as [H3 H].
  apply Hstr in H as [H4 H]. apply Hstr in H as [H5 H]. apply Hstr in H as [H6 H].
  destruct (units =? lw_claimed_units wire) eqn:Eu; cbn in H; [|done]. bools.
  apply Hnum in H as [H7 H]. apply Hnum in H as [H8 H].
  apply result_bind_Ok in H as (z & Hz & H). injection H as H. bools. subst z.
  apply safeUnits_Ok in Hz as [_ Hz]. by constructor.
Qed.

Lemma accounting_call_Ok {A} (call : N A) n a n' :
  accounting_call call n = (Ok a, n') -> call n = (Ok a, n').
Proof. unfold accounting_call, mcatch. destruct (call n) as [[?|?] ?]; [done|]. done. Qed.

Lemma settlementLookup_Ok url id h n wire env n' :
  settlementLookup url id h n = (Ok (wire, env), n') -> exists j, settlementLookupWire j = Some wire.
Proof.
  unfold settlementLookup. intros H. step H resp Hr. step H w Hw. unfold mlift in Hw. injection Hw as Hw _.
  apply parseResponse_Ok in Hw as (_ & j & _ & Hw).
  destruct (or_else _ _) as [enc|]; [|done]. destruct (nonempty enc); [|done].
  step H e He. unfold mret_ in H. simplify_eq/=. eauto.
Qed.

(** What an ended session's result stands on. *)
Lemma session_end_verified i n r n' :
  session_end i n = (Ok r, n') ->
  exists wire n1, settlement_matches i wire (en_payload (ex_envelope r)) (ex_actualUnits r) /\
    lw_gateway_session_id wire = er_gatewaySessionId i /\ lw_session_id wire = er_brokerSessionId i /\
    lw_state wire = "closed" /\ lw_claimed_units wire = lw_debited_units wire /\
    lw_unit wire = controlWorkUnit (er_opened i) /\
    safe_nat (lw_claimed_units wire) /\ safe_nat (lw_settlement_seq wire) /\
    ex_settlementSequence r = lw_settlement_seq wire /\ ex_brokerSessionId r = er_brokerSessionId i /\
    ex_workId r = lw_work_id wire /\ cc_workId (ex_accounting r) = lw_work_id wire /\
    exists outcome, outcome <> Some "DEBIT_FAILED" /\
      closeSession (mkCloseInput (handle_operationId (er_opened i)) (ex_actualUnits r) outcome (ex_envelope r)) n1
        = (Ok (ex_accounting r), n').
Proof.
  unfold session_end. intros H. check H Hv. step H u Hu. step H au Hau. step H hdrs Hh.
  step H rs Hrs. step H resp Hresp. step H body Hbody. check H Hid. check H Hpend. check H Hst.
  apply mbind_Ok in H as ([wire env] & n2 & Hl & H). cbn [fst snd] in H.
  apply settlementLookup_Ok in Hl as (j & Hl). apply lookupWire_units in Hl as (Hu1 & Hu2 & _).
  check H Hpend2. check H Hmatch. step H units Hunits. step H outcome Hout. step H bad Hbad.
  apply mbind_Ok in H as (t & n3 & Hrej & H). unfold mlift in Hrej. injection Hrej as Hrej <-.
  destruct t. apply refuse_if_Ok in Hrej. subst bad.
  step H acc Hacc. check H Hwork. unfold mret_ in H. injection H as <- <-. cbn.
  unfold mlift in Hbad, Hunits. injection Hbad as Hbad _. injection Hunits as Hunits _.
  apply settlement_mismatch_false in Hbad as [Hdf Hm]. apply accounting_call_Ok in Hacc.
  apply refuse_if_Ok in Hid, Hmatch, Hwork. bools.
  exists wire. eexists. split_and!; try done. exists outcome. split; [done|]. exact Hacc.
Qed.

Lemma session_end_units i n r n' :
  session_end i n = (Ok r, n') ->
  safe_nat (ex_actualUnits r) /\ safe_nat (ex_settlementSequence r) /\
  ex_brokerSessionId r = er_brokerSessionId i.
Proof.
  intros H. apply session_end_verified in H as (w & n1 & Hm & _ & _ & _ & _ & _ & Hc & Hs & -> & Hb & _).
  destruct (sm_claimed _ _ _ _ Hm) as [-> _]. done.
Qed.

(** The client discharges the interface the engine is verified against. *)
#[export] Instance createPaidSessionClient : PaidSessionClient := {|
  ps_open := session_open;
  ps_issueStreamKey := session_issueStreamKey;
  ps_status := session_status;
  ps_refill := session_refill;
  ps_end := session_end;
  ps_open_units := session_open_units;
  ps_status_units := session_status_units;
  ps_refill_units := session_refill_units;
  ps_end_units := session_end_units
|}.

(** C5: no session is settled on unverified evidence.  Whatever the broker and LOC
    answer, if ending a session succeeds then the signed envelope's payload is
    closed and names this gateway session, this broker session, the looked-up work
    and authorisation, the handle's settlement domain and work unit, with its actual,
    claimed and debited units all equal to the looked-up count; and LOC closed this
    handle's operation for exactly those units with that very envelope. *)
Theorem ended_session_is_verified i n r n' :
  session_end i n = (Ok r, n') ->
  exists wire n1, settlement_matches i wire (en_payload (ex_envelope r)) (ex_actualUnits r) /\
    lw_gateway_session_id wire = er_gatewaySessionId i /\ lw_session_id wire = er_brokerSessionId i /\
    lw_state wire = "closed" /\ lw_claimed_units wire = lw_debited_units wire /\
    lw_unit wire = controlWorkUnit (er_opened i) /\ ex_workId r = lw_work_id wire /\
    exists outcome, outcome <> Some "DEBIT_FAILED" /\
      closeSession (mkCloseInput (handle_operationId (er_opened i)) (ex_actualUnits r) outcome (ex_envelope r)) n1
        = (Ok (ex_accounting r), n').
Proof.
  intros H. apply session_end_verified in H as
    (w & n1 & Hm & H1 & H2 & H3 & H4 & H5 & _ & _ & _ & _ & H6 & _ & Hc).
  exists w, n1. done.
Qed.

(** Nothing a broker answers to a poll can move another session's books: an
    accepted status is of the polled session and work, in the handle's work unit and
    descriptor, under the authorisation of that work, with every count a safe
    non-negative integer. *)
Lemma accepted_status_is_the_polled_session i n r n' :
  session_status i n = (Ok r, n') ->
  sx_brokerSessionId r = sr_brokerSessionId i /\ sx_workId r = sr_workId i /\
  ba_authorizationId (sx_balance r) = sx_workId r /\
  sx_runtimeSchema r = controlDescriptor (sr_opened i) /\
  sx_workUnit r = controlWorkUnit (sr_opened i) /\ ba_unit (sx_balance r) = controlWorkUnit (sr_opened i) /\
  balance_ok_units (sx_balance r) /\ safe_nat (sx_claimedUnits r).
Proof.
  intros H0. pose proof (session_status_units _ _ _ _ H0) as (Hb & Hc & H1 & H2).
  unfold session_status in H0. rename H0 into H. step H u Hu. step H hdrs Hh. step H w Hw.
  check H Hck. apply refuse_if_Ok in Hck. bools. unfold mret_ in H. injection H as <- _. cbn in *.
  split_and!; congruence.
Qed.

End spec.

(** The runner only ever sees a close reason its descriptor knows: whatever
    reason the gateway records, the one sent is in the runner's vocabulary, the
    runner's own reasons are sent unchanged, and an unknown reason is refused before
    any request. *)
Lemma runner_reason_is_known reason :
  match runnerCloseReason reason with
  | Ok r => r ∈ runner_reasons /\ runnerCloseReason r = Ok r /\
            (reason ∈ runner_reasons -> r = reason)
  | Err e => e = invalidRequest /\ (reason ∉ runner_reasons)
  end.
Proof.
  assert (forall r, r ∈ runner_reasons -> runnerCloseReason r = Ok r) as Hfix.
  { intros r Hr. repeat (apply elem_of_cons in Hr as [->|Hr]; [reflexivity|]).
    by apply elem_of_nil in Hr. }
  unfold runnerCloseReason at 1. set (mapped := assoc reason close_aliases ?? reason).
  unfold refuse_if. case_bool_decide as Hin; cbn.
  - split_and!; [done|by apply Hfix|]. intros Hr. apply Hfix in Hr. unfold runnerCloseReason in Hr.
    apply guard_Ok in Hr as [_ [= Hr]]. done.
  - split; [done|]. intros Hr. apply Hfix in Hr. unfold runnerCloseReason in Hr.
    apply guard_Ok in Hr as [Hg _]. bools. done.
Qed.

(** ** Witnesses *)

Lemma ended_session_is_verified_witness :
  exists r n' wire, session_end (Net := sample_broker "open" 3) sample_end_request net0 = (Ok r, n') /\
    settlement_matches sample_end_request wire (en_payload (ex_envelope r)) (ex_actualUnits r).
Proof.
  destruct (session_end (Net := sample_broker "open" 3) sample_end_request net0) as [[r|e] n'] eqn:H.
  - destruct (ended_session_is_verified (Net := sample_broker "open" 3) sample_end_request net0 r n' H)
      as (w & n1 & Hm & _). exists r, n', w. split; [reflexivity|exact Hm].
  - exfalso. vm_compute in H. discriminate H.
Defined.

Lemma accepted_status_is_the_polled_session_witness :
  exists r n', session_status (Net := sample_broker "open" 3) sample_status_request net0 = (Ok r, n') /\
    sx_workId r = "work".
Proof.
  destruct (session_status (Net := sample_broker "open" 3) sample_status_request net0) as [[r|e] n'] eqn:H.
  - exists r, n'. split; [reflexivity|].
    apply (accepted_status_is_the_polled_session (Net := sample_broker "open" 3) sample_status_request net0 r n' H).
  - exfalso. vm_compute in H. discriminate H.
Defined.
