(* ===== verification/LiveReconciler.v ===== *)
(** * The live-session reconciler (engine/service/paidLiveReconciler.ts)

    One pass claims the sessions that are due and, for each, resumes an interrupted
    open, winds the session down, finishes an interrupted refill, or polls the broker
    and decides what to do next.  [reconcileOne] is written over the world and the
    local variable [owned], which the error handler and the final release read. *)

From S2P Require Import Prelude Js Types Wire Http Interfaces RouteProtocol LocClient SessionClient.
From S2P Require Import Database OperationRepo OperationLease MediaRepos Directory SessionStore.
From Stdlib Require Import Ascii.
Open Scope Z_scope.

Record ControlReadInput := mkControlRead {
  cr_eventsWs : string;
  cr_credential : string;
  cr_cursor : option string
}.

Record PaidLiveReconcilerDeps := mkReconcilerDeps {
  rc_options : PaidSessionStoreOptions;
  rc_controlSource : option (ControlReadInput -> N (list json));
  rc_refillThresholdUnits : Z;
  rc_maxTotalUnits : Z;
  rc_maxRefills : Z;
  rc_disconnectGraceMs : Z
}.

(** ** Stored contexts *)

Record ControlHandleWire := mkHandleWire {
  hw_operation_id : string;
  hw_broker_url : string;
  hw_gateway_session_id : string;
  hw_descriptor_schema : string;
  hw_work_unit : string;
  hw_settlement_domain_id : string;
  hw_max_total_units : Z
}.

Record RefillIntent := mkRefillIntent {
  in_request_id : string;
  in_observed_consumed_units : Z;
  in_max_total_units : Z
}.

Record StoredContext := mkStoredContext {
  sc_control_handle : ControlHandleWire;
  sc_eventsWs : string;
  sc_broker_session_credential : string;
  sc_refillIntent : option RefillIntent
}.

Definition refill_intent_json (i : RefillIntent) : json :=
  JObj [("request_id", JStr (in_request_id i));
        ("observed_consumed_units", int_json (in_observed_consumed_units i));
        ("max_total_units", int_json (in_max_total_units i))].

(** A required property of the secrets object. *)
Definition secret {A} (o : option json) (dec : decoder A) : option A :=
  match o with Some j => dec j | None => None end.

Section schemas.
Context `{Plat : Platform}.

Definition controlHandleWire : decoder ControlHandleWire := z_object (fun g =>
  _ ← strict ["operation_id"; "broker_url"; "gateway_session_id"; "descriptor_schema"; "work_unit";
              "settlement_domain_id"; "max_total_units"] g;
  operationId ← field g "operation_id" z_text;
  brokerUrl ← field g "broker_url" z_url;
  gatewaySessionId ← field g "gateway_session_id" z_uuid;
  schema ← field g "descriptor_schema" z_text;
  workUnit ← field g "work_unit" z_text;
  domain ← field g "settlement_domain_id" z_domain;
  maxTotal ← field g "max_total_units" z_positive;
  Some (mkHandleWire operationId brokerUrl gatewaySessionId schema workUnit domain maxTotal)).

Definition refillIntentWire : decoder RefillIntent := z_object (fun g =>
  _ ← strict ["request_id"; "observed_consumed_units"; "max_total_units"] g;
  requestId ← field g "request_id" z_text;
  observed ← field g "observed_consumed_units" z_nonneg;
  maxTotal ← field g "max_total_units" z_positive;
  Some (mkRefillIntent requestId observed maxTotal)).

Definition storedContextWire (s : PaidOperationSecrets) : option StoredContext :=
  handle ← secret (sec_loc s) (z_object (fun f => field f "control_handle" controlHandleWire));
  events ← secret (sec_control s) (z_object (fun f => field f "eventsWs" z_url));
  credential ← secret (sec_credentials s) (z_object (fun f => field f "broker_session_credential" z_text));
  match sec_refillIntent s with
  | None => Some (mkStoredContext handle events credential None)
  | Some j => intent ← refillIntentWire j; Some (mkStoredContext handle events credential (Some intent))
  end.

Record OpeningIntent := mkOpeningIntent {
  oit_request_id : string;
  oit_key_request_id : string;
  oit_descriptor_schema : string;
  oit_estimated_runway_units : Z;
  oit_max_total_units : Z
}.
Definition openingIntentWire : decoder OpeningIntent := z_object (fun f =>
  requestId ← field f "request_id" z_text;
  keyRequestId ← field f "key_request_id" z_text;
  schema ← field f "descriptor_schema" z_text;
  estimated ← field f "estimated_runway_units" z_positive;
  maxTotal ← field f "max_total_units" z_positive;
  Some (mkOpeningIntent requestId keyRequestId schema estimated maxTotal)).

(** The axes as the gateway stored them (camel case). *)
Definition nonneg_number : decoder jsnum := fun j =>
  match j with JNum n => if isFinite n && num_nonneg n then Some n else None | _ => None end.
Definition sessionAxesWire : decoder PaidSessionAxes := z_object (fun f =>
  schema ← field f "descriptorSchema" z_text;
  attachment ← field f "attachment" (z_enum [("external", external); ("inband-ws", inband_ws)]);
  metering ← field f "metering" (z_enum [("runner-reported", runner_reported); ("broker-observed", broker_observed)]);
  refill ← field f "refill" (z_enum [("extensible", extensible); ("bounded", bounded)]);
  heartbeat ← field f "heartbeat" (z_object (fun g =>
    interval ← field g "intervalSeconds" z_positive;
    missed ← field g "missedThreshold" z_positive; Some (mkHeartbeat interval missed)));
  lease ← field f "lease" (z_object (fun g =>
    policy ← field g "policy" (z_enum [("funding-tracking", funding_tracking); ("fixed", fixed)]);
    maxSeconds ← opt_field g "maxSeconds" z_positive; Some (mkLease policy maxSeconds)));
  tolerance ← opt_field f "toleranceBandPct" nonneg_number;
  runway ← opt_field f "runwayIncrementUnits" z_positive;
  params ← opt_field f "sessionParamsSchema" z_record;
  Some (mkSessionAxes schema attachment metering refill heartbeat lease tolerance runway (JObj <$> params))).

Record RecoveryRoute := mkRecoveryRoute {
  rv_worker_url : string;
  rv_eth_address : string;
  rv_session : PaidSessionAxes;
  rv_settlement_keys : list SettlementKey;
  rv_work_unit_estimator : option WorkUnitEstimator;
  rv_settlement_domain_id : string
}.
(** The estimator is cast without a check: a missing text property is empty here. *)
Definition cast_estimator (j : option json) : option WorkUnitEstimator :=
  match j with
  | Some (JObj f) =>
      let text k := match assoc k f with Some (JStr s) => Some s | _ => None end in
      Some (mkEstimator (text "id" ?? "") (text "rounding" ?? "") (text "exactness" ?? "")
              (text "package") (text "fixtures"))
  | _ => None
  end.
Definition recoveryRouteWire : decoder RecoveryRoute := z_object (fun f =>
  _ ← strict ["worker_url"; "eth_address"; "session"; "settlement_keys"; "work_unit_estimator";
              "settlement_domain_id"] f;
  workerUrl ← field f "worker_url" z_url;
  ethAddress ← field f "eth_address" z_text;
  axes ← field f "session" sessionAxesWire;
  keys ← field f "settlement_keys" (z_array 1 (z_object (fun g =>
    publicKey ← field g "publicKey" z_text;
    notBefore ← field g "notBefore" z_string;
    expiresAt ← field g "expiresAt" z_string;
    introduced ← field g "introducedInPublicationSeq" z_string;
    Some (mkSettlementKey publicKey notBefore expiresAt introduced))));
  domain ← field f "settlement_domain_id" z_domain;
  Some (mkRecoveryRoute workerUrl ethAddress axes keys (cast_estimator (assoc "work_unit_estimator" f)) domain)).

Record RecoveredRuntime := mkRecoveredRuntime {
  rt_rtmp_url : string;
  rt_hls_url : string;
  rt_key_issue_url : string
}.
Definition recoveredRuntimeWire : decoder RecoveredRuntime := z_object (fun f =>
  rtmp ← field f "rtmp_url" z_url;
  hls ← field f "hls_url" z_url;
  key ← field f "key_issue_url" z_url;
  Some (mkRecoveredRuntime rtmp hls key)).

(** [initialCredentialsWire]: the customer's key, with the whole object. *)
Definition initialCredentialsWire : decoder (string * list (string * json)) := z_object (fun f =>
  key ← field f "customer_stream_key" z_text; Some (key, f)).

End schemas.

(** [schema.parse(value)] *)
Definition parse_or_throw {A} (o : option A) : result exn A :=
  match o with Some a => Ok a | None => Err (PlainError "schema mismatch") end.

(** ** Helpers *)

Definition controlHandle (value : ControlHandleWire) : PaidSessionControlHandle :=
  Recovered (mkRecoveryHandle (hw_operation_id value) (hw_broker_url value) (hw_gateway_session_id value)
    (hw_descriptor_schema value) (hw_work_unit value) (hw_settlement_domain_id value) (hw_max_total_units value)).

Definition timestamp `{Platform} (value : string) : result exn Z :=
  match date_parse value with
  | Some ms => Ok ms
  | None => Err (PlainError "paid session timestamp is invalid")
  end.

Definition decimalUnits (value : string) : result exn Z :=
  match safe_decimal value with
  | Some z => Ok z
  | None => Err (PlainError "paid session units are invalid")
  end.

(** The back-off of a failed pass, in seconds. *)
Definition retry_delay (retryCount : Z) (error : exn) : Z :=
  let backoff := Z.min 60 (5 * 2 ^ Z.min (retryCount - 1) 4) in
  match error with
  | LocTransportError e =>
      match loc_retryAfterSeconds e with Some s => Z.max 5 s | None => backoff end
  | _ => backoff
  end.
Definition retry_code (error : exn) : string :=
  match error with
  | PaidSessionClientError c _ => c
  | LocTransportError e => loc_remoteCode e ?? loc_code e
  | _ => "reconcile_failed"
  end.

(** [retryProgress] spread over [base]; an unrepresentable date makes the statement
    fail. *)
Definition retryProgress (operation : PaidOperation) (error : exn) (now : Z)
    (base : PaidOperationProgress) : result exn PaidOperationProgress :=
  let retryCount := op_retryCount operation + 1 in
  match new_date (now + retry_delay retryCount error * 1000) with
  | DateMs at_ => Ok (base <| pr_retryCount := Some retryCount |>
                           <| pr_lastErrorCode := Some (retry_code error) |>
                           <| pr_nextRetryAt := Some at_ |>)
  | InvalidDate => Err pg_error
  end.

Definition recoveryRoute (operation : PaidOperation) (value : RecoveryRoute) : SelectedWorkerRoute :=
  let route := op_route operation in
  {| sw_workerUrl := rv_worker_url value; sw_ethAddress := rv_eth_address value;
     sw_capability := route_capability route; sw_offering := route_offering route;
     sw_pricePerWorkUnitWei := route_pricePerUnitWei route; sw_workUnit := route_workUnit route;
     sw_protocol := "paid-session/v1"; sw_job := None; sw_session := Some (rv_session value);
     sw_workUnitEstimator := rv_work_unit_estimator value; sw_settlementKeys := rv_settlement_keys value;
     sw_settlementDomainId := Some (route_settlementDomainId route ?? rv_settlement_domain_id value);
     sw_unitsPerPrice := Some (route_unitsPerPrice route); sw_quoteId := Some (route_quoteId route);
     sw_quoteVersion := Some (route_quoteVersion route);
     sw_constraintFingerprint := Some (bytes_of_hex (route_constraintFingerprint route));
     sw_routeFingerprint := Some (bytes_of_hex (route_routeFingerprint route));
     sw_extra := None; sw_constraints := None |}.

(** JSON of values the gateway stores. *)
Definition str_opt (k : string) (o : option string) : list (string * json) := opt_prop k JStr o.
Definition grant_json (g : PaidSessionGrant) : json :=
  JObj ([("id", JStr (gr_id g)); ("operations", JArr (JStr <$> gr_operations g));
         ("secret", JStr (gr_secret g)); ("expiresAt", JStr (gr_expiresAt g))] ++
        opt_prop "maxUses" int_json (gr_maxUses g)).
Definition control_json (c : PaidSessionControl) : json :=
  JObj [("statusUrl", JStr (co_statusUrl c)); ("topupUrl", JStr (co_topupUrl c));
        ("endUrl", JStr (co_endUrl c)); ("eventsWs", JStr (co_eventsWs c))].
Definition handle_json (opened : PaidSessionOpenResult) : json :=
  let o := po_opened opened in
  JObj [("operation_id", JStr (lo_operationId o)); ("broker_url", JStr (lo_brokerUrl o));
        ("gateway_session_id", JStr (po_gatewaySessionId opened));
        ("descriptor_schema", JStr (ax_descriptorSchema (lo_session o)));
        ("work_unit", JStr (lr_workUnit (lo_routeSnapshot o)));
        ("settlement_domain_id", JStr (lr_settlementDomainId (lo_routeSnapshot o)));
        ("max_total_units", int_json (ba_authorizationMaxUnits (po_balance opened)))].
(** [{ ...obj, [k]: v }] *)
Definition set_prop (k : string) (v : json) (f : list (string * json)) : list (string * json) :=
  if is_present (assoc k f) then map (fun kv => if fst kv ==? k then (k, v) else kv) f
  else f ++ [(k, v)].

(** The one grant an opened session must carry. *)
Definition stream_key_grant (grants : list PaidSessionGrant) : option PaidSessionGrant :=
  match grants with
  | [g] => match gr_operations g with
           | [o] => if o ==? "stream-key-issue" then Some g else None
           | _ => None
           end
  | _ => None
  end.

(** A property of an undefined object. *)
Definition type_error : exn := PlainError "TypeError".

Section reconciler.
Context `{Plat : Platform} `{Client : PaidSessionClient} `{Env : Environment}
  (deps : PaidLiveReconcilerDeps).

Let options := rc_options deps.

(** [owned.operation.sessionRuntime!] with a property read. *)
Definition runtime_of (o : OwnedPaidSession) : result exn PaidSessionRuntimeState :=
  match op_sessionRuntime (ow_operation o) with Some r => Ok r | None => Err type_error end.
(** [{ ...owned.operation.sessionRuntime! , ...}] of an absent value has only the new
    properties; the store never hands one out ([claimFor] refuses it). *)

Definition requestWinddown (o : OwnedPaidSession) (reason : string) : W unit :=
  do! runtime <- mlift (runtime_of o);
  do! _ <- store_recordProgress options o
    ((progress "winddown_requested")
       <| pr_willRefuseNextRefill := Some true |>
       <| pr_sessionRuntime := Some (runtime <| rt_winddownReason := Some reason |>) |>);
  mret_ tt.

(** ** executeWinddown *)

Definition winddown_status (error : exn) : string :=
  match error with
  | PaidSessionClientError c retryable =>
      if c ==? "paid_session_close_pending" then "winddown_pending"
      else if retryable then "winddown_retry" else "winddown_failed"
  | _ => "winddown_retry"
  end.

Definition settlement_evidence (o : OwnedPaidSession) (result : PaidSessionEndResult) (reason : string)
    : PaidTerminalEvidence :=
  {| ev_httpStatus := 200;
     ev_responseSha256 := sha256_hex (stringify (envelope_json (ex_envelope result)));
     ev_workUnit := route_workUnit (op_route (ow_operation o));
     ev_workUnits := string_of_Z (ex_actualUnits result);
     ev_protocolError := None;
     ev_claimSignature := Some (en_signature (ex_envelope result));
     ev_closeReason := Some (Outcome.or_text (ex_closeReason result) reason) |}.

Definition executeWinddown (o : OwnedPaidSession) (handle : PaidSessionControlHandle)
    (gatewaySessionId credential reason : string) : W unit :=
  let liveStreamId := op_liveStreamId (ow_operation o) ?? "" in
  let brokerSessionId := op_brokerSessionId (ow_operation o) ?? "" in
  mcatch (
    do! result <- call (ps_end (mkEndRequest handle gatewaySessionId brokerSessionId credential reason));
    do! now <- now_;
    do! recorded <- store_recordLiveTerminal o
      (mkLiveTerminal liveStreamId (string_of_Z (ex_actualUnits result))
         (string_of_Z (ex_settlementSequence result)) (settlement_evidence o result reason) now);
    if recorded then directory (dir_remove brokerSessionId) else mret_ tt)
  (fun error =>
    do! now <- now_;
    do! runtime <- mlift (runtime_of o);
    do! p <- mlift (retryProgress (ow_operation o) error now
      ((progress (winddown_status error))
         <| pr_sessionRuntime := Some (runtime <| rt_winddownReason := Some reason |>) |>));
    do! _ <- store_recordProgress options o p;
    mret_ tt).

(** ** executeRefill *)

Definition refill_progress (o : OwnedPaidSession) (result : PaidSessionRefillResult)
    (runtime : PaidSessionRuntimeState) (lease : Z) : PaidOperationProgress :=
  let balance := fx_balance result in
  (progress "active")
    <| pr_workId := Some (fx_workId result) |>
    <| pr_fundedUnits := Some (string_of_Z (ba_authorizationMaxUnits balance)) |>
    <| pr_claimedUnits := Some (string_of_Z (ba_claimedUnits balance)) |>
    <| pr_balanceUnits := Some (string_of_Z (ba_runwayUnits balance ?? 0)) |>
    <| pr_willRefuseNextRefill := Some (ba_willRefuseNextRefill balance) |>
    <| pr_leaseExpiresAt := Some lease |>
    <| pr_sessionRuntime := Some (runtime <| rt_refillCount := Some ((rt_refillCount runtime ?? 0) + 1) |>) |>.

Definition executeRefill (o : OwnedPaidSession) (secrets : PaidOperationSecrets) (intent : RefillIntent)
    (handle : PaidSessionControlHandle) (credential : string) : W unit :=
  let brokerSessionId := op_brokerSessionId (ow_operation o) ?? "" in
  mcatch (
    do! result <- call (ps_refill (mkRefillRequest handle brokerSessionId credential (in_request_id intent)
      (Some (in_observed_consumed_units intent)) (in_max_total_units intent)));
    if rc_maxTotalUnits deps <? ba_authorizationMaxUnits (fx_balance result)
    then requestWinddown o "refill_total_exceeded"
    else
      do! stored <- store_putSecrets o (secrets <| sec_refillIntent := None |>);
      if negb stored then mret_ tt
      else
        do! lease <- mlift (timestamp (fx_leaseExpiresAt result));
        do! runtime <- mlift (runtime_of o);
        do! _ <- store_recordProgress options o (refill_progress o result runtime lease);
        mret_ tt)
  (fun error =>
    match error with
    | PaidSessionClientError _ true => mret_ tt
    | _ => requestWinddown o "refill_refused"
    end).

(** ** applyAdvisoryEvent *)

(** [event.sequence <= Number(runtime.lastRunnerSequence)]: the column holds what the
    gateway wrote with [String(n)]; other text is NaN, which compares false. *)
Definition already_seen (sequence : Z) (runtime : PaidSessionRuntimeState) : bool :=
  match decimal_value (rt_lastRunnerSequence runtime) with
  | Some last => sequence <=? last
  | None => false
  end.

Definition applyAdvisoryEvent (o : OwnedPaidSession) (event : PaidSessionControlEvent)
    : W (option OwnedPaidSession) :=
  do! runtime <- mlift (runtime_of o);
  let status := op_status (ow_operation o) in
  match event with
  | usage_tick sequence unit_ claimedTotal _ =>
      if (unit_ !=? route_workUnit (op_route (ow_operation o))) || already_seen sequence runtime
      then mret_ (Some o)
      else store_recordProgress options o
        ((progress status)
           <| pr_claimedUnits := Some (string_of_Z claimedTotal) |>
           <| pr_sessionRuntime := Some (runtime
                <| rt_lastRunnerSequence := string_of_Z sequence |>
                <| rt_lastRunnerUsage := string_of_Z claimedTotal |>
                <| rt_controlCursor := Some (string_of_Z sequence) |>) |>)
  | balance_event balance =>
      store_recordProgress options o
        ((progress status)
           <| pr_claimedUnits := Some (string_of_Z (ba_claimedUnits balance)) |>
           <| pr_balanceUnits := Some (string_of_Z (ba_runwayUnits balance ?? 0)) |>
           <| pr_willRefuseNextRefill := Some (ba_willRefuseNextRefill balance) |>)
  | output_health state since failure =>
      store_recordProgress options o
        ((progress status)
           <| pr_sessionRuntime := Some (runtime
                <| rt_outputState := Some state |> <| rt_outputStateSince := Some since |>
                <| rt_lastFailureCode := failure |>) |>)
  | session_ended _ closeReason =>
      store_recordProgress options o
        ((progress "winddown_pending")
           <| pr_sessionRuntime := Some (runtime <| rt_winddownReason := Some closeReason |>) |>)
  | session_rebound _ _ _ => mret_ (Some o)
  end.

(** ** repairLiveArtifacts *)

Definition repairLiveArtifacts (operation : PaidOperation) (secrets : PaidOperationSecrets) : W unit :=
  do! context <- mlift (parse_or_throw (storedContextWire secrets));
  do! credentials <- mlift (parse_or_throw (secret (sec_credentials secrets) initialCredentialsWire));
  let incomplete := PlainError "paid live activation artifacts are incomplete" in
  match op_liveStreamId operation, op_brokerSessionId operation, op_sessionRuntime operation,
        sec_runnerIngestUrl secrets, sec_runnerIngestKey secrets with
  | Some liveStreamId, Some brokerSessionId, Some runtime, Some ingestUrl, Some ingestKey =>
      let hls := rt_runnerHlsUrl runtime ?? "" in
      run! mlift (refuse_if (negb (nonempty liveStreamId) || negb (nonempty brokerSessionId) ||
                             negb (nonempty hls) || negb (nonempty ingestUrl) || negb (nonempty ingestKey))
                    incomplete);
      run! (if (rt_relayStatus runtime !=? relay_reconnecting) && (rt_relayStatus runtime !=? relay_failed)
            then do! now <- now_;
                 query (fun _ => LiveStreams.updateStatus liveStreamId "active"
                   (LiveStreams.mkFields (Some brokerSessionId) None
                      (Some (hw_broker_url (sc_control_handle context))) None None None None (Some now) None))
            else mret_ tt);
      do! playback <- query_read (PlaybackIds.byLiveStream liveStreamId);
      run! (match playback with
            | [] => do! hex <- fresh_hex 12;
                    do! _ <- query (fun _ => PlaybackIds.insert
                      (mkPlaybackId ("pb_" +:+ hex) (op_apiKeyId operation) None (Some liveStreamId) "public" false 0));
                    mret_ tt
            | _ :: _ => mret_ tt
            end);
      directory (dir_record (mkRoute liveStreamId brokerSessionId (hw_broker_url (sc_control_handle context))
        (strip_slash ingestUrl +:+ "/" +:+ ingestKey) (fst credentials) hls))
  | _, _, _, _, _ => mthrow incomplete
  end.

(** ** resumeOpeningSession *)

Definition issuing_progress (opened : PaidSessionOpenResult) (runtime : PaidSessionRuntimeState)
    (hls : string) (lease : Z) (balance : Z) : PaidOperationProgress :=
  (progress "issuing_key")
    <| pr_requestId := Some (lo_requestId (po_opened opened)) |>
    <| pr_locOperationId := Some (lo_operationId (po_opened opened)) |>
    <| pr_brokerSessionId := Some (po_brokerSessionId opened) |>
    <| pr_fundedUnits := Some (string_of_Z (ba_authorizationMaxUnits (po_balance opened))) |>
    <| pr_claimedUnits := Some (string_of_Z (ba_claimedUnits (po_balance opened))) |>
    <| pr_balanceUnits := Some (string_of_Z balance) |>
    <| pr_willRefuseNextRefill := Some (ba_willRefuseNextRefill (po_balance opened)) |>
    <| pr_leaseExpiresAt := Some lease |>
    <| pr_sessionRuntime := Some (runtime <| rt_runnerHlsUrl := Some hls |>) |>.

Definition active_progress (runtime : PaidSessionRuntimeState) : PaidOperationProgress :=
  (progress "active") <| pr_sessionRuntime := Some (runtime <| rt_relayStatus := relay_pending |>) |>.

Definition recovered_secrets (secrets : PaidOperationSecrets) (intent : OpeningIntent)
    (opened : PaidSessionOpenResult) (rtmpUrl streamKey : string) (credentials : list (string * json))
    : PaidOperationSecrets :=
  secrets
    <| sec_grants := Some (JArr (grant_json <$> po_grants opened)) |>
    <| sec_control := Some (control_json (po_control opened)) |>
    <| sec_loc := Some (JObj [("idempotency_key", JStr (oit_request_id intent));
                              ("key_request_id", JStr (oit_key_request_id intent));
                              ("control_handle", handle_json opened)]) |>
    <| sec_runnerIngestUrl := Some rtmpUrl |>
    <| sec_runnerIngestKey := Some streamKey |>
    <| sec_credentials := Some (JObj (set_prop "broker_session_credential" (JStr (po_credential opened)) credentials)) |>.

Definition resumeOpeningSession (initial : OwnedPaidSession) (secrets : PaidOperationSecrets) : W unit :=
  do! intent <- mlift (parse_or_throw (secret (sec_openIntent secrets) openingIntentWire));
  do! routeIntent <- mlift (parse_or_throw (secret (sec_routeIntent secrets) recoveryRouteWire));
  do! sessionParams <- mlift (parse_or_throw (secret (sec_sessionParams secrets) z_record));
  do! credentials <- mlift (parse_or_throw (secret (sec_credentials secrets) initialCredentialsWire));
  run! mlift (refuse_if (negb (truthy (op_liveStreamId (ow_operation initial))))
                (PlainError "paid session opening identity drift"));
  do! opened <- call (ps_open (mkOpenRequest (oit_request_id intent)
    (recoveryRoute (ow_operation initial) routeIntent) (oit_descriptor_schema intent) sessionParams
    (oit_estimated_runway_units intent) (oit_max_total_units intent)));
  do! runtime <- mlift (parse_or_throw (recoveredRuntimeWire (po_runtimePublic opened)));
  match stream_key_grant (po_grants opened) with
  | None => mthrow (PlainError "recovered paid live grant is invalid")
  | Some grant =>
      do! lease <- mlift (timestamp (po_leaseExpiresAt opened));
      do! state <- mlift (runtime_of initial);
      do! progressed <- store_recordProgress options initial
        (issuing_progress opened state (rt_hls_url runtime) lease (ba_runwayUnits (po_balance opened) ?? 0));
      match progressed with
      | None => mret_ tt
      | Some o =>
          do! issued <- call (ps_issueStreamKey
            (mkKeyRequest (rt_key_issue_url runtime) grant (oit_key_request_id intent) gateway_relay));
          let stored := recovered_secrets secrets intent opened (rt_rtmp_url runtime)
                          (kx_streamKey issued) (snd credentials) in
          do! ok <- store_putSecrets o stored;
          if negb ok then mret_ tt
          else
            do! state' <- mlift (runtime_of o);
            do! active <- store_recordProgress options o (active_progress state');
            match active with
            | None => mret_ tt
            | Some a => repairLiveArtifacts (ow_operation a) stored
            end
      end
  end.

(** ** reconcileOne *)

(** The body runs over the world and the variable [owned]. *)
Definition Local (A : Type) : Type := M (world * OwnedPaidSession) exn A.
Definition in_world {A} (m : W A) : Local A := fun s =>
  let '(r, w) := m (fst s) in (r, (w, snd s)).
Definition get_owned : Local OwnedPaidSession := mget snd.
Definition set_owned (o : OwnedPaidSession) : Local unit := mmodify (fun s => (fst s, o)).

Definition is_winddown_status (status : string) : bool :=
  (status ==? "winddown_requested") || (status ==? "winddown_pending") ||
  (status ==? "winddown_retry") || (status ==? "winddown_failed").

(** Why a session is wound down at the start of a pass. *)
Definition winddown_reason (runtime : PaidSessionRuntimeState) (leaseExpired disconnectExpired : bool) : string :=
  rt_winddownReason runtime ??
    (if leaseExpired then "lease_exhausted"
     else if rt_relayStatus runtime ==? relay_failed then "relay_failure"
     else if disconnectExpired then "publisher_disconnect" else "broker_ended").

Definition broker_terminal (state : string) : bool :=
  (state ==? "closed") || (state ==? "ended") || (state ==? "failed").

(** The status a poll leaves behind. *)
Definition polled_status (state : string) (runtime : PaidSessionRuntimeState) : string :=
  if broker_terminal state then "winddown_pending"
  else if (state ==? "winding_down") || truthy (rt_relayDisconnectedAt runtime)
  then "reconcile_pending" else "active".

Definition poll_progress (status : PaidSessionStatusResult) (runtime : PaidSessionRuntimeState)
    (funded runway lease : Z) (at_ : Z) : PaidOperationProgress :=
  let base := runtime
    <| rt_lastHttpReconcileAt := Some (toISOString at_) |>
    <| rt_outputState := Some (sx_outputState status) |>
    <| rt_outputStateSince := sx_outputStateSince status |>
    <| rt_lastFailureCode := sx_lastFailureCode status |> in
  (progress (polled_status (sx_state status) runtime))
    <| pr_fundedUnits := Some (string_of_Z funded) |>
    <| pr_claimedUnits := Some (string_of_Z (sx_claimedUnits status)) |>
    <| pr_balanceUnits := Some (string_of_Z runway) |>
    <| pr_willRefuseNextRefill := Some (ba_willRefuseNextRefill (sx_balance status)) |>
    <| pr_leaseExpiresAt := Some lease |>
    <| pr_sessionRuntime := Some
         (if broker_terminal (sx_state status) && truthy (sx_closeReason status)
          then base <| rt_winddownReason := sx_closeReason status |> else base) |>.

(** What to do once a poll is recorded. *)
Inductive refill_decision : Type :=
| NoRefill
| StopFunding (reason : string)
| AskRefill (max_total_units : Z).

Definition decide_refill (balance : PaidSessionBalance) (runtime : PaidSessionRuntimeState) (funded : Z)
    : refill_decision :=
  let low := match ba_runwayUnits balance with Some r => r <=? rc_refillThresholdUnits deps | None => false end in
  if negb ((ba_status balance !=? balance_ok) || low) then NoRefill
  else if ba_willRefuseNextRefill balance || (rc_maxRefills deps <=? (rt_refillCount runtime ?? 0)) ||
          (rc_maxTotalUnits deps <=? funded)
  then StopFunding (if ba_willRefuseNextRefill balance then "refill_preannounced_refusal" else "refill_policy_exhausted")
  else AskRefill (Z.min (rc_maxTotalUnits deps)
         (Z.max (ba_authorizationMaxUnits balance + 1) (ba_authorizationMaxUnits balance * 2))).

(** The advisory frames of the control channel, applied one by one. *)
Definition apply_frame (frame : json) : Local unit :=
  do! event <- mlift (parsePaidSessionControlEvent frame);
  do! o <- get_owned;
  do! next <- in_world (applyAdvisoryEvent o event);
  match next with Some o' => set_owned o' | None => mret_ tt end.

(** The control-channel part of a pass: [true] when the pass ends here. *)
Definition advisory_phase (context : StoredContext) (handle : PaidSessionControlHandle) : Local bool :=
  let gateway := hw_gateway_session_id (sc_control_handle context) in
  let credential := sc_broker_session_credential context in
  match rc_controlSource deps with
  | None => mret_ false
  | Some read =>
      mcatch (
        do! o <- get_owned;
        let cursor := op_sessionRuntime (ow_operation o) ≫= rt_controlCursor in
        do! frames <- in_world (call (read (mkControlRead (sc_eventsWs context) credential
          (if truthy cursor then cursor else None))));
        run! mfold (fun _ frame => apply_frame frame) tt frames;
        do! o' <- get_owned;
        if op_status (ow_operation o') ==? "winddown_pending" then
          run! in_world (executeWinddown o' handle gateway credential
            ((op_sessionRuntime (ow_operation o') ≫= rt_winddownReason) ?? "broker_ended"));
          mret_ true
        else mret_ false)
      (fun _ => mret_ false)
  end.

(** The poll of the broker and what follows from it. *)
Definition poll_phase (secrets : PaidOperationSecrets) (context : StoredContext)
    (handle : PaidSessionControlHandle) (brokerSessionId : string) : Local unit :=
  let gateway := hw_gateway_session_id (sc_control_handle context) in
  let credential := sc_broker_session_credential context in
  do! o <- get_owned;
  do! status <- in_world (call (ps_status
    (mkStatusRequest handle brokerSessionId (op_workId (ow_operation o)) credential)));
  run! mlift (refuse_if (sx_gatewaySessionId status !=? gateway)
                (PlainError "paid session gateway identity drift"));
  do! runtime <- mlift (runtime_of o);
  let balance := sx_balance status in
  do! runway <- mlift match ba_runwayUnits balance with
                      | Some r => Ok r
                      | None => decimalUnits (op_balanceUnits (ow_operation o) ?? "0")
                      end;
  do! funded <- mlift match ba_runwayUnits balance with
                      | Some r => Ok (num_add (ba_debitedUnits balance) r)
                      | None => decimalUnits (op_fundedUnits (ow_operation o))
                      end;
  do! lease <- mlift (timestamp (sx_leaseExpiresAt status));
  do! at_ <- in_world now_;
  do! progressed <- in_world (store_recordProgress options o (poll_progress status runtime funded runway lease at_));
  match progressed with
  | None => mret_ tt
  | Some o' =>
      run! set_owned o';
      if broker_terminal (sx_state status) then
        in_world (executeWinddown o' handle gateway credential (sx_closeReason status ?? "broker_ended"))
      else if sx_state status ==? "winding_down" then mret_ tt
      else if truthy (rt_relayDisconnectedAt runtime) then mret_ tt
      else
        match decide_refill balance runtime funded with
        | NoRefill => mret_ tt
        | StopFunding reason => in_world (requestWinddown o' reason)
        | AskRefill maxTotal =>
            do! requestId <- in_world newRequestId;
            let intent := mkRefillIntent requestId (ba_debitedUnits balance) maxTotal in
            let withIntent := secrets <| sec_refillIntent := Some (refill_intent_json intent) |> in
            do! persisted <- in_world (store_putSecrets o' withIntent);
            if negb persisted then mret_ tt
            else in_world (executeRefill o' withIntent intent handle credential)
        end
  end.

Definition reconcile_body (initial : OwnedPaidSession) : Local unit :=
  do! found <- in_world (store_readSecrets initial);
  match found with
  | None => mret_ tt
  | Some secrets =>
      match storedContextWire secrets with
      | None =>
          if (op_status (ow_operation initial) ==? "opening") || (op_status (ow_operation initial) ==? "issuing_key")
          then in_world (resumeOpeningSession initial secrets)
          else mthrow (PlainError "paid session recovery context is unavailable")
      | Some context =>
          let handle := controlHandle (sc_control_handle context) in
          let gateway := hw_gateway_session_id (sc_control_handle context) in
          let op := ow_operation initial in
          run! mlift (refuse_if (negb (truthy (op_brokerSessionId op)) || negb (truthy (op_liveStreamId op)) ||
                                 (hw_work_unit (sc_control_handle context) !=? route_workUnit (op_route op)))
                        (PlainError "paid session recovery identity is incomplete"));
          do! now <- in_world now_;
          do! runtime <- mlift (runtime_of initial);
          do! disconnectExpired <- mlift match rt_relayDisconnectedAt runtime with
                                         | Some t => let? ms := timestamp t in
                                                     Ok (ms + rc_disconnectGraceMs deps <=? now)
                                         | None => Ok false
                                         end;
          let leaseExpired := match op_leaseExpiresAt op with Some l => l <=? now | None => false end in
          if is_winddown_status (op_status op) || disconnectExpired || leaseExpired then
            in_world (executeWinddown initial handle gateway (sc_broker_session_credential context)
              (winddown_reason runtime leaseExpired disconnectExpired))
          else
            run! in_world (repairLiveArtifacts op secrets);
            match sc_refillIntent context with
            | Some intent =>
                in_world (executeRefill initial secrets intent handle (sc_broker_session_credential context))
            | None =>
                do! ended <- advisory_phase context handle;
                if ended then mret_ tt
                else poll_phase secrets context handle (op_brokerSessionId op ?? "")
            end
      end
  end.

(** The catch block: the failure is recorded with the next attempt's time. *)
Definition reconcile_failed (error : exn) : Local unit :=
  do! o <- get_owned;
  do! now <- in_world now_;
  do! p <- mlift (retryProgress (ow_operation o) error now (progress (op_status (ow_operation o))));
  do! _ <- in_world (store_recordProgress options o p);
  mret_ tt.

(** The finally block: give the lease back, under the latest fence if ours is old. *)
Definition release_lease : Local unit :=
  do! o <- get_owned;
  do! released <- in_world (mcatch (store_release o) (fun _ => mret_ false));
  match op_liveStreamId (ow_operation o) with
  | Some streamId =>
      if negb released && nonempty streamId then
        do! latest <- in_world (mcatch (store_claimByLiveStreamId options streamId) (fun _ => mret_ None));
        match latest with
        | Some l => do! _ <- in_world (mcatch (store_release l) (fun _ => mret_ false)); mret_ tt
        | None => mret_ tt
        end
      else mret_ tt
  | None => mret_ tt
  end.

Definition reconcileOne (initial : OwnedPaidSession) : W unit := fun w =>
  let '(r, (w', _)) :=
    mfinally (mcatch (reconcile_body initial) reconcile_failed) release_lease (w, initial) in
  (r, w').

(** [Promise.all] of the claimed sessions: each runs to its end; the first failure is
    the failure of the pass.  What the passes of other sessions do between two awaits
    of one is part of [others]. *)
Fixpoint reconcile_all (sessions : list OwnedPaidSession) : W unit := fun w =>
  match sessions with
  | [] => (Ok tt, w)
  | s :: sessions' =>
      let '(r, w1) := reconcileOne s w in
      let '(r', w2) := reconcile_all sessions' w1 in
      (match r with Ok _ => r' | Err e => Err e end, w2)
  end.

Definition reconcilePaidLiveSessions (limit : Z) : W Z :=
  do! sessions <- store_claimRecoverable options limit;
  run! reconcile_all sessions;
  mret_ (Z.of_nat (length sessions)).

End reconciler.
