(* ===== verification/SampleWorld.v ===== *)
(** * A concrete gateway instance for the witnesses

    A quiet environment in which only this instance acts, and a live session that is
    due to be wound down. *)

From S2P Require Import Prelude Js Types Wire Http Interfaces RouteProtocol LocClient SampleNet.
From S2P Require Import SessionClient SessionClientSpec Database OperationRepo Samples.
From S2P Require Import OperationLease Directory SessionStore.
Open Scope Z_scope.

#[export] Instance sample_env : Environment.
Proof.
  refine {| others := fun _ d => d; locks := fun _ => ∅; entropy_at := fun _ => tt; clock := fun _ => 10;
            random_hex := fun n _ => string_of_Z (Z.of_nat n);
            random_uuid := fun n => "uuid-" +:+ string_of_Z (Z.of_nat n) |}.
  done.
Defined.

#[export] Instance sample_client : PaidSessionClient := createPaidSessionClient (Net := sample_broker "open" 3).

Definition sample_options : PaidSessionStoreOptions := mkStoreOptions "alice" 5000.

(** The secrets of a session that is up. *)
Definition live_secrets : PaidOperationSecrets :=
  mkSecrets None None None None
    (Some (JObj [("eventsWs", JStr "http://b/w")]))
    (Some (JObj [("control_handle", JObj [("operation_id", JStr "uuid-1"); ("broker_url", JStr "https://broker");
        ("gateway_session_id", JStr "uuid-g"); ("descriptor_schema", JStr "rtmp-hls/v1");
        ("work_unit", JStr "output_seconds"); ("settlement_domain_id", JStr sample_domain);
        ("max_total_units", JNum (NInt 10))])]))
    (Some "http://runner/rtmp") (Some "sk")
    (Some (JObj [("customer_stream_key", JStr "live_1"); ("broker_session_credential", JStr "cred")])) None.

(** A session with its broker identity, leased to alice at version 2. *)
Definition live_db (status : string) : db :=
  run (recordProgress "op" (alice "1")
         ((progress status) <| pr_workId := Some "work" |> <| pr_brokerSessionId := Some "bs" |>))
    (run (insertWithSecrets tt sample_session live_secrets "alice" alice_lease) empty_db).
Definition idle_db (status : string) : db := run (releaseClaim "op" (alice "2")) (live_db status).

Definition live_world (d : db) : world := mkWorld d net0 empty_directory 0.

Definition live_owned (d : db) : OwnedPaidSession :=
  match byId "op" d with
  | Some op => mkOwned op (mkClaim "alice" (op_lifecycleVersion op) alice_lease)
  | None => mkOwned (rowToOperation (mkRow "" session "" None None "" "" "" 0 "" None "" "" "" None "" None 0 0 ""
              "" "" "" None "" JNull "" None None None 0 None None None None 0 0 None None None 0 None None None
              0 0 None)) (alice "0")
  end.

Definition status_in (d : db) : option string := row_status <$> db_paid_operations d !! "op".

Lemma live_db_wf status : db_wf (live_db status).
Proof.
  assert (db_wf (run (insertWithSecrets tt sample_session live_secrets "alice" alice_lease) empty_db)) as H1.
  { unfold run. destruct (insertWithSecrets _ _ _ _ _ empty_db) as [[o d]|e] eqn:E; [|by apply fresh_wf].
    eapply row_steps_wf; [by eapply insertWithSecrets_steps|by apply fresh_wf]. }
  unfold live_db. revert H1. generalize (run (insertWithSecrets tt sample_session live_secrets "alice" alice_lease) empty_db).
  intros d H1. unfold run. destruct (recordProgress _ _ _ d) as [[o d']|e] eqn:E; [|done].
  eapply row_steps_wf; [by eapply progress_steps|done].
Qed.

Lemma idle_db_wf status : db_wf (idle_db status).
Proof.
  unfold idle_db. pose proof (live_db_wf status) as H1. revert H1. generalize (live_db status).
  intros d H1. unfold run. destruct (releaseClaim _ _ d) as [[o d']|e] eqn:E; [|done].
  eapply row_steps_wf; [by eapply release_steps|done].
Qed.
