(* ===== verification/LiveReconcilerSpec.v ===== *)
(** * Properties of the live-session reconciler

    Every effect of a pass on the tables is a sequence of repository transactions,
    so the guarantees of OperationLease.v hold across passes of any number of
    instances; retries back off; funding stays within policy; a session whose end
    succeeded is settled. *)

From S2P Require Import Prelude Js Types Wire Http Interfaces RouteProtocol LocClient SampleNet.
From S2P Require Import SessionClient SessionClientSpec Database OperationRepo Samples.
From S2P Require Import OperationLease OperationSpec MediaRepos Directory SessionStore.
From S2P Require Import LiveReconciler SampleWorld.
Open Scope Z_scope.

(** ** Effects *)

Abbreviation acts_local := (acts_on (fun s : world * OwnedPaidSession => w_db (fst s))).

Section local_effects.
Context `{Env : Environment}.

Lemma acts_in_world {A} (m : W A) : acts m -> acts_local (in_world m).
Proof.
  intros Hm [w o] r [w' o']. unfold in_world. cbn. destruct (m w) as [x w1] eqn:E.
  intros [= _ <- _]. by eapply Hm.
Qed.
Lemma acts_get_owned : acts_local get_owned.
Proof. apply acts_get. Qed.
Lemma acts_set_owned o : acts_local (set_owned o).
Proof. intros [w o1] r [w' o'] [= _ <- _]. done. Qed.

(** A settled row never changes. *)
Lemma settled_forever d d' (id : string) row :
  db_wf d -> rtc repo_step d d' -> db_paid_operations d !! id = Some row -> row_terminal_at row <> None ->
  db_paid_operations d' !! id = Some row.
Proof.
  intros Hwf Hsteps Hrow Ht.
  destruct (row_steps_lookup _ _ id row Hwf (repo_steps_rows _ _ Hwf Hsteps) Hrow) as (n & r' & Hr' & Hn).
  destruct Hn as [|n ? r1 r' [now He] _]; [done|]. by apply closed_stuck in He.
Qed.

(** What follows from a computation acting through the repositories only. *)
Lemma acts_safe {A} (m : W A) w r w' :
  acts m -> db_wf (w_db w) -> m w = (r, w') ->
  db_wf (w_db w') /\
  forall id row, db_paid_operations (w_db w) !! id = Some row -> row_terminal_at row <> None ->
    db_paid_operations (w_db w') !! id = Some row.
Proof.
  intros Hm Hwf Hrun. apply Hm in Hrun. split; [eauto using row_steps_wf, repo_steps_rows|].
  intros id row. by apply settled_forever.
Qed.
End local_effects.
#[export] Hint Resolve acts_in_world acts_get_owned acts_set_owned : gateway.

(** Decompose a computation along the monad and its branches. *)
Ltac acting := repeat first
  [ progress intros
  | solve [auto with gateway nocore]
  | apply acts_bind
  | apply acts_catch
  | apply acts_fold
  | apply acts_in_world
  | case_match ].

Section effects.
Context `{Plat : Platform} `{Client : PaidSessionClient} `{Env : Environment}
  (deps : PaidLiveReconcilerDeps).

Lemma requestWinddown_acts o reason : acts (requestWinddown deps o reason).
Proof. unfold requestWinddown. acting. Qed.
#[local] Hint Resolve requestWinddown_acts : gateway.

Lemma executeWinddown_acts o h g c reason : acts (executeWinddown deps o h g c reason).
Proof. unfold executeWinddown. acting. Qed.
Lemma executeRefill_acts o s i h c : acts (executeRefill deps o s i h c).
Proof. unfold executeRefill. acting. Qed.
Lemma applyAdvisoryEvent_acts o e : acts (applyAdvisoryEvent deps o e).
Proof. unfold applyAdvisoryEvent. acting. Qed.
Lemma repairLiveArtifacts_acts op s : acts (repairLiveArtifacts op s).
Proof.
  unfold repairLiveArtifacts. acting; apply acts_query_media; intros; auto with gateway.
Qed.
#[local] Hint Resolve executeWinddown_acts executeRefill_acts applyAdvisoryEvent_acts repairLiveArtifacts_acts : gateway.

Lemma resumeOpeningSession_acts o s : acts (resumeOpeningSession deps o s).
Proof. unfold resumeOpeningSession. acting. Qed.
Lemma apply_frame_acts j : acts_local (apply_frame deps j).
Proof. unfold apply_frame. acting. Qed.
#[local] Hint Resolve resumeOpeningSession_acts apply_frame_acts : gateway.

Lemma advisory_phase_acts c h : acts_local (advisory_phase deps c h).
Proof. unfold advisory_phase. acting. Qed.
Lemma poll_phase_acts s c h b : acts_local (poll_phase deps s c h b).
Proof. unfold poll_phase. acting. Qed.
#[local] Hint Resolve advisory_phase_acts poll_phase_acts : gateway.

Lemma reconcile_body_acts o : acts_local (reconcile_body deps o).
Proof. unfold reconcile_body. acting. Qed.
Lemma reconcile_failed_acts e : acts_local (reconcile_failed deps e).
Proof. unfold reconcile_failed. acting. Qed.
Lemma release_lease_acts : acts_local (release_lease deps).
Proof. unfold release_lease. acting. Qed.

Lemma reconcileOne_acts o : acts (reconcileOne deps o).
Proof.
  intros w r w'. unfold reconcileOne.
  destruct (mfinally _ _ _) as [x [w1 o1]] eqn:E. intros [= _ <-].
  revert E. apply (acts_finally (fun s : world * OwnedPaidSession => w_db (fst s))
    (mcatch (reconcile_body deps o) (reconcile_failed deps)) (release_lease deps));
    auto using acts_catch, reconcile_body_acts, reconcile_failed_acts, release_lease_acts.
Qed.

Lemma reconcile_all_acts l : acts (reconcile_all deps l).
Proof.
  induction l as [|o l IH]; intros w r w'; cbn; [intros [= _ <-]; done|].
  destruct (reconcileOne deps o w) as [x w1] eqn:E1. destruct (reconcile_all deps l w1) as [y w2] eqn:E2.
  intros [= _ <-]. etrans; [by eapply reconcileOne_acts|by eapply IH].
Qed.

Lemma reconcile_acts limit : acts (reconcilePaidLiveSessions deps limit).
Proof.
  unfold reconcilePaidLiveSessions. apply acts_bind; [auto with gateway|]. intros.
  apply acts_bind; [apply reconcile_all_acts|]. intros. apply acts_ret.
Qed.

(** A reconciliation pass cannot corrupt the books.  Whatever the brokers, LOC
    and the other instances do meanwhile, a pass that ends in a value or in an error
    leaves well-formed tables well formed, and an operation that was settled before
    it is byte for byte the same after it. *)
Lemma reconciliation_is_safe limit w r w' :
  db_wf (w_db w) -> reconcilePaidLiveSessions deps limit w = (r, w') ->
  db_wf (w_db w') /\
  forall id row, db_paid_operations (w_db w) !! id = Some row -> row_terminal_at row <> None ->
    db_paid_operations (w_db w') !! id = Some row.
Proof.
  apply acts_safe, reconcile_acts.
Qed.

End effects.

(** ** Retries *)

Lemma backoff_table k :
  0 <= k ->
  Z.min 60 (5 * 2 ^ Z.min (k + 1 - 1) 4) = match k with 0 => 5 | 1 => 10 | 2 => 20 | 3 => 40 | _ => 60 end.
Proof.
  intros Hk. replace (k + 1 - 1) with k by lia.
  assert (k = 0 \/ k = 1 \/ k = 2 \/ k = 3 \/ 4 <= k) as [->|[->|[->|[->|Hk4]]]] by lia; try reflexivity.
  rewrite (Z.min_r k) by lia. destruct k as [|q|q]; try lia.
  destruct q as [[q|q|]|[q|q|]|]; try reflexivity; lia.
Qed.

(** Failed passes back off and always come back: without a Retry-After the n-th
    consecutive failure waits 5, 10, 20, 40 and from the fifth on 60 seconds, a
    Retry-After is honoured but never below 5 seconds, and the recorded next attempt
    lies strictly after the failure and carries the failure's code and count. *)
Lemma retries_back_off op error now base p :
  0 <= op_retryCount op -> retryProgress op error now base = Ok p ->
  exists at_, pr_nextRetryAt p = Some at_ /\ now + 5000 <= at_ /\
    pr_retryCount p = Some (op_retryCount op + 1) /\ pr_lastErrorCode p = Some (retry_code error) /\
    pr_status p = pr_status base /\
    match error with
    | LocTransportError {| loc_retryAfterSeconds := Some s |} => at_ = now + Z.max 5 s * 1000
    | _ => at_ = now + 1000 * match op_retryCount op with 0 => 5 | 1 => 10 | 2 => 20 | 3 => 40 | _ => 60 end
    end.
Proof.
  intros Hn. unfold retryProgress. unfold new_date. destruct (_ <=? _); [|done].
  intros [= <-]. eexists. split; [reflexivity|]. cbn [pr_retryCount pr_lastErrorCode pr_status update_field].
  assert (retry_delay (op_retryCount op + 1) error =
    match error with
    | LocTransportError {| loc_retryAfterSeconds := Some s |} => Z.max 5 s
    | _ => match op_retryCount op with 0 => 5 | 1 => 10 | 2 => 20 | 3 => 40 | _ => 60 end
    end) as Hd.
  { unfold retry_delay. pose proof (backoff_table _ Hn) as Hb.
    destruct error as [| |[? ? ? ? ? [s|]]| | | |]; first [reflexivity|exact Hb]. }
  rewrite Hd. split_and!; try done.
  - destruct error as [| |[? ? ? ? ? [s|]]| | | |]; try lia;
      (assert (5 <= match op_retryCount op with 0 => 5 | 1 => 10 | 2 => 20 | 3 => 40 | _ => 60 end)
        by (repeat case_match; lia)); lia.
  - destruct error as [| |[? ? ? ? ? [s|]]| | | |]; lia.
Qed.

(** ** Funding *)

(** A refill is only asked for within policy: runway is short or the broker says
    so, the next refill is not announced to be refused, fewer refills than the limit
    were made, the session is funded below the cap; and the requested total never
    exceeds the cap, and is either the cap or strictly more than the current
    authorisation. *)
Lemma refill_stays_within_policy deps balance runtime funded total :
  decide_refill deps balance runtime funded = AskRefill total ->
  total <= rc_maxTotalUnits deps /\
  (total = rc_maxTotalUnits deps \/ ba_authorizationMaxUnits balance < total) /\
  funded < rc_maxTotalUnits deps /\ (rt_refillCount runtime ?? 0) < rc_maxRefills deps /\
  ba_willRefuseNextRefill balance = false /\
  (ba_status balance <> balance_ok \/
   exists r, ba_runwayUnits balance = Some r /\ r <= rc_refillThresholdUnits deps).
Proof.
  unfold decide_refill.
  match goal with |- (if ?b then _ else if ?c then _ else _) = _ -> _ =>
    destruct b eqn:E1; [done|]; destruct c eqn:E2; [done|] end.
  intros [= <-]. bools. split_and!; try done; try lia.
  destruct E1 as [E1|E1]; bools; [by left|right].
  destruct (ba_runwayUnits balance) as [r|]; [|done]. bools. eauto.
Qed.

(** ** Settling *)

(** A closing row passes the constraints of the table if the open one did. *)
Lemma terminal_row_check now st c q ev at_ r :
  row_check r = true -> row_lifecycle_version r < INT8_MAX -> 0 <= c -> 0 <= q ->
  row_check (terminal_row now st c q ev at_ r) = true.
Proof.
  unfold row_check. rewrite !andb_true_iff. intros H Hv Hc Hq.
  decompose [and] H. clear H. cbn [nonneg_opt is_present Bool.eqb].
  change (row_operation_kind (terminal_row now st c q ev at_ r)) with (row_operation_kind r).
  change (row_lifecycle_version (terminal_row now st c q ev at_ r)) with (row_lifecycle_version r + 1).
  split_and!; first [assumption|reflexivity|apply Z.leb_le; bools; cbn; lia].
Qed.

Lemma pg_numeric_string_of_Z z : safe_nat z -> pg_numeric (string_of_Z z) = Ok z.
Proof.
  unfold safe_nat, MAX_SAFE_INTEGER. intros Hz. unfold pg_numeric. rewrite string_of_Z_value by lia.
  by rewrite (proj2 (Z.ltb_lt _ _)) by lia.
Qed.

Lemma terminal_row_unique now st c q ev at_ r d :
  db_wf d -> db_paid_operations d !! row_id r = Some r ->
  row_unique (terminal_row now st c q ev at_ r) (db_paid_operations d) = true.
Proof.
  intros Hwf Hr. unfold row_unique. apply bool_decide_eq_true. intros k r' Hr'.
  destruct (decide (k = row_id r)) as [->|Hne]; [by left|right].
  change (rows_conflict (terminal_row now st c q ev at_ r) r') with (rows_conflict r r').
  by eapply (wf_unique _ Hwf (row_id r) k).
Qed.

(** A claim that matches its row updates it. *)
Lemma matched_update d id claim r l extra f :
  db_paid_operations d !! id = Some r -> row_check r = true ->
  cl_version claim = string_of_Z (row_lifecycle_version r) -> row_recovery_owner r = Some (cl_owner claim) ->
  cl_leaseExpiresAt claim = DateMs l -> row_recovery_lease_expires_at r = Some l ->
  extra r = true -> row_check (f r) = true -> row_unique (f r) (db_paid_operations d) = true ->
  update_claimed id claim extra f d =
    Ok (Some (f r), d <| db_paid_operations := <[row_id (f r) := f r]> (db_paid_operations d) |>).
Proof.
  intros Hr Hck Hv Ho Hcl Hl Hx Hc Hu. unfold update_claimed.
  rewrite Hv, pg_bigint_string_of_Z by (by apply row_check_version).
  cbn [result_bind]. rewrite Hr. unfold holds_claim. rewrite Ho, Hcl, Hl, Z.eqb_refl, Hx.
  rewrite !bool_decide_eq_true_2 by done. cbn. unfold store_row. by rewrite Hc, Hu.
Qed.

(** The session [o] holds: its row, leased under its claim until after now. *)
Record holds (d : db) (o : OwnedPaidSession) (r : Row) (l : Z) : Prop := {
  holds_row : db_paid_operations d !! op_id (ow_operation o) = Some r;
  holds_version : cl_version (ow_claim o) = string_of_Z (row_lifecycle_version r);
  holds_owner : row_recovery_owner r = Some (cl_owner (ow_claim o));
  holds_lease : row_recovery_lease_expires_at r = Some l /\ cl_leaseExpiresAt (ow_claim o) = DateMs l;
  holds_live : db_now d < l;
  holds_valid : validateClaim (ow_claim o) = Ok tt;
  holds_open : row_terminal_at r = None;
  holds_room : row_lifecycle_version r < INT8_MAX
}.

(** A claimed update of a held row that may be stored succeeds. *)
Lemma held_update d o r l extra f :
  db_wf d -> holds d o r l -> extra r = true -> row_check (f r) = true ->
  row_unique (f r) (db_paid_operations d) = true ->
  update_claimed (op_id (ow_operation o)) (ow_claim o) extra f d =
    Ok (Some (f r), d <| db_paid_operations := <[row_id (f r) := f r]> (db_paid_operations d) |>).
Proof.
  intros Hwf [Hr Hv Ho [Hl Hcl] Hnow Hval Hopen Hroom] Hx Hc Hu.
  by apply (matched_update _ _ _ _ l); [| apply (wf_check _ Hwf _ _ Hr) | ..].
Qed.

(** A held session of a stream that has not ended can be settled. *)
Lemma recordLiveTerminal_succeeds d o r l s units seq ev at_ stream_ :
  db_wf d -> holds d o r l -> row_operation_kind r = session -> row_live_stream_id r = Some s ->
  db_live_streams d !! s = Some stream_ -> ls_endedAt stream_ = None -> safe_nat units -> safe_nat seq ->
  exists d', recordLiveTerminal (op_id (ow_operation o)) (ow_claim o)
    (mkLiveTerminal s (string_of_Z units) (string_of_Z seq) ev at_) d = Ok (true, d').
Proof.
  intros Hwf Hh Hk Hs Hst Hend Hu Hq. unfold recordLiveTerminal. rewrite (holds_valid _ _ _ _ Hh).
  cbn [result_bind lt_claimedUnits lt_settlementSequence lt_liveStreamId lt_evidence lt_terminalAt].
  rewrite !pg_numeric_string_of_Z by done. cbn [result_bind].
  pose proof (wf_keyed _ Hwf _ _ (holds_row _ _ _ _ Hh)) as Hid. cbn in Hid.
  rewrite (held_update d o r l) by (first [done
    | unfold lease_live, not_terminal; rewrite Hk, Hs, (proj1 (holds_lease _ _ _ _ Hh)), (holds_open _ _ _ _ Hh),
        !bool_decide_eq_true_2 by done; cbn; rewrite andb_true_r; apply Z.ltb_lt, (holds_live _ _ _ _ Hh)
    | apply terminal_row_check; [apply (wf_check _ Hwf _ _ (holds_row _ _ _ _ Hh))|apply (holds_room _ _ _ _ Hh)|apply Hu|apply Hq]
    | apply terminal_row_unique; [done|rewrite Hid; apply (holds_row _ _ _ _ Hh)]]).
  cbn [result_bind]. unfold end_stream. cbn. rewrite Hst, Hend. cbn. eauto.
Qed.

Section settle.
Context `{Plat : Platform} `{Client : PaidSessionClient} `{Env : Environment}
  (deps : PaidLiveReconcilerDeps).

(** What settling a session in full means: the operation is closed as settled for the
    units, the stream is ended, the secrets are gone and the directory has forgotten the
    broker session. *)
Definition fully_settled (id s broker : string) (units : Z) (w : world) : Prop :=
  (exists r', db_paid_operations (w_db w) !! id = Some r' /\ lease_of r' = Closed /\
     row_status r' = "settled" /\ row_claimed_units r' = Some units) /\
  (exists st, db_live_streams (w_db w) !! s = Some st /\ ls_status st = "ended") /\
  db_secrets (w_db w) !! id = None /\ dir_get broker (w_dir w) = None.

Lemma claimed_units_read (units : option Z) z : string_of_Z <$> units = Some (string_of_Z z) -> units = Some z.
Proof. destruct units as [u|]; [|done]. intros [= H]. f_equal. by apply (inj pretty) in H. Qed.
Lemma dir_remove_forgets k dir : dir_get k (dir_remove k dir) = None.
Proof.
  unfold dir_get, dir_remove. destruct (routesBySessionId dir !! k) as [route|] eqn:E; cbn; [apply lookup_delete_eq|done].
Qed.

(** The settled tables, with the directory's entry removed. *)
Lemma settled_in_full d id claim s units seq ev at_ d' broker w :
  db_wf d -> recordLiveTerminal id claim (mkLiveTerminal s (string_of_Z units) seq ev at_) d = Ok (true, d') ->
  fully_settled id s broker units (w <| w_db := d' |> <| w_dir := dir_remove broker (w_dir w) |>).
Proof.
  intros Hwf H. pose proof (live_settlement_spec _ _ _ _ _ _ Hwf H) as
    (r0 & r' & l' & s' & _ & _ & _ & _ & _ & Hops & Hcl & Hset & _ & Hclaimed & _ & _ & _ & Hstreams & _ & Hsec).
  unfold fully_settled. cbn. split_and!.
  - exists r'. rewrite Hops, lookup_insert_eq. split_and!; try done. by apply claimed_units_read.
  - rewrite Hstreams. eexists. split; [apply lookup_insert_eq|done].
  - rewrite Hsec. apply lookup_delete_eq.
  - apply dir_remove_forgets.
Qed.

(** The handler of a failure writes the failure down, and nothing else. *)
Definition note_failure (o : OwnedPaidSession) (reason : string) (error : exn) : W unit :=
  do! now <- now_; do! runtime <- mlift (runtime_of o);
  do! p <- mlift (retryProgress (ow_operation o) error now
    ((progress (winddown_status error)) <| pr_sessionRuntime := Some (runtime <| rt_winddownReason := Some reason |>) |>));
  do! _ <- store_recordProgress (rc_options deps) o p; mret_ tt.
Definition noted (o : OwnedPaidSession) (error : exn) (w w' : world) : Prop :=
  w_dir w' = w_dir w /\ exists d, rtc repo_step (w_db w) d /\
    (w_db w' = d \/ exists p x, pr_status p = winddown_status error /\
       recordProgress (op_id (ow_operation o)) (ow_claim o) p d = Ok (x, w_db w')).
Lemma noted_nothing o error w : noted o error w w.
Proof. split; [done|]. exists (w_db w). split; [done|by left]. Qed.
Lemma failure_is_noted o reason error w out w' : note_failure o reason error w = (out, w') -> noted o error w w'.
Proof.
  unfold note_failure. unfold mbind_ at 1, now_, mbind_ at 1, mlift at 1.
  destruct (runtime_of o) as [rt|e0]; [|intros [= _ <-]; apply noted_nothing].
  unfold mbind_ at 1, mlift at 1. destruct (retryProgress _ _ _ _) as [p|e0] eqn:Hp; [|intros [= _ <-]; apply noted_nothing].
  assert (Hst : pr_status p = winddown_status error).
  { unfold retryProgress in Hp. destruct (new_date _); [|done]. by injection Hp as <-. }
  unfold noted, store_recordProgress, mbind_, query, exec.
  destruct (recordProgress _ _ p _) as [[x d']|e1] eqn:E.
  - destruct x as [op|]; cbn; [unfold mbind_, mlift; destruct (owned op _)|]; intros [= <- <-]; cbn; (split; [done|]);
      (eexists; split; [apply others_steps|right; eauto]).
  - intros [= <- <-]. cbn. split; [done|]. eexists. split; [apply others_steps|by left].
Qed.

(** C6: a session whose end succeeded is settled, not retried, whatever the other instances
    do meanwhile.  Once the client's [end] returned, if this instance still holds the
    session and its stream has not ended when the closing statement runs, then
    [executeWinddown] finishes without error, the operation is closed as settled for exactly
    the returned units, its stream is ended, its secrets are gone, and the directory no
    longer lists the broker session.  Otherwise nothing of this happens by halves: either
    all of it does, or the directory is left alone and either the statement matched no row
    and changed nothing, or the database refused it and only a retry is noted. *)
Theorem ended_session_is_settled w o s handle gateway credential reason result n' w' out :
  let id := op_id (ow_operation o) in
  let broker := op_brokerSessionId (ow_operation o) ?? "" in
  let d := others (S (w_tick w)) (w_db w) in
  let closing := recordLiveTerminal id (ow_claim o) (mkLiveTerminal s (string_of_Z (ex_actualUnits result))
    (string_of_Z (ex_settlementSequence result)) (settlement_evidence o result reason) (clock (S (w_tick w)))) d in
  db_wf (w_db w) -> op_liveStreamId (ow_operation o) = Some s ->
  ps_end (mkEndRequest handle gateway broker credential reason) (w_net w) = (Ok result, n') ->
  executeWinddown deps o handle gateway credential reason w = (out, w') ->
  (forall r l stream_, holds d o r l -> row_operation_kind r = session -> row_live_stream_id r = Some s ->
     db_live_streams d !! s = Some stream_ -> ls_endedAt stream_ = None ->
     out = Ok tt /\ fully_settled id s broker (ex_actualUnits result) w') /\
  (out = Ok tt /\ fully_settled id s broker (ex_actualUnits result) w' \/
   w_dir w' = w_dir w /\
     (out = Ok tt /\ w_db w' = d \/
      exists e w1, closing = Err e /\ w_db w1 = d /\ w_dir w1 = w_dir w /\ noted o e w1 w')).
Proof.
  intros id broker d closing Hwf Hos Hcall Hrun.
  destruct (ps_end_units _ _ _ _ Hcall) as (Hu & Hseq & _).
  assert (Hwfd : db_wf d) by (eapply (row_steps_wf (w_db w)); [apply repo_steps_rows; [done|apply others_steps]|done]).
  unfold executeWinddown in Hrun. unfold mcatch, mbind_ at 1, call in Hrun. fold broker in Hrun. rewrite Hcall in Hrun.
  unfold mbind_ at 1, now_ in Hrun. cbn [w_tick update_field] in Hrun.
  unfold mbind_ at 1, store_recordLiveTerminal, query, exec in Hrun.
  rewrite Hos in Hrun. cbn [or_default w_tick w_db update_field] in Hrun. fold id d in Hrun.
  assert (Hclose : forall r l stream_, holds d o r l -> row_operation_kind r = session -> row_live_stream_id r = Some s ->
     db_live_streams d !! s = Some stream_ -> ls_endedAt stream_ = None -> exists d1, closing = Ok (true, d1)).
  { intros r l st Hh Hk Hs Hst Hend. by eapply recordLiveTerminal_succeeds. }
  fold closing in Hrun. destruct closing as [[[] d1]|e] eqn:E.
  - injection Hrun as <- <-. assert (Hf := settled_in_full d id (ow_claim o) s (ex_actualUnits result) _ _ _ d1 broker
      (w <| w_net := n' |> <| w_tick := S (S (w_tick w)) |>) Hwfd E). split; [by intros|by left].
  - injection Hrun as <- <-. pose proof (live_settlement_spec _ _ _ _ _ _ Hwfd E) as ->. split.
    + intros r l st H1 H2 H3 H4 H5. by destruct (Hclose r l st H1 H2 H3 H4 H5).
    + right. cbn. auto.
  - apply failure_is_noted in Hrun. split.
    + intros r l st H1 H2 H3 H4 H5. by destruct (Hclose r l st H1 H2 H3 H4 H5).
    + right. split; [by destruct Hrun as [-> _]|]. right. eexists e, _. split_and!; [done| | |exact Hrun]; done.
Qed.
End settle.

(** ** Witnesses *)

Definition sample_deps : PaidLiveReconcilerDeps := mkReconcilerDeps sample_options None 5 100 3 30000.

(** One pass over an idle session that was asked to wind down settles it. *)
Lemma reconciliation_is_safe_witness :
  exists r w', reconcilePaidLiveSessions sample_deps 25 (live_world (idle_db "winddown_requested")) = (r, w') /\
    status_in (w_db w') = Some "settled" /\ db_wf (w_db w').
Proof.
  destruct (reconcilePaidLiveSessions sample_deps 25 (live_world (idle_db "winddown_requested"))) as [r w'] eqn:H.
  exists r, w'. split_and!; [reflexivity| |].
  - replace w' with (snd (reconcilePaidLiveSessions sample_deps 25 (live_world (idle_db "winddown_requested"))))
      by (rewrite H; reflexivity).
    vm_compute. reflexivity.
  - apply (reconciliation_is_safe sample_deps 25 (live_world (idle_db "winddown_requested")) r w').
    + apply idle_db_wf.
    + exact H.
Defined.

Lemma retries_back_off_witness :
  exists p at_, retryProgress (ow_operation (live_owned (live_db "active"))) type_error 1000 (progress "active") = Ok p /\
    pr_nextRetryAt p = Some at_ /\ 1000 + 5000 <= at_.
Proof.
  destruct (retryProgress (ow_operation (live_owned (live_db "active"))) type_error 1000 (progress "active"))
    as [p|e] eqn:H.
  - destruct (retries_back_off (ow_operation (live_owned (live_db "active"))) type_error 1000 (progress "active") p
      ltac:(vm_compute; discriminate) H) as (at_ & H1 & H2 & _). exists p, at_. split_and!; [reflexivity|exact H1|exact H2].
  - exfalso. vm_compute in H. discriminate H.
Defined.

Definition sample_balance : PaidSessionBalance :=
  mkBalance 7 7 "output_seconds" "work" 10 3 "0" "0" None None (Some 3) None balance_ok false.

Lemma refill_stays_within_policy_witness :
  exists total, decide_refill sample_deps sample_balance sample_runtime 10 = AskRefill total /\ total <= 100.
Proof.
  exists 20. split; [vm_compute; reflexivity|].
  apply (refill_stays_within_policy sample_deps sample_balance sample_runtime 10 20).
  vm_compute. reflexivity.
Defined.

(** The sessions of the sample bill in seconds. *)
Lemma ended_session_is_settled_witness :
  exists w', executeWinddown sample_deps (live_owned (live_db "active")) sample_handle "uuid-g" "cred" "customer_end"
    (live_world (live_db "active")) = (Ok tt, w') /\
    db_secrets (w_db w') !! "op" = None.
Proof.
  set (w := live_world (live_db "active")). set (o := live_owned (live_db "active")).
  destruct (executeWinddown sample_deps o sample_handle "uuid-g" "cred" "customer_end" w) as [out w'] eqn:Hrun.
  destruct (ps_end (mkEndRequest sample_handle "uuid-g" "bs" "cred" "customer_end") (w_net w)) as [[result|e] n'] eqn:Hc.
  2: { exfalso. vm_compute in Hc. discriminate Hc. }
  destruct (db_paid_operations (w_db w) !! "op") as [r|] eqn:Hr.
  2: { exfalso. vm_compute in Hr. discriminate Hr. }
  assert (holds (w_db w) o r 100) as Hh.
  { vm_compute in Hr. injection Hr as <-. constructor; try (vm_compute; reflexivity). split; vm_compute; reflexivity. }
  destruct (ended_session_is_settled sample_deps w o "stream" sample_handle "uuid-g" "cred" "customer_end" result n' w' out
    (live_db_wf _) eq_refl Hc Hrun) as [H _].
  destruct (H r 100 sample_stream Hh) as (-> & _ & _ & Hs & _).
  - vm_compute in Hr. injection Hr as <-. reflexivity.
  - vm_compute in Hr. injection Hr as <-. reflexivity.
  - vm_compute. reflexivity.
  - reflexivity.
  - exists w'. split; [reflexivity|]. exact Hs.
Defined.
