(* ===== verification/LiveOpen.v ===== *)
(** * Opening a paid live stream (engine/service/paidLiveOpen.ts)

    The stream and the paid operation are stored, with everything a later pass needs
    to resume, before the broker is asked for a session; each later step is recorded
    under the operation's fence. *)

From S2P Require Import Prelude Js Types Wire Http Interfaces RouteProtocol LocClient SessionClient.
From S2P Require Import Database OperationRepo OperationLease MediaRepos Directory SessionStore.
From S2P Require Import LiveReconciler.
Open Scope Z_scope.

Definition RUNTIME_SCHEMA : string := "rtmp-hls/v1".
Definition PARAMS_SCHEMA : string := "rtmp-hls-session/v1".
Definition WORK_UNIT : string := "output_seconds".

Record PaidLiveOpenDeps := mkOpenDeps {
  od_options : PaidSessionStoreOptions;
  od_gatewayRtmpUrl : string;
  od_estimatedRunwayUnits : Z;
  od_maxTotalUnits : Z
}.

Record PaidLiveOpenInput := mkLiveOpenInput {
  li_streamId : string;
  li_apiKeyId : string;
  li_name : string;
  li_route : SelectedWorkerRoute
}.

Record PaidLiveOpenResult := mkLiveOpenResult {
  lx_streamId : string;
  lx_brokerSessionId : string;
  lx_streamKey : string;
  lx_rtmpPushUrl : string;
  lx_hlsPlaybackUrl : string;
  lx_playbackId : string;
  lx_expiresAt : string;
  lx_requestId : string
}.

Definition validateRoute (route : SelectedWorkerRoute) : result exn unit :=
  refuse_if ((sw_protocol route !=? "paid-session/v1") ||
             match sw_session route with
             | Some a => (ax_descriptorSchema a !=? RUNTIME_SCHEMA) || (ax_attachment a !=? external) ||
                         (ax_refill a !=? extensible)
             | None => true
             end ||
             (sw_workUnit route !=? WORK_UNIT))
    (PlainError "paid live route is incompatible").

(** The price and the binding of the route, as the operation keeps them. *)
Definition paidRoute (route : SelectedWorkerRoute) : result exn PaidRouteSnapshot :=
  let incomplete := PlainError "paid live route binding is incomplete" in
  match sw_quoteId route, sw_quoteVersion route, sw_constraintFingerprint route, sw_routeFingerprint route,
        sw_unitsPerPrice route, sw_settlementDomainId route with
  | Some q, Some v, Some c, Some r, Some u, Some d =>
      throw_if negb (nonempty q) || negb (nonempty v) || negb (nonempty u) || negb (nonempty d) with incomplete ;;
      match sw_settlementKeys route with
      | [] => Err (PlainError "paid live settlement key is missing")
      | key :: _ =>
          Ok {| route_protocol := "paid-session/v1"; route_transport := None;
                route_capability := sw_capability route; route_offering := sw_offering route;
                route_requestDescriptor := PARAMS_SCHEMA; route_responseDescriptor := Some RUNTIME_SCHEMA;
                route_workUnit := sw_workUnit route; route_estimator := None;
                route_pricePerUnitWei := sw_pricePerWorkUnitWei route; route_unitsPerPrice := u;
                route_quoteId := q; route_quoteVersion := v;
                route_constraintFingerprint := hex_string c; route_routeFingerprint := hex_string r;
                route_settlementDomainId := Some d; route_settlementKey := sk_publicKey key;
                route_raw := JObj [("broker_url", JStr (sw_workerUrl route));
                                   ("eth_address", JStr (sw_ethAddress route));
                                   ("protocol", JStr (sw_protocol route));
                                   ("settlement_domain_id", JStr d)] |}
      end
  | _, _, _, _, _, _ => Err incomplete
  end.

(** JSON of the route, as [recoveryRouteWire] reads it back. *)
Definition axes_json (a : PaidSessionAxes) : json :=
  JObj ([("descriptorSchema", JStr (ax_descriptorSchema a));
         ("attachment", JStr (attachment_name (ax_attachment a)));
         ("metering", JStr (metering_name (ax_metering a)));
         ("refill", JStr (refill_name (ax_refill a)));
         ("heartbeat", JObj [("intervalSeconds", int_json (hb_intervalSeconds (ax_heartbeat a)));
                             ("missedThreshold", int_json (hb_missedThreshold (ax_heartbeat a)))]);
         ("lease", JObj (("policy", JStr (policy_name (le_policy (ax_lease a)))) ::
                         opt_prop "maxSeconds" int_json (le_maxSeconds (ax_lease a))))]
        ++ opt_prop "toleranceBandPct" JNum (ax_toleranceBandPct a)
        ++ opt_prop "runwayIncrementUnits" int_json (ax_runwayIncrementUnits a)
        ++ opt_prop "sessionParamsSchema" id (ax_sessionParamsSchema a)).
Definition key_json (k : SettlementKey) : json :=
  JObj [("publicKey", JStr (sk_publicKey k)); ("notBefore", JStr (sk_notBefore k));
        ("expiresAt", JStr (sk_expiresAt k));
        ("introducedInPublicationSeq", JStr (sk_introducedInPublicationSeq k))].
Definition estimator_json (e : WorkUnitEstimator) : json :=
  JObj ([("id", JStr (est_id e)); ("rounding", JStr (est_rounding e)); ("exactness", JStr (est_exactness e))] ++
        opt_prop "package" JStr (est_package e) ++ opt_prop "fixtures" JStr (est_fixtures e)).

Definition recoveryRoute_json (route : SelectedWorkerRoute) : json :=
  JObj ([("worker_url", JStr (sw_workerUrl route)); ("eth_address", JStr (sw_ethAddress route));
         ("session", match sw_session route with Some a => axes_json a | None => JNull end);
         ("settlement_keys", JArr (key_json <$> sw_settlementKeys route));
         ("work_unit_estimator", match sw_workUnitEstimator route with Some e => estimator_json e | None => JNull end)]
        ++ opt_prop "settlement_domain_id" JStr (sw_settlementDomainId route)).

Definition sessionParams : list (string * json) :=
  [("schema", JStr PARAMS_SCHEMA); ("publisher_mode", JStr "gateway-relay");
   ("output_profile", JStr "live-standard"); ("metering_rendition", JStr "720p");
   ("storage", JObj [("kind", JStr "runner-local")])].

Definition openIntent (requestId keyRequestId : string) (estimated maxTotal : Z) : json :=
  JObj [("request_id", JStr requestId); ("key_request_id", JStr keyRequestId);
        ("descriptor_schema", JStr RUNTIME_SCHEMA); ("session_params", JObj sessionParams);
        ("estimated_runway_units", int_json estimated);
        ("max_total_units", int_json (Z.min maxTotal estimated))].

Definition initial_runtime : PaidSessionRuntimeState :=
  mkRuntime gateway_relay relay_pending 0 None None None "0" "0" None None None None None None None None.

Section open.
Context `{Plat : Platform} `{Client : PaidSessionClient} `{Env : Environment} (deps : PaidLiveOpenDeps).

Let options := od_options deps.

(** [runtimePublicWire]: strict, with an optional status URL. *)
Definition runtimePublicWire : decoder RecoveredRuntime := z_object (fun f =>
  _ ← strict ["rtmp_url"; "hls_url"; "key_issue_url"; "status_url"] f;
  rtmp ← field f "rtmp_url" z_url;
  hls ← field f "hls_url" z_url;
  key ← field f "key_issue_url" z_url;
  _ ← opt_field f "status_url" z_url;
  Some (mkRecoveredRuntime rtmp hls key)).

Definition open_timestamp (value : string) : result exn Z :=
  match date_parse value with Some ms => Ok ms | None => Err (PlainError "paid live lease is invalid") end.

Definition new_session (input : PaidLiveOpenInput) (id requestId digest : string) (route : PaidRouteSnapshot)
    : NewPaidOperation :=
  {| new_id := id; new_kind := session; new_apiKeyId := li_apiKeyId input; new_assetId := None;
     new_liveStreamId := Some (li_streamId input); new_requestId := "pending:" +:+ requestId;
     new_requestContentSha256 := digest; new_workId := "pending:" +:+ requestId;
     new_rotationGeneration := None; new_route := route; new_status := "opening";
     new_fundedUnits := string_of_Z (od_estimatedRunwayUnits deps);
     new_sessionRuntime := Some initial_runtime |}.

Definition opening_secrets (input : PaidLiveOpenInput) (requestId keyRequestId streamKey : string) (intent : json)
    : PaidOperationSecrets :=
  mkSecrets (Some intent) (Some (recoveryRoute_json (li_route input))) (Some (JObj sessionParams)) None None
    (Some (JObj [("idempotency_key", JStr requestId); ("key_request_id", JStr keyRequestId)]))
    None None (Some (JObj [("customer_stream_key", JStr streamKey)])) None.

(** The steps after the operation is stored; [owned] is the variable the final release
    reads. *)
Definition open_body (input : PaidLiveOpenInput) (requestId keyRequestId streamKey : string)
    (intent : json) : Local PaidLiveOpenResult :=
  let route := li_route input in
  do! opened <- in_world (call (ps_open (mkOpenRequest requestId route RUNTIME_SCHEMA sessionParams
    (od_estimatedRunwayUnits deps) (Z.min (od_maxTotalUnits deps) (od_estimatedRunwayUnits deps)))));
  do! runtime <- mlift (parse_or_throw (runtimePublicWire (po_runtimePublic opened)));
  match stream_key_grant (po_grants opened) with
  | None => mthrow (PlainError "paid live stream-key grant is invalid")
  | Some grant =>
      do! o <- get_owned;
      do! lease <- mlift (open_timestamp (po_leaseExpiresAt opened));
      do! state <- mlift (runtime_of o);
      do! progressed <- in_world (store_recordProgress options o
        (issuing_progress opened state (rt_hls_url runtime) lease
           (ba_runwayUnits (po_balance opened) ??
              Z.max 0 (od_estimatedRunwayUnits deps - ba_debitedUnits (po_balance opened)))));
      match progressed with
      | None => mthrow (PlainError "paid live open fence was lost")
      | Some o1 =>
          run! set_owned o1;
          do! issued <- in_world (call (ps_issueStreamKey
            (mkKeyRequest (rt_key_issue_url runtime) grant keyRequestId gateway_relay)));
          do! stored <- in_world (store_putSecrets o1
            ((opening_secrets input requestId keyRequestId streamKey intent)
               <| sec_grants := Some (JArr (grant_json <$> po_grants opened)) |>
               <| sec_control := Some (control_json (po_control opened)) |>
               <| sec_loc := Some (JObj [("idempotency_key", JStr requestId);
                                         ("key_request_id", JStr keyRequestId);
                                         ("control_handle", handle_json opened)]) |>
               <| sec_runnerIngestUrl := Some (rt_rtmp_url runtime) |>
               <| sec_runnerIngestKey := Some (kx_streamKey issued) |>
               <| sec_credentials := Some (JObj [("customer_stream_key", JStr streamKey);
                    ("broker_session_credential", JStr (po_credential opened))]) |>));
          run! mlift (refuse_if (negb stored) (PlainError "paid live secrets fence was lost"));
          do! state1 <- mlift (runtime_of o1);
          do! active <- in_world (store_recordProgress options o1 (active_progress state1));
          match active with
          | None => mthrow (PlainError "paid live activation fence was lost")
          | Some o2 =>
              run! set_owned o2;
              do! now <- in_world now_;
              run! in_world (query (fun _ => LiveStreams.updateStatus (li_streamId input) "active"
                (LiveStreams.mkFields (Some (po_brokerSessionId opened)) None (Some (sw_workerUrl route))
                   None None None None (Some now) None)));
              do! hex <- in_world (fresh_hex 12);
              do! playback <- in_world (query (fun _ => PlaybackIds.insert
                (mkPlaybackId ("pb_" +:+ hex) (li_apiKeyId input) None (Some (li_streamId input)) "public" false 0)));
              run! in_world (directory (dir_record (mkRoute (li_streamId input) (po_brokerSessionId opened)
                (sw_workerUrl route) (strip_slash (rt_rtmp_url runtime) +:+ "/" +:+ kx_streamKey issued)
                streamKey (rt_hls_url runtime))));
              mret_ {| lx_streamId := li_streamId input; lx_brokerSessionId := po_brokerSessionId opened;
                       lx_streamKey := streamKey;
                       lx_rtmpPushUrl := strip_slash (od_gatewayRtmpUrl deps) +:+ "/" +:+ streamKey;
                       lx_hlsPlaybackUrl := rt_hls_url runtime; lx_playbackId := pb_id playback;
                       lx_expiresAt := po_leaseExpiresAt opened;
                       lx_requestId := lo_requestId (po_opened opened) |}
          end
      end
  end.

Definition release_latest : Local unit :=
  do! o <- get_owned; do! _ <- in_world (store_release o); mret_ tt.

(** The part before the [try]: the stream and the operation with its secrets are stored. *)
Record Prepared := mkPrepared {
  pp_requestId : string;
  pp_keyRequestId : string;
  pp_streamKey : string;
  pp_owned : OwnedPaidSession
}.
Definition intent_of (p : Prepared) : json :=
  openIntent (pp_requestId p) (pp_keyRequestId p) (od_estimatedRunwayUnits deps) (od_maxTotalUnits deps).

Definition prepare_open (input : PaidLiveOpenInput) : W Prepared :=
  let route := li_route input in
  run! mlift (validateRoute route);
  do! keyHex <- fresh_hex 24;
  let streamKey := "live_" +:+ keyHex in
  do! requestId <- newRequestId;
  do! keyRequestId <- newRequestId;
  let intent := openIntent requestId keyRequestId (od_estimatedRunwayUnits deps) (od_maxTotalUnits deps) in
  do! _ <- query (fun _ => LiveStreams.insert
    (mkLiveStream (li_streamId input) (li_apiKeyId input) (Some (li_name input)) (sha256_hex streamKey) "idle"
       "rtmp" None None None (Some "video:transcode.live") (Some (sw_offering route)) (Some (sw_workUnit route))
       (Some (sw_pricePerWorkUnitWei route)) None 0 None));
  do! id <- fresh_uuid;
  do! snapshot <- mlift (paidRoute route);
  do! o <- store_create options (new_session input id requestId (sha256_hex (stringify intent)) snapshot)
             (opening_secrets input requestId keyRequestId streamKey intent);
  mret_ (mkPrepared requestId keyRequestId streamKey o).

Definition openPaidLiveStream (input : PaidLiveOpenInput) : W PaidLiveOpenResult :=
  do! p <- prepare_open input;
  fun w =>
    let '(r, (w', _)) := mfinally (open_body input (pp_requestId p) (pp_keyRequestId p) (pp_streamKey p) (intent_of p))
                           release_latest (w, pp_owned p) in
    (r, w').

End open.
