(* ===== verification/LiveOpenSpec.v ===== *)
(** * Properties of opening a live stream

    Opening acts on the tables through the repositories only; what it stores before
    it asks the broker for a session is enough to ask again for exactly the same
    session; and an open the broker or LOC refuses leaves the operation unleased, for
    the next reconciliation pass to take. *)

From S2P Require Import Prelude Js Types Wire Http Interfaces RouteProtocol LocClient SampleNet.
From S2P Require Import LocClientSpec SessionClient SessionClientSpec Database OperationRepo.
From S2P Require Import Samples OperationLease OperationSpec MediaRepos Directory SessionStore.
From S2P Require Import LiveReconciler SampleWorld LiveReconcilerSpec LiveOpen.
Open Scope Z_scope.

(** ** Effects *)

Section effects.
Context `{Plat : Platform} `{Client : PaidSessionClient} `{Env : Environment} (deps : PaidLiveOpenDeps).

Lemma prepare_open_acts input : acts (prepare_open deps input).
Proof. unfold prepare_open. acting; apply acts_query_media; intros; auto with gateway. Qed.
Lemma open_body_acts input r k s i : acts_local (open_body deps input r k s i).
Proof. unfold open_body. acting; apply acts_query_media; intros; auto with gateway. Qed.
Lemma release_latest_acts : acts_local release_latest.
Proof. unfold release_latest. acting. Qed.

Lemma openPaidLiveStream_acts input : acts (openPaidLiveStream deps input).
Proof.
  unfold openPaidLiveStream. apply acts_bind; [apply prepare_open_acts|]. intros p w r w'.
  destruct (mfinally _ _ _) as [x [w1 o1]] eqn:E. intros [= _ <-]. revert E.
  apply (acts_finally (fun s : world * OwnedPaidSession => w_db (fst s)));
    auto using open_body_acts, release_latest_acts.
Qed.

End effects.

(** ** The saved route *)

Lemma bytes_of_hex_byte b s : bytes_of_hex (hex_byte b +:+ s) = b :: bytes_of_hex s.
Proof. by destruct b. Qed.

Lemma bytes_of_hex_string l : bytes_of_hex (hex_string l) = l.
Proof. induction l as [|b l IH]; [done|]. cbn [hex_string]. by rewrite bytes_of_hex_byte, IH. Qed.

Section saved.
Context `{Plat : Platform}.

(** What the recovery schema asks of a route. *)
Record savable (route : SelectedWorkerRoute) (a : PaidSessionAxes) (d : string) : Prop := {
  sv_protocol : sw_protocol route = "paid-session/v1";
  sv_url : is_url (sw_workerUrl route) = true;
  sv_eth : nonempty (sw_ethAddress route) = true;
  sv_session : sw_session route = Some a;
  sv_axes : publishable a = true;
  sv_keys : Forall (fun k => nonempty (sk_publicKey k) = true) (sw_settlementKeys route);
  sv_some_key : sw_settlementKeys route <> [];
  sv_domain : sw_settlementDomainId route = Some d;
  sv_domain_regex : domain_regex d = true
}.

(** The part of a route a resumed session uses: all but the offer's free-form data. *)
Definition session_route (route : SelectedWorkerRoute) : SelectedWorkerRoute :=
  mkSelectedRoute (sw_workerUrl route) (sw_ethAddress route) (sw_capability route) (sw_offering route)
    (sw_pricePerWorkUnitWei route) (sw_workUnit route) (sw_protocol route) None (sw_session route)
    (sw_workUnitEstimator route) (sw_settlementKeys route) (sw_settlementDomainId route) (sw_unitsPerPrice route)
    (sw_quoteId route) (sw_quoteVersion route) (sw_constraintFingerprint route) (sw_routeFingerprint route)
    None None.

Lemma z_positive_int z : pos_safe z = true -> z_positive (int_json z) = Some z.
Proof. unfold pos_safe. cbn. by intros ->. Qed.

Lemma opt_ok_Some {A} (p : A -> bool) o a : opt_ok p o = true -> o = Some a -> p a = true.
Proof. by intros H ->. Qed.

Lemma lease_read_back p m :
  opt_ok pos_safe m = true ->
  z_object (fun g => policy ← field g "policy" (z_enum [("funding-tracking", funding_tracking); ("fixed", fixed)]);
    maxSeconds ← opt_field g "maxSeconds" z_positive; Some (mkLease policy maxSeconds))
    (JObj (("policy", JStr (policy_name p)) :: opt_prop "maxSeconds" int_json m)) = Some (mkLease p m).
Proof.
  intros Hm. cbn [z_object]. reading "policy" as p by (by destruct p).
  maybe "maxSeconds" as m by (instantiate (1 := int_json); by destruct m); [done|].
  intros z Hz. by apply z_positive_int, (opt_ok_Some _ m).
Qed.

Lemma axes_read_back a : publishable a = true -> sessionAxesWire (axes_json a) = Some a.
Proof.
  unfold publishable. rewrite !andb_true_iff.
  intros [[[[[[[Hds _] Hhi] Hhm] Hlm] Htol] Hrun] Hps].
  destruct a as [ds at_ me rf [hi hm] [po ms] tol run ps].
  cbn [ax_descriptorSchema ax_attachment ax_metering ax_refill ax_heartbeat ax_lease ax_toleranceBandPct
    ax_runwayIncrementUnits ax_sessionParamsSchema hb_intervalSeconds hb_missedThreshold le_policy le_maxSeconds] in *.
  unfold sessionAxesWire, axes_json, z_object at 1.
  reading "descriptorSchema" as ds by (cbn -[nonempty]; by rewrite Hds).
  reading "attachment" as at_ by (by destruct at_).
  reading "metering" as me by (by destruct me).
  reading "refill" as rf by (by destruct rf).
  reading "heartbeat" as (mkHeartbeat hi hm)
    by (cbn [z_object]; reading "intervalSeconds" as hi by (by apply z_positive_int);
        by (reading "missedThreshold" as hm by (by apply z_positive_int))).
  reading "lease" as (mkLease po ms) by (by apply lease_read_back).
  maybe "toleranceBandPct" as tol by (instantiate (1 := JNum); by destruct tol, run, ps).
  2: { intros n Hn. apply (opt_ok_Some _ _ _ Htol) in Hn. cbn. by rewrite Hn. }
  maybe "runwayIncrementUnits" as run by (instantiate (1 := int_json); by destruct tol, run, ps).
  2: { intros z Hz. by apply z_positive_int, (opt_ok_Some _ run). }
  maybe "sessionParamsSchema" as (match ps with Some (JObj l) => Some l | _ => None end)
    by (instantiate (1 := JObj); destruct ps as [[]|]; by destruct tol, run).
  2: { by intros l _. }
  cbn. by destruct ps as [[]|].
Qed.

Lemma keys_read_back l dec :
  (forall k, nonempty (sk_publicKey k) = true -> dec (key_json k) = Some k) ->
  Forall (fun k => nonempty (sk_publicKey k) = true) l -> decode_all dec (key_json <$> l) = Some l.
Proof. intros Hdec H. induction H as [|k l Hk H IH]; [done|]. cbn. by rewrite Hdec, IH. Qed.

Lemma estimator_read_back o :
  cast_estimator (Some match o with Some e => estimator_json e | None => JNull end) = o.
Proof. by destruct o as [[i r x [p|] [q|]]|]. Qed.

Lemma route_read_back route a d :
  savable route a d ->
  recoveryRouteWire (recoveryRoute_json route) = Some (mkRecoveryRoute (sw_workerUrl route) (sw_ethAddress route)
    a (sw_settlementKeys route) (sw_workUnitEstimator route) d).
Proof.
  intros [Hp Hu He Hs Ha Hk Hk0 Hd Hdr]. unfold recoveryRouteWire, recoveryRoute_json, z_object at 1.
  rewrite Hs, Hd.
  replace (strict _ _) with (Some ()) by (by vm_compute).
  reading "worker_url" as (sw_workerUrl route) by (unfold z_url, z_refined; by rewrite Hu).
  reading "eth_address" as (sw_ethAddress route) by (cbn -[nonempty]; by rewrite He).
  reading "session" as a by (by apply axes_read_back).
  reading "settlement_keys" as (sw_settlementKeys route) by idtac.
  2: { cbn [z_array]. rewrite length_fmap. destruct (sw_settlementKeys route) as [|k l]; [done|].
       cbn [length Nat.leb]. apply keys_read_back; [|done]. intros [p n x i] Hn. cbn [sk_publicKey] in Hn. unfold key_json. cbn [z_object].
       by (reading "publicKey" as p by (cbn -[nonempty]; by rewrite Hn)). }
  reading "settlement_domain_id" as d by (unfold z_domain, z_refined; by rewrite Hdr).
  cbn [mbind option_bind]. change (assoc "work_unit_estimator" _) with
    (Some match sw_workUnitEstimator route with Some e => estimator_json e | None => JNull end).
  by rewrite estimator_read_back.
Qed.

Lemma recovered_route route a d snapshot op :
  savable route a d -> paidRoute route = Ok snapshot -> op_route op = snapshot ->
  recoveryRoute op (mkRecoveryRoute (sw_workerUrl route) (sw_ethAddress route) a (sw_settlementKeys route)
    (sw_workUnitEstimator route) d) = session_route route.
Proof.
  intros [Hp Hu He Hs Ha Hk Hk0 Hd Hdr] Hr Hop. unfold paidRoute in Hr. rewrite Hd in Hr.
  destruct (sw_quoteId route) as [q|] eqn:Eq; [|done]. destruct (sw_quoteVersion route) as [v|] eqn:Ev; [|done].
  destruct (sw_constraintFingerprint route) as [c|] eqn:Ec; [|done].
  destruct (sw_routeFingerprint route) as [rf|] eqn:Er; [|done].
  destruct (sw_unitsPerPrice route) as [u|] eqn:Eu; [|done].
  apply result_bind_Ok in Hr as ([] & _ & Hr). destruct (sw_settlementKeys route) as [|k l] eqn:Ek; [done|].
  injection Hr as <-. unfold recoveryRoute, session_route. rewrite Hop.
  rewrite Hd, Eq, Ev, Ec, Er, Eu, Hp, Hs, Ek.
  cbn. by rewrite !bytes_of_hex_string.
Qed.
End saved.

(** ** Resuming *)

Section resume.
Context `{Plat : Platform} `{Client : PaidSessionClient} `{Env : Environment}
  (deps : PaidLiveOpenDeps) (rdeps : PaidLiveReconcilerDeps).

(** The request an open makes of the session client. *)
Definition session_request (requestId : string) (route : SelectedWorkerRoute) : PaidSessionOpenRequest :=
  mkOpenRequest requestId route RUNTIME_SCHEMA sessionParams (od_estimatedRunwayUnits deps)
    (Z.min (od_maxTotalUnits deps) (od_estimatedRunwayUnits deps)).

Lemma intent_read_back requestId keyRequestId :
  nonempty requestId = true -> nonempty keyRequestId = true ->
  pos_safe (od_estimatedRunwayUnits deps) = true -> pos_safe (od_maxTotalUnits deps) = true ->
  openingIntentWire (openIntent requestId keyRequestId (od_estimatedRunwayUnits deps) (od_maxTotalUnits deps)) =
    Some (mkOpeningIntent requestId keyRequestId RUNTIME_SCHEMA (od_estimatedRunwayUnits deps)
      (Z.min (od_maxTotalUnits deps) (od_estimatedRunwayUnits deps))).
Proof.
  intros Hr Hk He Hm. unfold openingIntentWire, openIntent. cbn [z_object].
  reading "request_id" as requestId by (cbn -[nonempty]; by rewrite Hr).
  reading "key_request_id" as keyRequestId by (cbn -[nonempty]; by rewrite Hk).
  reading "descriptor_schema" as RUNTIME_SCHEMA by reflexivity.
  reading "estimated_runway_units" as (od_estimatedRunwayUnits deps) by (by apply z_positive_int).
  reading "max_total_units" as (Z.min (od_maxTotalUnits deps) (od_estimatedRunwayUnits deps))
    by (apply z_positive_int; by destruct (Z.min_spec (od_maxTotalUnits deps) (od_estimatedRunwayUnits deps)) as [[_ ->]|[_ ->]]).
  done.
Qed.

(** C9: an interrupted open is resumed as the same request.  From the secrets stored
    before the broker was first asked, and the route snapshot of the operation, a
    later pass rebuilds the open request field by field: the idempotency key, the
    axes, prices, quote, fingerprints and settlement keys of the route, the session
    parameters and the funding.  So the first outside call of the resumption is the
    original open, bound to the same quote; if it fails the pass fails with that
    error and has written nothing. *)
Theorem resumed_open_repeats_the_request input requestId keyRequestId streamKey a d snapshot o w e n' :
  savable (li_route input) a d -> paidRoute (li_route input) = Ok snapshot -> op_route (ow_operation o) = snapshot ->
  nonempty requestId = true -> nonempty keyRequestId = true -> nonempty streamKey = true ->
  pos_safe (od_estimatedRunwayUnits deps) = true -> pos_safe (od_maxTotalUnits deps) = true ->
  truthy (op_liveStreamId (ow_operation o)) = true ->
  ps_open (session_request requestId (session_route (li_route input))) (w_net w) = (Err e, n') ->
  routeBindingFor (session_route (li_route input)) = routeBindingFor (li_route input) /\
  resumeOpeningSession rdeps o (opening_secrets input requestId keyRequestId streamKey
    (openIntent requestId keyRequestId (od_estimatedRunwayUnits deps) (od_maxTotalUnits deps))) w
    = (Err e, w <| w_net := n' |> <| w_tick := S (w_tick w) |>).
Proof.
  intros Hsv Hr Hop Hq Hk Hs He Hm Hl Hcall. split; [done|].
  unfold resumeOpeningSession, opening_secrets, secret.
  cbn [sec_openIntent sec_routeIntent sec_sessionParams sec_credentials].
  rewrite intent_read_back, (route_read_back _ _ _ Hsv) by done.
  unfold mbind_ at 1, mlift at 1. cbn [parse_or_throw].
  unfold mbind_ at 1, mlift at 1. cbn [parse_or_throw].
  unfold mbind_ at 1, mlift at 1. cbn [parse_or_throw z_record].
  unfold mbind_ at 1, mlift at 1.
  assert (initialCredentialsWire (JObj [("customer_stream_key", JStr streamKey)]) =
    Some (streamKey, [("customer_stream_key", JStr streamKey)])) as ->.
  { unfold initialCredentialsWire. cbn [z_object].
    by (reading "customer_stream_key" as streamKey by (cbn -[nonempty]; by rewrite Hs)). }
  cbn [parse_or_throw]. rewrite Hl. unfold mbind_ at 1, mlift at 1. cbn [refuse_if negb].
  unfold mbind_ at 1, call. cbn [oit_request_id oit_descriptor_schema oit_estimated_runway_units oit_max_total_units].
  rewrite (recovered_route _ _ _ _ _ Hsv Hr Hop).
  unfold session_request in Hcall. rewrite Hcall. done.
Qed.
End resume.

(** ** Failed opens *)

Section failed.
Context `{Plat : Platform} `{Client : PaidSessionClient} `{Env : Environment} (deps : PaidLiveOpenDeps).

(** A freshly created session: its row under the returned claim, and its secrets. *)
Record created (d : db) (o : OwnedPaidSession) (v : NewPaidOperation) (s : PaidOperationSecrets) (r : Row) (l : Z)
    : Prop := {
  cr_row : db_paid_operations d !! op_id (ow_operation o) = Some r;
  cr_id : row_id r = op_id (ow_operation o);
  cr_operation : rowToOperation r = ow_operation o;
  cr_value : exists now, ow_operation o = inserted_operation now v (Some (cl_owner (ow_claim o))) (Some l);
  cr_version : cl_version (ow_claim o) = "1" /\ row_lifecycle_version r = 1;
  cr_owner : row_recovery_owner r = Some (cl_owner (ow_claim o));
  cr_lease : cl_leaseExpiresAt (ow_claim o) = DateMs l /\ row_recovery_lease_expires_at r = Some l;
  cr_check : row_check r = true;
  cr_valid : validateClaim (ow_claim o) = Ok tt;
  cr_secrets : exists enc, db_secrets d !! row_id r = Some enc /\ decrypt (row_id r) enc = Ok s
}.

Lemma owned_inv op owner o :
  owned op owner = Ok o ->
  ow_operation o = op /\ exists l, op_recoveryLeaseExpiresAt op = Some l /\
    ow_claim o = mkClaim owner (op_lifecycleVersion op) (DateMs l).
Proof.
  unfold owned, claimFor. intros H. apply result_bind_Ok in H as (c & H & [= <-]).
  apply result_bind_Ok in H as ([] & _ & H). destruct (op_recoveryLeaseExpiresAt op) as [l|]; [|done].
  injection H as <-. eauto.
Qed.

Lemma inserted_session rnd v s owner l d op d' o :
  insertWithSecrets rnd v s owner (DateMs l) d = Ok (op, d') -> owned op owner = Ok o ->
  exists r, created d' o v s r l.
Proof.
  intros H Ho. unfold insertWithSecrets in H. apply result_bind_Ok in H as ([] & Hv & H).
  apply result_bind_Ok in H as (r & Hr & H). apply result_bind_Ok in H as (d1 & Hi & H).
  pose proof (insertStatement_operation _ _ _ _ Hr) as Hop. cbn in Hop.
  apply insertStatement_fields in Hr as (Hid & Ht & _ & Hver & Hown). apply insert_row_inv in Hi as [_ Hst].
  injection H as <- <-. apply owned_inv in Ho as (Heq & l' & Hl & Hc).
  rewrite Hop in Hl, Hc. injection Hl as <-. cbn [op_lifecycleVersion inserted_operation] in Hc.
  exists r. constructor; rewrite ?Hc, ?Heq; try done.
  - exact (stored_lookup _ _ _ Hst).
  - eauto.
  - by injection Hop.
  - by apply store_row_inv in Hst as [? _].
  - exists (encrypt rnd (new_id v) s). rewrite Hid. cbn. rewrite lookup_insert_eq, decrypt_encrypt. done.
Qed.

Lemma leaseAfter_valid options now rnd v s d op d' :
  insertWithSecrets rnd v s (so_owner options) (leaseAfter options now) d = Ok (op, d') ->
  exists l, leaseAfter options now = DateMs l.
Proof.
  unfold insertWithSecrets. intros H. apply result_bind_Ok in H as ([] & Hv & _).
  by apply validateClaim_inv in Hv.
Qed.

Lemma create_session options v s w o w1 :
  store_create options v s w = (Ok o, w1) -> exists r l, created (w_db w1) o v s r l.
Proof.
  unfold store_create, mbind_, now_, mlift, query, exec. cbn [w_tick].
  destruct (refuse_if _ _); [|done].
  destruct (insertWithSecrets _ _ _ _ _ _) as [[op d']|e] eqn:H; [|done].
  destruct (owned op (so_owner options)) as [o1|] eqn:Ho; [|done]. intros [= <- <-]. cbn.
  destruct (leaseAfter_valid _ _ _ _ _ _ _ _ H) as [l Hl]. rewrite Hl in H.
  destruct (inserted_session _ _ _ _ _ _ _ _ _ H Ho) as [r Hr]. eauto.
Qed.

(** Its lease can be given back. *)
Lemma release_created d d0 o v s r l :
  db_wf d -> created d0 o v s r l -> db_paid_operations d !! op_id (ow_operation o) = Some r ->
  releaseClaim (op_id (ow_operation o)) (ow_claim o) d =
    Ok (true, d <| db_paid_operations := <[row_id r := clear_owner (bump (db_now d) r)]> (db_paid_operations d) |>).
Proof.
  intros Hwf [_ Hid Hop Hv [Hcv Hrv] Ho [Hcl Hl] Hck Hval Hsec] Hr. unfold releaseClaim. rewrite Hval.
  cbn [result_bind].
  assert (row_check (clear_owner (bump (db_now d) r)) = true) as Hck'.
  { unfold row_check in Hck |- *. rewrite !andb_true_iff in Hck |- *. decompose [and] Hck.
    change (row_operation_kind (clear_owner _)) with (row_operation_kind r).
    split_and!; first [assumption|reflexivity|apply Z.leb_le; cbn; rewrite Hrv; vm_compute; discriminate]. }
  rewrite (matched_update d _ _ r l); try done.
  - by rewrite Hcv, Hrv.
  - unfold row_unique. apply bool_decide_eq_true. intros k r' Hr'.
    destruct (decide (k = row_id r)) as [->|Hne]; [by left|right].
    change (rows_conflict (clear_owner (bump (db_now d) r)) r') with (rows_conflict r r').
    rewrite Hid in Hne. by eapply (wf_unique _ Hwf (op_id (ow_operation o)) k).
Qed.

Lemma prepared_session input w p w1 :
  prepare_open deps input w = (Ok p, w1) ->
  exists id digest snapshot r l, paidRoute (li_route input) = Ok snapshot /\
    created (w_db w1) (pp_owned p) (new_session deps input id (pp_requestId p) digest snapshot)
      (opening_secrets input (pp_requestId p) (pp_keyRequestId p) (pp_streamKey p) (intent_of deps p)) r l.
Proof.
  unfold prepare_open. unfold mbind_ at 1, mlift at 1. destruct (validateRoute _); [|done].
  unfold mbind_ at 1, fresh_hex at 1. unfold mbind_ at 1, newRequestId at 1, mbind_ at 1, fresh_hex at 1, mret_ at 1.
  unfold mbind_ at 1, newRequestId at 1, mbind_ at 1, fresh_hex at 1, mret_ at 1.
  unfold mbind_ at 1. destruct (query _ _) as [[x|e] w2]; [|done].
  unfold mbind_ at 1, fresh_uuid at 1. unfold mbind_ at 1, mlift at 1.
  destruct (paidRoute (li_route input)) as [snapshot|] eqn:Hs; [|done].
  unfold mbind_ at 1. destruct (store_create _ _ _ _) as [[o|e] w3] eqn:Hc; [|done].
  intros [= <- <-]. cbn [pp_owned pp_requestId pp_keyRequestId pp_streamKey].
  apply create_session in Hc as (r & l & Hcr). eauto 10.
Qed.

(** An operation left for a recovery sweep: open, unleased, due at once, for the stream and
    the route it was opened with. *)
Definition left_to_recovery (d : db) (id stream_ : string) (route : SelectedWorkerRoute) : Prop :=
  exists r, db_paid_operations d !! id = Some r /\ lease_of r = Free /\
    recoverable session (db_now d) ∅ r = true /\
    row_status r = "opening" /\ row_live_stream_id r = Some stream_ /\ paidRoute route = Ok (routeFromRow r).

(** A created session whose row nobody touched can be given back, and is then left. *)
Lemma release_leaves_created d d1 o input id digest snapshot s r l requestId :
  created d1 o (new_session deps input id requestId digest snapshot) s r l -> paidRoute (li_route input) = Ok snapshot ->
  db_wf d -> db_paid_operations d !! op_id (ow_operation o) = Some r ->
  exists d', releaseClaim (op_id (ow_operation o)) (ow_claim o) d = Ok (true, d') /\
    left_to_recovery d' (op_id (ow_operation o)) (li_streamId input) (li_route input) /\ db_secrets d' = db_secrets d.
Proof.
  intros Hcr Hroute Hwf Hr. eexists. split; [by eapply release_created|]. cbn -[recoverable lease_of routeFromRow left_to_recovery].
  split; [|done]. destruct (cr_value _ _ _ _ _ _ Hcr) as [now Hop]. pose proof (cr_operation _ _ _ _ _ _ Hcr) as Hro.
  rewrite Hop in Hro. rewrite (cr_id _ _ _ _ _ _ Hcr).
  exists (clear_owner (bump (db_now d) r)). cbn -[recoverable lease_of routeFromRow]. split; [apply lookup_insert_eq|].
  unfold recoverable, not_terminal, lease_of. cbn -[routeFromRow].
  assert (row_terminal_at r = None /\ row_operation_kind r = session /\ row_next_retry_at r = None /\
    row_status r = "opening" /\ row_live_stream_id r = Some (li_streamId input) /\ routeFromRow r = snapshot)
    as (-> & -> & -> & -> & -> & Hsnap) by (by injection Hro).
  split_and!; try done. rewrite Hroute. by rewrite <- Hsnap.
Qed.

(** C8: an open that the broker or LOC refuses is not lost.  When the client's [open]
    throws, [openPaidLiveStream] throws the same error, and the operation stays in the
    tables.  If nobody else has changed its row by the time the lease is given back, it is
    left to recovery: still "opening", for the stream and the route of the request,
    unleased and due at once for a sweep, and with the secrets as they are then, which,
    unless others replaced them, are those the open is resumed from.  If the lease ran out
    during the call and another instance took the operation, or anyone else changed it,
    it stays exactly as they left it, at a later version. *)
Theorem refused_open_is_left_to_recovery input w p w1 e n' :
  let id := op_id (ow_operation (pp_owned p)) in
  let d := others (S (w_tick w1)) (w_db w1) in
  db_wf (w_db w) -> prepare_open deps input w = (Ok p, w1) ->
  ps_open (session_request deps (pp_requestId p) (li_route input)) (w_net w1) = (Err e, n') ->
  exists w', openPaidLiveStream deps input w = (Err e, w') /\
    (db_paid_operations d !! id = db_paid_operations (w_db w1) !! id ->
       left_to_recovery (w_db w') id (li_streamId input) (li_route input) /\ db_secrets (w_db w') = db_secrets d /\
       (db_secrets d !! id = db_secrets (w_db w1) !! id ->
        exists enc, db_secrets (w_db w') !! id = Some enc /\
          decrypt id enc = Ok (opening_secrets input (pp_requestId p) (pp_keyRequestId p) (pp_streamKey p) (intent_of deps p)))) /\
    (db_paid_operations d !! id <> db_paid_operations (w_db w1) !! id ->
       w_db w' = d /\ exists r, db_paid_operations d !! id = Some r /\ 1 < row_lifecycle_version r).
Proof.
  intros id d Hwf Hp Hcall.
  destruct (prepared_session _ _ _ _ Hp) as (id0 & digest & snapshot & r & l & Hroute & Hcr).
  assert (db_wf (w_db w1)) as Hwf1 by (eapply acts_safe; eauto using prepare_open_acts).
  assert (Hsteps : rtc repo_step (w_db w1) d) by apply others_steps.
  assert (Hwfd : db_wf d) by (eapply (row_steps_wf (w_db w1)); [by apply repo_steps_rows|done]).
  destruct (row_steps_lookup (w_db w1) d id r) as (k & r' & Hr' & Hev); [done|by apply repo_steps_rows|apply (cr_row _ _ _ _ _ _ Hcr)|].
  pose proof (cr_row _ _ _ _ _ _ Hcr) as Hr. fold id in Hr. destruct (cr_version _ _ _ _ _ _ Hcr) as [Hcv Hv].
  unfold openPaidLiveStream. unfold mbind_ at 1. rewrite Hp.
  unfold mfinally, open_body, release_latest. unfold mbind_ at 1, in_world at 1, call at 1. cbn [fst].
  unfold session_request in Hcall. rewrite Hcall. cbn [snd].
  unfold mbind_ at 1, get_owned, mget. cbn [snd]. unfold mbind_ at 1, in_world, store_release, query, exec.
  cbn [fst w_db w_tick update_field]. fold d id.
  destruct k as [|k].
  - inversion Hev; subst r'. destruct (release_leaves_created d _ _ _ _ _ _ _ _ _ _ Hcr Hroute Hwfd Hr') as (d' & Hrel & Hleft & Hsec). fold id in Hrel.
    rewrite Hrel. eexists. split; [done|]. cbn [w_db update_field]. split; [|by rewrite Hr, Hr'].
    intros _. split_and!; [done|done|]. intros Hs. destruct (cr_secrets _ _ _ _ _ _ Hcr) as (enc & Henc & Hdec).
    rewrite (cr_id _ _ _ _ _ _ Hcr) in Henc, Hdec. exists enc. rewrite Hsec, Hs. done.
  - pose proof (evolved_version _ _ _ Hev) as Hver.
    assert (Hrel : releaseClaim id (ow_claim (pp_owned p)) d = Ok (false, d)).
    { unfold releaseClaim. rewrite (cr_valid _ _ _ _ _ _ Hcr). cbn [result_bind].
      rewrite (stale_update id _ _ _ d r' 1 Hr'); [done|by rewrite Hcv|lia]. }
    rewrite Hrel. eexists. split; [done|]. cbn [w_db update_field]. split; [rewrite Hr, Hr'; intros [= ->]; lia|].
    intros _. split; [done|]. exists r'. split; [done|lia].
Qed.
End failed.

(** ** Witnesses *)

Definition open_deps : PaidLiveOpenDeps := mkOpenDeps sample_options "rtmp://gateway" 10 100.
Definition open_input : PaidLiveOpenInput := mkLiveOpenInput "stream-2" "key" "show" sample_worker_route.
(** A broker that is down. *)
Definition down_client : PaidSessionClient :=
  createPaidSessionClient (Net := fun _ _ => Ok (mkHttpResponse 503 [] None "")).

Lemma sample_route_savable : savable sample_worker_route sample_axes sample_domain.
Proof. constructor; try reflexivity; [by repeat constructor|discriminate]. Qed.

Lemma resumed_open_repeats_the_request_witness :
  exists e snapshot n', paidRoute sample_worker_route = Ok snapshot /\
    resumeOpeningSession (Client := down_client) sample_deps
      (mkOwned (inserted_operation 0 (new_session open_deps open_input "op" "req_1" sha_a snapshot) (Some "alice") (Some 100))
         (alice "1"))
      (opening_secrets open_input "req_1" "req_2" "live_1" (openIntent "req_1" "req_2" 10 100)) (live_world empty_db)
    = (Err e, (live_world empty_db) <| w_net := n' |> <| w_tick := 1%nat |>).
Proof.
  destruct (paidRoute sample_worker_route) as [snapshot|] eqn:Hr; [|exfalso; vm_compute in Hr; discriminate Hr].
  destruct (ps_open (PaidSessionClient := down_client)
    (session_request open_deps "req_1" (session_route sample_worker_route)) net0) as [[x|e] n'] eqn:Hc.
  { exfalso. vm_compute in Hc. discriminate Hc. }
  exists e, snapshot, n'. split; [reflexivity|].
  apply (resumed_open_repeats_the_request (Client := down_client) open_deps sample_deps open_input "req_1" "req_2"
    "live_1" sample_axes sample_domain snapshot
    (mkOwned (inserted_operation 0 (new_session open_deps open_input "op" "req_1" sha_a snapshot) (Some "alice") (Some 100))
       (alice "1")) (live_world empty_db) e n'); try reflexivity.
  - apply sample_route_savable.
  - exact Hr.
  - exact Hc.
Defined.

Lemma refused_open_is_left_to_recovery_witness :
  exists e w' id r, openPaidLiveStream (Client := down_client) open_deps open_input (live_world empty_db) = (Err e, w') /\
    db_paid_operations (w_db w') !! id = Some r /\ row_status r = "opening".
Proof.
  destruct (prepare_open open_deps open_input (live_world empty_db)) as [[p|e] w1] eqn:Hp;
    [|exfalso; vm_compute in Hp; discriminate Hp].
  destruct (ps_open (PaidSessionClient := down_client)
    (session_request open_deps (pp_requestId p) sample_worker_route) (w_net w1)) as [[x|e] n'] eqn:Hc.
  { exfalso. vm_compute in Hp. injection Hp as <- <-. vm_compute in Hc. discriminate Hc. }
  destruct (refused_open_is_left_to_recovery (Client := down_client) (Env := sample_env) open_deps open_input
    (live_world empty_db) p w1 e n' (fresh_wf empty_db eq_refl eq_refl) Hp Hc) as (w' & H1 & H2 & _).
  destruct (H2 eq_refl) as ((r & H3 & _ & _ & H4 & _) & _). exists e, w', (op_id (ow_operation (pp_owned p))), r. split_and!; [exact H1|exact H3|exact H4].
Defined.
