(* ===== verification/VodUsage.v ===== *)
(** * Usage of adaptive-bitrate jobs (engine/service/vodUsage.ts)

    A job is charged for the megapixels of the frames it delivers, summed over its
    renditions and rounded up once.  The gateway funds an upper bound before the job
    and checks the signed units against the delivered frames after it. *)

From S2P Require Import Prelude Js Types.
Open Scope Z_scope.

Definition ABR_WORK_UNIT : string := "video-frame-megapixel".
Definition ABR_ESTIMATOR_ID : string := "abr-output-frame-megapixels/v1".
Definition ABR_ESTIMATOR_ROUNDING : string := "ceil-total".
Definition ABR_ESTIMATOR_EXACTNESS : string := "ceiling".
Definition FUNDING_FRAME_SLACK_SECONDS : Z := 2.

Inductive Resolution : Type := p240 | p360 | p480 | p720 | p1080 | p2160.
#[export] Instance Resolution_eq_dec : EqDecision Resolution.
Proof. solve_decision. Defined.
Definition resolution_name (r : Resolution) : string :=
  match r with
  | p240 => "240p" | p360 => "360p" | p480 => "480p" | p720 => "720p" | p1080 => "1080p" | p2160 => "2160p"
  end.

Definition DIMENSIONS (r : Resolution) : Z * Z :=
  match r with
  | p240 => (426, 240)
  | p360 => (640, 360)
  | p480 => (854, 480)
  | p720 => (1280, 720)
  | p1080 => (1920, 1080)
  | p2160 => (3840, 2160)
  end.

Record AbrFundingTarget := mkTarget {
  ft_resolution : Resolution;
  ft_frameRate : option jsnum
}.
Record AbrFundingEstimate := mkEstimate {
  fe_estimatedUnits : Z;
  fe_maxTotalUnits : Z;
  fe_estimatedFramesByTarget : list Z;
  fe_maximumFramesByTarget : list Z
}.
Record AbrDeliveredVideo := mkVideo {
  dv_actualFrames : jsnum;
  dv_width : jsnum;
  dv_height : jsnum
}.
Record AbrDeliveredRendition := mkDelivered {
  dr_name : string;
  dr_video : option AbrDeliveredVideo
}.
Record AbrUsageReconciliation := mkReconciliation {
  ur_observedUnits : Z;
  ur_signedUnits : Z;
  ur_maximumUnits : Z;
  ur_deltaUnits : Z
}.

Definition requireEstimator (estimator : option WorkUnitEstimator) : result exn unit :=
  match estimator with
  | Some e => refuse_if ((est_id e !=? ABR_ESTIMATOR_ID) || (est_rounding e !=? ABR_ESTIMATOR_ROUNDING) ||
                         (est_exactness e !=? ABR_ESTIMATOR_EXACTNESS)) (AbrUsageError "abr_estimator_unsupported")
  | None => Err (AbrUsageError "abr_estimator_unsupported")
  end.

Definition finitePositive (value : jsnum) : bool := isFinite value && num_pos value.

(** ** calculateAbrFrameMegapixelUnits *)

(** A count the code has checked, as a BigInt. *)
Definition count (n : jsnum) : option Z :=
  match n with NInt z => if safe_integer z && (1 <=? z) then Some z else None | _ => None end.

Definition video_pixels (v : AbrDeliveredVideo) : result exn Z :=
  match count (dv_actualFrames v), count (dv_width v), count (dv_height v) with
  | Some f, Some w, Some h => Ok (f * w * h)
  | _, _, _ => Err (AbrUsageError "abr_usage_input_invalid")
  end.

Fixpoint total_pixels (pixels : Z) (renditions : list AbrDeliveredRendition) : result exn Z :=
  match renditions with
  | [] => Ok pixels
  | r :: rs =>
      match dr_video r with
      | None => total_pixels pixels rs
      | Some v => let? p := video_pixels v in total_pixels (pixels + p) rs
      end
  end.

Definition calculateAbrFrameMegapixelUnits (renditions : list AbrDeliveredRendition) : result exn Z :=
  let? pixels := total_pixels 0 renditions in
  let units := (pixels + 999999) / 1000000 in
  throw_if MAX_SAFE_INTEGER <? units with AbrUsageError "abr_usage_input_invalid" ;;
  Ok units.

(** ** estimateAbrFunding *)

(** The frames of one target: estimated, and with two seconds of slack. *)
Definition target_frames (durationSeconds sourceFrameRate : jsnum) (target : AbrFundingTarget) : result exn (Z * Z) :=
  let invalid := AbrUsageError "abr_funding_input_invalid" in
  let frameRate := ft_frameRate target ?? sourceFrameRate in
  throw_if negb (finitePositive frameRate) with invalid ;;
  let estimatedFrames := num_ceil (num_mul durationSeconds frameRate) in
  let maximumFrames := num_plus estimatedFrames (num_ceil (num_mul frameRate (NInt FUNDING_FRAME_SLACK_SECONDS))) in
  match estimatedFrames, maximumFrames with
  | NInt e, NInt m => if safe_integer e && safe_integer m then Ok (e, m) else Err invalid
  | _, _ => Err invalid
  end.

Fixpoint frames_by_target (durationSeconds sourceFrameRate : jsnum) (targets : list AbrFundingTarget)
    : result exn (list (AbrFundingTarget * (Z * Z))) :=
  match targets with
  | [] => Ok []
  | t :: ts =>
      let? f := target_frames durationSeconds sourceFrameRate t in
      let? fs := frames_by_target durationSeconds sourceFrameRate ts in
      Ok ((t, f) :: fs)
  end.

(** A rendition of a target with a number of frames, as the estimate lists it. *)
Definition target_rendition (name : string) (index : nat) (t : AbrFundingTarget) (frames : Z) : AbrDeliveredRendition :=
  let '(w, h) := DIMENSIONS (ft_resolution t) in
  mkDelivered (name +:+ string_of_Z (Z.of_nat index)) (Some (mkVideo (NInt frames) (NInt w) (NInt h))).

Definition estimateAbrFunding (durationSeconds sourceFrameRate : jsnum) (targets : list AbrFundingTarget)
    (estimator : option WorkUnitEstimator) : result exn AbrFundingEstimate :=
  let? _ := requireEstimator estimator in
  throw_if negb (finitePositive durationSeconds) || negb (finitePositive sourceFrameRate) ||
           bool_decide (targets = []) with AbrUsageError "abr_funding_input_invalid" ;;
  let? frames := frames_by_target durationSeconds sourceFrameRate targets in
  let? estimated := calculateAbrFrameMegapixelUnits
    (imap (fun i x => target_rendition "estimate-" i (fst x) (fst (snd x))) frames) in
  let? maximum := calculateAbrFrameMegapixelUnits
    (imap (fun i x => target_rendition "maximum-" i (fst x) (snd (snd x))) frames) in
  Ok (mkEstimate estimated maximum ((fun x => fst (snd x)) <$> frames) ((fun x => snd (snd x)) <$> frames)).

(** ** reconcileAbrUsage *)

Definition reconcileAbrUsage (renditions : list AbrDeliveredRendition) (signedUnit : string)
    (signedUnits maximumUnits : Z) : result exn AbrUsageReconciliation :=
  throw_if (signedUnit !=? ABR_WORK_UNIT) || negb (safe_integer signedUnits) || (signedUnits <? 0) ||
           negb (safe_integer maximumUnits) || (maximumUnits <? 1) with AbrUsageError "abr_usage_input_invalid" ;;
  let? observedUnits := calculateAbrFrameMegapixelUnits renditions in
  let result := mkReconciliation observedUnits signedUnits maximumUnits (signedUnits - observedUnits) in
  throw_if maximumUnits <? signedUnits with AbrUsageError "abr_usage_exceeds_funding" ;;
  throw_if negb (ur_deltaUnits result =? 0) with AbrUsageError "abr_usage_claim_mismatch" ;;
  Ok result.

(** ** Pixels *)

(** The specification: the sum over the renditions that carry video. *)
Definition pixels_of (r : AbrDeliveredRendition) : Z :=
  match dr_video r with
  | Some v => match dv_actualFrames v, dv_width v, dv_height v with
              | NInt f, NInt w, NInt h => f * w * h
              | _, _, _ => 0
              end
  | None => 0
  end.
Definition sum_pixels (rs : list AbrDeliveredRendition) : Z := foldr (fun r acc => pixels_of r + acc) 0 rs.

Lemma count_Some n z : count n = Some z <-> n = NInt z /\ 1 <= z <= MAX_SAFE_INTEGER.
Proof.
  unfold count, safe_integer, MAX_SAFE_INTEGER. destruct n as [x| | |]; try (by split; [|intros [? _]]).
  split.
  - case_match; [|done]. intros [= <-]. bools. split; [done|lia].
  - intros [[= ->] ?]. rewrite (proj2 (Z.leb_le _ _)), (proj2 (Z.leb_le 1 _)) by lia. done.
Qed.

Lemma video_pixels_Ok v p r : video_pixels v = Ok p -> dr_video r = Some v -> pixels_of r = p /\ 1 <= p.
Proof.
  unfold video_pixels, pixels_of. intros H ->.
  destruct (count (dv_actualFrames v)) as [f|] eqn:Ef; [|done]. destruct (count (dv_width v)) as [w|] eqn:Ew; [|done].
  destruct (count (dv_height v)) as [h|] eqn:Eh; [|done]. injection H as <-.
  apply count_Some in Ef as [-> Hf], Ew as [-> Hw], Eh as [-> Hh]. split; [done|nia].
Qed.

Lemma total_pixels_Ok rs a p : total_pixels a rs = Ok p -> p = a + sum_pixels rs /\ 0 <= sum_pixels rs.
Proof.
  revert a. induction rs as [|r rs IH]; intros a; cbn [total_pixels sum_pixels foldr].
  { intros [= ->]. lia. }
  fold (sum_pixels rs). destruct (dr_video r) as [v|] eqn:E.
  - rewrite result_bind_Ok. intros (q & Hq & H). destruct (video_pixels_Ok _ _ _ Hq E) as [-> ?].
    apply IH in H. lia.
  - intros H. apply IH in H. unfold pixels_of. rewrite E. lia.
Qed.

(** The units are the delivered megapixels, rounded up once. *)
Lemma units_ceiling rs u :
  calculateAbrFrameMegapixelUnits rs = Ok u ->
  1000000 * (u - 1) < sum_pixels rs <= 1000000 * u /\ 0 <= u <= MAX_SAFE_INTEGER.
Proof.
  unfold calculateAbrFrameMegapixelUnits. rewrite result_bind_Ok. intros (p & Hp & H).
  apply result_bind_Ok in H as ([] & Hm & [= <-]). apply refuse_if_Ok in Hm. apply total_pixels_Ok in Hp as [-> Hp].
  rewrite Z.add_0_l in *. bools. pose proof (Z.div_mod (sum_pixels rs + 999999) 1000000 ltac:(lia)) as Hd.
  pose proof (Z.mod_pos_bound (sum_pixels rs + 999999) 1000000 ltac:(lia)) as Hb.
  pose proof (Z.div_pos (sum_pixels rs + 999999) 1000000 ltac:(lia) ltac:(lia)). lia.
Qed.

Lemma units_of_pixels rs u :
  (forall r v, r ∈ rs -> dr_video r = Some v -> exists p, video_pixels v = Ok p) ->
  1000000 * (u - 1) < sum_pixels rs <= 1000000 * u -> u <= MAX_SAFE_INTEGER ->
  calculateAbrFrameMegapixelUnits rs = Ok u.
Proof.
  intros Hv Hu Hm. assert (exists p, forall a, total_pixels a rs = Ok (a + p)) as [p Hp].
  { clear -Hv. induction rs as [|r rs IH]; [exists 0; intros; cbn; f_equal; lia|].
    destruct IH as [p Hp]; [intros; eapply Hv; eauto; by apply list_elem_of_further|]. cbn.
    destruct (dr_video r) as [v|] eqn:E; [|by exists p].
    destruct (Hv r v (list_elem_of_here _ _) E) as [q Hq]. exists (q + p). intros a.
    rewrite Hq. cbn. rewrite Hp. f_equal. lia. }
  unfold calculateAbrFrameMegapixelUnits. rewrite Hp. pose proof (total_pixels_Ok _ _ _ (Hp 0)) as [Hs _].
  cbn [result_bind]. replace ((0 + p + 999999) / 1000000) with u.
  - cbv zeta. by rewrite (proj2 (Z.ltb_ge _ _)) by lia.
  - apply (Z.div_unique_pos _ _ _ (0 + p + 999999 - 1000000 * u)); lia.
Qed.

(** Delivered work within the funded frames of its target. *)
Definition within (r : AbrDeliveredRendition) (t : AbrFundingTarget) (maximum : Z) : Prop :=
  forall v, dr_video r = Some v ->
    exists f, dv_actualFrames v = NInt f /\ 1 <= f <= maximum /\
      dv_width v = NInt (fst (DIMENSIONS (ft_resolution t))) /\
      dv_height v = NInt (snd (DIMENSIONS (ft_resolution t))).

Lemma dimensions_pos r : 1 <= fst (DIMENSIONS r) /\ 1 <= snd (DIMENSIONS r).
Proof. destruct r; cbn [DIMENSIONS fst snd]; lia. Qed.

Lemma within_pixels r t m name i : 0 <= m -> within r t m -> pixels_of r <= pixels_of (target_rendition name i t m).
Proof.
  intros Hm Hw. unfold target_rendition, pixels_of. pose proof (dimensions_pos (ft_resolution t)) as Hd.
  destruct (DIMENSIONS (ft_resolution t)) as [w h] eqn:E. cbn [dr_video fst snd] in *.
  destruct (dr_video r) as [v|] eqn:Ev.
  2: { apply Z.mul_nonneg_nonneg; [apply Z.mul_nonneg_nonneg|]; lia. }
  destruct (Hw v Ev) as (f & Hf & Hr & Hx & Hy). rewrite E in Hx, Hy. rewrite Hf, Hx, Hy. cbn [fst snd].
  apply Z.mul_le_mono_nonneg_r; [lia|]. apply Z.mul_le_mono_nonneg_r; lia.
Qed.

Lemma frames_by_target_spec d s ts fs :
  frames_by_target d s ts = Ok fs -> fst <$> fs = ts /\ Forall (fun x => target_frames d s (fst x) = Ok (snd x)) fs.
Proof.
  revert fs. induction ts as [|t ts IH]; intros fs; cbn; [by intros [= <-]|].
  rewrite result_bind_Ok. intros (f & Hf & H). apply result_bind_Ok in H as (gs & Hg & [= <-]).
  destruct (IH _ Hg) as [H1 H2]. cbn. split; [by rewrite H1|by constructor].
Qed.

Lemma sum_pixels_imap_le {A} (f g : nat -> A -> AbrDeliveredRendition) (l : list A) :
  (forall i x, l !! i = Some x -> pixels_of (f i x) <= pixels_of (g i x)) ->
  sum_pixels (imap f l) <= sum_pixels (imap g l).
Proof.
  revert f g. induction l as [|x l IH]; intros f g H; cbn; [lia|].
  pose proof (H 0%nat x eq_refl). pose proof (IH (f ∘ S) (g ∘ S) (fun i => H (S i))). unfold sum_pixels in *. lia.
Qed.

Lemma target_frames_le d s t e m : target_frames d s t = Ok (e, m) -> 0 <= e -> e <= m.
Proof.
  unfold target_frames. rewrite result_bind_Ok. intros ([] & Hp & H) He. apply refuse_if_Ok in Hp.
  unfold finitePositive in Hp. apply negb_false_iff, andb_true_iff in Hp as [Hf Hpos].
  set (rate := ft_frameRate t ?? s) in *.
  destruct (num_ceil (num_mul d rate)) as [e'| | |]; try done.
  destruct (num_plus (NInt e') _) as [m'| | |] eqn:Hm; try done.
  destruct (_ && _) eqn:Hs; [|done]. injection H as <- <-. unfold safe_integer in Hs. bools.
  destruct (num_ceil (num_mul rate _)) as [c|? ?|b|] eqn:Hc; [|by destruct (num_mul _ _)| |done].
  - apply (num_plus_ge e' c); [lia| |done].
    eapply num_ceil_nonneg; [|done]. by apply num_mul_nonneg.
  - done.
Qed.

Lemma total_pixels_valid rs a p r v :
  total_pixels a rs = Ok p -> r ∈ rs -> dr_video r = Some v -> exists q, video_pixels v = Ok q.
Proof.
  revert a. induction rs as [|x rs IH]; intros a; [by intros _ ?%elem_of_nil|]. cbn.
  intros H [->|Hr]%elem_of_cons Hv.
  - rewrite Hv in H. apply result_bind_Ok in H as (q & Hq & _). eauto.
  - destruct (dr_video x); [apply result_bind_Ok in H as (q & _ & H)|]; eauto.
Qed.

Lemma units_valid rs u r v :
  calculateAbrFrameMegapixelUnits rs = Ok u -> r ∈ rs -> dr_video r = Some v -> exists q, video_pixels v = Ok q.
Proof.
  unfold calculateAbrFrameMegapixelUnits. rewrite result_bind_Ok. intros (p & Hp & _).
  by eapply total_pixels_valid.
Qed.

(** ** Funding *)

(** The pixels a slot (a target with its funded frames) pays for. *)
Definition slot_pixels (x : AbrFundingTarget * Z) : Z :=
  snd x * fst (DIMENSIONS (ft_resolution (fst x))) * snd (DIMENSIONS (ft_resolution (fst x))).
Definition sum_slots (l : list (AbrFundingTarget * Z)) : Z := foldr (fun x acc => slot_pixels x + acc) 0 l.

Lemma sum_slots_app l k : sum_slots (l ++ k) = sum_slots l + sum_slots k.
Proof. induction l as [|x l IH]; cbn; [done|]. unfold sum_slots in *. lia. Qed.
Lemma slot_pixels_nonneg x : 0 <= snd x -> 0 <= slot_pixels x.
Proof.
  intros Hx. pose proof (dimensions_pos (ft_resolution (fst x))). unfold slot_pixels.
  apply Z.mul_nonneg_nonneg; [apply Z.mul_nonneg_nonneg|]; lia.
Qed.
Lemma sum_slots_nonneg l : Forall (fun x => 0 <= snd x) l -> 0 <= sum_slots l.
Proof.
  induction 1 as [|x l Hx H IH]; cbn; [lia|]. pose proof (slot_pixels_nonneg x Hx). unfold sum_slots in IH. lia.
Qed.
Lemma sum_slots_submseteq l k : Forall (fun x => 0 <= snd x) k -> l ⊆+ k -> sum_slots l <= sum_slots k.
Proof.
  intros Hk [j Hj]%submseteq_Permutation. rewrite Hj in Hk. apply Forall_app in Hk as [_ Hk].
  assert (sum_slots k = sum_slots (l ++ j)) as ->.
  { unfold sum_slots. apply (foldr_permutation (=) _ 0); [|done]. intros. lia. }
  rewrite sum_slots_app. apply sum_slots_nonneg in Hk. lia.
Qed.

Definition has_video (r : AbrDeliveredRendition) : Prop := dr_video r <> None.
#[export] Instance has_video_dec r : Decision (has_video r).
Proof. unfold has_video. destruct (dr_video r); [left|right]; congruence. Defined.

(** Delivered work that fits some of the slots has no more pixels than they pay for. *)
Lemma delivered_pixels delivered slots :
  Forall2 (fun r x => within r (fst x) (snd x)) (filter has_video delivered) slots ->
  sum_pixels delivered <= sum_slots slots.
Proof.
  revert slots. induction delivered as [|r rs IH]; intros slots; cbn [sum_pixels foldr].
  { rewrite filter_nil. intros H. inversion H. done. }
  fold (sum_pixels rs). rewrite filter_cons. destruct (decide (has_video r)) as [Hr|Hr].
  - intros (x & slots' & Hw & Hall & ->)%Forall2_cons_inv_l. apply IH in Hall. cbn [sum_slots foldr].
    fold (sum_slots slots'). assert (pixels_of r <= slot_pixels x); [|lia].
    destruct (dr_video r) as [v|] eqn:Ev; [|by destruct Hr]. destruct (Hw v Ev) as (f & Hf & Hm & Hx & Hy).
    unfold pixels_of, slot_pixels. rewrite Ev, Hf, Hx, Hy. pose proof (dimensions_pos (ft_resolution (fst x))).
    apply Z.mul_le_mono_nonneg_r; [lia|]. apply Z.mul_le_mono_nonneg_r; lia.
  - intros H. apply IH in H. unfold pixels_of. destruct (dr_video r) as [v|] eqn:Ev; [|lia].
    exfalso. apply Hr. unfold has_video. congruence.
Qed.

Lemma delivered_valid delivered slots r v :
  Forall2 (fun r x => within r (fst x) (snd x)) (filter has_video delivered) slots ->
  Forall (fun x => snd x <= MAX_SAFE_INTEGER) slots -> r ∈ delivered -> dr_video r = Some v ->
  exists p, video_pixels v = Ok p.
Proof.
  intros Hall Hslots Hr Hv.
  assert (r ∈ filter has_video delivered) as Hin by (apply list_elem_of_filter; unfold has_video; split; congruence).
  apply list_elem_of_lookup in Hin as [i Hi]. destruct (Forall2_lookup_l _ _ _ _ _ Hall Hi) as (x & Hx & Hw).
  apply (Forall_lookup_1 _ _ _ _ Hslots) in Hx. destruct (Hw v Hv) as (f & Hf & Hm & Hx1 & Hy1).
  assert (forall d, count (NInt (fst (DIMENSIONS d))) = Some (fst (DIMENSIONS d)) /\
                    count (NInt (snd (DIMENSIONS d))) = Some (snd (DIMENSIONS d))) as Hdim by (by intros []).
  unfold video_pixels. rewrite Hf, Hx1, Hy1, (proj1 (Hdim _)), (proj2 (Hdim _)).
  rewrite (proj2 (count_Some (NInt f) f)) by (split; [done|lia]). eauto.
Qed.

Lemma target_rendition_pixels name i t m : pixels_of (target_rendition name i t m) = slot_pixels (t, m).
Proof. unfold target_rendition, pixels_of, slot_pixels. cbn [fst snd]. by destruct (DIMENSIONS _). Qed.

Lemma sum_target_renditions {A} (f : nat -> A -> AbrDeliveredRendition) (slot : A -> AbrFundingTarget * Z) l :
  (forall i x, pixels_of (f i x) = slot_pixels (slot x)) -> sum_pixels (imap f l) = sum_slots (slot <$> l).
Proof.
  revert f. induction l as [|x l IH]; intros f H; cbn; [done|].
  specialize (IH (f ∘ S) (fun i => H (S i))). unfold sum_pixels, sum_slots in *. rewrite IH, H. lia.
Qed.

(** The frames of the slots are counts, or the estimate throws. *)
Lemma funded_frames {A} name (slot : A -> AbrFundingTarget * Z) l u :
  calculateAbrFrameMegapixelUnits (imap (fun i x => target_rendition name i (fst (slot x)) (snd (slot x))) l) = Ok u ->
  Forall (fun x => 1 <= snd x <= MAX_SAFE_INTEGER) (slot <$> l) /\
  1000000 * (u - 1) < sum_slots (slot <$> l) <= 1000000 * u /\ 0 <= u <= MAX_SAFE_INTEGER.
Proof.
  intros H. split.
  - apply Forall_fmap, Forall_lookup_2. intros i x Hx. cbn.
    destruct (units_valid _ _ (target_rendition name i (fst (slot x)) (snd (slot x)))
      (mkVideo (NInt (snd (slot x))) (NInt (fst (DIMENSIONS (ft_resolution (fst (slot x))))))
         (NInt (snd (DIMENSIONS (ft_resolution (fst (slot x)))))))
      H) as [q Hq].
    + apply list_elem_of_lookup. exists i. rewrite list_lookup_imap, Hx. done.
    + unfold target_rendition. by destruct (DIMENSIONS _).
    + unfold video_pixels in Hq. cbn [dv_actualFrames] in Hq.
      destruct (count (NInt (snd (slot x)))) as [z|] eqn:Ez; [|done]. by apply count_Some in Ez as [[= <-] ?].
  - apply units_ceiling in H. rewrite (sum_target_renditions _ slot) in H; [done|].
    intros i x. rewrite target_rendition_pixels. by destruct (slot x).
Qed.

(** The estimate, in terms of the slots. *)
Lemma estimate_slots d s ts est e :
  estimateAbrFunding d s ts est = Ok e ->
  exists fs, frames_by_target d s ts = Ok fs /\ fs <> [] /\
    zip ts (fe_maximumFramesByTarget e) = (fun x => (fst x, snd (snd x))) <$> fs /\
    calculateAbrFrameMegapixelUnits (imap (fun i x => target_rendition "estimate-" i (fst x) (fst (snd x))) fs)
      = Ok (fe_estimatedUnits e) /\
    calculateAbrFrameMegapixelUnits (imap (fun i x => target_rendition "maximum-" i (fst x) (snd (snd x))) fs)
      = Ok (fe_maxTotalUnits e).
Proof.
  unfold estimateAbrFunding. rewrite result_bind_Ok. intros (? & _ & H).
  apply result_bind_Ok in H as ([] & Hin & H). apply refuse_if_Ok in Hin.
  apply result_bind_Ok in H as (fs & Hfs & H). apply result_bind_Ok in H as (u1 & H1 & H).
  apply result_bind_Ok in H as (u2 & H2 & [= <-]). destruct (frames_by_target_spec _ _ _ _ Hfs) as [Hts _].
  exists fs. cbn [fe_estimatedUnits fe_maxTotalUnits fe_maximumFramesByTarget]. split_and!; try done.
  - intros ->. cbn in Hts. subst ts. cbn in Hfs. bools. done.
  - rewrite <- Hts. clear. induction fs as [|x fs IH]; [done|]. cbn. by rewrite IH.
Qed.

Lemma estimated_at_most_maximum (fs : list (AbrFundingTarget * (Z * Z))) :
  Forall (fun x => fst (snd x) <= snd (snd x)) fs ->
  sum_slots ((fun x => (fst x, fst (snd x))) <$> fs) <= sum_slots ((fun x => (fst x, snd (snd x))) <$> fs).
Proof.
  induction 1 as [|x fs Hx H IH]; cbn; [lia|]. unfold sum_slots in IH. unfold slot_pixels at 1 3. cbn [fst snd].
  pose proof (dimensions_pos (ft_resolution (fst x))).
  apply Z.add_le_mono; [|done]. apply Z.mul_le_mono_nonneg_r; [lia|]. apply Z.mul_le_mono_nonneg_r; lia.
Qed.

Lemma estimate_nonzero (fs : list (AbrFundingTarget * (Z * Z))) :
  fs <> [] -> Forall (fun x => 1 <= fst (snd x)) fs -> 1 <= sum_slots ((fun x => (fst x, fst (snd x))) <$> fs).
Proof.
  destruct fs as [|x l]; [done|]. intros _ [Hx H]%Forall_cons. cbn. pose proof (dimensions_pos (ft_resolution (fst x))).
  assert (1 <= slot_pixels (fst x, fst (snd x))) by (unfold slot_pixels; cbn [fst snd]; nia).
  assert (0 <= sum_slots ((fun x => (fst x, fst (snd x))) <$> l)) as Hl.
  { apply sum_slots_nonneg, Forall_fmap. eapply Forall_impl; [done|]. cbn. lia. }
  unfold sum_slots in Hl. lia.
Qed.

Lemma estimate_bounds d s ts est e :
  estimateAbrFunding d s ts est = Ok e ->
  1 <= fe_estimatedUnits e <= fe_maxTotalUnits e /\ fe_maxTotalUnits e <= MAX_SAFE_INTEGER /\
  Forall (fun x => 1 <= snd x <= MAX_SAFE_INTEGER) (zip ts (fe_maximumFramesByTarget e)) /\
  sum_slots (zip ts (fe_maximumFramesByTarget e)) <= 1000000 * fe_maxTotalUnits e.
Proof.
  intros He. destruct (estimate_slots _ _ _ _ _ He) as (fs & Hfs & Hne & -> & H1 & H2).
  destruct (funded_frames "estimate-" (fun x => (fst x, fst (snd x))) fs _ H1) as (Hf1 & Hu1 & Hr1).
  destruct (funded_frames "maximum-" (fun x => (fst x, snd (snd x))) fs _ H2) as (Hf2 & Hu2 & Hr2).
  rewrite Forall_fmap in Hf1.
  assert (Forall (fun x => fst (snd x) <= snd (snd x)) fs) as Hle.
  { destruct (frames_by_target_spec _ _ _ _ Hfs) as [_ Ht]. apply Forall_lookup_2. intros i x Hx.
    pose proof (Forall_lookup_1 _ _ _ _ Ht Hx) as Hx1. pose proof (Forall_lookup_1 _ _ _ _ Hf1 Hx) as Hx2.
    cbn in Hx1, Hx2. destruct x as [t [f m]]. cbn in *. eapply target_frames_le; [done|lia]. }
  apply estimated_at_most_maximum in Hle.
  assert (1 <= sum_slots ((fun x => (fst x, fst (snd x))) <$> fs)) as Hone.
  { apply estimate_nonzero; [done|]. eapply Forall_impl; [done|]. cbn. lia. }
  split_and!; try done; lia.
Qed.

(** Valid renditions have a price. *)
Lemma valid_price rs bound :
  (forall r v, r ∈ rs -> dr_video r = Some v -> exists p, video_pixels v = Ok p) ->
  sum_pixels rs <= 1000000 * bound -> bound <= MAX_SAFE_INTEGER ->
  exists u, calculateAbrFrameMegapixelUnits rs = Ok u /\ 0 <= u <= bound.
Proof.
  intros Hv Hs Hb. assert (0 <= sum_pixels rs) as H0.
  { clear Hs. induction rs as [|r rs IH]; cbn; [lia|]. fold (sum_pixels rs).
    assert (0 <= pixels_of r).
    { destruct (dr_video r) as [v|] eqn:E; [|unfold pixels_of; by rewrite E].
      destruct (Hv r v (list_elem_of_here _ _) E) as [p Hp]. destruct (video_pixels_Ok _ _ _ Hp E). lia. }
    enough (0 <= sum_pixels rs) by lia. apply IH. intros. eapply Hv; eauto. by apply list_elem_of_further. }
  pose proof (Z.div_mod (sum_pixels rs + 999999) 1000000 ltac:(lia)) as Hd.
  pose proof (Z.mod_pos_bound (sum_pixels rs + 999999) 1000000 ltac:(lia)) as Hm.
  exists ((sum_pixels rs + 999999) / 1000000). split; [apply units_of_pixels; [done|lia|lia]|lia].
Qed.

(** C16: the funding covers the work.  If the estimate succeeds, its units are safe
    counts with 1 <= estimated <= maximum, so the ledger accepts the pair; and any
    delivery whose video renditions are produced for distinct funded targets, at the
    target's size and with at most its maximum of frames (renditions without video come
    free, targets may be missing), is priced within the maximum, and reconciles exactly
    when it is signed for its price. *)
Theorem funding_covers_delivery d s ts est e delivered slots :
  estimateAbrFunding d s ts est = Ok e ->
  slots ⊆+ zip ts (fe_maximumFramesByTarget e) ->
  Forall2 (fun r x => within r (fst x) (snd x)) (filter has_video delivered) slots ->
  1 <= fe_estimatedUnits e <= fe_maxTotalUnits e /\ fe_maxTotalUnits e <= MAX_SAFE_INTEGER /\
  exists u, calculateAbrFrameMegapixelUnits delivered = Ok u /\ 0 <= u <= fe_maxTotalUnits e /\
    forall signed, 0 <= signed <= fe_maxTotalUnits e ->
      is_ok (reconcileAbrUsage delivered ABR_WORK_UNIT signed (fe_maxTotalUnits e)) = bool_decide (signed = u).
Proof.
  intros He Hsub Hw. destruct (estimate_bounds _ _ _ _ _ He) as (Hest & Hmax & Hframes & Hcap).
  split; [done|]. split; [done|].
  assert (sum_slots slots <= sum_slots (zip ts (fe_maximumFramesByTarget e))) as Hs.
  { apply sum_slots_submseteq; [|done]. eapply Forall_impl; [done|]. cbn. lia. }
  assert (Forall (fun x => snd x <= MAX_SAFE_INTEGER) slots) as Hslots.
  { apply Forall_forall. intros x Hx. eapply elem_of_submseteq in Hx; [|done].
    by apply (proj1 (Forall_forall _ _) Hframes) in Hx as [_ Hx]. }
  pose proof (delivered_pixels _ _ Hw) as Hpix.
  destruct (valid_price delivered (fe_maxTotalUnits e)) as (u & Hu & Hub); [|lia|done|].
  { intros r v. by apply (delivered_valid _ slots). }
  exists u. split; [done|]. split; [done|]. intros signed Hsg. unfold reconcileAbrUsage.
  rewrite bool_decide_eq_true_2 by done. unfold safe_integer, MAX_SAFE_INTEGER in *.
  rewrite !(proj2 (Z.leb_le _ _)), !(proj2 (Z.ltb_ge _ _)) by lia. cbn [negb orb refuse_if result_bind].
  rewrite Hu. cbn [result_bind ur_deltaUnits]. rewrite ?(proj2 (Z.ltb_ge _ _)) by lia. cbn [refuse_if result_bind].
  destruct (bool_decide_reflect (signed = u)) as [->|Hne]; [by rewrite Z.sub_diag|].
  by rewrite (proj2 (Z.eqb_neq _ 0)) by lia.
Qed.

(** Ten seconds at 29.97 frames per second in two sizes. *)
Lemma funding_covers_delivery_witness :
  exists e, estimateAbrFunding (NInt 10) (round_double 2997 100) [mkTarget p720 None; mkTarget p360 None]
    (Some (mkEstimator ABR_ESTIMATOR_ID "ceil-total" "ceiling" None None)) = Ok e /\
  fe_estimatedUnits e = 346 /\ fe_maxTotalUnits e = 415 /\
  exists u, calculateAbrFrameMegapixelUnits
    [mkDelivered "360p" (Some (mkVideo (NInt 301) (NInt 640) (NInt 360))); mkDelivered "audio-only" None] = Ok u /\
    0 <= u <= 415.
Proof.
  destruct (estimateAbrFunding (NInt 10) (round_double 2997 100) [mkTarget p720 None; mkTarget p360 None]
    (Some (mkEstimator ABR_ESTIMATOR_ID "ceil-total" "ceiling" None None))) as [e|x] eqn:He.
  2: { exfalso. vm_compute in He. discriminate He. }
  exists e. split; [reflexivity|].
  pose proof He as He'. vm_compute in He'. injection He' as <-. split; [reflexivity|]. split; [reflexivity|].
  destruct (funding_covers_delivery _ _ _ _ _
    [mkDelivered "360p" (Some (mkVideo (NInt 301) (NInt 640) (NInt 360))); mkDelivered "audio-only" None]
    [(mkTarget p360 None, 360)] He) as (_ & _ & u & Hu & Hb & _).
  - apply submseteq_cons. reflexivity.
  - repeat constructor. intros v [= <-]. exists 301. split; [reflexivity|]. split; [cbn; lia|]. split; reflexivity.
  - exists u. split; [exact Hu|exact Hb].
Defined.
