(* ===== verification/AbrExchange.v ===== *)
(** * The exchange with the ABR runner (engine/service/abrExchange.ts)

    The request body a job carries, and the terminal message the runner streams back
    as server-sent events, which must agree with the signed settlement. *)

From S2P Require Import Prelude Js Types Wire Http Interfaces RouteProtocol LocClient SampleNet VodUsage.
From Stdlib Require Import Ascii.
Open Scope Z_scope.

Definition ABR_REQUEST_SCHEMA : string := "video-transcode-abr/v2".
Definition ABR_RESULT_SCHEMA : string := "video-transcode-abr-result/v2".

(** [PaidJobSettlement] of engine/interfaces/paidJobClient.ts *)
Record PaidJobSettlement := mkJobSettlement {
  js_brokerJobId : string;
  js_actualUnits : Z;
  js_workUnit : string;
  js_outcome : string;
  js_envelope : LocSettlementEnvelope
}.

(** ** Requests *)

Record Artifact := mkArtifact {
  af_artifact_uri : string;
  af_upload_url : string
}.
Record RenditionOutput := mkOutput {
  ro_playlist : Artifact;
  ro_stream : Artifact
}.
Record AbrExchangeRequest := mkAbrRequest {
  ar_workload_id : string;
  ar_download_url : string;
  ar_content_sha256 : option string;
  ar_preset : string;
  ar_manifest : Artifact;
  ar_renditions : list (string * RenditionOutput)
}.

Definition artifact_json (a : Artifact) : json :=
  JObj [("artifact_uri", JStr (af_artifact_uri a)); ("upload_url", JStr (af_upload_url a))].
Definition output_json (o : RenditionOutput) : json :=
  JObj [("playlist", artifact_json (ro_playlist o)); ("stream", artifact_json (ro_stream o))].
(** The object in the order of the schema, as the parser returns it. *)
Definition request_json (r : AbrExchangeRequest) : json :=
  JObj [("schema", JStr ABR_REQUEST_SCHEMA); ("workload_id", JStr (ar_workload_id r));
        ("input", JObj (("download_url", JStr (ar_download_url r)) ::
                        opt_prop "content_sha256" JStr (ar_content_sha256 r)));
        ("ladder", JObj [("preset", JStr (ar_preset r))]);
        ("output", JObj [("manifest", artifact_json (ar_manifest r));
                         ("renditions", JObj (prod_map id output_json <$> ar_renditions r))])].

(** [z.record(z.string(), dec)] *)
Fixpoint decode_values {A} (dec : decoder A) (l : list (string * json)) : option (list (string * A)) :=
  match l with
  | [] => Some []
  | (k, j) :: l' => a ← dec j; r ← decode_values dec l'; Some ((k, a) :: r)
  end.

Section exchange.
Context `{Plat : Platform}.

Definition artifact : decoder Artifact := z_object (fun f =>
  _ ← strict ["artifact_uri"; "upload_url"] f;
  uri ← field f "artifact_uri" z_text;
  url ← field f "upload_url" (z_refined is_url);
  Some (mkArtifact uri url)).

Definition output_wire : decoder RenditionOutput := z_object (fun g =>
  _ ← strict ["playlist"; "stream"] g;
  playlist ← field g "playlist" artifact; stream_ ← field g "stream" artifact;
  Some (mkOutput playlist stream_)).

(** The [input], [ladder] and [output] of a request. *)
Definition input_wire : decoder (string * option string) := z_object (fun g =>
  _ ← strict ["download_url"; "content_sha256"] g;
  url ← field g "download_url" (z_refined is_url);
  sha ← opt_field g "content_sha256" (z_refined fingerprint_regex);
  Some (url, sha)).
Definition ladder_wire : decoder string := z_object (fun g => _ ← strict ["preset"] g; field g "preset" z_text).
Definition outputs_wire : decoder (Artifact * list (string * RenditionOutput)) := z_object (fun g =>
  _ ← strict ["manifest"; "renditions"] g;
  manifest ← field g "manifest" artifact;
  renditions ← field g "renditions" (z_object (decode_values output_wire));
  Some (manifest, renditions)).

Definition requestWire : decoder AbrExchangeRequest := z_object (fun f =>
  _ ← strict ["schema"; "workload_id"; "input"; "ladder"; "output"] f;
  _ ← field f "schema" (z_literal ABR_REQUEST_SCHEMA);
  workload ← field f "workload_id" z_text;
  input ← field f "input" input_wire;
  preset ← field f "ladder" ladder_wire;
  output ← field f "output" outputs_wire;
  Some (mkAbrRequest workload (fst input) (snd input) preset (fst output) (snd output))).

Record EncodedRequest := mkEncoded {
  ec_body : string;
  ec_sha256 : string;
  ec_request : AbrExchangeRequest
}.
Definition ec_json (e : EncodedRequest) : json := request_json (ec_request e).

Definition encodeAbrExchangeRequest (value : json) : result exn EncodedRequest :=
  match requestWire value with
  | Some r => let body := stringify (request_json r) in Ok (mkEncoded body (sha256_hex body) r)
  | None => Err (AbrExchangeError "abr_request_invalid" false)
  end.

(** ** Terminal messages *)

Record TerminalVideo := mkTerminalVideo {
  tv_actual_frames : Z;
  tv_width : Z;
  tv_height : Z
}.
Record AbrRendition := mkAbrRendition {
  ab_name : string;
  ab_playlist_uri : string;
  ab_stream_uri : string;
  ab_video : option TerminalVideo;
  ab_file_size_bytes : Z
}.
Record AbrTerminalResult := mkAbrTerminal {
  at_workload_id : string;
  at_request_sha256 : string;
  at_manifest_uri : string;
  at_renditions : list AbrRendition;
  at_units : Z
}.
Record AbrTerminalError := mkAbrFailure {
  af_workload_id : string;
  af_request_sha256 : string;
  af_code : string;
  af_retryable : bool
}.

Definition renditionWire : decoder AbrRendition := z_object (fun f =>
  _ ← strict ["name"; "playlist_uri"; "stream_uri"; "video"; "file_size_bytes"] f;
  name ← field f "name" z_text;
  playlist ← field f "playlist_uri" z_text;
  stream_ ← field f "stream_uri" z_text;
  video ← opt_field f "video" (z_object (fun g =>
    _ ← strict ["actual_frames"; "width"; "height"] g;
    frames ← field g "actual_frames" z_positive;
    width ← field g "width" z_positive;
    height ← field g "height" z_positive;
    Some (mkTerminalVideo frames width height)));
  size ← field f "file_size_bytes" z_nonneg;
  Some (mkAbrRendition name playlist stream_ video size)).

Definition usage_wire (units : decoder Z) : decoder Z := z_object (fun g =>
  _ ← strict ["unit"; "units"] g;
  _ ← field g "unit" (z_literal ABR_WORK_UNIT);
  field g "units" units).

Definition terminalWire : decoder AbrTerminalResult := z_object (fun f =>
  _ ← strict ["schema"; "workload_id"; "request_sha256"; "outcome"; "manifest_uri"; "renditions"; "usage"] f;
  _ ← field f "schema" (z_literal ABR_RESULT_SCHEMA);
  workload ← field f "workload_id" z_text;
  sha ← field f "request_sha256" (z_refined fingerprint_regex);
  _ ← field f "outcome" (z_literal "succeeded");
  manifest ← field f "manifest_uri" z_text;
  renditions ← field f "renditions" (z_array 1 renditionWire);
  units ← field f "usage" (usage_wire z_nonneg);
  Some (mkAbrTerminal workload sha manifest renditions units)).

(** [z.literal(0)] *)
Definition z_zero : decoder Z := fun j => match j with JNum (NInt 0) => Some 0 | _ => None end.

Definition terminalErrorWire : decoder AbrTerminalError := z_object (fun f =>
  _ ← strict ["schema"; "workload_id"; "request_sha256"; "outcome"; "error"; "usage"] f;
  _ ← field f "schema" (z_literal ABR_RESULT_SCHEMA);
  workload ← field f "workload_id" z_text;
  sha ← field f "request_sha256" (z_refined fingerprint_regex);
  _ ← field f "outcome" (z_literal "failed");
  error ← field f "error" (z_object (fun g =>
    _ ← strict ["code"; "message"; "retryable"] g;
    code_ ← field g "code" z_text;
    _ ← field g "message" (z_refined (fun s => nonempty s && (str_len s <=? 512)));
    retryable ← field g "retryable" z_boolean;
    Some (code_, retryable)));
  _ ← field f "usage" (usage_wire z_zero);
  Some (mkAbrFailure workload sha (fst error) (snd error))).

(** ** Server-sent events *)

(** The separator [/\r?\n/] at the head of a string: what follows it. *)
Definition newline (s : string) : option string :=
  match s with
  | String "010" s' => Some s'
  | String "013" (String "010" s') => Some s'
  | _ => None
  end.
(** [/\r?\n\r?\n/] *)
Definition blank_line (s : string) : option string :=
  match newline s with Some s' => newline s' | None => None end.

(** [s.split(sep)]: the text before the next separator, and so on.  Every step
    consumes a character, so a string's length is enough fuel. *)
Fixpoint split_fuel (fuel : nat) (sep : string -> option string) (s : string) : list string :=
  match fuel with
  | O => [""]
  | S fuel' =>
      match sep s with
      | Some rest => "" :: split_fuel fuel' sep rest
      | None =>
          match s with
          | EmptyString => [""]
          | String c s' =>
              match split_fuel fuel' sep s' with
              | first :: rest => String c first :: rest
              | [] => [String c ""]
              end
          end
      end
  end.
Definition split (sep : string -> option string) (s : string) : list string := split_fuel (S (String.length s)) sep s.

(** [line.slice(5).trimStart()] of the data lines, joined by newlines. *)
Fixpoint join_lines (l : list string) : string :=
  match l with
  | [] => ""
  | [x] => x
  | x :: l' => x +:+ String "010" (join_lines l')
  end.
Definition block_data (block : string) : string :=
  join_lines ((fun line => trim_start (drop 5 line)) <$> filter (fun line => startsWith "data:" line = true)
    (split newline block)).

Fixpoint last_terminal (terminal : option json) (blocks : list string) : result exn (option json) :=
  match blocks with
  | [] => Ok terminal
  | block :: rest =>
      let data := block_data block in
      if negb (nonempty data) then last_terminal terminal rest
      else match json_parse data with
           | None => Err (AbrExchangeError "abr_sse_invalid" false)
           | Some (JObj f) =>
               match assoc "schema" f with
               | Some (JStr s) => last_terminal (if s ==? ABR_RESULT_SCHEMA then Some (JObj f) else terminal) rest
               | _ => last_terminal terminal rest
               end
           | Some _ => last_terminal terminal rest
           end
  end.

Definition terminalJsonFromSse (body : string) : result exn json :=
  let? terminal := last_terminal None (split blank_line body) in
  match terminal with
  | Some j => Ok j
  | None => Err (AbrExchangeError "abr_terminal_missing" false)
  end.

(** ** validateAbrTerminal *)

Definition delivered (r : AbrRendition) : AbrDeliveredRendition :=
  mkDelivered (ab_name r) ((fun v => mkVideo (NInt (tv_actual_frames v)) (NInt (tv_width v)) (NInt (tv_height v)))
                             <$> ab_video r).

Definition validateAbrTerminal (brokerBody : string) (settlement : PaidJobSettlement) (workloadId requestSha256 : string)
    (maximumUnits : Z) : result exn AbrTerminalResult :=
  let mismatch := AbrExchangeError "abr_terminal_identity_mismatch" false in
  let? candidate := terminalJsonFromSse brokerBody in
  match terminalErrorWire candidate with
  | Some failed =>
      throw_if (af_workload_id failed !=? workloadId) || (af_request_sha256 failed !=? requestSha256) with mismatch ;;
      Err (AbrExchangeError (af_code failed) (af_retryable failed))
  | None =>
      match terminalWire candidate with
      | None => Err (AbrExchangeError "abr_terminal_invalid" false)
      | Some t =>
          throw_if (at_workload_id t !=? workloadId) || (at_request_sha256 t !=? requestSha256) ||
                   negb (at_units t =? js_actualUnits settlement) || (ABR_WORK_UNIT !=? js_workUnit settlement)
            with mismatch ;;
          let? _ := reconcileAbrUsage (delivered <$> at_renditions t) (js_workUnit settlement)
                      (js_actualUnits settlement) maximumUnits in
          Ok t
      end
  end.

End exchange.

(** ** Properties *)

Section properties.
Context `{Plat : Platform}.

Lemma artifact_again j a : artifact j = Some a -> artifact (artifact_json a) = Some a.
Proof.
  unfold artifact at 1. intros (f & -> & H)%z_object_Some. decoding H. injection H as <-.
  apply field_decodes in D0 as (? & D0%z_text_again), D1 as (? & D1%z_refined_again).
  unfold artifact, artifact_json. cbn [z_object af_artifact_uri af_upload_url].
  replace (strict _ _) with (Some ()) by (by vm_compute). cbn [mbind option_bind].
  reading "artifact_uri" as x0 by done. cbn [mbind option_bind]. by (reading "upload_url" as x1 by done).
Qed.

Lemma output_again j o : output_wire j = Some o -> output_wire (output_json o) = Some o.
Proof.
  unfold output_wire at 1. intros (f & -> & H)%z_object_Some. decoding H. injection H as <-.
  apply field_decodes in D0 as (? & D0%artifact_again), D1 as (? & D1%artifact_again).
  unfold output_wire, output_json. cbn [z_object ro_playlist ro_stream].
  replace (strict _ _) with (Some ()) by (by vm_compute). cbn [mbind option_bind].
  reading "playlist" as x0 by done. cbn [mbind option_bind]. by (reading "stream" as x1 by done).
Qed.

Lemma outputs_again l os :
  decode_values output_wire l = Some os -> decode_values output_wire (prod_map id output_json <$> os) = Some os.
Proof.
  revert os. induction l as [|[k j] l IH]; intros os; cbn; [by intros [= <-]|].
  intros H. decoding H. injection H as <-.
  change (prod_map id output_json <$> (k, x) :: x0) with ((k, output_json x) :: (prod_map id output_json <$> x0)).
  cbn [decode_values]. by rewrite (output_again _ _ D), (IH _ D0).
Qed.

Lemma opt_field_decodes {A} f k (dec : decoder A) o :
  opt_field f k dec = Some o -> forall a, o = Some a -> exists j, dec j = Some a.
Proof.
  unfold opt_field. destruct (assoc k f) as [j|]; [|by intros [= <-]].
  destruct (dec j) eqn:E; [|done]. intros [= <-] b [= <-]. eauto.
Qed.

Lemma input_again j i :
  input_wire j = Some i ->
  input_wire (JObj (("download_url", JStr (fst i)) :: opt_prop "content_sha256" JStr (snd i))) = Some i.
Proof.
  unfold input_wire at 1. intros (f & -> & H)%z_object_Some. decoding H. injection H as <-.
  apply field_decodes in D0 as (? & D0%z_refined_again). pose proof (opt_field_decodes _ _ _ _ D1) as D2.
  unfold input_wire. cbn [z_object fst snd].
  replace (strict _ _) with (Some ()) by (by destruct x1; vm_compute). cbn [mbind option_bind].
  reading "download_url" as x0 by done. cbn [mbind option_bind].
  maybe "content_sha256" as x1 by (instantiate (1 := JStr); by destruct x1); [done|].
  intros a Ha. destruct (D2 a Ha) as [? D3]. by eapply z_refined_again.
Qed.

Lemma ladder_again j p : ladder_wire j = Some p -> ladder_wire (JObj [("preset", JStr p)]) = Some p.
Proof.
  unfold ladder_wire at 1. intros (f & -> & H)%z_object_Some. decoding H.
  apply field_decodes in H as (? & H%z_text_again). unfold ladder_wire. cbn [z_object].
  replace (strict _ _) with (Some ()) by (by vm_compute). cbn [mbind option_bind].
  by (reading "preset" as p by done).
Qed.

Lemma outputs_wire_again j o :
  outputs_wire j = Some o ->
  outputs_wire (JObj [("manifest", artifact_json (fst o));
                      ("renditions", JObj (prod_map id output_json <$> snd o))]) = Some o.
Proof.
  unfold outputs_wire at 1. intros (f & -> & H)%z_object_Some. decoding H. injection H as <-.
  apply field_decodes in D0 as (? & D0%artifact_again), D1 as (? & (? & -> & D1%outputs_again)%z_object_Some).
  unfold outputs_wire. cbn [z_object fst snd].
  replace (strict _ _) with (Some ()) by (by vm_compute). cbn [mbind option_bind].
  reading "manifest" as x0 by done. cbn [mbind option_bind]. by (reading "renditions" as x1 by done).
Qed.

Lemma requestWire_again j r : requestWire j = Some r -> requestWire (request_json r) = Some r.
Proof.
  unfold requestWire at 1. intros (f & -> & H)%z_object_Some. decoding H. injection H as <-.
  apply field_decodes in D1 as (? & D1%z_text_again), D2 as (? & D2%input_again), D3 as (? & D3%ladder_again),
    D4 as (? & D4%outputs_wire_again).
  unfold requestWire, request_json. cbn [z_object ar_workload_id ar_download_url ar_content_sha256 ar_preset
    ar_manifest ar_renditions].
  replace (strict _ _) with (Some ()) by (by vm_compute). cbn [mbind option_bind].
  reading "schema" as ABR_REQUEST_SCHEMA by reflexivity. cbn [mbind option_bind].
  reading "workload_id" as x1 by done. cbn [mbind option_bind].
  reading "input" as x2 by done. cbn [mbind option_bind].
  reading "ladder" as x3 by done. cbn [mbind option_bind].
  reading "output" as x4 by done. done.
Qed.

(** What is read from a request that was built is that request. *)
Ltac literal H := eapply field_literal in H; [|reflexivity].
Lemma artifact_read a b : artifact (artifact_json a) = Some b -> b = a.
Proof.
  unfold artifact. intros (f & [= <-] & H)%z_object_Some. decoding H. injection H as <-.
  literal D0. literal D1. apply z_text_Some in D0 as [[= <-] _]. apply z_refined_Some in D1 as [[= <-] _].
  by destruct a.
Qed.
Lemma output_read o p : output_wire (output_json o) = Some p -> p = o.
Proof.
  unfold output_wire. intros (f & [= <-] & H)%z_object_Some. decoding H. injection H as <-.
  literal D0. literal D1. apply artifact_read in D0, D1. subst. by destruct o.
Qed.
Lemma outputs_read os ps :
  decode_values output_wire (prod_map id output_json <$> os) = Some ps -> ps = os.
Proof.
  revert ps. induction os as [|[k o] os IH]; intros ps; [by intros [= <-]|].
  change (prod_map id output_json <$> (k, o) :: os) with ((k, output_json o) :: (prod_map id output_json <$> os)).
  cbn [decode_values]. intros H. decoding H. injection H as <-. apply output_read in D. by rewrite D, (IH _ D0).
Qed.
Lemma encoded_outputs r e :
  encodeAbrExchangeRequest (request_json r) = Ok e ->
  ar_manifest (ec_request e) = ar_manifest r /\ ar_renditions (ec_request e) = ar_renditions r /\
  ec_sha256 e = sha256_hex (ec_body e).
Proof.
  unfold encodeAbrExchangeRequest. destruct (requestWire _) as [r'|] eqn:E; [|done]. intros [= <-].
  unfold requestWire in E. apply z_object_Some in E as (f & [= <-] & E). decoding E. injection E as <-.
  literal D4. unfold outputs_wire in D4. apply z_object_Some in D4 as (g & [= <-] & D4).
  decoding D4. injection D4 as <-. literal D6. literal D7.
  apply artifact_read in D6. apply outputs_read in D7. by subst.
Qed.

(** What a job asked for can be recovered from what was stored.  Encoding is stable:
    the stored form of an encoded request encodes again to the same body, digest and
    request, so the digest the recovery compares with the operation's is the one the
    operation was opened with. *)
Lemma encoded_request_is_stable v e :
  encodeAbrExchangeRequest v = Ok e -> encodeAbrExchangeRequest (ec_json e) = Ok e.
Proof.
  unfold encodeAbrExchangeRequest. destruct (requestWire v) as [r|] eqn:E; [|done]. intros [= <-].
  unfold ec_json. cbn [ec_request]. by rewrite (requestWire_again _ _ E).
Qed.

(** An accepted terminal message is what was asked for and paid for. *)
Lemma validateAbrTerminal_Ok body settlement workload sha maximum t :
  validateAbrTerminal body settlement workload sha maximum = Ok t ->
  at_workload_id t = workload /\ at_request_sha256 t = sha /\ at_units t = js_actualUnits settlement /\
  js_workUnit settlement = ABR_WORK_UNIT /\ at_units t <= maximum /\
  1000000 * (at_units t - 1) < sum_pixels (delivered <$> at_renditions t) <= 1000000 * at_units t.
Proof.
  unfold validateAbrTerminal. rewrite result_bind_Ok. intros (j & _ & H).
  destruct (terminalErrorWire j) as [failed|]; [by apply result_bind_Ok in H as (? & _ & ?)|].
  destruct (terminalWire j) as [t'|]; [|done].
  apply result_bind_Ok in H as ([] & Hid & H). apply refuse_if_Ok in Hid. bools.
  apply result_bind_Ok in H as (u & Hu & [= <-]). unfold reconcileAbrUsage in Hu.
  apply result_bind_Ok in Hu as ([] & _ & Hu). apply result_bind_Ok in Hu as (units & Hunits & Hu).
  apply result_bind_Ok in Hu as ([] & Hmax & Hu). apply result_bind_Ok in Hu as ([] & Hdelta & _).
  apply refuse_if_Ok in Hmax, Hdelta. bools. cbn [ur_deltaUnits] in *.
  apply units_ceiling in Hunits. assert (at_units t' = units) as -> by lia.
  split_and!; try done; lia.
Qed.
End properties.

(** ** Framing *)

Section framing.
Context `{Plat : Platform}.

(** Text without line breaks. *)
Definition one_line (s : string) : bool :=
  all_chars (fun c => negb (bool_decide (c = "010"%char)) && negb (bool_decide (c = "013"%char))) s.

Lemma split_fuel_enough sep n m s :
  (forall t rest, sep t = Some rest -> (String.length rest < String.length t)%nat) ->
  (String.length s < n)%nat -> (String.length s < m)%nat -> split_fuel n sep s = split_fuel m sep s.
Proof.
  intros Hsep. revert m s. induction n as [|n IH]; intros m s Hn Hm; [lia|]. destruct m as [|m]; [lia|]. cbn.
  destruct (sep s) as [rest|] eqn:E; [apply Hsep in E; f_equal; apply IH; lia|].
  destruct s as [|c s]; [done|]. cbn in *. by rewrite (IH m s) by lia.
Qed.

Lemma newline_shorter t rest : newline t = Some rest -> (String.length rest < String.length t)%nat.
Proof.
  unfold newline. intros H. repeat case_match; simplify_eq; cbn; lia.
Qed.

Lemma blank_line_shorter t rest : blank_line t = Some rest -> (String.length rest < String.length t)%nat.
Proof.
  unfold blank_line. destruct (newline t) as [u|] eqn:E; [|done]. intros H.
  apply newline_shorter in E, H. lia.
Qed.

Lemma one_line_cons c s : one_line (String c s) = true -> newline (String c s) = None /\ one_line s = true.
Proof.
  unfold one_line. cbn [all_chars]. rewrite !andb_true_iff, !negb_true_iff, !bool_decide_eq_false.
  intros [[H1 H2] H3]. split; [|done]. unfold newline.
  destruct c as [[] [] [] [] [] [] [] []]; try done.
Qed.

Lemma newline_none_app c x y : one_line (String c x) = true -> newline (String c (x +:+ y)) = None.
Proof.
  unfold one_line. cbn [all_chars]. rewrite !andb_true_iff, !negb_true_iff, !bool_decide_eq_false.
  intros [[H1 H2] _]. unfold newline. destruct c as [[] [] [] [] [] [] [] []]; try done.
Qed.

(** A line ends at the first break. *)
Lemma split_line n x : one_line x = true -> (String.length x < n)%nat -> split_fuel n newline x = [x].
Proof.
  revert n. induction x as [|c x IH]; intros n Hx Hn; destruct n as [|n]; try (cbn in Hn; lia); [done|].
  cbn [split_fuel]. destruct (one_line_cons _ _ Hx) as [-> Hx']. rewrite IH; [done|done|cbn in Hn; lia].
Qed.

(** A block ends at the first empty line. *)
Lemma split_block n x rest :
  one_line x = true -> (String.length (x +:+ String "010" (String "010" rest)) < n)%nat ->
  split_fuel n blank_line (x +:+ String "010" (String "010" rest)) = x :: split blank_line rest.
Proof.
  revert n. induction x as [|c x IH]; intros n Hx Hn; destruct n as [|n]; try (cbn in Hn; lia).
  - change (split_fuel (S n) blank_line _) with ("" :: split_fuel n blank_line rest).
    f_equal. assert (S (S (String.length rest)) < S n)%nat by exact Hn.
    apply split_fuel_enough; [apply blank_line_shorter|lia|lia].
  - change (String c x +:+ String "010" (String "010" rest)) with
      (String c (x +:+ String "010" (String "010" rest))) in *.
    cbn [split_fuel]. unfold blank_line at 1. rewrite newline_none_app by done.
    apply one_line_cons in Hx as [_ Hx]. rewrite IH; [done|done|cbn in Hn; lia].
Qed.

(** The frame a runner writes for one message. *)
Definition event (message : string) : string := "data: " +:+ message +:+ String "010" (String "010" "").
Fixpoint stream_of (messages : list string) : string :=
  match messages with [] => "" | m :: ms => event m +:+ stream_of ms end.
(** A message on one line that does not start with a space and is JSON. *)
Definition sendable (m : string) : Prop :=
  one_line m = true /\ nonempty m = true /\ trim_start m = m /\ exists j, json_parse m = Some j.

Lemma str_app_assoc (a b c : string) : (a +:+ b) +:+ c = a +:+ (b +:+ c).
Proof.
  induction a as [|x a IH]; [done|]. change (String x ((a +:+ b) +:+ c) = String x (a +:+ (b +:+ c))). by rewrite IH.
Qed.

Lemma split_stream ms :
  Forall sendable ms -> split blank_line (stream_of ms) = ((fun m => "data: " +:+ m) <$> ms) ++ [""].
Proof.
  induction 1 as [|m ms (Hm & _) _ IH]; [done|]. cbn [stream_of fmap list_fmap]. rewrite <- app_comm_cons.
  unfold event. replace (("data: " +:+ m +:+ String "010" (String "010" "")) +:+ stream_of ms) with
    (("data: " +:+ m) +:+ String "010" (String "010" (stream_of ms))) by (by rewrite !str_app_assoc).
  unfold split. rewrite split_block; [by rewrite IH|done|lia].
Qed.

Lemma block_data_message m : sendable m -> block_data ("data: " +:+ m) = m.
Proof.
  intros (Hm & _ & Ht & _). unfold block_data, split. rewrite split_line by (first [done|lia]).
  rewrite filter_cons_True by done. rewrite filter_nil. exact Ht.
Qed.

(** The messages that are results, as parsed. *)
Definition as_result (m : string) : option json :=
  match json_parse m with
  | Some (JObj f) => match assoc "schema" f with
                     | Some (JStr s) => if s ==? ABR_RESULT_SCHEMA then Some (JObj f) else None
                     | _ => None
                     end
  | _ => None
  end.

Lemma last_terminal_spec ms t :
  Forall sendable ms ->
  last_terminal t (((fun m => "data: " +:+ m) <$> ms) ++ [""]) = Ok (or_else (last (omap as_result ms)) t).
Proof.
  intros H. revert t. induction H as [|m ms Hm H IH]; intros t; [done|].
  cbn [fmap list_fmap]. rewrite <- app_comm_cons. cbn [last_terminal]. rewrite block_data_message by done.
  destruct Hm as (_ & -> & _ & j & Hj). cbn [negb]. cbn [omap list_omap]. unfold as_result at 1. rewrite Hj.
  assert (forall (o : option json) l t, or_else (last l) (or_else o t) =
    or_else (last (match o with Some y => y :: l | None => l end)) t) as Hlast.
  { intros [y|] l t'; [|done]. destruct l as [|z l]; [done|]. 
    change (last (y :: z :: l)) with (last (z :: l)). destruct (last (z :: l)) eqn:E; [done|]. by apply last_None in E. }
  destruct j as [| | | | |f]; try apply IH. destruct (assoc "schema" f) as [[]|]; try apply IH.
  rewrite IH. f_equal. destruct (_ ==? _); [apply (Hlast (Some (JObj f)))|done].
Qed.

(** The result is found in the stream.  From any stream of JSON messages framed as
    server-sent events, whatever the other messages are, the validator reads the last
    message that carries the result schema, and reports a missing result if there is
    none. *)
Lemma last_result_is_read ms :
  Forall sendable ms ->
  terminalJsonFromSse (stream_of ms) =
    match last (omap as_result ms) with
    | Some j => Ok j
    | None => Err (AbrExchangeError "abr_terminal_missing" false)
    end.
Proof.
  intros H. unfold terminalJsonFromSse. rewrite split_stream, last_terminal_spec by done.
  cbn [result_bind]. by destruct (last _).
Qed.
End framing.

(** ** Witnesses *)

Definition sample_artifact (key : string) : Artifact := mkArtifact key ("http://upload/" +:+ key).
Definition sample_request : AbrExchangeRequest :=
  mkAbrRequest "asset" "http://source" None "abr-mobile" (sample_artifact "master.m3u8")
    [("360p", mkOutput (sample_artifact "360p/playlist.m3u8") (sample_artifact "360p/stream.mp4"))].

Lemma encoded_request_is_stable_witness :
  exists e, encodeAbrExchangeRequest (request_json sample_request) = Ok e /\
    encodeAbrExchangeRequest (ec_json e) = Ok e /\ ec_sha256 e = sample_digest.
Proof.
  destruct (encodeAbrExchangeRequest (request_json sample_request)) as [e|x] eqn:H.
  - exists e. split; [reflexivity|]. split; [exact (encoded_request_is_stable _ _ H)|].
    vm_compute in H. by injection H as <-.
  - exfalso. vm_compute in H. discriminate H.
Defined.

(** A result between two messages of another schema. *)
Lemma last_result_is_read_witness :
  terminalJsonFromSse (stream_of ["progress"; "result"; "progress"]) = Ok sample_result_json.
Proof.
  rewrite (last_result_is_read ["progress"; "result"; "progress"]); [reflexivity|].
  repeat constructor; eexists; reflexivity.
Defined.
