(* ===== verification/JobClient.v ===== *)
(** * The paid-job client (livepeer/paidJobClient.ts)

    One job: opened with LOC, posted to the broker, and settled with the broker's
    signed evidence.  When the answer is lost the outcome is recovered from the
    broker's exchange record.  [validateTerminal] is the caller's check of the body and
    the settlement; it runs before LOC is told, and what it captures is returned next
    to the result.  A body that breaks off after the headers arrived is not modelled. *)

From S2P Require Import Prelude Js Types Wire Http Outcome Interfaces RouteProtocol LocClient VodUsage AbrExchange.
Open Scope Z_scope.

Definition JOB_PROTOCOL : string := "paid-job/v1".
Definition job_error (code : string) (retryable : bool) : exn := PaidJobClientError code retryable.
Definition job_invalidEvidence : exn := job_error "paid_job_evidence_invalid" false.

(** ** engine/interfaces/paidJobClient.ts *)

Record PaidJobRequest (T : Type) := mkJobRequest {
  jr_requestId : string;
  jr_route : SelectedWorkerRoute;
  jr_transport : Transport;
  jr_estimatedUnits : Z;
  jr_maxTotalUnits : option Z;
  jr_contentType : string;
  jr_body : string;
  jr_validateTerminal : option (string -> PaidJobSettlement -> result exn T)
}.
Arguments mkJobRequest {T}.
Arguments jr_requestId {T}. Arguments jr_route {T}. Arguments jr_transport {T}. Arguments jr_estimatedUnits {T}.
Arguments jr_maxTotalUnits {T}. Arguments jr_contentType {T}. Arguments jr_body {T}. Arguments jr_validateTerminal {T}.

Record PaidJobSettled := mkSettled {
  pd_opened : LocOpenJobResult;
  pd_settlement : PaidJobSettlement;
  pd_accounting : LocSettleJobResult
}.
Inductive PaidJobUnresolved : Type :=
| in_flight (brokerJobId : string)
| accounting_pending (brokerJobId : string)
| not_admitted (evidence_ : string)
| no_record
| admitted_outcome_unknown (brokerJobId : string)
| admitted_evidence_expired (brokerJobId : string).
Definition unresolved_kind (u : PaidJobUnresolved) : string :=
  match u with
  | in_flight _ => "in_flight"
  | accounting_pending _ => "accounting_pending"
  | not_admitted _ => "not_admitted"
  | no_record => "no_record"
  | admitted_outcome_unknown _ => "admitted_outcome_unknown"
  | admitted_evidence_expired _ => "admitted_evidence_expired"
  end.
Definition unresolved_job (u : PaidJobUnresolved) : option string :=
  match u with
  | in_flight j | accounting_pending j | admitted_outcome_unknown j | admitted_evidence_expired j => Some j
  | not_admitted _ | no_record => None
  end.

(** A result: settled, with the broker's response when there was one, or unresolved. *)
Inductive PaidJobResult : Type :=
| JobSettled (s : PaidJobSettled) (response : option (Z * option string * string))
| JobUnresolved (opened : LocOpenJobResult) (u : PaidJobUnresolved).

(** What recovery answers with. *)
Inductive JobRecovery : Type :=
| RecoveredSettled (s : PaidJobSettled)
| RecoveredUnresolved (opened : LocOpenJobResult) (u : PaidJobUnresolved).

(** What the job services may rely on: the units of a settled job are a safe count, and
    what the check captured is its verdict on that settlement. *)
Class PaidJobClient := {
  pj_execute : forall {T}, PaidJobRequest T -> N (PaidJobResult * option T);
  pj_settled : forall {T} (input : PaidJobRequest T) n s resp captured n',
    pj_execute input n = (Ok (JobSettled s resp, captured), n') ->
    0 <= js_actualUnits (pd_settlement s) <= MAX_SAFE_INTEGER /\
    forall t, captured = Some t ->
      exists check body, jr_validateTerminal input = Some check /\ check body (pd_settlement s) = Ok t
}.

(** ** Schemas *)

Inductive ExchangeOutcome : Type :=
| IN_FLIGHT | ACCOUNTING_PENDING | SETTLED | NOT_ADMITTED | ADMITTED_OUTCOME_UNKNOWN
| ADMITTED_EVIDENCE_EXPIRED | NO_RECORD.
#[export] Instance ExchangeOutcome_eq_dec : EqDecision ExchangeOutcome.
Proof. solve_decision. Defined.

Record ExchangeWire := mkExchange {
  xw_request_id : string;
  xw_job_id : option string;
  xw_outcome : ExchangeOutcome;
  xw_work_units : option json;
  xw_unit : option string;
  xw_settlement : option string;
  xw_non_admission : option string
}.

(** [z.union([z.number().int().nonnegative(), z.string().regex(UINT64)])] *)
Definition units_wire : decoder json := fun j =>
  match j with
  | JNum _ => (fun _ => j) <$> z_nonneg j
  | JStr s => if canonical_decimal s then Some j else None
  | _ => None
  end.

Definition exchangeWire : decoder ExchangeWire := z_object (fun f =>
  requestId ← field f "request_id" z_text;
  jobId ← opt_field f "job_id" z_text;
  outcome ← field f "outcome" (z_enum [("IN_FLIGHT", IN_FLIGHT); ("ACCOUNTING_PENDING", ACCOUNTING_PENDING);
    ("SETTLED", SETTLED); ("NOT_ADMITTED", NOT_ADMITTED); ("ADMITTED_OUTCOME_UNKNOWN", ADMITTED_OUTCOME_UNKNOWN);
    ("ADMITTED_EVIDENCE_EXPIRED", ADMITTED_EVIDENCE_EXPIRED); ("NO_RECORD", NO_RECORD)]);
  units ← opt_field f "work_units" units_wire;
  unit_ ← opt_field f "unit" z_text;
  settlement ← opt_field f "settlement" z_text;
  nonAdmission ← opt_field f "non_admission" z_text;
  Some (mkExchange requestId jobId outcome units unit_ settlement nonAdmission)).

(** ** Helpers *)

Definition job_requiredString (value : option json) : result exn string :=
  match value with
  | Some (JStr s) => if nonempty s then Ok s else Err job_invalidEvidence
  | _ => Err job_invalidEvidence
  end.
(** A number is printed first, so only a safe non-negative integer passes. *)
Definition job_safeUnits (value : option json) : result exn Z :=
  match value with
  | Some (JNum (NInt z)) => if safe_integer z && (0 <=? z) then Ok z else Err job_invalidEvidence
  | Some (JNum _) => Err job_invalidEvidence
  | _ => let? s := job_requiredString value in
         match safe_decimal s with Some z => Ok z | None => Err job_invalidEvidence end
  end.
Definition asRecord (value : option json) : result exn (list (string * json)) :=
  match value with Some (JObj f) => Ok f | _ => Err job_invalidEvidence end.

Definition validateRequest {T} (input : PaidJobRequest T) : result exn unit :=
  refuse_if ((sw_protocol (jr_route input) !=? JOB_PROTOCOL) ||
             match sw_job (jr_route input) with
             | Some j => negb (bool_decide (jr_transport input ∈ jx_transports j))
             | None => true
             end ||
             negb (nonempty (jr_requestId input)) || negb (nonempty (jr_contentType input)) ||
             negb (safe_integer (jr_estimatedUnits input)) || (jr_estimatedUnits input <? 1) ||
             match jr_maxTotalUnits input with
             | Some m => negb (safe_integer m) || (m <? jr_estimatedUnits input)
             | None => false
             end) (job_error "paid_job_request_invalid" false).

Definition unresolved (exchange : ExchangeWire) : result exn PaidJobUnresolved :=
  let with_job (k : string -> PaidJobUnresolved) :=
    match xw_job_id exchange with Some j => Ok (k j) | None => Err job_invalidEvidence end in
  match xw_outcome exchange with
  | IN_FLIGHT => with_job in_flight
  | ACCOUNTING_PENDING => with_job accounting_pending
  | NOT_ADMITTED =>
      match xw_non_admission exchange with Some e => Ok (not_admitted e) | None => Err job_invalidEvidence end
  | NO_RECORD => Ok no_record
  | ADMITTED_OUTCOME_UNKNOWN => with_job admitted_outcome_unknown
  | ADMITTED_EVIDENCE_EXPIRED => with_job admitted_evidence_expired
  | SETTLED => Err job_invalidEvidence
  end.

Section client.
Context `{Plat : Platform} `{Loc : LocClient} `{Net : Fetch} (accountingPollAttempts : Z).

Definition decodeSettlement (encoded : string) : result exn LocSettlementEnvelope :=
  match json_parse (base64_text encoded) ≫= settlementEnvelopeWire with
  | Some e => Ok e
  | None => Err (job_error "paid_job_settlement_invalid" false)
  end.

(** The claim a broker makes: [Omit<PaidJobSettlement, "outcome">]. *)
Record JobClaim := mkJobClaim {
  jc_brokerJobId : string;
  jc_actualUnits : Z;
  jc_workUnit : string;
  jc_envelope : LocSettlementEnvelope
}.

(** The disjunction of [validateSettlement], left to right: a missing field throws. *)
Definition claim_mismatch (opened : LocOpenJobResult) (claim : JobClaim) (payload quote : list (string * json))
    (actualUnits : Z) (outcome : string) : result exn bool :=
  let binding := lr_binding (jo_routeSnapshot opened) in
  let mismatch (r : result exn bool) (k : result exn bool) :=
    let? bad := r in if bad then Ok true else k in
  let differs (f : list (string * json)) (k expected : string) :=
    let? s := job_requiredString (assoc k f) in Ok (s !=? expected) in
  let units (k : string) := let? z := job_safeUnits (assoc k payload) in Ok (negb (z =? actualUnits)) in
  mismatch (Ok (outcome ==? "DEBIT_FAILED"))
  (mismatch (differs payload "request_id" (jo_requestId opened))
  (mismatch (differs payload "job_id" (jc_brokerJobId claim))
  (mismatch (differs payload "work_id" (jo_workId opened))
  (mismatch (differs payload "authorization_id" (jo_workId opened))
  (mismatch (differs payload "settlement_domain_id" (lr_settlementDomainId (jo_routeSnapshot opened)))
  (mismatch (differs payload "work_unit_name" (jo_workUnit opened))
  (mismatch (Ok (jc_workUnit claim !=? jo_workUnit opened))
  (mismatch (Ok (negb (actualUnits =? jc_actualUnits claim)))
  (mismatch (units "billed_units")
  (mismatch (units "debited_units")
  (mismatch (differs quote "quote_id" (rb_quoteId binding))
  (mismatch (differs quote "quote_version" (rb_quoteVersion binding))
  (mismatch (differs quote "constraint_fingerprint" (hexAsBase64 (rb_constraintFingerprint binding)))
  (differs quote "route_fingerprint" (hexAsBase64 (rb_routeFingerprint binding)))))))))))))))).

Definition validateSettlement (opened : LocOpenJobResult) (claim : JobClaim) : result exn PaidJobSettlement :=
  let payload := en_payload (jc_envelope claim) in
  let? quote := asRecord (assoc "accepted_quote_ref" payload) in
  let? actualUnits := job_safeUnits (assoc "actual_units" payload) in
  let? outcome := job_requiredString (assoc "outcome" payload) in
  let? bad := claim_mismatch opened claim payload quote actualUnits outcome in
  throw_if bad with job_error (if outcome ==? "DEBIT_FAILED" then "paid_job_debit_failed"
                               else "paid_job_settlement_identity_mismatch") false ;;
  Ok (mkJobSettlement (jc_brokerJobId claim) actualUnits (jc_workUnit claim) outcome (jc_envelope claim)).

(** [settle]: the check of the caller, if any, comes before LOC is told. *)
Definition settle {T} (opened : LocOpenJobResult) (claim : JobClaim)
    (validateTerminal : option (string -> PaidJobSettlement -> result exn T)) (brokerBody : string)
    : N (PaidJobSettled * option T) :=
  do! settlement <- mlift (validateSettlement opened claim);
  do! captured <- mlift match validateTerminal with
                        | Some v => let? t := v brokerBody settlement in Ok (Some t)
                        | None => Ok None
                        end;
  do! accounting <- settleJob (mkSettleInput (jo_operationId opened) (js_actualUnits settlement)
    (js_brokerJobId settlement) (js_workUnit settlement) (js_outcome settlement) (js_envelope settlement));
  run! mlift (refuse_if (sj_workId accounting !=? jo_workId opened) job_invalidEvidence);
  mret_ (mkSettled opened settlement accounting, captured).

Definition settleFromExchange {T} (opened : LocOpenJobResult) (exchange : ExchangeWire)
    (validateTerminal : option (string -> PaidJobSettlement -> result exn T)) (brokerBody : string)
    : N (PaidJobSettled * option T) :=
  match xw_job_id exchange, xw_work_units exchange, xw_unit exchange, xw_settlement exchange with
  | Some jobId, Some units, Some unit_, Some encoded =>
      do! actualUnits <- mlift (job_safeUnits (Some units));
      do! envelope <- mlift (decodeSettlement encoded);
      settle opened (mkJobClaim jobId actualUnits unit_ envelope) validateTerminal brokerBody
  | _, _, _, _ => mthrow job_invalidEvidence
  end.

Definition brokerLookupError (response : HttpResponse) : exn :=
  let code := get_header HEADER.ERROR response in
  job_error (code ?? "paid_job_recovery_failed")
    (vf_retryable (classifyV2Failure (code ?? "") (Some (rs_status response)))).

(** [response.json()] *)
Definition response_json (response : HttpResponse) : result exn json :=
  match rs_json response with Some j => Ok j | None => Err (PlainError "SyntaxError") end.

(** The loop of [pollSettlement]: [n] attempts are left.  The delay between two has no
    effect. *)
Fixpoint poll_loop {T} (n : nat) (opened : LocOpenJobResult) (brokerJobId : string)
    (validateTerminal : option (string -> PaidJobSettlement -> result exn T)) (brokerBody : string)
    : N (JobRecovery * option T) :=
  match n with
  | O => mret_ (RecoveredUnresolved opened (accounting_pending brokerJobId), None)
  | S n' =>
      do! response <- fetch (mkHttpRequest "GET"
        (strip_slash (jo_brokerUrl opened) +:+ "/v1/settlement/" +:+ encodeURIComponent brokerJobId) [] None);
      do! raw <- mlift (response_json response);
      if rs_status response =? 200 then
        do! f <- mlift (asRecord (Some raw));
        match exchangeWire (JObj (("outcome", JStr "SETTLED") :: ("request_id", JStr (jo_requestId opened)) :: f)) with
        | None => mthrow job_invalidEvidence
        | Some exchange =>
            do! x <- settleFromExchange opened exchange validateTerminal brokerBody;
            mret_ (RecoveredSettled (fst x), snd x)
        end
      else if negb (rs_status response =? 202) then mthrow (brokerLookupError response)
      else
        do! f <- mlift (asRecord (Some raw));
        match assoc "state" f with
        | Some (JStr s) =>
            if (s ==? "accounting_pending") || (s ==? "in_flight") || (s ==? "admitted")
            then poll_loop n' opened brokerJobId validateTerminal brokerBody
            else mthrow job_invalidEvidence
        | _ => mthrow job_invalidEvidence
        end
  end.

Definition pollSettlement {T} (opened : LocOpenJobResult) (brokerJobId : string)
    (validateTerminal : option (string -> PaidJobSettlement -> result exn T)) (brokerBody : string)
    : N (JobRecovery * option T) :=
  poll_loop (Z.to_nat (Z.max 1 accountingPollAttempts)) opened brokerJobId validateTerminal brokerBody.

(** The recovery of an exchange never validates the terminal message. *)
Definition recoverExchange (opened : LocOpenJobResult) : N JobRecovery :=
  do! response <- fetch (mkHttpRequest "GET"
    (strip_slash (jo_brokerUrl opened) +:+ "/v1/exchange/" +:+ encodeURIComponent (jo_requestId opened)) [] None);
  do! raw <- mlift (response_json response);
  match exchangeWire raw with
  | None => mthrow job_invalidEvidence
  | Some exchange =>
      run! mlift (refuse_if (xw_request_id exchange !=? jo_requestId opened) job_invalidEvidence);
      match xw_outcome exchange, xw_job_id exchange with
      | SETTLED, _ =>
          do! x <- settleFromExchange (T := unit) opened exchange None "";
          mret_ (RecoveredSettled (fst x))
      | ACCOUNTING_PENDING, Some jobId =>
          do! x <- pollSettlement (T := unit) opened jobId None ""; mret_ (fst x)
      | _, _ => do! u <- mlift (unresolved exchange); mret_ (RecoveredUnresolved opened u)
      end
  end.

Definition recover : LocOpenJobResult -> N JobRecovery := recoverExchange.

(** The error of a refused job: the code of the body, if it has one, else the header's. *)
Definition body_code (body : string) : option string :=
  let prop (k : string) (j : option json) := match j with Some (JObj f) => assoc k f | _ => None end in
  match json_parse body with
  | Some j =>
      let candidate := match prop "code" (prop "error" (Some j)) with
                       | Some JNull | None => prop "code" (Some j)
                       | Some c => Some c
                       end in
      match candidate with Some (JStr s) => if nonempty s then Some s else None | _ => None end
  | None => None
  end.
Definition brokerError (response : HttpResponse) : string * exn :=
  let code := body_code (rs_body response) ?? (get_header HEADER.ERROR response ?? "paid_job_broker_refused") in
  (code, job_error code (vf_retryable (classifyV2Failure code (Some (rs_status response))))).

(** ** execute *)

(** A result without a response of the broker. *)
Definition of_recovery (r : JobRecovery) : PaidJobResult :=
  match r with
  | RecoveredSettled s => JobSettled s None
  | RecoveredUnresolved opened u => JobUnresolved opened u
  end.

Definition job_headers {T} (input : PaidJobRequest T) (opened : LocOpenJobResult) (proof : string)
    : list (string * string) :=
  [(HEADER.CAPABILITY, lr_capability (jo_routeSnapshot opened));
   (HEADER.OFFERING, lr_offering (jo_routeSnapshot opened));
   (HEADER.AUTHORIZATION, jo_spendAuthorization opened); (HEADER.CALLER_PROOF, proof);
   (HEADER.PROTOCOL, JOB_PROTOCOL); (HEADER.REQUEST_ID, jo_requestId opened);
   ("Content-Type", jr_contentType input)] ++
  match jo_paymentEnvelope opened with
  | Some e => if nonempty e then [(HEADER.PAYMENT, e)] else []
  | None => []
  end ++
  if jr_transport input ==? stream then [("Accept", "text/event-stream")] else [].

(** The headers a settled answer carries. *)
Definition header_claim (response : HttpResponse) : option (string * string * string * string) :=
  match get_header HEADER.JOB_ID response, get_header HEADER.SETTLEMENT response,
        get_header HEADER.WORK_UNITS response, get_header HEADER.WORK_UNIT response with
  | Some j, Some e, Some n, Some u =>
      if nonempty j && nonempty e && nonempty n && nonempty u then Some (j, e, n, u) else None
  | _, _, _, _ => None
  end.

(** The exchange record must say that the job was settled at zero units. *)
Definition confirm_unused (opened : LocOpenJobResult) : N unit :=
  do! r <- recover opened;
  match r with
  | RecoveredSettled s =>
      mlift (refuse_if (negb (js_actualUnits (pd_settlement s) =? 0)) (job_error "paid_job_outcome_unknown" true))
  | RecoveredUnresolved _ _ => mthrow (job_error "paid_job_outcome_unknown" true)
  end.

(** A refused job: a capacity refusal is settled at zero units before it is reported. *)
Definition refused {T} (opened : LocOpenJobResult) (response : HttpResponse) : N (PaidJobResult * option T) :=
  let '(code, error) := brokerError response in
  if code ==? "capacity_exhausted" then
    run! match header_claim response with
         | Some (j, e, n, u) =>
             if n ==? "0" then
               do! envelope <- mlift (decodeSettlement e);
               do! _ <- settle (T := T) opened (mkJobClaim j 0 u envelope) None (rs_body response);
               mret_ tt
             else confirm_unused opened
         | None => confirm_unused opened
         end;
    mthrow error
  else if (code ==? "job_in_flight") || (code ==? "accounting_pending") then
    do! r <- recover opened; mret_ (of_recovery r, None)
  else mthrow error.

(** The answer of a job the broker ran. *)
Definition answered {T} (input : PaidJobRequest T) (opened : LocOpenJobResult) (response : HttpResponse)
    : N (PaidJobResult * option T) :=
  let finish (x : JobRecovery * option T) : N (PaidJobResult * option T) :=
    match fst x with
    | RecoveredSettled s =>
        mret_ (JobSettled s (Some (rs_status response, get_header "content-type" response, rs_body response)), snd x)
    | RecoveredUnresolved o u => mret_ (JobUnresolved o u, snd x)
    end in
  match header_claim response with
  | Some (j, e, n, u) =>
      do! units <- mlift (job_safeUnits (Some (JStr n)));
      do! envelope <- mlift (decodeSettlement e);
      do! x <- settle opened (mkJobClaim j units u envelope) (jr_validateTerminal input) (rs_body response);
      finish (RecoveredSettled (fst x), snd x)
  | None =>
      match get_header HEADER.JOB_ID response with
      | Some j =>
          if nonempty j then
            do! x <- pollSettlement opened j (jr_validateTerminal input) (rs_body response); finish x
          else do! r <- recover opened; finish (r, None)
      | None => do! r <- recover opened; finish (r, None)
      end
  end.

Definition execute {T} (input : PaidJobRequest T) : N (PaidJobResult * option T) :=
  run! mlift (validateRequest input);
  do! binding <- mlift (routeBindingFor (jr_route input));
  do! opened <- openJob (mkOpenJobInput (jr_requestId input) (sw_capability (jr_route input))
    (sw_offering (jr_route input)) (jr_transport input) (jr_estimatedUnits input) (jr_maxTotalUnits input)
    binding (sha256_hex (jr_body input)) caller_publicKey);
  do! proof <- mlift (signAuthorization (jo_spendAuthorization opened));
  do! headers <- mlift (new_headers (job_headers input opened proof));
  do! response <- mcatch (
      do! r <- fetch (mkHttpRequest "POST" (strip_slash (jo_brokerUrl opened) +:+ "/v1/job") headers
                        (Some (jr_body input)));
      mret_ (Some r))
    (fun _ => mret_ None);
  match response with
  | None =>
      do! r <- mcatch (recover opened) (fun _ => mthrow (job_error "paid_job_outcome_unknown" true));
      mret_ (of_recovery r, None)
  | Some response => if response_ok response then answered input opened response else refused opened response
  end.

End client.
