(* ===== verification/JobClientSpec.v ===== *)
(** * What a settled job guarantees

    Whatever the broker and LOC answer, on every path of the paid-job client (the
    answer itself, polling, recovery of a lost answer), a job is reported as settled
    only on evidence that agrees with what was opened. *)

From S2P Require Import Prelude Js Types Wire Http Outcome Interfaces RouteProtocol LocClient SampleNet.
From S2P Require Import LocClientSpec VodUsage AbrExchange JobClient.
Open Scope Z_scope.

(** ** Verified settlements *)

Section spec.
Context `{Plat : Platform} `{Loc : LocClient} `{Net : Fetch} (attempts : Z).

(** A settlement that agrees with the opened job in every field. *)
Record verified (opened : LocOpenJobResult) (st : PaidJobSettlement) : Prop := {
  ve_request : assoc "request_id" (en_payload (js_envelope st)) = Some (JStr (jo_requestId opened));
  ve_job : assoc "job_id" (en_payload (js_envelope st)) = Some (JStr (js_brokerJobId st));
  ve_work : assoc "work_id" (en_payload (js_envelope st)) = Some (JStr (jo_workId opened));
  ve_authorization : assoc "authorization_id" (en_payload (js_envelope st)) = Some (JStr (jo_workId opened));
  ve_domain : assoc "settlement_domain_id" (en_payload (js_envelope st)) =
    Some (JStr (lr_settlementDomainId (jo_routeSnapshot opened)));
  ve_unit : assoc "work_unit_name" (en_payload (js_envelope st)) = Some (JStr (js_workUnit st)) /\
    js_workUnit st = jo_workUnit opened;
  ve_units : forall k, k ∈ ["actual_units"; "billed_units"; "debited_units"] ->
    job_safeUnits (assoc k (en_payload (js_envelope st))) = Ok (js_actualUnits st);
  ve_outcome : assoc "outcome" (en_payload (js_envelope st)) = Some (JStr (js_outcome st)) /\
    js_outcome st <> "DEBIT_FAILED";
  ve_quote : exists quote, assoc "accepted_quote_ref" (en_payload (js_envelope st)) = Some (JObj quote) /\
    assoc "quote_id" quote = Some (JStr (rb_quoteId (lr_binding (jo_routeSnapshot opened)))) /\
    assoc "quote_version" quote = Some (JStr (rb_quoteVersion (lr_binding (jo_routeSnapshot opened)))) /\
    assoc "constraint_fingerprint" quote =
      Some (JStr (hexAsBase64 (rb_constraintFingerprint (lr_binding (jo_routeSnapshot opened))))) /\
    assoc "route_fingerprint" quote =
      Some (JStr (hexAsBase64 (rb_routeFingerprint (lr_binding (jo_routeSnapshot opened)))))
}.

Lemma job_requiredString_Ok v s : job_requiredString v = Ok s -> v = Some (JStr s) /\ nonempty s = true.
Proof.
  destruct v as [[| | |t| |]|]; try done. cbn. destruct (nonempty t) eqn:E; [|done]. by intros [= <-].
Qed.

Lemma job_safeUnits_bounds v z : job_safeUnits v = Ok z -> 0 <= z <= MAX_SAFE_INTEGER.
Proof.
  unfold job_safeUnits. destruct v as [j|]; [|done]. destruct j as [| |n|s| |]; try done.
  - destruct n as [x| | |]; try done. destruct (_ && _) eqn:E; [|done]. intros [= <-].
    unfold safe_integer in E. bools. lia.
  - rewrite result_bind_Ok. intros (t & _ & H). destruct (safe_decimal t) eqn:E; [|done]. injection H as <-.
    by apply safe_decimal_bounds in E.
Qed.

(** One step of the disjunction. *)
Lemma mismatch_false (r k : result exn bool) :
  (let? bad := r in if bad then Ok true else k) = Ok false -> r = Ok false /\ k = Ok false.
Proof. destruct r as [[]|]; cbn; try done. Qed.
Lemma differs_false f k expected :
  (let? s := job_requiredString (assoc k f) in Ok (s !=? expected)) = Ok false -> assoc k f = Some (JStr expected).
Proof.
  rewrite result_bind_Ok. intros (s & Hs & [= H]). apply job_requiredString_Ok in Hs as [-> _]. bools. by subst.
Qed.
Lemma units_false v z : (let? x := job_safeUnits v in Ok (negb (x =? z))) = Ok false -> job_safeUnits v = Ok z.
Proof. rewrite result_bind_Ok. intros (x & -> & [= H]). bools. by subst. Qed.

Lemma validateSettlement_Ok opened claim st :
  validateSettlement opened claim = Ok st -> verified opened st /\ js_brokerJobId st = jc_brokerJobId claim.
Proof.
  unfold validateSettlement. rewrite result_bind_Ok. intros (quote & Hq & H).
  apply result_bind_Ok in H as (units & Hu & H). apply result_bind_Ok in H as (outcome & Ho & H).
  apply result_bind_Ok in H as (bad & Hbad & H). apply result_bind_Ok in H as ([] & Hb & [= <-]).
  apply refuse_if_Ok in Hb as ->. unfold claim_mismatch in Hbad.
  repeat (apply mismatch_false in Hbad as [? Hbad]).
  repeat match goal with H : _ = Ok false |- _ => first [apply differs_false in H | apply units_false in H] end.
  apply job_requiredString_Ok in Ho as [Ho _].
  repeat match goal with H : Ok _ = Ok false |- _ => injection H as H end. bools. subst.
  split; [|done]. constructor; cbn [js_envelope js_brokerJobId js_workUnit js_actualUnits js_outcome]; try done.
  - split; [|done]. congruence.
  - intros k Hk. rewrite !elem_of_cons in Hk. destruct Hk as [->|[->|[->|Hk]]]; try done; [congruence..|].
    by apply elem_of_nil in Hk.
  - destruct (assoc "accepted_quote_ref" _) as [[]|]; try done. injection Hq as ->. eauto 10.
Qed.

(** ** The paths of the client *)

(** A settled job, with what the caller's check captured. *)
Definition settled_ok {T} (opened : LocOpenJobResult) (check : option (string -> PaidJobSettlement -> result exn T))
    (s : PaidJobSettled) (captured : option T) : Prop :=
  pd_opened s = opened /\ verified opened (pd_settlement s) /\ sj_workId (pd_accounting s) = jo_workId opened /\
  forall t, captured = Some t -> exists c body, check = Some c /\ c body (pd_settlement s) = Ok t.

Lemma settle_Ok {T} opened claim (check : option (string -> PaidJobSettlement -> result exn T)) body n x n' :
  settle opened claim check body n = (Ok x, n') -> settled_ok opened check (fst x) (snd x).
Proof.
  unfold settle. intros (st & n1 & H1 & H)%mbind_Ok. apply mlift_Ok in H1 as [Hst <-].
  apply mbind_Ok in H as (cap & n2 & H2 & H). apply mlift_Ok in H2 as [Hcap <-].
  apply mbind_Ok in H as (acc & n3 & _ & H). apply mbind_Ok in H as ([] & n4 & H4 & H).
  apply mlift_Ok in H4 as [H4 <-]. apply refuse_if_Ok in H4. bools. injection H as <- _.
  apply validateSettlement_Ok in Hst as [Hst _]. split_and!; try done. cbn [fst snd pd_settlement].
  intros t ->. destruct check as [c|]; [|done]. apply result_bind_Ok in Hcap as (t' & Ht & [= <-]). eauto.
Qed.

Lemma settleFromExchange_Ok {T} opened ex (check : option (string -> PaidJobSettlement -> result exn T)) body n x n' :
  settleFromExchange opened ex check body n = (Ok x, n') -> settled_ok opened check (fst x) (snd x).
Proof.
  unfold settleFromExchange. repeat (case_match; [|done]).
  intros (u & n1 & _ & Hu)%mbind_Ok. apply mbind_Ok in Hu as (e & n2 & _ & He). by apply settle_Ok in He.
Qed.

(** What a recovery may answer. *)
Definition recovery_ok {T} opened (check : option (string -> PaidJobSettlement -> result exn T)) (r : JobRecovery)
    (captured : option T) : Prop :=
  match r with
  | RecoveredSettled s => settled_ok opened check s captured
  | RecoveredUnresolved o _ => o = opened /\ captured = None
  end.

Lemma poll_loop_Ok {T} k opened job (check : option (string -> PaidJobSettlement -> result exn T)) body n x n' :
  poll_loop k opened job check body n = (Ok x, n') -> recovery_ok opened check (fst x) (snd x).
Proof.
  revert n. induction k as [|k IH]; intros n; cbn [poll_loop]; [by intros [= <- _]|].
  intros (rs & n1 & _ & H)%mbind_Ok. apply mbind_Ok in H as (raw & n2 & _ & H).
  destruct (rs_status rs =? 200).
  - apply mbind_Ok in H as (f & n3 & _ & H). destruct (exchangeWire _) as [ex|]; [|done].
    apply mbind_Ok in H as (y & n4 & Hy & [= <- _]). by apply settleFromExchange_Ok in Hy.
  - destruct (negb _); [done|]. apply mbind_Ok in H as (f & n3 & _ & H).
    destruct (assoc "state" f) as [[]|]; try done. destruct (_ || _); [by apply IH in H|done].
Qed.

Lemma recoverExchange_Ok {T} (check : option (string -> PaidJobSettlement -> result exn T)) opened n r n' :
  recoverExchange attempts opened n = (Ok r, n') -> recovery_ok opened check r None.
Proof.
  assert (forall s c, settled_ok (T := unit) opened None s c -> settled_ok opened check s None) as Hweak.
  { intros s c (H1 & H2 & H3 & _). split_and!; try done. }
  unfold recoverExchange. intros (rs & n1 & _ & H)%mbind_Ok. apply mbind_Ok in H as (raw & n2 & _ & H).
  destruct (exchangeWire raw) as [ex|]; [|done]. apply mbind_Ok in H as ([] & n3 & _ & H).
  destruct (xw_outcome ex); try by apply mbind_Ok in H as (u & n4 & Hu & [= <- _]).
  - destruct (xw_job_id ex) as [j|]; [|by apply mbind_Ok in H as (u & n4 & Hu & [= <- _])].
    apply mbind_Ok in H as (y & n4 & Hy & [= <- _]). apply poll_loop_Ok in Hy.
    destruct (fst y) as [s|o u]; [by eapply Hweak|]. by destruct Hy.
  - apply mbind_Ok in H as (y & n4 & Hy & [= <- _]). apply settleFromExchange_Ok in Hy. by eapply Hweak.
Qed.

Lemma of_recovery_Ok {T} opened (check : option (string -> PaidJobSettlement -> result exn T)) r s resp :
  recovery_ok opened check r None -> of_recovery r = JobSettled s resp -> settled_ok opened check s None.
Proof. destruct r as [s'|]; [|done]. by intros H [= <- _]. Qed.

Lemma refused_Ok {T} (check : option (string -> PaidJobSettlement -> result exn T)) opened rs n s resp captured n' :
  refused attempts opened rs n = (Ok (JobSettled s resp, captured), n') -> settled_ok opened check s captured.
Proof.
  unfold refused. destruct (brokerError rs) as [code error]. destruct (code ==? _).
  - by intros (? & ? & _ & ?)%mbind_Ok.
  - destruct (_ || _); [|done]. intros (r & n1 & Hr & H)%mbind_Ok. injection H as H <- _.
    by eapply of_recovery_Ok; [eapply recoverExchange_Ok|].
Qed.

Lemma answered_Ok {T} (input : PaidJobRequest T) opened rs n s resp captured n' :
  answered attempts input opened rs n = (Ok (JobSettled s resp, captured), n') ->
  settled_ok opened (jr_validateTerminal input) s captured.
Proof.
  unfold answered. destruct (header_claim rs) as [[[[j e] k] u]|].
  - intros (units & n1 & _ & H)%mbind_Ok. apply mbind_Ok in H as (env & n2 & _ & H).
    apply mbind_Ok in H as (x & n3 & Hx & H). injection H as <- _ <- _. by apply settle_Ok in Hx.
  - assert (forall r n1 n2, recoverExchange attempts opened n1 = (Ok r, n2) ->
      match r with RecoveredSettled s => settled_ok opened (jr_validateTerminal input) s None | _ => True end) as Hr.
    { intros r n1 n2 H. apply (recoverExchange_Ok (jr_validateTerminal input)) in H. by destruct r. }
    destruct (get_header HEADER.JOB_ID rs) as [j|]; [destruct (nonempty j)|].
    + intros (x & n1 & Hx & H)%mbind_Ok. apply poll_loop_Ok in Hx. destruct (fst x); [|done].
      by injection H as <- _ <- _.
    + intros (r & n1 & Hx & H)%mbind_Ok. apply Hr in Hx. cbn [fst snd] in H. destruct r; [|done].
      by injection H as <- _ <- _.
    + intros (r & n1 & Hx & H)%mbind_Ok. apply Hr in Hx. cbn [fst snd] in H. destruct r; [|done].
      by injection H as <- _ <- _.
Qed.

Lemma execute_verified {T} (input : PaidJobRequest T) n s resp captured n' :
  execute attempts input n = (Ok (JobSettled s resp, captured), n') ->
  settled_ok (pd_opened s) (jr_validateTerminal input) s captured.
Proof.
  unfold execute. intros ([] & n1 & _ & H)%mbind_Ok. apply mbind_Ok in H as (b & n2 & _ & H).
  apply mbind_Ok in H as (opened & n3 & _ & H). apply mbind_Ok in H as (proof & n4 & _ & H).
  apply mbind_Ok in H as (hs & n5 & _ & H). apply mbind_Ok in H as (rs & n6 & _ & H).
  assert (settled_ok opened (jr_validateTerminal input) s captured -> settled_ok (pd_opened s) (jr_validateTerminal input) s captured)
    as Hsame by (by intros (<- & ?)).
  apply Hsame. destruct rs as [rs|].
  - destruct (response_ok rs); [by apply answered_Ok in H|by eapply refused_Ok].
  - apply mbind_Ok in H as (r & n7 & Hr & H). injection H as H <- _.
    unfold mcatch in Hr. destruct (recover attempts opened n6) as [[r'|e] n8] eqn:Hrec; [|done].
    injection Hr as <- _. eapply of_recovery_Ok; [|done]. by eapply recoverExchange_Ok.
Qed.

(** C10: no job is settled on unverified evidence.  On every path of the client, through
    the answer, polling or the recovery of a lost answer, a job is reported settled only
    if the signed payload names the opened request, job, work, authorisation, settlement
    domain, unit and accepted quote, if the actual, billed and debited units agree, if
    the debit did not fail and LOC accounted for the opened work; and what the caller's
    check captured is its verdict on exactly that settlement. *)
Theorem settled_job_is_verified {T} (input : PaidJobRequest T) n s resp captured n' :
  execute attempts input n = (Ok (JobSettled s resp, captured), n') ->
  verified (pd_opened s) (pd_settlement s) /\
  sj_workId (pd_accounting s) = jo_workId (pd_opened s) /\
  0 <= js_actualUnits (pd_settlement s) <= MAX_SAFE_INTEGER /\
  forall t, captured = Some t ->
    exists check body, jr_validateTerminal input = Some check /\ check body (pd_settlement s) = Ok t.
Proof.
  intros H. apply execute_verified in H as (_ & Hv & Hw & Hc). split_and!; try done;
    eapply (job_safeUnits_bounds (assoc "actual_units" _)), (ve_units _ _ Hv "actual_units"); by constructor.
Qed.
End spec.

(** The client discharges the interface of the job services. *)
Definition createPaidJobClient `{Plat : Platform} `{Loc : LocClient} `{Net : Fetch} (attempts : Z) : PaidJobClient.
Proof.
  refine {| pj_execute T := execute attempts |}. intros T input n s resp captured n' H.
  apply execute_verified in H as (_ & Hv & _ & Hc). split; [|done].
  eapply (job_safeUnits_bounds (assoc "actual_units" _)), (ve_units _ _ Hv "actual_units"). by constructor.
Defined.

(** ** Witness *)

Definition sample_job_client : PaidJobClient := createPaidJobClient (Loc := job_loc) (Net := job_broker) 3.
Definition sample_job_request : PaidJobRequest string :=
  mkJobRequest "req-1" sample_job_route stream 400 (Some 500) "application/json" "{}" (Some (fun body _ => Ok body)).

(** A job that settles at 469 units. *)
Lemma settled_job_is_verified_witness :
  exists s resp captured n', execute (Loc := job_loc) (Net := job_broker) 3 sample_job_request net0 =
      (Ok (JobSettled s resp, captured), n') /\
    js_actualUnits (pd_settlement s) = 469 /\ verified (pd_opened s) (pd_settlement s).
Proof.
  destruct (execute (Loc := job_loc) (Net := job_broker) 3 sample_job_request net0) as [[[[s resp|o u] captured]|e] n'] eqn:H.
  - exists s, resp, captured, n'. split; [reflexivity|]. split; [vm_compute in H; by injection H as <-|].
    exact (proj1 (settled_job_is_verified (Loc := job_loc) (Net := job_broker) 3 _ _ _ _ _ _ H)).
  - exfalso. vm_compute in H. discriminate H.
  - exfalso. vm_compute in H. discriminate H.
Defined.
