(* ===== verification/AbrOrchestrator.v ===== *)
(** * Running a paid ABR job (engine/service/paidAbrOrchestrator.ts)

    The source is probed, the ladder funded, the outputs prepared, and the operation
    stored with the request it carries before the job is posted.  A settled job whose
    terminal message was validated completes the asset; every other outcome is recorded
    for the recovery of AbrRecovery.v. *)

From S2P Require Import Prelude Js Types Wire Http Interfaces RouteProtocol LocClient Database OperationRepo.
From S2P Require Import OperationLease MediaRepos Directory SessionStore VodUsage AbrExchange JobClient.
Open Scope Z_scope.

Record RenditionSpec := mkSpec {
  rp_resolution : Resolution;
  rp_codec : string;
  rp_bitrateKbps : Z
}.
Record Preset := mkPreset {
  pt_name : string;
  pt_renditions : list RenditionSpec;
  pt_audioOnly : bool
}.
Definition PRESETS : list (string * Preset) :=
  [("baseline", mkPreset "abr-mobile"
      [mkSpec p720 "h264" 2500; mkSpec p480 "h264" 1000; mkSpec p360 "h264" 600] false);
   ("standard", mkPreset "abr-standard"
      [mkSpec p1080 "h264" 5000; mkSpec p720 "h264" 2500; mkSpec p480 "h264" 1000; mkSpec p360 "h264" 600] false);
   ("premium", mkPreset "abr-premium"
      [mkSpec p2160 "h264" 15000; mkSpec p1080 "h264" 5000; mkSpec p720 "h264" 2500; mkSpec p480 "h264" 1000;
       mkSpec p360 "h264" 600] true)].

(** ** The storage and the probe the service is given *)

Record UploadOptions := mkUploadOptions {
  uo_assetId : string;
  uo_kind : string;
  uo_codec : option string;
  uo_resolution : option string;
  uo_filename : string;
  uo_contentType : string;
  uo_expiresInSec : Z
}.
(** [StorageProvider]: the two methods the service calls. *)
Class StorageProvider := {
  putSignedUploadUrl : UploadOptions -> N Artifact;
  getSignedDownloadUrl : string -> Z -> N string
}.
Record ProbeResult := mkProbe {
  pb_durationSec : jsnum;
  pb_width : Z;
  pb_height : Z;
  pb_frameRate : jsnum;
  pb_audioCodec : string;
  pb_videoCodec : string;
  pb_raw : json
}.
Class SourceProbe := { probe : string -> N ProbeResult }.

Record PaidAbrOrchestratorDeps := mkAbrDeps {
  ao_owner : string;
  ao_recoveryLeaseMs : Z
}.

(** ** Helpers *)

Definition abr_estimator_json (e : WorkUnitEstimator) : json :=
  JObj ([("id", JStr (est_id e)); ("rounding", JStr (est_rounding e)); ("exactness", JStr (est_exactness e))] ++
        opt_prop "fixtures" JStr (est_fixtures e) ++ opt_prop "package" JStr (est_package e)).

Definition abr_paidRoute (route : SelectedWorkerRoute) : result exn PaidRouteSnapshot :=
  let incomplete := PlainError "paid ABR route binding is incomplete" in
  match sw_quoteId route, sw_quoteVersion route, sw_constraintFingerprint route, sw_routeFingerprint route,
        sw_unitsPerPrice route, sw_settlementDomainId route with
  | Some q, Some v, Some c, Some r, Some u, Some d =>
      throw_if negb (nonempty q) || negb (nonempty v) || negb (nonempty u) || negb (nonempty d) with incomplete ;;
      match sw_settlementKeys route with
      | [] => Err (PlainError "paid ABR settlement key is missing")
      | key :: _ =>
          Ok {| route_protocol := "paid-job/v1"; route_transport := Some "stream";
                route_capability := sw_capability route; route_offering := sw_offering route;
                route_requestDescriptor := ABR_REQUEST_SCHEMA; route_responseDescriptor := Some ABR_RESULT_SCHEMA;
                route_workUnit := sw_workUnit route;
                route_estimator := abr_estimator_json <$> sw_workUnitEstimator route;
                route_pricePerUnitWei := sw_pricePerWorkUnitWei route; route_unitsPerPrice := u;
                route_quoteId := q; route_quoteVersion := v;
                route_constraintFingerprint := hex_string c; route_routeFingerprint := hex_string r;
                route_settlementDomainId := Some d; route_settlementKey := sk_publicKey key;
                route_raw := JObj [("broker_url", JStr (sw_workerUrl route));
                                   ("eth_address", JStr (sw_ethAddress route));
                                   ("protocol", JStr (sw_protocol route));
                                   ("settlement_domain_id", JStr d)] |}
      end
  | _, _, _, _, _, _ => Err incomplete
  end.

(** One rendition of a terminal message is at the coordinates it was given. *)
Definition at_coordinates (requested : list (string * RenditionOutput)) (r : AbrRendition) : bool :=
  match assoc (ab_name r) requested with
  | Some expected => (ab_playlist_uri r ==? af_artifact_uri (ro_playlist expected)) &&
                     (ab_stream_uri r ==? af_artifact_uri (ro_stream expected))
  | None => false
  end.

Definition validateOutputCoordinates (terminal : AbrTerminalResult) (manifestStorageKey : string)
    (requested : list (string * RenditionOutput)) : result exn unit :=
  refuse_if ((at_manifest_uri terminal !=? manifestStorageKey) ||
             negb (Nat.eqb (length (at_renditions terminal)) (length requested)) ||
             negb (forallb (at_coordinates requested) (at_renditions terminal)))
    (PlainError "terminal output coordinates do not match the request").

(** [Object[key] = value] on a literal object: an existing key keeps its place. *)
Definition set_output (k : string) (o : RenditionOutput) (l : list (string * RenditionOutput)) :=
  if is_present (assoc k l) then map (fun kv => if fst kv ==? k then (k, o) else kv) l else l ++ [(k, o)].

(** The renditions of a settled job, as the terminal record lists them. *)
Fixpoint completed_renditions (missing : exn) (rows : string -> option string) (durationSeconds : jsnum)
    (rs : list AbrRendition) : result exn (list TerminalRendition) :=
  match rs with
  | [] => Ok []
  | r :: rs' =>
      match ab_video r with
      | None => completed_renditions missing rows durationSeconds rs'
      | Some _ =>
          match rows (ab_name r) with
          | None => Err missing
          | Some id =>
              let? l := completed_renditions missing rows durationSeconds rs' in
              Ok (mkTerminalRendition id (ab_stream_uri r) durationSeconds :: l)
          end
      end
  end.

Section orchestrator.
Context `{Plat : Platform} `{Client : PaidJobClient} `{Store : StorageProvider} `{Prober : SourceProbe}
  `{Env : Environment} (deps : PaidAbrOrchestratorDeps).

Definition destinations (assetId name codec : string) : W RenditionOutput :=
  do! playlist <- call (putSignedUploadUrl (mkUploadOptions assetId "rendition" (Some codec) (Some name)
    "playlist.m3u8" "application/vnd.apple.mpegurl" 86400));
  do! stream_ <- call (putSignedUploadUrl (mkUploadOptions assetId "rendition" (Some codec) (Some name)
    "stream.mp4" "video/mp4" 86400));
  mret_ (mkOutput playlist stream_).

(** The rows and the destinations of the ladder. *)
Definition prepare_rendition (assetId : string)
    (acc : list (string * string) * list (string * RenditionOutput)) (spec : RenditionSpec)
    : W (list (string * string) * list (string * RenditionOutput)) :=
  let name := resolution_name (rp_resolution spec) in
  do! hex <- fresh_hex 12;
  do! row <- query (fun _ => Renditions.insert (mkRendition ("rend_" +:+ hex) assetId name (rp_codec spec)
    (rp_bitrateKbps spec) None "queued" None 0 None));
  do! out <- destinations assetId name "h264";
  mret_ (fst acc ++ [(name, rend_id row)], set_output name out (snd acc)).

Record PreparedJob := mkPreparedJob {
  pq_requestId : string;
  pq_operationId : string;
  pq_jobId : string;
  pq_claim : PaidOperationClaim;
  pq_encoded : EncodedRequest;
  pq_funding : AbrFundingEstimate;
  pq_probe : ProbeResult;
  pq_renditionRows : list (string * string);
  pq_manifestKey : string;
  pq_outputs : list (string * RenditionOutput)
}.

Definition new_job (asset : Asset) (operationId requestId sha fundedUnits : string) (route : PaidRouteSnapshot)
    : NewPaidOperation :=
  {| new_id := operationId; new_kind := job; new_apiKeyId := as_apiKeyId asset; new_assetId := Some (as_id asset);
     new_liveStreamId := None; new_requestId := "pending:" +:+ requestId; new_requestContentSha256 := sha;
     new_workId := "pending:" +:+ requestId; new_rotationGeneration := None; new_route := route;
     new_status := "opening"; new_fundedUnits := fundedUnits; new_sessionRuntime := None |}.

Definition job_secrets (encoded : EncodedRequest) (requestId : string) : PaidOperationSecrets :=
  mkSecrets (Some (ec_json encoded)) None None None None
    (Some (JObj [("idempotency_key", JStr requestId)])) None None None None.

(** Everything up to the stored operation. *)
Definition prepare_job (asset : Asset) (route : SelectedWorkerRoute) : W PreparedJob :=
  run! mlift (refuse_if ((sw_protocol route !=? "paid-job/v1") ||
                         match sw_job route with Some j => negb (bool_decide (stream ∈ jx_transports j)) | None => true end ||
                         (sw_workUnit route !=? ABR_WORK_UNIT) || negb (truthy (as_sourceUrl asset)))
                (PlainError "paid ABR route or source is invalid"));
  let source := as_sourceUrl asset ?? "" in
  do! sourceUrl <- (if startsWith "http" source then mret_ source else call (getSignedDownloadUrl source 86400));
  do! p <- call (probe sourceUrl);
  run! query (fun _ => Assets.updateStatus (as_id asset) "preparing"
    (Assets.mkFields (Some (pb_durationSec p)) (Some (pb_width p)) (Some (pb_height p)) (Some (pb_frameRate p))
       (Some (pb_audioCodec p)) (Some (pb_videoCodec p)) (Some (pb_raw p)) None None None None None));
  match assoc (as_encodingTier asset) PRESETS with
  | None => mthrow (PlainError "TypeError")
  | Some preset =>
      do! funding <- mlift (estimateAbrFunding (pb_durationSec p) (pb_frameRate p)
        ((fun s => mkTarget (rp_resolution s) None) <$> pt_renditions preset) (sw_workUnitEstimator route));
      do! rows <- mfold (prepare_rendition (as_id asset)) ([], []) (pt_renditions preset);
      do! outputs <- (if pt_audioOnly preset
                      then do! o <- destinations (as_id asset) "audio-only" "audio";
                           mret_ (set_output "audio-only" o (snd rows))
                      else mret_ (snd rows));
      do! manifest <- call (putSignedUploadUrl (mkUploadOptions (as_id asset) "manifest" None None "master.m3u8"
        "application/vnd.apple.mpegurl" 86400));
      do! requestId <- newRequestId;
      do! encoded <- mlift (encodeAbrExchangeRequest (request_json
        (mkAbrRequest (as_id asset) sourceUrl None (pt_name preset) manifest outputs)));
      do! operationId <- fresh_uuid;
      do! hex <- fresh_hex 12;
      do! startedAt <- now_;
      do! jobRow <- query (fun _ => EncodingJobs.insert (mkEncodingJob ("job_" +:+ hex) (as_id asset) None "encode"
        "running" (Some (sw_workerUrl route)) 0 None None None (Some startedAt) None 0));
      do! now <- now_;
      let lease := new_date (now + ao_recoveryLeaseMs deps) in
      do! snapshot <- mlift (abr_paidRoute route);
      do! operation <- query (fun n => insertWithSecrets (entropy_at n)
        (new_job asset operationId requestId (ec_sha256 encoded) (string_of_Z (fe_maxTotalUnits funding)) snapshot)
        (job_secrets encoded requestId) (ao_owner deps) lease);
      mret_ (mkPreparedJob requestId operationId (ej_id jobRow)
        (mkClaim (ao_owner deps) (op_lifecycleVersion operation) lease) encoded funding p (fst rows)
        (af_artifact_uri manifest) outputs)
  end.

(** The check the job client runs before LOC is told. *)
Definition check_terminal (workloadId sha : string) (maximumUnits : Z)
    (coordinates : AbrTerminalResult -> result exn unit) (body : string) (settlement : PaidJobSettlement)
    : result exn AbrTerminalResult :=
  let? t := validateAbrTerminal body settlement workloadId sha maximumUnits in
  let? _ := coordinates t in Ok t.

Definition result_opened (r : PaidJobResult) : LocOpenJobResult :=
  match r with JobSettled s _ => pd_opened s | JobUnresolved o _ => o end.
Definition result_kind (r : PaidJobResult) : string :=
  match r with JobSettled _ _ => "settled" | JobUnresolved _ u => unresolved_kind u end.
Definition result_job (r : PaidJobResult) : option string :=
  match r with JobSettled _ _ => None | JobUnresolved _ u => unresolved_job u end.

(** An outcome that does not complete the asset: recorded, to be looked at again. *)
Definition record_unfinished (operationId owner : string) (claim : PaidOperationClaim) (lost : exn) (retryMs : Z)
    (r : PaidJobResult) : W unit :=
  do! progressed <- query (fun _ => recordProgress operationId claim
    ((progress (result_kind r)) <| pr_requestId := Some (jo_requestId (result_opened r)) |>
       <| pr_locOperationId := Some (jo_operationId (result_opened r)) |>
       <| pr_brokerJobId := result_job r |>));
  match progressed with
  | None => mthrow lost
  | Some op =>
      do! now <- now_;
      match new_date (now + retryMs) with
      | InvalidDate => mthrow pg_error
      | DateMs at_ =>
          do! _ <- query (fun _ => recordRetry operationId
            (mkClaim owner (op_lifecycleVersion op) (cl_leaseExpiresAt claim))
            (mkRetry (result_kind r) at_ (result_kind r)));
          mret_ tt
      end
  end.

(** The evidence and the record of a completed job. *)
Definition job_evidence (s : PaidJobSettled) (response : option (Z * option string * string)) : PaidTerminalEvidence :=
  {| ev_httpStatus := match response with Some (st, _, _) => st | None => 200 end;
     ev_responseSha256 := sha256_hex match response with Some (_, _, b) => b | None => "" end;
     ev_workUnit := js_workUnit (pd_settlement s);
     ev_workUnits := string_of_Z (js_actualUnits (pd_settlement s));
     ev_protocolError := None;
     ev_claimSignature := Some (en_signature (js_envelope (pd_settlement s)));
     ev_closeReason := None |}.

Definition vod_terminal (asset : Asset) (jobId playbackId sequence : string) (s : PaidJobSettled)
    (response : option (Z * option string * string)) (terminalAt : Z) (renditions : list TerminalRendition)
    : VodTerminalValue :=
  mkVodTerminal (as_id asset) jobId playbackId (as_apiKeyId asset) (jo_operationId (pd_opened s))
    (js_brokerJobId (pd_settlement s)) (jo_requestId (pd_opened s)) (string_of_Z (js_actualUnits (pd_settlement s)))
    sequence (job_evidence s response) terminalAt renditions.

(** The job that is asked for. *)
Definition job_request (asset : Asset) (route : SelectedWorkerRoute) (p : PreparedJob)
    : PaidJobRequest AbrTerminalResult :=
  mkJobRequest (pq_requestId p) route stream (fe_estimatedUnits (pq_funding p))
    (Some (fe_maxTotalUnits (pq_funding p))) "application/json" (ec_body (pq_encoded p))
    (Some (check_terminal (as_id asset) (ec_sha256 (pq_encoded p)) (fe_maxTotalUnits (pq_funding p))
       (fun t => validateOutputCoordinates t (pq_manifestKey p) (pq_outputs p)))).

Definition runPaidAbrAsset (asset : Asset) (route : SelectedWorkerRoute) : W unit :=
  do! p <- prepare_job asset route;
  do! out <- call (pj_execute (job_request asset route p));
  match out with
  | (JobSettled s response, Some terminal) =>
      do! completed <- mlift (completed_renditions (PlainError "terminal rendition was not requested")
        (fun name => assoc name (pq_renditionRows p)) (pb_durationSec (pq_probe p)) (at_renditions terminal));
      run! mlift (refuse_if (negb (Nat.eqb (length completed) (length (pq_renditionRows p))))
                    (PlainError "terminal rendition set is incomplete"));
      do! terminalAt <- now_;
      do! hex <- fresh_hex 12;
      do! recorded <- query (fun _ => recordVodTerminal (pq_operationId p) (pq_claim p)
        (vod_terminal asset (pq_jobId p) ("pb_" +:+ hex) "0" s response terminalAt completed));
      mlift (refuse_if (negb recorded) (PlainError "paid ABR terminal fence was lost"))
  | (r, _) => record_unfinished (pq_operationId p) (ao_owner deps) (pq_claim p)
                (PlainError "paid ABR progress fence was lost") 1000 r
  end.

End orchestrator.
