(* ===== verification/AbrRecovery.v ===== *)
(** * Recovering paid ABR jobs (engine/service/paidAbrRecovery.ts)

    A sweep claims the job operations that are due and runs each again from its stored
    request, under its idempotency key. *)

From S2P Require Import Prelude Js Types Wire Http Interfaces RouteProtocol LocClient Database OperationRepo.
From S2P Require Import OperationLease MediaRepos Directory SessionStore VodUsage AbrExchange JobClient.
From S2P Require Import LiveReconciler AbrOrchestrator.
Open Scope Z_scope.

Record PaidAbrRecoveryDeps := mkAbrRecoveryDeps {
  av_owner : string;
  av_leaseMs : Z;
  av_retryMs : Z
}.

(** ** Helpers *)

Definition object (value : option json) : option (list (string * json)) :=
  match value with Some (JObj f) => Some f | _ => None end.
Definition string_prop (value : option (list (string * json))) (key : string) : result exn string :=
  match value ≫= assoc key with
  | Some (JStr s) => if nonempty s then Ok s else Err (PlainError "recoverable route is invalid")
  | _ => Err (PlainError "recoverable route is invalid")
  end.
Definition objectString (value : option json) (key : string) : option string :=
  match object value ≫= assoc key with
  | Some (JStr s) => if nonempty s then Some s else None
  | _ => None
  end.
(** [Number(value)] of the NUMERIC column's text. *)
Definition uint (value : string) : result exn Z :=
  match safe_decimal value with
  | Some z => if 1 <=? z then Ok z else Err (PlainError "recoverable funding is invalid")
  | None => Err (PlainError "recoverable funding is invalid")
  end.

(** The route of the stored operation, in the order of the object literal. *)
Definition routeFrom (operation : PaidOperation) : result exn SelectedWorkerRoute :=
  let route := op_route operation in
  let raw := object (Some (route_raw route)) in
  let? workerUrl := string_prop raw "broker_url" in
  let? ethAddress := string_prop raw "eth_address" in
  let? domain := match route_settlementDomainId route with
                 | Some d => Ok d
                 | None => string_prop raw "settlement_domain_id"
                 end in
  Ok {| sw_workerUrl := workerUrl; sw_ethAddress := ethAddress; sw_capability := route_capability route;
        sw_offering := route_offering route; sw_pricePerWorkUnitWei := route_pricePerUnitWei route;
        sw_workUnit := route_workUnit route; sw_protocol := "paid-job/v1";
        sw_job := Some (mkJobAxes [stream]); sw_session := None;
        sw_workUnitEstimator := cast_estimator (route_estimator route);
        sw_settlementKeys := [mkSettlementKey (route_settlementKey route) "" "" "0"];
        sw_settlementDomainId := Some domain; sw_unitsPerPrice := Some (route_unitsPerPrice route);
        sw_quoteId := Some (route_quoteId route); sw_quoteVersion := Some (route_quoteVersion route);
        sw_constraintFingerprint := Some (bytes_of_hex (route_constraintFingerprint route));
        sw_routeFingerprint := Some (bytes_of_hex (route_routeFingerprint route));
        sw_extra := None; sw_constraints := None |}.

Definition validateCoordinates (terminal : AbrTerminalResult) (request : AbrExchangeRequest) : result exn unit :=
  refuse_if ((at_manifest_uri terminal !=? af_artifact_uri (ar_manifest request)) ||
             negb (Nat.eqb (length (at_renditions terminal)) (length (ar_renditions request))) ||
             negb (forallb (at_coordinates (ar_renditions request)) (at_renditions terminal)))
    (PlainError "recovered terminal output coordinates drifted").

(** [new Map(renditions.map((value) => [value.resolution, value]))]: a later row of the
    same resolution replaces an earlier one. *)
Definition row_of (renditions : list Rendition) (name : string) : option string :=
  rend_id <$> last (filter (fun r => rend_resolution r = name) renditions).

(** A truthy number: neither absent, zero nor NaN. *)
Definition truthy_num (n : option jsnum) : option jsnum :=
  match n with Some (NInt 0) | Some NNaN | None => None | Some x => Some x end.

Section recovery.
Context `{Plat : Platform} `{Client : PaidJobClient} `{Env : Environment} (deps : PaidAbrRecoveryDeps).

Record RecoveredJob := mkRecoveredJob {
  rj_requestId : string;
  rj_encoded : EncodedRequest;
  rj_asset : Asset;
  rj_duration : jsnum;
  rj_renditions : list Rendition;
  rj_job : EncodingJob
}.

(** What is read before the job is run again. *)
Definition load_job (operation : PaidOperation) (assetId : string) (claim : PaidOperationClaim) : W RecoveredJob :=
  do! secrets <- query (fun _ => readSecrets (op_id operation) claim);
  match (secrets ≫= sec_openIntent), objectString (secrets ≫= sec_loc) "idempotency_key" with
  | Some openIntent, Some callerRequestId =>
      do! encoded <- mlift (encodeAbrExchangeRequest openIntent);
      run! mlift (refuse_if (ec_sha256 encoded !=? op_requestContentSha256 operation)
                    (PlainError "recoverable VOD intent hash drift"));
      do! asset <- query_read (Assets.byId assetId);
      match asset, truthy_num (asset ≫= as_durationSec) with
      | Some a, Some duration =>
          do! renditions <- query_read (Renditions.byAsset (as_id a));
          do! jobs <- query_read (EncodingJobs.byAsset (as_id a));
          match head (filter (fun j => ej_kind j = "encode" /\ ej_status j = "running") jobs) with
          | None => mthrow (PlainError "recoverable VOD encoding job is unavailable")
          | Some j => mret_ (mkRecoveredJob callerRequestId encoded a duration renditions j)
          end
      | _, _ => mthrow (PlainError "recoverable VOD asset probe is unavailable")
      end
  | _, _ => mthrow (PlainError "recoverable VOD intent is unavailable")
  end.

(** The job as it is asked for again: the whole funding is the estimate. *)
Definition recovered_request (operation : PaidOperation) (j : RecoveredJob) : result exn (PaidJobRequest AbrTerminalResult) :=
  let? route := routeFrom operation in
  let? units := uint (op_fundedUnits operation) in
  Ok (mkJobRequest (rj_requestId j) route stream units (Some units) "application/json" (ec_body (rj_encoded j))
        (Some (check_terminal (as_id (rj_asset j)) (ec_sha256 (rj_encoded j)) units
                 (fun t => validateCoordinates t (ec_request (rj_encoded j)))))).

(** An error of the job client, of its input or of the check: the operation is retried,
    or encumbered when the client says that retrying is pointless. *)
Definition record_error (operation : PaidOperation) (claim : PaidOperationClaim) (error : exn) : W unit :=
  let '(status, code) := match error with
                         | PaidJobClientError c retryable => (if retryable then "recovery_retry" else "encumbered", c)
                         | _ => ("recovery_retry", "paid_job_recovery_failed")
                         end in
  do! now <- now_;
  match new_date (now + av_retryMs deps) with
  | InvalidDate => mthrow pg_error
  | DateMs at_ =>
      do! recorded <- query (fun _ => recordRetry (op_id operation) claim (mkRetry status at_ code));
      match recorded with
      | None => mthrow (PlainError "VOD recovery error fence was lost")
      | Some _ => mret_ tt
      end
  end.

(** [try { result = await execute(...) } catch (error) { ...; return; }] *)
Definition execute_again (operation : PaidOperation) (claim : PaidOperationClaim) (j : RecoveredJob)
    : W (option (PaidJobResult * option AbrTerminalResult)) :=
  mcatch (do! request <- mlift (recovered_request operation j);
          do! out <- call (pj_execute request); mret_ (Some out))
    (fun error => do! _ <- record_error operation claim error; mret_ None).

Definition recoverOne (operation : PaidOperation) : W unit :=
  match op_assetId operation, op_recoveryOwner operation, op_recoveryLeaseExpiresAt operation with
  | Some assetId, Some owner, Some lease =>
      run! mlift (refuse_if (negb (nonempty assetId) || negb (nonempty owner))
                    (PlainError "recoverable VOD operation is incomplete"));
      let claim := mkClaim owner (op_lifecycleVersion operation) (DateMs lease) in
      do! j <- load_job operation assetId claim;
      do! out <- execute_again operation claim j;
      match out with
      | None => mret_ tt
      | Some (JobSettled s response, Some terminal) =>
          do! completed <- mlift (completed_renditions (PlainError "recovered terminal rendition was not requested")
            (row_of (rj_renditions j)) (rj_duration j) (at_renditions terminal));
          run! mlift (refuse_if (negb (Nat.eqb (length completed) (length (rj_renditions j))))
                        (PlainError "recovered terminal rendition set is incomplete"));
          do! hex <- fresh_hex 12;
          do! terminalAt <- now_;
          do! recorded <- query (fun _ => recordVodTerminal (op_id operation) claim
            (vod_terminal (rj_asset j) (ej_id (rj_job j)) ("pb_" +:+ hex) (op_settlementSequence operation) s response
               terminalAt completed));
          mlift (refuse_if (negb recorded) (PlainError "VOD recovery terminal fence was lost"))
      | Some (r, _) =>
          record_unfinished (op_id operation) (av_owner deps) claim
            (PlainError "VOD recovery progress fence was lost") (av_retryMs deps) r
      end
  | _, _, _ => mthrow (PlainError "recoverable VOD operation is incomplete")
  end.

(** The sweep: an error of one operation is logged and does not stop the others. *)
Fixpoint recover_all (ops : list PaidOperation) : W unit :=
  match ops with
  | [] => mret_ tt
  | op :: ops' =>
      run! mcatch (recoverOne op) (fun _ => mret_ tt);
      recover_all ops'
  end.

Definition recoverPaidAbrOperations (limit : Z) : W Z :=
  do! now <- now_;
  do! operations <- query (fun n => claimRecoverable (locks n) job (av_owner deps) now
    (new_date (now + av_leaseMs deps)) limit);
  run! recover_all operations;
  mret_ (Z.of_nat (length operations)).

End recovery.
