(* ===== verification/Preserve.v ===== *)
(** * What a computation leaves alone

    [preserves P m]: whatever happens, a property [P] of the tables that held before [m]
    holds after it, when the rest of the system keeps it too.  The statements on the
    operation tables keep every property of the media tables. *)

From S2P Require Import Prelude Js Types Wire Http Interfaces Database OperationRepo Samples.
From S2P Require Import OperationLease MediaRepos Directory SessionStore.
Open Scope Z_scope.

Section generic.
Context {S : Type} (tables : S -> db) (P : db -> Prop).

Definition preserves {A} (m : M S exn A) : Prop := forall s, P (tables s) -> P (tables (snd (m s))).

Lemma preserves_ret {A} (a : A) : preserves (mret_ a).
Proof. by intros s. Qed.
Lemma preserves_throw {A} e : preserves (A := A) (mthrow e).
Proof. by intros s. Qed.
Lemma preserves_lift {A} (x : result exn A) : preserves (mlift x).
Proof. by intros s. Qed.
Lemma preserves_get {A} (f : S -> A) : preserves (mget f).
Proof. by intros s. Qed.
Lemma preserves_bind {A B} (m : M S exn A) (k : A -> M S exn B) :
  preserves m -> (forall a, preserves (k a)) -> preserves (mbind_ m k).
Proof.
  intros Hm Hk s Hs. unfold mbind_. specialize (Hm s Hs). destruct (m s) as [[a|e] s']; [|done]. by apply Hk.
Qed.
Lemma preserves_catch {A} (m : M S exn A) h : preserves m -> (forall e, preserves (h e)) -> preserves (mcatch m h).
Proof.
  intros Hm Hk s Hs. unfold mcatch. specialize (Hm s Hs). destruct (m s) as [[a|e] s']; [done|]. by apply Hk.
Qed.
Lemma preserves_finally {A} (m : M S exn A) f : preserves m -> preserves f -> preserves (mfinally m f).
Proof.
  intros Hm Hf s Hs. unfold mfinally. specialize (Hm s Hs). destruct (m s) as [r s']. specialize (Hf s' Hm).
  by destruct (f s') as [[u|e] s''].
Qed.
Lemma preserves_fold {A B} (f : B -> A -> M S exn B) b l :
  (forall b a, preserves (f b a)) -> preserves (mfold f b l).
Proof.
  intros Hf. revert b. induction l as [|x l IH]; intros b; cbn; [apply preserves_ret|].
  apply preserves_bind; [apply Hf|done].
Qed.
End generic.

(** Two databases with the same media tables. *)
Definition same_media (d d' : db) : Prop :=
  db_live_streams d' = db_live_streams d /\ db_playback_ids d' = db_playback_ids d /\
  db_renditions d' = db_renditions d /\ db_encoding_jobs d' = db_encoding_jobs d /\
  db_assets d' = db_assets d /\ db_uploads d' = db_uploads d.
Lemma same_media_refl d : same_media d d.
Proof. done. Qed.

Lemma store_row_media r d d' : store_row r d = Ok d' -> same_media d d'.
Proof. unfold store_row. destruct (_ && _); [|done]. by intros [= <-]. Qed.
Lemma update_claimed_media id claim p f d o d' : update_claimed id claim p f d = Ok (o, d') -> same_media d d'.
Proof.
  unfold update_claimed. rewrite result_bind_Ok. intros (v & _ & H).
  destruct (_ !! id) as [r|]; [|by injection H as <- <-]. destruct (_ && _); [|by injection H as <- <-].
  apply result_bind_Ok in H as (d1 & Hst & [= <- <-]). by eapply store_row_media.
Qed.
Lemma progress_media id claim v d o d' : recordProgress id claim v d = Ok (o, d') -> same_media d d'.
Proof.
  unfold recordProgress. rewrite result_bind_Ok. intros (_ & _ & H). apply result_bind_Ok in H as (nums & _ & H).
  apply result_bind_Ok in H as ([o1 d1] & H & [= <- <-]). by eapply update_claimed_media.
Qed.
Lemma retry_media id claim v d o d' : recordRetry id claim v d = Ok (o, d') -> same_media d d'.
Proof.
  unfold recordRetry. rewrite result_bind_Ok. intros (_ & _ & H).
  apply result_bind_Ok in H as ([o1 d1] & H & [= <- <-]). by eapply update_claimed_media.
Qed.
Lemma update_rows_media f rs d out d' : update_rows f rs d = Ok (out, d') -> same_media d d'.
Proof.
  revert d out d'. induction rs as [|r rs IH]; intros d out d'; cbn; [by intros [= _ <-]|].
  intros (d1 & H1 & H)%result_bind_Ok. apply result_bind_Ok in H as ([o1 d2] & H2 & [= _ <-]).
  destruct (store_row_media _ _ _ H1) as (?&?&?&?&?&?), (IH _ _ _ H2) as (?&?&?&?&?&?). split_and!; congruence.
Qed.
Lemma claimRecoverable_media locked kind owner now l limit d o d' :
  claimRecoverable locked kind owner now l limit d = Ok (o, d') -> same_media d d'.
Proof.
  unfold claimRecoverable. intros (_ & _ & H)%result_bind_Ok. apply guard_Ok in H as [_ H].
  destruct l as [lease|]; [|done]. apply result_bind_Ok in H as ([o1 d1] & H & [= _ <-]). by eapply update_rows_media.
Qed.
Lemma release_media id claim d o d' : releaseClaim id claim d = Ok (o, d') -> same_media d d'.
Proof.
  unfold releaseClaim. rewrite result_bind_Ok. intros (_ & _ & H).
  apply result_bind_Ok in H as ([o1 d1] & H & [= <- <-]). by eapply update_claimed_media.
Qed.
Lemma claim_media locked stream_ owner now l d o d' :
  claimSessionByLiveStreamId locked stream_ owner now l d = Ok (o, d') -> same_media d d'.
Proof.
  unfold claimSessionByLiveStreamId. rewrite result_bind_Ok. intros (_ & _ & H). apply guard_Ok in H as [_ H].
  destruct l as [lease|]; [|done]. destruct (head _) as [r|]; [|by injection H as <- <-].
  apply result_bind_Ok in H as (d1 & Hst & [= <- <-]). by eapply store_row_media.
Qed.
Lemma winddown_media id reason d o d' : requestSessionWinddown id reason d = Ok (o, d') -> same_media d d'.
Proof.
  unfold requestSessionWinddown. intros H. apply guard_Ok in H as [_ H]. destruct (head _) as [r|]; [|by injection H as <- <-].
  apply result_bind_Ok in H as (d1 & Hst & [= <- <-]). by eapply store_row_media.
Qed.

Section cipher.
Context `{Cipher : OperationSecretCipher entropy}.
Lemma insertWithSecrets_media rnd v s owner l d o d' : insertWithSecrets rnd v s owner l d = Ok (o, d') -> same_media d d'.
Proof.
  unfold insertWithSecrets. rewrite result_bind_Ok. intros (_ & _ & H). apply result_bind_Ok in H as (r & _ & H).
  apply result_bind_Ok in H as (d1 & Hst & [= <- <-]). unfold insert_row in Hst. destruct (insert_allowed r d); [|done].
  by apply store_row_media in Hst.
Qed.
Lemma putSecrets_media rnd id claim v d o d' : putSecrets rnd id claim v d = Ok (o, d') -> same_media d d'.
Proof.
  unfold putSecrets. rewrite result_bind_Ok. intros (_ & _ & H). apply result_bind_Ok in H as (live & _ & H).
  destruct live; by injection H as <- <-.
Qed.
Lemma readSecrets_media id claim d o d' : readSecrets id claim d = Ok (o, d') -> same_media d d'.
Proof. intros ->%readSecrets_pure. apply same_media_refl. Qed.
End cipher.

(** A property of the media tables. *)
Class MediaProperty (P : db -> Prop) : Prop := media_property : forall d d', same_media d d' -> P d -> P d'.

Section world.
Context `{Env : Environment} (options : PaidSessionStoreOptions) (P : db -> Prop) `{Media : !MediaProperty P}.
Context (others_P : forall n d, P d -> P (others n d)).

Lemma preserves_query {A} (t : nat -> tx A) :
  (forall n d o d', t n d = Ok (o, d') -> P d -> P d') -> preserves w_db P (query t).
Proof.
  intros Ht w Hw. unfold query, exec. destruct (t _ _) as [[o d']|e] eqn:E; cbn.
  - eapply Ht; [exact E|by apply others_P].
  - by apply others_P.
Qed.
Lemma preserves_operations {A} (t : nat -> tx A) :
  (forall n d o d', t n d = Ok (o, d') -> same_media d d') -> preserves w_db P (query t).
Proof. intros Ht. apply preserves_query. intros n d o d' H Hd. eapply media_property; [|exact Hd]. by eapply Ht. Qed.
Lemma preserves_read {A} (f : db -> A) : preserves w_db P (query_read f).
Proof. unfold query_read. apply preserves_query. by intros n d o d' [= _ <-]. Qed.
(** What was read is of tables that had the property. *)
Lemma preserves_read_bind {A B} (f : db -> A) (k : A -> W B) :
  (forall d, P d -> preserves w_db P (k (f d))) -> preserves w_db P (mbind_ (query_read f) k).
Proof. intros Hk w Hw. unfold mbind_, query_read, query, exec. apply Hk; by apply others_P. Qed.
Lemma preserves_now : preserves w_db P now_.
Proof. by intros w. Qed.
Lemma preserves_call {A} (m : N A) : preserves w_db P (call m).
Proof. intros w Hw. unfold call. by destruct (m (w_net w)). Qed.
Lemma preserves_hex n : preserves w_db P (fresh_hex n).
Proof. by intros w. Qed.
Lemma preserves_uuid : preserves w_db P fresh_uuid.
Proof. by intros w. Qed.
Lemma preserves_directory f : preserves w_db P (directory f).
Proof. by intros w. Qed.
Lemma preserves_requestId : preserves w_db P newRequestId.
Proof. unfold newRequestId. apply preserves_bind; [apply preserves_hex|]. intros h. apply preserves_ret. Qed.

Lemma preserves_own_opt o : preserves w_db P (own_opt options o).
Proof.
  unfold own_opt. destruct o; [|apply preserves_ret]. apply preserves_bind; [apply preserves_lift|]. intros a.
  apply preserves_ret.
Qed.
Lemma preserves_claim id : preserves w_db P (store_claimByLiveStreamId options id).
Proof.
  unfold store_claimByLiveStreamId. apply preserves_bind; [apply preserves_now|]. intros now.
  apply preserves_bind; [|apply preserves_own_opt]. apply preserves_operations. intros n d o d'. apply claim_media.
Qed.
Lemma preserves_progress o p : preserves w_db P (store_recordProgress options o p).
Proof.
  unfold store_recordProgress. apply preserves_bind; [|apply preserves_own_opt]. apply preserves_operations.
  intros n d o1 d'. apply progress_media.
Qed.
Lemma preserves_release o : preserves w_db P (store_release o).
Proof. unfold store_release. apply preserves_operations. intros n d o1 d'. apply release_media. Qed.
Lemma preserves_secrets o : preserves w_db P (store_readSecrets o).
Proof. unfold store_readSecrets. apply preserves_operations. intros n d o1 d'. apply readSecrets_media. Qed.
Lemma preserves_putSecrets o s : preserves w_db P (store_putSecrets o s).
Proof. unfold store_putSecrets. apply preserves_operations. intros n d o1 d'. apply putSecrets_media. Qed.
Lemma preserves_winddown id reason : preserves w_db P (store_requestWinddown id reason).
Proof. unfold store_requestWinddown. apply preserves_operations. intros n d o1 d'. apply winddown_media. Qed.
Lemma preserves_create v s : preserves w_db P (store_create options v s).
Proof.
  unfold store_create. apply preserves_bind; [apply preserves_now|]. intros now.
  apply preserves_bind; [apply preserves_lift|]. intros _. apply preserves_bind; [|intros op; apply preserves_lift].
  apply preserves_operations. intros n d o d'. apply insertWithSecrets_media.
Qed.
End world.

(** Breaks a goal [preserves P m] along the structure of [m]; what is left are the
    statements on the media tables. *)
Ltac preserving :=
  repeat match goal with
  | H : preserves _ _ ?m |- preserves _ _ ?m => exact H
  | |- preserves _ _ (mret_ _) => apply preserves_ret
  | |- preserves _ _ (mthrow _) => apply preserves_throw
  | |- preserves _ _ (mlift _) => apply preserves_lift
  | |- preserves _ _ (mget _) => apply preserves_get
  | |- preserves _ _ now_ => apply preserves_now
  | |- preserves _ _ (call _) => apply preserves_call
  | |- preserves _ _ (fresh_hex _) => apply preserves_hex
  | |- preserves _ _ fresh_uuid => apply preserves_uuid
  | |- preserves _ _ (directory _) => apply preserves_directory
  | |- preserves _ _ newRequestId => apply preserves_requestId
  | |- preserves _ _ (store_claimByLiveStreamId _ _) => apply preserves_claim; [typeclasses eauto|done]
  | |- preserves _ _ (store_recordProgress _ _ _) => apply preserves_progress; [typeclasses eauto|done]
  | |- preserves _ _ (store_release _) => apply preserves_release; [typeclasses eauto|done]
  | |- preserves _ _ (store_readSecrets _) => apply preserves_secrets; [typeclasses eauto|done]
  | |- preserves _ _ (store_putSecrets _ _) => apply preserves_putSecrets; [typeclasses eauto|done]
  | |- preserves _ _ (store_requestWinddown _ _) => apply preserves_winddown; [typeclasses eauto|done]
  | |- preserves _ _ (store_create _ _ _) => apply preserves_create; [typeclasses eauto|done]
  | |- preserves _ _ (query_read _) => by apply preserves_read
  | |- preserves _ _ (mbind_ _ _) => apply preserves_bind; [|intros ?]
  | |- preserves _ _ (mcatch _ _) => apply preserves_catch; [|intros ?]
  | |- preserves _ _ (mfold _ _ _) => apply preserves_fold; intros ? ?
  | |- preserves _ _ (match ?x with _ => _ end) => destruct x
  end.
