(* ===== verification/AbrSpec.v ===== *)
(** * Properties of the ABR job services

    First the concrete job of the witnesses: a storage that signs every upload, a probe
    that sees ten seconds at thirty frames per second, and an asset of the baseline tier,
    run in the quiet environment of SampleWorld.v against the ledger and broker of
    SampleNet.v.  Then the parts: what a settled delivery is, the rows of a ladder, the
    request a recovery sends, the effects of a run, and where an asset is completed.  Last
    the two properties of a completed asset, over whole runs and whole recovery sweeps. *)

From S2P Require Import Prelude Js Types Wire Http Interfaces RouteProtocol LocClient SampleNet Database.
From S2P Require Import OperationRepo Samples OperationLease MediaRepos Directory SessionStore SampleWorld VodUsage.
From S2P Require Import AbrExchange JobClient JobClientSpec AbrOrchestrator AbrRecovery.
From S2P Require Import LocClientSpec OperationSpec LiveReconciler LiveReconcilerSpec LiveOpenSpec Outcome Preserve.
Open Scope Z_scope.

#[export] Instance sample_paid_job_client : PaidJobClient := sample_job_client.
#[export] Instance sample_storage : StorageProvider := {|
  putSignedUploadUrl := fun o n =>
    (Ok (sample_artifact (match uo_resolution o with Some r => r +:+ "/" | None => "" end +:+ uo_filename o)), n);
  getSignedDownloadUrl := fun key _ n => (Ok ("http://download/" +:+ key), n)
|}.
#[export] Instance sample_probe : SourceProbe := {|
  probe := fun _ n => (Ok (mkProbe (NInt 10) 1280 720 (NInt 30) "aac" "h264" JNull), n)
|}.

Definition sample_abr_deps : PaidAbrOrchestratorDeps := mkAbrDeps "alice" 100.
Definition sample_recovery_deps : PaidAbrRecoveryDeps := mkAbrRecoveryDeps "alice" 100 1000.
Definition sourced_asset : Asset := sample_asset <| as_sourceUrl := Some "http://source" |>.

Definition abr_world : world := live_world (empty_db <| db_renditions := ∅ |>).

Definition finished_world : world := snd (runPaidAbrAsset sample_abr_deps sourced_asset sample_job_route abr_world).

(** The whole run of a good job: the asset is ready and the operation settled. *)
Example abr_run_completes :
  fst (runPaidAbrAsset sample_abr_deps sourced_asset sample_job_route abr_world) = Ok tt /\
  as_status <$> db_assets (w_db finished_world) !! "asset" = Some "ready".
Proof. vm_compute. split; reflexivity. Qed.

(** ** What a completed asset stands for *)

Section delivery.
Context `{Plat : Platform} `{Client : PaidJobClient}.

Lemma coordinates_at requested r :
  at_coordinates requested r = true ->
  exists o, assoc (ab_name r) requested = Some o /\ ab_playlist_uri r = af_artifact_uri (ro_playlist o) /\
    ab_stream_uri r = af_artifact_uri (ro_stream o).
Proof. unfold at_coordinates. destruct (assoc _ _) as [o|]; [|done]. intros H. bools. eauto. Qed.

Lemma validateOutputCoordinates_Ok t m requested :
  validateOutputCoordinates t m requested = Ok tt ->
  at_manifest_uri t = m /\ length (at_renditions t) = length requested /\
  forall r, r ∈ at_renditions t -> exists o, assoc (ab_name r) requested = Some o /\
    ab_playlist_uri r = af_artifact_uri (ro_playlist o) /\ ab_stream_uri r = af_artifact_uri (ro_stream o).
Proof.
  unfold validateOutputCoordinates. rewrite refuse_if_Ok. intros H. bools. split_and!; [done|by apply Nat.eqb_eq|].
  intros r Hr. apply coordinates_at. by apply (proj1 (forallb_forall _ _) H0), list_elem_of_In.
Qed.

(** A delivery as it was asked for and is paid for: the terminal message names the asset and
    the digest of the request, its units are those of the signed settlement, in frame
    megapixels and within the maximum, and exactly the delivered pixels rounded up; the
    manifest and every rendition are at the coordinates the request gave. *)
Definition delivered_as_asked (asset_ sha : string) (maximum : Z) (manifest : string)
    (outputs : list (string * RenditionOutput)) (s : PaidJobSettled) (t : AbrTerminalResult) : Prop :=
  (at_workload_id t = asset_ /\ at_request_sha256 t = sha /\
   at_units t = js_actualUnits (pd_settlement s) /\ js_workUnit (pd_settlement s) = ABR_WORK_UNIT /\
   at_units t <= maximum /\
   1000000 * (at_units t - 1) < sum_pixels (delivered <$> at_renditions t) <= 1000000 * at_units t) /\
  at_manifest_uri t = manifest /\ length (at_renditions t) = length outputs /\
  forall r, r ∈ at_renditions t -> exists o, assoc (ab_name r) outputs = Some o /\
    ab_playlist_uri r = af_artifact_uri (ro_playlist o) /\ ab_stream_uri r = af_artifact_uri (ro_stream o).

Lemma settled_delivery request asset_ sha maximum coordinates manifest outputs n s resp t n' :
  jr_validateTerminal request = Some (check_terminal asset_ sha maximum coordinates) ->
  (coordinates t = Ok tt -> validateOutputCoordinates t manifest outputs = Ok tt) ->
  pj_execute request n = (Ok (JobSettled s resp, Some t), n') ->
  delivered_as_asked asset_ sha maximum manifest outputs s t.
Proof.
  intros Hv Hco H. destruct (pj_settled _ _ _ _ _ _ H) as [_ Hc].
  destruct (Hc t eq_refl) as (check & body & Hcheck & Hok). rewrite Hv in Hcheck. injection Hcheck as <-.
  unfold check_terminal in Hok.
  apply result_bind_Ok in Hok as (t' & Ht & Hok). apply result_bind_Ok in Hok as ([] & Hco' & [= ->]).
  split; [by apply validateAbrTerminal_Ok in Ht|by apply validateOutputCoordinates_Ok, Hco].
Qed.
End delivery.

(** ** The ladder of a completed asset *)

(** What is completed: the video renditions, in order, each for the row of its name. *)
Lemma completed_renditions_spec missing rows dur rs l :
  completed_renditions missing rows dur rs = Ok l ->
  Forall (fun x => exists r, r ∈ rs /\ rows (ab_name r) = Some (tr_renditionId x) /\
                     tr_storageKey x = ab_stream_uri r /\ tr_durationSeconds x = dur) l.
Proof.
  revert l. induction rs as [|r rs IH]; intros l; cbn [completed_renditions]; [by intros [= <-]|].
  assert (forall l, completed_renditions missing rows dur rs = Ok l ->
    Forall (fun x => exists r', r' ∈ r :: rs /\ rows (ab_name r') = Some (tr_renditionId x) /\
                     tr_storageKey x = ab_stream_uri r' /\ tr_durationSeconds x = dur) l) as IH'.
  { intros l' H. eapply Forall_impl; [by apply IH|]. intros x (r' & Hr' & ?). exists r'. split; [by right|done]. }
  destruct (ab_video r); [|by apply IH']. destruct (rows (ab_name r)) as [id|] eqn:Hid; [|done].
  rewrite result_bind_Ok. intros (l' & Hl & [= <-]). constructor; [|by apply IH'].
  exists r. split_and!; [left|done..].
Qed.

Lemma snd_unique {A B} (l : list (A * B)) a b x : NoDup l.*2 -> (a, x) ∈ l -> (b, x) ∈ l -> a = b.
Proof.
  intros Hnd (i & Hi)%list_elem_of_lookup (j & Hj)%list_elem_of_lookup.
  assert (i = j) as ->; [|congruence].
  eapply NoDup_lookup; [done|..]; rewrite list_lookup_fmap; [by rewrite Hi|by rewrite Hj].
Qed.

Lemma vod_terminal_completes id claim v d d' :
  recordVodTerminal id claim v d = Ok (true, d') ->
  NoDup (tr_renditionId <$> vt_renditions v) /\
  forall x, x ∈ vt_renditions v -> exists rd, rend_assetId rd = vt_assetId v /\
    db_renditions d' !! tr_renditionId x = Some (finished_rendition (vt_terminalAt v) x rd).
Proof.
  unfold recordVodTerminal. rewrite result_bind_Ok. intros (_ & _ & H).
  apply result_bind_Ok in H as (c & _ & H). apply result_bind_Ok in H as (q & _ & H).
  apply result_bind_Ok in H as ([[r|] d1] & _ & H); [|by simplify_eq/=].
  apply result_bind_Ok in H as (d2 & H2 & H). apply complete_renditions_spec in H2 as (Hnd & Hrend & _).
  apply result_bind_Ok in H as (d3 & H3 & H). apply complete_job_frame in H3 as (ej & _ & _ & ->).
  apply result_bind_Ok in H as (d4 & H4 & H). apply ready_asset_frame in H4 as (a & _ & ->).
  apply result_bind_Ok in H as (d5 & H5 & H). apply add_playback_frame in H5 as (pm & ->).
  injection H as <-. split; [done|]. intros x Hx. destruct (Hrend x Hx) as (rd & _ & Ha & Hrd). eauto.
Qed.

(** The rows of a run and of a recovery are those of their ladders. *)
Lemma run_rows (ladder : list (string * string)) name i : assoc name ladder = Some i -> (name, i) ∈ ladder.
Proof. apply assoc_elem_of. Qed.
Lemma recovery_rows renditions name i :
  row_of renditions name = Some i -> (name, i) ∈ (fun r => (rend_resolution r, rend_id r)) <$> renditions.
Proof.
  unfold row_of. destruct (last _) as [r|] eqn:E; [|done]. intros [= <-]. apply last_Some_elem_of in E.
  apply list_elem_of_filter in E as [<- E]. by apply (list_elem_of_fmap_2 (fun r => (rend_resolution r, rend_id r))).
Qed.

(** A row of the ladder is the asset's, completed, and holds the stream [r] was delivered
    as. *)
Definition completed_as (asset_ : string) (r : AbrRendition) (dur : jsnum) (row : option Rendition) : Prop :=
  exists rd, row = Some rd /\ rend_assetId rd = asset_ /\ rend_status rd = "completed" /\
    rend_storageKey rd = Some (ab_stream_uri r) /\ rend_durationSec rd = Some dur.

(** If the terminal record built from a terminal message is accepted and as long as the
    ladder, then every row of the ladder is completed and holds the stream the message
    delivered under that very name: no rendition is missing, swapped or counted twice,
    although neither the message nor its check excludes a name that comes twice. *)
Lemma ladder_is_completed `{Plat : Platform} missing rows (ladder : list (string * string)) dur rs l asset jobId pb seq s resp
    at_ id claim d d' :
  (forall name i, rows name = Some i -> (name, i) ∈ ladder) ->
  completed_renditions missing rows dur rs = Ok l -> length l = length ladder ->
  recordVodTerminal id claim (vod_terminal asset jobId pb seq s resp at_ l) d = Ok (true, d') ->
  forall name rid, (name, rid) ∈ ladder -> exists r, r ∈ rs /\ ab_name r = name /\
    completed_as (as_id asset) r dur (db_renditions d' !! rid).
Proof.
  intros Hrows Hl Hlen Hrec name rid Hrow.
  apply vod_terminal_completes in Hrec as [Hnd Hdone]. cbn [vod_terminal vt_renditions] in Hnd, Hdone.
  apply completed_renditions_spec in Hl. rewrite Forall_forall in Hl.
  assert (tr_renditionId <$> l ≡ₚ ladder.*2) as Hperm.
  { apply submseteq_length_Permutation; [|by rewrite !length_fmap, Hlen].
    apply NoDup_submseteq; [done|]. intros i (x & -> & Hx)%list_elem_of_fmap.
    destruct (Hl x Hx) as (r & _ & Hr%Hrows & _).
    by apply (list_elem_of_fmap_2 snd _ (ab_name r, tr_renditionId x)). }
  assert (NoDup ladder.*2) as Hids by (by rewrite <- Hperm).
  assert (rid ∈ tr_renditionId <$> l) as Hin by (rewrite Hperm; by apply (list_elem_of_fmap_2 snd _ (name, rid))).
  apply list_elem_of_fmap in Hin as (x & -> & Hx). destruct (Hl x Hx) as (r & Hr & Hrid%Hrows & Hk & Hd).
  destruct (Hdone x Hx) as (rd & Ha & Hrd). exists r. split_and!; [done|by eapply snd_unique|].
  eexists. split; [exact Hrd|]. cbn. by rewrite Hk, Hd.
Qed.

(** ** The recovered request *)

Section recovered.
Context `{Plat : Platform} `{Client : PaidJobClient} `{Store : StorageProvider} `{Prober : SourceProbe}
  `{Env : Environment} (deps : PaidAbrOrchestratorDeps).

(** What a prepared job carries. *)
Lemma prepared_job asset route w p w' :
  prepare_job deps asset route w = (Ok p, w') ->
  af_artifact_uri (ar_manifest (ec_request (pq_encoded p))) = pq_manifestKey p /\
  ar_renditions (ec_request (pq_encoded p)) = pq_outputs p /\
  1 <= fe_estimatedUnits (pq_funding p) <= fe_maxTotalUnits (pq_funding p) /\
  fe_maxTotalUnits (pq_funding p) <= MAX_SAFE_INTEGER.
Proof.
  unfold prepare_job. intros ([] & w1 & _ & H)%mbind_Ok. apply mbind_Ok in H as (src & w2 & _ & H).
  apply mbind_Ok in H as (pb & w3 & _ & H). apply mbind_Ok in H as (u & w4 & _ & H).
  destruct (assoc _ PRESETS) as [preset|]; [|done].
  apply mbind_Ok in H as (funding & w5 & Hf & H). apply mlift_Ok in Hf as [Hf <-].
  apply mbind_Ok in H as (rows & w6 & _ & H). apply mbind_Ok in H as (outs & w7 & _ & H).
  apply mbind_Ok in H as (man & w8 & _ & H). apply mbind_Ok in H as (rid & w9 & _ & H).
  apply mbind_Ok in H as (enc & w10 & He & H). apply mlift_Ok in He as [He <-].
  apply mbind_Ok in H as (oid & w11 & _ & H). apply mbind_Ok in H as (hex & w12 & _ & H).
  apply mbind_Ok in H as (st & w13 & _ & H). apply mbind_Ok in H as (jrow & w14 & _ & H).
  apply mbind_Ok in H as (now & w15 & _ & H). apply mbind_Ok in H as (snap & w16 & _ & H).
  apply mbind_Ok in H as (op & w17 & _ & H). injection H as <- _.
  cbn [pq_encoded pq_manifestKey pq_outputs pq_funding].
  apply encoded_outputs in He as (-> & -> & _). apply estimate_bounds in Hf as (? & ? & _). done.
Qed.
(** The rows of a prepared job are named as the ladder of the asset's tier. *)
Definition ladder_names (preset : Preset) : list string :=
  (fun s => resolution_name (rp_resolution s)) <$> pt_renditions preset.
Lemma prepared_rows a specs acc w acc' w' :
  mfold (prepare_rendition a) acc specs w = (Ok acc', w') ->
  (fst acc').*1 = (fst acc).*1 ++ ((fun s => resolution_name (rp_resolution s)) <$> specs).
Proof.
  revert acc w. induction specs as [|s specs IH]; intros acc w; cbn [mfold].
  - intros [= <- _]. by rewrite app_nil_r.
  - intros (acc1 & w1 & Ha & ->%IH)%mbind_Ok. unfold prepare_rendition in Ha.
    apply mbind_Ok in Ha as (hex & w2 & _ & Ha). apply mbind_Ok in Ha as (row & w3 & _ & Ha).
    apply mbind_Ok in Ha as (o & w4 & _ & [= <- _]). cbn [fst]. by rewrite fmap_app, <- app_assoc.
Qed.
Lemma prepared_ladder asset route w p w' :
  prepare_job deps asset route w = (Ok p, w') ->
  exists preset, assoc (as_encodingTier asset) PRESETS = Some preset /\ (pq_renditionRows p).*1 = ladder_names preset.
Proof.
  unfold prepare_job. intros ([] & w1 & _ & H)%mbind_Ok. apply mbind_Ok in H as (src & w2 & _ & H).
  apply mbind_Ok in H as (pb & w3 & _ & H). apply mbind_Ok in H as (u & w4 & _ & H).
  destruct (assoc _ PRESETS) as [preset|]; [|done]. exists preset. split; [done|].
  apply mbind_Ok in H as (funding & w5 & _ & H). apply mbind_Ok in H as (rows & w6 & Hrows & H).
  apply prepared_rows in Hrows. apply mbind_Ok in H as (outs & w7 & _ & H).
  apply mbind_Ok in H as (man & w8 & _ & H). apply mbind_Ok in H as (rid & w9 & _ & H).
  apply mbind_Ok in H as (enc & w10 & _ & H). apply mbind_Ok in H as (oid & w11 & _ & H).
  apply mbind_Ok in H as (hex & w12 & _ & H). apply mbind_Ok in H as (st & w13 & _ & H).
  apply mbind_Ok in H as (jrow & w14 & _ & H). apply mbind_Ok in H as (now & w15 & _ & H).
  apply mbind_Ok in H as (snap & w16 & _ & H). apply mbind_Ok in H as (op & w17 & _ & H). by injection H as <- _.
Qed.

(** The check of a recovered request. *)
Lemma recovered_check op j request units X :
  recovered_request op j = Ok request -> uint (op_fundedUnits op) = Ok units -> as_id (rj_asset j) = X ->
  jr_validateTerminal request = Some (check_terminal X (ec_sha256 (rj_encoded j)) units
    (fun t => validateCoordinates t (ec_request (rj_encoded j)))).
Proof.
  unfold recovered_request. intros (rt & _ & H)%result_bind_Ok Hu <-. rewrite Hu in H. by injection H as <-.
Qed.

Lemma string_prop_at f k v :
  assoc k f = Some (JStr v) -> nonempty v = true -> string_prop (object (Some (JObj f))) k = Ok v.
Proof. intros H Hv. unfold string_prop, object. cbn [mbind option_bind]. by rewrite H, Hv. Qed.

(** The route that is read back binds the job to the same quote. *)
Lemma route_again route op :
  abr_paidRoute route = Ok (op_route op) ->
  nonempty (sw_workerUrl route) = true -> nonempty (sw_ethAddress route) = true ->
  exists route', routeFrom op = Ok route' /\ sw_capability route' = sw_capability route /\
    sw_offering route' = sw_offering route /\ routeBindingFor route' = routeBindingFor route.
Proof.
  unfold abr_paidRoute. destruct (sw_quoteId route) as [q|] eqn:Eq; [|done].
  destruct (sw_quoteVersion route) as [v|] eqn:Ev; [|done].
  destruct (sw_constraintFingerprint route) as [c|] eqn:Ec; [|done].
  destruct (sw_routeFingerprint route) as [r|] eqn:Er; [|done].
  destruct (sw_unitsPerPrice route) as [u|] eqn:Eu; [|done].
  destruct (sw_settlementDomainId route) as [d|] eqn:Ed; [|done].
  intros ([] & _ & H)%result_bind_Ok Hw He. destruct (sw_settlementKeys route) as [|key keys]; [done|].
  injection H as H. unfold routeFrom.
  assert (string_prop (object (Some (route_raw (op_route op)))) "broker_url" = Ok (sw_workerUrl route)) as ->
    by (rewrite <- H; by apply string_prop_at).
  assert (string_prop (object (Some (route_raw (op_route op)))) "eth_address" = Ok (sw_ethAddress route)) as ->
    by (rewrite <- H; by apply string_prop_at).
  rewrite <- H. cbn [result_bind route_settlementDomainId].
  eexists. split; [done|]. split_and!; [done|done|]. unfold routeBindingFor.
  cbn [sw_quoteId sw_quoteVersion sw_constraintFingerprint sw_routeFingerprint sw_settlementDomainId
       route_quoteId route_quoteVersion route_constraintFingerprint route_routeFingerprint].
  by rewrite Eq, Ev, Ec, Er, Ed, !bytes_of_hex_string.
Qed.

(** The two checks of the coordinates accept the same messages. *)
Lemma check_terminal_Ok workload sha maximum coordinates body st t :
  check_terminal workload sha maximum coordinates body st = Ok t <->
  validateAbrTerminal body st workload sha maximum = Ok t /\ coordinates t = Ok tt.
Proof.
  unfold check_terminal. destruct (validateAbrTerminal _ _ _ _ _) as [t'|]; cbn [result_bind]; [|naive_solver].
  destruct (coordinates t') as [[]|] eqn:E; cbn [result_bind]; naive_solver congruence.
Qed.
Lemma validateCoordinates_Ok t r :
  validateCoordinates t r = Ok tt <->
  validateOutputCoordinates t (af_artifact_uri (ar_manifest r)) (ar_renditions r) = Ok tt.
Proof. unfold validateCoordinates, validateOutputCoordinates. by rewrite !refuse_if_Ok. Qed.

(** Recovering a job asks for it again, but not for the same estimate.  From the
    stored operation and request of a prepared job the recovery rebuilds a job with the
    same idempotency key, body, transport, offer, accepted quote and maximum, and whose
    check accepts the same terminal messages; its estimate, however, is the whole
    maximum, not the estimate the job was first opened with. *)
Lemma recovered_job_raises_the_estimate asset route w p w' op j :
  prepare_job deps asset route w = (Ok p, w') ->
  abr_paidRoute route = Ok (op_route op) ->
  op_fundedUnits op = string_of_Z (fe_maxTotalUnits (pq_funding p)) ->
  rj_requestId j = pq_requestId p -> rj_encoded j = pq_encoded p -> as_id (rj_asset j) = as_id asset ->
  nonempty (sw_workerUrl route) = true -> nonempty (sw_ethAddress route) = true ->
  exists again, recovered_request op j = Ok again /\
    let first := job_request asset route p in
    jr_requestId again = jr_requestId first /\ jr_body again = jr_body first /\
    jr_contentType again = jr_contentType first /\ jr_transport again = jr_transport first /\
    jr_maxTotalUnits again = jr_maxTotalUnits first /\
    sw_capability (jr_route again) = sw_capability (jr_route first) /\
    sw_offering (jr_route again) = sw_offering (jr_route first) /\
    routeBindingFor (jr_route again) = routeBindingFor (jr_route first) /\
    (forall body st t, (fun check => check body st) <$> jr_validateTerminal again = Some (Ok t) <->
                       (fun check => check body st) <$> jr_validateTerminal first = Some (Ok t)) /\
    jr_estimatedUnits first = fe_estimatedUnits (pq_funding p) /\
    jr_estimatedUnits again = fe_maxTotalUnits (pq_funding p).
Proof.
  intros Hp Hr Hf Hq He Ha Hw Hx. apply prepared_job in Hp as (Hm & Ho & Hest & Hmax).
  destruct (route_again _ _ Hr Hw Hx) as (route' & Hr' & Hc & Hof & Hb).
  unfold recovered_request, uint. rewrite Hr', Hf, safe_decimal_string_of_Z by lia. cbn [result_bind].
  rewrite (proj2 (Z.leb_le _ _)) by lia. cbn [result_bind]. eexists. split; [done|].
  unfold job_request. cbn -[check_terminal]. rewrite Hq, He, Ha. split_and!; try done.
  intros body st t. rewrite !(inj_iff Some), !check_terminal_Ok, validateCoordinates_Ok, Hm, Ho. done.
Qed.
End recovered.

(** ** Effects *)

Section effects.
Context `{Plat : Platform} `{Client : PaidJobClient} `{Store : StorageProvider} `{Prober : SourceProbe}
  `{Env : Environment} (deps : PaidAbrOrchestratorDeps) (rdeps : PaidAbrRecoveryDeps).

Lemma query_insertWithSecrets_acts v s owner l :
  acts (query (fun n => insertWithSecrets (entropy_at n) v s owner l)).
Proof. eauto using acts_query, rtc_once, step_insertWithSecrets. Qed.
Lemma query_progress_acts id c v : acts (query (fun _ => recordProgress id c v)).
Proof. eauto using acts_query, rtc_once, step_progress. Qed.
Lemma query_retry_acts id c v : acts (query (fun _ => recordRetry id c v)).
Proof. eauto using acts_query, rtc_once, step_retry. Qed.
Lemma query_vodTerminal_acts id c v : acts (query (fun _ => recordVodTerminal id c v)).
Proof. eauto using acts_query, rtc_once, step_vodTerminal. Qed.
Lemma query_readSecrets_acts id c : acts (query (fun _ => readSecrets id c)).
Proof. eauto using acts_query, rtc_once, step_readSecrets. Qed.
Lemma query_claimRecoverable_acts k o now l limit :
  acts (query (fun n => claimRecoverable (locks n) k o now l limit)).
Proof. eauto using acts_query, rtc_once, step_claimRecoverable. Qed.
#[local] Hint Resolve query_insertWithSecrets_acts query_progress_acts query_retry_acts query_vodTerminal_acts
  query_readSecrets_acts query_claimRecoverable_acts : gateway.

Lemma destinations_acts a n c : acts (destinations a n c).
Proof. unfold destinations. acting. Qed.
#[local] Hint Resolve destinations_acts : gateway.

Lemma prepare_rendition_acts a acc s : acts (prepare_rendition a acc s).
Proof. unfold prepare_rendition. acting. apply acts_query_media. auto with gateway. Qed.
#[local] Hint Resolve prepare_rendition_acts : gateway.

Lemma prepare_job_acts asset route : acts (prepare_job deps asset route).
Proof. unfold prepare_job. acting; apply acts_query_media; intros; auto with gateway. Qed.
Lemma record_unfinished_acts id o c e ms r : acts (record_unfinished id o c e ms r).
Proof. unfold record_unfinished. acting. Qed.
#[local] Hint Resolve prepare_job_acts record_unfinished_acts : gateway.

Lemma runPaidAbrAsset_acts asset route : acts (runPaidAbrAsset deps asset route).
Proof. unfold runPaidAbrAsset. acting. Qed.

Lemma load_job_acts op a c : acts (load_job op a c).
Proof. unfold load_job. acting. Qed.
Lemma record_error_acts op c e : acts (record_error rdeps op c e).
Proof. unfold record_error. acting. Qed.
#[local] Hint Resolve load_job_acts record_error_acts : gateway.
Lemma execute_again_acts op c j : acts (execute_again rdeps op c j).
Proof. unfold execute_again. acting. Qed.
#[local] Hint Resolve execute_again_acts : gateway.
Lemma recoverOne_acts op : acts (recoverOne rdeps op).
Proof. unfold recoverOne. acting. Qed.
#[local] Hint Resolve recoverOne_acts : gateway.
Lemma recover_all_acts ops : acts (recover_all rdeps ops).
Proof. induction ops as [|op ops IH]; cbn [recover_all]; acting. Qed.
#[local] Hint Resolve recover_all_acts : gateway.
Lemma recoverPaidAbr_acts limit : acts (recoverPaidAbrOperations rdeps limit).
Proof. unfold recoverPaidAbrOperations. acting. Qed.

(** The ABR job services cannot corrupt the books.  Whatever the broker, LOC, the
    storage, the probe and the other instances do meanwhile, a run of a job or a
    recovery sweep that ends in a value or in an error leaves well-formed tables well
    formed, and an operation that was settled before it is the same after it. *)
Lemma abr_jobs_are_safe asset route limit w :
  db_wf (w_db w) ->
  forall w', (exists r, runPaidAbrAsset deps asset route w = (r, w')) \/
             (exists r, recoverPaidAbrOperations rdeps limit w = (r, w')) ->
  db_wf (w_db w') /\
  forall id row, db_paid_operations (w_db w) !! id = Some row -> row_terminal_at row <> None ->
    db_paid_operations (w_db w') !! id = Some row.
Proof.
  intros Hwf w' [[r H]|[r H]].
  - by eapply acts_safe; [apply runPaidAbrAsset_acts|..].
  - by eapply acts_safe; [apply recoverPaidAbr_acts|..].
Qed.

End effects.

(** ** Completing an asset

    An asset becomes ready by one statement, the terminal record of a run or of a recovery.
    The theorems are about an asset the rest of the system does not complete meanwhile. *)

Definition ready (X : string) (d : db) : Prop := exists a, db_assets d !! X = Some a /\ as_status a = "ready".
Definition unready (X : string) (d : db) : Prop := ~ ready X d.
#[export] Instance unready_media X : MediaProperty (unready X).
Proof. intros d d' (_ & _ & _ & _ & H & _). unfold unready, ready. by rewrite H. Qed.

Lemma updateStatus_unready X id status f d o d' :
  status <> "ready" -> Assets.updateStatus id status f d = Ok (o, d') -> unready X d -> unready X d'.
Proof.
  intros Hs [= _ <-] Hun (a & Ha & Hr). cbn in Ha. unfold update_by_id in Ha.
  destruct (db_assets d !! id) as [x|] eqn:E; [|by apply Hun; eexists].
  destruct (decide (X = id)) as [->|Hne].
  - rewrite lookup_insert_eq in Ha. by simplify_eq/=.
  - rewrite lookup_insert_ne in Ha by done. by apply Hun; eexists.
Qed.
Lemma renditions_insert_unready X r d o d' : Renditions.insert r d = Ok (o, d') -> unready X d -> unready X d'.
Proof. unfold Renditions.insert. case_match; [done|]. by intros [= _ <-]. Qed.
Lemma encodingJobs_insert_unready X j d o d' : EncodingJobs.insert j d = Ok (o, d') -> unready X d -> unready X d'.
Proof. unfold EncodingJobs.insert. case_match; [done|]. by intros [= _ <-]. Qed.

(** The terminal record completes its own asset, if it answers yes. *)
Lemma vodTerminal_completes X id claim v d b d' :
  recordVodTerminal id claim v d = Ok (b, d') -> unready X d -> ready X d' -> b = true /\ vt_assetId v = X.
Proof.
  unfold recordVodTerminal. rewrite result_bind_Ok. intros (_ & _ & H) Hun Hr.
  apply result_bind_Ok in H as (c & _ & H). apply result_bind_Ok in H as (q & _ & H).
  apply result_bind_Ok in H as ([[row|] d1] & Hu & H); [|by simplify_eq/=].
  apply update_claimed_media in Hu as (_ & _ & _ & _ & Hu & _).
  apply result_bind_Ok in H as (d2 & H2 & H). apply complete_renditions_frame in H2 as (m & ->).
  apply result_bind_Ok in H as (d3 & H3 & H). apply complete_job_frame in H3 as (ej & _ & _ & ->).
  apply result_bind_Ok in H as (d4 & H4 & H). apply ready_asset_frame in H4 as (a & _ & ->).
  apply result_bind_Ok in H as (d5 & H5 & H). apply add_playback_frame in H5 as (pm & ->).
  injection H as <- <-. split; [done|]. destruct (decide (vt_assetId v = X)) as [|Hne]; [done|]. exfalso.
  destruct Hr as (x & Hx & Hs). cbn in Hx. rewrite lookup_insert_ne in Hx by done. apply Hun. exists x.
  by rewrite <- Hu.
Qed.

Section completion.
Context `{Plat : Platform} `{Client : PaidJobClient} `{Store : StorageProvider} `{Prober : SourceProbe}
  `{Env : Environment} (deps : PaidAbrOrchestratorDeps) (rdeps : PaidAbrRecoveryDeps) (X : string).
Context (others_unready : forall n d, unready X d -> unready X (others n d)).

Lemma destinations_leave a n c : preserves w_db (unready X) (destinations a n c).
Proof. unfold destinations. by preserving. Qed.

#[local] Ltac leaving :=
  preserving;
  first [ apply destinations_leave
        | apply preserves_operations; [typeclasses eauto|done|]; intros ? ? ? ?;
          first [apply insertWithSecrets_media | apply progress_media | apply retry_media
            | apply readSecrets_media | apply claimRecoverable_media]
        | apply preserves_query; [done|]; intros ? ? ? ?;
          first [apply updateStatus_unready; discriminate
            | apply renditions_insert_unready | apply encodingJobs_insert_unready]].

Lemma prepare_rendition_leaves a acc s : preserves w_db (unready X) (prepare_rendition a acc s).
Proof. unfold prepare_rendition. leaving. Qed.
Lemma prepare_job_leaves asset route : preserves w_db (unready X) (prepare_job deps asset route).
Proof. unfold prepare_job. preserving; first [apply prepare_rendition_leaves | leaving]. Qed.
Lemma record_unfinished_leaves id o c e ms r : preserves w_db (unready X) (record_unfinished id o c e ms r).
Proof. unfold record_unfinished. leaving. Qed.
Lemma load_job_leaves op a c : preserves w_db (unready X) (load_job op a c).
Proof. unfold load_job. leaving. Qed.
Lemma execute_again_leaves op c j : preserves w_db (unready X) (execute_again rdeps op c j).
Proof. unfold execute_again, record_error. leaving. Qed.

(** The statement that may complete the asset, and what is recorded then *)
Lemma recorded_terminal id claim v e w r w' :
  (do! recorded <- query (fun _ => recordVodTerminal id claim v); mlift (refuse_if (negb recorded) e)) w = (r, w') ->
  unready X (w_db w) -> ready X (w_db w') ->
  r = Ok tt /\ vt_assetId v = X /\ exists d, rtc repo_step (w_db w) d /\
    recordVodTerminal id claim v d = Ok (true, w_db w').
Proof.
  unfold mbind_, query, exec. intros H Hun Hr. pose proof (others_unready (w_tick w) _ Hun) as Hun'.
  destruct (recordVodTerminal id claim v _) as [[b d']|e'] eqn:E; [|by injection H as <- <-].
  assert (Hd : w_db w' = d') by (by destruct b; injection H as <- <-).
  rewrite Hd in Hr |- *. destruct (vodTerminal_completes _ _ _ _ _ _ _ E Hun' Hr) as [-> HX]. injection H as <- _.
  split_and!; [done|done|]. eexists. split; [apply others_steps|exact E].
Qed.

(** A run completes an asset only as its last act, with the job settled and the message
    that came with it. *)
Lemma run_completes asset route w r w' :
  unready X (w_db w) -> runPaidAbrAsset deps asset route w = (r, w') -> ready X (w_db w') ->
  r = Ok tt /\ as_id asset = X /\ exists p w1 s resp t n' l d at_ pb,
    prepare_job deps asset route w = (Ok p, w1) /\
    pj_execute (job_request asset route p) (w_net w1) = (Ok (JobSettled s resp, Some t), n') /\
    completed_renditions (PlainError "terminal rendition was not requested") (fun name => assoc name (pq_renditionRows p))
      (pb_durationSec (pq_probe p)) (at_renditions t) = Ok l /\ length l = length (pq_renditionRows p) /\
    rtc repo_step (w_db w1) d /\
    recordVodTerminal (pq_operationId p) (pq_claim p) (vod_terminal asset (pq_jobId p) pb "0" s resp at_ l) d = Ok (true, w_db w').
Proof.
  intros Hun H Hr. pose proof (prepare_job_leaves asset route w Hun) as H1. unfold runPaidAbrAsset in H.
  unfold mbind_ at 1 in H. destruct (prepare_job deps asset route w) as [[p|e] w1]; [|by injection H as <- <-].
  unfold mbind_ at 1, call in H.
  destruct (pj_execute _ (w_net w1)) as [[out|e] n'] eqn:Hx; [|by injection H as <- <-].
  set (w2 := w1 <| w_net := n' |> <| w_tick := S (w_tick w1) |>) in H.
  assert (Hun2 : unready X (w_db w2)) by exact H1.
  assert (Hunf : forall id o c e ms q, record_unfinished id o c e ms q w2 = (r, w') -> False).
  { intros id o c e ms q E. apply (record_unfinished_leaves id o c e ms q w2 Hun2). by rewrite E. }
  destruct out as [[s resp|o u] [t|]]; try by apply Hunf in H.
  unfold mbind_ at 1, mlift at 1 in H.
  destruct (completed_renditions _ _ _ _) as [l|e] eqn:Hl; [|by injection H as <- <-].
  unfold mbind_ at 1, mlift at 1 in H. destruct (refuse_if _ _) as [[]|e] eqn:Hlen; [|by injection H as <- <-].
  apply refuse_if_Ok in Hlen. apply negb_false_iff, Nat.eqb_eq in Hlen.
  unfold mbind_ at 1, now_ at 1 in H. unfold mbind_ at 1, fresh_hex at 1 in H.
  apply recorded_terminal in H as (-> & HX & d & Hd & Hrec); [|exact Hun2|exact Hr].
  split_and!; [done|exact HX|]. exists p, w1, s, resp, t, n', l, d. eexists _, _. split_and!; done.
Qed.

Lemma execute_again_Some op c j w out w' :
  execute_again rdeps op c j w = (Ok (Some out), w') ->
  exists request n', recovered_request op j = Ok request /\ pj_execute request (w_net w) = (Ok out, n') /\
    w_db w' = w_db w.
Proof.
  unfold execute_again, mcatch, mbind_ at 1, mlift. destruct (recovered_request op j) as [request|e].
  - unfold mbind_ at 1, call. destruct (pj_execute request (w_net w)) as [[x|e] n'] eqn:E.
    + intros [= <- <-]. by exists request, n'.
    + intros ([] & w1 & _ & H)%mbind_Ok. discriminate H.
  - intros ([] & w1 & _ & H)%mbind_Ok. discriminate H.
Qed.
(** What was loaded is of the operation, and the renditions are those of its asset when
    they were read. *)
Lemma loaded_job_facts op a c w j w' :
  load_job op a c w = (Ok j, w') ->
  ec_sha256 (rj_encoded j) = op_requestContentSha256 op /\
  exists d, rtc repo_step (w_db w) d /\ rj_renditions j = Renditions.byAsset (as_id (rj_asset j)) d.
Proof.
  unfold load_job. intros (secrets & w1 & Hs & H)%mbind_Ok. apply query_readSecrets_acts in Hs.
  destruct (secrets ≫= sec_openIntent) as [intent|]; [|done]. destruct (objectString _ _) as [key|]; [|done].
  apply mbind_Ok in H as (enc & w2 & He & H). apply mlift_Ok in He as [_ <-].
  apply mbind_Ok in H as ([] & w3 & Hd & H). apply mlift_Ok in Hd as [Hd <-].
  apply refuse_if_Ok, negb_bool_decide_false in Hd.
  apply mbind_Ok in H as (asset & w4 & Ha & H). apply query_Ok in Ha as (da & Hda & [= _ Ha]).
  destruct asset as [b|]; [|done]. destruct (truthy_num _) as [dur|]; [|done].
  apply mbind_Ok in H as (rs & w5 & Hr & H). apply query_Ok in Hr as (dr & Hdr & [= Hr _]).
  apply mbind_Ok in H as (js & w6 & _ & H). destruct (head _) as [ej|]; [|done]. injection H as <- _.
  split; [done|]. exists dr. split; [|done]. etrans; [exact Hs|]. etrans; [exact Hda|]. by rewrite Ha.
Qed.

(** A recovery too. *)
Lemma recovery_completes op w r w' :
  unready X (w_db w) -> recoverOne rdeps op w = (r, w') -> ready X (w_db w') ->
  r = Ok tt /\ exists assetId claim j w1 units request s resp t n' l d at_ pb,
    load_job op assetId claim w = (Ok j, w1) /\ as_id (rj_asset j) = X /\
    ec_sha256 (rj_encoded j) = op_requestContentSha256 op /\
    recovered_request op j = Ok request /\ uint (op_fundedUnits op) = Ok units /\
    pj_execute request (w_net w1) = (Ok (JobSettled s resp, Some t), n') /\
    completed_renditions (PlainError "recovered terminal rendition was not requested") (row_of (rj_renditions j))
      (rj_duration j) (at_renditions t) = Ok l /\ length l = length (rj_renditions j) /\
    rtc repo_step (w_db w1) d /\
    recordVodTerminal (op_id op) claim
      (vod_terminal (rj_asset j) (ej_id (rj_job j)) pb (op_settlementSequence op) s resp at_ l) d
    = Ok (true, w_db w').
Proof.
  intros Hun H Hr. unfold recoverOne in H.
  destruct (op_assetId op) as [assetId|]; [|by injection H as <- <-].
  destruct (op_recoveryOwner op) as [owner|]; [|by injection H as <- <-].
  destruct (op_recoveryLeaseExpiresAt op) as [lease|]; [|by injection H as <- <-].
  unfold mbind_ at 1, mlift at 1 in H. destruct (refuse_if _ _) as [[]|e]; [|by injection H as <- <-].
  set (claim := mkClaim _ _ _) in H. pose proof (load_job_leaves op assetId claim w Hun) as H1.
  unfold mbind_ at 1 in H. destruct (load_job op assetId claim w) as [[j|e] w1] eqn:Hj; [|by injection H as <- <-].
  pose proof (execute_again_leaves op claim j w1 H1) as H2.
  unfold mbind_ at 1 in H.
  destruct (execute_again rdeps op claim j w1) as [[[out|]|e] w2] eqn:Hx; [|by injection H as <- <-..].
  apply execute_again_Some in Hx as (request & n' & Hq & Hx & Hdb). cbn [snd] in H2.
  assert (Hunf : forall id o c e ms q, record_unfinished id o c e ms q w2 = (r, w') -> False).
  { intros id o c e ms q E. apply (record_unfinished_leaves id o c e ms q w2 H2). by rewrite E. }
  destruct out as [[s resp|o u] [t|]]; try by apply Hunf in H.
  unfold mbind_ at 1, mlift at 1 in H.
  destruct (completed_renditions _ _ _ _) as [l|e] eqn:Hl; [|by injection H as <- <-].
  unfold mbind_ at 1, mlift at 1 in H.
  destruct (refuse_if (negb (Nat.eqb _ _)) _) as [[]|e] eqn:Hlen; [|by injection H as <- <-].
  apply refuse_if_Ok in Hlen. apply negb_false_iff, Nat.eqb_eq in Hlen.
  unfold mbind_ at 1, fresh_hex at 1 in H. unfold mbind_ at 1, now_ at 1 in H.
  apply recorded_terminal in H as (-> & HX & d & Hd & Hrec); [|exact H2|exact Hr]. cbn [w_db update_field] in Hd.
  rewrite Hdb in Hd.
  split; [done|]. assert (exists units, uint (op_fundedUnits op) = Ok units) as [units Hu].
  { unfold recovered_request in Hq. apply result_bind_Ok in Hq as (rt & _ & Hq).
    by apply result_bind_Ok in Hq as (u & Hu & _); eauto. }
  exists assetId, claim, j, w1, units, request, s, resp, t, n', l, d. eexists _, _.
  split_and!; [done|exact HX|by eapply loaded_job_facts|done..].
Qed.
End completion.

(** ** What a completed asset stands for, and its ladder *)

Section completed.
Context `{Plat : Platform} `{Client : PaidJobClient} `{Store : StorageProvider} `{Prober : SourceProbe}
  `{Env : Environment} (deps : PaidAbrOrchestratorDeps) (rdeps : PaidAbrRecoveryDeps) (X : string).
Context (others_unready : forall n d, unready X d -> unready X (others n d)).

Lemma ready_or_not d : ready X d \/ unready X d.
Proof.
  unfold unready, ready. destruct (db_assets d !! X) as [a|]; [|right; by intros (? & ? & _)].
  destruct (decide (as_status a = "ready")); [left; eauto|right]. by intros (? & [= <-] & ?).
Qed.

(** The recovery of [op], from [wa] to [wb], is the one of a sweep that completed the asset. *)
Definition completing (w w' : world) (op : PaidOperation) (wa wb : world) : Prop :=
  rtc repo_step (w_db w) (w_db wa) /\ unready X (w_db wa) /\ recoverOne rdeps op wa = (Ok tt, wb) /\
  ready X (w_db wb) /\ rtc repo_step (w_db wb) (w_db w').

Lemma completing_later w w1 w' op wa wb :
  rtc repo_step (w_db w) (w_db w1) -> completing w1 w' op wa wb -> completing w w' op wa wb.
Proof. intros Hs (H & ?). split; [by etrans|done]. Qed.

Lemma recover_all_completes ops w r w' :
  unready X (w_db w) -> recover_all rdeps ops w = (r, w') -> ready X (w_db w') ->
  exists op wa wb, completing w w' op wa wb.
Proof.
  revert w. induction ops as [|op ops IH]; intros w Hun; cbn [recover_all]; [by intros [= _ <-]|].
  unfold mbind_, mcatch. destruct (recoverOne rdeps op w) as [q wb] eqn:Hq. intros H Hr.
  assert (recover_all rdeps ops wb = (r, w')) as Hrest by (by destruct q).
  destruct (ready_or_not (w_db wb)) as [Hb|Hb].
  - pose proof (recovery_completes rdeps X others_unready _ _ _ _ Hun Hq Hb) as [-> _].
    apply recover_all_acts in Hrest. exists op, w, wb. by split_and!.
  - destruct (IH _ Hb Hrest Hr) as (op' & wa & wc & Hc). exists op', wa, wc.
    eapply completing_later; [|exact Hc]. by eapply recoverOne_acts.
Qed.

(** A sweep completes an asset only within one of its recoveries. *)
Lemma sweep_completes limit w r w' :
  unready X (w_db w) -> recoverPaidAbrOperations rdeps limit w = (r, w') -> ready X (w_db w') ->
  exists op wa wb, completing w w' op wa wb.
Proof.
  intros Hun H Hr. unfold recoverPaidAbrOperations in H. unfold mbind_ at 1, now_ in H.
  unfold mbind_ at 1 in H. destruct (query _ w) as [ops w1] eqn:Hq.
  assert (unready X (w_db w1)) as Hun1.
  { eapply (preserves_operations (unready X)) in Hun as H1; [by rewrite Hq in H1|done|].
    intros ? ? ? ?. apply claimRecoverable_media. }
  apply query_claimRecoverable_acts in Hq. destruct ops as [ops|e]; [|by injection H as _ <-].
  unfold mbind_ in H. destruct (recover_all rdeps ops w1) as [q w2] eqn:Hall.
  assert (w2 = w') as -> by (by destruct q; injection H as _ <-).
  destruct (recover_all_completes _ _ _ _ Hun1 Hall Hr) as (op & wa & wb & Hc).
  exists op, wa, wb. by eapply completing_later.
Qed.

(** The operation [id] is the asset's, settled by this job and with its evidence. *)
Definition settled_in (d : db) (id : string) (s : PaidJobSettled) (resp : option (Z * option string * string)) : Prop :=
  exists row, db_paid_operations d !! id = Some row /\ row_asset_id row = Some X /\ lease_of row = Closed /\
    row_status row = "settled" /\ row_terminal_evidence row = Some (job_evidence s resp) /\
    row_loc_operation_id row = Some (jo_operationId (pd_opened s)) /\
    row_broker_job_id row = Some (js_brokerJobId (pd_settlement s)).

Lemma recorded_settlement w d id claim asset jobId pb seq s resp at_ l d' :
  db_wf (w_db w) -> rtc repo_step (w_db w) d -> as_id asset = X ->
  recordVodTerminal id claim (vod_terminal asset jobId pb seq s resp at_ l) d = Ok (true, d') ->
  settled_in d' id s resp.
Proof.
  intros Hwf Hd HX Hrec. assert (db_wf d) as Hwfd by (by eapply row_steps_wf; [apply repo_steps_rows|]).
  destruct (vod_settlement_is_atomic _ _ _ _ _ _ Hwfd Hrec)
    as (r & r' & lease & a & ej & _ & _ & _ & _ & Hops & Hcl & Hst & Ha & Hev & Hloc & Hjob & _).
  exists r'. rewrite Hops, lookup_insert_eq, <- HX. repeat split; assumption.
Qed.
Lemma settlement_lasts d d' id s resp : db_wf d -> rtc repo_step d d' -> settled_in d id s resp -> settled_in d' id s resp.
Proof.
  intros Hwf Hsteps (row & Hrow & Ha & Hcl & Hrest). exists row. split; [|done]. eapply settled_forever; [done..|].
  unfold lease_of in Hcl. intros Ht. rewrite Ht in Hcl. by repeat case_match.
Qed.

(** C14:  An asset is completed only with the delivery that was asked for and is paid for.
    Whenever an asset that was not ready is ready after a run or after a recovery sweep,
    the rest of the system not completing it meanwhile, the paid-job client had answered
    the very request of the asset's job with a settlement and a terminal message; that
    message names the asset and the digest of the stored request, every rendition and the
    manifest are at the coordinates the request gave, its units are those of the signed
    settlement, exactly the delivered frame megapixels rounded up and within the funded
    maximum; and the asset's operation is settled with that evidence. *)
Theorem delivered_asset_is_paid_for w :
  db_wf (w_db w) -> unready X (w_db w) ->
  (forall asset route r w', runPaidAbrAsset deps asset route w = (r, w') -> ready X (w_db w') ->
     r = Ok tt /\ as_id asset = X /\
     exists p w1 s resp t n', prepare_job deps asset route w = (Ok p, w1) /\
       pj_execute (job_request asset route p) (w_net w1) = (Ok (JobSettled s resp, Some t), n') /\
       delivered_as_asked X (ec_sha256 (pq_encoded p)) (fe_maxTotalUnits (pq_funding p)) (pq_manifestKey p)
         (pq_outputs p) s t /\
       settled_in (w_db w') (pq_operationId p) s resp) /\
  (forall limit r w', recoverPaidAbrOperations rdeps limit w = (r, w') -> ready X (w_db w') ->
     exists op wa wb, completing w w' op wa wb /\
     exists assetId claim j w1 units request s resp t n', load_job op assetId claim wa = (Ok j, w1) /\
       recovered_request op j = Ok request /\ uint (op_fundedUnits op) = Ok units /\
       pj_execute request (w_net w1) = (Ok (JobSettled s resp, Some t), n') /\
       delivered_as_asked X (op_requestContentSha256 op) units
         (af_artifact_uri (ar_manifest (ec_request (rj_encoded j)))) (ar_renditions (ec_request (rj_encoded j))) s t /\
       settled_in (w_db w') (op_id op) s resp).
Proof.
  intros Hwf Hun. split.
  - intros asset route r w' H Hr.
    destruct (run_completes deps X others_unready _ _ _ _ _ Hun H Hr)
      as (-> & HX & p & w1 & s & resp & t & n' & l & d & at_ & pb & Hp & Hx & _ & _ & Hd & Hrec).
    split; [done|]. split; [exact HX|]. exists p, w1, s, resp, t, n'. split_and!; [exact Hp|exact Hx|..].
    + rewrite <- HX. by eapply settled_delivery; [| |exact Hx].
    + eapply recorded_settlement; [|exact Hd|exact HX|exact Hrec]. apply prepare_job_acts in Hp.
      by eapply row_steps_wf; [apply repo_steps_rows|].
  - intros limit r w' H Hr. destruct (sweep_completes _ _ _ _ Hun H Hr) as (op & wa & wb & Hc).
    exists op, wa, wb. split; [exact Hc|]. destruct Hc as (Hwa & Huna & Hone & Hb & Hwb).
    destruct (recovery_completes rdeps X others_unready _ _ _ _ Huna Hone Hb)
      as (_ & assetId & claim & j & w1 & units & request & s & resp & t & n' & l & d & at_ & pb &
          Hj & HX & Hsha & Hq & Hu & Hx & _ & _ & Hd & Hrec).
    assert (db_wf (w_db w1)) as Hwf1.
    { apply load_job_acts in Hj. eapply row_steps_wf; [apply repo_steps_rows; [exact Hwf|]|exact Hwf]. by etrans. }
    exists assetId, claim, j, w1, units, request, s, resp, t, n'. split_and!; [done..| |].
    + rewrite <- Hsha. eapply settled_delivery; [by eapply recovered_check|apply validateCoordinates_Ok|exact Hx].
    + eapply settlement_lasts; [|exact Hwb|by eapply recorded_settlement].
      apply recoverOne_acts in Hone. eapply row_steps_wf; [apply repo_steps_rows; [exact Hwf|]|exact Hwf]. by etrans.
Qed.

End completed.

(** ** Witnesses *)

Definition sample_prepared : result exn PreparedJob * world :=
  prepare_job sample_abr_deps sourced_asset sample_job_route abr_world.

Lemma abr_jobs_are_safe_witness :
  db_wf (w_db finished_world) /\ as_status <$> db_assets (w_db finished_world) !! "asset" = Some "ready".
Proof.
  split; [|vm_compute; reflexivity].
  apply (abr_jobs_are_safe sample_abr_deps sample_recovery_deps sourced_asset sample_job_route 10 abr_world
    (fresh_wf (w_db abr_world) eq_refl eq_refl) finished_world).
  left. eexists. unfold finished_world. apply surjective_pairing.
Defined.

(** The same job, whose process stops before it asks for it; the lease it leaves is over at
    once, so that a sweep runs the job. *)
Definition stopped_world : world := snd (prepare_job (mkAbrDeps "alice" 0) sourced_asset sample_job_route abr_world).
Definition recovered_world : world := snd (recoverPaidAbrOperations sample_recovery_deps 10 stopped_world).

Lemma sample_assets_get_ready :
  unready "asset" (w_db abr_world) /\ ready "asset" (w_db finished_world) /\
  unready "asset" (w_db stopped_world) /\ ready "asset" (w_db recovered_world).
Proof.
  assert (forall d, (as_status <$> db_assets d !! "asset") <> Some "ready" -> unready "asset" d) as Hun.
  { intros d H (x & Hx & Hs). apply H. by rewrite Hx, <- Hs. }
  assert (forall d, (as_status <$> db_assets d !! "asset") = Some "ready" -> ready "asset" d) as Hr.
  { intros d (x & Hx & Hs)%fmap_Some. by exists x. }
  split_and!; [apply Hun|apply Hr|apply Hun|apply Hr]; vm_compute; try discriminate; reflexivity.
Qed.
Lemma alone X n d : unready X d -> unready X (others n d).
Proof. done. Qed.
Lemma abr_world_wf : db_wf (w_db abr_world).
Proof. exact (fresh_wf (w_db abr_world) eq_refl eq_refl). Qed.
Lemma stopped_world_wf : db_wf (w_db stopped_world).
Proof.
  eapply acts_safe; [apply (prepare_job_acts (mkAbrDeps "alice" 0))|apply abr_world_wf|apply surjective_pairing].
Qed.

(** The asset of the run and the asset of the recovery. *)
Lemma delivered_asset_is_paid_for_witness :
  (exists p s resp, settled_in "asset" (w_db finished_world) (pq_operationId p) s resp) /\
  exists op s resp, settled_in "asset" (w_db recovered_world) (op_id op) s resp.
Proof.
  destruct sample_assets_get_ready as (H1 & H2 & H3 & H4). split.
  - destruct (delivered_asset_is_paid_for sample_abr_deps sample_recovery_deps "asset" (alone "asset") abr_world
      abr_world_wf H1) as [Hrun _].
    destruct (Hrun sourced_asset sample_job_route _ finished_world (surjective_pairing _) H2)
      as (_ & _ & p & w1 & s & resp & t & n' & _ & _ & _ & Hs). exists p, s, resp. exact Hs.
  - destruct (delivered_asset_is_paid_for sample_abr_deps sample_recovery_deps "asset" (alone "asset") stopped_world
      stopped_world_wf H3) as [_ Hsweep].
    destruct (Hsweep 10 _ recovered_world (surjective_pairing _) H4)
      as (op & wa & wb & _ & ? & ? & j & w1 & ? & ? & s & resp & t & n' & _ & _ & _ & _ & _ & Hs).
    exists op, s, resp. exact Hs.
Defined.


(** A recovery of the prepared job, from what was stored. *)
Definition prepared_world : world := snd sample_prepared.
Definition prepared_operation : option PaidOperation :=
  rowToOperation <$> head (rows_where (fun _ => true) (db_paid_operations (w_db prepared_world))).

Definition prepared_result : result exn PreparedJob := fst sample_prepared.
Definition loaded_job (op : PaidOperation) (p : PreparedJob) : result exn RecoveredJob :=
  fst (load_job op "asset" (pq_claim p) prepared_world).

Lemma sample_recovery_facts :
  match prepared_result, prepared_operation with
  | Ok p, Some op =>
      match loaded_job op p with
      | Ok j => abr_paidRoute sample_job_route = Ok (op_route op) /\
          op_fundedUnits op = string_of_Z (fe_maxTotalUnits (pq_funding p)) /\
          rj_requestId j = pq_requestId p /\ rj_encoded j = pq_encoded p /\
          as_id (rj_asset j) = as_id sourced_asset /\
          fe_estimatedUnits (pq_funding p) = 469 /\ fe_maxTotalUnits (pq_funding p) = 563
      | Err _ => False
      end
  | _, _ => False
  end.
Proof. vm_compute. split_and!; reflexivity. Qed.

Lemma recovered_job_raises_the_estimate_witness :
  exists p op j again, prepared_result = Ok p /\ prepared_operation = Some op /\
    loaded_job op p = Ok j /\ recovered_request op j = Ok again /\
    jr_estimatedUnits (job_request sourced_asset sample_job_route p) = 469 /\ jr_estimatedUnits again = 563.
Proof.
  pose proof sample_recovery_facts as H.
  destruct prepared_result as [p|e] eqn:Hp; [|destruct H].
  destruct prepared_operation as [op|]; [|destruct H].
  destruct (loaded_job op p) as [j|e] eqn:Hj; [|destruct H].
  destruct H as (H1 & H2 & H3 & H4 & H5 & H6 & H7).
  destruct (recovered_job_raises_the_estimate sample_abr_deps sourced_asset sample_job_route abr_world p prepared_world
    op j) as (again & Hr & _ & _ & _ & _ & _ & _ & _ & _ & _ & _ & Hmax);
    [|exact H1|exact H2|exact H3|exact H4|exact H5|reflexivity|reflexivity|].
  - unfold prepared_world. rewrite <- Hp. apply surjective_pairing.
  - exists p, op, j, again. split; [reflexivity|]. split; [reflexivity|]. split; [exact Hj|]. split; [exact Hr|].
    split; [exact H6|]. rewrite Hmax. exact H7.
Defined.
