(* ===== verification/JsonCompare.v ===== *)
(** * Comparing JSON and prices (livepeer/routeSelectorHelpers.ts)

    What route selection compares: the extra properties and constraints of a route as
    JSON, prices as big integers.  [compareCandidates] itself is in [RouteSelector],
    with the candidates. *)

From S2P Require Import Prelude Js Types Http LocClient.
From Stdlib Require Import Ascii.
Open Scope Z_scope.

(** ** Values a property access can give

    [candidate[key] ?? null] looks a key up in the object and then in its prototype: a
    key the object does not have but [Object.prototype] has gives a function, or for
    one name the prototype object itself. *)

Inductive jsval : Type :=
| Val (j : json)
| Fn
| Proto.

Definition prototype_methods : list string :=
  ["constructor"; "__defineGetter__"; "__defineSetter__"; "hasOwnProperty"; "__lookupGetter__";
   "__lookupSetter__"; "isPrototypeOf"; "propertyIsEnumerable"; "toString"; "valueOf"; "toLocaleString"].

Definition inherited (k : string) : jsval := if bool_decide (k ∈ prototype_methods) then Fn else Val JNull.
Definition prop (v : jsval) (k : string) : jsval :=
  match v with
  | Val (JObj fields) =>
      match assoc k fields with
      | Some j => Val j
      | None => if k ==? "__proto__" then Proto else inherited k
      end
  | Proto => inherited k
  | _ => Val JNull
  end.

Definition keys {A} (fields : list (string * A)) : list string := map fst fields.
(** [Object.keys(a).sort()] *)
Definition sorted_keys {A} (fields : list (string * A)) : list string := sort_by String.compare (keys fields).

(** [a] and [b] are two values of JSON text; the values of an object are compared under
    its sorted keys. *)
Fixpoint deepEqual (a b : json) {struct a} : bool :=
  match a, b with
  | JNull, JNull => true
  | JBool x, JBool y => Bool.eqb x y
  | JNum x, JNum y => num_eqb x y
  | JStr x, JStr y => x ==? y
  | JArr l, JArr r =>
      (fix every (l r : list json) : bool :=
         match l, r with
         | [], [] => true
         | v :: l', w :: r' => deepEqual v w && every l' r'
         | _, _ => false
         end) l r
  | JObj l, JObj r =>
      let keysA := sorted_keys l in
      let keysB := sorted_keys r in
      let same := map (fun kv => (fst kv, deepEqual (snd kv))) l in
      Nat.eqb (length keysA) (length keysB) &&
      forallb (fun kk => (fst kk ==? snd kk) &&
                         match assoc (fst kk) same with
                         | Some same_as => same_as (assoc (fst kk) r ?? JNull)
                         | None => false
                         end) (zip keysA keysB)
  | _, _ => false
  end.

(** [deepEqual] of a value that was looked up: nothing of JSON equals a function or the
    prototype. *)
Definition deepEqual_val (a : jsval) (b : json) : bool :=
  match a with Val j => deepEqual j b | _ => false end.

Definition isJsonObject (v : jsval) : bool :=
  match v with Val (JObj _) | Proto => true | _ => false end.
Definition as_array (v : jsval) : option (list json) :=
  match v with Val (JArr l) => Some l | _ => None end.

Fixpoint isSubset (candidate : jsval) (required : json) {struct required} : bool :=
  match required with
  | JArr l =>
      match as_array candidate with
      | Some cs => forallb (fun rv => existsb (fun cv => deepEqual cv rv) cs) l
      | None => false
      end
  | JObj fields =>
      isJsonObject candidate &&
      forallb (fun kv => isSubset (prop candidate (fst kv)) (snd kv)) fields
  | _ => deepEqual_val candidate required
  end.

Definition count_of (b : bool) : Z := if b then 1 else 0.

Fixpoint countMatchingLeaves (candidate : jsval) (preferred : json) {struct preferred} : Z :=
  match preferred with
  | JArr l =>
      match as_array candidate with
      | Some cs => foldl (fun sum v => sum + count_of (existsb (fun cv => deepEqual cv v) cs)) 0 l
      | None => 0
      end
  | JObj fields =>
      if isJsonObject candidate then
        foldl (fun matches kv => matches + countMatchingLeaves (prop candidate (fst kv)) (snd kv)) 0 fields
      else 0
  | _ => count_of (deepEqual_val candidate preferred)
  end.

Record Score := mkScore { fullMatch : bool; matchedLeaves : Z }.

(** A route without extra properties has [null] there. *)
Definition scorePreference (candidate : option json) (preferred : option json) : Score :=
  match preferred with
  | None | Some JNull => mkScore true 0
  | Some p =>
      let c := Val (candidate ?? JNull) in
      mkScore (isSubset c p) (countMatchingLeaves c p)
  end.

(** ** Merging *)

(** [{ ...a, ...b }]: a key of both keeps its place in [a] and takes the value of [b]. *)
Definition spread (a b : list (string * json)) : list (string * json) :=
  map (fun kv => (fst kv, assoc (fst kv) b ?? snd kv)) a ++
  List.filter (fun kv => negb (is_present (assoc (fst kv) a))) b.

(** The type [JsonValue | null]: a JSON [null] and an absent value are the same. *)
Definition json_or_null (j : option json) : option json :=
  match j with Some JNull => None | _ => j end.

Definition mergeJsonObjects (a b : option json) : option json :=
  match a, b with
  | Some (JObj x), Some (JObj y) => Some (JObj (spread x y))
  | Some (JObj _), _ => a
  | _, _ => b
  end.
Definition mergeSelectorValue (a b : option json) : option json :=
  match json_or_null a, json_or_null b with
  | None, _ => json_or_null b
  | a', None => a'
  | a', b' => or_else (mergeJsonObjects a' b') b'
  end.

(** ** Big integers

    [BigInt(text)]: white space is trimmed, the empty string is zero, a decimal may be
    signed, and hexadecimal, octal and binary literals are not. *)

Definition radix_digit (c : ascii) : option Z :=
  if is_digit c then Some (digit_value c)
  else if is_lower c then Some (Z.of_nat (code c) - 87)
  else if is_upper c then Some (Z.of_nat (code c) - 55)
  else None.
Fixpoint radix_value (radix acc : Z) (s : string) : option Z :=
  match s with
  | EmptyString => Some acc
  | String c s' =>
      match radix_digit c with
      | Some d => if d <? radix then radix_value radix (radix * acc + d) s' else None
      | None => None
      end
  end.
Definition radix_literal (radix : Z) (s : string) : option Z :=
  if nonempty s then radix_value radix 0 s else None.
Definition BigInt (text : string) : option Z :=
  match trim text with
  | EmptyString => Some 0
  | String "0" (String ("x" | "X") s) => radix_literal 16 s
  | String "0" (String ("o" | "O") s) => radix_literal 8 s
  | String "0" (String ("b" | "B") s) => radix_literal 2 s
  | String "-" s => Z.opp <$> radix_literal 10 s
  | String "+" s => radix_literal 10 s
  | s => radix_literal 10 s
  end.

Definition safeBigInt (value : string) : Z := BigInt value ?? 0.
Definition compareBigInts (a b : string) : comparison := Z.compare (safeBigInt a) (safeBigInt b).

(** ** Values from outside

    A header may be given once or several times; the first one counts. *)

Inductive header_value : Type :=
| One (s : string)
| Many (l : list string).

Definition first_value (value : option header_value) : option string :=
  match value with
  | Some (One s) => Some s
  | Some (Many l) => head l
  | None => None
  end.

(** A field of a protocol message: bytes, a string, or left out. *)
Inductive opaque : Type :=
| Raw (b : bytes)
| Text (s : string).

(** [Buffer.from(b).toString("utf8")] and [Buffer.from(s, "utf8")] *)
Class TextEncoding := {
  utf8_text : bytes -> string;
  utf8_bytes : string -> bytes
}.

Section parsing.
Context `{Plat : Platform} `{Utf8 : TextEncoding}.

Definition parseJsonHeader (value : option header_value) : result exn (option json) :=
  match first_value value with
  | Some raw => if nonempty raw then
                  match json_parse raw with
                  | Some j => Ok (json_or_null (Some j))
                  | None => Err (PlainError "JSON.parse")
                  end
                else Ok None
  | None => Ok None
  end.

Definition parseBigIntHeader (value : option header_value) : result exn (option Z) :=
  match first_value value with
  | Some raw => if nonempty raw then
                  match BigInt raw with
                  | Some z => Ok (Some z)
                  | None => Err (PlainError "BigInt")
                  end
                else Ok None
  | None => Ok None
  end.

(** An empty buffer is an object and so true; its text is empty. *)
Definition parseOpaqueJson (raw : option opaque) : result exn (option json) :=
  match raw with
  | None => Ok None
  | Some r =>
      let text := match r with Raw b => utf8_text b | Text s => s end in
      if nonempty text then
        match json_parse text with
        | Some j => Ok (json_or_null (Some j))
        | None => Err (PlainError "JSON.parse")
        end
      else Ok None
  end.

Definition parseOpaqueBytes (raw : option opaque) : option bytes :=
  match raw with
  | Some (Raw b) => Some b
  | Some (Text s) => if nonempty s then Some (utf8_bytes s) else None
  | None => None
  end.
End parsing.

(** A 64-bit count: a safe integer as a number, or its canonical decimal text. *)
Definition parseOptionalUint64 (value : option json) : option string :=
  match value with
  | Some (JNum (NInt z)) => if safe_integer z && (0 <=? z) then Some (string_of_Z z) else None
  | Some (JStr s) =>
      match decimal_value s with
      | Some z => if z <=? UINT64_MAX then Some s else None
      | None => None
      end
  | _ => None
  end.

(** ** Reference definitions

    Two JSON values are the same when they agree up to the order of the fields of
    objects: their canonical forms, with the fields of every object sorted, are equal.
    JSON text gives no NaN; [JSON.parse] gives an object each key once. *)

Definition by_key {A} : string * A -> string * A -> comparison := compare_on fst String.compare.
#[export] Instance by_key_comparator {A} : Comparator (@by_key A) := compare_on_comparator _ _ _.
#[global] Typeclasses Opaque by_key.

Fixpoint canonical (j : json) : json :=
  match j with
  | JArr l => JArr (map canonical l)
  | JObj fields => JObj (sort_by by_key (map (fun kv => (fst kv, canonical (snd kv))) fields))
  | _ => j
  end.

Fixpoint wf_json (j : json) : bool :=
  match j with
  | JNum NNaN => false
  | JArr l => forallb wf_json l
  | JObj fields => bool_decide (NoDup (keys fields)) && forallb (fun kv => wf_json (snd kv)) fields
  | _ => true
  end.

(** The leaves of a preference: the items of an array count one each. *)
Fixpoint leaves (j : json) : Z :=
  match j with
  | JArr l => Z.of_nat (length l)
  | JObj fields => foldl (fun n kv => n + leaves (snd kv)) 0 fields
  | _ => 1
  end.

(** ** Induction over JSON *)

Section json_induction.
Context (P : json -> Prop).
Context (Hnull : P JNull) (Hbool : forall b, P (JBool b)) (Hnum : forall n, P (JNum n))
  (Hstr : forall s, P (JStr s)) (Harr : forall l, Forall P l -> P (JArr l))
  (Hobj : forall fields, Forall (fun kv => P (snd kv)) fields -> P (JObj fields)).

Fixpoint json_nested_ind (j : json) : P j :=
  match j with
  | JNull => Hnull
  | JBool b => Hbool b
  | JNum n => Hnum n
  | JStr s => Hstr s
  | JArr l =>
      Harr l ((fix items l := match l return Forall P l with
                              | [] => Forall_nil_2 _
                              | x :: l' => Forall_cons_2 _ _ _ (json_nested_ind x) (items l')
                              end) l)
  | JObj fields =>
      Hobj fields ((fix items l := match l return Forall (fun kv => P (snd kv)) l with
                                   | [] => Forall_nil_2 _
                                   | (k, x) :: l' => Forall_cons_2 _ (k, x) _ (json_nested_ind x) (items l')
                                   end) fields)
  end.
End json_induction.

(** ** Objects as maps *)

Lemma assoc_map {A B} (f : A -> B) k (l : list (string * A)) :
  assoc k (map (fun kv => (fst kv, f (snd kv))) l) = f <$> assoc k l.
Proof. induction l as [|[k' v] l IH]; cbn; [done|]. by case_bool_decide. Qed.

Lemma assoc_lookup {A} k (l : list (string * A)) : assoc k l = (list_to_map l : gmap string A) !! k.
Proof.
  induction l as [|[k' v] l IH]; cbn; [done|]. case_bool_decide as E.
  - subst. by rewrite lookup_insert_eq.
  - by rewrite lookup_insert_ne by congruence.
Qed.

Lemma assoc_keys {A} k (l : list (string * A)) : is_Some (assoc k l) <-> k ∈ keys l.
Proof.
  unfold keys. induction l as [|[k' v] l IH]; cbn.
  - split; [by intros []|by intros ?%not_elem_of_nil].
  - rewrite elem_of_cons. case_bool_decide as E; [split; [by left|eauto]|]. rewrite IH. naive_solver.
Qed.

Lemma sorted_keys_eq {A B} (l : list (string * A)) (r : list (string * B)) :
  sorted_keys l = sorted_keys r <-> keys l ≡ₚ keys r.
Proof.
  unfold sorted_keys. split; intros H.
  - by rewrite <- (sort_by_Permutation String.compare (keys l)), H, (sort_by_Permutation String.compare).
  - eapply (StronglySorted_unique_strong (cmp_le String.compare)); [|apply sort_by_sorted; apply _..|].
    + intros x y _ _ Hxy Hyx. apply le_compare in Hxy, Hyx. by apply (anti_symm String.le).
    + by rewrite !sort_by_Permutation.
Qed.

Lemma sorted_fields_eq (l r : list (string * json)) :
  NoDup (keys l) -> NoDup (keys r) ->
  sort_by by_key l = sort_by by_key r <-> forall k, assoc k l = assoc k r.
Proof.
  intros Hl Hr. split; intros H.
  - intros k. rewrite !assoc_lookup. f_equal. apply list_to_map_proper; [done|].
    by rewrite <- (sort_by_Permutation by_key l), H, sort_by_Permutation.
  - assert (l ≡ₚ r) as Hp.
    { apply (list_to_map_inj (M := gmap string)); [done..|]. apply map_eq. intros k. by rewrite <- !assoc_lookup. }
    eapply (StronglySorted_unique_strong (cmp_le by_key)); [|apply sort_by_sorted; apply _..|].
    + intros [k v] [k' v']. rewrite !elem_of_sort_by. intros Hx Hy H1 H2.
      unfold cmp_le, by_key, compare_on in H1, H2. cbn in H1, H2. apply le_compare in H1, H2.
      assert (k = k') as <- by (by apply (anti_symm String.le)). rewrite Hp in Hx. f_equal.
      apply (elem_of_list_to_map_1 (M := gmap string)) in Hx, Hy; [|done..]. congruence.
    + by rewrite !sort_by_Permutation.
Qed.

Lemma keys_map {A B} (f : A -> B) (l : list (string * A)) :
  keys (map (fun kv => (fst kv, f (snd kv))) l) = keys l.
Proof. unfold keys. rewrite map_map. by apply map_ext. Qed.

(** ** Equality of objects, value by value *)

Lemma zip_same_true (l r : list string) (f : string -> bool) :
  Nat.eqb (length l) (length r) && forallb (fun kk => (fst kk ==? snd kk) && f (fst kk)) (zip l r) = true <->
  l = r /\ Forall (fun k => f k = true) l.
Proof.
  revert r. induction l as [|x l IH]; intros [|y r]; cbn; [done|by split; [|intros []]..|].
  rewrite andb_assoc, (andb_comm (Nat.eqb _ _)), <- andb_assoc, !andb_true_iff, bool_decide_eq_true.
  rewrite <- andb_true_iff, IH, Forall_cons. split; [intros [[-> ?] [-> ?]]; done|intros [[= -> ->] []]; done].
Qed.

(** Whether the values of the same keys are related, and no key is on one side only. *)
Definition fields_related (R : json -> json -> bool) (l r : list (string * json)) : Prop :=
  forall k, option_Forall2 (fun v w => R v w = true) (assoc k l) (assoc k r).

Lemma related_keys R l r :
  NoDup (keys l) -> NoDup (keys r) -> fields_related R l r -> keys l ≡ₚ keys r.
Proof.
  intros Hl Hr H. apply NoDup_Permutation; [done..|]. intros k. rewrite <- !assoc_keys.
  destruct (H k); naive_solver.
Qed.

Lemma deepEqual_objects l r :
  NoDup (keys l) -> NoDup (keys r) ->
  deepEqual (JObj l) (JObj r) = true <-> fields_related deepEqual l r.
Proof.
  intros Hl Hr. cbn [deepEqual]. cbv zeta.
  rewrite (zip_same_true _ _ (fun k => match assoc k (map (fun kv => (fst kv, deepEqual (snd kv))) l) with
                                       | Some same_as => same_as (assoc k r ?? JNull)
                                       | None => false
                                       end)), sorted_keys_eq, Forall_forall.
  split.
  - intros [Hk Heach] k. destruct (assoc k l) as [v|] eqn:El.
    + assert (k ∈ sorted_keys l) as Hin by (apply elem_of_sort_by, assoc_keys; eauto).
      specialize (Heach k Hin). rewrite assoc_map, El in Heach. cbn in Heach.
      destruct (proj2 (assoc_keys k r)) as [w Ew]; [rewrite <- Hk; apply assoc_keys; eauto|].
      rewrite Ew in *. by constructor.
    + destruct (assoc k r) as [w|] eqn:Er; [|constructor].
      destruct (proj2 (assoc_keys k l)) as [? ?]; [rewrite Hk; apply assoc_keys; eauto|congruence].
  - intros H. split; [by eapply related_keys|]. intros k Hin. rewrite assoc_map.
    apply elem_of_sort_by, assoc_keys in Hin as [v Hv]. specialize (H k). rewrite Hv in H |- *.
    by inv H.
Qed.

Definition each_same (r : list (string * json)) : list (string * json) -> bool :=
  fix each l :=
    match l with
    | [] => true
    | (k, v) :: l' => match assoc k r with Some w => sameJson v w | None => false end && each l'
    end.

Lemma each_same_true r l :
  each_same r l = true <-> Forall (fun kv => exists w, assoc (fst kv) r = Some w /\ sameJson (snd kv) w = true) l.
Proof.
  induction l as [|[k v] l IH]; cbn; [by split|]. rewrite andb_true_iff, IH, Forall_cons. cbn.
  destruct (assoc k r); naive_solver.
Qed.

Lemma assoc_elem {A} k v (l : list (string * A)) : NoDup (keys l) -> assoc k l = Some v <-> (k, v) ∈ l.
Proof. intros Hl. rewrite assoc_lookup. symmetry. by apply elem_of_list_to_map. Qed.

Lemma sameJson_objects l r :
  NoDup (keys l) -> NoDup (keys r) ->
  sameJson (JObj l) (JObj r) = true <-> fields_related sameJson l r.
Proof.
  intros Hl Hr. change (sameJson (JObj l) (JObj r)) with (Nat.eqb (length l) (length r) && each_same r l).
  rewrite andb_true_iff, Nat.eqb_eq, each_same_true, Forall_forall. split.
  - intros [Hlen Heach]. assert (keys l ≡ₚ keys r) as Hk.
    { apply submseteq_length_Permutation; [|unfold keys; rewrite !length_map; lia].
      apply NoDup_submseteq; [done|]. intros k [v Hv]%assoc_keys. apply assoc_keys.
      destruct (Heach (k, v)) as (w & Hw & _); [by apply assoc_elem|]. by eexists. }
    intros k. destruct (assoc k l) as [v|] eqn:El.
    + destruct (Heach (k, v)) as (w & Hw & Hs); [by apply assoc_elem|]. cbn in *. rewrite Hw. by constructor.
    + destruct (assoc k r) as [w|] eqn:Er; [|constructor].
      destruct (proj2 (assoc_keys k l)) as [? ?]; [rewrite Hk; apply assoc_keys; eauto|congruence].
  - intros H. split.
    + pose proof (related_keys _ _ _ Hl Hr H) as Hk%Permutation_length. unfold keys in Hk.
      by rewrite !length_map in Hk.
    + intros [k v] Hin. apply assoc_elem in Hin; [|done]. specialize (H k). rewrite Hin in H.
      inv H. eauto.
Qed.

Lemma canonical_objects l r :
  NoDup (keys l) -> NoDup (keys r) ->
  canonical (JObj l) = canonical (JObj r) <->
  forall k, canonical <$> assoc k l = canonical <$> assoc k r.
Proof.
  intros Hl Hr. cbn [canonical].
  transitivity (forall k, assoc k (map (fun kv => (fst kv, canonical (snd kv))) l) =
                          assoc k (map (fun kv => (fst kv, canonical (snd kv))) r)).
  - rewrite <- sorted_fields_eq by (by rewrite keys_map). split; [by intros [= H]|by intros ->].
  - apply forall_proper. intros k. by rewrite !assoc_map.
Qed.

Lemma wf_fields l : wf_json (JObj l) = true -> NoDup (keys l) /\ forall k v, assoc k l = Some v -> wf_json v = true.
Proof.
  cbn. rewrite andb_true_iff, bool_decide_eq_true, forallb_forall. intros [Hl H]. split; [done|].
  intros k v Hv. apply assoc_elem, list_elem_of_In in Hv; [|done]. by apply (H (k, v)).
Qed.

(** Two relations that agree on the values of [l] agree on objects. *)
Lemma related_ext (P : json -> Prop) (R : json -> json -> bool) (l r : list (string * json)) (S : json -> json -> Prop) :
  NoDup (keys l) -> Forall (fun kv => P (snd kv)) l ->
  (forall k v, assoc k r = Some v -> wf_json v = true) -> (forall k v, assoc k l = Some v -> wf_json v = true) ->
  (forall v w, P v -> wf_json v = true -> wf_json w = true -> R v w = true <-> S v w) ->
  fields_related R l r <-> forall k, option_Forall2 S (assoc k l) (assoc k r).
Proof.
  intros Hl HP Hr Hwl HRS. apply forall_proper. intros k.
  destruct (assoc k l) as [v|] eqn:El, (assoc k r) as [w|] eqn:Er;
    (split; intros H; inv H; try constructor).
  all: assert (P v) by (rewrite Forall_forall in HP; apply (HP (k, v)); by apply assoc_elem);
    apply HRS; eauto.
Qed.

Lemma num_eqb_true n m : n <> NNaN -> num_eqb n m = true <-> n = m.
Proof. destruct n, m; cbn; rewrite ?bool_decide_eq_true; naive_solver. Qed.

Lemma option_Forall2_eq {A B} (f : A -> B) (x y : option A) :
  option_Forall2 (fun v w => f v = f w) x y <-> f <$> x = f <$> y.
Proof.
  destruct x, y; cbn; (split; intros H; [inv H; f_equal; done|try done]); constructor; by injection H.
Qed.

(** ** [deepEqual], [sameJson] and the canonical form agree *)

Definition arrays_related (R : json -> json -> bool) : list json -> list json -> bool :=
  fix every l r :=
    match l, r with
    | [], [] => true
    | v :: l', w :: r' => R v w && every l' r'
    | _, _ => false
    end.

Lemma arrays_related_true (R : json -> json -> bool) l r :
  arrays_related R l r = true <-> Forall2 (fun v w => R v w = true) l r.
Proof.
  revert r. induction l as [|v l IH]; intros [|w r]; cbn.
  - by split.
  - by split; intros H; inv H.
  - by split; intros H; inv H.
  - rewrite andb_true_iff, IH. split; [by intros []; constructor|intros H; by inv H].
Qed.

Lemma canonical_arrays l r :
  canonical (JArr l) = canonical (JArr r) <-> Forall2 (fun v w => canonical v = canonical w) l r.
Proof.
  cbn. transitivity (map canonical l = map canonical r); [split; [by intros [=]|by intros ->]|].
  revert r. induction l as [|v l IH]; intros [|w r]; cbn.
  - by split.
  - by split; intros H; inv H.
  - by split; intros H; inv H.
  - rewrite Forall2_cons, <- IH. split; [by intros [=]|by intros [-> ->]].
Qed.

Lemma related_arrays (R : json -> json -> bool) l r :
  Forall (fun v => forall w, wf_json v = true -> wf_json w = true -> R v w = true <-> canonical v = canonical w) l ->
  forallb wf_json l = true -> forallb wf_json r = true ->
  arrays_related R l r = true <-> canonical (JArr l) = canonical (JArr r).
Proof.
  rewrite arrays_related_true, canonical_arrays, !forallb_forall, Forall_forall.
  rewrite !Forall2_same_length_lookup. intros IH Hl Hr.
  split; intros [Hlen H]; (split; [done|]); intros i v w Hv Hw; specialize (H i v w Hv Hw);
    apply IH; eauto using list_elem_of_lookup_2; [apply Hl|apply Hr|apply Hl|apply Hr];
    eauto using list_elem_of_In, list_elem_of_lookup_2.
  all: apply list_elem_of_In; by eapply list_elem_of_lookup_2.
Qed.

Lemma related_fields (R : json -> json -> bool) l r :
  Forall (fun kv => forall w, wf_json (snd kv) = true -> wf_json w = true ->
            R (snd kv) w = true <-> canonical (snd kv) = canonical w) l ->
  wf_json (JObj l) = true -> wf_json (JObj r) = true ->
  fields_related R l r <-> canonical (JObj l) = canonical (JObj r).
Proof.
  intros IH [Hl Hwl]%wf_fields [Hr Hwr]%wf_fields. rewrite canonical_objects by done.
  rewrite (related_ext (fun v => forall w, wf_json v = true -> wf_json w = true ->
             R v w = true <-> canonical v = canonical w) R l r (fun v w => canonical v = canonical w)); eauto.
  apply forall_proper. intros k. apply option_Forall2_eq.
Qed.

Lemma deepEqual_canonical a b :
  wf_json a = true -> wf_json b = true -> deepEqual a b = true <-> canonical a = canonical b.
Proof.
  revert b. induction a as [|x|x|x|l IH|l IH] using json_nested_ind; intros b Ha Hb.
  5: { destruct b as [| | | |r|r]; try done. by apply (related_arrays deepEqual). }
  5: { destruct b as [| | | |r|r]; try done.
       rewrite deepEqual_objects by (by apply wf_fields). by apply related_fields. }
  all: destruct b; cbn; try done; try (split; discriminate).
  - destruct x, b; naive_solver.
  - rewrite num_eqb_true by (by intros ->). naive_solver.
  - rewrite bool_decide_eq_true. naive_solver.
Qed.

Lemma sameJson_canonical a b :
  wf_json a = true -> wf_json b = true -> sameJson a b = true <-> canonical a = canonical b.
Proof.
  revert b. induction a as [|x|x|x|l IH|l IH] using json_nested_ind; intros b Ha Hb.
  5: { destruct b as [| | | |r|r]; try done. by apply (related_arrays sameJson). }
  5: { destruct b as [| | | |r|r]; try done.
       rewrite sameJson_objects by (by apply wf_fields). by apply related_fields. }
  all: destruct b; cbn; try done; try (split; discriminate).
  - destruct x, b; naive_solver.
  - rewrite num_eqb_true by (by intros ->). naive_solver.
  - rewrite bool_decide_eq_true. naive_solver.
Qed.

(** C40: one notion of equality.  The route selector and the LOC client compare JSON
    with two different algorithms, one over the sorted keys and one by looking every
    key up.  On values of JSON text both decide the same relation, equality up to the
    order of the fields at every depth. *)
Theorem json_comparisons_agree a b :
  wf_json a = true -> wf_json b = true ->
  deepEqual a b = sameJson a b /\ (deepEqual a b = true <-> canonical a = canonical b).
Proof.
  intros Ha Hb. split; [|by apply deepEqual_canonical]. apply eq_true_iff_eq.
  by rewrite deepEqual_canonical, sameJson_canonical.
Qed.

Lemma json_comparisons_agree_witness :
  let a := JObj [("codec", JStr "h264"); ("sizes", JArr [JNum (NInt 720); JObj [("x", JNull); ("y", JBool true)]])] in
  let b := JObj [("sizes", JArr [JNum (NInt 720); JObj [("y", JBool true); ("x", JNull)]]); ("codec", JStr "h264")] in
  a <> b /\ deepEqual a b = sameJson a b /\ (deepEqual a b = true <-> canonical a = canonical b).
Proof.
  intros a b. split; [discriminate|].
  apply (json_comparisons_agree a b); vm_compute; reflexivity.
Defined.

(** ** Equality is an equivalence, and requirements respect it *)

Definition same_json (a b : json) : Prop := canonical a = canonical b.
#[export] Instance same_json_equivalence : Equivalence same_json.
Proof. unfold same_json. split; [intros a; done|intros a b; done|intros a b c; apply transitivity]. Qed.

Lemma isSubset_refl j : wf_json j = true -> isSubset (Val j) j = true.
Proof.
  induction j as [| | | |l IH|l IH] using json_nested_ind; intros Hj.
  5: { cbn in *. apply forallb_forall. intros x Hx. apply existsb_exists. exists x. split; [done|].
       rewrite forallb_forall in Hj. by apply deepEqual_canonical; auto. }
  5: { destruct (wf_fields l Hj) as [Hl Hw]. cbn [isSubset isJsonObject andb]. apply forallb_forall.
       intros [k v] Hin%list_elem_of_In. rewrite Forall_forall in IH. specialize (IH (k, v) Hin).
       apply assoc_elem in Hin; [|done]. cbn in *. rewrite Hin. eauto. }
  all: by apply deepEqual_canonical.
Qed.

Lemma foldl_sum_shift {A} (f : A -> Z) (l : list A) (n : Z) :
  foldl (fun s x => s + f x) n l = n + foldl (fun s x => s + f x) 0 l.
Proof.
  revert n. induction l as [|x l IH]; intros n; cbn [foldl]; [lia|].
  rewrite IH, (IH (0 + f x)). lia.
Qed.

Lemma foldl_sum_le {A} (f g : A -> Z) (l : list A) :
  Forall (fun x => 0 <= f x <= g x) l ->
  0 <= foldl (fun s x => s + f x) 0 l <= foldl (fun s x => s + g x) 0 l.
Proof.
  induction 1 as [|x l Hx Hl IH]; cbn [foldl]; [lia|].
  rewrite (foldl_sum_shift f), (foldl_sum_shift g). lia.
Qed.

Lemma foldl_sum_ext {A} (f g : A -> Z) (l : list A) :
  Forall (fun x => f x = g x) l -> foldl (fun s x => s + f x) 0 l = foldl (fun s x => s + g x) 0 l.
Proof. induction 1 as [|x l Hx Hl IH]; cbn [foldl]; [done|]. rewrite (foldl_sum_shift f), (foldl_sum_shift g). lia. Qed.

Lemma length_sum {A} (l : list A) : Z.of_nat (length l) = foldl (fun s _ => s + 1) 0 l.
Proof. induction l as [|x l IH]; cbn [foldl length]; [done|].
  rewrite (foldl_sum_shift (fun _ => 1)). lia. Qed.

Lemma count_of_bounds b : 0 <= count_of b <= 1.
Proof. destruct b; cbn; lia. Qed.

(** A candidate matches at most the leaves there are, and all of them if it satisfies
    the whole preference. *)
Lemma matching_leaves c p :
  0 <= countMatchingLeaves c p <= leaves p /\
  (isSubset c p = true -> countMatchingLeaves c p = leaves p).
Proof.
  revert c. induction p as [| | | |l IH|l IH] using json_nested_ind; intros c.
  5: { cbn. destruct (as_array c) as [cs|]; [|split; [lia|done]]. rewrite length_sum. split.
       - apply foldl_sum_le, Forall_forall. intros. apply count_of_bounds.
       - rewrite forallb_forall. intros H. apply foldl_sum_ext, Forall_forall. intros x Hx%list_elem_of_In.
         by rewrite H. }
  5: { cbn. rewrite Forall_forall in IH. destruct (isJsonObject c); cbn [andb].
       - split.
         + apply foldl_sum_le, Forall_forall. intros kv Hkv. apply IH. done.
         + rewrite forallb_forall. intros H. apply foldl_sum_ext, Forall_forall. intros kv Hkv.
           apply IH; [done|]. by apply H, list_elem_of_In.
       - split; [|done]. split; [done|]. transitivity (foldl (fun n (_ : string * json) => n + 0) 0 l).
         { clear. induction l; cbn; [lia|done]. }
         apply foldl_sum_le, Forall_forall. intros kv Hkv. split; [lia|]. destruct (IH kv Hkv (Val JNull)). lia. }
  all: cbn; (split; [apply count_of_bounds|by intros ->]).
Qed.
