(* ===== verification/RouteHealth.v ===== *)
(** * Route health (livepeer/routeHealth.ts)

    Every outcome of an attempt on a route is recorded under the route's key.  A route
    that fails often enough in a row is put aside for a while: [rankCandidates] places
    it after every route that is not cooling down. *)

From S2P Require Import Prelude Js Types Outcome.
From Stdlib Require Import Ascii.
Open Scope Z_scope.

Record RouteHealthPolicy := mkHealthPolicy {
  hp_failureThreshold : Z;
  hp_cooldownMs : Z
}.

Record RouteOutcome := mkOutcome {
  oc_ok : bool;
  oc_retryable : bool;
  oc_category : option V2FailureCategory;
  oc_penalizeRoute : option bool
}.

Record RouteState := mkRouteState {
  rs_consecutiveFailures : Z;
  rs_cooldownUntil : Z;
  rs_lastFailureAt : option Z;
  rs_lastFailureReason : option string;
  rs_lastFailureCategory : option V2FailureCategory;
  rs_lastSuccessAt : option Z
}.
#[export] Instance RouteState_eta : RecEta RouteState := fun r =>
  mkRouteState (rs_consecutiveFailures r) (rs_cooldownUntil r) (rs_lastFailureAt r)
    (rs_lastFailureReason r) (rs_lastFailureCategory r) (rs_lastSuccessAt r).

Record RouteHealthSnapshot := mkSnapshot {
  sn_key : string;
  sn_consecutiveFailures : Z;
  sn_coolingDown : bool;
  sn_cooldownUntil : option Z;
  sn_lastFailureAt : option Z;
  sn_lastFailureReason : option string;
  sn_lastFailureCategory : option V2FailureCategory;
  sn_lastSuccessAt : option Z
}.

Record RouteHealthMetrics := mkMetrics {
  me_attemptsTotal : Z;
  me_successesTotal : Z;
  me_retryableFailuresTotal : Z;
  me_nonRetryableFailuresTotal : Z;
  me_cooldownsOpenedTotal : Z;
  me_failuresByCategory : list (V2FailureCategory * Z)
}.
#[export] Instance RouteHealthMetrics_eta : RecEta RouteHealthMetrics := fun m =>
  mkMetrics (me_attemptsTotal m) (me_successesTotal m) (me_retryableFailuresTotal m)
    (me_nonRetryableFailuresTotal m) (me_cooldownsOpenedTotal m) (me_failuresByCategory m).

Record RouteHealthSummary := mkHealthSummary {
  su_tracked_routes : Z;
  su_cooling_routes : Z;
  su_routes_with_failures : Z;
  su_latest_failure_at : option Z;
  su_latest_success_at : option Z
}.

Definition freshState : RouteState := mkRouteState 0 0 None None None None.
Definition freshCategoryCounts : list (V2FailureCategory * Z) :=
  [(caller, 0); (capacity, 0); (payment, 0); (backend, 0); (protocol, 0); (recovery, 0); (evidence, 0)].

(** ** The tracker

    The map of states keeps its keys in the order of their first use, which is the
    order of [inspect]. *)

Record tracker := mkTracker {
  tk_states : list (string * RouteState);
  tk_metrics : RouteHealthMetrics
}.
#[export] Instance tracker_eta : RecEta tracker := fun t => mkTracker (tk_states t) (tk_metrics t).

Definition fresh_tracker : tracker := mkTracker [] (mkMetrics 0 0 0 0 0 freshCategoryCounts).

(** [Map.prototype.set] *)
Fixpoint map_set {A} (k : string) (v : A) (l : list (string * A)) : list (string * A) :=
  match l with
  | [] => [(k, v)]
  | (k', v') :: l' => if k ==? k' then (k', v) :: l' else (k', v') :: map_set k v l'
  end.

(** [counts[category] += 1] *)
Definition bump (category : option V2FailureCategory) (counts : list (V2FailureCategory * Z)) :
    list (V2FailureCategory * Z) :=
  match category with
  | Some c => map (fun e => if fst e ==? c then (fst e, snd e + 1) else e) counts
  | None => counts
  end.

Section tracker.
Context {TCandidate : Type} (keyOf : TCandidate -> string) (policy : RouteHealthPolicy).

Definition state_of (t : tracker) (candidate : TCandidate) : RouteState :=
  assoc (keyOf candidate) (tk_states t) ?? freshState.

Definition isCoolingDown (t : tracker) (candidate : TCandidate) (now : Z) : bool :=
  now <? (rs_cooldownUntil <$> assoc (keyOf candidate) (tk_states t)) ?? 0.

Definition rankCandidates (t : tracker) (candidates : list TCandidate) (now : Z) : list TCandidate :=
  let '(ready, cooling) :=
    foldl (fun '(ready, cooling) c =>
             if isCoolingDown t c now then (ready, cooling ++ [c]) else (ready ++ [c], cooling))
      ([], []) candidates in
  if (0 <? length ready)%nat then ready ++ cooling else cooling.

Definition record (t : tracker) (candidate : TCandidate) (outcome : RouteOutcome) (reason : option string)
    (now : Z) : tracker :=
  let key := keyOf candidate in
  let state := assoc key (tk_states t) ?? freshState in
  let m := tk_metrics t in
  let m := m <| me_attemptsTotal := me_attemptsTotal m + 1 |> in
  if oc_ok outcome then
    mkTracker
      (map_set key (state <| rs_consecutiveFailures := 0 |> <| rs_cooldownUntil := 0 |>
                          <| rs_lastSuccessAt := Some now |>) (tk_states t))
      (m <| me_successesTotal := me_successesTotal m + 1 |>)
  else
  let failed := state <| rs_lastFailureAt := Some now |> <| rs_lastFailureReason := reason |>
                      <| rs_lastFailureCategory := oc_category outcome |> in
  let m := m <| me_failuresByCategory := bump (oc_category outcome) (me_failuresByCategory m) |> in
  if negb (oc_retryable outcome) then
    mkTracker (map_set key failed (tk_states t))
      (m <| me_nonRetryableFailuresTotal := me_nonRetryableFailuresTotal m + 1 |>)
  else
  let m := m <| me_retryableFailuresTotal := me_retryableFailuresTotal m + 1 |> in
  if oc_penalizeRoute outcome ==? Some false then mkTracker (map_set key failed (tk_states t)) m
  else
  let failed := failed <| rs_consecutiveFailures := rs_consecutiveFailures failed + 1 |> in
  if (hp_failureThreshold policy <=? rs_consecutiveFailures failed) && (rs_cooldownUntil failed <=? now) then
    mkTracker (map_set key (failed <| rs_cooldownUntil := now + hp_cooldownMs policy |>) (tk_states t))
      (m <| me_cooldownsOpenedTotal := me_cooldownsOpenedTotal m + 1 |>)
  else mkTracker (map_set key failed (tk_states t)) m.
End tracker.

Definition inspect (t : tracker) (now : Z) : list RouteHealthSnapshot :=
  map (fun '(key, state) =>
         mkSnapshot key (rs_consecutiveFailures state) (now <? rs_cooldownUntil state)
           (if 0 <? rs_cooldownUntil state then Some (rs_cooldownUntil state) else None)
           (rs_lastFailureAt state) (rs_lastFailureReason state) (rs_lastFailureCategory state)
           (rs_lastSuccessAt state)) (tk_states t).

(** The copy shares nothing with the counters that go on. *)
Definition inspectMetrics (t : tracker) : RouteHealthMetrics := tk_metrics t.

(** ** Reports *)

Definition latest (acc : option Z) (at_ : option Z) : option Z :=
  match at_, acc with
  | Some a, None => Some a
  | Some a, Some l => if l <? a then Some a else acc
  | None, _ => acc
  end.

Definition summarizeRouteHealth (health : list RouteHealthSnapshot) : RouteHealthSummary :=
  mkHealthSummary (Z.of_nat (length health))
    (Z.of_nat (length (List.filter sn_coolingDown health)))
    (Z.of_nat (length (List.filter (fun e => 0 <? sn_consecutiveFailures e) health)))
    (foldl (fun acc e => latest acc (sn_lastFailureAt e)) None health)
    (foldl (fun acc e => latest acc (sn_lastSuccessAt e)) None health).

Definition category_name (c : V2FailureCategory) : string :=
  match c with
  | caller => "caller" | capacity => "capacity" | payment => "payment" | backend => "backend"
  | protocol => "protocol" | recovery => "recovery" | evidence => "evidence"
  end.

Definition dquote : string := String "034" "".
Definition newline : string := String "010" "".
(** [lines.join("\n")] *)
Fixpoint join (sep : string) (l : list string) : string :=
  match l with
  | [] => ""
  | [s] => s
  | s :: l' => s +:+ sep +:+ join sep l'
  end.

Definition renderRouteHealthMetrics (gateway : string) (summary : RouteHealthSummary)
    (metrics : RouteHealthMetrics) : string :=
  let quoted s := dquote +:+ s +:+ dquote in
  let label := "{gateway=" +:+ quoted gateway +:+ "}" in
  let series name kind help value :=
    ["# HELP " +:+ name +:+ " " +:+ help; "# TYPE " +:+ name +:+ " " +:+ kind;
     name +:+ label +:+ " " +:+ string_of_Z value] in
  join newline
    (series "livepeer_gateway_route_health_attempts_total" "counter"
       "Total Layer 3 route attempts observed by the gateway." (me_attemptsTotal metrics) ++
     series "livepeer_gateway_route_health_successes_total" "counter"
       "Total successful Layer 3 route outcomes." (me_successesTotal metrics) ++
     series "livepeer_gateway_route_health_retryable_failures_total" "counter"
       "Total retryable Layer 3 route failures." (me_retryableFailuresTotal metrics) ++
     series "livepeer_gateway_route_health_non_retryable_failures_total" "counter"
       "Total non-retryable Layer 3 route failures." (me_nonRetryableFailuresTotal metrics) ++
     series "livepeer_gateway_route_health_cooldowns_opened_total" "counter"
       "Total Layer 3 route cooldown windows opened." (me_cooldownsOpenedTotal metrics) ++
     map (fun '(category, count) =>
            "livepeer_gateway_route_health_failures_total{gateway=" +:+ quoted gateway +:+ ",category=" +:+
            quoted (category_name category) +:+ "} " +:+ string_of_Z count) (me_failuresByCategory metrics) ++
     series "livepeer_gateway_route_health_tracked_routes" "gauge"
       "Number of currently tracked Layer 3 routes." (su_tracked_routes summary) ++
     series "livepeer_gateway_route_health_cooling_routes" "gauge"
       "Number of currently cooling Layer 3 routes." (su_cooling_routes summary) ++
     series "livepeer_gateway_route_health_routes_with_failures" "gauge"
       "Number of tracked routes with recent failures." (su_routes_with_failures summary) ++
     [""]).

(** ** Histories

    An attempt that was recorded; a history has the latest one first. *)

Section history.
Context {TCandidate : Type} (keyOf : TCandidate -> string) (policy : RouteHealthPolicy).

Record attempt := mkAttempt {
  at_route : TCandidate;
  at_outcome : RouteOutcome;
  at_reason : option string;
  at_time : Z
}.

Definition after (history : list attempt) : tracker :=
  foldr (fun a t => record keyOf policy t (at_route a) (at_outcome a) (at_reason a) (at_time a))
    fresh_tracker history.

Definition same_route (c : TCandidate) (a : attempt) : bool := keyOf (at_route a) ==? keyOf c.
Definition succeeded (a : attempt) : bool := oc_ok (at_outcome a).
(** A failure that counts against the route. *)
Definition counts_against (a : attempt) : bool :=
  negb (succeeded a) && oc_retryable (at_outcome a) && (oc_penalizeRoute (at_outcome a) !=? Some false).

Fixpoint since_success (l : list attempt) : list attempt :=
  match l with
  | [] => []
  | a :: l' => if succeeded a then [] else a :: since_success l'
  end.
(** The failures that count against a route since its last success. *)
Definition streak (c : TCandidate) (history : list attempt) : Z :=
  Z.of_nat (length (List.filter counts_against (since_success (List.filter (same_route c) history)))).

(** Some attempt on the route opened a cooldown that ends at [until], and none has
    succeeded since. *)
Definition opened_until (c : TCandidate) (history : list attempt) (until : Z) : Prop :=
  exists later a earlier,
    history = later ++ a :: earlier /\ same_route c a = true /\ counts_against a = true /\
    until = at_time a + hp_cooldownMs policy /\ hp_failureThreshold policy <= streak c (a :: earlier) /\
    Forall (fun b => same_route c b && succeeded b = false) later.

Lemma assoc_map_set_eq {A} k (v : A) l : assoc k (map_set k v l) = Some v.
Proof.
  induction l as [|[k' v'] l IH]; cbn; [by rewrite bool_decide_true|].
  case_bool_decide as E; cbn; [by rewrite bool_decide_true|by rewrite bool_decide_false].
Qed.
Lemma assoc_map_set_ne {A} k k' (v : A) l : k <> k' -> assoc k (map_set k' v l) = assoc k l.
Proof.
  intros Hne. induction l as [|[k1 v1] l IH]; cbn; [by rewrite bool_decide_false|].
  case_bool_decide as E; cbn; [subst; by rewrite !bool_decide_false by done|]. by rewrite IH.
Qed.

(** What one attempt does to the state of its route. *)
Definition next_state (s : RouteState) (a : attempt) : RouteState :=
  let failed := s <| rs_lastFailureAt := Some (at_time a) |> <| rs_lastFailureReason := at_reason a |>
                  <| rs_lastFailureCategory := oc_category (at_outcome a) |> in
  if succeeded a then
    s <| rs_consecutiveFailures := 0 |> <| rs_cooldownUntil := 0 |> <| rs_lastSuccessAt := Some (at_time a) |>
  else if counts_against a then
    let failed := failed <| rs_consecutiveFailures := rs_consecutiveFailures s + 1 |> in
    if (hp_failureThreshold policy <=? rs_consecutiveFailures s + 1) && (rs_cooldownUntil s <=? at_time a)
    then failed <| rs_cooldownUntil := at_time a + hp_cooldownMs policy |> else failed
  else failed.

Lemma record_states t a :
  tk_states (record keyOf policy t (at_route a) (at_outcome a) (at_reason a) (at_time a)) =
  map_set (keyOf (at_route a)) (next_state (state_of keyOf t (at_route a)) a) (tk_states t).
Proof.
  unfold record, next_state, counts_against, succeeded, state_of.
  destruct a as [c [[] [] cat pen] r n]; cbn; try done.
  case_bool_decide; cbn; [done|]. by case_match.
Qed.

Lemma state_after c a h :
  state_of keyOf (after (a :: h)) c =
  if same_route c a then next_state (state_of keyOf (after h) c) a else state_of keyOf (after h) c.
Proof.
  change (after (a :: h)) with
    (record keyOf policy (after h) (at_route a) (at_outcome a) (at_reason a) (at_time a)).
  unfold state_of, same_route. rewrite record_states. case_bool_decide as E.
  - unfold state_of. by rewrite <- E, assoc_map_set_eq.
  - by rewrite assoc_map_set_ne by congruence.
Qed.

Lemma streak_cons c a h :
  streak c (a :: h) =
  if same_route c a then
    if succeeded a then 0 else if counts_against a then streak c h + 1 else streak c h
  else streak c h.
Proof.
  unfold streak. cbn [List.filter]. destruct (same_route c a); [|done]. cbn [since_success].
  destruct (succeeded a); [done|]. cbn [List.filter]. destruct (counts_against a); [|done]. cbn. lia.
Qed.

Lemma consecutive_is_streak c h : rs_consecutiveFailures (state_of keyOf (after h) c) = streak c h.
Proof.
  induction h as [|a h IH]; [done|]. rewrite state_after, streak_cons.
  destruct (same_route c a); [|done]. unfold next_state. destruct (succeeded a); [done|].
  destruct (counts_against a); [|done]. rewrite <- IH. by destruct (_ && _).
Qed.

Lemma opened_later c a h until :
  same_route c a && succeeded a = false -> opened_until c h until -> opened_until c (a :: h) until.
Proof.
  intros Ha (later & b & earlier & -> & ? & ? & ? & ? & Hl). exists (a :: later), b, earlier.
  split_and!; try done. by constructor.
Qed.

Lemma cooldown_is_opened c h :
  rs_cooldownUntil (state_of keyOf (after h) c) = 0 \/
  opened_until c h (rs_cooldownUntil (state_of keyOf (after h) c)).
Proof.
  induction h as [|a h IH]; [by left|]. rewrite state_after. destruct (same_route c a) eqn:Ea.
  2: { destruct IH as [IH|IH]; [left; exact IH|right]. apply opened_later; [by rewrite Ea|done]. }
  unfold next_state. destruct (succeeded a) eqn:Es; [by left|].
  assert (same_route c a && succeeded a = false) by (by rewrite Es, andb_false_r).
  destruct (counts_against a) eqn:Ec.
  2: { destruct IH as [IH|IH]; [left; exact IH|right]. by apply opened_later. }
  destruct ((_ <=? _) && _) eqn:Eo; cbn.
  2: { destruct IH as [IH|IH]; [left; exact IH|right]. by apply opened_later. }
  bools. right. exists [], a, h. split_and!; try done.
  rewrite streak_cons, Ea, Es, Ec, <- consecutive_is_streak. lia.
Qed.

Lemma cooling_until t c now : 0 <= now -> isCoolingDown keyOf t c now = (now <? rs_cooldownUntil (state_of keyOf t c)).
Proof.
  intros Hn. unfold isCoolingDown, state_of. by destruct (assoc _ _).
Qed.

(** ** Ranking *)

Lemma rank_partition t l now :
  rankCandidates keyOf t l now =
  List.filter (fun c => negb (isCoolingDown keyOf t c now)) l ++ List.filter (fun c => isCoolingDown keyOf t c now) l.
Proof.
  unfold rankCandidates.
  assert (forall r k, foldl (fun '(ready, cooling) c =>
      if isCoolingDown keyOf t c now then (ready, cooling ++ [c]) else (ready ++ [c], cooling)) (r, k) l =
    (r ++ List.filter (fun c => negb (isCoolingDown keyOf t c now)) l,
     k ++ List.filter (fun c => isCoolingDown keyOf t c now) l)) as ->.
  { induction l as [|c l IH]; intros r k; cbn; [by rewrite !app_nil_r|].
    destruct (isCoolingDown keyOf t c now); cbn; rewrite IH, <- ?app_assoc; done. }
  cbn. by destruct (List.filter (fun c => negb _) l).
Qed.
End history.
Arguments attempt : clear implicits.

(** ** Properties *)

(** The health of a route follows from its history alone.  After any sequence of
    recorded attempts, the consecutive failures of a route are its penalised retryable
    failures since its last success; a route that cools down was put aside by such a
    failure, at or over the threshold, less than a cooldown ago and with no success
    since; a failure that reaches the threshold makes the route cool down at once, and
    a success ends the cooldown. *)
Lemma route_health_follows_history {C} (keyOf : C -> string) policy (history : list (attempt C)) (c : C) :
  let t := after keyOf policy history in
  rs_consecutiveFailures (state_of keyOf t c) = streak keyOf c history /\
  (forall now, 0 <= now -> isCoolingDown keyOf t c now = true ->
     exists until, opened_until keyOf policy c history until /\ now < until) /\
  (forall a h, history = a :: h -> same_route keyOf c a = true -> 0 <= at_time a ->
     (counts_against a = true -> hp_failureThreshold policy <= streak keyOf c history ->
      0 < hp_cooldownMs policy -> isCoolingDown keyOf t c (at_time a) = true) /\
     (succeeded a = true -> forall now, 0 <= now -> isCoolingDown keyOf t c now = false)).
Proof.
  cbv zeta. split_and!.
  - apply consecutive_is_streak.
  - intros now Hn. rewrite cooling_until by done. intros Hc. bools.
    destruct (cooldown_is_opened keyOf policy c history) as [H|H]; [lia|eauto].
  - intros a h -> Ha Hat. split.
    + intros Hc Hs Hd. rewrite cooling_until, state_after, Ha by done.
      rewrite streak_cons, Ha, Hc in Hs. unfold next_state. rewrite Hc.
      assert (succeeded a = false) as Es by (unfold counts_against in Hc; bools; done).
      rewrite Es in *. rewrite consecutive_is_streak, (proj2 (Z.leb_le _ _)) by done. cbn [andb].
      destruct (_ <=? at_time a) eqn:E; cbn; bools; apply Z.ltb_lt; lia.
    + intros Hs now Hn. rewrite cooling_until, state_after, Ha by done. unfold next_state. rewrite Hs.
      cbn. by apply Z.ltb_ge.
Qed.

(** The counters add up: every attempt is a success, a retryable failure or another
    one. *)
Lemma attempts_are_counted {C} (keyOf : C -> string) policy (history : list (attempt C)) :
  let m := inspectMetrics (after keyOf policy history) in
  me_attemptsTotal m = Z.of_nat (length history) /\
  me_attemptsTotal m = me_successesTotal m + me_retryableFailuresTotal m + me_nonRetryableFailuresTotal m /\
  me_successesTotal m = Z.of_nat (length (List.filter succeeded history)).
Proof.
  cbv zeta. unfold inspectMetrics. induction history as [|a h (IH1 & IH2 & IH3)]; [done|].
  change (after keyOf policy (a :: h)) with
    (record keyOf policy (after keyOf policy h) (at_route a) (at_outcome a) (at_reason a) (at_time a)).
  unfold record. cbn [List.filter length]. unfold succeeded at 1.
  destruct (oc_ok (at_outcome a)); [cbn; lia|].
  destruct (oc_retryable (at_outcome a)); [|cbn; lia]. cbn [negb].
  destruct (_ ==? _); [cbn; lia|]. destruct (_ && _); cbn; lia.
Qed.
