(* ===== verification/RouteSelector.v ===== *)
(** * Route selection (livepeer/routeSelector.ts, routeSelectorHelpers.ts)

    The resolver of the registry knows the routes of every broker.  A selection takes
    the routes of one capability and offering, from a cache or from the resolver, drops
    those that are not eligible, sorts the rest by preference and price and moves the
    routes that cool down to the end. *)

From S2P Require Import Prelude Js Types Http Outcome RouteProtocol JsonCompare RouteHealth.
From Stdlib Require Import Ascii.
Open Scope Z_scope.

Record VideoRouteCandidate := mkCandidate {
  vc_brokerUrl : string;
  vc_ethAddress : string;
  vc_capability : string;
  vc_offering : string;
  vc_pricePerWorkUnitWei : string;
  vc_workUnit : string;
  vc_protocol : LivepeerProtocol;
  vc_job : option PaidJobAxes;
  vc_session : option PaidSessionAxes;
  vc_workUnitEstimator : option WorkUnitEstimator;
  vc_settlementKeys : list SettlementKey;
  vc_settlementDomainId : option string;
  vc_quoteId : option string;
  vc_quoteVersion : option string;
  vc_constraintFingerprint : option bytes;
  vc_routeFingerprint : option bytes;
  vc_unitsPerPrice : option string;
  vc_extra : option json;
  vc_constraints : option json
}.

(** The socket and the directory of the message formats are used by the gRPC client only. *)
Record VideoRouteSelectorConfig := mkSelectorConfig {
  sc_resolverSnapshotTtlMs : Z;
  sc_routeFailureThreshold : Z;
  sc_routeCooldownMs : Z
}.

(** ** Messages of the resolver *)

Record ResolveByAddressRequest := mkResolveRequest {
  rq_ethAddress : string;
  rq_allowLegacyFallback : bool;
  rq_allowUnsigned : bool;
  rq_forceRefresh : bool
}.
Record SelectRequest := mkSelectRequest {
  sq_capability : string;
  sq_offering : string;
  sq_tier : string;
  sq_minWeight : Z
}.
Record SelectedRoute := mkRoute {
  sr_workerUrl : string;
  sr_ethAddress : string;
  sr_capability : string;
  sr_offering : string;
  sr_pricePerWorkUnitWei : option string;
  sr_workUnit : option string;
  sr_extraJson : option opaque;
  sr_constraintsJson : option opaque;
  sr_quoteId : option string;
  sr_quoteVersion : option json;
  sr_constraintFingerprint : option opaque;
  sr_routeFingerprint : option opaque;
  sr_unitsPerPrice : option json;
  sr_protocol : option string;
  sr_settlementKeys : option (list json);
  sr_workUnitEstimator : option json;
  sr_settlementDomainId : option string
}.
Record ResolverOffering := mkOffering {
  ro_id : string;
  ro_pricePerWorkUnitWei : option string;
  ro_constraintsJson : option opaque
}.
Record ResolverCapability := mkCapability {
  rc_name : string;
  rc_workUnit : option string;
  rc_workUnitEstimator : option json;
  rc_extraJson : option opaque;
  rc_offerings : option (list ResolverOffering)
}.
Record ResolverNode := mkNode {
  rn_url : string;
  rn_operatorAddress : string;
  rn_enabled : bool;
  rn_extraJson : option opaque;
  rn_capabilities : option (list ResolverCapability)
}.
(** [nodes] *)
Definition ResolveResult : Type := option (list ResolverNode).

(** ** Reading routes *)

Definition parseSettlementDomainId (value : option string) : option string :=
  match value with
  | Some s => if domain_regex s && (s !=? zero_domain) then Some s else None
  | None => None
  end.

Definition protocolFromExtra (extra : option json) : string :=
  match extra with
  | Some (JObj fields) => match assoc "protocol" fields with Some (JStr s) => s | _ => "" end
  | _ => ""
  end.

(** [absent] is [null], [malformed] is [false]. *)
Definition parseOptionalEstimator (value : option json) : parsed WorkUnitEstimator :=
  match value with
  | None | Some JNull => absent
  | Some j => match parseWorkUnitEstimator (Some j) with Some e => present e | None => malformed end
  end.

(** [out.push(...)] for every item, in order; a throw ends the loop. *)
Fixpoint flat_results {A B} (f : A -> result exn (list B)) (l : list A) : result exn (list B) :=
  match l with
  | [] => Ok []
  | x :: l' => let? ys := f x in let? zs := flat_results f l' in Ok (ys ++ zs)
  end.

Section reading.
Context `{Plat : Platform} `{Utf8 : TextEncoding}.

Definition flatten_offering (node : ResolverNode) (capability : ResolverCapability)
    (mergedExtra : option json) (declaration : RouteProtocolDeclaration) (estimator : option WorkUnitEstimator)
    (offering : ResolverOffering) : result exn (list VideoRouteCandidate) :=
  let? constraints := parseOpaqueJson (ro_constraintsJson offering) in
  Ok [mkCandidate (rn_url node) (rn_operatorAddress node) (rc_name capability) (ro_id offering)
        (ro_pricePerWorkUnitWei offering ?? "0") (rc_workUnit capability ?? "seconds")
        (rd_protocol declaration) (rd_job declaration) (rd_session declaration) estimator
        [] None None None None None None mergedExtra constraints].

Definition flatten_capability (node : ResolverNode) (nodeExtra : option json)
    (capability : ResolverCapability) : result exn (list VideoRouteCandidate) :=
  let? capabilityExtra := parseOpaqueJson (rc_extraJson capability) in
  let mergedExtra := mergeJsonObjects nodeExtra capabilityExtra in
  let protocol := protocolFromExtra mergedExtra in
  match parseRouteProtocolDeclaration protocol (mergedExtra ?? JNull),
        parseOptionalEstimator (rc_workUnitEstimator capability) with
  | None, _ | _, malformed => Ok []
  | Some declaration, estimator =>
      flat_results (flatten_offering node capability mergedExtra declaration (to_option estimator))
        (rc_offerings capability ?? [])
  end.

Definition flatten_node (node : ResolverNode) : result exn (list VideoRouteCandidate) :=
  if negb (rn_enabled node) || negb (nonempty (rn_url node)) then Ok []
  else
    let? nodeExtra := parseOpaqueJson (rn_extraJson node) in
    flat_results (flatten_capability node nodeExtra) (rn_capabilities node ?? []).

Definition flattenResolveResult (resolved : ResolveResult) : result exn (list VideoRouteCandidate) :=
  flat_results flatten_node (resolved ?? []).

Definition flattenSelectedRoute (route : SelectedRoute) : result exn (option VideoRouteCandidate) :=
  let? extra := parseOpaqueJson (sr_extraJson route) in
  match parseRouteProtocolDeclaration (sr_protocol route ?? "") (extra ?? JNull),
        parseOptionalEstimator (sr_workUnitEstimator route) with
  | None, _ | _, malformed => Ok None
  | Some declaration, estimator =>
      match parseSettlementKeys (JArr (sr_settlementKeys route ?? [])),
            parseSettlementDomainId (sr_settlementDomainId route) with
      | Some ((_ :: _) as settlementKeys), Some settlementDomainId =>
          let? constraints := parseOpaqueJson (sr_constraintsJson route) in
          Ok (Some (mkCandidate (sr_workerUrl route) (sr_ethAddress route) (sr_capability route)
                (sr_offering route) (sr_pricePerWorkUnitWei route ?? "0") (sr_workUnit route ?? "seconds")
                (rd_protocol declaration) (rd_job declaration) (rd_session declaration)
                (to_option estimator) settlementKeys (Some settlementDomainId) (sr_quoteId route)
                (parseOptionalUint64 (sr_quoteVersion route))
                (parseOpaqueBytes (sr_constraintFingerprint route))
                (parseOpaqueBytes (sr_routeFingerprint route))
                (parseOptionalUint64 (sr_unitsPerPrice route)) extra constraints))
      | _, _ => Ok None
      end
  end.

Definition flatten_routes (routes : list SelectedRoute) : result exn (list VideoRouteCandidate) :=
  flat_results (fun route => let? c := flattenSelectedRoute route in
                             Ok (match c with Some candidate => [candidate] | None => [] end)) routes.
End reading.

(** ** Comparing candidates *)

Definition score (preferredExtra : option json) (c : VideoRouteCandidate) : Score :=
  scorePreference (vc_extra c) preferredExtra.

(** Full matches first, then more matching leaves, then the lower price, then the order
    of the broker's URL and of its address. *)
Definition compareCandidates `{Collation} (preferredExtra : option json) :
    VideoRouteCandidate -> VideoRouteCandidate -> comparison :=
  then_by (compare_on (fun c => fullMatch (score preferredExtra c)) true_first)
  (then_by (compare_on (fun c => matchedLeaves (score preferredExtra c)) (reversed Z.compare))
  (then_by (compare_on vc_pricePerWorkUnitWei compareBigInts)
  (then_by (compare_on vc_brokerUrl localeCompare)
           (compare_on vc_ethAddress localeCompare)))).

#[export] Instance compareBigInts_comparator : Comparator compareBigInts :=
  compare_on_comparator safeBigInt Z.compare _.
#[export] Instance compareCandidates_comparator `{Collation} p : Comparator (compareCandidates p).
Proof. unfold compareCandidates. apply _. Qed.

(** ** The selector *)

Record CachedSnapshot := mkCached {
  cs_expiresAt : Z;
  cs_candidates : list VideoRouteCandidate
}.
Record selector := mkSelector {
  sl_suppressed : list string;
  sl_health : tracker;
  sl_selectCache : list (string * CachedSnapshot);
  sl_inspectCache : option CachedSnapshot
}.
#[export] Instance selector_eta : RecEta selector := fun s =>
  mkSelector (sl_suppressed s) (sl_health s) (sl_selectCache s) (sl_inspectCache s).

Definition createRouteSelector : selector := mkSelector [] fresh_tracker [] None.
Definition health_policy (cfg : VideoRouteSelectorConfig) : RouteHealthPolicy :=
  mkHealthPolicy (Z.max 1 (sc_routeFailureThreshold cfg)) (Z.max 1000 (sc_routeCooldownMs cfg)).

(** [RouteHealthTracker]'s key of a candidate *)
Definition route_key (c : VideoRouteCandidate) : string :=
  join "|" [vc_brokerUrl c; vc_ethAddress c; vc_capability c; vc_offering c].

Definition cache_key (capability offering : string) : string := capability +:+ newline +:+ offering.

(** The methods without an await. *)
Definition suppressBroker (url : string) (s : selector) : selector :=
  if bool_decide (url ∈ sl_suppressed s) then s else s <| sl_suppressed := sl_suppressed s ++ [url] |>.
Definition unsuppressBroker (url : string) (s : selector) : selector :=
  s <| sl_suppressed := List.filter (fun u => u !=? url) (sl_suppressed s) |>.
Definition suppressedBrokers (s : selector) : list string := sort_by String.compare (sl_suppressed s).
Definition recordOutcome (cfg : VideoRouteSelectorConfig) (c : VideoRouteCandidate) (outcome : RouteOutcome)
    (reason : option string) (now : Z) (s : selector) : selector :=
  s <| sl_health := record route_key (health_policy cfg) (sl_health s) c outcome reason now |>.
Definition inspectHealth (s : selector) (now : Z) : list RouteHealthSnapshot := inspect (sl_health s) now.

(** What the other tasks of the process may do to the selector while one awaits the
    resolver: call its methods, or store the answer of a request of their own. *)
Inductive selector_op : Type :=
| OpSuppress (url : string)
| OpUnsuppress (url : string)
| OpRecord (c : VideoRouteCandidate) (outcome : RouteOutcome) (reason : option string) (now : Z)
| OpCacheRoutes (capability offering : string) (expiresAt : Z) (routes : list SelectedRoute)
| OpCacheInspect (expiresAt : Z) (resolved : list ResolveResult).

(** The resolver as this process meets it: its answer to the [n]th event, the clock at
    the event, and what the other tasks did since the event before. *)
Class ResolverService := {
  selectMany : nat -> SelectRequest -> result exn (option (list SelectedRoute));
  listKnown : nat -> result exn (option (list string));
  resolveByAddress : nat -> ResolveByAddressRequest -> result exn ResolveResult;
  clock_at : nat -> Z;
  meanwhile : nat -> list selector_op
}.

Record selector_world := mkSelectorWorld {
  sw_selector : selector;
  sw_events : nat
}.

Record SelectInput := mkSelectInput {
  si_capability : string;
  si_offering : string;
  si_headers : list (string * header_value);
  si_preferredExtra : option json;
  si_requiredConstraints : option json;
  si_maxPricePerUnitWei : option Z;
  si_protocolRequirement : option RouteProtocolRequirement;
  si_supportFilter : option (VideoRouteCandidate -> bool)
}.

Section selector.
Context `{Plat : Platform} `{Utf8 : TextEncoding} `{Coll : Collation} `{Res : ResolverService}.
Context (cfg : VideoRouteSelectorConfig).

Definition snapshot_of (expiresAt : Z) (routes : list SelectedRoute) : result exn CachedSnapshot :=
  let? candidates := flatten_routes routes in Ok (mkCached expiresAt candidates).
Definition inspection_of (expiresAt : Z) (resolved : list ResolveResult) : result exn CachedSnapshot :=
  let? candidates := flat_results flattenResolveResult resolved in Ok (mkCached expiresAt candidates).

Definition store_select (key : string) (snapshot : CachedSnapshot) (s : selector) : selector :=
  s <| sl_selectCache := map_set key snapshot (sl_selectCache s) |>.
Definition store_inspect (snapshot : CachedSnapshot) (s : selector) : selector :=
  s <| sl_inspectCache := Some snapshot |>.

Definition apply_op (s : selector) (op : selector_op) : selector :=
  match op with
  | OpSuppress url => suppressBroker url s
  | OpUnsuppress url => unsuppressBroker url s
  | OpRecord c outcome reason now => recordOutcome cfg c outcome reason now s
  | OpCacheRoutes capability offering expiresAt routes =>
      match snapshot_of expiresAt routes with
      | Ok snapshot => store_select (cache_key capability offering) snapshot s
      | Err _ => s
      end
  | OpCacheInspect expiresAt resolved =>
      match inspection_of expiresAt resolved with
      | Ok snapshot => store_inspect snapshot s
      | Err _ => s
      end
  end.

(** One await: the other tasks run, then the answer arrives. *)
Definition await_ {A} (answer : nat -> result exn A) : M selector_world exn A := fun w =>
  (answer (sw_events w),
   mkSelectorWorld (foldl apply_op (sw_selector w) (meanwhile (sw_events w))) (S (sw_events w))).
Definition date_now : M selector_world exn Z := mget (fun w => clock_at (sw_events w)).
Definition on_selector (f : selector -> selector) : M selector_world exn unit :=
  mmodify (fun w => mkSelectorWorld (f (sw_selector w)) (sw_events w)).

Definition fresh_at (now : Z) (cached : option CachedSnapshot) : option CachedSnapshot :=
  match cached with
  | Some c => if now <? cs_expiresAt c then Some c else None
  | None => None
  end.

Definition loadSelectSnapshot (capability offering : string) : M selector_world exn CachedSnapshot :=
  let key := cache_key capability offering in
  do! now <- date_now;
  do! existing <- mget (fun w => assoc key (sl_selectCache (sw_selector w)));
  match fresh_at now existing with
  | Some existing => mret_ existing
  | None =>
      do! routes <- await_ (fun n => selectMany n (mkSelectRequest capability offering "" 0));
      do! snapshot <- mlift (snapshot_of (now + sc_resolverSnapshotTtlMs cfg) (routes ?? []));
      run! on_selector (store_select key snapshot);
      mret_ snapshot
  end.

(** All requests are sent before the first answer is awaited; of several failures the
    first of the list is reported here. *)
Fixpoint all_answers {A} (l : list (result exn A)) : result exn (list A) :=
  match l with
  | [] => Ok []
  | r :: l' => let? a := r in let? rest := all_answers l' in Ok (a :: rest)
  end.

Definition loadSnapshot (cached : option CachedSnapshot) : M selector_world exn CachedSnapshot :=
  do! now <- date_now;
  match fresh_at now cached with
  | Some cached => mret_ cached
  | None =>
      do! known <- await_ listKnown;
      do! resolved <- await_ (fun n => all_answers
        (map (fun ethAddress => resolveByAddress n (mkResolveRequest ethAddress true false false)) (known ?? [])));
      mlift (inspection_of (now + sc_resolverSnapshotTtlMs cfg) resolved)
  end.

(** The filter of [select]. *)
Definition eligible (s : selector) (input : SelectInput) (requiredConstraints : option json)
    (maxPricePerUnitWei : option Z) (candidate : VideoRouteCandidate) : bool :=
  if bool_decide (vc_brokerUrl candidate ∈ sl_suppressed s) then false
  else if vc_capability candidate !=? si_capability input then false
  else if vc_offering candidate !=? si_offering input then false
  else if match si_protocolRequirement input with
          | Some requirement =>
              negb (routeSatisfiesRequirement
                      (mkDeclaration (vc_protocol candidate) (vc_job candidate) (vc_session candidate)) requirement)
          | None => false
          end then false
  else if match maxPricePerUnitWei with
          | Some max => max <? safeBigInt (vc_pricePerWorkUnitWei candidate)
          | None => false
          end then false
  else if match requiredConstraints with
          | Some required => negb (isSubset (Val (vc_constraints candidate ?? JNull)) required)
          | None => false
          end then false
  else match si_supportFilter input with
       | Some supports => supports candidate
       | None => true
       end.

Definition preferred_of (input : SelectInput) : result exn (option json) :=
  let? header := parseJsonHeader (assoc "livepeer-selector-extra" (si_headers input)) in
  Ok (mergeSelectorValue header (si_preferredExtra input)).
Definition required_of (input : SelectInput) : result exn (option json) :=
  let? header := parseJsonHeader (assoc "livepeer-selector-constraints" (si_headers input)) in
  Ok (mergeSelectorValue header (si_requiredConstraints input)).
Definition max_price_of (input : SelectInput) : result exn (option Z) :=
  match si_maxPricePerUnitWei input with
  | Some max => Ok (Some max)
  | None => parseBigIntHeader (assoc "livepeer-selector-max-price-wei" (si_headers input))
  end.

Definition select (input : SelectInput) : M selector_world exn (list VideoRouteCandidate) :=
  do! snapshot <- loadSelectSnapshot (si_capability input) (si_offering input);
  do! preferredExtra <- mlift (preferred_of input);
  do! requiredConstraints <- mlift (required_of input);
  do! maxPricePerUnitWei <- mlift (max_price_of input);
  do! s <- mget sw_selector;
  let matches := List.filter (eligible s input requiredConstraints maxPricePerUnitWei) (cs_candidates snapshot) in
  let matches := sort_by (compareCandidates preferredExtra) matches in
  do! now <- date_now;
  mret_ (rankCandidates route_key (sl_health s) matches now).

Definition inspect_routes : M selector_world exn (list VideoRouteCandidate) :=
  do! cached <- mget (fun w => sl_inspectCache (sw_selector w));
  do! snapshot <- loadSnapshot cached;
  run! on_selector (store_inspect snapshot);
  mret_ (cs_candidates snapshot).

(** ** The worker resolver (livepeer/resolverWorkerResolver.ts) *)

Definition wrapped (name : string) (j : option json) : option json :=
  match j with Some j => Some (JObj [(name, j)]) | None => None end.

Definition adapt_route (defaultWorkUnit : string) (first : VideoRouteCandidate) : SelectedWorkerRoute :=
  mkSelectedRoute (vc_brokerUrl first) (vc_ethAddress first) (vc_capability first) (vc_offering first)
    (vc_pricePerWorkUnitWei first) (or_text (vc_workUnit first) defaultWorkUnit)
    (protocol_name (vc_protocol first)) (vc_job first) (vc_session first) (vc_workUnitEstimator first)
    (vc_settlementKeys first) (vc_settlementDomainId first) (vc_unitsPerPrice first) (vc_quoteId first)
    (vc_quoteVersion first) (vc_constraintFingerprint first) (vc_routeFingerprint first)
    (wrapped "resolverExtra" (vc_extra first)) (wrapped "resolverConstraints" (vc_constraints first)).
End selector.

(** ** Capabilities (livepeer/capabilityMap.ts) *)

Inductive Capability : Type := transcode_abr | transcode_live.
Definition capability_name (c : Capability) : string :=
  match c with transcode_abr => "video:transcode.abr" | transcode_live => "video:transcode.live" end.
Definition CAPABILITY_ROUTE_REQUIREMENTS (c : Capability) : RouteProtocolRequirement :=
  match c with
  | transcode_abr => mkRequirement paid_job (Some [unary; stream]) None None
  | transcode_live => mkRequirement paid_session None (Some "rtmp-hls/v1") (Some external)
  end.
Definition routeRequirementForCapability (c : Capability) : RouteProtocolRequirement :=
  CAPABILITY_ROUTE_REQUIREMENTS c.

Section worker.
Context `{Plat : Platform} `{Utf8 : TextEncoding} `{Coll : Collation} `{Res : ResolverService}.

Definition selectWorker (cfg : VideoRouteSelectorConfig) (defaultWorkUnit : option string)
    (capability : Capability) (offering : string) : M selector_world exn (option SelectedWorkerRoute) :=
  do! candidates <- select cfg
    (mkSelectInput (capability_name capability) offering [] None None None
       (Some (routeRequirementForCapability capability)) None);
  mret_ (match candidates with
         | [] => None
         | first :: _ => Some (adapt_route (defaultWorkUnit ?? "seconds") first)
         end).
End worker.

(** The stub resolver (livepeer/stubWorkerResolver.ts) finds no worker. *)
Definition stub_selectWorker (_ : Capability) (_ : string) : option SelectedWorkerRoute := None.
