(* ===== verification/RouteSelectorSpec.v ===== *)
(** * What a selection returns

    Exactly the eligible routes of the snapshot, those that cool down last, each part in
    the order of preference and price; and, whatever the tasks of the process do in the
    meantime, a worker that speaks the protocol its capability asks for. *)

From S2P Require Import Prelude Js Types Http Outcome RouteProtocol JsonCompare RouteHealth RouteSelector.
From S2P Require Import Samples SampleNet.
Open Scope Z_scope.

Section spec.
Context `{Plat : Platform} `{Utf8 : TextEncoding} `{Coll : Collation} `{Res : ResolverService}.
Context (cfg : VideoRouteSelectorConfig).

(** The conditions of a selection, one by one. *)
Record Eligible (s : selector) (input : SelectInput) (required : option json) (max : option Z)
    (c : VideoRouteCandidate) : Prop := {
  el_broker : vc_brokerUrl c ∉ sl_suppressed s;
  el_capability : vc_capability c = si_capability input;
  el_offering : vc_offering c = si_offering input;
  el_protocol : forall r, si_protocolRequirement input = Some r ->
    routeSatisfiesRequirement (mkDeclaration (vc_protocol c) (vc_job c) (vc_session c)) r = true;
  el_price : forall m, max = Some m -> safeBigInt (vc_pricePerWorkUnitWei c) <= m;
  el_constraints : forall r, required = Some r -> isSubset (Val (vc_constraints c ?? JNull)) r = true;
  el_support : forall f, si_supportFilter input = Some f -> f c = true
}.

Lemma eligible_spec s input required max c :
  eligible s input required max c = true <-> Eligible s input required max c.
Proof.
  unfold eligible. split.
  - intros H. repeat match type of H with (if ?b then _ else _) = true => destruct b eqn:?; [done|] end. bools.
    split; try done.
    + intros r E. rewrite E in *. by bools.
    + intros m ->. by bools.
    + intros r ->. by bools.
    + intros f E. by rewrite E in H.
  - intros [Hb Hc Ho Hp Hm Hr Hs]. rewrite bool_decide_false by done.
    rewrite Hc, Ho, !bool_decide_true by done. cbn [negb].
    destruct (si_protocolRequirement input); [rewrite Hp by done|];
      (destruct max; [rewrite (proj2 (Z.ltb_ge _ _)) by auto|]);
      (destruct required; [rewrite Hr by done|]); cbn [negb]; destruct (si_supportFilter input); auto.
Qed.

(** Where a snapshot comes from: the cache, while it has not expired, or the answer of
    the resolver. *)
Definition snapshot_from (w : selector_world) (capability offering : string) (snapshot : CachedSnapshot) : Prop :=
  (assoc (cache_key capability offering) (sl_selectCache (sw_selector w)) = Some snapshot /\
   clock_at (sw_events w) < cs_expiresAt snapshot) \/
  (exists routes, selectMany (sw_events w) (mkSelectRequest capability offering "" 0) = Ok routes /\
     flatten_routes (routes ?? []) = Ok (cs_candidates snapshot)).

Lemma load_select_snapshot capability offering w snapshot w' :
  loadSelectSnapshot cfg capability offering w = (Ok snapshot, w') -> snapshot_from w capability offering snapshot.
Proof.
  unfold loadSelectSnapshot, date_now, mget, mbind_. cbn zeta. cbn beta iota.
  destruct (fresh_at _ _) as [cached|] eqn:Hf.
  - intros [= <- <-]. left. unfold fresh_at in Hf.
    destruct (assoc _ _) as [c|] eqn:Hc; [|done]. destruct (_ <? _) eqn:Ht; [|done].
    injection Hf as <-. bools. done.
  - unfold await_, mlift. destruct (selectMany _ _) as [routes|] eqn:Hr; [|done].
    destruct (snapshot_of _ _) as [snap|] eqn:Hs; [|done]. cbn. intros [= <- <-]. right.
    exists routes. split; [done|]. apply result_bind_Ok in Hs as (cs & Hcs & [= <-]). done.
Qed.

Definition price_le (a b : VideoRouteCandidate) : Prop :=
  safeBigInt (vc_pricePerWorkUnitWei a) <= safeBigInt (vc_pricePerWorkUnitWei b).

(** Without a preference every candidate scores alike, and the price decides. *)
Lemma no_preference_price a b : cmp_le (compareCandidates None) a b -> price_le a b.
Proof.
  unfold cmp_le, compareCandidates, then_by, compare_on, score, price_le. cbn.
  unfold compareBigInts. intros H. apply Z.compare_le_iff. intros Hgt.
  rewrite Hgt in H. by apply H.
Qed.

Lemma StronglySorted_impl {A} (R S : A -> A -> Prop) l :
  (forall a b, R a b -> S a b) -> StronglySorted R l -> StronglySorted S l.
Proof.
  intros HRS. induction 1 as [|a l Hl IH Ha]; constructor; [done|]. eapply Forall_impl; [done|]. intros b. apply HRS.
Qed.

Lemma StronglySorted_filter {A} (R : A -> A -> Prop) f l :
  StronglySorted R l -> StronglySorted R (List.filter f l).
Proof.
  induction 1 as [|a l Hl IH Ha]; cbn; [constructor|]. destruct (f a); [|done]. constructor; [done|].
  rewrite Forall_forall in *. intros x [_ Hx]%elem_of_filter_bool. by apply Ha.
Qed.

(** A list of routes in the order of a selection: first those that do not cool down,
    each part by preference. *)
Definition ranked (t : tracker) (now : Z) (preferred : option json) (l : list VideoRouteCandidate) : Prop :=
  exists ready cooling, l = ready ++ cooling /\
    Forall (fun c => isCoolingDown route_key t c now = false) ready /\
    Forall (fun c => isCoolingDown route_key t c now = true) cooling /\
    StronglySorted (cmp_le (compareCandidates preferred)) ready /\
    StronglySorted (cmp_le (compareCandidates preferred)) cooling /\
    (preferred = None -> StronglySorted price_le ready).

Lemma rank_ranked t now preferred l :
  ranked t now preferred (rankCandidates route_key t (sort_by (compareCandidates preferred) l) now).
Proof.
  rewrite rank_partition. eexists _, _. split; [done|].
  assert (StronglySorted (cmp_le (compareCandidates preferred)) (sort_by (compareCandidates preferred) l))
    as Hs by (apply sort_by_sorted, _).
  split_and!.
  - apply Forall_forall. intros c [Hc _]%elem_of_filter_bool. by bools.
  - apply Forall_forall. by intros c [Hc _]%elem_of_filter_bool.
  - by apply StronglySorted_filter.
  - by apply StronglySorted_filter.
  - intros ->. apply StronglySorted_filter. eapply StronglySorted_impl; [|done]. apply no_preference_price.
Qed.

Lemma filter_split_Permutation {A} (f : A -> bool) (l : list A) :
  List.filter (fun x => negb (f x)) l ++ List.filter f l ≡ₚ l.
Proof.
  induction l as [|x l IH]; cbn; [done|]. destruct (f x); cbn; [|by rewrite IH].
  by rewrite <- Permutation_middle, IH.
Qed.

Lemma select_outcome input w l w' :
  select cfg input w = (Ok l, w') ->
  exists snapshot preferred required max,
    snapshot_from w (si_capability input) (si_offering input) snapshot /\
    preferred_of input = Ok preferred /\ required_of input = Ok required /\ max_price_of input = Ok max /\
    l = rankCandidates route_key (sl_health (sw_selector w'))
          (sort_by (compareCandidates preferred)
             (List.filter (eligible (sw_selector w') input required max) (cs_candidates snapshot)))
          (clock_at (sw_events w')).
Proof.
  unfold select. rewrite mbind_Ok. intros (snapshot & w1 & Hsnap & H).
  apply load_select_snapshot in Hsnap. unfold mlift, mbind_, mget, date_now in H.
  destruct (preferred_of input) as [preferred|]; [|done].
  destruct (required_of input) as [required|]; [|done].
  destruct (max_price_of input) as [max|]; [|done]. injection H as <- <-.
  exists snapshot, preferred, required, max. done.
Qed.

(** C33: a selection returns exactly the eligible routes, best first.  The routes come
    from the unexpired cache of that capability and offering or from the resolver's
    answer; a route is returned, as often as it occurs, if and only if its broker is not
    suppressed and it meets the protocol, the price limit, the constraints and the
    support filter; routes that cool down come after all others, and each part is in
    the order of match, matching leaves, price, URL and address. *)
Theorem selection_is_eligible_and_ranked input w l w' :
  select cfg input w = (Ok l, w') ->
  exists snapshot preferred required max,
    snapshot_from w (si_capability input) (si_offering input) snapshot /\
    preferred_of input = Ok preferred /\ required_of input = Ok required /\ max_price_of input = Ok max /\
    l ≡ₚ List.filter (eligible (sw_selector w') input required max) (cs_candidates snapshot) /\
    (forall c, c ∈ l <-> c ∈ cs_candidates snapshot /\ Eligible (sw_selector w') input required max c) /\
    ranked (sl_health (sw_selector w')) (clock_at (sw_events w')) preferred l.
Proof.
  intros H. apply select_outcome in H as (snapshot & preferred & required & max & Hs & Hp & Hr & Hm & ->).
  exists snapshot, preferred, required, max. split_and!; try done.
  - by rewrite rank_partition, filter_split_Permutation, sort_by_Permutation.
  - intros c. rewrite rank_partition, filter_split_Permutation, sort_by_Permutation, elem_of_filter_bool.
    rewrite eligible_spec. tauto.
  - apply rank_ranked.
Qed.

(** ** Every cached route is sound *)

Definition sound_route (c : VideoRouteCandidate) : Prop :=
  match vc_protocol c with
  | paid_job => vc_session c = None /\
      exists j, vc_job c = Some j /\ NoDup (jx_transports j) /\ jx_transports j <> []
  | paid_session => vc_job c = None /\ exists a, vc_session c = Some a /\ session_axes_ok a
  end /\
  vc_settlementKeys c <> [] /\
  exists d, vc_settlementDomainId c = Some d /\ domain_regex d = true /\ d <> zero_domain.

Lemma flat_results_Forall {A B} (P : B -> Prop) (f : A -> result exn (list B)) l r :
  (forall a b, f a = Ok b -> Forall P b) -> flat_results f l = Ok r -> Forall P r.
Proof.
  intros Hf. revert r. induction l as [|a l IH]; intros r; cbn; [by intros [= <-]|].
  rewrite result_bind_Ok. intros (ys & Hys & H). apply result_bind_Ok in H as (zs & Hzs & [= <-]).
  apply Forall_app. eauto.
Qed.

Lemma selected_route_sound route c : flattenSelectedRoute route = Ok (Some c) -> sound_route c.
Proof.
  unfold flattenSelectedRoute. rewrite result_bind_Ok. intros (extra & _ & H).
  destruct (parseRouteProtocolDeclaration _ _) as [d|] eqn:Hd; [|done].
  destruct (parseOptionalEstimator _); [| |done].
  all: destruct (parseSettlementKeys _) as [[|k ks]|]; try done;
    destruct (parseSettlementDomainId _) as [dom|] eqn:Hdom; [|done];
    apply result_bind_Ok in H as (cons & _ & [= <-]);
    apply declaration_axes in Hd as [_ Hd]; unfold parseSettlementDomainId in Hdom;
    destruct (sr_settlementDomainId route) as [s|]; [|done];
    destruct (_ && _) eqn:E; [|done]; injection Hdom as <-; bools; unfold sound_route; cbn; eauto 10.
Qed.

Lemma flatten_routes_sound routes cs : flatten_routes routes = Ok cs -> Forall sound_route cs.
Proof.
  apply flat_results_Forall. intros route l. rewrite result_bind_Ok. intros ([c|] & Hc & [= <-]); [|done].
  constructor; [by eapply selected_route_sound|done].
Qed.

(** The invariant of the selector: the caches that serve selections hold sound routes. *)
Definition selector_sound (s : selector) : Prop :=
  Forall (fun kv => Forall sound_route (cs_candidates (snd kv))) (sl_selectCache s).

Lemma Forall_map_set {A} (P : A -> Prop) k v (l : list (string * A)) :
  P v -> Forall (fun kv => P (snd kv)) l -> Forall (fun kv => P (snd kv)) (map_set k v l).
Proof.
  intros Hv. induction 1 as [|[k' v'] l Hx Hl IH]; cbn; [by repeat constructor|].
  case_bool_decide; by constructor.
Qed.

Lemma apply_op_sound s op : selector_sound s -> selector_sound (apply_op cfg s op).
Proof.
  intros Hs. destruct op as [url|url|c o r n|cap off e routes|e resolved]; cbn; try done.
  - unfold suppressBroker. by case_bool_decide.
  - destruct (snapshot_of e routes) as [snap|] eqn:E; [|done].
    apply result_bind_Ok in E as (cs & Hcs & [= <-]). apply (Forall_map_set (fun c => Forall sound_route (cs_candidates c))); [|done].
    by eapply flatten_routes_sound.
  - by destruct (inspection_of e resolved).
Qed.

Lemma ops_sound ops s : selector_sound s -> selector_sound (foldl (apply_op cfg) s ops).
Proof. revert s. induction ops as [|op ops IH]; intros s Hs; cbn; [done|]. by apply IH, apply_op_sound. Qed.

Lemma snapshot_from_sound w capability offering snapshot :
  selector_sound (sw_selector w) -> snapshot_from w capability offering snapshot ->
  Forall sound_route (cs_candidates snapshot).
Proof.
  intros Hs [[Hc _]|(routes & _ & Hf)]; [|by eapply flatten_routes_sound].
  apply assoc_elem_of in Hc. by apply (proj1 (Forall_forall _ _) Hs _ Hc).
Qed.

(** What a capability asks of the route that serves it. *)
Definition serves (capability : Capability) (route : SelectedWorkerRoute) : Prop :=
  match capability with
  | transcode_abr => sw_protocol route = "paid-job/v1" /\ sw_session route = None /\
      exists j, sw_job route = Some j /\ (unary ∈ jx_transports j \/ stream ∈ jx_transports j)
  | transcode_live => sw_protocol route = "paid-session/v1" /\ sw_job route = None /\
      exists a, sw_session route = Some a /\ session_axes_ok a /\
        ax_descriptorSchema a = "rtmp-hls/v1" /\ ax_attachment a = external
  end.

Lemma requirement_serves capability unit_ c :
  sound_route c ->
  routeSatisfiesRequirement (mkDeclaration (vc_protocol c) (vc_job c) (vc_session c))
    (routeRequirementForCapability capability) = true ->
  serves capability (adapt_route unit_ c).
Proof.
  intros (Hax & _ & _) Hr. unfold routeSatisfiesRequirement in Hr. cbn [rd_protocol rd_job rd_session] in Hr.
  bools. destruct capability; cbn in *; rewrite H in *.
  - destruct Hax as (Hs & j & Hj & _). rewrite Hj in *. bools. split_and!; try done. exists j. split; [done|].
    cbn in *. destruct H0 as [H0|H0]; bools; [by left|]. destruct H0 as [H0|H0]; [bools; by right|done].
  - destruct Hax as (Hj & a & Ha & Hok). rewrite Ha in *. bools. cbn in *. bools. split_and!; try done.
    exists a. done.
Qed.

(** The worker that is chosen can serve.  After any use of the selector, and
    whatever other tasks do while this one waits for the resolver, the route returned
    for a capability has that capability and the offering asked for, speaks the
    capability's protocol with well-formed axes of that protocol and no other, has at
    least one settlement key and a settlement domain that is well formed and not the
    zero domain. *)
Lemma selected_worker_serves ops events unit_ capability offering route w' :
  selectWorker cfg unit_ capability offering
    (mkSelectorWorld (foldl (apply_op cfg) createRouteSelector ops) events) = (Ok (Some route), w') ->
  sw_capability route = capability_name capability /\ sw_offering route = offering /\
  serves capability route /\ sw_settlementKeys route <> [] /\
  exists d, sw_settlementDomainId route = Some d /\ domain_regex d = true /\ d <> zero_domain.
Proof.
  unfold selectWorker. rewrite mbind_Ok. intros ([|c l] & w1 & Hsel & [= <- <-]).
  apply select_outcome in Hsel as (snapshot & pref & req & max & Hsnap & _ & _ & _ & Hl).
  apply snapshot_from_sound in Hsnap; [|apply ops_sound; constructor].
  assert (c ∈ c :: l) as Hc by left. rewrite Hl, rank_partition in Hc.
  rewrite filter_split_Permutation, sort_by_Permutation, elem_of_filter_bool, eligible_spec in Hc.
  destruct Hc as [Hel Hin]. rewrite Forall_forall in Hsnap. specialize (Hsnap c Hin).
  split_and!; [apply Hel|apply Hel| |apply Hsnap|apply Hsnap].
  apply requirement_serves; [done|]. by apply (el_protocol _ _ _ _ _ Hel).
Qed.
End spec.

(** ** A concrete selection

    Two brokers sell the same offering; the cheaper one has just failed once, and one
    failure is enough to cool down. *)

Definition sample_extra : json := JObj [("session", sample_session_wire)].
#[export] Instance sample_utf8 : TextEncoding := {| utf8_text := fun _ => "extra"; utf8_bytes := fun _ => [] |}.
Definition selector_platform : Platform := {|
  is_url := is_url; is_uuid := is_uuid; new_URL := new_URL; stringify := stringify;
  json_parse := assoc_of [("extra", sample_extra); ("broken", JStr "unused")];
  base64_text := base64_text; sha256_hex := sha256_hex; date_parse := date_parse; toISOString := toISOString;
  headers_valid := headers_valid; caller_publicKey := caller_publicKey; signAuthorization := signAuthorization
|}.

Definition sample_wire_route (url price : string) (extra : opaque) : SelectedRoute :=
  mkRoute url "0xabc" "video:transcode.live" "std" (Some price) (Some "output_seconds")
    (Some extra) None (Some "quote") (Some (JStr "1")) None None (Some (JNum (NInt 1)))
    (Some "paid-session/v1")
    (Some [JObj [("publicKey", JStr "pk"); ("notBefore", JStr "0"); ("expiresAt", JStr "9");
                 ("introducedInPublicationSeq", JStr "1")]]) None (Some sample_domain).
Definition sample_resolver (routes : list SelectedRoute) : ResolverService := {|
  selectMany := fun _ _ => Ok (Some routes);
  listKnown := fun _ => Ok None;
  resolveByAddress := fun _ _ => Ok None;
  clock_at := fun n => 1000 + Z.of_nat n;
  meanwhile := fun _ => []
|}.
Definition two_brokers : list SelectedRoute :=
  [sample_wire_route "https://cheap" "5" (Raw []); sample_wire_route "https://dear" "10" (Raw [])].
Definition selector_cfg : VideoRouteSelectorConfig := mkSelectorConfig 60000 1 5000.
Definition cheap_failed : list selector_op :=
  match flatten_routes (Plat := selector_platform) two_brokers with
  | Ok (c :: _) => [OpRecord c (mkOutcome false true (Some backend) None) None 900]
  | _ => []
  end.
Definition sample_selection : result exn (option SelectedWorkerRoute) * selector_world :=
  selectWorker (Plat := selector_platform) (Coll := code_unit_collation) (Res := sample_resolver two_brokers)
    selector_cfg None transcode_live "std"
    (mkSelectorWorld (foldl (apply_op (Plat := selector_platform) selector_cfg) createRouteSelector cheap_failed) 0).

Definition chosen (r : result exn (option SelectedWorkerRoute)) : option string :=
  match r with Ok (Some route) => Some (sw_workerUrl route) | _ => None end.
Lemma sample_choice : chosen (fst sample_selection) = Some "https://dear".
Proof. vm_compute. reflexivity. Qed.

Lemma selected_worker_serves_witness :
  exists route w', sample_selection = (Ok (Some route), w') /\ serves transcode_live route.
Proof.
  destruct sample_selection as [[[route|]|] w'] eqn:E.
  2,3: exfalso; pose proof sample_choice as H; rewrite E in H; discriminate H.
  exists route, w'. split; [reflexivity|].
  apply (selected_worker_serves (Plat := selector_platform) (Coll := code_unit_collation)
           (Res := sample_resolver two_brokers) selector_cfg cheap_failed 0 None transcode_live "std" route w' E).
Defined.

Definition sample_select_input : SelectInput :=
  mkSelectInput "video:transcode.live" "std" [] None None (Some 7) None None.
Definition sample_select : result exn (list VideoRouteCandidate) * selector_world :=
  select (Plat := selector_platform) (Coll := code_unit_collation) (Res := sample_resolver two_brokers)
    selector_cfg sample_select_input (mkSelectorWorld createRouteSelector 0).
Lemma sample_select_cheap :
  match fst sample_select with Ok l => map vc_brokerUrl l | Err _ => [] end = ["https://cheap"].
Proof. vm_compute. reflexivity. Qed.

Lemma selection_is_eligible_and_ranked_witness :
  exists l w', sample_select = (Ok l, w') /\
  exists snapshot preferred required max,
    l ≡ₚ List.filter (eligible (sw_selector w') sample_select_input required max) (cs_candidates snapshot) /\
    ranked (Coll := code_unit_collation) (sl_health (sw_selector w')) (1000 + Z.of_nat (sw_events w')) preferred l.
Proof.
  destruct sample_select as [[l|e] w'] eqn:E.
  2: exfalso; pose proof sample_select_cheap as H; rewrite E in H; discriminate H.
  exists l, w'. split; [reflexivity|].
  destruct (selection_is_eligible_and_ranked (Plat := selector_platform) (Coll := code_unit_collation)
              (Res := sample_resolver two_brokers) selector_cfg sample_select_input _ l w' E)
    as (snapshot & preferred & required & max & _ & _ & _ & _ & Hp & _ & Hr).
  exists snapshot, preferred, required, max. split; [exact Hp|exact Hr].
Defined.

(** A route whose declaration is malformed is left out, but a route whose extra data is
    not JSON makes the selection fail, with every other route of the offering. *)
Lemma malformed_extra_fails_selection :
  let routes := sample_wire_route "https://bad" "1" (Text "{") :: two_brokers in
  flatten_routes (Plat := selector_platform) routes = Err (PlainError "JSON.parse") /\
  exists l, flatten_routes (Plat := selector_platform) two_brokers = Ok l /\ length l = 2%nat.
Proof. split; [vm_compute; reflexivity|]. eexists. split; [vm_compute; reflexivity|reflexivity]. Qed.
