(* ===== verification/Selection.v ===== *)
(** * Ladders and selection hints

    engine/config/encodingLadder.ts, engine/service/encodingPlanner.ts,
    service/abrSelector.ts and livepeer/selectionPolicy.ts: the renditions of an encoding
    tier, the plan of an asset's jobs, and what a route must be able to do to make them. *)

From S2P Require Import Prelude Js Types Http VodUsage AbrOrchestrator JsonCompare RouteHealth RouteSelector.
Open Scope Z_scope.

(** ** Encoding ladders *)

Inductive Codec : Type := h264 | hevc | av1.
#[export] Instance Codec_eq_dec : EqDecision Codec.
Proof. solve_decision. Defined.
Definition codec_name (c : Codec) : string := match c with h264 => "h264" | hevc => "hevc" | av1 => "av1" end.

Inductive EncodingTier : Type := baseline | standard | premium.
#[export] Instance EncodingTier_eq_dec : EqDecision EncodingTier.
Proof. solve_decision. Defined.
Definition tier_name (t : EncodingTier) : string :=
  match t with baseline => "baseline" | standard => "standard" | premium => "premium" end.

(** A rung of a ladder: [RenditionSpec] with its codec typed. *)
Record Rung := mkRung {
  rg_resolution : Resolution;
  rg_bitrateKbps : Z;
  rg_codec : Codec
}.

Definition RESOLUTIONS_ASCENDING : list Resolution := [p240; p360; p480; p720; p1080; p2160].
Definition DEFAULT_BITRATE_KBPS (r : Resolution) (c : Codec) : option Z :=
  Some match r, c with
       | p240, h264 => 400 | p240, hevc => 280 | p240, av1 => 220
       | p360, h264 => 800 | p360, hevc => 560 | p360, av1 => 440
       | p480, h264 => 1400 | p480, hevc => 980 | p480, av1 => 770
       | p720, h264 => 2800 | p720, hevc => 1960 | p720, av1 => 1540
       | p1080, h264 => 5000 | p1080, hevc => 3500 | p1080, av1 => 2750
       | p2160, h264 => 15000 | p2160, hevc => 10000 | p2160, av1 => 8000
       end.

(** [bitrateKbps[res]?.[codec]], absent where a ladder has no entry. *)
Record EncodingLadder := mkLadder {
  ld_resolutions : list Resolution;
  ld_bitrateKbps : Resolution -> Codec -> option Z
}.
Definition defaultEncodingLadder : EncodingLadder := mkLadder RESOLUTIONS_ASCENDING DEFAULT_BITRATE_KBPS.

Definition TIER_CODECS (t : EncodingTier) : list Codec :=
  match t with baseline => [h264] | standard => [h264; hevc] | premium => [h264; hevc; av1] end.

Definition expandTier (tier : EncodingTier) (ladder : EncodingLadder) : list Rung :=
  flat_map (fun res =>
    flat_map (fun codec => match ld_bitrateKbps ladder res codec with
                           | Some bitrate => [mkRung res bitrate codec]
                           | None => []
                           end) (TIER_CODECS tier)) (ld_resolutions ladder).

(** ** Plans and customer tiers *)

Record JobPlan := mkPlan {
  jp_probe : string;
  jp_encodes : list (string * Rung);
  jp_thumbnail : string;
  jp_finalize : string
}.
Definition planJobs (tier : EncodingTier) (ladder : EncodingLadder) : JobPlan :=
  mkPlan "probe" (map (fun r => ("encode", r)) (expandTier tier ladder)) "thumbnail" "finalize".

Inductive CustomerTier : Type := free | prepaid | enterprise.
Definition TIER_TO_ENCODING_TIER (t : CustomerTier) : EncodingTier :=
  match t with free => baseline | prepaid => standard | enterprise => premium end.
Definition selectAbrLadder (customerTier : CustomerTier) (policy : string) (ladder : option EncodingLadder) :
    result exn (list Rung) :=
  throw_if policy !=? "customer-tier" with PlainError ("unsupported ABR policy: " +:+ policy) ;;
  Ok (expandTier (TIER_TO_ENCODING_TIER customerTier) (ladder ?? defaultEncodingLadder)).

(** ** What a route declares

    A route says what it supports in its extra properties or its constraints, under one
    of several names. *)

Definition RESOLUTION_ORDER (r : Resolution) : Z :=
  match r with p240 => 240 | p360 => 360 | p480 => 480 | p720 => 720 | p1080 => 1080 | p2160 => 2160 end.
Definition resolution_names : list (string * Resolution) :=
  map (fun r => (resolution_name r, r)) RESOLUTIONS_ASCENDING.

Definition lookup_path (root : option json) (path : list string) : jsval :=
  foldl (fun current segment => if isJsonObject current then prop current segment else Val JNull)
    (Val (root ?? JNull)) path.

(** [a ?? b] *)
Definition or_value (a b : jsval) : jsval := match a with Val JNull => b | _ => a end.

Definition is_string (j : json) : option string := match j with JStr s => Some s | _ => None end.
Definition asStringList (value : jsval) : option (list string) :=
  match as_array value with
  | Some l => let out := omap is_string l in
              if (0 <? length out)%nat then Some out else None
  | None => None
  end.

Definition declared_at (c : VideoRouteCandidate) (path : list string) : jsval :=
  or_value (lookup_path (vc_extra c) path) (lookup_path (vc_constraints c) path).

Fixpoint firstStringList (c : VideoRouteCandidate) (paths : list (list string)) : option (list string) :=
  match paths with
  | [] => None
  | path :: paths' => or_else (asStringList (declared_at c path)) (firstStringList c paths')
  end.
Fixpoint firstString (c : VideoRouteCandidate) (paths : list (list string)) : option string :=
  match paths with
  | [] => None
  | path :: paths' =>
      match declared_at c path with
      | Val (JStr s) => if nonempty s then Some s else firstString c paths'
      | _ => firstString c paths'
      end
  end.

Definition supports_name (c : VideoRouteCandidate) (paths : list (list string)) (name : string) : bool :=
  match firstStringList c paths with
  | None => true
  | Some declared => bool_decide (name ∈ declared)
  end.

Definition mode_paths : list (list string) :=
  [["video"; "modes"]; ["video"; "supported_modes"]; ["modes"]; ["supported_modes"]].
Definition tier_paths : list (list string) :=
  [["video"; "encoding_tiers"]; ["video"; "supported_encoding_tiers"]; ["encoding_tiers"];
   ["supported_encoding_tiers"]].
Definition codec_paths : list (list string) :=
  [["video"; "codecs"]; ["video"; "supported_codecs"]; ["codecs"]; ["supported_codecs"]].
Definition resolution_paths : list (list string) := [["video"; "max_resolution"]; ["max_resolution"]].

Definition candidateSupportsMode (c : VideoRouteCandidate) (mode : string) : bool := supports_name c mode_paths mode.
Definition candidateSupportsEncodingTier (c : VideoRouteCandidate) (tier : EncodingTier) : bool :=
  supports_name c tier_paths (tier_name tier).
Definition candidateSupportsCodecs (c : VideoRouteCandidate) (codecs : list Codec) : bool :=
  match firstStringList c codec_paths with
  | None => true
  | Some declared => forallb (fun codec => bool_decide (codec_name codec ∈ declared)) codecs
  end.

(** [value in RESOLUTION_ORDER] also holds of the names an object inherits; comparing
    what they stand for with a number is false. *)
Definition candidateSupportsResolution (c : VideoRouteCandidate) (required : Resolution) : bool :=
  match firstString c resolution_paths with
  | None => true
  | Some raw =>
      match assoc raw resolution_names with
      | Some r => RESOLUTION_ORDER required <=? RESOLUTION_ORDER r
      | None => negb (bool_decide (raw ∈ "__proto__" :: prototype_methods))
      end
  end.

Definition candidateSupports (mode : string) (c : VideoRouteCandidate) (tier : EncodingTier)
    (requiredCodecs : list Codec) (maxResolution : Resolution) : bool :=
  candidateSupportsMode c mode && candidateSupportsEncodingTier c tier &&
  candidateSupportsCodecs c requiredCodecs && candidateSupportsResolution c maxResolution.

(** ** Hints *)

(** [[...new Set(...)]]: each codec at its first place. *)
Definition uniqueCodecs (renditions : list Rung) : list Codec :=
  foldl (fun acc r => if bool_decide (rg_codec r ∈ acc) then acc else acc ++ [rg_codec r]) [] renditions.

(** [reduce] without an initial value throws on an empty array. *)
Definition highestResolution (values : list Resolution) : result exn Resolution :=
  match values with
  | [] => Err (PlainError "Reduce of empty array with no initial value")
  | v :: vs => Ok (foldl (fun best current => if RESOLUTION_ORDER best <? RESOLUTION_ORDER current then current else best) v vs)
  end.

Record DerivedSelectionHints := mkHints {
  dh_preferredExtra : json;
  dh_supportFilter : VideoRouteCandidate -> bool
}.

Definition codecs_json (l : list Codec) : json := JArr (map (fun c => JStr (codec_name c)) l).

Definition buildVodSelectionHints (encodingTier : EncodingTier) : result exn DerivedSelectionHints :=
  let renditions := expandTier encodingTier defaultEncodingLadder in
  let requiredCodecs := uniqueCodecs renditions in
  let? maxResolution := highestResolution (map rg_resolution renditions) in
  Ok (mkHints
        (JObj [("video", JObj [("mode", JStr "vod"); ("encoding_tier", JStr (tier_name encodingTier));
           ("output", JObj [("max_resolution", JStr (resolution_name maxResolution));
                            ("required_codecs", codecs_json requiredCodecs)])])])
        (fun candidate => candidateSupports "vod" candidate encodingTier requiredCodecs maxResolution)).

Definition buildLiveSelectionHints (encodingTier : EncodingTier) (ladder : option (list Rung)) :
    result exn DerivedSelectionHints :=
  let ladder := ladder ?? expandTier encodingTier defaultEncodingLadder in
  let requiredCodecs := uniqueCodecs ladder in
  let? maxResolution := highestResolution (map rg_resolution ladder) in
  Ok (mkHints
        (JObj [("video", JObj [("mode", JStr "live"); ("ingress", JStr "rtmp"); ("egress", JStr "hls");
           ("encoding_tier", JStr (tier_name encodingTier));
           ("ladder", JObj [("max_resolution", JStr (resolution_name maxResolution));
                            ("rendition_count", JNum (NInt (Z.of_nat (length ladder))));
                            ("required_codecs", codecs_json requiredCodecs)])])])
        (fun candidate => candidateSupports "live" candidate encodingTier requiredCodecs maxResolution)).

(** ** Properties *)

Lemma unique_fold (l : list Rung) acc c :
  c ∈ foldl (fun acc r => if bool_decide (rg_codec r ∈ acc) then acc else acc ++ [rg_codec r]) acc l <->
  c ∈ acc \/ exists r, r ∈ l /\ rg_codec r = c.
Proof.
  revert acc. induction l as [|r l IH]; intros acc; cbn.
  - split; [by left|]. intros [H|(r & H & _)]; [done|by apply not_elem_of_nil in H].
  - rewrite IH. case_bool_decide as E; rewrite ?elem_of_app, ?list_elem_of_singleton;
      setoid_rewrite elem_of_cons; naive_solver.
Qed.
Lemma elem_of_uniqueCodecs l c : c ∈ uniqueCodecs l <-> exists r, r ∈ l /\ rg_codec r = c.
Proof. unfold uniqueCodecs. rewrite unique_fold. split; [|eauto]. intros [H|H]; [by apply not_elem_of_nil in H|done]. Qed.

Lemma unique_fold_NoDup (l : list Rung) acc :
  NoDup acc ->
  NoDup (foldl (fun acc r => if bool_decide (rg_codec r ∈ acc) then acc else acc ++ [rg_codec r]) acc l).
Proof.
  revert acc. induction l as [|r l IH]; intros acc Hacc; cbn; [done|]. apply IH. case_bool_decide as E; [done|].
  apply NoDup_app. split_and!; [done| |apply NoDup_singleton].
  intros x Hx ->%list_elem_of_singleton. done.
Qed.

Lemma highest_fold vs v :
  let best := foldl (fun best current =>
    if RESOLUTION_ORDER best <? RESOLUTION_ORDER current then current else best) v vs in
  best ∈ v :: vs /\ Forall (fun r => RESOLUTION_ORDER r <= RESOLUTION_ORDER best) (v :: vs).
Proof.
  revert v. induction vs as [|w vs IH]; intros v; cbn.
  - split; [left|]. repeat constructor. lia.
  - destruct (IH (if RESOLUTION_ORDER v <? RESOLUTION_ORDER w then w else v)) as [Hin Hall].
    set (best := foldl _ _ _) in *. clearbody best. rewrite Forall_cons in Hall. destruct Hall as [Hv Hvs].
    rewrite !Forall_cons. destruct (_ <? _) eqn:E; bools.
    + split; [apply elem_of_cons; by right|]. split_and!; [lia|done|done].
    + split; [|split_and!; [done|lia|done]]. set_solver.
Qed.

Lemma highestResolution_spec values best :
  highestResolution values = Ok best ->
  best ∈ values /\ Forall (fun r => RESOLUTION_ORDER r <= RESOLUTION_ORDER best) values.
Proof. destruct values as [|v vs]; [done|]. intros [= <-]. apply highest_fold. Qed.

(** What a route declares covers one rung: its codec is among the codecs, and its
    resolution is not above the maximum, where they are declared. *)
Definition covers (c : VideoRouteCandidate) (r : Rung) : Prop :=
  (forall declared, firstStringList c codec_paths = Some declared -> codec_name (rg_codec r) ∈ declared) /\
  (forall raw max, firstString c resolution_paths = Some raw -> assoc raw resolution_names = Some max ->
     RESOLUTION_ORDER (rg_resolution r) <= RESOLUTION_ORDER max).

Lemma candidateSupports_covers mode c tier ladder best :
  highestResolution (map rg_resolution ladder) = Ok best ->
  candidateSupports mode c tier (uniqueCodecs ladder) best = true ->
  supports_name c mode_paths mode = true /\ supports_name c tier_paths (tier_name tier) = true /\
  Forall (covers c) ladder.
Proof.
  intros [_ Hbest]%highestResolution_spec H. unfold candidateSupports in H. bools. split_and!; [done..|].
  apply Forall_forall. intros r Hr. split.
  - intros declared Hd. unfold candidateSupportsCodecs in *. rewrite Hd, forallb_forall in *.
    assert (rg_codec r ∈ uniqueCodecs ladder) as Hin by (apply elem_of_uniqueCodecs; eauto).
    apply list_elem_of_In in Hin. match goal with H : forall x, _ |- _ => apply H in Hin end. by bools.
  - intros raw max Hraw Hmax. unfold candidateSupportsResolution in *. rewrite Hraw, Hmax in *. bools.
    rewrite Forall_forall in Hbest. specialize (Hbest (rg_resolution r)).
    etrans; [apply Hbest, list_elem_of_fmap; eauto|done].
Qed.

Lemma live_hints_outcome tier ladder h :
  buildLiveSelectionHints tier ladder = Ok h ->
  exists best, highestResolution (map rg_resolution (ladder ?? expandTier tier defaultEncodingLadder)) = Ok best /\
    dh_supportFilter h = (fun c => candidateSupports "live" c tier
      (uniqueCodecs (ladder ?? expandTier tier defaultEncodingLadder)) best).
Proof.
  unfold buildLiveSelectionHints. rewrite result_bind_Ok. intros (best & Hb & [= <-]). by exists best.
Qed.

(** A route that passes the support filter can make the whole ladder.  The hints of
    a live stream exist for every ladder but the empty one; a route that passes their
    filter supports the mode and the tier, and for every rung of the ladder its declared
    codecs include the rung's codec and its declared maximum is not below the rung's
    resolution. *)
Lemma supported_route_covers_ladder tier ladder :
  let rungs := ladder ?? expandTier tier defaultEncodingLadder in
  (rungs <> [] <-> is_ok (buildLiveSelectionHints tier ladder) = true) /\
  (forall h c, buildLiveSelectionHints tier ladder = Ok h -> dh_supportFilter h c = true ->
     supports_name c mode_paths "live" = true /\ supports_name c tier_paths (tier_name tier) = true /\
     Forall (covers c) rungs).
Proof.
  cbv zeta. split.
  - unfold buildLiveSelectionHints. by destruct (ladder ?? _).
  - intros h c Hh. apply live_hints_outcome in Hh as (best & Hb & ->). by apply candidateSupports_covers.
Qed.

(** Tiers are nested: the rungs of a tier are rungs of every higher one. *)
Definition tier_le (a b : EncodingTier) : Prop := incl (TIER_CODECS a) (TIER_CODECS b).
Lemma expandTier_mono a b ladder : tier_le a b -> incl (expandTier a ladder) (expandTier b ladder).
Proof.
  intros Hab r. unfold expandTier. rewrite !in_flat_map. intros (res & Hres & Hr). exists res. split; [done|].
  rewrite in_flat_map in *. destruct Hr as (codec & Hc & Hr). eauto.
Qed.
Lemma tiers_nested : tier_le baseline standard /\ tier_le standard premium.
Proof. split; intros c; cbn; tauto. Qed.
