(* ===== verification/HttpTransport.v ===== *)
(** * LOC over HTTP (livepeer/locHttpTransport.ts, livepeer/locWorkerResolver.ts)

    The transport the gateway runs with: one exchange for one request, checked before it
    is sent, its answer bounded, parsed and decoded.  Over it, the discovery of routes. *)

From S2P Require Import Prelude Js Types Wire Http Outcome Interfaces RouteProtocol LocClient RouteSelector.
From Stdlib Require Import Ascii.
Open Scope Z_scope.

(** The parts of a parsed URL the code reads, and the URL parser of the platform. *)
Record WebURL := mkWebURL {
  wu_href : string;
  wu_origin : string;
  wu_protocol : string;
  wu_username : string;
  wu_password : string;
  wu_pathname : string;
  wu_search : string;
  wu_hash : string
}.
(** [new URL(s)], [new URL(path, base)], and whether the timer of the [n]th exchange
    aborted it. *)
Class WebPlatform := {
  web_URL : string -> option WebURL;
  web_resolve : string -> WebURL -> option WebURL;
  timed_out : nat -> bool
}.

Record LocHttpTransportOptions := mkTransportOptions {
  ht_baseUrl : string;
  ht_apiKey : string;
  ht_clientId : string;
  ht_timeoutMs : jsnum
}.

Definition MAX_RESPONSE_CHARS : Z := 1048576.

(** [/^[A-Za-z0-9_.:-]{1,128}$/] *)
Definition remote_code_char (c : ascii) : bool :=
  is_upper c || is_lower c || is_digit c || bool_decide (c ∈ ["_"; "."; ":"; "-"]%char).
Definition REMOTE_CODE (s : string) : bool :=
  all_chars remote_code_char s && nonempty s && (str_len s <=? 128).

(** The envelope of an error: the code at [error.code], or in [detail]. *)
Inductive error_detail : Type :=
| DetailText (s : string)
| DetailCode (code : option string).
Definition code_object : decoder (option string) := z_object (fun f => opt_field f "code" z_string).
Definition z_detail : decoder error_detail := fun j =>
  match j with
  | JStr s => Some (DetailText s)
  | _ => DetailCode <$> code_object j
  end.
Definition errorEnvelope : decoder (option (option string) * option error_detail) := z_object (fun f =>
  error ← opt_field f "error" code_object;
  detail ← opt_field f "detail" z_detail;
  Some (error, detail)).

Definition remoteCode (body : option json) : option string :=
  match body with
  | Some j =>
      match errorEnvelope j with
      | Some (error, detail) =>
          let from_error := match error with Some c => c | None => None end in
          let from_detail := match detail with
                             | Some (DetailText s) => Some s
                             | Some (DetailCode c) => c
                             | None => None
                             end in
          match or_else from_error from_detail with
          | Some candidate => if REMOTE_CODE candidate then Some candidate else None
          | None => None
          end
      | None => None
      end
  | None => None
  end.

Definition retryAfterSeconds (response : HttpResponse) : option Z :=
  match get_header "retry-after" response with
  | Some value => match all_digits value with
                  | Some z => if safe_integer z then Some z else None
                  | None => None
                  end
  | None => None
  end.

Definition isRetryable (status : Z) (code : option string) : bool :=
  vf_retryable (classifyV2Failure (code ?? "") (Some status)).

Fixpoint includes_char (c : ascii) (s : string) : bool :=
  match s with EmptyString => false | String d s' => bool_decide (c = d) || includes_char c s' end.
(** [s.includes("//")] *)
Fixpoint double_slash (s : string) : bool :=
  match s with
  | String "/" ((String "/" _) as s') => true
  | String _ s' => double_slash s'
  | EmptyString => false
  end.
Definition backslash : ascii := ascii_of_nat 92.

Definition valid_path (path : string) : bool :=
  startsWith "/v1/" path && negb (includes_char backslash path) && negb (double_slash path).

(** [/^[\x21-\x7e]+$/] *)
Definition printable (s : string) : bool := nonempty s && all_chars (in_range 33 126) s.
Definition valid_key (s : string) : bool := printable s && (str_len s <=? 255).

Definition validateRequest {A} (value : LocRequest A) : result exn unit :=
  if lq_method value ==? "POST" then
    refuse_if (match lq_idempotencyKey value with Some k => negb (valid_key k) | None => true end) invalidRequest
  else refuse_if (is_present (lq_body value) || is_present (lq_idempotencyKey value)) invalidRequest.

Section transport.
Context `{Plat : Platform} `{Web : WebPlatform} `{F : Fetch}.

Definition safeJson (text : string) : result exn json :=
  throw_if MAX_RESPONSE_CHARS <? str_len text with invalidResponse ;;
  match json_parse text with
  | Some j => Ok j
  | None => Err invalidResponse
  end.

Definition requestUrl (baseUrl : WebURL) (path : string) : result exn WebURL :=
  throw_if negb (valid_path path) with invalidRequest ;;
  match web_resolve path baseUrl with
  | Some url => throw_if wu_origin url !=? wu_origin baseUrl with invalidRequest ;; Ok url
  | None => Err (PlainError "Invalid URL")
  end.

(** The checks of [createLocHttpTransport]; its result is the parsed base URL. *)
Definition createLocHttpTransport (options : LocHttpTransportOptions) : result exn WebURL :=
  match web_URL (ht_baseUrl options) with
  | None => Err (PlainError "Invalid URL")
  | Some baseUrl =>
      throw_if ((wu_protocol baseUrl !=? "http:") && (wu_protocol baseUrl !=? "https:")) ||
               (wu_username baseUrl !=? "") || (wu_password baseUrl !=? "") || (wu_pathname baseUrl !=? "/") ||
               (wu_search baseUrl !=? "") || (wu_hash baseUrl !=? "")
        with PlainError "LOC URL must use HTTP or HTTPS" ;;
      throw_if negb (nonempty (ht_apiKey options)) || negb (nonempty (ht_clientId options)) ||
               negb (safe_at_least 1 (ht_timeoutMs options))
        with PlainError "LOC HTTP transport options are invalid" ;;
      Ok baseUrl
  end.

Section request.
Context (options : LocHttpTransportOptions) (baseUrl : WebURL).

Definition http_headers (body key : option string) : list (string * string) :=
  [("X-API-Key", ht_apiKey options); ("Livepeer-Open-Clearinghouse-SDK", ht_clientId options)] ++
  match body with Some _ => [("Content-Type", "application/json")] | None => [] end ++
  match key with Some k => [("Idempotency-Key", k)] | None => [] end.

Definition transport_failure (code : string) : exn := LocTransportError (mkLocError code None None None true None).

(** [await fetchImpl(...)] within the [try]. *)
Definition exchange (rq : HttpRequest) : N HttpResponse := fun n =>
  match fetch rq n with
  | (Ok response, n') => (Ok response, n')
  | (Err _, n') => (Err (transport_failure (if timed_out (net_calls n) then "loc_timeout" else "loc_unavailable")), n')
  end.

(** What the answer amounts to. *)
Definition read_response {A} (schema : decoder A) (response : HttpResponse) : result exn A :=
  if negb (response_ok response) then
    let parsed := match safeJson (rs_body response) with Ok j => Some j | Err _ => None end in
    let code := remoteCode parsed in
    Err (LocTransportError (mkLocError "loc_http_error" None (Some (rs_status response)) code
           (isRetryable (rs_status response) code) (retryAfterSeconds response)))
  else
    let? parsed := safeJson (rs_body response) in
    match schema parsed with
    | Some a => Ok a
    | None => Err (LocTransportError (mkLocError "loc_response_invalid" None (Some (rs_status response)) None false None))
    end.

Definition http_request {A} (value : LocRequest A) : N A :=
  run! mlift (validateRequest value);
  do! url <- mlift (requestUrl baseUrl (lq_path value));
  let body := stringify <$> lq_body value in
  do! response <- exchange (mkHttpRequest (lq_method value) (wu_href url)
                              (http_headers body (lq_idempotencyKey value)) body);
  mlift (read_response (lq_schema value) response).
End request.

(** The transport as the LOC client uses it. *)
Definition http_transport (options : LocHttpTransportOptions) (baseUrl : WebURL) : LocTransport :=
  fun A => http_request options baseUrl (A := A).
End transport.

(** ** Discovering routes *)

(** [new URLSearchParams({...}).toString()] *)
Definition form_unreserved (c : ascii) : bool :=
  is_digit c || is_lower c || is_upper c || bool_decide (c ∈ ["*"; "-"; "."; "_"]%char).
Fixpoint form_encode (s : string) : string :=
  match s with
  | EmptyString => EmptyString
  | String c s' =>
      if form_unreserved c then String c (form_encode s')
      else if c ==? " "%char then String "+" (form_encode s')
      else String "%" (String (hex_digit (code c / 16)) (String (hex_digit (code c mod 16)) (form_encode s')))
  end.
Fixpoint search_params (l : list (string * string)) : string :=
  match l with
  | [] => ""
  | [(k, v)] => form_encode k +:+ "=" +:+ form_encode v
  | (k, v) :: l' => form_encode k +:+ "=" +:+ form_encode v +:+ "&" +:+ search_params l'
  end.

Section resolver.
Context `{Plat : Platform} `{Tr : LocTransport}.

Record Discovery := mkDiscovery {
  di_route_snapshot : RouteSnapshotWire;
  di_route_binding : LocRouteBinding
}.
Definition discoveryWire : decoder Discovery := z_object (fun f =>
  snapshot ← field f "route_snapshot" routeSnapshotWire;
  binding ← field f "route_binding" routeBindingWire;
  Some (mkDiscovery snapshot binding)).

Definition no_route (e : exn) : bool :=
  match e with
  | LocTransportError e => (loc_status e ==? Some 404) &&
                           ((toLowerCase <$> loc_remoteCode e) ==? Some "no_route_available")
  | _ => false
  end.

(** What the capability asks of the route LOC names. *)
Definition compatible_route (capability : Capability) (route : LocRouteSnapshot) : bool :=
  match capability with
  | transcode_abr =>
      (lr_protocol route ==? "paid-job/v1") &&
      match lr_job route with Some j => bool_decide (stream ∈ jx_transports j) | None => false end &&
      (lr_workUnit route ==? "video-frame-megapixel")
  | transcode_live =>
      (lr_protocol route ==? "paid-session/v1") && (lr_workUnit route ==? "output_seconds") &&
      match lr_session route with
      | Some a => (ax_descriptorSchema a ==? "rtmp-hls/v1") && (ax_attachment a ==? external) &&
                  (ax_metering a ==? runner_reported)
      | None => false
      end
  end.

Definition discovered_route (capability : Capability) (route : LocRouteSnapshot) : SelectedWorkerRoute :=
  mkSelectedRoute (lr_brokerUrl route) (lr_ethAddress route) (capability_name capability) (lr_offering route)
    (lr_pricePerWorkUnitWei route) (lr_workUnit route) (lr_protocol route) (lr_job route) (lr_session route)
    (lr_workUnitEstimator route) (lr_settlementKeys route) (Some (lr_settlementDomainId route))
    (Some (lr_unitsPerPrice route)) (Some (rb_quoteId (lr_binding route))) (Some (rb_quoteVersion (lr_binding route)))
    (Some (bytes_of_hex (rb_constraintFingerprint (lr_binding route))))
    (Some (bytes_of_hex (rb_routeFingerprint (lr_binding route))))
    (Some (JObj [("resolverExtra", lr_extra route)])) None.

(** The checks on LOC's answer, and the route made of it. *)
Definition accept_discovery (capability : Capability) (offering : string) (response : Discovery) :
    result exn (option SelectedWorkerRoute) :=
  let snapshot := di_route_snapshot response in
  throw_if (rw_capability snapshot !=? capability_name capability) || (rw_offering snapshot !=? offering) ||
           (rb_settlementDomainId (rw_binding snapshot) ==? zero_domain) ||
           negb (sameBinding (rw_binding snapshot) (di_route_binding response))
    with invalidResponse ;;
  let? route := mapRouteSnapshot snapshot in
  Ok (if compatible_route capability route then Some (discovered_route capability route) else None).

Definition loc_selectWorker (capability : Capability) (offering : string) : N (option SelectedWorkerRoute) :=
  do! response <- mcatch
    (do! r <- transport_request (mkLocRequest "GET"
        ("/v1/routes?" +:+ search_params [("capability", capability_name capability); ("offering", offering)])
        discoveryWire None None);
     mret_ (Some r))
    (fun e => if no_route e then mret_ None else mthrow e);
  match response with
  | None => mret_ None
  | Some r => mlift (accept_discovery capability offering r)
  end.
End resolver.
