(* ===== verification/HttpTransportSpec.v ===== *)
(** * What the HTTP transport guarantees

    Requests that reach the network are well formed and go to LOC; an answer is accepted
    only if it is a bounded JSON text of the expected shape; a paid job makes a bounded
    number of exchanges whatever the others answer, and LOC's key goes to LOC alone. *)

From S2P Require Import Prelude Js Types Wire Http Outcome Interfaces RouteProtocol LocClient JobClient RouteSelector.
From S2P Require Import Http HttpTransport.
Open Scope Z_scope.

Section transport.
Context `{Plat : Platform} `{Web : WebPlatform} `{F : Fetch}.
Context (options : LocHttpTransportOptions) (baseUrl : WebURL).

(** A request this transport may send. *)
Definition loc_request (rq : HttpRequest) : Prop :=
  exists path url key,
    valid_path path = true /\ web_resolve path baseUrl = Some url /\ wu_origin url = wu_origin baseUrl /\
    rq_url rq = wu_href url /\ rq_headers rq = http_headers options (rq_body rq) key /\
    if rq_method rq ==? "POST" then exists k, key = Some k /\ valid_key k = true
    else key = None /\ rq_body rq = None.

Lemma requestUrl_Ok path url :
  requestUrl baseUrl path = Ok url ->
  valid_path path = true /\ web_resolve path baseUrl = Some url /\ wu_origin url = wu_origin baseUrl.
Proof.
  unfold requestUrl. rewrite guard_Ok. intros [Hp H]. bools.
  destruct (web_resolve path baseUrl) as [u|]; [|done]. apply guard_Ok in H as [Ho [= <-]]. by bools.
Qed.

Definition request_of {A} (value : LocRequest A) (url : WebURL) : HttpRequest :=
  mkHttpRequest (lq_method value) (wu_href url)
    (http_headers options (stringify <$> lq_body value) (lq_idempotencyKey value)) (stringify <$> lq_body value).

Lemma request_of_loc {A} (value : LocRequest A) u url :
  HttpTransport.validateRequest value = Ok u -> requestUrl baseUrl (lq_path value) = Ok url ->
  loc_request (request_of value url).
Proof.
  intros Hv (Hp & Hr & Ho)%requestUrl_Ok. exists (lq_path value), url, (lq_idempotencyKey value).
  split_and!; try done. cbn. unfold HttpTransport.validateRequest in Hv.
  destruct (_ ==? _); apply refuse_if_Ok in Hv.
  - destruct (lq_idempotencyKey value) as [k|]; [|done]. bools. eauto.
  - bools. destruct (lq_body value), (lq_idempotencyKey value); done.
Qed.

Lemma exchange_sends rq : loc_request rq -> sends loc_request 1 (exchange rq).
Proof.
  intros Hrq n. destruct (sends_fetch loc_request rq 0 Hrq n) as (l & H).
  exists l. unfold exchange. destruct (fetch rq n) as [[r|e] n']; exact H.
Qed.

Lemma http_request_sends {A} (value : LocRequest A) : sends loc_request 1 (http_request options baseUrl value).
Proof.
  unfold http_request. meter. apply (sends_one_bind loc_request _ _ 0); [|intros; meter].
  by eapply exchange_sends, request_of_loc.
Qed.

Lemma http_request_outcome {A} (value : LocRequest A) n r n' :
  http_request options baseUrl value n = (r, n') ->
  (n' = n /\ exists e, r = Err e) \/
  exists u url, HttpTransport.validateRequest value = Ok u /\ requestUrl baseUrl (lq_path value) = Ok url /\
    n' = mkNet (S (net_calls n)) (request_of value url :: net_log n) /\
    match fetch_answer (net_calls n) (request_of value url) with
    | Ok response => r = read_response (lq_schema value) response
    | Err _ => r = Err (transport_failure (if timed_out (net_calls n) then "loc_timeout" else "loc_unavailable"))
    end.
Proof.
  unfold http_request, mbind_, mlift. destruct (HttpTransport.validateRequest value) as [u|]; [|intros [= <- <-]; eauto].
  destruct (requestUrl baseUrl (lq_path value)) as [url|]; [|intros [= <- <-]; eauto].
  unfold exchange, fetch. fold (request_of value url). intros H. right. exists u, url.
  destruct (fetch_answer _ _); injection H as <- <-; done.
Qed.

(** An answer that is accepted, and the error made of one that is not. *)
Definition reads_as {A} (schema : decoder A) (response : HttpResponse) (r : result exn A) : Prop :=
  match r with
  | Ok a => 200 <= rs_status response <= 299 /\ str_len (rs_body response) <= MAX_RESPONSE_CHARS /\
            exists j, json_parse (rs_body response) = Some j /\ schema j = Some a
  | Err (LocTransportError e) =>
      loc_operation e = None /\
      if loc_code e ==? "loc_http_error" then
        ~ (200 <= rs_status response <= 299) /\ loc_status e = Some (rs_status response) /\
        loc_retryable e = vf_retryable (classifyV2Failure (loc_remoteCode e ?? "") (Some (rs_status response)))
      else loc_code e = "loc_response_invalid" /\ loc_retryable e = false /\ 200 <= rs_status response <= 299
  | Err _ => False
  end.

Lemma read_response_reads {A} (schema : decoder A) response :
  reads_as schema response (read_response schema response).
Proof.
  unfold read_response, response_ok. destruct (_ && _) eqn:Hs; cbn [negb].
  - bools. unfold safeJson, result_bind, refuse_if.
    assert (forall st, reads_as schema response
      (Err (LocTransportError (mkLocError "loc_response_invalid" None st None false None)))) as Hinvalid
      by (intros st; split; [done|]; cbn [loc_code]; rewrite bool_decide_false by done; cbn; split_and!; (done || lia)).
    destruct (_ <? _) eqn:Hl; [apply Hinvalid|]. bools.
    destruct (json_parse _) as [j|] eqn:Hj; [|apply Hinvalid]. destruct (schema j) as [a|] eqn:Ha; [|apply Hinvalid].
    cbn. split_and!; [lia..|eauto].
  - split; [done|]. cbn [loc_code]. rewrite bool_decide_true by done. split_and!; [|done..]. bools. lia.
Qed.

(** C35: one well-formed exchange per call.  A request to LOC that is refused before it
    is sent leaves the network untouched.  Otherwise exactly one request is sent: to
    LOC's origin under a valid path, with a printable idempotency key if it is a POST and
    with neither key nor body if it is not.  A value is returned only from a 2xx answer
    of bounded size whose JSON passes the schema; every other answer and every failure
    of the network is an error of the transport whose retryability is the
    classification's. *)
Theorem transport_exchange_is_checked {A} (value : LocRequest A) n r n' :
  http_request options baseUrl value n = (r, n') ->
  (n' = n /\ exists e, r = Err e) \/
  exists rq, loc_request rq /\ n' = mkNet (S (net_calls n)) (rq :: net_log n) /\
    match fetch_answer (net_calls n) rq with
    | Ok response => reads_as (lq_schema value) response r
    | Err _ => exists e, r = Err (LocTransportError e) /\ loc_retryable e = true
    end.
Proof.
  intros [H|(u & url & Hv & Hu & -> & Hr)]%http_request_outcome; [by left|right].
  exists (request_of value url). split_and!; [by eapply request_of_loc|done|].
  destruct (fetch_answer _ _); subst r; [apply read_response_reads|]. eexists. by split.
Qed.
End transport.

(** ** LOC clients of one exchange per call *)

Class MeteredLoc (P : HttpRequest -> Prop) `{Loc : LocClient} : Prop := {
  metered_openJob i : sends P 1 (openJob i);
  metered_settleJob i : sends P 1 (settleJob i);
  metered_prepareSession i : sends P 1 (prepareSession i);
  metered_openSession i : sends P 1 (openSession i);
  metered_refillSession i : sends P 1 (refillSession i);
  metered_getSession i : sends P 1 (getSession i);
  metered_closeSession i : sends P 1 (closeSession i)
}.
#[export] Hint Resolve metered_openJob metered_settleJob metered_prepareSession metered_openSession
  metered_refillSession metered_getSession metered_closeSession : exchanges.

Section loc_over_http.
Context `{Plat : Platform} `{Web : WebPlatform} `{F : Fetch}.
Context (options : LocHttpTransportOptions) (baseUrl : WebURL).

(** The client of livepeer/locClient.ts over the HTTP transport. *)
Definition http_loc : LocClient := createLocClient (Transport_ := http_transport options baseUrl).

Lemma post_sends {A} path key body (schema : decoder A) :
  sends (loc_request options baseUrl) 1
    (post (Transport_ := http_transport options baseUrl) path key body schema).
Proof. apply http_request_sends. Qed.

#[local] Ltac one_post :=
  meter; first [apply post_sends | apply sends_last; [first [apply post_sends | apply http_request_sends]|intros; meter]].

#[export] Instance http_loc_metered : MeteredLoc (loc_request options baseUrl) (Loc := http_loc).
Proof.
  split; intros i; cbn [openJob settleJob prepareSession openSession refillSession getSession closeSession
    http_loc createLocClient].
  - unfold loc_openJob. one_post.
  - unfold loc_settleJob. one_post.
  - unfold loc_prepareSession. one_post.
  - unfold loc_openSession. one_post.
  - unfold loc_refillSession. one_post.
  - unfold loc_getSession. one_post.
  - unfold loc_closeSession. one_post.
Qed.
End loc_over_http.

(** ** A paid job

    [P] is any property of requests that LOC's calls have and that requests without LOC's
    key have. *)

Definition keyless (rq : HttpRequest) : Prop := Forall (fun kv => fst kv <> "X-API-Key") (rq_headers rq).

Section job.
Context `{Plat : Platform} `{Loc : LocClient} `{F : Fetch} (attempts : Z).
Context (P : HttpRequest -> Prop) `{!MeteredLoc P} (HP : forall rq, keyless rq -> P rq).

Lemma fetch_get_sends url k : sends P (S k) (fetch (mkHttpRequest "GET" url [] None)).
Proof. apply sends_fetch, HP. constructor. Qed.

Lemma settle_sends {T} opened claim check body : sends P 1 (settle (T := T) opened claim check body).
Proof. unfold settle. meter. apply sends_last; [apply metered_settleJob|intros; meter]. Qed.

Lemma settleFromExchange_sends {T} opened x check body : sends P 1 (settleFromExchange (T := T) opened x check body).
Proof. unfold settleFromExchange. meter. apply settle_sends. Qed.

(** One exchange per attempt, and one to settle. *)
Lemma poll_sends {T} n opened j check body : sends P (S n) (poll_loop (T := T) n opened j check body).
Proof.
  induction n as [|n IH]; cbn [poll_loop]; [meter|].
  apply sends_one_bind; [apply fetch_get_sends|]. intros response. meter; [|exact IH].
  eapply sends_weaken; [|instantiate (1 := 1%nat); lia].
  apply sends_last; [apply settleFromExchange_sends|intros; meter].
Qed.

Definition poll_budget : nat := S (Z.to_nat (Z.max 1 attempts)).

Lemma recover_sends opened : sends P (S poll_budget) (recover attempts opened).
Proof.
  unfold recover, recoverExchange, poll_budget. apply sends_one_bind; [apply fetch_get_sends|].
  intros response. meter; (apply sends_last; [|intros; meter]).
  all: first [apply poll_sends | eapply sends_weaken; [apply settleFromExchange_sends|lia]].
Qed.

Lemma confirm_unused_sends opened : sends P (S poll_budget) (confirm_unused attempts opened).
Proof. unfold confirm_unused. apply sends_last; [apply recover_sends|intros; meter]. Qed.

Lemma refused_sends {T} opened response : sends P (S poll_budget) (refused (T := T) attempts opened response).
Proof.
  unfold refused. destruct (brokerError response) as [c e].
  destruct (c ==? _); [|meter; apply sends_last; [apply recover_sends|intros; meter]].
  apply sends_last; [|intros; meter]. meter; try apply confirm_unused_sends.
  eapply sends_weaken; [apply sends_last; [apply settle_sends|intros; meter]|unfold poll_budget; lia].
Qed.

Lemma answered_sends {T} (input : PaidJobRequest T) opened response :
  sends P (S poll_budget) (answered attempts input opened response).
Proof.
  unfold answered. meter; (apply sends_last; [|intros; meter]); try apply recover_sends.
  - eapply sends_weaken; [apply settle_sends|unfold poll_budget; lia].
  - eapply sends_weaken; [apply poll_sends|unfold poll_budget; lia].
Qed.

Lemma job_headers_keyless {T} (input : PaidJobRequest T) opened proof url body headers :
  new_headers (job_headers input opened proof) = Ok headers ->
  keyless (mkHttpRequest "POST" url headers body).
Proof.
  unfold new_headers. destruct (headers_valid _); [|done]. intros [= <-]. unfold keyless, job_headers. cbn.
  repeat (constructor; [done|]). apply Forall_app. split; repeat case_match; repeat constructor; done.
Qed.

Lemma execute_sends {T} (input : PaidJobRequest T) : sends P (3 + poll_budget) (execute attempts input).
Proof.
  unfold execute. meter. apply sends_one_bind; [apply metered_openJob|]. intros opened. meter.
  apply sends_one_bind.
  { apply sends_rethrow; [|intros; meter]. apply sends_last; [|intros; meter]. apply sends_fetch, HP.
    by eapply job_headers_keyless. }
  intros [response|]; [meter; [apply answered_sends|apply refused_sends]|].
  apply sends_last; [|intros; meter]. apply sends_rethrow; [apply recover_sends|intros; meter].
Qed.
End job.

(** The requests of a gateway: to LOC, or without LOC's key. *)
Definition discreet `{WebPlatform} options baseUrl (rq : HttpRequest) : Prop :=
  loc_request options baseUrl rq \/ keyless rq.

Lemma sends_impl {A} (P Q : HttpRequest -> Prop) k (m : N A) :
  (forall rq, P rq -> Q rq) -> sends P k m -> sends Q k m.
Proof.
  intros HPQ H n. destruct (H n) as (l & ? & ? & ? & HP). exists l. split_and!; try done.
  by eapply Forall_impl.
Qed.

Lemma metered_impl (P Q : HttpRequest -> Prop) `{Loc : LocClient} :
  (forall rq, P rq -> Q rq) -> MeteredLoc P -> MeteredLoc Q.
Proof. intros HPQ []. split; intros i; eapply sends_impl; eauto. Qed.

(** C34: a paid job ends.  Whatever LOC and the broker answer, and even if every exchange
    fails, the execution of a paid job over HTTP ends after at most four exchanges more
    than the configured number of polls; and LOC's API key is sent in none of them
    except well-formed requests to LOC's own origin. *)
Theorem paid_job_exchanges_bounded `{Plat : Platform} `{Web : WebPlatform} `{F : Fetch} options baseUrl attempts
    {T} (input : PaidJobRequest T) n :
  let n' := snd (execute (Loc := http_loc options baseUrl) attempts input n) in
  (net_calls n' <= net_calls n + 4 + Z.to_nat (Z.max 1 attempts))%nat /\
  exists l, net_log n' = l ++ net_log n /\ length l = (net_calls n' - net_calls n)%nat /\
    Forall (discreet options baseUrl) l.
Proof.
  cbv zeta. destruct (execute_sends (Loc := http_loc options baseUrl) attempts (discreet options baseUrl)
    (MeteredLoc0 := metered_impl _ _ (fun rq H => or_introl H) (http_loc_metered options baseUrl))
    (fun rq H => or_intror H) input n) as (l & Hl & Hc & Hk & HP).
  unfold poll_budget in Hk. split; [lia|]. exists l. split_and!; [done|lia|done].
Qed.
