(* ===== verification/RouteDiscovery.v ===== *)
(** * Routes discovered over LOC are the routes that are opened

    livepeer/locWorkerResolver.ts over the HTTP transport, composed with the services
    that use the route: what LOC named is what an open sends back to it. *)

From S2P Require Import Prelude Js Types Wire Http Outcome Interfaces RouteProtocol LocClient Database OperationRepo.
From S2P Require Import SessionStore VodUsage AbrOrchestrator LiveOpen RouteSelector Http HttpTransport HttpTransportSpec SampleNet.
From Stdlib Require Import Ascii.
Open Scope Z_scope.

(** ** Fingerprints survive the detour over bytes *)

Definition low_digit (k : nat) : ascii := Ascii.ascii_of_nat (if Nat.ltb k 10 then 48 + k else 87 + k).

Lemma lowhex_digit c : is_lowhex c = true -> exists x, (x < 16)%nat /\ hex_value c = Some x /\ c = low_digit x.
Proof.
  intros Hc. exists (if is_digit c then code c - 48 else code c - 87)%nat.
  destruct c as [[] [] [] [] [] [] [] []]; try discriminate Hc; (split_and!; [vm_compute; lia|reflexivity..]).
Qed.

Definition pair_ok (x y : nat) : bool :=
  match Byte.of_nat (16 * x + y) with
  | Some b => hex_byte b ==? String (low_digit x) (String (low_digit y) EmptyString)
  | None => false
  end.
Lemma pairs_ok : forallb (fun x => forallb (pair_ok x) (seq 0 16)) (seq 0 16) = true.
Proof. vm_compute. reflexivity. Qed.
Lemma pair_byte x y : (x < 16)%nat -> (y < 16)%nat ->
  exists b, Byte.of_nat (16 * x + y) = Some b /\ hex_byte b = String (low_digit x) (String (low_digit y) EmptyString).
Proof.
  intros Hx Hy. pose proof pairs_ok as H. rewrite forallb_forall in H. specialize (H x ltac:(apply in_seq; lia)).
  rewrite forallb_forall in H. specialize (H y ltac:(apply in_seq; lia)). unfold pair_ok in H.
  destruct (Byte.of_nat _) as [b|]; [|done]. bools. eauto.
Qed.

Lemma hex_bytes_round_trip n s :
  all_chars is_lowhex s = true -> String.length s = (2 * n)%nat ->
  hex_string (bytes_of_hex s) = s /\ length (bytes_of_hex s) = n.
Proof.
  revert s. induction n as [|n IH]; intros s Hs Hlen; [by destruct s|].
  destruct s as [|a [|b s]]; [done|cbn in Hlen; lia|]. cbn in Hs, Hlen. bools.
  destruct (lowhex_digit a) as (x & Hx & Ha & ->); [done|]. destruct (lowhex_digit b) as (y & Hy & Hb & ->); [done|].
  cbn [bytes_of_hex]. rewrite Ha, Hb. destruct (pair_byte x y Hx Hy) as (c & -> & Hc).
  destruct (IH s) as [IH1 IH2]; [done|lia|]. cbn [hex_string length]. rewrite Hc, IH1, IH2. done.
Qed.

Lemma fingerprint_round_trip s : fingerprint_regex s = true -> hexFingerprint (bytes_of_hex s) = s.
Proof.
  unfold fingerprint_regex. intros H. bools. apply Nat.eqb_eq in H0.
  destruct (hex_bytes_round_trip 32 s) as [H1 H2]; [done..|]. unfold hexFingerprint. by rewrite H2, H1.
Qed.

Section discovery.
Context `{Plat : Platform} `{Web : WebPlatform} `{F : Fetch}.
Context (options : LocHttpTransportOptions) (baseUrl : WebURL).

(** What the schema of a binding accepts. *)
Record binding_ok (b : LocRouteBinding) : Prop := {
  bo_quote : nonempty (rb_quoteId b) = true;
  bo_version : uint64_text (rb_quoteVersion b) && (rb_quoteVersion b !=? "0") = true;
  bo_constraint : fingerprint_regex (rb_constraintFingerprint b) = true;
  bo_route : fingerprint_regex (rb_routeFingerprint b) = true;
  bo_domain : domain_regex (rb_settlementDomainId b) = true
}.

Lemma field_text f k s : field f k z_text = Some s -> nonempty s = true.
Proof. intros (j & _ & H)%field_Some. by apply z_text_Some in H as [_ H]. Qed.
Lemma field_refined p f k s : field f k (z_refined p) = Some s -> p s = true.
Proof. intros (j & _ & H)%field_Some. by apply z_refined_Some in H as [_ H]. Qed.

Lemma snapshot_binding_ok j snapshot :
  routeSnapshotWire j = Some snapshot ->
  binding_ok (rw_binding snapshot) /\ nonempty (rw_units_per_price snapshot) = true.
Proof.
  intros (f & -> & H)%z_object_Some. decoding H. injection H as <-. cbn [rw_binding rw_units_per_price].
  split; [split; cbn|].
  all: match goal with
       | D : field _ _ z_text = Some ?x |- nonempty ?x = true => exact (field_text _ _ _ D)
       | D : field _ _ z_positive_uint64 = Some ?x |- _ (?x) && _ = true => exact (field_refined _ _ _ _ D)
       | D : field _ _ z_fingerprint = Some ?x |- fingerprint_regex ?x = true => exact (field_refined _ _ _ _ D)
       | D : field _ _ z_domain = Some ?x |- domain_regex ?x = true => exact (field_refined _ _ _ _ D)
       | D : field _ "units_per_price" _ = Some ?x |- _ => apply field_refined in D; by destruct x
       end.
Qed.

Lemma binding_again b : binding_ok b -> routeBindingWire (binding_json b) = Some b.
Proof.
  intros [Hq Hv Hc Hr Hd]. unfold routeBindingWire, binding_json. cbn [z_object strict].
  assert (forall p s, p s = true -> z_refined p (JStr s) = Some s) as Hp by (intros p s Hs; cbn; by rewrite Hs).
  assert (z_text (JStr (rb_quoteId b)) = Some (rb_quoteId b)) as Ht by (cbn -[nonempty]; by rewrite Hq).
  match goal with |- context [?m ≫= _] => change m with (Some tt) end. cbn [mbind option_bind].
  reading "quote_id" as (rb_quoteId b) by done. cbn [mbind option_bind].
  reading "quote_version" as (rb_quoteVersion b) by (by apply Hp). cbn [mbind option_bind].
  reading "constraint_fingerprint" as (rb_constraintFingerprint b) by (by apply Hp). cbn [mbind option_bind].
  reading "route_fingerprint" as (rb_routeFingerprint b) by (by apply Hp). cbn [mbind option_bind].
  reading "settlement_domain_id" as (rb_settlementDomainId b) by (by apply Hp). cbn [mbind option_bind].
  by destruct b.
Qed.

Lemma mapRouteSnapshot_fields snapshot route :
  mapRouteSnapshot snapshot = Ok route ->
  lr_binding route = rw_binding snapshot /\
  lr_settlementDomainId route = rb_settlementDomainId (rw_binding snapshot) /\
  lr_settlementKeys route <> [] /\ lr_offering route = rw_offering snapshot /\
  lr_unitsPerPrice route = rw_units_per_price snapshot /\
  lr_workUnitEstimator route = (rw_work_unit_estimator snapshot ≫= fun e => parseWorkUnitEstimator (Some e)).
Proof.
  unfold mapRouteSnapshot. rewrite result_bind_Ok. intros (declared & _ & H).
  destruct (parseRouteProtocolDeclaration _ _); [|done].
  destruct (parseSettlementKeys _) as [[|k ks]|]; [done| |done].
  apply guard_Ok in H as [_ H]. apply result_bind_Ok in H as (extra & _ & H).
  apply result_bind_Ok in H as (raw & _ & [= <-]). cbn. done.
Qed.

(** A selection is an answer of LOC that was decoded and accepted. *)
Lemma loc_selectWorker_outcome capability offering n route n' :
  loc_selectWorker (Tr := http_transport options baseUrl) capability offering n = (Ok (Some route), n') ->
  exists j response, discoveryWire j = Some response /\ accept_discovery capability offering response = Ok (Some route).
Proof.
  unfold loc_selectWorker. rewrite mbind_Ok. intros ([response|] & n1 & H & Hr); [|done].
  unfold mlift in Hr. injection Hr as Hr <-. unfold mcatch, mbind_ in H.
  destruct (transport_request _ n) as [[d|e] n2] eqn:Ht.
  - injection H as <- <-. apply http_request_outcome in Ht as [(_ & e & [=])|(u & url & _ & _ & _ & Ht)].
    destruct (fetch_answer _ _) as [answer|]; [|done].
    pose proof (read_response_reads discoveryWire answer) as Hread. cbn in Ht. rewrite <- Ht in Hread.
    destruct Hread as (_ & _ & j & _ & Hj). eauto.
  - destruct (no_route e); discriminate H.
Qed.

Lemma discovery_decoded j response :
  discoveryWire j = Some response ->
  binding_ok (rw_binding (di_route_snapshot response)) /\ nonempty (rw_units_per_price (di_route_snapshot response)) = true.
Proof.
  intros (f & -> & H)%z_object_Some. decoding H. injection H as <-. cbn.
  apply field_Some in D as (j & _ & D). by apply snapshot_binding_ok in D.
Qed.

Lemma binding_texts b : binding_ok b -> nonempty (rb_quoteVersion b) = true /\ nonempty (rb_settlementDomainId b) = true.
Proof.
  intros [_ Hv _ _ Hd]. split; [by destruct (rb_quoteVersion b)|]. by destruct (rb_settlementDomainId b).
Qed.

Lemma discovered_binding capability route :
  binding_ok (lr_binding route) -> lr_settlementDomainId route = rb_settlementDomainId (lr_binding route) ->
  routeBindingFor (discovered_route capability route) = Ok (lr_binding route).
Proof.
  intros Hb Hd. destruct (binding_texts _ Hb) as [Hv Hdom]. unfold routeBindingFor. cbn.
  rewrite Hd, (bo_quote _ Hb), Hv, Hdom. cbn. unfold bindingToWire.
  rewrite !fingerprint_round_trip by apply Hb.
  replace (mkBinding _ _ _ _ _) with (lr_binding route) by (by destruct (lr_binding route)).
  by rewrite binding_again.
Qed.

(** The estimator of the frame megapixels the gateway counts itself *)
Definition supported_estimator (estimator : option WorkUnitEstimator) : Prop :=
  exists e, estimator = Some e /\ est_id e = ABR_ESTIMATOR_ID /\ est_rounding e = ABR_ESTIMATOR_ROUNDING /\
    est_exactness e = ABR_ESTIMATOR_EXACTNESS.
Lemma requireEstimator_Ok estimator : is_ok (requireEstimator estimator) = true <-> supported_estimator estimator.
Proof.
  unfold requireEstimator, supported_estimator. destruct estimator as [e|]; [|naive_solver].
  split; [intros H|intros (? & [= <-] & -> & -> & ->); by rewrite !bool_decide_true by done].
  exists e. destruct (refuse_if _ _) as [[]|] eqn:E; [|done]. apply refuse_if_Ok in E. bools.
  repeat match goal with H : bool_decide (_ = _) = true |- _ => apply bool_decide_eq_true in H end. by split_and!.
Qed.

(** What the services check of a route before they pay for it: the ABR service its
    protocol, unit, transport, its binding and, when it computes the funding, the
    estimator; the live service its protocol, axes and unit and its binding. *)
Definition usable (capability : Capability) (route : SelectedWorkerRoute) : Prop :=
  match capability with
  | transcode_abr =>
      sw_protocol route = "paid-job/v1" /\ sw_workUnit route = ABR_WORK_UNIT /\
      (exists j, sw_job route = Some j /\ stream ∈ jx_transports j) /\ is_ok (abr_paidRoute route) = true /\
      (is_ok (requireEstimator (sw_workUnitEstimator route)) = true <-> supported_estimator (sw_workUnitEstimator route))
  | transcode_live =>
      (is_ok (validateRoute route) = true <-> exists a, sw_session route = Some a /\ ax_refill a = extensible) /\
      is_ok (paidRoute route) = true
  end.

Lemma compatible_usable capability route :
  binding_ok (lr_binding route) -> lr_settlementDomainId route = rb_settlementDomainId (lr_binding route) ->
  lr_settlementKeys route <> [] -> nonempty (lr_unitsPerPrice route) = true ->
  compatible_route capability route = true -> usable capability (discovered_route capability route).
Proof.
  intros Hb Hd Hk Hu Hc. destruct (binding_texts _ Hb) as [Hv Hdom]. pose proof (bo_quote _ Hb) as Hq.
  destruct (lr_settlementKeys route) as [|k ks] eqn:Ek; [done|].
  destruct capability; cbn [compatible_route] in Hc; bools.
  - split_and!; [done|done| | |apply requireEstimator_Ok].
    + destruct (lr_job route) as [j|] eqn:Ej; [|done]. bools. exists j. by rewrite <- Ej.
    + unfold abr_paidRoute. cbn. by rewrite Hd, Hq, Hv, Hu, Hdom, Ek.
  - split.
    + unfold validateRoute. cbn. destruct (lr_session route) as [a|] eqn:Ea; [|done]. bools.
      destruct (ax_refill a) eqn:Er.
      * rewrite !bool_decide_true by done. split; [eauto|done].
      * rewrite (bool_decide_false (bounded = extensible)), !orb_true_r by done.
        split; [done|]. intros (a' & [= <-] & Hr). congruence.
    + unfold paidRoute. cbn. by rewrite Hd, Hq, Hv, Hu, Hdom, Ek.
Qed.

(** C36: the route LOC names is the route that is opened.  A route discovered over HTTP
    has the capability and offering asked for and at least one settlement key; the
    binding an open sends back is exactly LOC's, fingerprints included, although the
    route keeps them as bytes, and its estimator is the one LOC declared.  The ABR service
    finds nothing to refuse in such a route but its estimator, which it accepts exactly if
    it is the supported one, and the live service accepts a route exactly if its refill is
    extensible. *)
Theorem discovered_route_is_opened capability offering n route n' :
  loc_selectWorker (Tr := http_transport options baseUrl) capability offering n = (Ok (Some route), n') ->
  sw_capability route = capability_name capability /\ sw_offering route = offering /\
  sw_settlementKeys route <> [] /\ usable capability route /\
  exists j response, discoveryWire j = Some response /\
    routeBindingFor route = Ok (di_route_binding response) /\
    rb_settlementDomainId (di_route_binding response) <> zero_domain /\
    sw_workUnitEstimator route =
      (rw_work_unit_estimator (di_route_snapshot response) ≫= fun e => parseWorkUnitEstimator (Some e)).
Proof.
  intros (j & response & Hj & Ha)%loc_selectWorker_outcome. unfold accept_discovery in Ha.
  apply guard_Ok in Ha as [Hg Ha]. apply result_bind_Ok in Ha as (r & Hr & Ha).
  destruct (compatible_route capability r) eqn:Hc; [|done]. injection Ha as <-.
  apply mapRouteSnapshot_fields in Hr as (Hbind & Hdom & Hkeys & Hoff & Hunits & Hest).
  destruct (discovery_decoded _ _ Hj) as [Hok Hu]. rewrite <- Hbind in *. rewrite <- Hunits in Hu.
  apply orb_false_iff in Hg as [Hg Hsame]. apply orb_false_iff in Hg as [Hg Hz]. apply orb_false_iff in Hg as [_ Ho].
  apply negb_bool_decide_false in Ho. apply bool_decide_eq_false in Hz. apply negb_false_iff in Hsame.
  assert (lr_binding r = di_route_binding response) as Heq.
  { unfold sameBinding in Hsame. bools. destruct (lr_binding r), (di_route_binding response); cbn in *. congruence. }
  split_and!; [done|cbn; congruence|done|by apply compatible_usable|].
  exists j, response. rewrite <- Heq. split_and!; [done|by apply discovered_binding|done|done].
Qed.
End discovery.

(** ** A concrete discovery *)

Definition discovery_json : json :=
  JObj [("route_snapshot", sample_snapshot_fields "paid-session/v1" [("session", sample_session_wire)]);
        ("route_binding", binding_json sample_binding)].
Definition discovery_platform : Platform := {|
  is_url := is_url; is_uuid := is_uuid; new_URL := new_URL; stringify := stringify;
  json_parse := assoc_of [("route", discovery_json)];
  base64_text := base64_text; sha256_hex := sha256_hex; date_parse := date_parse; toISOString := toISOString;
  headers_valid := headers_valid; caller_publicKey := caller_publicKey; signAuthorization := signAuthorization
|}.
Definition sample_loc_url : WebURL := mkWebURL "https://loc" "https://loc" "https:" "" "" "/" "" "".
#[export] Instance sample_web : WebPlatform := {|
  web_URL := fun _ => Some sample_loc_url;
  web_resolve := fun path base => Some (mkWebURL (wu_origin base +:+ path) (wu_origin base) "https:" "" "" path "" "");
  timed_out := fun _ => false
|}.
Definition discovery_fetch : Fetch := fun _ _ => Ok (mkHttpResponse 200 [] None "route").
Definition sample_transport_options : LocHttpTransportOptions :=
  mkTransportOptions "https://loc" "key" "client" (NInt 1000).
Definition sample_discovery : result exn (option SelectedWorkerRoute) * net :=
  loc_selectWorker (Plat := discovery_platform)
    (Tr := http_transport (Plat := discovery_platform) (F := discovery_fetch) sample_transport_options sample_loc_url)
    transcode_live "std" (mkNet 0 []).
Lemma sample_discovered : match fst sample_discovery with Ok (Some _) => true | _ => false end = true.
Proof. vm_compute. reflexivity. Qed.

Lemma discovered_route_is_opened_witness :
  exists route n', sample_discovery = (Ok (Some route), n') /\ usable transcode_live route.
Proof.
  destruct sample_discovery as [[[route|]|] n'] eqn:E.
  2,3: exfalso; pose proof sample_discovered as H; rewrite E in H; discriminate H.
  exists route, n'. split; [reflexivity|].
  apply (discovered_route_is_opened (Plat := discovery_platform) (F := discovery_fetch) sample_transport_options
           sample_loc_url transcode_live "std" (mkNet 0 []) route n' E).
Defined.

(** The theorem on the transport applies to the same exchange. *)
Definition sample_exchange : result exn Discovery * net :=
  http_request (Plat := discovery_platform) (F := discovery_fetch) sample_transport_options sample_loc_url
    (mkLocRequest "GET" "/v1/routes" (discoveryWire (Plat := discovery_platform)) None None) (mkNet 0 []).
Lemma transport_exchange_is_checked_witness :
  exists r n', sample_exchange = (r, n') /\
    ((n' = mkNet 0 [] /\ exists e, r = Err e) \/
     exists rq, loc_request sample_transport_options sample_loc_url rq /\ n' = mkNet 1 [rq]).
Proof.
  destruct sample_exchange as [r n'] eqn:E. exists r, n'. split; [reflexivity|].
  destruct (transport_exchange_is_checked (Plat := discovery_platform) (F := discovery_fetch)
              sample_transport_options sample_loc_url _ _ _ _ E) as [H|(rq & H1 & H2 & _)].
  - left. exact H.
  - right. exists rq. split; [exact H1|exact H2].
Defined.
