(* ===== verification/Fairness.v ===== *)
(** * Recovery is fair

    A sweep takes the operations whose rows were written longest ago, and every write
    moves a row to the back of that order.  So an operation that is due waits for a
    bounded number of sweeps, whatever the instances do in between. *)

From S2P Require Import Prelude Js Types Database OperationRepo Samples OperationLease OperationSpec.
Open Scope Z_scope.

Section fairness.
Context `{Cipher : OperationSecretCipher entropy}.

(** ** Writes stamp rows with the clock *)

Lemma row_step_stamp d d' k x :
  row_step d d' -> db_paid_operations d' !! k = Some x ->
  db_paid_operations d !! k = Some x \/ row_updated_at x = db_now d.
Proof.
  intros Hstep Hx. destruct Hstep as
    [d d' [Ho _] _|r d d1 d' _ _ Hu Hst _ Hops _|r r' d d1 d' _ Hev Hst _ _ Hops _
    |id r e d d' _ _ ->|id d d' ->].
  - left. by rewrite <- Ho.
  - apply store_row_inv in Hst as [_ ->]. rewrite Hops in Hx. cbn in Hx.
    apply lookup_insert_Some in Hx as [[_ <-]|[_ Hx]]; auto.
  - apply store_row_inv in Hst as [_ ->]. rewrite Hops in Hx. cbn in Hx.
    apply lookup_insert_Some in Hx as [[_ <-]|[_ Hx]]; [right; apply Hev|auto].
  - by left.
  - by left.
Qed.

Lemma row_step_clock d d' : row_step d d' -> db_now d <= db_now d'.
Proof.
  destruct 1 as [d d' _ H|r d d1 d' _ _ _ _ _ _ H|r r' d d1 d' _ _ _ _ _ _ H|id r e d d' _ _ ->|id d d' ->];
    [done|by rewrite H..|cbn; lia|cbn; lia].
Qed.

Lemma row_steps_stamp d d' :
  rtc row_step d d' -> db_now d <= db_now d' /\
  forall k x, db_paid_operations d' !! k = Some x ->
    db_paid_operations d !! k = Some x \/ db_now d <= row_updated_at x.
Proof.
  induction 1 as [d|d d1 d' Hstep _ (IHc & IH)]; [split; [lia|by left]|].
  pose proof (row_step_clock _ _ Hstep). split; [lia|]. intros k x Hx.
  destruct (IH k x Hx) as [H1|H1]; [|right; lia].
  destruct (row_step_stamp _ _ _ _ Hstep H1) as [H2|H2]; [by left|right; lia].
Qed.

(** ** The queue before an operation

    The operations of the same kind whose rows were not written later. *)

Definition before (r x : Row) : Prop :=
  row_operation_kind x = row_operation_kind r /\ row_updated_at x <= row_updated_at r /\ row_id x <> row_id r.
#[export] Instance before_dec r x : Decision (before r x).
Proof. unfold before. apply _. Defined.

Definition queue (r : Row) (d : db) : gset string :=
  dom (filter (fun kx => before r (snd kx)) (db_paid_operations d)).
Definition ahead (r : Row) (d : db) : nat := size (queue r d).

Lemma elem_of_queue r d k :
  k ∈ queue r d <-> exists x, db_paid_operations d !! k = Some x /\ before r x.
Proof.
  unfold queue. rewrite elem_of_dom. split.
  - intros [x Hx]. apply map_lookup_filter_Some in Hx. by exists x.
  - intros (x & Hx & Hb). exists x. by apply map_lookup_filter_Some.
Qed.

Lemma queue_shrinks r d d' :
  rtc row_step d d' -> row_updated_at r < db_now d -> queue r d' ⊆ queue r d.
Proof.
  intros Hs Hr k. rewrite !elem_of_queue. intros (x & Hx & Hb). exists x. split; [|done].
  destruct (proj2 (row_steps_stamp _ _ Hs) k x Hx) as [H|H]; [done|]. destruct Hb as (_ & Hb & _). lia.
Qed.

(** ** One sweep *)

Lemma update_rows_lookup f rs d out d' :
  update_rows f rs d = Ok (out, d') -> NoDup (row_id <$> rs) -> (forall r, row_id (f r) = row_id r) ->
  forall r, r ∈ rs -> db_paid_operations d' !! row_id r = Some (f r).
Proof.
  revert d out. induction rs as [|r0 rs IH]; cbn; intros d out H Hnd Hid r Hr; [by apply not_elem_of_nil in Hr|].
  apply result_bind_Ok in H as (d1 & Hst & H).
  apply result_bind_Ok in H as ([out' d2] & Hrest & H). cbn in H. simplify_eq/=.
  apply NoDup_cons in Hnd as [Hni Hnd]. apply elem_of_cons in Hr as [->|Hr]; [|by eapply IH].
  rewrite (update_rows_frame _ _ _ _ _ _ Hrest).
  - apply store_row_inv in Hst as [_ ->]. cbn. by rewrite Hid, lookup_insert_eq.
  - intros x Hx Heq. rewrite Hid in Heq. apply Hni. rewrite <- Heq. by apply list_elem_of_fmap_2.
Qed.

Lemma order_asc_take {A} (key : A -> Z) (l : list A) n x y :
  x ∈ take n (order_asc key l) -> y ∈ skipn n (order_asc key l) -> key x <= key y.
Proof.
  intros Hx Hy. assert (StronglySorted (key_le key) (order_asc key l)) as Hs by apply (StronglySorted_merge_sort _).
  rewrite <- (take_drop n (order_asc key l)) in Hs.
  by eapply (StronglySorted_app_1_elem_of (key_le key)) in Hs.
Qed.

(** If something is left, as many were taken as could be. *)
Lemma take_full {A} (l : list A) n x : x ∈ skipn n l -> length (take n l) = n.
Proof.
  intros Hx. rewrite length_take. assert (length (skipn n l) <> 0%nat) as Hd.
  { destruct (skipn n l); [by apply not_elem_of_nil in Hx|done]. }
  rewrite length_skipn in Hd. lia.
Qed.

(** A sweep that leaves out [r], which it could have taken, takes [limit] operations of
    the queue before [r] and moves them behind it. *)
Lemma sweep_shortens locked owner now l limit r d out d' :
  db_wf d -> db_paid_operations d !! row_id r = Some r ->
  recoverable (row_operation_kind r) now locked r = true -> row_updated_at r < db_now d ->
  claimRecoverable locked (row_operation_kind r) owner now l limit d = Ok (out, d') ->
  row_id r ∉ (op_id <$> out) ->
  (ahead r d' + Z.to_nat limit <= ahead r d)%nat /\ 1 <= limit.
Proof.
  intros Hwf Hr Hrec Hold H Hnot.
  pose proof (claimRecoverable_steps _ _ _ _ _ _ _ _ _ Hwf H) as (Hsteps & lease & -> & _ & _ & Hout). cbn in Hout.
  unfold claimRecoverable in H. apply result_bind_Ok in H as (_ & _ & H). apply guard_Ok in H as [Hg H].
  assert (1 <= limit) as Hlim by (bools; lia). split; [|done]. clear Hg.
  apply result_bind_Ok in H as ([rows d1] & Hup & H). cbn in H. injection H as _ <-.
  set (sel := order_asc row_updated_at (rows_where (recoverable (row_operation_kind r) now locked) (db_paid_operations d))) in *.
  assert (r ∈ sel) as Hsel by (apply elem_of_order_asc, elem_of_rows_where; eauto).
  assert (r ∉ take (Z.to_nat limit) sel) as Hni.
  { intros Hin. apply Hnot. rewrite Hout, <- !list_fmap_compose.
    apply list_elem_of_fmap. exists r. by split. }
  assert (r ∈ skipn (Z.to_nat limit) sel) as Hdrop.
  { rewrite <- (take_drop (Z.to_nat limit) sel) in Hsel. apply elem_of_app in Hsel as [Hs|Hs]; done. }
  pose proof (take_full _ _ _ Hdrop) as Hlen.
  set (taken := list_to_set (row_id <$> take (Z.to_nat limit) sel) : gset string).
  assert (size taken = Z.to_nat limit) as Hsize.
  { unfold taken. rewrite size_list_to_set by (by apply selected_NoDup). by rewrite length_fmap. }
  assert (forall x, x ∈ take (Z.to_nat limit) sel -> row_updated_at x <= row_updated_at r) as Hle.
  { intros x Hx. eapply (order_asc_take row_updated_at); [exact Hx|exact Hdrop]. }
  assert (taken ⊆ queue r d) as Ht.
  { intros k Hk. apply elem_of_list_to_set, list_elem_of_fmap in Hk as (x & -> & Hx).
    pose proof (selected_stored _ _ _ _ _ Hwf Hx) as [Hp Hst]. apply elem_of_queue. exists x. split; [done|].
    unfold recoverable in Hp. bools. split_and!; [done|by apply Hle|].
    intros Heq. rewrite Heq, Hr in Hst. congruence. }
  assert (taken ## queue r d1) as Hdisj.
  { intros k Hk Hq. apply elem_of_list_to_set, list_elem_of_fmap in Hk as (x & -> & Hx).
    apply elem_of_queue in Hq as (y & Hy & Hb).
    rewrite (update_rows_lookup _ _ _ _ _ Hup ltac:(by apply selected_NoDup) ltac:(done) x Hx) in Hy.
    injection Hy as <-. destruct Hb as (_ & Hb & _). cbn in Hb. lia. }
  unfold ahead. rewrite <- Hsize, Nat.add_comm, <- size_union by done. apply subseteq_size.
  apply union_subseteq. split; [done|by apply queue_shrinks].
Qed.

(** ** Many sweeps *)

(** One round: any transactions of any instances, then a sweep that could have taken
    [r], which is as it was, and did not. *)
Definition passed_over (limit : Z) (r : Row) (d d' : db) : Prop :=
  exists d1 locked owner now l out,
    rtc repo_step d d1 /\ db_paid_operations d1 !! row_id r = Some r /\
    recoverable (row_operation_kind r) now locked r = true /\
    claimRecoverable locked (row_operation_kind r) owner now l limit d1 = Ok (out, d') /\
    row_id r ∉ (op_id <$> out).

Lemma rounds_bounded limit r n d d' :
  db_wf d -> row_updated_at r < db_now d -> nsteps (passed_over limit r) n d d' ->
  (n * Z.to_nat limit <= ahead r d)%nat.
Proof.
  intros Hwf Hold H. revert Hwf Hold. induction H as [d|n d d1 d' Hpass _ IH]; intros Hwf Hold; [lia|].
  destruct Hpass as (e & locked & owner & now & l & out & Hrest & Hr & Hrec & Hsweep & Hnot).
  apply repo_steps_rows in Hrest; [|done]. pose proof (row_steps_wf _ _ Hrest Hwf) as Hwf1.
  pose proof (proj1 (row_steps_stamp _ _ Hrest)) as Hclock.
  pose proof (subseteq_size _ _ (queue_shrinks r _ _ Hrest Hold)) as Hq. fold (ahead r e) (ahead r d) in Hq.
  pose proof (sweep_shortens _ _ _ _ _ _ _ _ _ Hwf1 Hr Hrec ltac:(lia) Hsweep Hnot) as [Hs _].
  apply claimRecoverable_steps in Hsweep as [Hsteps _]; [|done].
  pose proof (proj1 (row_steps_stamp _ _ Hsteps)).
  specialize (IH (row_steps_wf _ _ Hsteps Hwf1) ltac:(lia)). lia.
Qed.

(** ** A sweep succeeds *)

Lemma take_lease_stores owner lease r d :
  db_wf d -> db_paid_operations d !! row_id r = Some r -> row_lifecycle_version r < INT8_MAX ->
  is_ok (store_row (take_lease owner lease (db_now d) r) d) = true.
Proof.
  intros Hwf Hr Hv. unfold store_row.
  assert (row_check (take_lease owner lease (db_now d) r) = true) as ->.
  { pose proof (wf_check _ Hwf _ _ Hr) as Hc. cbn in Hc. unfold row_check in *. cbn -[fingerprint_regex] in *.
    rewrite !andb_true_iff in Hc |- *. rewrite ?Z.leb_le in *. naive_solver lia. }
  assert (row_unique (take_lease owner lease (db_now d) r) (db_paid_operations d) = true) as ->; [|done].
  unfold row_unique. apply bool_decide_eq_true. intros k x Hx. cbn.
  destruct (decide (k = row_id r)) as [->|Hne]; [by left|right].
  by apply (wf_unique _ Hwf (row_id r) k r x).
Qed.

(** Every row below the greatest version can be leased. *)
Lemma update_rows_succeeds owner lease now rs d :
  db_wf d -> now = db_now d -> NoDup (row_id <$> rs) ->
  (forall r, r ∈ rs -> db_paid_operations d !! row_id r = Some r /\ row_lifecycle_version r < INT8_MAX /\
     evolves now r (take_lease owner lease now r) /\ row_terminal_at (take_lease owner lease now r) = None) ->
  exists out d', update_rows (take_lease owner lease now) rs d = Ok (out, d').
Proof.
  revert d. induction rs as [|r rs IH]; intros d Hwf -> Hnd Hin; cbn; [eauto|].
  apply NoDup_cons in Hnd as [Hni Hnd]. destruct (Hin r) as (Hr & Hv & Hev & Hopen); [left|].
  pose proof (take_lease_stores owner lease r d Hwf Hr Hv) as Hok.
  destruct (store_row _ d) as [d1|] eqn:Hst; [|done]. cbn.
  assert (row_step d d1) as Hstep.
  { eapply (row_update r); try done; by apply store_row_inv in Hst as [_ ->]. }
  pose proof (store_row_inv _ _ _ Hst) as [_ ->].
  destruct (IH _ (row_step_wf _ _ Hstep Hwf) eq_refl Hnd) as (out & d' & ->).
  - intros x Hx. destruct (Hin x) as (Hx1 & Hx2); [by right|]. split; [|done]. cbn.
    rewrite lookup_insert_ne; [done|]. intros Heq. apply Hni. rewrite Heq. by apply list_elem_of_fmap_2.
  - eauto.
Qed.

Lemma sweep_succeeds locked kind owner now lease limit d :
  db_wf d -> map_Forall (fun _ r => row_lifecycle_version r < INT8_MAX) (db_paid_operations d) ->
  1 <= str_len owner <= 255 -> 1 <= limit <= 1000 -> now < lease ->
  exists out d', claimRecoverable locked kind owner now (DateMs lease) limit d = Ok (out, d').
Proof.
  intros Hwf Hv Ho Hl Hlease. unfold claimRecoverable, validateClaim. cbn [cl_owner cl_version cl_leaseExpiresAt].
  rewrite (proj2 (Z.eqb_neq _ _)), (proj2 (Z.ltb_ge _ _)), bool_decide_false by (done || lia). cbn.
  unfold safe_integer, MAX_SAFE_INTEGER. rewrite (proj2 (Z.leb_le (Z.abs limit) _)) by lia.
  rewrite (proj2 (Z.ltb_ge limit 1)), (proj2 (Z.ltb_ge 1000 limit)), (proj2 (Z.leb_gt lease now)) by lia. cbn.
  destruct (update_rows_succeeds owner lease (db_now d) (take (Z.to_nat limit) (order_asc row_updated_at
    (rows_where (recoverable kind now locked) (db_paid_operations d)))) d) as (out & d' & ->);
    [done|done|by apply selected_NoDup| |eauto].
  intros r Hr. apply selected_stored in Hr as [Hp Hst]; [|done]. split; [done|].
  split; [by apply (Hv _ _ Hst)|]. unfold recoverable, not_terminal in Hp. bools.
  apply (take_lease_evolves _ _ _ now); [by destruct (row_terminal_at r)|done|by right].
Qed.

(** C20: recovery reaches every operation.  A sweep with valid inputs succeeds on every
    well-formed table whose versions are below the maximum.  An operation that is due
    and unleased is taken after a bounded number of sweeps, whoever runs them and
    whatever transactions of whatever instances come in between: it is passed over at
    most as often as the operations of its kind that were not written later fill whole
    sweeps. *)
Theorem recovery_reaches_every_operation d :
  db_wf d ->
  (forall locked kind owner now lease limit,
     map_Forall (fun _ r => row_lifecycle_version r < INT8_MAX) (db_paid_operations d) ->
     1 <= str_len owner <= 255 -> 1 <= limit <= 1000 -> now < lease ->
     exists out d', claimRecoverable locked kind owner now (DateMs lease) limit d = Ok (out, d')) /\
  (forall limit r n d', row_updated_at r < db_now d -> nsteps (passed_over limit r) n d d' ->
     Z.of_nat n * limit <= Z.of_nat (ahead r d)).
Proof.
  intros Hwf. split; [intros; by apply sweep_succeeds|].
  intros limit r n d' Hold H. pose proof (rounds_bounded _ _ _ _ _ Hwf Hold H). nia.
Qed.
End fairness.

(** An empty queue: the only operation of the sample tables is taken by the first sweep
    after its lease has run out. *)
Lemma recovery_reaches_every_operation_witness :
  exists out d', claimRecoverable ∅ session "bob" 150 (DateMs 200) 10 session_db = Ok (out, d').
Proof.
  apply (proj1 (recovery_reaches_every_operation session_db session_db_wf) ∅ session "bob" 150 200 10).
  - apply (bool_decide_eq_true_1 _). vm_compute. reflexivity.
  - vm_compute. split; discriminate.
  - vm_compute. split; discriminate.
  - reflexivity.
Defined.
