(* ===== verification/RateLimit.v ===== *)
(** * Rate limits (auth/rateLimit.ts)

    The limiter keeps the instants of the accepted requests of every key.  A timer drops
    instants older than a minute; [check] drops those that left its window. *)

From S2P Require Import Prelude Js Types Outcome RouteHealth.
Open Scope Z_scope.

(** [map]: the instants of a key, oldest first. *)
Definition limiter : Type := list (string * list Z).
Definition createRateLimiter : limiter := [].

(** The body of the timer: a key whose instants are all too old is deleted. *)
Definition sweep (now : Z) (map_ : limiter) : limiter :=
  let cutoff := now - 60000 in
  omap (fun '(key, stamps) =>
          let kept := List.filter (fun t => cutoff <? t) stamps in
          if (length kept =? 0)%nat then None
          else if negb (length kept =? length stamps)%nat then Some (key, kept)
          else Some (key, stamps)) map_.

Definition check (key : string) (maxRequests windowSecs : Z) (now : Z) (map_ : limiter) : bool * limiter :=
  let cutoff := now - windowSecs * 1000 in
  let entries := assoc key map_ ?? [] in
  let fresh := List.filter (fun t => cutoff <? t) entries in
  if maxRequests <=? Z.of_nat (length fresh) then (false, map_set key fresh map_)
  else (true, map_set key (fresh ++ [now]) map_).

Definition stop (map_ : limiter) : limiter := [].

(** ** Histories

    What may happen to a limiter, at which instant. *)

Inductive event : Type :=
| Checked (key : string) (maxRequests windowSecs : Z)
| Swept.

Definition step (map_ : limiter) (e : Z * event) : bool * limiter :=
  match snd e with
  | Checked key maxRequests windowSecs => check key maxRequests windowSecs (fst e) map_
  | Swept => (false, sweep (fst e) map_)
  end.

(** The limiter after a history, and the verdict on each of its events, latest first. *)
Fixpoint replay (history : list (Z * event)) : limiter * list bool :=
  match history with
  | [] => (createRateLimiter, [])
  | e :: earlier =>
      let '(m, verdicts) := replay earlier in
      let '(ok, m') := step m e in (m', ok :: verdicts)
  end.
Definition after_history (history : list (Z * event)) : limiter := fst (replay history).

(** The instants at which requests of [key] were accepted, oldest first. *)
Definition concerns (key : string) (e : event) : bool :=
  match e with Checked k _ _ => k ==? key | Swept => false end.
Fixpoint accepted (key : string) (history : list (Z * event)) : list Z :=
  match history with
  | [] => []
  | e :: earlier =>
      accepted key earlier ++
      (if concerns key (snd e) && fst (step (after_history earlier) e) then [fst e] else [])
  end.

Definition within (lo hi : Z) (l : list Z) : list Z := List.filter (fun t => (lo <? t) && (t <=? hi)) l.

(** Time does not run backwards. *)
Fixpoint ordered (history : list (Z * event)) : Prop :=
  match history with
  | [] => True
  | e :: earlier => Forall (fun e' => fst e' <= fst e) earlier /\ ordered earlier
  end.
(** Every check of [key] has the same window of at most a minute. *)
Definition steady (key : string) (windowSecs : Z) (e : Z * event) : Prop :=
  match snd e with Checked k _ w => k = key -> w = windowSecs | Swept => True end.

Lemma after_cons e h : after_history (e :: h) = snd (step (after_history h) e).
Proof. unfold after_history. cbn. destruct (replay h) as [m v]. cbn. by destruct (step m e). Qed.

(** ** What is kept *)

Lemma filter_filter_le (a b : Z) (l : list Z) :
  a <= b -> List.filter (fun t => b <? t) (List.filter (fun t => a <? t) l) = List.filter (fun t => b <? t) l.
Proof.
  intros Hab. induction l as [|t l IH]; cbn; [done|].
  destruct (a <? t) eqn:Ea; cbn; rewrite IH; [done|]. destruct (b <? t) eqn:Eb; [|done]. bools. lia.
Qed.

Definition stamps_of (key : string) (m : limiter) : list Z := assoc key m ?? [].
Definition keyed (m : limiter) : Prop := NoDup (map fst m).

Lemma filter_same_length (f : Z -> bool) l : length (List.filter f l) = length l -> List.filter f l = l.
Proof.
  induction l as [|x l IH]; cbn; [done|]. destruct (f x); cbn; intros H; [f_equal; apply IH; lia|].
  pose proof (List.filter_length_le f l). lia.
Qed.

Definition sweep_entry (cutoff : Z) (entry : string * list Z) : option (string * list Z) :=
  let kept := List.filter (fun t => cutoff <? t) (snd entry) in
  if (length kept =? 0)%nat then None else Some (fst entry, kept).

Lemma sweep_entries now m : sweep now m = omap (sweep_entry (now - 60000)) m.
Proof.
  unfold sweep. induction m as [|[k l] m IH]; cbn; [done|]. unfold sweep_entry at 1. cbn. rewrite IH.
  set (kept := List.filter _ l). destruct (length kept =? 0)%nat; [done|].
  destruct (length kept =? length l)%nat eqn:E; cbn; [|done]. apply Nat.eqb_eq in E.
  unfold kept in *. by rewrite filter_same_length.
Qed.

Lemma omap_entries_keys c m k : k ∈ map fst (omap (sweep_entry c) m) -> k ∈ map fst m.
Proof.
  induction m as [|[k' l] m IH]; cbn; [done|]. unfold sweep_entry at 1. cbn.
  destruct (_ =? 0)%nat; cbn; rewrite !elem_of_cons; [by auto|]. intros [->|H]; auto.
Qed.

Lemma sweep_stamps now key m :
  keyed m -> keyed (sweep now m) /\
  stamps_of key (sweep now m) = List.filter (fun t => now - 60000 <? t) (stamps_of key m).
Proof.
  rewrite sweep_entries. unfold keyed, stamps_of. induction m as [|[k l] m IH]; cbn; [done|].
  intros [Hni Hnd]%NoDup_cons. destruct (IH Hnd) as [IH1 IH2].
  destruct (sweep_entry (now - 60000) (k, l)) as [y|] eqn:Ey; unfold sweep_entry in Ey; cbn in Ey;
    destruct (length _ =? 0)%nat eqn:E; try done; [injection Ey as <-|].
  - cbn. split.
    + constructor; [|done]. intros Hin. by apply omap_entries_keys in Hin.
    + case_bool_decide; done.
  - split; [done|]. rewrite IH2. case_bool_decide as Ek; [|done]. subst k.
    apply Nat.eqb_eq, length_zero_iff_nil in E. cbn. rewrite E.
    destruct (assoc key m) as [s|] eqn:Es; [|done]. exfalso. apply Hni.
    apply assoc_elem_of in Es. by apply (list_elem_of_fmap_2 fst) in Es.
Qed.

Lemma map_set_keys {A} k (v : A) m : map fst (map_set k v m) = map fst m \/
  ((k ∉ map fst m) /\ map fst (map_set k v m) = map fst m ++ [k]).
Proof.
  induction m as [|[k' v'] m IH]; cbn; [right; split; [by apply not_elem_of_nil|done]|].
  case_bool_decide as E; cbn; [by left|]. destruct IH as [->|[Hni ->]]; [by left|right].
  split; [|done]. rewrite not_elem_of_cons. done.
Qed.
Lemma map_set_keyed k v m : keyed m -> keyed (map_set k v m).
Proof.
  unfold keyed. destruct (map_set_keys k v m) as [->|[Hni ->]]; [done|]. intros H.
  apply NoDup_app. split_and!; [done| |apply NoDup_singleton]. intros x Hx ->%list_elem_of_singleton. done.
Qed.

Lemma check_stamps key' key maxR w now m :
  stamps_of key' (snd (check key maxR w now m)) =
  if key ==? key' then
    List.filter (fun t => now - w * 1000 <? t) (stamps_of key m) ++
    (if fst (check key maxR w now m) then [now] else [])
  else stamps_of key' m.
Proof.
  unfold check, stamps_of. case_bool_decide as E.
  - subst. destruct (_ <=? _); cbn; rewrite assoc_map_set_eq; cbn; by rewrite ?app_nil_r.
  - destruct (_ <=? _); cbn; by rewrite assoc_map_set_ne by congruence.
Qed.

Lemma step_keyed m e : keyed m -> keyed (snd (step m e)).
Proof.
  intros Hm. unfold step. destruct (snd e).
  - unfold check. destruct (_ <=? _); by apply map_set_keyed.
  - by apply (sweep_stamps (fst e) "").
Qed.
Lemma after_keyed h : keyed (after_history h).
Proof. induction h as [|e h IH]; [constructor|]. rewrite after_cons. by apply step_keyed. Qed.

(** Within the window, what the limiter remembers of a key is what it accepted. *)
Lemma remembered key w h now :
  w <= 60 -> ordered h -> Forall (steady key w) h -> Forall (fun e => fst e <= now) h ->
  List.filter (fun t => now - w * 1000 <? t) (stamps_of key (after_history h)) =
  List.filter (fun t => now - w * 1000 <? t) (accepted key h).
Proof.
  intros Hw. revert now. induction h as [|[at_ e] h IH]; intros now Ho Hs Hn; [done|].
  destruct Ho as [Hlast Ho]. apply Forall_cons in Hs as [Hse Hs]. apply Forall_cons in Hn as [Hat Hn]. cbn in Hat.
  rewrite after_cons. cbn [accepted]. rewrite List.filter_app, <- IH by done.
  destruct e as [k maxR w'|]; unfold step, concerns; cbn [snd fst].
  - rewrite check_stamps. case_bool_decide as Ek; cbn [andb].
    + subst k. cbn in Hse. rewrite (Hse eq_refl). rewrite List.filter_app. f_equal.
      rewrite filter_filter_le by lia. done.
    + cbn. by rewrite app_nil_r.
  - rewrite (proj2 (sweep_stamps at_ key _ (after_keyed h))). cbn. rewrite app_nil_r. apply filter_filter_le. lia.
Qed.

Lemma accepted_before key h now : Forall (fun e => fst e <= now) h -> Forall (fun t => t <= now) (accepted key h).
Proof.
  induction 1 as [|e h He Hh IH]; cbn; [constructor|]. apply Forall_app. split; [done|].
  destruct (_ && _); [by constructor|constructor].
Qed.

Lemma within_all lo hi l : Forall (fun t => t <= hi) l -> within lo hi l = List.filter (fun t => lo <? t) l.
Proof.
  intros H. unfold within. induction H as [|t l Ht Hl IH]; cbn; [done|].
  rewrite (proj2 (Z.leb_le _ _) Ht), andb_true_r, IH. done.
Qed.

(** A request is accepted exactly if fewer than the limit were in its window. *)
Lemma verdict key maxR w h now :
  w <= 60 -> ordered h -> Forall (steady key w) h -> Forall (fun e => fst e <= now) h ->
  fst (check key maxR w now (after_history h)) = true <->
  Z.of_nat (length (within (now - w * 1000) now (accepted key h))) < maxR.
Proof.
  intros Hw Ho Hs Hn. rewrite within_all by (by apply accepted_before). rewrite <- remembered by done.
  unfold check. fold (stamps_of key (after_history h)).
  destruct (maxR <=? _) eqn:E; cbn; bools; split; intros; try done; lia.
Qed.

Lemma filter_length_mono (f g : Z -> bool) l :
  Forall (fun t => f t = true -> g t = true) l -> (length (List.filter f l) <= length (List.filter g l))%nat.
Proof.
  induction 1 as [|t l Ht Hl IH]; cbn; [lia|]. destruct (f t); [rewrite Ht by done|destruct (g t)]; cbn; lia.
Qed.

Definition limited (key : string) (maxR w : Z) (e : Z * event) : Prop :=
  match snd e with Checked k m w' => k = key -> m = maxR /\ w' = w | Swept => True end.

Lemma limited_steady key maxR w h : Forall (limited key maxR w) h -> Forall (steady key w) h.
Proof. intros H. eapply Forall_impl; [exact H|]. intros [? []]; cbn; naive_solver. Qed.

Lemma window_bound key maxR w h :
  0 <= maxR -> 0 <= w <= 60 -> ordered h -> Forall (limited key maxR w) h ->
  forall t, Z.of_nat (length (within (t - w * 1000) t (accepted key h))) <= maxR.
Proof.
  intros Hmax Hw Ho Hl.
  revert Ho Hl. induction h as [|[s e] h IH]; intros Ho Hl t; [cbn; lia|].
  destruct Ho as [Hlast Ho]. apply Forall_cons in Hl as [Hle Hl]. specialize (IH Ho Hl). cbn in Hlast.
  cbn [accepted]. unfold within. rewrite List.filter_app, length_app. fold (within (t - w * 1000) t (accepted key h)).
  destruct (concerns key (snd (s, e)) && _) eqn:Eacc; [|cbn; rewrite Nat.add_0_r; apply IH].
  cbn [List.filter fst snd] in *. destruct ((t - w * 1000 <? s) && (s <=? t)) eqn:Ein; cbn [length].
  2: { rewrite Nat.add_0_r. apply IH. }
  apply andb_true_iff in Eacc as [Ek Eacc]. bools. destruct e as [k m w'|]; [|done]. cbn in Ek, Hle. bools.
  destruct (Hle Ek) as [-> ->]. subst k. unfold step in Eacc. cbn [snd fst] in Eacc.
  apply verdict in Eacc; [|lia|done| |done].
  2: by eapply limited_steady.
  enough (length (within (t - w * 1000) t (accepted key h)) <= length (within (s - w * 1000) s (accepted key h)))%nat by lia.
  apply filter_length_mono. eapply Forall_impl; [by apply (accepted_before key h s)|].
  intros u Hu Hin. cbn in Hu. bools. apply andb_true_iff. split; [apply Z.ltb_lt|apply Z.leb_le]; lia.
Qed.

(** C37: the limit holds in every window.  Whatever requests of whatever keys arrive, and
    whenever the sweeping timer fires, no window of the configured length contains more
    accepted requests of a key than its limit, and a request is refused only if its
    window is full; for windows of up to a minute, the age at which the timer forgets. *)
Theorem rate_limit_holds key maxR w history :
  0 <= maxR -> 0 <= w <= 60 -> ordered history -> Forall (limited key maxR w) history ->
  (forall t, Z.of_nat (length (within (t - w * 1000) t (accepted key history))) <= maxR) /\
  (forall now, Forall (fun e => fst e <= now) history ->
     fst (check key maxR w now (after_history history)) = false ->
     Z.of_nat (length (within (now - w * 1000) now (accepted key history))) = maxR).
Proof.
  intros Hmax Hw Ho Hl. pose proof (window_bound key maxR w history Hmax Hw Ho Hl) as Hbound.
  split; [done|]. intros now Hn Hc. specialize (Hbound now).
  destruct (decide (Z.of_nat (length (within (now - w * 1000) now (accepted key history))) < maxR)) as [H|H]; [|lia].
  apply verdict in H; [congruence|lia|done|by eapply limited_steady|done].
Qed.

(** Three requests of two allowed ones, with the timer in between. *)
Definition sample_history : list (Z * event) :=
  [(70000, Checked "ip" 2 60); (61000, Swept); (2000, Checked "ip" 2 60); (1500, Checked "ip" 2 60);
   (1000, Checked "ip" 2 60)].
Lemma rate_limit_holds_witness :
  accepted "ip" sample_history = [1000; 1500; 70000] /\
  Z.of_nat (length (within (60000 - 60 * 1000) 60000 (accepted "ip" sample_history))) <= 2.
Proof.
  split; [vm_compute; reflexivity|].
  apply (proj1 (rate_limit_holds "ip" 2 60 sample_history ltac:(lia) ltac:(lia)
    ltac:(cbn; repeat constructor; discriminate) ltac:(repeat constructor)) 60000).
Defined.
