(* ===== verification/Accounts.v ===== *)
(** * Accounts (src/auth and src/middleware)

    Sign-ups, users, API keys and login sessions over the tables of the auth schema
    (migration 0001).  A transaction is a function of the tables; what the database and
    the platform draw at random (row ids, tokens, keys) is an argument. *)

From S2P Require Import Prelude Js Types Http Database OperationRepo.
From Stdlib Require Import Ascii.
Open Scope Z_scope.

(** ** Tables *)

Inductive SignupStatus : Type := pending | approved | rejected.
#[export] Instance SignupStatus_eq_dec : EqDecision SignupStatus.
Proof. solve_decision. Defined.
Definition status_name (s : SignupStatus) : string :=
  match s with pending => "pending" | approved => "approved" | rejected => "rejected" end.

Record Signup := mkSignup {
  sg_id : string;
  sg_name : string;
  sg_email : string;
  sg_ipHash : option string;
  sg_status : SignupStatus;
  sg_emailVerified : bool;
  sg_token : option string;
  sg_tokenExpiresAt : option Z;
  sg_createdAt : Z;
  sg_approvedAt : option Z;
  sg_rejectedAt : option Z
}.
#[export] Instance Signup_eta : RecEta Signup := fun s =>
  mkSignup (sg_id s) (sg_name s) (sg_email s) (sg_ipHash s) (sg_status s) (sg_emailVerified s) (sg_token s)
    (sg_tokenExpiresAt s) (sg_createdAt s) (sg_approvedAt s) (sg_rejectedAt s).
Record User := mkUser {
  us_id : string;
  us_waitlistId : string;
  us_email : string;
  us_createdAt : Z;
  us_updatedAt : Z
}.
#[export] Instance User_eta : RecEta User := fun u =>
  mkUser (us_id u) (us_waitlistId u) (us_email u) (us_createdAt u) (us_updatedAt u).
Record ApiKey := mkApiKey {
  ak_id : string;
  ak_userId : string;
  ak_prefix : string;
  ak_hash : string;
  ak_createdAt : Z;
  ak_revokedAt : option Z
}.
#[export] Instance ApiKey_eta : RecEta ApiKey := fun k =>
  mkApiKey (ak_id k) (ak_userId k) (ak_prefix k) (ak_hash k) (ak_createdAt k) (ak_revokedAt k).
Record LoginSession := mkLoginSession {
  se_id : string;
  se_apiKeyId : string;
  se_hash : string;
  se_createdAt : Z;
  se_expiresAt : Z;
  se_revokedAt : option Z
}.
#[export] Instance LoginSession_eta : RecEta LoginSession := fun s =>
  mkLoginSession (se_id s) (se_apiKeyId s) (se_hash s) (se_createdAt s) (se_expiresAt s) (se_revokedAt s).

(** [ad_referenced] are the keys that rows of the media tables refer to, which may not be
    deleted. *)
Record adb := mkAdb {
  ad_now : Z;
  ad_waitlist : gmap string Signup;
  ad_users : gmap string User;
  ad_api_keys : gmap string ApiKey;
  ad_sessions : gmap string LoginSession;
  ad_referenced : gset string
}.
#[export] Instance adb_eta : RecEta adb := fun d =>
  mkAdb (ad_now d) (ad_waitlist d) (ad_users d) (ad_api_keys d) (ad_sessions d) (ad_referenced d).

Definition atx (A : Type) : Type := adb -> result exn (A * adb).

(** Whether some row of a table satisfies a condition. *)
Definition exists_row {A} (p : A -> bool) (t : gmap string A) : bool := negb (bool_decide (rows_where p t = [])).
(** [UPDATE ... WHERE p SET f], with the number of rows. *)
Definition update_where {A} (p : A -> bool) (f : A -> A) (t : gmap string A) : gmap string A :=
  (fun r => if p r then f r else r) <$> t.

(** ** auth/crypto.ts *)

Definition ALPHABET : string := "0123456789abcdefghijklmnopqrstuvwxyzABCDEFGHIJKLMNOPQRSTUVWXYZ".
(** A random byte picks a character by its remainder. *)
Definition alphanum (b : Byte.byte) : ascii :=
  match String.get (N.to_nat (Byte.to_N b) mod 62)%nat ALPHABET with Some c => c | None => "0"%char end.
Fixpoint randomAlphanum (random : bytes) : string :=
  match random with [] => "" | b :: l => String (alphanum b) (randomAlphanum l) end.

Definition low_hex (b : Byte.byte) : string :=
  let n := N.to_nat (Byte.to_N b) in
  let digit k := ascii_of_nat (if Nat.ltb k 10 then 48 + k else 87 + k) in
  String (digit (n / 16)%nat) (String (digit (n mod 16)%nat) "").
Fixpoint toHex (l : bytes) : string := match l with [] => "" | b :: l' => low_hex b +:+ toHex l' end.

Definition generateApiKey (random48 : bytes) : string := "tc_" +:+ randomAlphanum random48.
Definition generateSessionToken (random32 : bytes) : string := "sess_" +:+ toHex random32.
Definition generateVerificationToken (random32 : bytes) : string := toHex random32.

(** [key.slice(0, 8) + "..."] *)
Definition keyPrefix (key : string) : string := String.substring 0 8 key +:+ "...".

(** Two strings of equal length are compared byte by byte. *)
Fixpoint timingSafeEqual (a b : string) : bool :=
  match a, b with
  | EmptyString, EmptyString => true
  | String c a', String d b' => let rest := timingSafeEqual a' b' in bool_decide (c = d) && rest
  | _, _ => false
  end.
Definition constantTimeEqual (a b : string) : bool :=
  if negb (String.length a =? String.length b)%nat then false else timingSafeEqual a b.

Section accounts.
Context `{Plat : Platform}.

Definition pepperedHash (input : string) (pepper : option string) : string :=
  match pepper with
  | Some p => if nonempty p then sha256_hex (p +:+ "|" +:+ input) else sha256_hex input
  | None => sha256_hex input
  end.
Definition hashApiKeyForStorage (rawKey : string) (pepper : option string) : string := pepperedHash rawKey pepper.
Definition apiKeyHashCandidates (rawKey : string) (pepper : option string) : list string :=
  let plain := sha256_hex rawKey in
  if truthy pepper then
    let peppered := pepperedHash rawKey pepper in
    if peppered ==? plain then [plain] else [peppered; plain]
  else [plain].

(** ** auth/waitlist.ts *)

(** [INSERT ... ON CONFLICT (email) DO NOTHING]: the checks of the row come first. *)
Definition insert_signup_row (row : Signup) (d : adb) : result exn (bool * adb) :=
  if negb ((1 <=? str_len (sg_name row)) && (str_len (sg_name row) <=? 200)) then Err pg_error
  else if exists_row (fun r => sg_email r ==? sg_email row) (ad_waitlist d) then Ok (false, d)
  else if is_present (ad_waitlist d !! sg_id row) ||
          (is_present (sg_token row) && exists_row (fun r => sg_token r ==? sg_token row) (ad_waitlist d))
  then Err pg_error
  else Ok (true, d <| ad_waitlist := <[sg_id row := row]> (ad_waitlist d) |>).

(** [clock] is [Date.now()] of the gateway, which the database's clock need not agree
    with. *)
Definition insertSignup (id : string) (random32 : bytes) (clock : Z) (name email : string) (ipHash : option string)
    (tokenTtlHours : Z) : atx (option string) := fun d =>
  let rawToken := generateVerificationToken random32 in
  let row := mkSignup id name email ipHash pending false (Some (sha256_hex rawToken))
               (Some (clock + tokenTtlHours * 3600000)) (ad_now d) None None in
  let? out := insert_signup_row row d in
  Ok (if fst out then Some rawToken else None, snd out).

Definition may_verify (tokenHash : string) (now : Z) (r : Signup) : bool :=
  (sg_token r ==? Some tokenHash) && negb (sg_emailVerified r) &&
  match sg_tokenExpiresAt r with Some t => now <? t | None => true end.
Definition verified_row (r : Signup) : Signup :=
  r <| sg_emailVerified := true |> <| sg_token := None |> <| sg_tokenExpiresAt := None |>.
Definition verifyEmail (rawToken : string) : atx (option (string * string)) := fun d =>
  let p := may_verify (sha256_hex rawToken) (ad_now d) in
  Ok ((fun r => (sg_name r, sg_email r)) <$> head (rows_where p (ad_waitlist d)),
      d <| ad_waitlist := update_where p verified_row (ad_waitlist d) |>).

(** ** auth/resendVerification.ts

    [send] is the outcome of the e-mail provider; when it throws, the transaction is
    rolled back and the old token stays. *)
Definition resendVerification (id : string) (random32 : bytes) (clock ttlHours : Z)
    (send : string -> string -> string -> result exn unit) : atx bool := fun d =>
  let token := generateVerificationToken random32 in
  match ad_waitlist d !! id with
  | Some r =>
      if bool_decide (sg_status r = pending) && negb (sg_emailVerified r) then
        if exists_row (fun r' => (sg_token r' ==? Some (sha256_hex token)) && (sg_id r' !=? id)) (ad_waitlist d)
        then Err pg_error
        else
          let? _ := send (sg_name r) (sg_email r) token in
          Ok (true, d <| ad_waitlist := <[id := r <| sg_token := Some (sha256_hex token) |>
                            <| sg_tokenExpiresAt := Some (clock + ttlHours * 3600000) |>]> (ad_waitlist d) |>)
      else Ok (false, d)
  | None => Ok (false, d)
  end.

(** ** auth/apiKeys.ts *)

Definition key_active (k : ApiKey) : bool := negb (is_present (ak_revokedAt k)).

Definition createApiKey (id : string) (random48 : bytes) (userId : string) (pepper : option string) :
    atx (string * string * string) := fun d =>
  let rawKey := generateApiKey random48 in
  let hash := hashApiKeyForStorage rawKey pepper in
  let prefix := keyPrefix rawKey in
  if exists_row (fun k => (ak_userId k ==? userId) && key_active k) (ad_api_keys d)
  then Err (PlainError "User already has an active API key")
  else if is_present (ad_api_keys d !! id) || negb (is_present (ad_users d !! userId)) then Err pg_error
  else Ok ((id, rawKey, prefix),
           d <| ad_api_keys := <[id := mkApiKey id userId prefix hash (ad_now d) None]> (ad_api_keys d) |>).

Record ApiKeyRecord := mkApiKeyRecord {
  kr_id : string;
  kr_userId : string;
  kr_keyPrefix : string;
  kr_createdAt : Z
}.
(** The first row the database returns; the order of several is its own. *)
Definition lookupActiveByCandidates (rawKey : string) (pepper : option string) (d : adb) : option ApiKeyRecord :=
  let candidates := apiKeyHashCandidates rawKey pepper in
  (fun k => mkApiKeyRecord (ak_id k) (ak_userId k) (ak_prefix k) (ak_createdAt k)) <$>
  head (rows_where (fun k => bool_decide (ak_hash k ∈ candidates) && key_active k) (ad_api_keys d)).

Definition revokeApiKey (apiKeyId : string) : atx unit := fun d =>
  Ok (tt, d <| ad_api_keys := update_where (fun k => (ak_id k ==? apiKeyId) && key_active k)
                (fun k => k <| ak_revokedAt := Some (ad_now d) |>) (ad_api_keys d) |>).

(** ** auth/sessions.ts *)

Definition createSession (id : string) (random32 : bytes) (clock : Z) (apiKeyId : string) (ttlHours : Z) :
    atx (string * Z) := fun d =>
  let rawToken := generateSessionToken random32 in
  let expiresAt := clock + ttlHours * 60 * 60 * 1000 in
  if is_present (ad_sessions d !! id) || negb (is_present (ad_api_keys d !! apiKeyId)) then Err pg_error
  else Ok ((rawToken, expiresAt),
           d <| ad_sessions := <[id := mkLoginSession id apiKeyId (sha256_hex rawToken) (ad_now d) expiresAt None]>
                                 (ad_sessions d) |>).

Definition session_live (hash : string) (now : Z) (s : LoginSession) : bool :=
  (se_hash s ==? hash) && negb (is_present (se_revokedAt s)) && (now <? se_expiresAt s).

(** The sessions of the token are extended; the answer joins them with the active keys,
    as they were before. *)
Definition lookupSession (rawToken : string) (ttlHours : Z) : atx (option (string * string)) := fun d =>
  let p := session_live (sha256_hex rawToken) (ad_now d) in
  let joined := omap (fun s => match ad_api_keys d !! se_apiKeyId s with
                               | Some k => if key_active k then Some (se_apiKeyId s, ak_userId k) else None
                               | None => None
                               end) (rows_where p (ad_sessions d)) in
  Ok (head joined,
      d <| ad_sessions := update_where p (fun s => s <| se_expiresAt := ad_now d + ttlHours * 3600000 |>)
                            (ad_sessions d) |>).

Definition revoke_sessions (p : LoginSession -> bool) (d : adb) : adb :=
  d <| ad_sessions := update_where (fun s => p s && negb (is_present (se_revokedAt s)))
         (fun s => s <| se_revokedAt := Some (ad_now d) |>) (ad_sessions d) |>.
Definition revokeSession (rawToken : string) : atx unit := fun d =>
  Ok (tt, revoke_sessions (fun s => se_hash s ==? sha256_hex rawToken) d).
Definition revokeAllSessionsForApiKey (apiKeyId : string) : atx unit := fun d =>
  Ok (tt, revoke_sessions (fun s => se_apiKeyId s ==? apiKeyId) d).

(** ** auth/approval.ts *)

Record ApprovedRow := mkApproved {
  ap_waitlistId : string;
  ap_userId : string;
  ap_apiKeyId : string;
  ap_name : string;
  ap_email : string;
  ap_rawKey : string;
  ap_keyPrefix : string
}.
(** What is drawn for one approval: the ids of the user and the key, and the key. *)
Record approval_draw := mkDraw {
  dr_userId : string;
  dr_keyId : string;
  dr_random48 : bytes
}.

(** [INSERT INTO auth.users ... ON CONFLICT (waitlist_id) DO UPDATE ... RETURNING id] *)
Definition upsert_user (id waitlistId email : string) : atx string := fun d =>
  match head (rows_where (fun u => us_waitlistId u ==? waitlistId) (ad_users d)) with
  | Some u => Ok (us_id u, d <| ad_users := <[us_id u := u <| us_updatedAt := ad_now d |>]> (ad_users d) |>)
  | None =>
      if is_present (ad_users d !! id) || exists_row (fun u => us_email u ==? email) (ad_users d) then Err pg_error
      else Ok (id, d <| ad_users := <[id := mkUser id waitlistId email (ad_now d) (ad_now d)]> (ad_users d) |>)
  end.

Definition error_text (e : exn) : string := match e with PlainError m => m | _ => "error" end.

(** One id of [approveBatch]: the transaction, and its rollback. *)
Definition approve_one (draw : approval_draw) (pepper : option string) (id : string) (d : adb) :
    (ApprovedRow + string) * adb :=
  match ad_waitlist d !! id with
  | Some r =>
      if bool_decide (sg_status r = pending) then
        if negb (sg_emailVerified r) then (inr "email_not_verified", d)
        else
          let d1 := d <| ad_waitlist := <[id := r <| sg_status := approved |>
                                               <| sg_approvedAt := Some (ad_now d) |>]> (ad_waitlist d) |> in
          match upsert_user (dr_userId draw) id (sg_email r) d1 with
          | Err e => (inr (error_text e), d)
          | Ok (userId, d2) =>
              match createApiKey (dr_keyId draw) (dr_random48 draw) userId pepper d2 with
              | Err e => (inr (error_text e), d)
              | Ok ((keyId, rawKey, prefix), d3) =>
                  (inl (mkApproved id userId keyId (sg_name r) (sg_email r) rawKey prefix), d3)
              end
          end
      else (inr "not_pending", d)
  | None => (inr "not_pending", d)
  end.

(** Between two ids other transactions may run; [approveBatch] is the loop itself. *)
Fixpoint approveBatch (ids : list (string * approval_draw)) (pepper : option string) (d : adb) :
    (list ApprovedRow * list (string * string)) * adb :=
  match ids with
  | [] => (([], []), d)
  | (id, draw) :: rest =>
      let '(outcome, d1) := approve_one draw pepper id d in
      let '((approved_, skipped), d2) := approveBatch rest pepper d1 in
      (match outcome with
       | inl row => (row :: approved_, skipped)
       | inr reason => (approved_, (id, reason) :: skipped)
       end, d2)
  end.

Definition rejectBatch (ids : list string) : atx Z := fun d =>
  if (length ids =? 0)%nat then Ok (0, d)
  else
    let p := fun r => bool_decide (sg_id r ∈ ids) && bool_decide (sg_status r = pending) in
    Ok (Z.of_nat (length (rows_where p (ad_waitlist d))),
        d <| ad_waitlist := update_where p (fun r => r <| sg_status := rejected |>
                                <| sg_rejectedAt := Some (ad_now d) |>) (ad_waitlist d) |>).

(** [DELETE FROM auth.waitlist], with the rows that refer to it. *)
Definition deleteOne (id : string) : atx bool := fun d =>
  if negb (is_present (ad_waitlist d !! id)) then Ok (false, d)
  else
    let users := filter (fun ku => us_waitlistId (snd ku) <> id) (ad_users d) in
    let keys := filter (fun kk => is_Some (users !! ak_userId (snd kk))) (ad_api_keys d) in
    let sessions := filter (fun ks => is_Some (keys !! se_apiKeyId (snd ks))) (ad_sessions d) in
    if negb (bool_decide (ad_referenced d ## dom (ad_api_keys d) ∖ dom keys)) then Err pg_error
    else Ok (true, mkAdb (ad_now d) (delete id (ad_waitlist d)) users keys sessions (ad_referenced d)).

Record ProfileRow := mkProfile {
  pf_name : string;
  pf_email : string;
  pf_keyPrefix : string;
  pf_keyCreatedAt : Z;
  pf_accountStatus : SignupStatus;
  pf_memberSince : Z
}.
Definition profileByApiKeyId (apiKeyId : string) (d : adb) : option ProfileRow :=
  k ← ad_api_keys d !! apiKeyId;
  u ← ad_users d !! ak_userId k;
  w ← ad_waitlist d !! us_waitlistId u;
  if key_active k then
    Some (mkProfile (sg_name w) (sg_email w) (ak_prefix k) (ak_createdAt k) (sg_status w) (sg_createdAt w))
  else None.

(** ** Middleware *)

Definition extractBearer (authorization : option string) : option string :=
  match authorization with
  | Some a =>
      if negb (nonempty a) then None
      else if negb (startsWith "Bearer " a) then None
      else let token := trim (drop 7 a) in if nonempty token then Some token else None
  | None => None
  end.

(** [true] lets the request pass. *)
Definition adminAuth (adminToken : string) (authorization : option string) : bool :=
  match extractBearer authorization with
  | Some presented => constantTimeEqual presented adminToken
  | None => false
  end.

(** The two queries run one after the other; [d] and [d'] are the tables each one sees. *)
Definition userApiKeyAuth (pepper : option string) (authorization : option string) (d d' : adb) :
    option (string * string) :=
  match extractBearer authorization with
  | Some token =>
      if negb (startsWith "tc_" token) then None
      else match lookupActiveByCandidates token pepper d with
           | Some record =>
               match profileByApiKeyId (kr_id record) d' with
               | Some profile => if bool_decide (pf_accountStatus profile = approved)
                                 then Some (kr_id record, kr_userId record) else None
               | None => None
               end
           | None => None
           end
  | None => None
  end.

(** The session that is let in: key, user and token. *)
Definition userAuth (ttlHours : Z) (authorization : option string) : atx (option (string * string * string)) := fun d =>
  match extractBearer authorization with
  | Some token =>
      if negb (startsWith "sess_" token) then Ok (None, d)
      else let? out := lookupSession token ttlHours d in
           Ok ((fun s => (fst s, snd s, token)) <$> fst out, snd out)
  | None => Ok (None, d)
  end.
End accounts.
