(* ===== verification/AccountsSpec.v ===== *)
(** * Who gets in

    Over every history of the account tables: keys belong to approved and verified
    sign-ups, one active key each; a request is let in only with such a key or with a
    live session of one; what was revoked stays out. *)

From S2P Require Import Prelude Js Types Http Database OperationRepo Accounts SampleNet.
Open Scope Z_scope.

Section spec.
Context `{Plat : Platform}.

(** ** The steps of the account tables

    Any transaction with any arguments, the clock, and the media tables. *)

Inductive account_step : adb -> adb -> Prop :=
| acc_signup id rnd clock name email ip ttl d o d' :
    insertSignup id rnd clock name email ip ttl d = Ok (o, d') -> account_step d d'
| acc_verify token d o d' : verifyEmail token d = Ok (o, d') -> account_step d d'
| acc_resend id rnd clock ttl send d o d' :
    resendVerification id rnd clock ttl send d = Ok (o, d') -> account_step d d'
| acc_approve draw pepper id d o d' : approve_one draw pepper id d = (o, d') -> account_step d d'
| acc_reject ids d o d' : rejectBatch ids d = Ok (o, d') -> account_step d d'
| acc_delete id d o d' : deleteOne id d = Ok (o, d') -> account_step d d'
| acc_key id rnd userId pepper d o d' : createApiKey id rnd userId pepper d = Ok (o, d') ->
    account_step d d'
| acc_revoke_key id d o d' : revokeApiKey id d = Ok (o, d') -> account_step d d'
| acc_session id rnd clock keyId ttl d o d' : createSession id rnd clock keyId ttl d = Ok (o, d') -> account_step d d'
| acc_lookup token ttl d o d' : lookupSession token ttl d = Ok (o, d') -> account_step d d'
| acc_logout token d o d' : revokeSession token d = Ok (o, d') -> account_step d d'
| acc_logout_all keyId d o d' : revokeAllSessionsForApiKey keyId d = Ok (o, d') -> account_step d d'
| acc_clock t d : ad_now d <= t -> account_step d (d <| ad_now := t |>)
| acc_media refs d : account_step d (d <| ad_referenced := refs |>).

(** ** The invariant *)

(** A user whose sign-up was approved with a verified e-mail address. *)
Definition vetted (d : adb) (userId : string) : Prop :=
  exists u w, ad_users d !! userId = Some u /\ ad_waitlist d !! us_waitlistId u = Some w /\
    sg_status w = approved /\ sg_emailVerified w = true.

Record accounts_wf (d : adb) : Prop := {
  aw_signups : map_Forall (fun k r => sg_id r = k) (ad_waitlist d);
  aw_users : map_Forall (fun k u => us_id u = k /\ vetted d k) (ad_users d);
  aw_keys : map_Forall (fun k a => ak_id a = k /\ vetted d (ak_userId a)) (ad_api_keys d);
  aw_sessions : map_Forall (fun _ s => is_Some (ad_api_keys d !! se_apiKeyId s)) (ad_sessions d);
  aw_one_key : forall i j a b, ad_api_keys d !! i = Some a -> ad_api_keys d !! j = Some b ->
    key_active a = true -> key_active b = true -> ak_userId a = ak_userId b -> i = j
}.

Lemma empty_accounts now refs : accounts_wf (mkAdb now ∅ ∅ ∅ ∅ refs).
Proof. split; try apply map_Forall_empty. intros i j a b Ha. cbn in Ha. by rewrite lookup_empty in Ha. Qed.

Lemma update_where_lookup {A} (p : A -> bool) (f : A -> A) t k r' :
  update_where p f t !! k = Some r' -> exists r, t !! k = Some r /\ r' = (if p r then f r else r).
Proof. unfold update_where. rewrite lookup_fmap. destruct (t !! k); cbn; naive_solver. Qed.

Lemma exists_row_false {A} (p : A -> bool) (t : gmap string A) k r :
  exists_row p t = false -> t !! k = Some r -> p r = false.
Proof.
  unfold exists_row. intros H Hr. bools. destruct (p r) eqn:E; [|done].
  assert (r ∈ rows_where p t) as Hin by (apply elem_of_rows_where; eauto). rewrite H in Hin.
  by apply not_elem_of_nil in Hin.
Qed.

(** The sign-ups of [d'] are those of [d] changed without loss of approval or
    verification. *)
Definition signups_kept (d d' : adb) : Prop :=
  forall k w, ad_waitlist d !! k = Some w -> exists w', ad_waitlist d' !! k = Some w' /\
    (sg_status w = approved -> sg_status w' = approved) /\
    (sg_emailVerified w = true -> sg_emailVerified w' = true).

Lemma vetted_kept d d' userId :
  signups_kept d d' -> ad_users d' = ad_users d -> vetted d userId -> vetted d' userId.
Proof.
  intros Hk Hu (u & w & Hu1 & Hw & Ha & Hv). destruct (Hk _ _ Hw) as (w' & Hw' & Ha' & Hv').
  exists u, w'. rewrite Hu. split_and!; auto.
Qed.

(** A step that changes sign-ups only. *)
Lemma signups_wf d d' :
  accounts_wf d -> signups_kept d d' -> map_Forall (fun k r => sg_id r = k) (ad_waitlist d') ->
  ad_users d' = ad_users d -> ad_api_keys d' = ad_api_keys d -> ad_sessions d' = ad_sessions d ->
  accounts_wf d'.
Proof.
  intros [Hs Hu Hk He Ho] Hkept Hs' Eu Ek Es. split; rewrite ?Eu, ?Ek, ?Es; try done.
  - intros k u Hin. destruct (Hu k u Hin). split; [done|by eapply vetted_kept].
  - intros k a Hin. destruct (Hk k a Hin). split; [done|by eapply vetted_kept].
Qed.

Lemma update_signups_wf p f d :
  accounts_wf d -> (forall r, sg_id (f r) = sg_id r) ->
  (forall r, p r = true -> sg_status r = approved -> sg_status (f r) = approved) ->
  (forall r, sg_emailVerified r = true -> sg_emailVerified (f r) = true) ->
  accounts_wf (d <| ad_waitlist := update_where p f (ad_waitlist d) |>).
Proof.
  intros Hwf Hid Ha Hv. eapply signups_wf; try done.
  - intros k w Hw. exists (if p w then f w else w). split.
    + cbn. unfold update_where. by rewrite lookup_fmap, Hw.
    + destruct (p w) eqn:E; auto.
  - intros k r Hr. apply update_where_lookup in Hr as (r0 & Hr0 & ->).
    pose proof (aw_signups _ Hwf _ _ Hr0). cbn in *. destruct (p r0); [by rewrite Hid|done].
Qed.

(** Replacing one sign-up. *)
Lemma insert_signup_wf id w d :
  accounts_wf d -> sg_id w = id ->
  (forall w0, ad_waitlist d !! id = Some w0 ->
     (sg_status w0 = approved -> sg_status w = approved) /\
     (sg_emailVerified w0 = true -> sg_emailVerified w = true)) ->
  accounts_wf (d <| ad_waitlist := <[id := w]> (ad_waitlist d) |>).
Proof.
  intros Hwf Hid Hold. eapply signups_wf; try done.
  - intros k w0 Hw0. cbn. destruct (decide (k = id)) as [->|Hne].
    + exists w. rewrite lookup_insert_eq. destruct (Hold _ Hw0). done.
    + exists w0. by rewrite lookup_insert_ne by done.
  - apply map_Forall_insert_2; [done|apply Hwf].
Qed.

(** ** Keys and sessions *)

Lemma update_keys_wf p f d :
  accounts_wf d -> (forall k, ak_id (f k) = ak_id k /\ ak_userId (f k) = ak_userId k) ->
  (forall k, p k = true -> key_active (f k) = true -> key_active k = true) ->
  accounts_wf (d <| ad_api_keys := update_where p f (ad_api_keys d) |>).
Proof.
  intros [Hs Hu Hk He Ho] Hf Hact. split; cbn; try done.
  - intros k a Ha. apply update_where_lookup in Ha as (a0 & Ha0 & ->). destruct (Hk _ _ Ha0) as [Hid Hv].
    destruct (p a0); [|done]. destruct (Hf a0) as [-> ->]. done.
  - intros k s Hin. destruct (He _ _ Hin) as [a Ha]. unfold update_where. rewrite lookup_fmap, Ha. by eexists.
  - intros i j a b Ha Hb Hact1 Hact2 Heq.
    apply update_where_lookup in Ha as (a0 & Ha0 & ->). apply update_where_lookup in Hb as (b0 & Hb0 & ->).
    assert (forall x, ak_userId (if p x then f x else x) = ak_userId x) as Huser by (intros x; destruct (p x); [apply Hf|done]).
    rewrite !Huser in Heq. eapply Ho; eauto.
    + destruct (p a0) eqn:E; auto.
    + destruct (p b0) eqn:E; auto.
Qed.

Lemma sessions_wf d t :
  accounts_wf d -> map_Forall (fun _ s => is_Some (ad_api_keys d !! se_apiKeyId s)) t ->
  accounts_wf (d <| ad_sessions := t |>).
Proof. intros [Hs Hu Hk He Ho] Ht. by split. Qed.

Lemma update_sessions_wf p f d :
  accounts_wf d -> (forall s, se_apiKeyId (f s) = se_apiKeyId s) ->
  accounts_wf (d <| ad_sessions := update_where p f (ad_sessions d) |>).
Proof.
  intros Hwf Hf. apply sessions_wf; [done|]. intros k s Hs. apply update_where_lookup in Hs as (s0 & Hs0 & ->).
  pose proof (aw_sessions _ Hwf _ _ Hs0) as H. cbn in H. destruct (p s0); [by rewrite Hf|done].
Qed.

Lemma createApiKey_wf id rnd userId pepper d o d' :
  accounts_wf d -> createApiKey id rnd userId pepper d = Ok (o, d') -> accounts_wf d'.
Proof.
  intros Hwf. unfold createApiKey. destruct (exists_row _ _) eqn:Hex; [done|].
  destruct (_ || _) eqn:Hg; [done|]. intros [= <- <-]. bools.
  destruct (ad_api_keys d !! id) eqn:Hid; [done|]. destruct (ad_users d !! userId) as [u|] eqn:Hu; [|done].
  pose proof Hwf as [Hs Hus Hk He Ho]. split; cbn; try done.
  - apply map_Forall_insert_2; [|done]. cbn. split; [done|]. by apply (Hus _ _ Hu).
  - intros k s Hin. destruct (decide (se_apiKeyId s = id)) as [->|Hne]; [by rewrite lookup_insert_eq|].
    rewrite lookup_insert_ne by done. by apply (He _ _ Hin).
  - assert (forall j b, ad_api_keys d !! j = Some b -> key_active b = true -> ak_userId b <> userId) as Hnone.
    { intros j b Hb Hact Heq. pose proof (exists_row_false _ _ _ _ Hex Hb) as Hno. cbn in Hno.
      by rewrite Heq, bool_decide_true, Hact in Hno by done. }
    intros i j a b Ha Hb Hact1 Hact2 Heq.
    apply lookup_insert_Some in Ha as [[<- <-]|[_ Ha]]; apply lookup_insert_Some in Hb as [[<- <-]|[_ Hb]];
      [done| | |by eapply Ho].
    + cbn in Heq. exfalso. by eapply Hnone.
    + cbn in Heq. exfalso. by eapply Hnone.
Qed.

(** ** Approval *)

Lemma upsert_user_wf id waitlistId email d o d' :
  accounts_wf d ->
  (exists w, ad_waitlist d !! waitlistId = Some w /\ sg_status w = approved /\ sg_emailVerified w = true) ->
  upsert_user id waitlistId email d = Ok (o, d') -> accounts_wf d'.
Proof.
  intros Hwf (w & Hw & Ha & Hv). unfold upsert_user. pose proof Hwf as [Hs Hu Hk He Ho].
  assert (forall k u0, us_id u0 = k -> us_waitlistId u0 = waitlistId ->
            accounts_wf (d <| ad_users := <[k := u0]> (ad_users d) |>)) as Hput.
  { intros k u0 Hid Hwl.
    assert (forall x, vetted d x -> vetted (d <| ad_users := <[k := u0]> (ad_users d) |>) x) as Hvet.
    { intros x (u1 & w1 & Hu1 & Hw1 & Ha1 & Hv1). destruct (decide (x = k)) as [->|Hne].
      - exists u0, w. cbn. rewrite lookup_insert_eq, Hwl. done.
      - exists u1, w1. cbn. by rewrite lookup_insert_ne by done. }
    split; cbn; try done.
    - apply map_Forall_insert_2.
      + split; [done|]. exists u0, w. cbn. rewrite lookup_insert_eq, Hwl. done.
      + intros x u1 Hx. destruct (Hu _ _ Hx). split; [done|by apply Hvet].
    - intros x a Hx. destruct (Hk _ _ Hx). split; [done|by apply Hvet]. }
  destruct (head _) as [u|] eqn:Hh.
  - intros [= <- <-]. apply head_elem_of, elem_of_rows_where in Hh as [Hp (k & Hin)]. bools.
    destruct (Hu _ _ Hin) as [Hid _]. apply Hput; done.
  - destruct (_ || _); [done|]. intros [= <- <-]. by apply Hput.
Qed.

Lemma approve_wf draw pepper id d o d' :
  accounts_wf d -> approve_one draw pepper id d = (o, d') -> accounts_wf d'.
Proof.
  intros Hwf. unfold approve_one. destruct (ad_waitlist d !! id) as [r|] eqn:Hr; [|by intros [= <- <-]].
  case_bool_decide as Hp; [|by intros [= <- <-]].
  destruct (sg_emailVerified r) eqn:Hv; cbn [negb]; [|by intros [= <- <-]].
  set (d1 := d <| ad_waitlist := _ |>).
  assert (accounts_wf d1) as Hwf1.
  { apply insert_signup_wf; [done|by apply (aw_signups _ Hwf _ _ Hr)|]. intros w0 Hw0.
    rewrite Hr in Hw0. by injection Hw0 as <-. }
  destruct (upsert_user _ id _ d1) as [[userId d2]|] eqn:Hup; [|by intros [= <- <-]].
  assert (accounts_wf d2) as Hwf2.
  { eapply upsert_user_wf; [exact Hwf1| |exact Hup]. eexists. unfold d1. cbn. rewrite lookup_insert_eq. done. }
  destruct (createApiKey _ _ userId pepper d2) as [[[[keyId raw] prefix] d3]|] eqn:Hkey; [|by intros [= <- <-]].
  intros [= <- <-]. by eapply createApiKey_wf.
Qed.

(** ** Deletion *)

Lemma delete_wf id d o d' : accounts_wf d -> deleteOne id d = Ok (o, d') -> accounts_wf d'.
Proof.
  intros Hwf. unfold deleteOne. destruct (is_present _); cbn [negb]; [|by intros [= <- <-]].
  destruct (bool_decide (ad_referenced d ## _)); cbn [negb]; [|done]. intros [= <- <-].
  pose proof Hwf as [Hs Hu Hk He Ho].
  set (users := filter (fun ku => us_waitlistId (snd ku) <> id) (ad_users d)).
  assert (forall x refs ks ss, vetted d x -> is_Some (users !! x) ->
            vetted (mkAdb (ad_now d) (delete id (ad_waitlist d)) users ks ss refs) x) as Hvet.
  { intros x refs ks ss (u & w & Hx & Hw & Hap & Hv) [u' Hu'].
    apply map_lookup_filter_Some in Hu' as [Hu1 Hne]. cbn in Hne. assert (u' = u) as -> by congruence.
    exists u, w. cbn. rewrite lookup_delete_ne by done. split_and!; try done.
    apply map_lookup_filter_Some. done. }
  split; cbn.
  - intros k r Hr. apply lookup_delete_Some in Hr as [_ Hr]. by apply (Hs _ _ Hr).
  - intros k u Hin. pose proof Hin as [Hin' _]%map_lookup_filter_Some. destruct (Hu _ _ Hin') as [Hid Hv].
    split; [done|]. apply Hvet; eauto.
  - intros k a Hin. apply map_lookup_filter_Some in Hin as [Hin Hsome]. cbn in Hsome.
    destruct (Hk _ _ Hin). split; [done|]. by apply Hvet.
  - intros k s Hin. by apply map_lookup_filter_Some in Hin as [_ Hin].
  - intros i j a b Ha Hb. apply map_lookup_filter_Some in Ha as [Ha _]. apply map_lookup_filter_Some in Hb as [Hb _].
    by apply Ho.
Qed.

(** ** Every step *)

Lemma insert_row_wf row d b d' : accounts_wf d -> insert_signup_row row d = Ok (b, d') -> accounts_wf d'.
Proof.
  intros Hwf. unfold insert_signup_row. destruct (negb _); [done|].
  destruct (exists_row _ _); [by intros [= <- <-]|].
  destruct (ad_waitlist d !! sg_id row) eqn:Hnew; [done|]. cbn [is_present orb].
  destruct (_ && _); [done|]. intros [= <- <-]. apply insert_signup_wf; [done|done|]. by rewrite Hnew.
Qed.

Lemma account_step_wf d d' : account_step d d' -> accounts_wf d -> accounts_wf d'.
Proof.
  intros Hstep Hwf. destruct Hstep as
    [id rnd clock name email ip ttl d o d' H|token d o d' H|id rnd clock ttl send d o d' H|draw pepper id d o d' H
    |ids d o d' H|id d o d' H|id rnd userId pepper d o d' H|id d o d' H|id rnd clock keyId ttl d o d' H
    |token ttl d o d' H|token d o d' H|keyId d o d' H|t d _|refs d].
  - unfold insertSignup in H. apply result_bind_Ok in H as ([b d1] & H & [= <- <-]). by eapply insert_row_wf.
  - injection H as <- <-. by apply update_signups_wf.
  - unfold resendVerification in H. destruct (ad_waitlist d !! id) as [r|] eqn:Hr; [|by injection H as <- <-].
    destruct (_ && _); [|by injection H as <- <-]. destruct (exists_row _ _); [done|].
    apply result_bind_Ok in H as (_ & _ & [= <- <-]).
    apply insert_signup_wf; [done|by apply (aw_signups _ Hwf _ _ Hr)|]. intros w0 Hw0.
    rewrite Hr in Hw0. by injection Hw0 as <-.
  - by eapply approve_wf.
  - unfold rejectBatch in H. destruct (_ =? 0)%nat; injection H as <- <-; [done|].
    apply update_signups_wf; try done. intros r Hp Ha. bools. congruence.
  - by eapply delete_wf.
  - by eapply createApiKey_wf.
  - injection H as <- <-. apply update_keys_wf; try done.
  - unfold createSession in H. destruct (_ || _) eqn:Hg; [done|]. injection H as <- <-. bools.
    apply sessions_wf; [done|]. apply map_Forall_insert_2; [|apply Hwf]. cbn.
    by destruct (ad_api_keys d !! keyId).
  - injection H as <- <-. by apply update_sessions_wf.
  - injection H as <- <-. by apply update_sessions_wf.
  - injection H as <- <-. by apply update_sessions_wf.
  - by destruct Hwf as [Hs Hu Hk He Ho].
  - by destruct Hwf as [Hs Hu Hk He Ho].
Qed.

Lemma reachable_wf d d' : rtc account_step d d' -> accounts_wf d -> accounts_wf d'.
Proof. induction 1; eauto using account_step_wf. Qed.

(** Keys are issued to vetted users only.  In every state the account transactions
    can reach, in any order and with any arguments, every API key belongs to a user whose
    sign-up was approved with a verified address, and no user has two active keys. *)
Lemma keys_belong_to_vetted_users now refs d :
  rtc account_step (mkAdb now ∅ ∅ ∅ ∅ refs) d ->
  forall id k, ad_api_keys d !! id = Some k ->
    vetted d (ak_userId k) /\
    forall id' k', ad_api_keys d !! id' = Some k' -> key_active k = true -> key_active k' = true ->
      ak_userId k' = ak_userId k -> id' = id.
Proof.
  intros H id k Hk. apply reachable_wf in H; [|apply empty_accounts].
  split; [by apply (aw_keys _ H _ _ Hk)|]. intros id' k' Hk' Ha Ha' Heq. by eapply (aw_one_key _ H id' id).
Qed.

(** ** Letting requests in *)

Lemma lookupActive_spec rawKey pepper d record :
  accounts_wf d -> lookupActiveByCandidates rawKey pepper d = Some record ->
  exists k, ad_api_keys d !! kr_id record = Some k /\ ak_hash k ∈ apiKeyHashCandidates rawKey pepper /\
    key_active k = true /\ ak_userId k = kr_userId record.
Proof.
  intros Hwf. unfold lookupActiveByCandidates. destruct (head _) as [k|] eqn:Hh; [|done].
  cbn. intros [= <-]. apply head_elem_of, elem_of_rows_where in Hh as [Hp (id & Hin)]. bools.
  destruct (aw_keys _ Hwf _ _ Hin) as [Hid _]. exists k. cbn. rewrite Hid. done.
Qed.

Lemma profile_spec id d p :
  profileByApiKeyId id d = Some p -> exists k, ad_api_keys d !! id = Some k /\ key_active k = true.
Proof.
  unfold profileByApiKeyId. rewrite bind_Some. intros (k & Hk & H). apply bind_Some in H as (u & _ & H).
  apply bind_Some in H as (w & _ & H). destruct (key_active k) eqn:E; [eauto|done].
Qed.

Lemma lookupSession_spec token ttl d keyId userId d' :
  accounts_wf d -> lookupSession token ttl d = Ok (Some (keyId, userId), d') ->
  exists sid s k, ad_sessions d !! sid = Some s /\ se_hash s = sha256_hex token /\ se_revokedAt s = None /\
    ad_now d < se_expiresAt s /\ se_apiKeyId s = keyId /\
    ad_api_keys d !! keyId = Some k /\ key_active k = true /\ ak_userId k = userId.
Proof.
  intros Hwf [= Hh <-]. apply head_elem_of in Hh. apply list_elem_of_omap in Hh as (s & Hs & Hj).
  apply elem_of_rows_where in Hs as [Hp (sid & Hin)]. unfold session_live in Hp. bools.
  destruct (ad_api_keys d !! se_apiKeyId s) as [k|] eqn:Hk; [|done]. destruct (key_active k) eqn:Ha; [|done].
  injection Hj as <- <-. exists sid, s, k. split_and!; try done. by destruct (se_revokedAt s).
Qed.

(** C19: only holders of a live credential get in.  A product request that passes carried
    a bearer token of which the tables hold the hash, for a key that was active at both
    look-ups and belongs to a vetted user, and is served as that user; a portal request
    that passes carried the token of a session that was neither revoked nor expired, of
    an active key of a vetted user. *)
Theorem admitted_requests_hold_credentials now refs d pepper ttl authorization :
  rtc account_step (mkAdb now ∅ ∅ ∅ ∅ refs) d ->
  (forall d' keyId userId, rtc account_step d d' ->
     userApiKeyAuth pepper authorization d d' = Some (keyId, userId) ->
     exists token k k', extractBearer authorization = Some token /\ startsWith "tc_" token = true /\
       ad_api_keys d !! keyId = Some k /\ ak_hash k ∈ apiKeyHashCandidates token pepper /\
       key_active k = true /\ ak_userId k = userId /\ vetted d userId /\
       ad_api_keys d' !! keyId = Some k' /\ key_active k' = true) /\
  (forall keyId userId token d', userAuth ttl authorization d = Ok (Some (keyId, userId, token), d') ->
     extractBearer authorization = Some token /\ startsWith "sess_" token = true /\
     exists sid s k, ad_sessions d !! sid = Some s /\ se_hash s = sha256_hex token /\ se_revokedAt s = None /\
       ad_now d < se_expiresAt s /\ se_apiKeyId s = keyId /\
       ad_api_keys d !! keyId = Some k /\ key_active k = true /\ ak_userId k = userId /\ vetted d userId).
Proof.
  intros Hd. apply reachable_wf in Hd; [|apply empty_accounts]. split.
  - intros d' keyId userId Hsteps. unfold userApiKeyAuth. destruct (extractBearer authorization) as [token|]; [|done].
    destruct (startsWith "tc_" token) eqn:Htc; [|done]. cbn [negb].
    destruct (lookupActiveByCandidates token pepper d) as [record|] eqn:Hl; [|done].
    destruct (profileByApiKeyId _ d') as [p|] eqn:Hp; [|done]. case_bool_decide; [|done]. intros [= <- <-].
    apply lookupActive_spec in Hl as (k & Hk & Hh & Ha & Hu); [|done]. apply profile_spec in Hp as (k' & Hk' & Ha').
    exists token, k, k'. split_and!; try done. rewrite <- Hu. by apply (aw_keys _ Hd _ _ Hk).
  - intros keyId userId token d'. unfold userAuth. destruct (extractBearer authorization) as [t|]; [|done].
    destruct (startsWith "sess_" t) eqn:Hs; [|done]. cbn [negb]. rewrite result_bind_Ok.
    intros ([[[k u]|] d1] & Hl & Heq); [|done]. cbn in Heq. injection Heq as -> -> <- <-. split_and!; [done|done|].
    apply lookupSession_spec in Hl as (sid & s & k & H); [|done]. exists sid, s, k. destruct H as (? & ? & ? & ? & ? & Hk & ? & Hu).
    split_and!; try done. rewrite <- Hu. by apply (aw_keys _ Hd _ _ Hk).
Qed.

(** ** Logging out *)

(** No live session has this hash. *)
Definition spent (hash : string) (d : adb) : Prop :=
  map_Forall (fun _ s => se_hash s = hash -> se_revokedAt s <> None) (ad_sessions d).
(** A step that does not issue a token with this hash again. *)
Definition step_without (hash : string) (d d' : adb) : Prop :=
  account_step d d' /\
  forall sid s, ad_sessions d' !! sid = Some s -> se_hash s = hash -> is_Some (ad_sessions d !! sid).

(** Sessions keep their hash and stay revoked. *)
Definition sessions_evolve (d d' : adb) : Prop :=
  forall sid s s', ad_sessions d !! sid = Some s -> ad_sessions d' !! sid = Some s' ->
    se_hash s' = se_hash s /\ (se_revokedAt s <> None -> se_revokedAt s' <> None).

Lemma same_sessions d d' : ad_sessions d' = ad_sessions d -> sessions_evolve d d'.
Proof. intros H sid s s' Hs Hs'. rewrite H in Hs'. by assert (s' = s) as -> by congruence. Qed.

Lemma update_sessions_evolve p f d :
  (forall s, se_hash (f s) = se_hash s /\ (se_revokedAt s <> None -> se_revokedAt (f s) <> None)) ->
  sessions_evolve d (d <| ad_sessions := update_where p f (ad_sessions d) |>).
Proof.
  intros Hf sid s s' Hs Hs'. apply update_where_lookup in Hs' as (s0 & Hs0 & ->). rewrite Hs in Hs0.
  injection Hs0 as <-. destruct (p s); [apply Hf|done].
Qed.

Lemma createApiKey_sessions id rnd userId pepper d o d' :
  createApiKey id rnd userId pepper d = Ok (o, d') -> ad_sessions d' = ad_sessions d.
Proof. unfold createApiKey. destruct (exists_row _ _); [done|]. destruct (_ || _); [done|]. by intros [= <- <-]. Qed.

Lemma approve_sessions draw pepper id d o d' : approve_one draw pepper id d = (o, d') -> ad_sessions d' = ad_sessions d.
Proof.
  unfold approve_one. destruct (ad_waitlist d !! id); [|by intros [= <- <-]].
  case_bool_decide; [|by intros [= <- <-]]. destruct (negb _); [by intros [= <- <-]|].
  destruct (upsert_user _ _ _ _) as [[u d2]|] eqn:Hu; [|by intros [= <- <-]].
  assert (ad_sessions d2 = ad_sessions d) as E.
  { unfold upsert_user in Hu. destruct (head _); [by injection Hu as <- <-|].
    destruct (_ || _); [done|by injection Hu as <- <-]. }
  destruct (createApiKey _ _ _ _ d2) as [[[[k raw] pre] d3]|] eqn:Hk; [|by intros [= <- <-]].
  intros [= <- <-]. by rewrite (createApiKey_sessions _ _ _ _ _ _ _ Hk).
Qed.

Lemma account_step_evolves d d' : account_step d d' -> sessions_evolve d d'.
Proof.
  destruct 1 as
    [id rnd clock name email ip ttl d o d' H|token d o d' H|id rnd clock ttl send d o d' H|draw pepper id d o d' H
    |ids d o d' H|id d o d' H|id rnd userId pepper d o d' H|id d o d' H|id rnd clock keyId ttl d o d' H
    |token ttl d o d' H|token d o d' H|keyId d o d' H|t d _|refs d].
  - apply same_sessions. unfold insertSignup in H. apply result_bind_Ok in H as ([b d1] & H & [= <- <-]).
    unfold insert_signup_row in H. destruct (negb _); [done|]. destruct (exists_row _ _); [by injection H as <- <-|].
    by destruct (_ || _); [|injection H as <- <-].
  - by injection H as <- <-; apply same_sessions.
  - apply same_sessions. unfold resendVerification in H. destruct (ad_waitlist d !! id); [|by injection H as <- <-].
    destruct (_ && _); [|by injection H as <- <-]. destruct (exists_row _ _); [done|].
    by apply result_bind_Ok in H as (_ & _ & [= <- <-]).
  - by apply same_sessions, (approve_sessions _ _ _ _ _ _ H).
  - apply same_sessions. unfold rejectBatch in H. by destruct (_ =? 0)%nat; injection H as <- <-.
  - unfold deleteOne in H. destruct (negb (is_present _)); [injection H as <- <-; by apply same_sessions|].
    destruct (negb _); [done|]. injection H as <- <-. intros sid s s' Hs Hs'. cbn in Hs'.
    apply map_lookup_filter_Some in Hs' as [Hs' _]. by assert (s' = s) as -> by congruence.
  - by apply same_sessions, (createApiKey_sessions _ _ _ _ _ _ _ H).
  - injection H as <- <-. by apply same_sessions.
  - unfold createSession in H. destruct (_ || _) eqn:Hg; [done|]. injection H as <- <-. bools.
    intros sid s s' Hs Hs'. cbn in Hs'. apply lookup_insert_Some in Hs' as [[<- _]|[_ Hs']].
    + by rewrite Hs in *.
    + by assert (s' = s) as -> by congruence.
  - injection H as <- <-. by apply update_sessions_evolve.
  - injection H as <- <-. by apply update_sessions_evolve.
  - injection H as <- <-. by apply update_sessions_evolve.
  - by apply same_sessions.
  - by apply same_sessions.
Qed.

Lemma spent_kept hash d d' : rtc (step_without hash) d d' -> spent hash d -> spent hash d'.
Proof.
  induction 1 as [|d d1 d' [Hstep Hnew] _ IH]; [done|]. intros Hs. apply IH. intros sid s Hin Hh.
  destruct (Hnew _ _ Hin Hh) as [s0 Hs0]. destruct (account_step_evolves _ _ Hstep _ _ _ Hs0 Hin) as [E Hr].
  apply Hr, (Hs _ _ Hs0). congruence.
Qed.

(** A session that was logged out stays out.  Once a token is revoked, no later
    sequence of account transactions lets it in again, and using it does not revive it,
    unless the same token is drawn again for a new session. *)
Lemma revoked_session_stays_out token d d1 d2 ttl o d3 :
  revokeSession token d = Ok (tt, d1) -> rtc (step_without (sha256_hex token)) d1 d2 ->
  lookupSession token ttl d2 = Ok (o, d3) -> o = None /\ spent (sha256_hex token) d3.
Proof.
  intros [= <-] Hsteps [= <- <-].
  assert (spent (sha256_hex token) d2) as Hs.
  { eapply spent_kept; [exact Hsteps|]. intros sid s Hin Hh. cbn in Hin.
    apply update_where_lookup in Hin as (s0 & Hs0 & ->). destruct (_ && _) eqn:E; [done|]. bools.
    destruct E as [E|E]; bools; [done|]. by destruct (se_revokedAt s0). }
  assert (rows_where (session_live (sha256_hex token) (ad_now d2)) (ad_sessions d2) = []) as Hnone.
  { destruct (rows_where _ _) as [|s l] eqn:E; [done|]. exfalso.
    assert (s ∈ s :: l) as Hin by left. rewrite <- E in Hin. apply elem_of_rows_where in Hin as [Hp (sid & Hin)].
    unfold session_live in Hp. bools. apply (Hs _ _ Hin); [done|]. by destruct (se_revokedAt s). }
  rewrite Hnone. split; [done|]. intros sid s Hin Hh. cbn in Hin.
  apply update_where_lookup in Hin as (s0 & Hs0 & ->). destruct (session_live _ _ _) eqn:E; [|by apply (Hs _ _ Hs0)].
  apply (Hs _ _ Hs0). by unfold session_live in E; bools.
Qed.
End spec.

(** ** A concrete account *)

Definition accounts_platform : Platform := {|
  is_url := is_url; is_uuid := is_uuid; new_URL := new_URL; stringify := stringify; json_parse := json_parse;
  base64_text := base64_text; sha256_hex := fun s => "#" +:+ s; date_parse := date_parse; toISOString := toISOString;
  headers_valid := headers_valid; caller_publicKey := caller_publicKey; signAuthorization := signAuthorization
|}.

Definition tx_db {A} (t : atx A) (d : adb) : adb := match t d with Ok (_, d') => d' | Err _ => d end.
Definition accounts_empty : adb := mkAdb 0 ∅ ∅ ∅ ∅ ∅.
Definition acc_signed_up : adb :=
  tx_db (insertSignup (Plat := accounts_platform) "w" [Byte.x01] 0 "Ann" "ann@example.org" None 24) accounts_empty.
Definition acc_verified : adb := tx_db (verifyEmail (Plat := accounts_platform) "01") acc_signed_up.
Definition acc_approved : adb :=
  snd (approve_one (Plat := accounts_platform) (mkDraw "u" "k" [Byte.x0a; Byte.x0b]) None "w" acc_verified).
Definition acc_logged_in : adb :=
  tx_db (createSession (Plat := accounts_platform) "s" [Byte.x02] 0 "k" 1) acc_approved.

Lemma tx_db_step {A} (t : atx A) d :
  (forall o d', t d = Ok (o, d') -> account_step (Plat := accounts_platform) d d') ->
  rtc (account_step (Plat := accounts_platform)) d (tx_db t d).
Proof. intros H. unfold tx_db. destruct (t d) as [[o d']|] eqn:E; [apply rtc_once; eauto|apply rtc_refl]. Qed.

Lemma acc_reachable : rtc (account_step (Plat := accounts_platform)) accounts_empty acc_logged_in.
Proof.
  transitivity acc_signed_up; [apply tx_db_step; eauto using acc_signup|].
  transitivity acc_verified; [apply tx_db_step; eauto using acc_verify|].
  transitivity acc_approved; [|apply tx_db_step; eauto using acc_session].
  apply rtc_once. unfold acc_approved. eapply acc_approve. apply surjective_pairing.
Qed.

Lemma keys_belong_to_vetted_users_witness :
  exists k, ad_api_keys acc_logged_in !! "k" = Some k /\ vetted acc_logged_in (ak_userId k).
Proof.
  destruct (ad_api_keys acc_logged_in !! "k") as [k|] eqn:E.
  - exists k. split; [reflexivity|].
    apply (keys_belong_to_vetted_users (Plat := accounts_platform) 0 ∅ acc_logged_in acc_reachable "k" k E).
  - exfalso. vm_compute in E. discriminate E.
Defined.

Lemma admitted_requests_hold_credentials_witness :
  exists token k k', extractBearer (Some "Bearer tc_ab") = Some token /\
    ad_api_keys acc_logged_in !! "k" = Some k /\
    ak_hash k ∈ apiKeyHashCandidates (Plat := accounts_platform) token None /\
    ad_api_keys acc_logged_in !! "k" = Some k' /\ key_active k' = true.
Proof.
  destruct (proj1 (admitted_requests_hold_credentials (Plat := accounts_platform) 0 ∅ acc_logged_in None 1
    (Some "Bearer tc_ab") acc_reachable) acc_logged_in "k" "u" (rtc_refl _ _) ltac:(vm_compute; reflexivity))
    as (token & k & k' & H1 & _ & H2 & H3 & _ & _ & _ & H4 & H5).
  exists token, k, k'. split_and!; assumption.
Defined.

Lemma revoked_session_stays_out_witness :
  fst <$> (match lookupSession (Plat := accounts_platform) "sess_02" 1 acc_logged_in with Ok x => Some x | Err _ => None end)
    = Some (Some ("k", "u")) /\
  exists d1 o d3, revokeSession (Plat := accounts_platform) "sess_02" acc_logged_in = Ok (tt, d1) /\
    lookupSession (Plat := accounts_platform) "sess_02" 1 d1 = Ok (o, d3) /\ o = None.
Proof.
  split; [vm_compute; reflexivity|].
  destruct (revokeSession (Plat := accounts_platform) "sess_02" acc_logged_in) as [[[] d1]|] eqn:E1; [|discriminate E1].
  destruct (lookupSession (Plat := accounts_platform) "sess_02" 1 d1) as [[o d3]|] eqn:E2; [|discriminate E2].
  exists d1, o, d3. split; [reflexivity|]. split; [exact E2|].
  apply (proj1 (revoked_session_stays_out (Plat := accounts_platform) "sess_02" acc_logged_in d1 d1 1 o d3
    E1 (rtc_refl _ _) E2)).
Defined.
