(* ===== verification/AuthRoutes.v ===== *)
(** * The account routes (routes/auth/public.ts, user.ts and admin.ts, auth/waitlist.ts)

    The handlers of sign-up, login and administration as functions of the request, over
    the account tables, the rate limiter and the e-mail provider. *)

From S2P Require Import Prelude Js Types Wire Http Database OperationRepo RouteHealth RateLimit Accounts AccountsSpec.
From Stdlib Require Import Ascii.
Open Scope Z_scope.

(** ** The administration's queries *)

Record ListFilters := mkFilters {
  lf_page : option Z;
  lf_perPage : option Z;
  lf_sort : option string;
  lf_order : option string;
  lf_search : option string;
  lf_status : option SignupStatus;
  lf_verified : option bool
}.
Record ListResult := mkListResult {
  lr_data : list Signup;
  lr_page : Z;
  lr_perPage : Z;
  lr_total : Z;
  lr_totalPages : Z
}.

(** [text ILIKE pattern]: a percent sign matches any text and an underscore any character;
    a backslash takes the next character literally. *)
Definition fold_eq (a b : ascii) : bool := lower_char a ==? lower_char b.
(** Whether [k] accepts some suffix of [t]. *)
Fixpoint some_suffix (k : string -> bool) (t : string) : bool :=
  k t || match t with EmptyString => false | String _ t' => some_suffix k t' end.
Fixpoint ilike (pattern : string) : string -> bool :=
  match pattern with
  | EmptyString => fun text => negb (nonempty text)
  | String "%" p => some_suffix (ilike p)
  | String "_" p => fun text => match text with String _ t => ilike p t | EmptyString => false end
  | String "\" (String c p) => fun text =>
      match text with String d t => fold_eq c d && ilike p t | EmptyString => false end
  | String c p => fun text =>
      match text with String d t => fold_eq c d && ilike p t | EmptyString => false end
  end.

Definition admin_where (filters : ListFilters) (r : Signup) : bool :=
  match lf_status filters with Some s => bool_decide (sg_status r = s) | None => true end &&
  match lf_verified filters with Some v => Bool.eqb (sg_emailVerified r) v | None => true end &&
  (if truthy (lf_search filters) then
     let pattern := "%" +:+ (lf_search filters ?? "") +:+ "%" in
     ilike pattern (sg_name r) || ilike pattern (sg_email r)
   else true).

(** The order of text columns is the database's collation. *)
Definition sort_column `{Collation} (column : string) : Signup -> Signup -> comparison :=
  if column ==? "name" then compare_on sg_name localeCompare
  else if column ==? "email" then compare_on sg_email localeCompare
  else if column ==? "status" then compare_on (fun r => status_name (sg_status r)) localeCompare
  else compare_on sg_createdAt Z.compare.

Definition waitlist_listForAdmin `{Collation} (filters : ListFilters) (d : adb) : ListResult :=
  let page := Z.max 1 (lf_page filters ?? 1) in
  let perPage := Z.min 200 (Z.max 1 (lf_perPage filters ?? 50)) in
  let offset := (page - 1) * perPage in
  let column := sort_column (lf_sort filters ?? "created_at") in
  let ordering := if lf_order filters ==? Some "asc" then column else reversed column in
  let rows := rows_where (admin_where filters) (ad_waitlist d) in
  let total := Z.of_nat (length rows) in
  mkListResult (take (Z.to_nat perPage) (skipn (Z.to_nat offset) (sort_by ordering rows)))
    page perPage total ((total + perPage - 1) / perPage).

Definition countAll (d : adb) : Z := Z.of_nat (length (rows_where (fun _ => true) (ad_waitlist d))).

Definition exportRows (d : adb) : list Signup := order_desc sg_createdAt (rows_where (fun _ => true) (ad_waitlist d)).

(** ** The CSV export *)

Definition quote : ascii := "034"%char.
Definition line_feed : ascii := "010"%char.
Fixpoint includes (c : ascii) (s : string) : bool :=
  match s with EmptyString => false | String d s' => (c ==? d) || includes c s' end.
(** [s.replaceAll] of a quote by two. *)
Fixpoint double_quotes (s : string) : string :=
  match s with
  | EmptyString => EmptyString
  | String c s' => if c ==? quote then String quote (String quote (double_quotes s')) else String c (double_quotes s')
  end.
Definition csvEscape (s : string) : string :=
  if includes "," s || includes quote s || includes line_feed s
  then String quote (double_quotes s +:+ String quote EmptyString)
  else s.

Section export.
Context `{Plat : Platform}.

Definition csv_fields (r : Signup) : list string :=
  [sg_id r; sg_name r; sg_email r; status_name (sg_status r); if sg_emailVerified r then "true" else "false";
   toISOString (sg_createdAt r)].
Definition csv_line (r : Signup) : string :=
  join "," [sg_id r; csvEscape (sg_name r); csvEscape (sg_email r); status_name (sg_status r);
            if sg_emailVerified r then "true" else "false"; toISOString (sg_createdAt r)].
Definition csv_header : string := "id,name,email,status,email_verified,created_at".
Definition csv_export (rows : list Signup) : string :=
  (csv_header +:+ newline) +:+ join newline (map csv_line rows) +:+ newline.
End export.

(** ** Handlers *)

Record Reply := mkReply {
  ry_code : Z;
  ry_body : json
}.
Definition error_reply (code : Z) (message : string) : Reply :=
  mkReply code (JObj [("status", JStr "error"); ("message", JStr message)]).
Definition ok_reply (fields : list (string * json)) : Reply := mkReply 200 (JObj fields).

(** The rest of the system between two statements, what is drawn at random, the e-mail
    provider, and the validation library's e-mail test and message. *)
Class AccountsEnv `{Plat : Platform} := {
  acc_others : nat -> adb -> adb;
  acc_others_steps : forall n d, rtc account_step d (acc_others n d);
  draw_id : nat -> string;
  draw_bytes : nat -> bytes;
  gateway_clock : nat -> Z;
  send_email : nat -> string -> result exn unit;
  is_email : string -> bool;
  first_issue : json -> string
}.

Record AuthConfig := mkAuthConfig {
  cf_apiKeyPepper : option string;
  cf_ipPepper : option string;
  cf_sessionTtlHours : Z;
  cf_tokenTtlHours : Z;
  cf_adminToken : string;
  cf_resendApiKey : option string
}.

Record aworld := mkAworld {
  aw_db : adb;
  aw_limiter : limiter;
  aw_resend : limiter;
  aw_ticks : nat
}.
#[export] Instance aworld_eta : RecEta aworld := fun w =>
  mkAworld (aw_db w) (aw_limiter w) (aw_resend w) (aw_ticks w).

(** [emailEnabled] *)
Definition emailEnabled (config : AuthConfig) : bool := truthy (cf_resendApiKey config).

Section handlers.
Context `{Env : AccountsEnv} (config : AuthConfig).

Definition A_ (X : Type) : Type := M aworld exn X.

(** One statement: the others go first; a failed one changes nothing. *)
Definition statement {X} (t : nat -> atx X) : A_ X := fun w =>
  let d := acc_others (aw_ticks w) (aw_db w) in
  match t (aw_ticks w) d with
  | Ok (x, d') => (Ok x, w <| aw_db := d' |> <| aw_ticks := S (aw_ticks w) |>)
  | Err e => (Err e, w <| aw_db := d |> <| aw_ticks := S (aw_ticks w) |>)
  end.
Definition select_ {X} (f : adb -> X) : A_ X := statement (fun _ d => Ok (f d, d)).

Definition limited_ (key : string) : A_ bool := fun w =>
  let '(ok, m) := check key 5 60 (gateway_clock (aw_ticks w)) (aw_limiter w) in
  (Ok ok, w <| aw_limiter := m |>).

Definition bounded_string (lo hi : Z) (j : option json) : option string :=
  match j with
  | Some (JStr s) => if (lo <=? str_len s) && (str_len s <=? hi) then Some s else None
  | _ => None
  end.
Definition property (body : json) (k : string) : option json :=
  match body with JObj f => assoc k f | _ => None end.

Definition waitlistInput (body : json) : option (string * string) :=
  match bounded_string 1 200 (property body "name"), bounded_string 0 320 (property body "email") with
  | Some name, Some email => if is_email email then Some (name, email) else None
  | _, _ => None
  end.

(** POST /api/v1/waitlist.  The mail is sent in the background. *)
Definition post_waitlist (ip : string) (body : json) : A_ Reply :=
  do! ok <- limited_ ("waitlist:" +:+ ip);
  if negb ok then mret_ (error_reply 429 "Too many requests.")
  else match waitlistInput body with
       | None => mret_ (error_reply 400 (first_issue body))
       | Some (rawName, rawEmail) =>
           let name := trim rawName in
           let email := toLowerCase (trim rawEmail) in
           let ipHash := pepperedHash ip (cf_ipPepper config) in
           do! _ <- statement (fun n => insertSignup (draw_id n) (draw_bytes n) (gateway_clock n) name email
                                          (Some ipHash) (cf_tokenTtlHours config));
           mret_ (ok_reply [("status", JStr "ok");
             ("message", JStr "If that email isn't already registered, we just sent a verification link.")])
       end.

(** GET /api/v1/waitlist/verify *)
Definition get_verify (query : json) : A_ Reply :=
  match bounded_string 1 256 (property query "token") with
  | None => mret_ (error_reply 400 "Invalid verification link.")
  | Some token =>
      do! _ <- statement (fun _ => verifyEmail (trim token));
      mret_ (ok_reply [("status", JStr "verified")])
  end.

Definition profile_json (p : ProfileRow) : list (string * json) :=
  [("name", JStr (pf_name p)); ("email", JStr (pf_email p)); ("key_prefix", JStr (pf_keyPrefix p));
   ("key_created_at", JStr (toISOString (pf_keyCreatedAt p)));
   ("account_status", JStr (status_name (pf_accountStatus p)));
   ("member_since", JStr (toISOString (pf_memberSince p)))].

(** POST /api/v1/user/login *)
Definition post_login (ip : string) (body : json) : A_ Reply :=
  do! ok <- limited_ ("login:" +:+ ip);
  if negb ok then mret_ (error_reply 429 "Too many requests.")
  else match bounded_string 1 128 (property body "api_key") with
       | None => mret_ (error_reply 400 "Invalid API key format.")
       | Some raw =>
           let apiKey := trim raw in
           if negb (startsWith "tc_" apiKey) then mret_ (error_reply 401 "Unauthorized.")
           else
             do! record <- select_ (lookupActiveByCandidates apiKey (cf_apiKeyPepper config));
             match record with
             | None => mret_ (error_reply 401 "Unauthorized.")
             | Some record =>
                 do! profile <- select_ (profileByApiKeyId (kr_id record));
                 match profile with
                 | None => mret_ (error_reply 401 "Unauthorized.")
                 | Some profile =>
                     if bool_decide (pf_accountStatus profile <> approved)
                     then mret_ (error_reply 401 "Unauthorized.")
                     else
                       do! sess <- statement (fun n => createSession (draw_id n) (draw_bytes n) (gateway_clock n)
                                                            (kr_id record) (cf_sessionTtlHours config));
                       mret_ (ok_reply [("session_token", JStr (fst sess));
                                        ("expires_at", JStr (toISOString (snd sess)));
                                        ("user", JObj (profile_json profile))])
                 end
             end
       end.

(** The [preHandler] of the portal's routes. *)
Definition with_session (authorization : option string) (handler : string -> string -> string -> A_ Reply) : A_ Reply :=
  do! sess <- statement (fun _ => userAuth (cf_sessionTtlHours config) authorization);
  match sess with
  | None => mret_ (error_reply 401 "Unauthorized.")
  | Some (apiKeyId, userId, token) => handler apiKeyId userId token
  end.

(** GET /api/v1/user/profile *)
Definition get_profile (authorization : option string) : A_ Reply :=
  with_session authorization (fun apiKeyId _ _ =>
    do! profile <- select_ (profileByApiKeyId apiKeyId);
    mret_ (match profile with
           | None => error_reply 404 "User not found."
           | Some p => ok_reply (profile_json p)
           end)).

(** The transaction of a rotation: the old key is revoked and the new one created, or
    neither. *)
Definition rotate_tx (n : nat) (apiKeyId userId : string) : atx (string * string * string) := fun d =>
  let? out := revokeApiKey apiKeyId d in
  createApiKey (draw_id n) (draw_bytes n) userId (cf_apiKeyPepper config) (snd out).

(** POST /api/v1/user/rotate-key.  The sessions are revoked on another connection, outside
    the transaction. *)
Definition post_rotate_key (authorization : option string) : A_ Reply :=
  with_session authorization (fun apiKeyId userId _ =>
    mcatch (
      do! _ <- statement (fun _ => revokeAllSessionsForApiKey apiKeyId);
      do! newKey <- statement (fun n => rotate_tx n apiKeyId userId);
      let '(id, rawKey, prefix) := newKey in
      do! sess <- statement (fun n => createSession (draw_id n) (draw_bytes n) (gateway_clock n) id
                                           (cf_sessionTtlHours config));
      mret_ (ok_reply [("api_key", JStr rawKey); ("key_prefix", JStr prefix);
                       ("session_token", JStr (fst sess)); ("expires_at", JStr (toISOString (snd sess)))]))
      (fun _ => mret_ (error_reply 500 "Could not rotate key."))).

(** POST /api/v1/user/logout *)
Definition post_logout (authorization : option string) : A_ Reply :=
  with_session authorization (fun _ _ token =>
    do! _ <- statement (fun _ => revokeSession token);
    mret_ (ok_reply [("status", JStr "ok"); ("message", JStr "Logged out.")])).

(** ** Administration *)

Definition with_admin (authorization : option string) (handler : A_ Reply) : A_ Reply :=
  if adminAuth (cf_adminToken config) authorization then handler else mret_ (error_reply 401 "Unauthorized.").

Definition uuid_param (params : json) : option string :=
  match property params "id" with Some (JStr s) => if is_uuid s then Some s else None | _ => None end.
Definition uuid_list (body : json) : option (list string) :=
  match property body "ids" with
  | Some (JArr ((_ :: _) as l)) => decode_all (fun j => match j with JStr s => if is_uuid s then Some s else None | _ => None end) l
  | _ => None
  end.

(** POST /api/v1/admin/waitlist/:id/resend-verification *)
Definition post_resend (authorization : option string) (params : json) : A_ Reply :=
  with_admin authorization
    match uuid_param params with
    | None => mret_ (mkReply 400 (JObj [("message", JStr "Invalid signup ID.")]))
    | Some id =>
        do! ok <- (fun w => let '(ok, m) := check id 1 60 (gateway_clock (aw_ticks w)) (aw_resend w) in
                            (Ok ok, w <| aw_resend := m |>));
        if negb ok then mret_ (mkReply 429 (JObj [("message", JStr "Wait a minute before resending verification.")]))
        else mcatch (
          do! sent <- statement (fun n => resendVerification id (draw_bytes n) (gateway_clock n)
                                            (cf_tokenTtlHours config) (fun _ email _ => send_email n email));
          mret_ (if sent then ok_reply [("status", JStr "ok");
                                  ("delivery", JStr (if emailEnabled config then "accepted" else "dryrun"))]
                 else mkReply 409 (JObj [("message",
                   JStr "Only pending, unverified signups can receive a new verification link.")])))
          (fun _ => mret_ (mkReply 502 (JObj [("message",
             JStr ("Email provider rejected or could not accept the verification email. " +:+
               "The previous link remains valid; check gateway logs."))])))
    end.

(** The loop of [approveBatch], one transaction after the other. *)
Fixpoint approve_all (ids : list string) : A_ (list ApprovedRow * list (string * string)) :=
  match ids with
  | [] => mret_ ([], [])
  | id :: rest =>
      do! outcome <- statement (fun n d => Ok (approve_one
        (mkDraw (draw_id n) (draw_id n) (draw_bytes n)) (cf_apiKeyPepper config) id d));
      do! out <- approve_all rest;
      mret_ (match outcome with
             | inl row => (row :: fst out, snd out)
             | inr reason => (fst out, (id, reason) :: snd out)
             end)
  end.

(** The mails of an approval: one that fails is reported and the next is sent. *)
Fixpoint mail_keys (rows : list ApprovedRow) : A_ (Z * list string) :=
  match rows with
  | [] => mret_ (0, [])
  | row :: rest =>
      do! outcome <- (fun w => (Ok (send_email (aw_ticks w) (ap_email row)), w <| aw_ticks := S (aw_ticks w) |>));
      do! out <- mail_keys rest;
      mret_ (match outcome with
             | Ok _ => (fst out + 1, snd out)
             | Err e => (fst out, (ap_email row +:+ ": " +:+ error_text e) :: snd out)
             end)
  end.

Definition send_emails (body : json) : option bool :=
  match property body "send_emails" with
  | None => Some true
  | Some (JBool b) => Some b
  | Some _ => None
  end.

(** POST /api/v1/admin/waitlist/approve *)
Definition post_approve (authorization : option string) (body : json) : A_ Reply :=
  with_admin authorization
    match uuid_list body, send_emails body with
    | Some ids, Some sendEmails =>
        do! result <- approve_all ids;
        do! mails <- (if sendEmails : bool then mail_keys (fst result) else mret_ (0, []));
        let '(accepted, emailErrors) := mails in
        mret_ (ok_reply [("status", JStr "ok"); ("approved", JNum (NInt (Z.of_nat (length (fst result)))));
          ("skipped", JArr (map (fun s => JObj [("id", JStr (fst s)); ("reason", JStr (snd s))]) (snd result)));
          ("emails_sent", JNum (NInt (if emailEnabled config then accepted else 0)));
          ("emails_dryrun", JNum (NInt (if emailEnabled config then 0 else accepted)));
          ("email_errors", JArr (map JStr emailErrors));
          ("keys", JArr (map (fun r => JObj [("waitlist_id", JStr (ap_waitlistId r)); ("user_id", JStr (ap_userId r));
             ("name", JStr (ap_name r)); ("email", JStr (ap_email r)); ("key", JStr (ap_rawKey r));
             ("key_prefix", JStr (ap_keyPrefix r))]) (fst result)))])
    | _, _ => mret_ (error_reply 400 "Invalid request body.")
    end.

(** POST /api/v1/admin/waitlist/reject *)
Definition post_reject (authorization : option string) (body : json) : A_ Reply :=
  with_admin authorization
    match uuid_list body with
    | None => mret_ (error_reply 400 "Invalid request body.")
    | Some ids =>
        do! n <- statement (fun _ => rejectBatch ids);
        mret_ (ok_reply [("status", JStr "ok"); ("rejected", JNum (NInt n))])
    end.

(** DELETE /api/v1/admin/waitlist/:id *)
Definition delete_signup (authorization : option string) (params : json) : A_ Reply :=
  with_admin authorization
    match uuid_param params with
    | None => mret_ (error_reply 400 "Invalid id.")
    | Some id =>
        do! deleted <- statement (fun _ => deleteOne id);
        mret_ (if deleted then ok_reply [("status", JStr "ok"); ("message", JStr "Entry deleted.")]
               else error_reply 404 "Entry not found.")
    end.

Definition signup_json (r : Signup) : json :=
  JObj [("id", JStr (sg_id r)); ("name", JStr (sg_name r)); ("email", JStr (sg_email r));
        ("ip_hash", match sg_ipHash r with Some h => JStr h | None => JNull end);
        ("status", JStr (status_name (sg_status r))); ("email_verified", JBool (sg_emailVerified r));
        ("created_at", JStr (toISOString (sg_createdAt r)))].

(** GET /api/v1/admin/waitlist, given the outcome of [listQuery.safeParse] *)
Definition get_waitlist `{Collation} (authorization : option string) (parsed : option ListFilters) : A_ Reply :=
  with_admin authorization
    match parsed with
    | None => mret_ (error_reply 400 "Invalid query.")
    | Some filters =>
        do! result <- select_ (waitlist_listForAdmin filters);
        mret_ (ok_reply [("data", JArr (map signup_json (lr_data result)));
          ("pagination", JObj [("page", JNum (NInt (lr_page result))); ("per_page", JNum (NInt (lr_perPage result)));
             ("total", JNum (NInt (lr_total result))); ("total_pages", JNum (NInt (lr_totalPages result)))])])
    end.

(** GET /api/v1/admin/waitlist/count and /export *)
Definition get_count (authorization : option string) : A_ Reply :=
  with_admin authorization (do! n <- select_ countAll; mret_ (ok_reply [("count", JNum (NInt n))])).
Definition get_export (authorization : option string) : A_ Reply :=
  with_admin authorization (do! rows <- select_ exportRows; mret_ (mkReply 200 (JStr (csv_export rows)))).
End handlers.
