(* ===== verification/AuthRoutesSpec.v ===== *)
(** * What the account routes promise

    Every handler runs only account transactions, so the invariants of the tables hold
    whatever requests arrive; a login is answered with a session of an active key that was
    presented; the CSV export is read back by an RFC 4180 reader. *)

From S2P Require Import Prelude Js Types Wire Http Database OperationRepo RouteHealth RateLimit Accounts AccountsSpec AuthRoutes.
From Stdlib Require Import Ascii.
Open Scope Z_scope.

(** ** Requests *)

Inductive account_request : Type :=
| Waitlist (ip : string) (body : json)
| Verify (query : json)
| Login (ip : string) (body : json)
| Profile (authorization : option string)
| RotateKey (authorization : option string)
| Logout (authorization : option string)
| Resend (authorization : option string) (params : json)
| ListSignups (authorization : option string) (filters : option ListFilters)
| Approve (authorization : option string) (body : json)
| Reject (authorization : option string) (body : json)
| Delete (authorization : option string) (params : json)
| CountSignups (authorization : option string)
| Export (authorization : option string).

Section routes.
Context `{Env : AccountsEnv, Coll : Collation} (config : AuthConfig).

Definition serve (r : account_request) : A_ Reply :=
  match r with
  | Waitlist ip body => post_waitlist config ip body
  | Verify query => get_verify query
  | Login ip body => post_login config ip body
  | Profile a => get_profile config a
  | RotateKey a => post_rotate_key config a
  | Logout a => post_logout config a
  | Resend a params => post_resend config a params
  | ListSignups a filters => get_waitlist config a filters
  | Approve a body => post_approve config a body
  | Reject a body => post_reject config a body
  | Delete a params => delete_signup config a params
  | CountSignups a => get_count config a
  | Export a => get_export config a
  end.

(** A request that throws is answered by the framework and the next one is served. *)
Fixpoint serve_all (l : list account_request) (w : aworld) : aworld :=
  match l with [] => w | r :: l' => serve_all l' (snd (serve r w)) end.

(** [m] runs account transactions only. *)
Definition keeps {X} (m : A_ X) : Prop := forall w, rtc account_step (aw_db w) (aw_db (snd (m w))).

Lemma keeps_ret {X} (x : X) : keeps (mret_ x).
Proof. by intros w. Qed.
Lemma keeps_bind {X Y} (m : A_ X) (k : X -> A_ Y) : keeps m -> (forall x, keeps (k x)) -> keeps (mbind_ m k).
Proof.
  intros Hm Hk w. unfold mbind_. specialize (Hm w). destruct (m w) as [[x|e] w']; [|done].
  etrans; [exact Hm|apply Hk].
Qed.
Lemma keeps_catch {X} (m : A_ X) h : keeps m -> (forall e, keeps (h e)) -> keeps (mcatch m h).
Proof.
  intros Hm Hk w. unfold mcatch. specialize (Hm w). destruct (m w) as [[x|e] w']; [done|].
  etrans; [exact Hm|apply Hk].
Qed.
Lemma keeps_statement {X} (t : nat -> atx X) :
  (forall n d o d', t n d = Ok (o, d') -> rtc account_step d d') -> keeps (statement t).
Proof.
  intros Ht w. unfold statement. destruct (t _ _) as [[x d']|e] eqn:E; cbn.
  - etrans; [apply acc_others_steps|]. by eapply Ht.
  - apply acc_others_steps.
Qed.
Lemma keeps_select {X} (f : adb -> X) : keeps (select_ f).
Proof. apply keeps_statement. intros n d o d' [= _ <-]. done. Qed.
Lemma keeps_limited key : keeps (limited_ key).
Proof. intros w. unfold limited_. by destruct (check _ _ _ _ _). Qed.
Lemma keeps_match {X Y} (o : option X) (a : X -> A_ Y) (b : A_ Y) :
  (forall x, keeps (a x)) -> keeps b -> keeps (match o with Some x => a x | None => b end).
Proof. by destruct o. Qed.
Lemma keeps_if {X} (b : bool) (m1 m2 : A_ X) : keeps m1 -> keeps m2 -> keeps (if b then m1 else m2).
Proof. by destruct b. Qed.

Lemma userAuth_step ttl a d o d' : userAuth ttl a d = Ok (o, d') -> rtc account_step d d'.
Proof.
  unfold userAuth. destruct (extractBearer a) as [token|]; [|by intros [= _ <-]].
  destruct (negb _); [by intros [= _ <-]|]. intros ([o1 d1] & H & [= _ <-])%result_bind_Ok.
  eapply rtc_once, acc_lookup, H.
Qed.
Lemma rotate_step n key user d o d' : rotate_tx config n key user d = Ok (o, d') -> rtc account_step d d'.
Proof.
  unfold rotate_tx. intros ([u d1] & H1 & H2)%result_bind_Ok.
  eapply rtc_l; [by eapply acc_revoke_key|]. eapply rtc_once, acc_key, H2.
Qed.
Lemma approve_step n id d o d' :
  (fun d => Ok (approve_one (mkDraw (draw_id n) (draw_id n) (draw_bytes n)) (cf_apiKeyPepper config) id d)) d
    = Ok (o, d') :> result exn _ -> rtc account_step d d'.
Proof. intros [= H]. eapply rtc_once, acc_approve, H. Qed.
End routes.

Create HintDb account_routes.
#[export] Hint Resolve keeps_ret keeps_select keeps_limited : account_routes.
Ltac keep :=
  repeat first
    [ progress auto with account_routes
    | apply keeps_bind; [|intros ?]
    | apply keeps_catch; [|intros ?]
    | apply keeps_if
    | apply keeps_match; [intros ?|] ].

Section routes_spec.
Context `{Env : AccountsEnv, Coll : Collation} (config : AuthConfig).

Ltac one_step H := intros ? ? ? ? H; eapply rtc_once.

Lemma keeps_with_session a handler :
  (forall k u t, keeps (handler k u t)) -> keeps (with_session config a handler).
Proof.
  intros Hh. unfold with_session. keep; [apply keeps_statement; intros; by eapply userAuth_step|].
  match goal with |- keeps (match ?s with _ => _ end) => destruct s as [[k u] t] end; auto with account_routes.
Qed.
Lemma keeps_with_admin a handler : keeps handler -> keeps (with_admin config a handler).
Proof. intros H. unfold with_admin. keep. Qed.

Lemma keeps_approve_all ids : keeps (approve_all config ids).
Proof.
  induction ids as [|id ids IH]; cbn [approve_all]; keep.
  apply keeps_statement. intros n d o d' H. by eapply approve_step.
Qed.
Lemma keeps_mail_keys rows : keeps (mail_keys rows).
Proof. induction rows as [|row rows IH]; cbn [mail_keys]; keep. by intros w. Qed.

Lemma keeps_serve r : keeps (serve config r).
Proof.
  destruct r; cbn [serve].
  - unfold post_waitlist. keep. match goal with p : string * string |- _ => destruct p end. keep.
    apply keeps_statement. one_step H. eapply acc_signup, H.
  - unfold get_verify. keep. apply keeps_statement. one_step H. eapply acc_verify, H.
  - unfold post_login. keep. apply keeps_statement. one_step H. eapply acc_session, H.
  - apply keeps_with_session. intros. keep.
  - apply keeps_with_session. intros. keep.
    + apply keeps_statement. one_step H. eapply acc_logout_all, H.
    + apply keeps_statement. intros. by eapply rotate_step.
    + destruct x0 as [[id raw] prefix]. keep. apply keeps_statement. one_step H. eapply acc_session, H.
  - apply keeps_with_session. intros. keep. apply keeps_statement. one_step H. eapply acc_logout, H.
  - apply keeps_with_admin. keep.
    + intros w. by destruct (check _ _ _ _ _).
    + apply keeps_statement. one_step H. eapply acc_resend, H.
  - apply keeps_with_admin. keep.
  - apply keeps_with_admin. keep.
    + apply keeps_approve_all.
    + apply keeps_mail_keys.
    + match goal with p : Z * list string |- _ => destruct p end. keep.
  - apply keeps_with_admin. keep. apply keeps_statement. one_step H. eapply acc_reject, H.
  - apply keeps_with_admin. keep. apply keeps_statement. one_step H. eapply acc_delete, H.
  - apply keeps_with_admin. keep.
  - apply keeps_with_admin. keep.
Qed.

Lemma serve_all_steps l w : rtc account_step (aw_db w) (aw_db (serve_all config l w)).
Proof. revert w. induction l as [|r l IH]; intros w; cbn; [done|]. etrans; [apply keeps_serve|apply IH]. Qed.

(** Whatever requests arrive, keys are issued to vetted users only.  After any
    sequence of requests to the account routes, with other instances working on the same
    tables in between and any e-mail failures, every API key belongs to a user whose
    sign-up was approved with a verified address, and no user has two active keys; and an
    administration request without the token is refused and changes nothing. *)
Lemma account_routes_vet_users now refs l m1 m2 ticks :
  let w := serve_all config l (mkAworld (mkAdb now ∅ ∅ ∅ ∅ refs) m1 m2 ticks) in
  (forall id k, ad_api_keys (aw_db w) !! id = Some k ->
     vetted (aw_db w) (ak_userId k) /\
     forall id' k', ad_api_keys (aw_db w) !! id' = Some k' -> key_active k = true -> key_active k' = true ->
       ak_userId k' = ak_userId k -> id' = id) /\
  (forall a body, adminAuth (cf_adminToken config) a = false ->
     serve config (Approve a body) w = (Ok (error_reply 401 "Unauthorized."), w)).
Proof.
  intros w. assert (Hwf : accounts_wf (aw_db w)).
  { eapply reachable_wf; [apply serve_all_steps|apply empty_accounts]. }
  split.
  - intros id k Hk. split; [by apply (aw_keys _ Hwf _ _ Hk)|]. intros id' k' Hk' Ha Ha' Hu.
    by apply (aw_one_key _ Hwf id' id k' k).
  - intros a body Ha. cbn. unfold post_approve, with_admin. by rewrite Ha.
Qed.

(** ** Login *)

Lemma statement_Ok {X} (t : nat -> atx X) w x w' :
  statement t w = (Ok x, w') ->
  exists d, rtc account_step (aw_db w) d /\ t (aw_ticks w) d = Ok (x, aw_db w').
Proof.
  unfold statement. destruct (t _ _) as [[y d']|e] eqn:E; [|done]. intros [= <- <-].
  eexists. split; [apply acc_others_steps|exact E].
Qed.
Lemma select_Ok {X} (f : adb -> X) w x w' :
  select_ f w = (Ok x, w') -> rtc account_step (aw_db w) (aw_db w') /\ x = f (aw_db w').
Proof. unfold select_. intros (d & Hd & [= <- <-])%statement_Ok. done. Qed.
Lemma limited_db key w ok w' : limited_ key w = (Ok ok, w') -> aw_db w' = aw_db w.
Proof. unfold limited_. destruct (check _ _ _ _ _). by intros [= _ <-]. Qed.

(** A login takes a key and gives a session.  When a login is answered with 200, the
    body presented a text whose hash the tables hold for a key that was active then; the
    answer's token is that of a new session, not revoked, of that key, which is in the
    tables when the answer is sent. *)
Lemma login_opens_a_session ip body w reply w' :
  accounts_wf (aw_db w) -> post_login config ip body w = (Ok reply, w') -> ry_code reply = 200 ->
  exists raw token expires d k sid s,
    bounded_string 1 128 (property body "api_key") = Some raw /\
    property (ry_body reply) "session_token" = Some (JStr token) /\
    property (ry_body reply) "expires_at" = Some (JStr (toISOString expires)) /\
    rtc account_step (aw_db w) d /\ rtc account_step d (aw_db w') /\
    ad_api_keys d !! se_apiKeyId s = Some k /\ key_active k = true /\ vetted d (ak_userId k) /\
    ak_hash k ∈ apiKeyHashCandidates (trim raw) (cf_apiKeyPepper config) /\
    ad_sessions (aw_db w') !! sid = Some s /\ se_hash s = sha256_hex token /\ se_revokedAt s = None /\
    se_expiresAt s = expires /\ exists random32, token = generateSessionToken random32.
Proof.
  intros Hwf H Hcode. unfold post_login in H. apply mbind_Ok in H as (ok & w1 & Hl & H).
  apply limited_db in Hl. destruct ok; cbn [negb] in H; [|injection H as <- <-; discriminate Hcode].
  destruct (bounded_string _ _ _) as [raw|]; [|injection H as <- <-; discriminate Hcode].
  destruct (startsWith _ _); cbn [negb] in H; [|injection H as <- <-; discriminate Hcode].
  apply mbind_Ok in H as (rec & w2 & Hrec & H). apply select_Ok in Hrec as [H12 ->]. rewrite Hl in H12.
  destruct (lookupActiveByCandidates _ _ _) as [rec|] eqn:Hlook; [|injection H as <- <-; discriminate Hcode].
  apply mbind_Ok in H as (p & w3 & Hp & H). apply select_Ok in Hp as [H23 ->].
  destruct (profileByApiKeyId _ _) as [p|]; [|injection H as <- <-; discriminate Hcode].
  case_bool_decide; [injection H as <- <-; discriminate Hcode|].
  apply mbind_Ok in H as (sess & w4 & Hs & H). injection H as <- <-. apply statement_Ok in Hs as (d3 & H34 & Hs).
  pose proof Hs as Hcreate. unfold createSession in Hs. destruct (_ || _); [done|]. injection Hs as <- Hdb.
  apply lookupActive_spec in Hlook as (k & Hk & Hh & Ha & Hu); [|by eapply reachable_wf].
  match type of Hdb with update_field (fun _ => <[?sid := ?row]> _) _ = _ =>
    exists raw, (generateSessionToken (draw_bytes (aw_ticks w3))), (se_expiresAt row), (aw_db w2), k, sid, row end.
  cbn [ry_body ok_reply property assoc fst snd].
  split_and!; [done|reflexivity|reflexivity|done| | | | | | |reflexivity|reflexivity|reflexivity|by eexists].
  - etrans; [exact H23|]. etrans; [exact H34|]. eapply rtc_once, acc_session, Hcreate.
  - exact Hk.
  - done.
  - assert (Hwf2 : accounts_wf (aw_db w2)) by (by eapply reachable_wf). by apply (aw_keys _ Hwf2 _ _ Hk).
  - done.
  - rewrite <- Hdb. cbn. by rewrite lookup_insert_eq.
Qed.
End routes_spec.

(** ** A gateway with one customer *)

Definition routes_platform : Platform := {|
  is_url := @is_url accounts_platform; is_uuid := fun _ => true; new_URL := @new_URL accounts_platform; stringify := @stringify accounts_platform; 
  json_parse := @json_parse accounts_platform;
  base64_text := @base64_text accounts_platform; sha256_hex := fun s => "#" +:+ s; date_parse := @date_parse accounts_platform;
  toISOString := fun _ => "2026-01-01T00:00:00.000Z";
  headers_valid := @headers_valid accounts_platform; caller_publicKey := @caller_publicKey accounts_platform; signAuthorization := @signAuthorization accounts_platform
|}.
#[local, refine] Instance one_customer : AccountsEnv (Plat := routes_platform) := {|
  acc_others := fun _ d => d;
  draw_id := fun n => String (ascii_of_nat (97 + n)) EmptyString;
  draw_bytes := fun n => [match Byte.of_nat n with Some b => b | None => Byte.x00 end];
  gateway_clock := fun n => Z.of_nat n;
  send_email := fun _ _ => Err (PlainError "provider down");
  is_email := fun _ => true;
  first_issue := fun _ => "Invalid input"
|}.
Proof. intros. apply rtc_refl. Defined.
Definition one_config : AuthConfig := mkAuthConfig None None 1 24 "secret" None.
Definition bearer_secret : option string := Some "Bearer secret".
Definition customer_history : list account_request :=
  [Waitlist "10.0.0.1" (JObj [("name", JStr "Ann"); ("email", JStr "ann@example.org")]);
   Verify (JObj [("token", JStr "00")]);
   Approve bearer_secret (JObj [("ids", JArr [JStr "a"])])].
Definition customer_world : aworld :=
  serve_all (Env := one_customer) (Coll := code_unit_collation) one_config customer_history
    (mkAworld (mkAdb 0 ∅ ∅ ∅ ∅ ∅) [] [] 0).
Definition customer_login : json := JObj [("api_key", JStr "tc_2")].

Lemma customer_key : match ad_api_keys (aw_db customer_world) !! "c" with Some k => key_active k | None => false end = true.
Proof. vm_compute. reflexivity. Qed.

Lemma account_routes_vet_users_witness :
  exists k, ad_api_keys (aw_db customer_world) !! "c" = Some k /\ key_active k = true /\
    vetted (aw_db customer_world) (ak_userId k).
Proof.
  pose proof customer_key as Hk. destruct (ad_api_keys (aw_db customer_world) !! "c") as [k|] eqn:E; [|discriminate Hk].
  exists k. split_and!; [reflexivity|exact Hk|].
  apply (proj1 (account_routes_vet_users (Env := one_customer) (Coll := code_unit_collation) one_config 0 ∅
    customer_history [] [] 0) "c" k E).
Defined.

Lemma customer_logs_in :
  match post_login (Env := one_customer) one_config "10.0.0.1" customer_login customer_world with
  | (Ok r, _) => ry_code r | _ => 0 end = 200.
Proof. vm_compute. reflexivity. Qed.

Lemma customer_world_wf : accounts_wf (aw_db customer_world).
Proof. eapply (reachable_wf (Plat := routes_platform)); [apply serve_all_steps|apply empty_accounts]. Qed.

Lemma customer_login_session :
  exists reply w' token sid s,
    post_login (Env := one_customer) one_config "10.0.0.1" customer_login customer_world = (Ok reply, w') /\
    property (ry_body reply) "session_token" = Some (JStr token) /\
    ad_sessions (aw_db w') !! sid = Some s /\ se_hash s = "#" +:+ token.
Proof.
  pose proof customer_logs_in as H.
  destruct (post_login (Env := one_customer) one_config "10.0.0.1" customer_login customer_world)
    as [[reply|e] w'] eqn:E; [|discriminate H].
  destruct (login_opens_a_session (Env := one_customer) one_config "10.0.0.1" customer_login
    customer_world reply w' customer_world_wf E H)
    as (raw & token & expires & d & k & sid & s & _ & Ht & _ & _ & _ & _ & _ & _ & _ & Hs & Hh & _).
  exists reply, w', token, sid, s. split_and!; [reflexivity|exact Ht|exact Hs|exact Hh].
Qed.

(** ** The export

    A reader of comma-separated values after RFC 4180: a field that starts with a quote runs
    to the next lone quote and may hold commas, line feeds and doubled quotes; a line feed
    outside such a field ends the record. *)

Inductive csv_mode : Type := field_start | in_field | in_quotes | after_quote.

Fixpoint read_csv (mode : csv_mode) (field : string) (record : list string) (s : string) : list (list string) :=
  match s with
  | EmptyString => match mode, record with
                   | field_start, [] => []
                   | _, _ => [record ++ [field]]
                   end
  | String c s' =>
      match mode with
      | in_quotes =>
          if c ==? quote then read_csv after_quote field record s'
          else read_csv in_quotes (field +:+ String c "") record s'
      | _ =>
          if c ==? quote then
            match mode with
            | field_start => read_csv in_quotes field record s'
            | after_quote => read_csv in_quotes (field +:+ String quote "") record s'
            | _ => read_csv in_field (field +:+ String c "") record s'
            end
          else if c ==? ","%char then read_csv field_start "" (record ++ [field]) s'
          else if c ==? line_feed then (record ++ [field]) :: read_csv field_start "" [] s'
          else read_csv in_field (field +:+ String c "") record s'
      end
  end.

(** No character that [csvEscape] looks for. *)
Definition plain_field (s : string) : bool := negb (includes "," s || includes quote s || includes line_feed s).

(** What follows a field: the next field of the record, or the next record. *)
Definition separator (c : ascii) : Prop := c = ","%char \/ c = line_feed.
Definition after_field (c : ascii) (record : list string) (s : string) : list (list string) :=
  if c ==? ","%char then read_csv field_start "" record s else record :: read_csv field_start "" [] s.

Lemma app_string_char c (a b : string) : String c a +:+ b = String c (a +:+ b).
Proof. reflexivity. Qed.
Lemma app_string_cons (a : string) c s : a +:+ String c s = (a +:+ String c "") +:+ s.
Proof. induction a as [|d a IH]; [done|]. rewrite !app_string_char. by f_equal. Qed.
Lemma app_string_nil (a : string) : a +:+ "" = a.
Proof. induction a as [|d a IH]; [done|]. rewrite app_string_char. by f_equal. Qed.
Lemma app_string_assoc (a b c : string) : (a +:+ b) +:+ c = a +:+ b +:+ c.
Proof. induction a as [|d a IH]; [done|]. rewrite !app_string_char. by f_equal. Qed.

Lemma read_separator mode field record c s :
  mode <> in_quotes -> separator c ->
  read_csv mode field record (String c s) = after_field c (record ++ [field]) s.
Proof. intros Hm [-> | ->]; destruct mode; try done. Qed.

Lemma plain_field_cons d f :
  plain_field (String d f) = true ->
  plain_field f = true /\ d <> ","%char /\ d <> quote /\ d <> line_feed.
Proof.
  unfold plain_field. cbn [includes]. do 3 (case_bool_decide; [cbn; rewrite ?orb_true_r; done|]).
  intros Hf. split_and!; [exact Hf|congruence..].
Qed.

Lemma read_plain mode f field record c s :
  mode = field_start \/ mode = in_field -> plain_field f = true -> separator c ->
  read_csv mode field record (f +:+ String c s) = after_field c (record ++ [field +:+ f]) s.
Proof.
  intros Hm Hf Hc. revert mode field Hm. induction f as [|d f IH]; intros mode field Hm.
  - rewrite app_string_nil. apply read_separator; [by destruct Hm as [-> | ->]|done].
  - apply plain_field_cons in Hf as (Hf & H1 & H2 & H3).
    rewrite (app_string_cons field d f), <- (IH Hf in_field _ (or_intror eq_refl)), app_string_char.
    destruct Hm as [-> | ->]; cbn [read_csv]; rewrite !bool_decide_eq_false_2 by done; done.
Qed.

Lemma read_quoted f field record c s :
  separator c ->
  read_csv in_quotes field record (double_quotes f +:+ String quote (String c s)) =
  after_field c (record ++ [field +:+ f]) s.
Proof.
  intros Hc. revert field. induction f as [|d f IH]; intros field; cbn [double_quotes].
  - rewrite app_string_nil, <- (read_separator after_quote field record c s) by done. reflexivity.
  - rewrite (app_string_cons field d f), <- IH. case_bool_decide as Hd.
    + subst d. rewrite !app_string_char. cbn [read_csv]. rewrite !bool_decide_eq_true_2 by done. done.
    + rewrite app_string_char. cbn [read_csv]. by rewrite bool_decide_eq_false_2.
Qed.

Lemma read_escaped f record c s :
  separator c -> read_csv field_start "" record (csvEscape f +:+ String c s) = after_field c (record ++ [f]) s.
Proof.
  intros Hc. unfold csvEscape. destruct (_ || _) eqn:E.
  - rewrite app_string_char, app_string_assoc. cbn [read_csv]. rewrite bool_decide_eq_true_2 by done. rewrite app_string_char. by apply read_quoted.
  - apply (read_plain field_start f ""); [by left| |done]. unfold plain_field. by rewrite E.
Qed.

(** The text [e] is read as the field [f]. *)
Definition reads_as (e f : string) : Prop :=
  forall record c s, separator c ->
    read_csv field_start "" record (e +:+ String c s) = after_field c (record ++ [f]) s.
Lemma escaped_reads f : reads_as (csvEscape f) f.
Proof. intros record c s. apply read_escaped. Qed.
Lemma plain_reads f : plain_field f = true -> reads_as f f.
Proof. intros Hf record c s Hc. apply (read_plain field_start f ""); [by left|done..]. Qed.

Lemma read_record es fs record s :
  Forall2 reads_as es fs -> es <> [] ->
  read_csv field_start "" record (join "," es +:+ String line_feed s) =
  (record ++ fs) :: read_csv field_start "" [] s.
Proof.
  intros H. revert record. induction H as [|e f es fs He Hes IH]; intros record Hne; [done|].
  destruct Hes as [|e' f' es fs He' Hes].
  - cbn [join]. rewrite He by (by right). done.
  - cbn [join]. rewrite !app_string_assoc. rewrite app_string_char. change ("" +:+ ?x) with x.
    rewrite He by (by left). unfold after_field. rewrite bool_decide_eq_true_2 by done.
    rewrite IH by done. by rewrite <- app_assoc.
Qed.

Section export_spec.
Context `{Plat : Platform}.

(** An id and a date of a row hold neither commas, quotes nor line feeds. *)
Definition exportable (r : Signup) : Prop :=
  plain_field (sg_id r) = true /\ plain_field (toISOString (sg_createdAt r)) = true.

Lemma read_row r s :
  exportable r ->
  read_csv field_start "" [] (csv_line r +:+ String line_feed s) = csv_fields r :: read_csv field_start "" [] s.
Proof.
  intros [Hid Hdate]. unfold csv_line. rewrite (read_record _ (csv_fields r)); [done| |done].
  unfold csv_fields. repeat (constructor; [first [apply escaped_reads | apply plain_reads; try done]|]); [..|constructor].
  - by destruct (sg_status r).
  - by destruct (sg_emailVerified r).
Qed.

Lemma read_rows rows :
  rows <> [] -> Forall exportable rows ->
  read_csv field_start "" [] (join newline (map csv_line rows) +:+ newline) = map csv_fields rows.
Proof.
  intros Hne H. induction H as [|r rows Hr Hrows IH]; [done|]. destruct rows as [|r' rows].
  - cbn [map join]. unfold newline. by rewrite read_row.
  - change (join newline (map csv_line (r :: r' :: rows)))
      with (csv_line r +:+ newline +:+ join newline (map csv_line (r' :: rows))).
    rewrite !app_string_assoc. unfold newline at 1. rewrite app_string_char. change ("" +:+ ?x) with x.
    rewrite read_row by done. cbn [map]. f_equal. by apply IH.
Qed.

(** The export can be read back.  An RFC 4180 reader gets from the CSV export of any
    sign-ups the header and, for each row in order, exactly the id, name, e-mail address,
    status, verification flag and date, whatever commas, quotes and line feeds the names
    hold. *)
Lemma export_reads_back rows :
  rows <> [] -> Forall exportable rows ->
  read_csv field_start "" [] (csv_export rows) =
  ["id"; "name"; "email"; "status"; "email_verified"; "created_at"] :: map csv_fields rows.
Proof.
  intros Hne H. unfold csv_export. rewrite app_string_assoc. unfold newline at 1. rewrite app_string_char.
  change ("" +:+ ?x) with x.
  rewrite <- (read_rows rows Hne H).
  apply (read_record ["id"; "name"; "email"; "status"; "email_verified"; "created_at"] _ []); [|done].
  repeat (constructor; [by apply plain_reads|]). constructor.
Qed.
End export_spec.

Definition awkward_row : Signup :=
  mkSignup "a" ("Doe, " +:+ String quote ("Ann" +:+ String quote (String line_feed ""))) "ann@example.org" None
    pending true None None 0 None None.

Lemma export_reads_back_witness :
  read_csv field_start "" [] (csv_export (Plat := routes_platform) [awkward_row; awkward_row]) =
  ["id"; "name"; "email"; "status"; "email_verified"; "created_at"] ::
  map (csv_fields (Plat := routes_platform)) [awkward_row; awkward_row].
Proof.
  apply (export_reads_back (Plat := routes_platform) [awkward_row; awkward_row]); [discriminate|].
  repeat (constructor; [split; reflexivity|]). constructor.
Defined.
