(* ===== verification/Dispatcher.v ===== *)
(** * The RTMP relay (runtime/rtmp/dispatcher.ts)

    A publisher that connects to the gateway is matched with its live stream; the session
    of the stream is claimed, and a relay process copies the publisher's stream to the
    runner.  The dispatcher keeps its relays in two maps and a set; a handler of an event
    runs up to its next [await], and other events are handled in between: [publish_job] is
    what a handler waits for. *)

From S2P Require Import Prelude Js Types Wire Http Interfaces Database OperationRepo Samples.
From S2P Require Import OperationLease MediaRepos Directory SessionStore.
From Stdlib Require Import Ascii.
Open Scope Z_scope.

(** ** Deciding *)

(** The text before the first slash and the text after it. *)
Fixpoint until_slash (s : string) : option (string * string) :=
  match s with
  | EmptyString => None
  | String "/" s' => Some (EmptyString, s')
  | String c s' => match until_slash s' with Some (a, b) => Some (String c a, b) | None => None end
  end.
(** [/^\/([^/]+)\/([^/]+)$/] *)
Definition STREAM_PATH_RE (path : string) : option (string * string) :=
  match path with
  | String "/" rest =>
      match until_slash rest with
      | Some (app, key) =>
          if nonempty app && nonempty key && negb (is_present (until_slash key)) then Some (app, key) else None
      | None => None
      end
  | _ => None
  end.

Record Accept := mkAccept {
  ac_streamId : string;
  ac_targetUrl : string;
  ac_owned : OwnedPaidSession;
  ac_relayGeneration : Z
}.
Record DispatchResult := mkDispatch {
  dr_parsed : bool;
  dr_reject : option string;
  dr_accept : option Accept
}.
Definition rejected_ (parsed : bool) (reason : string) : DispatchResult := mkDispatch parsed (Some reason) None.

Record lookups := mkLookups {
  lk_byStreamKeyHash : string -> W (option (string * string));
  lk_claimByLiveStreamId : string -> W (option OwnedPaidSession);
  lk_readSecrets : OwnedPaidSession -> W (option PaidOperationSecrets);
  lk_release : OwnedPaidSession -> W bool
}.

Section dispatcher.
Context `{Env : Environment} {Plat : Platform} (options : PaidSessionStoreOptions).

Definition hashStreamKey (streamKey : string) : string := sha256_hex streamKey.

Definition relay_generation (operation : PaidOperation) : Z :=
  match op_sessionRuntime operation with Some rt => rt_relayGeneration rt | None => 0 end.

(** The expression has no empty segments, so the check for them never refuses. *)
Definition decideDispatch (streamPath expectedApp : string) (l : lookups) : W DispatchResult :=
  match STREAM_PATH_RE streamPath with
  | None => mret_ (rejected_ false "stream_path_unparseable")
  | Some (app, streamKey) =>
      if app !=? expectedApp then mret_ (rejected_ true "unknown_app")
      else
        do! found <- lk_byStreamKeyHash l (hashStreamKey streamKey);
        match found with
        | None => mret_ (rejected_ true "stream_not_found")
        | Some (id, status) =>
            if (status ==? "ended") || (status ==? "errored") then mret_ (rejected_ true ("stream_" +:+ status))
            else
              do! claimed <- lk_claimByLiveStreamId l id;
              match claimed with
              | None => mret_ (rejected_ true "session_claim_unavailable")
              | Some owned =>
                  do! secrets <- lk_readSecrets l owned;
                  let url := match secrets with Some s => sec_runnerIngestUrl s ?? "" | None => "" end in
                  let key := match secrets with Some s => sec_runnerIngestKey s ?? "" | None => "" end in
                  if negb (nonempty url) || negb (nonempty key)
                  then do! _ <- lk_release l owned; mret_ (rejected_ true "runner_ingest_missing")
                  else mret_ (mkDispatch true None (Some (mkAccept id (strip_slash url +:+ "/" +:+ key) owned
                                (relay_generation (ow_operation owned) + 1))))
              end
        end
  end.

Definition store_lookups : lookups := mkLookups
  (fun hash => query_read (fun d => (fun s => (ls_id s, ls_status s)) <$> LiveStreams.byStreamKeyHash hash d))
  (store_claimByLiveStreamId options) store_readSecrets store_release.

(** ** Recording the relay's state *)

Definition persistRelayState (streamId : string) (relayStatus : RelayStatus) (status : string)
    (relayGeneration : option Z) (relayDisconnectedAt : option string) : W bool :=
  do! claimed <- store_claimByLiveStreamId options streamId;
  match claimed with
  | None => mret_ false
  | Some o =>
      match op_sessionRuntime (ow_operation o) with
      | None => mret_ false
      | Some rt =>
          do! progressed <- store_recordProgress options o ((progress status)
            <| pr_sessionRuntime := Some (rt <| rt_relayStatus := relayStatus |>
                 <| rt_relayGeneration := relayGeneration ?? rt_relayGeneration rt |>
                 <| rt_relayDisconnectedAt := relayDisconnectedAt |>) |>);
          match progressed with
          | None => mret_ false
          | Some p => do! _ <- store_release p; mret_ true
          end
      end
  end.

Definition last_seen (at_ : Z) : LiveStreams.fields := LiveStreams.mkFields None None None None None None None (Some at_) None.

Definition scheduleAuthoritativeReconcile (streamId : string) (relayStatus : RelayStatus) : W unit :=
  do! now <- now_;
  do! scheduled <- persistRelayState streamId relayStatus "reconcile_pending" None (Some (toISOString now));
  if negb scheduled then mret_ tt
  else do! seen <- now_; query (fun _ => LiveStreams.updateStatus streamId "reconnecting" (last_seen seen)).

(** ** The relays *)

(** The object that the handlers of a relay share, with its process. *)
Record ActiveRelay := mkRelay {
  ar_streamId : string;
  ar_session : string;
  ar_targetUrl : string;
  ar_intentionalStop : bool;
  ar_running : bool
}.
#[export] Instance ActiveRelay_eta : RecEta ActiveRelay := fun r =>
  mkRelay (ar_streamId r) (ar_session r) (ar_targetUrl r) (ar_intentionalStop r) (ar_running r).

(** Relay objects are numbered in the order they are made. *)
Record relays := mkRelays {
  rl_heap : list ActiveRelay;
  rl_activeByNmsSession : gmap string nat;
  rl_activeByStream : gmap string string;
  rl_pendingPaths : gset string;
  rl_destroyed : list string
}.
#[export] Instance relays_eta : RecEta relays := fun r =>
  mkRelays (rl_heap r) (rl_activeByNmsSession r) (rl_activeByStream r) (rl_pendingPaths r) (rl_destroyed r).
Definition no_relays : relays := mkRelays [] ∅ ∅ ∅ [].

(** What a handler waits for. *)
Inductive publish_job : Type :=
| Deciding
| Refusing (a : Accept)
| Starting (a : Accept)
| Releasing (a : Accept) (starting : OwnedPaidSession)
| Persisting (a : Accept)
| Updating (a : Accept).
Inductive task : Type :=
| Publishing (session_ path : string) (j : publish_job)
| Reconciling (streamId : string) (relayStatus : RelayStatus).

Record dispatcher := mkDispatcher {
  dp_world : world;
  dp_relays : relays;
  dp_tasks : list task
}.
#[export] Instance dispatcher_eta : RecEta dispatcher := fun s =>
  mkDispatcher (dp_world s) (dp_relays s) (dp_tasks s).

Context (expectedApp : string).

Definition destroy (session_ : string) (r : relays) : relays := r <| rl_destroyed := rl_destroyed r ++ [session_] |>.
(** [finally] *)
Definition unpend (path : string) (r : relays) : relays :=
  r <| rl_pendingPaths := rl_pendingPaths r ∖ {[path]} |>.

(** The spawn and the entries made with it. *)
Definition spawn_relay (session_ : string) (a : Accept) (r : relays) : relays :=
  r <| rl_heap := rl_heap r ++ [mkRelay (ac_streamId a) session_ (ac_targetUrl a) false true] |>
    <| rl_activeByNmsSession := <[session_ := length (rl_heap r)]> (rl_activeByNmsSession r) |>
    <| rl_activeByStream := <[ac_streamId a := session_]> (rl_activeByStream r) |>.

(** The runtime that is spread is never absent: [claimFor] refuses an operation without
    one, so no accepted session lacks it. *)
Definition starting_progress (a : Accept) : PaidOperationProgress :=
  (progress "relay_starting")
    <| pr_sessionRuntime := (fun rt => rt <| rt_relayStatus := relay_starting |>
         <| rt_relayGeneration := ac_relayGeneration a |>) <$> op_sessionRuntime (ow_operation (ac_owned a)) |>.

(** One awaited call of a publication and the code up to the next one; the outcome says
    where the handler goes on, [None] where it returns. *)
Definition publish_step (session_ path : string) (j : publish_job) (r : relays) : W (option publish_job * relays) :=
  match j with
  | Deciding =>
      do! decision <- decideDispatch path expectedApp store_lookups;
      mret_ (match dr_reject decision, dr_accept decision with
             | None, Some a => if is_present (rl_activeByStream r !! ac_streamId a) then (Some (Refusing a), r)
                               else (Some (Starting a), r)
             | _, _ => (None, destroy session_ r)
             end)
  | Refusing a => do! _ <- store_release (ac_owned a); mret_ (None, destroy session_ r)
  | Starting a =>
      do! starting <- store_recordProgress options (ac_owned a) (starting_progress a);
      match starting with
      | None => mthrow (PlainError "relay lifecycle fence lost")
      | Some s => mret_ (Some (Releasing a s), r)
      end
  | Releasing a s => do! _ <- store_release s; mret_ (Some (Persisting a), spawn_relay session_ a r)
  | Persisting a =>
      do! _ <- persistRelayState (ac_streamId a) relay_active "active" (Some (ac_relayGeneration a)) None;
      mret_ (Some (Updating a), r)
  | Updating a =>
      do! now <- now_;
      do! _ <- query (fun _ => LiveStreams.updateStatus (ac_streamId a) "active" (last_seen now));
      mret_ (None, r)
  end.

(** A task after its call: where it goes on, and the relays.  A publication that fails
    destroys the publisher's socket; a failed reconciliation is nobody's to handle. *)
Definition run_task (t : task) (w : world) (r : relays) : option task * world * relays :=
  match t with
  | Publishing session_ path j =>
      match publish_step session_ path j r w with
      | (Ok (Some j', r'), w') => (Some (Publishing session_ path j'), w', r')
      | (Ok (None, r'), w') => (None, w', unpend path r')
      | (Err _, w') => (None, w', unpend path (destroy session_ r))
      end
  | Reconciling streamId relayStatus => (None, snd (scheduleAuthoritativeReconcile streamId relayStatus w), r)
  end.

(** ** Events *)

Inductive dispatch_event : Type :=
| PostPublish (session_ path : string)
| DonePublish (session_ : string)
| ChildError (relay : nat)
| ChildExit (relay : nat)
| Await (task_ : nat).

(** [nms.on("postPublish")], up to the first [await]. *)
Definition postPublish (session_ path : string) (s : dispatcher) : dispatcher :=
  let r := dp_relays s in
  if bool_decide (path ∈ rl_pendingPaths r) then s <| dp_relays := destroy session_ r |>
  else s <| dp_relays := r <| rl_pendingPaths := rl_pendingPaths r ∪ {[path]} |> |>
         <| dp_tasks := dp_tasks s ++ [Publishing session_ path Deciding] |>.

Definition stop_relay (i : nat) (r : relays) : relays :=
  r <| rl_heap := alter (fun x => x <| ar_intentionalStop := true |>) i (rl_heap r) |>.

(** [nms.on("donePublish")]: the relay is told to end. *)
Definition donePublish (session_ : string) (s : dispatcher) : dispatcher :=
  let r := dp_relays s in
  match rl_activeByNmsSession r !! session_ with
  | None => s
  | Some i =>
      match rl_heap r !! i with
      | None => s
      | Some relay =>
          s <| dp_relays := (stop_relay i r)
                 <| rl_activeByNmsSession := delete session_ (rl_activeByNmsSession r) |>
                 <| rl_activeByStream := delete (ar_streamId relay) (rl_activeByStream r) |> |>
            <| dp_tasks := dp_tasks s ++ [Reconciling (ar_streamId relay) relay_reconnecting] |>
      end
  end.

(** [child.on("error")] *)
Definition child_error (i : nat) (s : dispatcher) : dispatcher :=
  match rl_heap (dp_relays s) !! i with
  | None => s
  | Some relay => s <| dp_tasks := dp_tasks s ++ [Reconciling (ar_streamId relay) relay_failed] |>
  end.

(** [child.on("exit")] *)
Definition child_exit (i : nat) (s : dispatcher) : dispatcher :=
  let r := dp_relays s in
  match rl_heap r !! i with
  | None => s
  | Some relay =>
      s <| dp_relays := r <| rl_heap := alter (fun x => x <| ar_running := false |>) i (rl_heap r) |>
             <| rl_activeByNmsSession := delete (ar_session relay) (rl_activeByNmsSession r) |>
             <| rl_activeByStream := delete (ar_streamId relay) (rl_activeByStream r) |> |>
        <| dp_tasks := dp_tasks s ++ (if ar_intentionalStop relay then []
                                      else [Reconciling (ar_streamId relay) relay_failed]) |>
  end.

Definition await_task (n : nat) (s : dispatcher) : dispatcher :=
  match dp_tasks s !! n with
  | None => s
  | Some t =>
      let '(next, w, r) := run_task t (dp_world s) (dp_relays s) in
      mkDispatcher w r (match next with
                        | Some t' => <[n := t']> (dp_tasks s)
                        | None => delete n (dp_tasks s)
                        end)
  end.

Definition handle (e : dispatch_event) : dispatcher -> dispatcher :=
  match e with
  | PostPublish session_ path => postPublish session_ path
  | DonePublish session_ => donePublish session_
  | ChildError i => child_error i
  | ChildExit i => child_exit i
  | Await n => await_task n
  end.
Definition handle_all (l : list dispatch_event) (s : dispatcher) : dispatcher := foldl (fun s e => handle e s) s l.

(** [stop] *)
Definition stop (s : dispatcher) : dispatcher :=
  let r := dp_relays s in
  s <| dp_relays := mkRelays
         (imap (fun i x => if bool_decide (i ∈ (map_to_list (rl_activeByNmsSession r)).*2)
                           then x <| ar_intentionalStop := true |> else x) (rl_heap r))
         ∅ ∅ ∅ (rl_destroyed r) |>.
End dispatcher.
