(* ===== verification/DispatcherSpec.v ===== *)
(** * One relay per stream

    What the RTMP dispatcher promises: a publisher is accepted only with the key of a
    stream whose session this instance has claimed, and a stream has at most one relay
    that was not told to end.  The second holds as long as the exit of a relay that was
    told to end is seen before the next publisher's relay starts; a history in which it is
    seen later ends with two relays. *)

From S2P Require Import Prelude Js Types Wire Http Interfaces Database OperationRepo Samples.
From S2P Require Import OperationLease MediaRepos Directory SessionStore Preserve LocClientSpec SampleNet SampleWorld Dispatcher.
From Stdlib Require Import Ascii.
Open Scope Z_scope.

(** ** Paths *)

Lemma until_slash_spec s a b : until_slash s = Some (a, b) -> s = a +:+ String "/" b.
Proof.
  revert a b. induction s as [|c s IH]; intros a b; [done|]. cbn [until_slash].
  destruct (decide (c = "/"%char)) as [->|Hc]; [by intros [= <- <-]|].
  assert (match until_slash s with Some (a, b) => Some (String c a, b) | None => None end = Some (a, b) ->
          String c s = a +:+ String "/" b) as H.
  { destruct (until_slash s) as [[a' b']|]; [|done]. intros [= <- <-].
    change (String c a' +:+ String "/" b') with (String c (a' +:+ String "/" b')). f_equal. by apply IH. }
  destruct c as [[] [] [] [] [] [] [] []]; try exact H. by destruct Hc.
Qed.

Lemma stream_path_spec path app key : STREAM_PATH_RE path = Some (app, key) -> path = "/" +:+ app +:+ String "/" key.
Proof.
  unfold STREAM_PATH_RE. destruct path as [|c rest]; [done|].
  destruct (decide (c = "/"%char)) as [->|Hc].
  - destruct (until_slash rest) as [[a k]|] eqn:E; [|done]. destruct (_ && _); [|done]. intros [= <- <-].
    by rewrite (until_slash_spec _ _ _ E).
  - destruct c as [[] [] [] [] [] [] [] []]; done || (by destruct Hc).
Qed.

(** ** Positions of a list whose keys differ *)

Lemma keys_differ {A B} (f : A -> option B) (l : list A) (n m : nat) x y k :
  NoDup (omap f l) -> l !! n = Some x -> l !! m = Some y -> f x = Some k -> f y = Some k -> n = m.
Proof.
  revert n m. induction l as [|z l IH]; intros n m Hnd Hn Hm Hx Hy; [done|].
  assert (Htail : forall i w, l !! i = Some w -> f w = Some k -> k ∈ omap f l).
  { intros i w Hi Hw. apply list_elem_of_omap. exists w. split; [by eapply list_elem_of_lookup_2|done]. }
  cbn [omap list_omap] in Hnd. destruct n as [|n], m as [|m]; cbn in Hn, Hm; simplify_eq.
  - done.
  - rewrite Hx in Hnd. apply NoDup_cons in Hnd as [Hni _]. destruct Hni. eauto.
  - rewrite Hy in Hnd. apply NoDup_cons in Hnd as [Hni _]. destruct Hni. eauto.
  - f_equal. apply IH; try done. destruct (f z); [by apply NoDup_cons in Hnd as [_ ?]|done].
Qed.

Lemma omap_update {A B} (f : A -> option B) (l : list A) (n : nat) x y :
  l !! n = Some x -> f y = f x -> omap f (<[n := y]> l) = omap f l.
Proof.
  revert n. induction l as [|z l IH]; intros n Hn Hf; [done|]. destruct n as [|n]; cbn in Hn |- *.
  - injection Hn as ->. by rewrite Hf.
  - by rewrite IH.
Qed.
Lemma omap_delete_sublist {A B} (f : A -> option B) (l : list A) (n : nat) : omap f (delete n l) `sublist_of` omap f l.
Proof.
  revert n. induction l as [|z l IH]; intros n; [done|]. destruct n as [|n]; cbn.
  - destruct (f z); [by constructor|done].
  - destruct (f z); [by constructor|done].
Qed.

Section spec.
Context `{Env : Environment} {Plat : Platform} (options : PaidSessionStoreOptions) (expectedApp : string).

(** The hash of each stream's key is fixed: no statement changes it, and different keys
    have different hashes. *)
Context (key_hash : string -> option string).
Definition bound (d : db) : Prop :=
  forall id r, db_live_streams d !! id = Some r -> ls_id r = id /\ key_hash id = Some (ls_streamKeyHash r).
Hypothesis others_bound : forall n d, bound d -> bound (others n d).
Hypothesis no_collision : forall k1 k2, sha256_hex k1 = sha256_hex k2 -> k1 = k2.

#[local] Instance bound_media : MediaProperty bound.
Proof. intros d d' (Hs & _) Hb id r. rewrite Hs. apply Hb. Qed.
Lemma status_streams id status f d o d' : LiveStreams.updateStatus id status f d = Ok (o, d') -> bound d -> bound d'.
Proof.
  intros [= _ <-] Hb id' r. cbn. unfold update_by_id. destruct (db_live_streams d !! id) as [r0|] eqn:E; [|apply Hb].
  destruct (decide (id = id')) as [<-|Hne].
  - rewrite lookup_insert_eq. intros [= <-]. cbn. by apply Hb.
  - rewrite lookup_insert_ne by done. apply Hb.
Qed.
Lemma bound_status id status f : preserves w_db bound (query (fun _ => LiveStreams.updateStatus id status f)).
Proof. apply preserves_query; [done|]. intros n d o d'. apply status_streams. Qed.

Lemma bound_decide path : preserves w_db bound (decideDispatch path expectedApp (store_lookups options)).
Proof.
  unfold decideDispatch. destruct (STREAM_PATH_RE path) as [[app key]|]; [|apply preserves_ret].
  cbn [lk_byStreamKeyHash lk_claimByLiveStreamId lk_readSecrets lk_release store_lookups]. preserving.
Qed.
Lemma bound_persist id rs status g at_ : preserves w_db bound (persistRelayState options id rs status g at_).
Proof. unfold persistRelayState. preserving. Qed.
Lemma bound_reconcile id rs : preserves w_db bound (scheduleAuthoritativeReconcile options id rs).
Proof. unfold scheduleAuthoritativeReconcile. preserving; [apply bound_persist|apply bound_status]. Qed.
Lemma bound_publish_step sid path j r : preserves w_db bound (publish_step options expectedApp sid path j r).
Proof. destruct j; cbn [publish_step]; preserving; [apply bound_decide|apply bound_persist|apply bound_status]. Qed.
Lemma bound_run_task t w r : bound (w_db w) -> bound (w_db (snd (fst (run_task options expectedApp t w r)))).
Proof.
  intros Hw. destruct t as [sid path j|id rs]; cbn [run_task].
  - pose proof (bound_publish_step sid path j r w Hw) as H. destruct (publish_step _ _ _ _ _ _ _) as [[[[j'|] r']|e] w']; done.
  - by apply bound_reconcile.
Qed.

(** The key in the path is that of the stream. *)
Definition key_of (path streamId : string) : Prop :=
  exists key, STREAM_PATH_RE path = Some (expectedApp, key) /\ key_hash streamId = Some (sha256_hex key).

Lemma key_of_unique p1 p2 id : key_of p1 id -> key_of p2 id -> p1 = p2.
Proof.
  intros (k1 & H1 & Hh1) (k2 & H2 & Hh2). assert (k1 = k2) as <- by (apply no_collision; congruence).
  by rewrite (stream_path_spec _ _ _ H1), (stream_path_spec _ _ _ H2).
Qed.

Lemma decide_key path w res w' a :
  bound (w_db w) -> decideDispatch path expectedApp (store_lookups options) w = (Ok res, w') ->
  dr_accept res = Some a -> key_of path (ac_streamId a).
Proof.
  intros Hw H Ha. unfold decideDispatch in H. unfold key_of.
  destruct (STREAM_PATH_RE path) as [[app key]|]; [|by injection H as <- <-].
  case_bool_decide; cbn [negb] in H; [|by injection H as <- <-]. subst app. exists key. split; [done|].
  cbn [lk_byStreamKeyHash lk_claimByLiveStreamId lk_readSecrets lk_release store_lookups] in H.
  apply mbind_Ok in H as (found & w1 & Hf & H). injection Hf as Hf _.
  destruct found as [[id status]|]; [|by injection H as <- <-].
  apply fmap_Some in Hf as (row & Hrow & [= -> ->]). apply head_elem_of, elem_of_rows_where in Hrow as [Hp (id' & Hin)].
  bools. destruct (others_bound (w_tick w) _ Hw _ _ Hin) as [Hid Hh].
  destruct (_ || _); [by injection H as <- <-|]. apply mbind_Ok in H as (claimed & w2 & _ & H).
  destruct claimed as [o|]; [|by injection H as <- <-]. apply mbind_Ok in H as (sec & w3 & _ & H).
  destruct (negb _ || negb _); [by apply mbind_Ok in H as (b & w4 & _ & [= <- <-])|]. injection H as <- <-.
  cbn in Ha. injection Ha as <-. cbn. rewrite Hid, Hh. by f_equal.
Qed.

(** ** The invariant *)

Definition path_of (t : task) : option string := match t with Publishing _ p _ => Some p | _ => None end.
Definition session_of (t : task) : option string := match t with Publishing s _ _ => Some s | _ => None end.
Definition accept_of (j : publish_job) : option Accept :=
  match j with
  | Deciding => None
  | Refusing a | Starting a | Releasing a _ | Persisting a | Updating a => Some a
  end.
(** The handler has not reached its spawn, and its stream was free. *)
Definition before_spawn (j : publish_job) : bool :=
  match j with Persisting _ | Updating _ => false | _ => true end.
Definition reserved (j : publish_job) : bool :=
  match j with Starting _ | Releasing _ _ => true | _ => false end.
(** A relay that copies a stream and was not told to end. *)
Definition copying (r : ActiveRelay) : bool := ar_running r && negb (ar_intentionalStop r).

Definition task_ok (seen : gset string) (r : relays) (t : task) : Prop :=
  match t with
  | Reconciling _ _ => True
  | Publishing sid p j =>
      p ∈ rl_pendingPaths r /\ sid ∈ seen /\
      (before_spawn j = true -> forall i x, rl_heap r !! i = Some x -> ar_session x <> sid) /\
      (forall a, accept_of j = Some a -> key_of p (ac_streamId a)) /\
      (forall a, reserved j = true -> accept_of j = Some a -> rl_activeByStream r !! ac_streamId a = None)
  end.
Record tasks_ok (seen : gset string) (r : relays) (l : list task) : Prop := {
  tk_paths : NoDup (omap path_of l);
  tk_sessions : NoDup (omap session_of l);
  tk_each : Forall (task_ok seen r) l
}.

Record relays_ok (seen : gset string) (r : relays) : Prop := {
  rk_seen : forall i x, rl_heap r !! i = Some x -> ar_session x ∈ seen;
  rk_sessions : forall i j x y, rl_heap r !! i = Some x -> rl_heap r !! j = Some y ->
    ar_session x = ar_session y -> i = j;
  rk_registered : forall sid i, rl_activeByNmsSession r !! sid = Some i -> exists x,
    rl_heap r !! i = Some x /\ ar_session x = sid /\ copying x = true /\
    rl_activeByStream r !! ar_streamId x = Some sid;
  rk_stream : forall id sid, rl_activeByStream r !! id = Some sid -> exists i x,
    rl_activeByNmsSession r !! sid = Some i /\ rl_heap r !! i = Some x /\ ar_streamId x = id;
  rk_copying : forall i x, rl_heap r !! i = Some x -> copying x = true ->
    rl_activeByNmsSession r !! ar_session x = Some i
}.

Record dispatch_ok (seen : gset string) (s : dispatcher) : Prop := {
  do_bound : bound (w_db (dp_world s));
  do_relays : relays_ok seen (dp_relays s);
  do_tasks : tasks_ok seen (dp_relays s) (dp_tasks s)
}.

Lemma path_differs l n m sid sid' p p' j j' :
  NoDup (omap path_of l) -> l !! n = Some (Publishing sid p j) -> l !! m = Some (Publishing sid' p' j') ->
  n <> m -> p <> p'.
Proof. intros Hnd Hn Hm Hne <-. by destruct Hne; eapply (keys_differ path_of). Qed.
Lemma session_differs l n m sid sid' p p' j j' :
  NoDup (omap session_of l) -> l !! n = Some (Publishing sid p j) -> l !! m = Some (Publishing sid' p' j') ->
  n <> m -> sid <> sid'.
Proof. intros Hnd Hn Hm Hne <-. by destruct Hne; eapply (keys_differ session_of). Qed.

Lemma delete_lookup {A} (l : list A) n m x : delete n l !! m = Some x -> exists k, k <> n /\ l !! k = Some x.
Proof.
  intros H. destruct (decide (m < n)%nat) as [Hlt|Hge].
  - rewrite list_lookup_delete_lt in H by done. exists m. split; [lia|done].
  - rewrite list_lookup_delete_ge in H by lia. exists (S m). split; [lia|done].
Qed.

(** The tasks go on when the relays change as an event of another handler changes them. *)
Lemma task_ok_kept seen seen' r r' t :
  task_ok seen r t -> seen ⊆ seen' ->
  (forall p, path_of t = Some p -> p ∈ rl_pendingPaths r -> p ∈ rl_pendingPaths r') ->
  (forall i x', rl_heap r' !! i = Some x' -> exists x, rl_heap r !! i = Some x /\ ar_session x = ar_session x') ->
  (forall id, rl_activeByStream r !! id = None -> rl_activeByStream r' !! id = None) ->
  task_ok seen' r' t.
Proof.
  destruct t as [sid p j|id rs]; [|done]. intros (Hp & Hs & Hnew & Hkey & Hfree) Hseen Hpend Hheap Hstream.
  split_and!; [by apply Hpend|set_solver| |done|].
  - intros Hb i x' Hx'. destruct (Hheap _ _ Hx') as (x & Hx & <-). by apply (Hnew Hb i).
  - intros a Hr Ha. apply Hstream. by apply Hfree.
Qed.
Lemma tasks_kept seen seen' r r' l :
  tasks_ok seen r l -> seen ⊆ seen' -> rl_pendingPaths r ⊆ rl_pendingPaths r' ->
  (forall i x', rl_heap r' !! i = Some x' -> exists x, rl_heap r !! i = Some x /\ ar_session x = ar_session x') ->
  (forall id, rl_activeByStream r !! id = None -> rl_activeByStream r' !! id = None) ->
  tasks_ok seen' r' l.
Proof.
  intros [Hp Hs He] Hseen Hpend Hheap Hstream. split; [done|done|]. eapply Forall_impl; [exact He|].
  intros t Ht. eapply task_ok_kept; try done. set_solver.
Qed.
Lemma tasks_reconcile seen r l id rs : tasks_ok seen r l -> tasks_ok seen r (l ++ [Reconciling id rs]).
Proof.
  intros [Hp Hs He]. split; [by rewrite omap_app, app_nil_r|by rewrite omap_app, app_nil_r|].
  apply Forall_app. split; [done|by repeat constructor].
Qed.
Lemma tasks_update seen r l n sid p j j' :
  tasks_ok seen r l -> l !! n = Some (Publishing sid p j) -> task_ok seen r (Publishing sid p j') ->
  tasks_ok seen r (<[n := Publishing sid p j']> l).
Proof.
  intros [Hp Hs He] Hn Hj. split.
  - by rewrite (omap_update path_of _ _ _ _ Hn).
  - by rewrite (omap_update session_of _ _ _ _ Hn).
  - by apply Forall_insert.
Qed.
(** A handler that ends gives its path back. *)
Lemma tasks_end seen r l n sid p j ds :
  tasks_ok seen r l -> l !! n = Some (Publishing sid p j) ->
  tasks_ok seen (unpend p (r <| rl_destroyed := ds |>)) (delete n l).
Proof.
  intros [Hp Hs He] Hn. split.
  - eapply sublist_NoDup; [exact Hp|apply omap_delete_sublist].
  - eapply sublist_NoDup; [exact Hs|apply omap_delete_sublist].
  - apply Forall_lookup. intros m t Hm. apply delete_lookup in Hm as (k & Hk & Hm).
    rewrite Forall_lookup in He. eapply task_ok_kept; [by apply (He k)|done| | |done].
    + intros p' Hp' Hin. destruct t as [sid' p'' j''|]; [|done]. injection Hp' as <-.
      cbn. apply elem_of_difference. split; [done|]. rewrite elem_of_singleton.
      apply not_eq_sym. by eapply path_differs.
    + intros i x Hx. by exists x.
Qed.

(** ** Every event keeps the invariant *)

Lemma heap_alter (f : ActiveRelay -> ActiveRelay) (i : nat) (h : list ActiveRelay) (k : nat) x :
  (forall y, ar_session (f y) = ar_session y /\ ar_streamId (f y) = ar_streamId y) ->
  alter f i h !! k = Some x ->
  exists y, h !! k = Some y /\ ar_session y = ar_session x /\ ar_streamId y = ar_streamId x /\
    (k = i /\ x = f y \/ k <> i /\ x = y).
Proof.
  intros Hf. destruct (decide (k = i)) as [->|Hne].
  - rewrite list_lookup_alter_eq. intros (y & Hy & ->)%fmap_Some. exists y. destruct (Hf y). naive_solver.
  - rewrite list_lookup_alter_ne by done. intros Hx. exists x. naive_solver.
Qed.
Lemma heap_alter_eq (f : ActiveRelay -> ActiveRelay) (i : nat) (h : list ActiveRelay) x : h !! i = Some x -> alter f i h !! i = Some (f x).
Proof. intros Hx. by rewrite list_lookup_alter_eq, Hx. Qed.

(** The relay is registered, or neither its session nor its stream has an entry. *)
Definition linked_or_gone (r : relays) (i : nat) (x : ActiveRelay) : Prop :=
  rl_activeByNmsSession r !! ar_session x = Some i \/
  rl_activeByNmsSession r !! ar_session x = None /\ rl_activeByStream r !! ar_streamId x = None.

Definition unlink (f : ActiveRelay -> ActiveRelay) (i : nat) (x : ActiveRelay) (r : relays) : relays :=
  r <| rl_heap := alter f i (rl_heap r) |>
    <| rl_activeByNmsSession := delete (ar_session x) (rl_activeByNmsSession r) |>
    <| rl_activeByStream := delete (ar_streamId x) (rl_activeByStream r) |>.

Lemma unlink_relays_ok seen r f i x :
  relays_ok seen r -> rl_heap r !! i = Some x -> linked_or_gone r i x ->
  (forall y, ar_session (f y) = ar_session y /\ ar_streamId (f y) = ar_streamId y) ->
  (forall y, copying (f y) = false) ->
  relays_ok seen (unlink f i x r).
Proof.
  intros [Hseen Hsess Hreg Hstr Hcop] Hx Hlink Hf Hcf. split; unfold unlink; cbn -[lookup delete alter copying].
  - intros k y (z & Hz & <- & _)%heap_alter; [|done]. eauto.
  - intros k l y y' (z & Hz & <- & _)%heap_alter (z' & Hz' & <- & _)%heap_alter Heq; [|done..]. eauto.
  - intros sid k (Hne & Hk)%lookup_delete_Some. destruct (Hreg _ _ Hk) as (y & Hy & Hys & Hyc & Hyb).
    assert (k <> i) by congruence. exists y. rewrite list_lookup_alter_ne by done. split_and!; try done.
    apply lookup_delete_Some. split; [|done]. intros Heq. rewrite <- Heq in Hyb.
    destruct Hlink as [Hl|[_ Hl]]; [|congruence]. destruct (Hreg _ _ Hl) as (x' & Hx' & _ & _ & Hb). congruence.
  - intros id sid (Hne & Hid)%lookup_delete_Some. destruct (Hstr _ _ Hid) as (k & y & Hk & Hy & Hyid).
    assert (k <> i) by congruence. exists k, y. rewrite list_lookup_alter_ne by done. split_and!; try done.
    apply lookup_delete_Some. split; [|done]. intros <-. destruct Hlink as [Hl|[Hl _]]; congruence.
  - intros k y (z & Hz & Hzs & _ & [[-> ->]|[Hne ->]])%heap_alter Hc; [by rewrite Hcf in Hc| |done].
    apply lookup_delete_Some. split; [|by apply Hcop]. intros Heq. destruct Hne. by eapply Hsess.
Qed.

Lemma unlink_tasks_ok seen r f i x l :
  tasks_ok seen r l -> (forall y, ar_session (f y) = ar_session y /\ ar_streamId (f y) = ar_streamId y) ->
  tasks_ok seen (unlink f i x r) l.
Proof.
  intros Ht Hf. eapply tasks_kept; [exact Ht|done|done| |].
  - intros k y (z & Hz & Hs & _)%heap_alter; [|done]. eauto.
  - intros id Hid. cbn. apply lookup_delete_None. by right.
Qed.

Lemma spawn_relays_ok seen r sid a :
  relays_ok seen r -> sid ∈ seen -> (forall i x, rl_heap r !! i = Some x -> ar_session x <> sid) ->
  rl_activeByStream r !! ac_streamId a = None -> relays_ok seen (spawn_relay sid a r).
Proof.
  intros [Hseen Hsess Hreg Hstr Hcop] Hsid Hnew Hfree.
  assert (Hlast : forall i x, (rl_heap r ++ [mkRelay (ac_streamId a) sid (ac_targetUrl a) false true]) !! i = Some x ->
            rl_heap r !! i = Some x \/ i = length (rl_heap r) /\ x = mkRelay (ac_streamId a) sid (ac_targetUrl a) false true).
  { intros i x [H|[Hle H]]%lookup_app_Some; [by left|]. apply list_lookup_singleton_Some in H as [H <-]. right.
    split; [lia|done]. }
  assert (Hold : forall i x, rl_heap r !! i = Some x ->
            (rl_heap r ++ [mkRelay (ac_streamId a) sid (ac_targetUrl a) false true]) !! i = Some x).
  { intros i x H. by apply lookup_app_l_Some. }
  assert (Hn : forall i, rl_activeByNmsSession r !! sid = Some i -> False).
  { intros i Hi. destruct (Hreg _ _ Hi) as (x & Hx & Hs & _). by apply (Hnew _ _ Hx). }
  split; unfold spawn_relay; cbn -[lookup insert copying app].
  - intros i x [H|[_ ->]]%Hlast; [eauto|done].
  - intros i j x y [Hi|[-> ->]]%Hlast [Hj|[-> ->]]%Hlast Heq; [by eapply Hsess| | |done].
    + by destruct (Hnew _ _ Hi).
    + by destruct (Hnew _ _ Hj).
  - intros s i [[<- <-]|[Hne Hi]]%lookup_insert_Some.
    + exists (mkRelay (ac_streamId a) sid (ac_targetUrl a) false true). split_and!; try done.
      * by rewrite list_lookup_middle.
      * by rewrite lookup_insert_eq.
    + destruct (Hreg _ _ Hi) as (x & Hx & Hs & Hc & Hb). exists x. split_and!; auto.
      rewrite lookup_insert_ne; [done|]. congruence.
  - intros id s [[<- <-]|[Hne Hid]]%lookup_insert_Some.
    + eexists _, _. split_and!; [by rewrite lookup_insert_eq|by rewrite list_lookup_middle|done].
    + destruct (Hstr _ _ Hid) as (i & x & Hi & Hx & Hxi). exists i, x. split_and!; auto.
      rewrite lookup_insert_ne; [done|]. intros <-. by eapply Hn.
  - intros i x [Hi|[-> ->]]%Hlast Hc; [|by rewrite lookup_insert_eq]. rewrite lookup_insert_ne; [by apply Hcop|].
    apply not_eq_sym. by apply (Hnew _ _ Hi).
Qed.

Lemma spawn_tasks_ok seen r l n sid p j a :
  tasks_ok seen r l -> l !! n = Some (Publishing sid p j) -> accept_of j = Some a ->
  tasks_ok seen (spawn_relay sid a r) (<[n := Publishing sid p (Persisting a)]> l).
Proof.
  intros [Hp Hs He] Hn Ha. rewrite Forall_lookup in He. destruct (He _ _ Hn) as (Hpend & Hsid & _ & Hkey & _). split.
  - by rewrite (omap_update path_of _ _ _ _ Hn).
  - by rewrite (omap_update session_of _ _ _ _ Hn).
  - apply Forall_lookup. intros m t Hm. destruct (decide (m = n)) as [->|Hne].
    + rewrite list_lookup_insert_eq in Hm by (by eapply lookup_lt_Some). injection Hm as <-.
      split_and!; [done|done|done| |done]. intros a' [= <-]. by apply Hkey.
    + rewrite list_lookup_insert_ne in Hm by done. specialize (He _ _ Hm). destruct t as [sid' p' j'|]; [|done].
      assert (sid <> sid') by (by eapply session_differs). assert (p <> p') by (by eapply path_differs).
      destruct He as (Hpend' & Hsid' & Hnew & Hkey' & Hfree). split_and!; [done|done| |done|].
      * intros Hb i x [H2|[_ H2]]%lookup_app_Some; [by apply (Hnew Hb i)|].
        by apply list_lookup_singleton_Some in H2 as [_ <-].
      * intros a' Hr Ha'. cbn. rewrite lookup_insert_ne; [by apply Hfree|]. intros Heq.
        assert (p = p') by (eapply (key_of_unique p p' (ac_streamId a)); [by apply Hkey|rewrite Heq; by apply Hkey']). done.
Qed.

Lemma publish_goes_on seen w r l n sid p j j' r' w' :
  bound (w_db w) -> relays_ok seen r -> tasks_ok seen r l -> l !! n = Some (Publishing sid p j) ->
  publish_step options expectedApp sid p j r w = (Ok (Some j', r'), w') ->
  relays_ok seen r' /\ tasks_ok seen r' (<[n := Publishing sid p j']> l).
Proof.
  intros Hb Hr Ht Hn H. pose proof (tk_each _ _ _ Ht) as He. rewrite Forall_lookup in He.
  destruct (He _ _ Hn) as (Hpend & Hsid & Hnew & Hkey & Hfree).
  destruct j as [|a|a|a st|a|a]; cbn [publish_step] in H.
  - apply mbind_Ok in H as (res & w1 & Hd & H). injection H as H <-.
    destruct (dr_reject res); [done|]. destruct (dr_accept res) as [a|] eqn:Ha; [|done].
    pose proof (decide_key _ _ _ _ _ Hb Hd Ha) as Hk.
    destruct (rl_activeByStream r !! ac_streamId a) eqn:Hs; injection H as <- <-; (split; [done|]);
      (eapply tasks_update; [done|exact Hn|]); split_and!; try done; naive_solver.
  - by apply mbind_Ok in H as (b & w1 & _ & [= ]).
  - apply mbind_Ok in H as (st & w1 & _ & H). destruct st as [st|]; [|done]. injection H as <- <- <-.
    split; [done|]. eapply tasks_update; [done|exact Hn|]. split_and!; try done.
  - apply mbind_Ok in H as (b & w1 & _ & [= <- <- <-]). split; [|by eapply spawn_tasks_ok].
    apply spawn_relays_ok; try done; [by apply Hnew|by apply Hfree].
  - apply mbind_Ok in H as (b & w1 & _ & [= <- <- <-]). split; [done|].
    eapply tasks_update; [done|exact Hn|]. split_and!; done.
  - apply mbind_Ok in H as (now & w1 & _ & H). by apply mbind_Ok in H as (u & w2 & _ & [= ]).
Qed.

Lemma publish_ends sid p j r w r' w' :
  publish_step options expectedApp sid p j r w = (Ok (None, r'), w') ->
  exists ds, r' = r <| rl_destroyed := ds |>.
Proof.
  intros H. assert (r = r <| rl_destroyed := rl_destroyed r |>) as Hr by (by destruct r).
  destruct j as [|a|a|a st|a|a]; cbn [publish_step] in H; apply mbind_Ok in H as (res & w1 & _ & H).
  - injection H as H _. destruct (dr_reject res); [injection H as <-; by eexists|].
    destruct (dr_accept res) as [a|]; [|injection H as <-; by eexists]. by destruct (is_present _).
  - injection H as <- _. by eexists.
  - by destruct res.
  - done.
  - done.
  - apply mbind_Ok in H as (u & w2 & _ & [= <- _]). by eexists.
Qed.

Lemma destroyed_relays_ok seen r p ds : relays_ok seen r -> relays_ok seen (unpend p (r <| rl_destroyed := ds |>)).
Proof. by intros [H1 H2 H3 H4 H5]. Qed.

Lemma await_ok seen s n : dispatch_ok seen s -> dispatch_ok seen (await_task options expectedApp n s).
Proof.
  intros [Hb Hr Ht]. unfold await_task. destruct (dp_tasks s !! n) as [t|] eqn:Hn; [|done].
  pose proof (bound_run_task t _ (dp_relays s) Hb) as Hb'. destruct (run_task _ _ t _ _) as [[next w'] r'] eqn:E.
  cbn in Hb'. destruct t as [sid p j|id rs]; cbn [run_task] in E.
  - destruct (publish_step _ _ _ _ _ _ _) as [[[[j'|] r1]|e] w1] eqn:Es; injection E as <- <- <-.
    + destruct (publish_goes_on _ _ _ _ _ _ _ _ _ _ _ Hb Hr Ht Hn Es). by split.
    + apply publish_ends in Es as [ds ->]. split; [done|by apply destroyed_relays_ok|by eapply tasks_end].
    + split; [done|by apply destroyed_relays_ok|by eapply tasks_end].
  - injection E as <- <- <-. split; [done|done|]. destruct Ht as [H1 H2 H3]. split.
    + eapply sublist_NoDup; [exact H1|apply omap_delete_sublist].
    + eapply sublist_NoDup; [exact H2|apply omap_delete_sublist].
    + apply Forall_lookup. intros m t Hm. apply delete_lookup in Hm as (k & _ & Hk). rewrite Forall_lookup in H3. by apply (H3 k).
Qed.

(** ** Histories *)

(** A connection publishes once; the exit of a relay is seen before another relay of its
    stream starts. *)
Definition admissible (seen : gset string) (s : dispatcher) (e : dispatch_event) : Prop :=
  match e with
  | PostPublish sid _ => sid ∉ seen
  | ChildExit i => forall x sid, rl_heap (dp_relays s) !! i = Some x ->
      rl_activeByStream (dp_relays s) !! ar_streamId x = Some sid -> sid = ar_session x
  | _ => True
  end.
Definition seen_after (seen : gset string) (e : dispatch_event) : gset string :=
  match e with PostPublish sid _ => seen ∪ {[sid]} | _ => seen end.
Fixpoint admissible_run (seen : gset string) (s : dispatcher) (l : list dispatch_event) : Prop :=
  match l with
  | [] => True
  | e :: l' => admissible seen s e /\ admissible_run (seen_after seen e) (handle options expectedApp e s) l'
  end.

Lemma post_ok seen s sid p :
  dispatch_ok seen s -> sid ∉ seen -> dispatch_ok (seen ∪ {[sid]}) (postPublish sid p s).
Proof.
  intros [Hb [H1 H2 H3 H4 H5] Ht] Hsid. unfold postPublish. case_bool_decide as Hp.
  - split; [done|split; try done; cbn; set_solver|]. eapply tasks_kept; [exact Ht|set_solver|done| |done].
    intros i x Hx. by exists x.
  - split; [done|split; try done; cbn; set_solver|]. pose proof Ht as [Hp1 Hs1 He].
    assert (Hnew : path_of (Publishing sid p Deciding) = Some p) by done. cbn. split.
    + rewrite omap_app. apply NoDup_app. split_and!; [done| |cbn; apply NoDup_singleton].
      intros q Hq Hq'. cbn in Hq'. apply list_elem_of_singleton in Hq' as ->. apply list_elem_of_omap in Hq as (t & Hin & Hq).
      rewrite Forall_forall in He. specialize (He _ Hin). destruct t; [|done]. injection Hq as ->. by destruct He.
    + rewrite omap_app. apply NoDup_app. split_and!; [done| |cbn; apply NoDup_singleton].
      intros q Hq Hq'. cbn in Hq'. apply list_elem_of_singleton in Hq' as ->. apply list_elem_of_omap in Hq as (t & Hin & Hq).
      rewrite Forall_forall in He. specialize (He _ Hin). destruct t; [|done]. injection Hq as ->. by destruct He as (_ & ? & _).
    + apply Forall_app. split.
      * eapply Forall_impl; [exact He|]. intros t Hte. eapply task_ok_kept; [exact Hte|set_solver|cbn; set_solver| |done].
        intros i x Hx. by exists x.
      * constructor; [|constructor]. split_and!; try done; cbn; [set_solver|set_solver|].
        intros _ i x Hx <-. by apply Hsid, (H1 i).
Qed.

Lemma handle_ok seen s e :
  dispatch_ok seen s -> admissible seen s e -> dispatch_ok (seen_after seen e) (handle options expectedApp e s).
Proof.
  intros Hok Ha. pose proof Hok as [Hb Hr Ht]. destruct e as [sid p|sid|i|i|n]; cbn [handle seen_after].
  - by apply post_ok.
  - unfold donePublish. destruct (rl_activeByNmsSession _ !! sid) as [i|] eqn:Hi; [|done].
    destruct (rk_registered _ _ Hr _ _ Hi) as (x & Hx & <- & Hc & Hs). rewrite Hx.
    split; [done| |]; cbn.
    + by apply (unlink_relays_ok seen _ (fun y => y <| ar_intentionalStop := true |>) i x Hr Hx (or_introl Hi));
        [|intros y; unfold copying; cbn; rewrite andb_false_r].
    + apply tasks_reconcile. by apply (unlink_tasks_ok seen _ (fun y => y <| ar_intentionalStop := true |>) i x).
  - unfold child_error. destruct (rl_heap _ !! i); [|done]. split; [done|done|]. by apply tasks_reconcile.
  - unfold child_exit. destruct (rl_heap _ !! i) as [x|] eqn:Hx; [|done].
    assert (linked_or_gone (dp_relays s) i x) as Hl.
    { unfold linked_or_gone. destruct (rl_activeByNmsSession _ !! ar_session x) as [k|] eqn:Hk.
      - left. destruct (rk_registered _ _ Hr _ _ Hk) as (y & Hy & Hys & _). by rewrite (rk_sessions _ _ Hr _ _ _ _ Hy Hx Hys).
      - right. split; [done|]. destruct (rl_activeByStream _ !! _) as [sid|] eqn:Hs; [|done].
        destruct (rk_stream _ _ Hr _ _ Hs) as (k & y & Hk' & _). rewrite (Ha x sid Hx Hs) in Hk'. congruence. }
    assert (tasks_ok seen (unlink (fun y => y <| ar_running := false |>) i x (dp_relays s)) (dp_tasks s)) as Ht'
      by (by apply unlink_tasks_ok).
    split; [done| |]; cbn.
    + by apply (unlink_relays_ok seen _ (fun y => y <| ar_running := false |>) i x Hr Hx Hl).
    + destruct (ar_intentionalStop x); [by rewrite app_nil_r|by apply tasks_reconcile].
  - by apply await_ok.
Qed.

Lemma run_ok l seen s :
  dispatch_ok seen s -> admissible_run seen s l -> exists seen', dispatch_ok seen' (handle_all options expectedApp l s).
Proof.
  revert seen s. induction l as [|e l IH]; intros seen s Hok; [by exists seen|]. intros [Ha Hrun].
  by apply (IH (seen_after seen e)); [apply handle_ok|].
Qed.

Lemma initial_ok w : bound (w_db w) -> dispatch_ok ∅ (mkDispatcher w no_relays []).
Proof. intros Hb. split; [done|split; intros; cbn in *; set_solver|split; by constructor]. Qed.

(** C17: a stream has one relay.  Whatever publishers connect and disconnect and however the
    handlers of their events interleave, with other instances working on the same tables,
    two relay processes that copy the same stream and were not told to end are the same
    process, provided a connection publishes once, keys do not collide, and the exit of a
    relay is seen before the next relay of its stream starts. *)
Theorem one_relay_per_stream w l :
  bound (w_db w) -> admissible_run ∅ (mkDispatcher w no_relays []) l ->
  let r := dp_relays (handle_all options expectedApp l (mkDispatcher w no_relays [])) in
  forall i j x y, rl_heap r !! i = Some x -> rl_heap r !! j = Some y ->
    copying x = true -> copying y = true -> ar_streamId x = ar_streamId y -> i = j.
Proof.
  intros Hb Hrun r i j x y Hx Hy Hcx Hcy Hs. subst r. destruct (run_ok l ∅ _ (initial_ok w Hb) Hrun) as [seen [_ Hr _]].
  pose proof (rk_copying _ _ Hr _ _ Hx Hcx) as Hi. pose proof (rk_copying _ _ Hr _ _ Hy Hcy) as Hj.
  destruct (rk_registered _ _ Hr _ _ Hi) as (x' & Hx' & _ & _ & Hbx).
  destruct (rk_registered _ _ Hr _ _ Hj) as (y' & Hy' & _ & _ & Hby). congruence.
Qed.
End spec.

(** ** Who is accepted *)

Section accepted.
Context `{Env : Environment} {Plat : Platform} (options : PaidSessionStoreOptions) (expectedApp : string).

Definition leased_session (streamId : string) (r : Row) (lease : Z) : Prop :=
  row_live_stream_id r = Some streamId /\ row_operation_kind r = session /\ row_terminal_at r = None /\
  row_recovery_owner r = Some (so_owner options) /\ row_recovery_lease_expires_at r = Some lease.

Lemma take_lease_session streamId lease now r :
  row_live_stream_id r = Some streamId -> row_operation_kind r = session -> row_terminal_at r = None ->
  leased_session streamId (take_lease (so_owner options) lease now r) lease.
Proof. by destruct r. Qed.
Lemma store_row_lookup r d d' : store_row r d = Ok d' -> db_paid_operations d' !! row_id r = Some r.
Proof. intros [_ ->]%store_row_inv. cbn. by rewrite lookup_insert_eq. Qed.

Lemma claim_statement locked streamId now l d op d' :
  claimSessionByLiveStreamId locked streamId (so_owner options) now l d = Ok (Some op, d') ->
  exists r lease, leased_session streamId r lease /\ op = rowToOperation r /\
    db_paid_operations d' !! row_id r = Some r.
Proof.
  unfold claimSessionByLiveStreamId. intros (_ & _ & H)%result_bind_Ok. apply guard_Ok in H as [_ H].
  destruct l as [lease|]; [|done]. destruct (head _) as [r|] eqn:Hh; [|done].
  apply head_order_desc in Hh as [Hh _]. apply elem_of_rows_where in Hh as [Hp _].
  apply result_bind_Ok in H as (d1 & Hst & H). injection H as <- <-.
  unfold claimable_session, not_terminal in Hp. bools.
  exists (take_lease (so_owner options) lease (db_now d) r), lease. split; [|split; [done|]].
  - apply take_lease_session; [done|done|]. by destruct (row_terminal_at r).
  - by eapply store_row_lookup.
Qed.

Lemma owned_claim r lease x :
  row_recovery_lease_expires_at r = Some lease -> owned (rowToOperation r) (so_owner options) = Ok x ->
  x = mkOwned (rowToOperation r) (mkClaim (so_owner options) (op_lifecycleVersion (rowToOperation r)) (DateMs lease)).
Proof.
  intros Hl. unfold owned, claimFor. intros (claim & Hcl & Ho)%result_bind_Ok. injection Ho as <-.
  apply guard_Ok in Hcl as [_ Hcl]. change (op_recoveryLeaseExpiresAt (rowToOperation r))
    with (row_recovery_lease_expires_at r) in Hcl. rewrite Hl in Hcl. by injection Hcl as <-.
Qed.

(** What a claim by stream gives: a row of that stream, leased to this instance. *)
Lemma claimed_session streamId w o w' :
  store_claimByLiveStreamId options streamId w = (Ok (Some o), w') ->
  exists r lease, leased_session streamId r lease /\ db_paid_operations (w_db w') !! row_id r = Some r /\
    o = mkOwned (rowToOperation r) (mkClaim (so_owner options) (op_lifecycleVersion (rowToOperation r)) (DateMs lease)).
Proof.
  unfold store_claimByLiveStreamId. intros H. apply mbind_Ok in H as (now & w0 & _ & H).
  apply mbind_Ok in H as (op & w1 & Hq & H). apply query_Ok in Hq as (d & _ & Hq).
  destruct op as [op|]; [|done]. apply claim_statement in Hq as (r & lease & Hr & -> & Hin).
  unfold own_opt in H. apply mbind_Ok in H as (x & w2 & Hown & H). injection H as <- <-.
  apply mlift_Ok in Hown as [Hown ->]. exists r, lease. split_and!; [done|done|].
  eapply (owned_claim r lease); [apply Hr|done].
Qed.

(** C18: a publisher is accepted only with a stream's key and its session.  When the
    dispatcher accepts a path, the path is the expected application with a key whose hash
    is that of a stream that has neither ended nor failed; the stream's session, not
    terminal, is leased to this instance, which holds the claim of that lease; the relay's
    target is made of the runner address and key that were read from the session's secrets
    under that claim, and its generation follows the last one. *)
Theorem accepted_publisher_holds_the_session path w res w' a :
  decideDispatch path expectedApp (store_lookups options) w = (Ok res, w') -> dr_accept res = Some a ->
  exists key d row d1 r lease d2 secrets url ingest,
    STREAM_PATH_RE path = Some (expectedApp, key) /\
    rtc repo_step (w_db w) d /\ (exists id, db_live_streams d !! id = Some row) /\
    ls_streamKeyHash row = sha256_hex key /\ ls_id row = ac_streamId a /\
    ls_status row <> "ended" /\ ls_status row <> "errored" /\
    rtc repo_step d d1 /\ db_paid_operations d1 !! row_id r = Some r /\
    leased_session (ac_streamId a) r lease /\ ac_owned a = mkOwned (rowToOperation r)
      (mkClaim (so_owner options) (op_lifecycleVersion (rowToOperation r)) (DateMs lease)) /\
    rtc repo_step d1 d2 /\
    readSecrets (row_id r) (ow_claim (ac_owned a)) d2 = Ok (Some secrets, d2) /\
    sec_runnerIngestUrl secrets = Some url /\ sec_runnerIngestKey secrets = Some ingest /\
    ac_targetUrl a = strip_slash url +:+ "/" +:+ ingest /\
    ac_relayGeneration a = relay_generation (rowToOperation r) + 1.
Proof.
  intros H Ha. unfold decideDispatch in H.
  destruct (STREAM_PATH_RE path) as [[app key]|]; [|by injection H as <- <-].
  case_bool_decide; cbn [negb] in H; [|by injection H as <- <-]. subst app.
  cbn [lk_byStreamKeyHash lk_claimByLiveStreamId lk_readSecrets lk_release store_lookups] in H.
  apply mbind_Ok in H as (found & w1 & Hf & H). apply query_Ok in Hf as (d & Hd & Hf). injection Hf as Hf Hw1.
  destruct found as [[id status]|]; [|by injection H as <- <-].
  apply fmap_Some in Hf as (row & Hrow & [= -> ->]). apply head_elem_of, elem_of_rows_where in Hrow as [Hp (id' & Hin)].
  destruct (_ || _) eqn:Hst; [by injection H as <- <-|]. apply mbind_Ok in H as (claimed & w2 & Hcl & H).
  destruct claimed as [o|]; [|by injection H as <- <-].
  pose proof (store_claimByLiveStreamId_acts options (ls_id row) w1 _ _ Hcl) as Hacts.
  apply claimed_session in Hcl as (r & lease & Hr & Hin2 & ->).
  apply mbind_Ok in H as (sec & w3 & Hsec & H). apply query_Ok in Hsec as (d2 & Hd2 & Hsec).
  destruct (negb _ || negb _) eqn:Hu; [by apply mbind_Ok in H as (b & w4 & _ & [= <- <-])|]. injection H as <- <-.
  cbn in Ha. injection Ha as <-. cbn. pose proof (readSecrets_pure _ _ _ _ _ Hsec) as Hpure. rewrite Hpure in Hsec.
  destruct sec as [secrets|]; [|done]. destruct (sec_runnerIngestUrl secrets) as [url|] eqn:Hurl; [|done].
  destruct (sec_runnerIngestKey secrets) as [ingest|] eqn:Hing; [|by rewrite orb_comm in Hu].
  bools. exists key, d, row, (w_db w2), r, lease, d2, secrets, url, ingest.
  subst d. split_and!; eauto.
Qed.
End accepted.

(** ** Two publishers in turn, and a third *)

Definition relay_platform : Platform := {|
  is_url := is_url; is_uuid := is_uuid; new_URL := new_URL; stringify := stringify; json_parse := json_parse;
  base64_text := base64_text; sha256_hex := String "h"; date_parse := date_parse; toISOString := toISOString;
  headers_valid := headers_valid; caller_publicKey := caller_publicKey; signAuthorization := signAuthorization
|}.
Definition relay_world : world := live_world (idle_db "active").
Definition publishes (session_ : string) : list dispatch_event :=
  PostPublish session_ "/live/ash" :: repeat (Await 0) 5.
Definition relayed (l : list dispatch_event) : dispatcher :=
  handle_all (Plat := relay_platform) sample_options "live" l (mkDispatcher relay_world no_relays []).
Definition copying_relays (s : dispatcher) : list (string * string) :=
  (fun x => (ar_streamId x, ar_session x)) <$> List.filter copying (rl_heap (dp_relays s)).

(** The second publisher follows the first; its relay is the only one. *)
Definition in_turn : list dispatch_event := publishes "A" ++ [DonePublish "A"; Await 0; ChildExit 0] ++ publishes "B".
Example in_turn_relays : copying_relays (relayed in_turn) = [("stream", "B")].
Proof. vm_compute. reflexivity. Qed.

(** A publisher that comes while another is served is refused. *)
Example second_refused : rl_destroyed (dp_relays (relayed (publishes "A" ++ publishes "B"))) = ["B"].
Proof. vm_compute. reflexivity. Qed.

(** The exit of the first relay is seen when the second is running: it takes the second's
    entry away, and a third publisher of the same stream is accepted. *)
Definition late_exit : list dispatch_event :=
  publishes "A" ++ [DonePublish "A"; Await 0] ++ publishes "B" ++ [ChildExit 0] ++ publishes "C".
Lemma late_exit_admits_a_second_relay :
  copying_relays (relayed late_exit) = [("stream", "B"); ("stream", "C")].
Proof. vm_compute. reflexivity. Qed.


Definition relay_keys (id : string) : option string := if id ==? "stream" then Some "hash" else None.
Lemma relay_bound : bound relay_keys (w_db relay_world).
Proof.
  intros id r Hr. change (db_live_streams (w_db relay_world)) with (db_live_streams (idle_db "active")) in Hr.
  assert (E : db_live_streams (idle_db "active") = {["stream" := sample_stream]}) by (vm_compute; reflexivity).
  rewrite E in Hr. apply lookup_singleton_Some in Hr as [<- <-]. clear E. split; reflexivity.
Qed.
Lemma relay_others n d : bound relay_keys d -> bound relay_keys (others (Environment := sample_env) n d).
Proof. intros H. exact H. Qed.
Lemma in_turn_admissible :
  admissible_run (Plat := relay_platform) sample_options "live" ∅ (mkDispatcher relay_world no_relays []) in_turn.
Proof.
  unfold in_turn, publishes. cbn [app repeat admissible_run].
  repeat (split; [first [exact I | cbn [admissible seen_after]]|]); [set_solver| |set_solver|exact I].
  intros x sid Hx. vm_compute in Hx. injection Hx as <-. vm_compute. discriminate.
Qed.

Lemma in_turn_second :
  match rl_heap (dp_relays (handle_all (Plat := relay_platform) sample_options "live" in_turn (mkDispatcher relay_world no_relays []))) !! 1%nat with
  | Some x => copying x && (ar_session x ==? "B") && (ar_streamId x ==? "stream")
  | None => false
  end = true.
Proof. vm_compute. reflexivity. Qed.

Lemma one_relay_per_stream_witness :
  exists x, rl_heap (dp_relays (handle_all (Plat := relay_platform) sample_options "live" in_turn (mkDispatcher relay_world no_relays []))) !! 1%nat = Some x /\ ar_session x = "B" /\
    forall j y, rl_heap (dp_relays (handle_all (Plat := relay_platform) sample_options "live" in_turn (mkDispatcher relay_world no_relays []))) !! j = Some y -> copying y = true ->
      ar_streamId y = "stream" -> j = 1%nat.
Proof.
  pose proof (one_relay_per_stream (Env := sample_env) (Plat := relay_platform) sample_options "live" relay_keys relay_others
    ltac:(intros k1 k2 [= ->]; reflexivity) relay_world in_turn relay_bound in_turn_admissible) as Hone.
  cbv zeta in Hone. pose proof in_turn_second as H. revert H Hone.
  generalize (rl_heap (dp_relays (handle_all (Plat := relay_platform) sample_options "live" in_turn
    (mkDispatcher relay_world no_relays [])))).
  intros heap H Hone. destruct (heap !! 1%nat) as [x|] eqn:E; [|discriminate H].
  apply andb_prop in H as [H H3]. apply andb_prop in H as [H1 H2].
  apply bool_decide_eq_true_1 in H2, H3. exists x. split; [reflexivity|]. split; [exact H2|]. intros j y Hy Hc Hs.
  apply (Hone j 1%nat y x Hy E Hc H1). congruence.
Defined.

Lemma relay_accepts :
  match decideDispatch (Plat := relay_platform) "/live/ash" "live" (store_lookups sample_options) relay_world with
  | (Ok res, _) => is_present (dr_accept res)
  | _ => false
  end = true.
Proof. vm_compute. reflexivity. Qed.

Lemma accepted_publisher_holds_the_session_witness :
  exists res w' a r lease,
    decideDispatch (Plat := relay_platform) "/live/ash" "live" (store_lookups sample_options) relay_world = (Ok res, w') /\
    dr_accept res = Some a /\ leased_session sample_options (ac_streamId a) r lease.
Proof.
  pose proof relay_accepts as H.
  destruct (decideDispatch (Plat := relay_platform) "/live/ash" "live" (store_lookups sample_options) relay_world)
    as [[res|e] w'] eqn:E; [|discriminate H].
  destruct (dr_accept res) as [a|] eqn:Ha; [|discriminate H].
  destruct (accepted_publisher_holds_the_session (Plat := relay_platform) sample_options "live" "/live/ash" relay_world
    res w' a E Ha) as (key & d & row & d1 & r & lease & d2 & secrets & url & ingest & _ & _ & _ & _ & _ & _ & _ & _ & _ & Hl & _).
  exists res, w', a, r, lease. split; [reflexivity|]. split; [exact Ha|exact Hl].
Defined.
