(* ===== verification/ProductRoutes.v ===== *)
(** * The product routes (routes/paidOperationStatus.ts, routes/live/streams.ts,
    routes/live/hlsProxy.ts, routes/vod/vod.ts, uploads.ts, playback.ts, storage/s3.ts)

    The handlers behind the API-key check, as functions of the key the request was
    authenticated with, over the running gateway.  A handler that starts work in the
    background returns what it started. *)

From S2P Require Import Prelude Js Types Wire Http Interfaces RouteProtocol LocClient SessionClient.
From S2P Require Import Database OperationRepo OperationLease MediaRepos Directory SessionStore LiveReconciler LiveOpen.
From S2P Require Import VodUsage AbrExchange AbrOrchestrator RouteHealth RouteSelector HttpTransport.
From Stdlib Require Import Ascii.
Open Scope Z_scope.

(** An answer: its status, headers and body. *)
Record Response := mkResponse {
  rp_code : Z;
  rp_headers : list (string * string);
  rp_body : json
}.
Definition reply (code : Z) (fields : list (string * json)) : Response := mkResponse code [] (JObj fields).
Definition error_body (message : string) : list (string * json) := [("status", JStr "error"); ("message", JStr message)].
Definition or_null {A} (f : A -> json) (o : option A) : json := match o with Some a => f a | None => JNull end.
Definition int (z : Z) : json := JNum (NInt z).

(** ** routes/paidOperationStatus.ts *)

Definition relay_text (s : RelayStatus) : string :=
  match s with
  | relay_pending => "pending" | relay_starting => "starting" | relay_active => "active"
  | relay_reconnecting => "reconnecting" | relay_stopping => "stopping" | relay_stopped => "stopped"
  | relay_failed => "failed"
  end.
Definition output_text (s : OutputState) : string :=
  match s with
  | output_unknown => "unknown" | output_waiting => "waiting" | output_producing => "producing"
  | output_stalled => "stalled"
  end.
Definition kind_text (k : PaidOperationKind) : string := match k with job => "job" | session => "session" end.

Section status.
Context `{Plat : Platform}.

Definition iso (value : option Z) : json := or_null (fun t => JStr (toISOString t)) value.
Definition text (value : option string) : json := or_null JStr value.

Definition warnings (operation : PaidOperation) (now : Z) : list string :=
  (if op_willRefuseNextRefill operation ==? Some true then ["refill_will_be_refused"] else []) ++
  (if (op_balanceUnits operation ==? Some "0") && negb (is_present (op_terminalAt operation))
   then ["funded_balance_exhausted"] else []) ++
  (if match op_leaseExpiresAt operation with Some t => t <=? now | None => false end &&
      negb (is_present (op_terminalAt operation)) then ["lease_expired"] else []) ++
  (if match op_sessionRuntime operation with Some rt => rt_outputState rt ==? Some output_stalled | None => false end
   then ["output_stalled"] else []).

Definition outputState (operation : PaidOperation) : option string :=
  match op_kind operation with
  | session => Some (match op_sessionRuntime operation with
                     | Some rt => match rt_outputState rt with Some o => output_text o | None => "unknown" end
                     | None => "unknown"
                     end)
  | job => None
  end.
Definition relayHasNoIngest (operation : PaidOperation) : bool :=
  match op_sessionRuntime operation with
  | Some rt => (rt_publisherMode rt ==? gateway_relay) && (rt_outputState rt ==? Some output_waiting) &&
               ((rt_relayStatus rt ==? relay_pending) || (rt_relayStatus rt ==? relay_reconnecting) ||
                (rt_relayStatus rt ==? relay_stopped) || (rt_relayStatus rt ==? relay_failed))
  | None => false
  end.
Definition outputStatus (operation : PaidOperation) : option string :=
  if match op_sessionRuntime operation with Some rt => rt_winddownReason rt ==? Some "output_failed" | None => false end ||
     match op_terminalEvidence operation with Some e => ev_closeReason e ==? Some "output_failed" | None => false end
  then Some "output_failed"
  else if relayHasNoIngest operation then Some "no_ingest" else outputState operation.

Definition customer_fields (operation : PaidOperation) (now : Z) : list (string * json) :=
  let runtime {A} (f : PaidSessionRuntimeState -> option A) : option A :=
    match op_sessionRuntime operation with Some rt => f rt | None => None end in
  [("operation_id", JStr (op_id operation));
   ("protocol", JStr (route_protocol (op_route operation)));
   ("state", JStr (op_status operation));
   ("request_id", JStr (op_requestId operation));
   ("work_unit", JStr (route_workUnit (op_route operation)));
   ("funded_units", JStr (op_fundedUnits operation));
   ("claimed_units", text (op_claimedUnits operation));
   ("balance_units", text (op_balanceUnits operation));
   ("lease_expires_at", iso (op_leaseExpiresAt operation));
   ("warnings", JArr (map JStr (warnings operation now)));
   ("recovered", JBool (0 <? op_retryCount operation));
   ("retry_count", int (op_retryCount operation));
   ("next_retry_at", iso (op_nextRetryAt operation));
   ("error_code", text (op_lastErrorCode operation));
   ("relay_status", text (runtime (fun rt => Some (relay_text (rt_relayStatus rt)))));
   ("delivered_units", text (runtime (fun rt => Some (rt_lastRunnerUsage rt))));
   ("winddown_reason", text (runtime rt_winddownReason));
   ("output_state", text (outputState operation));
   ("output_status", text (outputStatus operation));
   ("output_state_since", text (runtime rt_outputStateSince));
   ("last_failure_code", text (runtime rt_lastFailureCode));
   ("terminal_at", iso (op_terminalAt operation))].
Definition customerOperationStatus (operation : option PaidOperation) (now : Z) : json :=
  or_null (fun o => JObj (customer_fields o now)) operation.

Definition adminOperationStatus (operation : PaidOperation) (now : Z) : json :=
  JObj (customer_fields operation now ++
    [("kind", JStr (kind_text (op_kind operation)));
     ("asset_id", text (op_assetId operation));
     ("live_stream_id", text (op_liveStreamId operation));
     ("loc_operation_id", text (op_locOperationId operation));
     ("broker_job_id", text (op_brokerJobId operation));
     ("broker_session_id", text (op_brokerSessionId operation));
     ("capability", JStr (route_capability (op_route operation)));
     ("offering", JStr (route_offering (op_route operation)));
     ("transport", text (route_transport (op_route operation)));
     ("quote_id", JStr (route_quoteId (op_route operation)));
     ("quote_version", JStr (route_quoteVersion (op_route operation)));
     ("route_fingerprint", JStr (route_routeFingerprint (op_route operation)));
     ("rotation_generation", int (op_rotationGeneration operation));
     ("settlement_sequence", JStr (op_settlementSequence operation));
     ("updated_at", JStr (toISOString (op_updatedAt operation)));
     ("created_at", JStr (toISOString (op_createdAt operation)))]).
End status.

(** ** storage/s3.ts *)

Record PathForOpts := mkPathFor {
  pf_assetId : option string;
  pf_streamId : option string;
  pf_kind : string;
  pf_codec : option string;
  pf_resolution : option string;
  pf_filename : string
}.
Definition PATH_KIND_PREFIX : list (string * string) :=
  [("source", "sources"); ("rendition", "renditions"); ("manifest", "manifests"); ("thumbnail", "thumbnails");
   ("metadata", "metadata"); ("liveSegment", "live/segments"); ("liveManifest", "live/manifests")].
Definition some_text (o : option string) : list string := if truthy o then [o ?? ""] else [].
Definition pathFor (opts : PathForOpts) : string :=
  join "/" ([assoc (pf_kind opts) PATH_KIND_PREFIX ?? "undefined"] ++ some_text (pf_assetId opts) ++
            some_text (pf_streamId opts) ++
            (if truthy (pf_codec opts) && truthy (pf_resolution opts)
             then [(pf_codec opts ?? "") +:+ "-" +:+ (pf_resolution opts ?? "")] else []) ++
            [pf_filename opts]).
Definition upload_path (o : UploadOptions) : PathForOpts :=
  mkPathFor (Some (uo_assetId o)) None (uo_kind o) (uo_codec o) (uo_resolution o) (uo_filename o).

(** ** Requests *)

Record ProductConfig := mkProductConfig {
  pc_externalRtmpUrl : option string;
  pc_rtmpRelayEnabled : bool;
  pc_liveOfferingDefault : string;
  pc_vodOfferingDefault : string;
  pc_initialRunwayUnits : Z;
  pc_maxTotalUnits : Z;
  pc_uploadUrlTtlSec : Z;
  pc_playbackUrlTtlSec : Z;
  pc_sessionsConfigured : bool;
  pc_jobsConfigured : bool;
  pc_storageConfigured : bool;
  pc_operationsConfigured : bool
}.

Definition prop_of (body : json) (k : string) : option json := match body with JObj f => assoc k f | _ => None end.
Definition is_object (body : json) : bool := match body with JObj _ => true | _ => false end.
(** [z.string().optional()] and its like: absent, a value, or refused. *)
Definition optional_text (ok : string -> bool) (j : option json) : option (option string) :=
  match j with
  | None => Some None
  | Some (JStr s) => if ok s then Some (Some s) else None
  | Some _ => None
  end.
Definition length_within (lo hi : Z) (s : string) : bool := (lo <=? str_len s) && (str_len s <=? hi).
Definition is_tier (s : string) : bool := bool_decide (s ∈ ["baseline"; "standard"; "premium"]).
Definition id_param (params : json) (k : string) : option string :=
  match prop_of params k with Some (JStr s) => if nonempty s then Some s else None | _ => None end.

Record CreateBody := mkCreateBody {
  cb_name : option string;
  cb_tier : string;
  cb_offering : option string
}.
Definition createBody (body : json) : option CreateBody :=
  if negb (is_object body) then None
  else
    name ← optional_text (fun s => length_within 1 160 (trim s)) (prop_of body "name");
    tier ← optional_text is_tier (prop_of body "encoding_tier");
    offering ← optional_text (fun _ => true) (prop_of body "offering");
    Some (mkCreateBody (trim <$> name) (tier ?? "standard") offering).

Record SubmitBody := mkSubmitBody {
  sb_asset_id : string;
  sb_tier : string;
  sb_offering : option string
}.
Definition submitBody (body : json) : option SubmitBody :=
  asset ← id_param body "asset_id";
  tier ← optional_text is_tier (prop_of body "encoding_tier");
  offering ← optional_text (fun _ => true) (prop_of body "offering");
  Some (mkSubmitBody asset (tier ?? "standard") offering).

Definition uploadBody (body : json) : option (string * string) :=
  filename ← (match prop_of body "filename" with
              | Some (JStr s) => if length_within 1 512 s then Some s else None
              | _ => None
              end);
  contentType ← optional_text (length_within 1 128) (prop_of body "content_type");
  Some (filename, contentType ?? "application/octet-stream").

Definition publicStatus (s : LiveStream) (operation : option PaidOperation) : string :=
  let status := match operation with Some o => op_status o | None => "" end in
  let runtime := match operation with Some o => op_sessionRuntime o | None => None end in
  if status ==? "failed" then "failed"
  else if is_present (ls_endedAt s) || match operation with Some o => is_present (op_terminalAt o) | None => false end
  then "ended"
  else if startsWith "winddown" status || match runtime with Some rt => truthy (rt_winddownReason rt) | None => false end
  then "ending"
  else if (status ==? "opening") || (status ==? "issuing_key") then "opening"
  else if match runtime with Some rt => rt_outputState rt ==? Some output_producing | None => false end then "live"
  else if (ls_status s ==? "active") || (ls_status s ==? "reconnecting") then "ready"
  else ls_status s.

(** ** The handlers *)

Section handlers.
Context `{Plat : Platform} `{Client : PaidSessionClient} `{Env : Environment} `{Store : StorageProvider}.
Context (config : ProductConfig) (options : PaidSessionStoreOptions).
(** The resolver the server was given (of LOC, of the resolver service, or the stub), the
    validation library's message, and the proxy's client. *)
Context (select_worker : Capability -> string -> string -> N (option SelectedWorkerRoute)) (first_issue : json -> string)
  (fetch_url : string -> N Response).

Definition no_store (r : Response) : Response := mkResponse (rp_code r) (("Cache-Control", "no-store") :: rp_headers r) (rp_body r).

(** ** routes/live/streams.ts *)

(** What is answered when route discovery fails. *)
Definition discovery_failed (requestId : string) (e : LocError) : Response :=
  let authFailure := (loc_status e ==? Some 401) || (loc_status e ==? Some 403) in
  let status := if loc_code e ==? "loc_timeout" then 504 else if loc_retryable e then 503 else 502 in
  mkResponse status
    (match loc_retryAfterSeconds e with Some s => [("Retry-After", string_of_Z s)] | None => [] end)
    (JObj [("status", JStr "error");
           ("error", JStr (if authFailure then "loc_auth_failed" else loc_code e));
           ("message", JStr
             (if authFailure
              then "LOC rejected this gateway's credentials. Ask the operator to check LOC configuration. No live stream was created."
              else if loc_code e ==? "loc_timeout"
              then "LOC route discovery timed out. No live stream was created. Please try again."
              else if loc_retryable e
              then "LOC route discovery is temporarily unavailable. No live stream was created. Please try again."
              else "LOC could not provide a valid live route. No live stream was created. Ask the operator to check gateway logs."));
           ("retryable", JBool (loc_retryable e)); ("request_id", JStr requestId)]).

Definition open_deps : PaidLiveOpenDeps :=
  mkOpenDeps options (pc_externalRtmpUrl config ?? "") (pc_initialRunwayUnits config) (pc_maxTotalUnits config).

(** The opening itself: a failure is answered by what the tables hold of it. *)
Definition open_and_answer (apiKeyId streamId name : string) (body : CreateBody) (route : SelectedWorkerRoute) : W Response :=
  do! outcome <- mcatch (do! s <- openPaidLiveStream open_deps (mkLiveOpenInput streamId apiKeyId name route); mret_ (Some s))
                        (fun _ => mret_ None);
  match outcome with
  | Some s =>
      mret_ (reply 201 [("status", JStr "ready"); ("stream_id", JStr (lx_streamId s)); ("api_key_id", JStr apiKeyId);
        ("name", JStr name); ("session_id", JStr (lx_brokerSessionId s)); ("rtmp_push_url", JStr (lx_rtmpPushUrl s));
        ("rtmp_push_url_kind", JStr "gateway_relay"); ("stream_key", JStr (lx_streamKey s));
        ("hls_playback_url", JStr (lx_hlsPlaybackUrl s)); ("playback_id", JStr (lx_playbackId s));
        ("encoding_tier", JStr (cb_tier body)); ("expires_at", JStr (lx_expiresAt s));
        ("request_id", JStr (lx_requestId s))])
  | None =>
      do! operation <- store_byLiveStreamId streamId;
      do! now <- now_;
      mret_ (match operation with
             | Some o => mkResponse 202 [("Location", "/v1/live/streams/" +:+ streamId); ("Retry-After", "5")]
                 (JObj [("stream_id", JStr streamId); ("name", JStr name); ("status", JStr "opening");
                        ("paid_operation", customerOperationStatus (Some o) now);
                        ("message", JStr ("Stream setup is pending. This request will be recovered automatically; " +:+
                                          "do not submit another stream."))])
             | None => reply 502 [("status", JStr "error"); ("error", JStr "live_session_open_failed");
                        ("message", JStr "Stream setup failed before a recoverable operation was saved.")]
             end)
  end.

(** POST /v1/live/streams *)
Definition post_stream (apiKeyId requestId : string) (body : json) : W Response :=
  do! answer <- (
    if negb (pc_sessionsConfigured config) || negb (truthy (pc_externalRtmpUrl config)) || negb (pc_rtmpRelayEnabled config)
    then mret_ (reply 503 [("status", JStr "error"); ("error", JStr "paid_session_not_configured");
           ("message", JStr "live streaming requires LOC discovery, encrypted operation storage, and gateway RTMP relay")])
    else match createBody body with
         | None => mret_ (reply 400 (error_body (first_issue body)))
         | Some parsed =>
             do! hex <- fresh_hex 8;
             let streamId := "live_" +:+ hex in
             let offering := cb_offering parsed ?? pc_liveOfferingDefault config in
             let name := if truthy (trim <$> cb_name parsed) then trim (cb_name parsed ?? "") else streamId in
             do! found <- mcatch (do! r <- call (select_worker transcode_live offering (cb_tier parsed)); mret_ (inl r))
                            (fun e => match e with
                                      | LocTransportError le => mret_ (inr le)
                                      | _ => mthrow e
                                      end);
             match found with
             | inr e => mret_ (discovery_failed requestId e)
             | inl None => mret_ (reply 503 [("status", JStr "error"); ("error", JStr "no_live_route");
                             ("message", JStr "no video:transcode.live route is currently available")])
             | inl (Some route) => open_and_answer apiKeyId streamId name parsed route
             end
         end);
  mret_ (no_store answer).

(** The store, where it is configured. *)
Definition operation_of_stream (id : string) : W (option PaidOperation) :=
  if pc_sessionsConfigured config then store_byLiveStreamId id else mret_ None.

Definition stream_item (s : LiveStream) : W json :=
  do! operation <- operation_of_stream (ls_id s);
  do! now <- now_;
  mret_ (JObj [("stream_id", JStr (ls_id s)); ("name", JStr (ls_name s ?? ls_id s));
               ("status", JStr (publicStatus s operation)); ("paid_operation", customerOperationStatus operation now);
               ("created_at", JStr (toISOString (ls_createdAt s))); ("ended_at", iso (ls_endedAt s))]).

(** GET /v1/live/streams *)
Definition get_streams (apiKeyId : string) : W Response :=
  do! streams <- query_read (LiveStreams.listForApiKey apiKeyId);
  do! items <- mfold (fun acc s => do! j <- stream_item s; mret_ (acc ++ [j])) [] streams;
  mret_ (no_store (reply 200 [("streams", JArr items)])).

(** The stream of a request, if it is the caller's. *)
Definition own_stream (apiKeyId : string) (params : json) (handler : LiveStream -> W Response) : W Response :=
  match id_param params "id" with
  | None => mret_ (reply 400 (error_body "Invalid id."))
  | Some id =>
      do! found <- query_read (LiveStreams.byId id);
      match found with
      | Some s => if ls_apiKeyId s !=? apiKeyId then mret_ (reply 404 (error_body "Stream not found.")) else handler s
      | None => mret_ (reply 404 (error_body "Stream not found."))
      end
  end.

(** GET /v1/live/streams/:id *)
Definition get_stream (apiKeyId : string) (params : json) : W Response :=
  own_stream apiKeyId params (fun s =>
    do! t <- mget w_dir;
    let route := if truthy (ls_sessionId s) then dir_get (ls_sessionId s ?? "") t else dir_getByStreamId (ls_id s) t in
    do! operation <- operation_of_stream (ls_id s);
    do! now <- now_;
    let status := publicStatus s operation in
    let ready := (status ==? "ready") || (status ==? "live") in
    mret_ (no_store (reply 200
      [("stream_id", JStr (ls_id s)); ("api_key_id", JStr (ls_apiKeyId s)); ("name", JStr (ls_name s ?? ls_id s));
       ("status", JStr status);
       ("rtmp_push_url", if ready && is_present route then text (pc_externalRtmpUrl config) else JNull);
       ("stream_key", if ready then text (lv_streamKey <$> route) else JNull);
       ("rtmp_push_url_kind", JStr "gateway_relay"); ("paid_operation", customerOperationStatus operation now);
       ("session_id", text (ls_sessionId s)); ("playback_url", text (lv_hlsPlaybackUrl <$> route));
       ("created_at", JStr (toISOString (ls_createdAt s))); ("ended_at", iso (ls_endedAt s))]))).

(** POST /v1/live/streams/:id/end *)
Definition post_end (apiKeyId : string) (params : json) : W Response :=
  own_stream apiKeyId params (fun s =>
    match ls_endedAt s with
    | Some t => mret_ (reply 200 [("stream_id", JStr (ls_id s)); ("status", JStr "ended"); ("ended_at", JStr (toISOString t))])
    | None =>
        if negb (pc_sessionsConfigured config)
        then mret_ (reply 503 [("status", JStr "error"); ("error", JStr "paid_session_not_configured")])
        else
          do! operation <- store_requestWinddown (ls_id s) "customer_end";
          mret_ (if is_present operation
                 then reply 202 [("stream_id", JStr (ls_id s)); ("status", JStr "ending"); ("ended_at", JNull)]
                 else reply 409 [("status", JStr "error"); ("error", JStr "paid_session_winddown_unavailable");
                        ("message", JStr "the paid session has no recoverable winddown state")])
    end).

(** ** routes/vod/vod.ts *)

(** What a submission starts in the background. *)
Record Submission := mkSubmission {
  sm_asset : Asset;
  sm_route : SelectedWorkerRoute
}.
Definition abr_compatible (route : SelectedWorkerRoute) : bool :=
  (sw_protocol route ==? "paid-job/v1") &&
  match sw_job route with Some j => bool_decide (stream ∈ jx_transports j) | None => false end &&
  (sw_workUnit route ==? "video-frame-megapixel").

(** POST /v1/vod/submit *)
Definition post_submit (apiKeyId : string) (body : json) : W (Response * option Submission) :=
  match submitBody body with
  | None => mret_ (reply 400 (error_body (first_issue body)), None)
  | Some parsed =>
      if negb (pc_storageConfigured config) || negb (pc_jobsConfigured config) || negb (pc_operationsConfigured config)
      then mret_ (reply 503 [("status", JStr "error"); ("error", JStr "paid_job_not_configured");
                    ("message", JStr "VOD requires S3, LOC, and an operation-secrets wrapping key")], None)
      else
        do! found <- query_read (Assets.byId (sb_asset_id parsed));
        let asset := match found with
                     | Some a => if is_present (as_deletedAt a) || (as_apiKeyId a !=? apiKeyId) then None else Some a
                     | None => None
                     end in
        match asset with
        | None => mret_ (reply 404 (error_body "Asset not found."), None)
        | Some asset =>
            do! selected <- call (select_worker transcode_abr (sb_offering parsed ?? pc_vodOfferingDefault config)
                                    (sb_tier parsed));
            match selected with
            | None => mret_ (reply 503 [("status", JStr "error"); ("error", JStr "no_video_transcode_route");
                        ("message", JStr "no video:transcode.abr route is currently available")], None)
            | Some route =>
                if negb (abr_compatible route)
                then mret_ (reply 503 [("status", JStr "error"); ("error", JStr "video_transcode_route_incompatible");
                       ("message", JStr "the selected route does not implement the required paid-job/v1 ABR contract")], None)
                else
                  do! _ <- query (fun _ => Assets.updateStatus (as_id asset) "queued"
                    (Assets.mkFields None None None None None None None None None None (Some (sb_tier parsed))
                       (Some (sw_offering route))));
                  mret_ (reply 202 [("asset_id", JStr (as_id asset)); ("api_key_id", JStr (as_apiKeyId asset));
                      ("status", JStr "queued"); ("selected_capability", JStr "video:transcode.abr");
                      ("selected_offering", JStr (sw_offering route)); ("selected_broker_url", JStr (sw_workerUrl route));
                      ("encoding_tier", JStr (sb_tier parsed))],
                    Some (mkSubmission (asset <| as_encodingTier := sb_tier parsed |>) route))
            end
        end
  end.

Definition number (o : option jsnum) : json := or_null JNum o.
Definition serializeAsset (a : Asset) (playbackId : option string) : list (string * json) :=
  [("asset_id", JStr (as_id a)); ("api_key_id", JStr (as_apiKeyId a)); ("status", JStr (as_status a));
   ("source_type", JStr (as_sourceType a)); ("encoding_tier", JStr (as_encodingTier a));
   ("duration_sec", number (as_durationSec a)); ("width", or_null int (as_width a)); ("height", or_null int (as_height a));
   ("frame_rate", number (as_frameRate a)); ("audio_codec", text (as_audioCodec a));
   ("video_codec", text (as_videoCodec a)); ("selected_offering", text (as_selectedOffering a));
   ("created_at", JStr (toISOString (as_createdAt a))); ("ready_at", iso (as_readyAt a));
   ("deleted_at", iso (as_deletedAt a)); ("error_message", text (as_errorMessage a));
   ("playback_id", text playbackId);
   ("playback_url", if truthy playbackId then JStr ("/v1/playback/" +:+ encodeURIComponent (playbackId ?? "")) else JNull)].

Definition rendition_json (r : Rendition) : json :=
  JObj [("id", JStr (rend_id r)); ("resolution", JStr (rend_resolution r)); ("codec", JStr (rend_codec r));
        ("bitrate_kbps", int (rend_bitrateKbps r)); ("storage_key", text (rend_storageKey r));
        ("status", JStr (rend_status r)); ("duration_sec", number (rend_durationSec r));
        ("completed_at", iso (rend_completedAt r))].
Definition job_json (j : EncodingJob) : json :=
  JObj [("id", JStr (ej_id j)); ("kind", JStr (ej_kind j)); ("status", JStr (ej_status j));
        ("worker_url", text (ej_workerUrl j)); ("error_message", text (ej_errorMessage j));
        ("started_at", iso (ej_startedAt j)); ("completed_at", iso (ej_completedAt j))].

Definition fetchAssetBundle (id apiKeyId : string) : W (option json) :=
  do! found <- query_read (Assets.byId id);
  match found with
  | None => mret_ None
  | Some a =>
      if as_apiKeyId a !=? apiKeyId then mret_ None
      else
        do! playbacks <- query_read (PlaybackIds.byAsset (as_id a));
        do! renditions <- query_read (Renditions.byAsset (as_id a));
        do! jobs <- query_read (EncodingJobs.byAsset (as_id a));
        do! operation <- (if pc_operationsConfigured config then query_read (byAssetId (as_id a)) else mret_ None);
        do! now <- now_;
        mret_ (Some (JObj (serializeAsset a (pb_id <$> head playbacks) ++
          [("paid_operation", customerOperationStatus operation now);
           ("renditions", JArr (map rendition_json renditions)); ("jobs", JArr (map job_json jobs))])))
  end.

(** GET /v1/vod/:asset_id and GET /v1/videos/assets/:id; [k] is the name of the parameter. *)
Definition get_asset (k : string) (apiKeyId : string) (params : json) : W Response :=
  match id_param params k with
  | None => mret_ (reply 400 (error_body "Invalid id."))
  | Some id =>
      do! bundle <- fetchAssetBundle id apiKeyId;
      mret_ (match bundle with
             | Some b => mkResponse 200 [] b
             | None => reply 404 (error_body "Asset not found.")
             end)
  end.

Record AssetQuery := mkAssetQuery {
  aq_limit : Z;
  aq_cursor : option string;
  aq_include_deleted : bool
}.
Definition asset_item (a : Asset) : json :=
  JObj [("id", JStr (as_id a)); ("api_key_id", JStr (as_apiKeyId a)); ("status", JStr (as_status a));
        ("source_type", JStr (as_sourceType a)); ("encoding_tier", JStr (as_encodingTier a));
        ("duration_sec", number (as_durationSec a)); ("created_at", JStr (toISOString (as_createdAt a)));
        ("ready_at", iso (as_readyAt a)); ("deleted_at", iso (as_deletedAt a))].
(** GET /v1/videos/assets, given the outcome of [listQuery.safeParse] *)
Definition get_assets (apiKeyId : string) (parsed : option AssetQuery) : W Response :=
  match parsed with
  | None => mret_ (reply 400 (error_body "Invalid query."))
  | Some q =>
      do! p <- query_read (Assets.list_ apiKeyId (aq_include_deleted q) (aq_cursor q) (Z.to_nat (aq_limit q)));
      mret_ (reply 200 [("items", JArr (map asset_item (Assets.p_items p)));
        ("pagination", JObj [("limit", int (aq_limit q)); ("next_cursor", text (Assets.p_nextCursor p))]);
        ("include_deleted", JBool (aq_include_deleted q))])
  end.

(** DELETE /v1/videos/assets/:id *)
Definition delete_asset (apiKeyId : string) (params : json) : W Response :=
  match id_param params "id" with
  | None => mret_ (reply 400 (error_body "Invalid id."))
  | Some id =>
      do! found <- query_read (Assets.byId id);
      match found with
      | Some a =>
          if as_apiKeyId a !=? apiKeyId then mret_ (reply 404 (error_body "Asset not found."))
          else
            do! now <- now_;
            do! _ <- query (fun _ => Assets.softDelete id now);
            mret_ (mkResponse 204 [] JNull)
      | None => mret_ (reply 404 (error_body "Asset not found."))
      end
  end.

(** ** routes/vod/uploads.ts *)

(** POST /v1/uploads: the asset and the upload are stored by two statements. *)
Definition post_upload (apiKeyId : string) (body : json) : W Response :=
  if negb (pc_storageConfigured config)
  then mret_ (reply 503 [("status", JStr "error"); ("error", JStr "s3_not_configured");
                ("message", JStr "S3_REGION/BUCKET/ACCESS_KEY_ID/SECRET_ACCESS_KEY must be set")])
  else match uploadBody body with
       | None => mret_ (reply 400 (error_body (first_issue body)))
       | Some (filename, contentType) =>
           do! assetHex <- fresh_hex 12;
           do! uploadHex <- fresh_hex 12;
           let assetId := "asset_" +:+ assetHex in
           let uploadId := "upl_" +:+ uploadHex in
           do! now <- now_;
           let expiresAt := now + pc_uploadUrlTtlSec config * 1000 in
           do! presigned <- call (putSignedUploadUrl (mkUploadOptions assetId "source" None None filename contentType
                                    (pc_uploadUrlTtlSec config)));
           do! _ <- query (fun _ => Assets.insert (mkAsset assetId apiKeyId "preparing" "upload" None None None None None
                                     None None None "standard" None None 0 None None));
           do! _ <- query (fun _ => Uploads.insert (mkUpload uploadId apiKeyId (Some assetId) "waiting"
                                     (af_upload_url presigned) (af_artifact_uri presigned) expiresAt 0 None));
           mret_ (reply 200 [("upload_url", JStr (af_upload_url presigned)); ("asset_id", JStr assetId);
                    ("upload_id", JStr uploadId); ("storage_key", JStr (af_artifact_uri presigned));
                    ("expires_at", JStr (toISOString expiresAt))])
       end.

(** POST /v1/uploads/:id/complete *)
Definition post_complete (apiKeyId : string) (params : json) : W Response :=
  match id_param params "id" with
  | None => mret_ (reply 400 (error_body "Invalid upload id."))
  | Some id =>
      do! found <- query_read (Uploads.byId id);
      match found with
      | Some u =>
          if up_apiKeyId u !=? apiKeyId then mret_ (reply 404 (error_body "Upload not found."))
          else if (up_status u !=? "waiting") && (up_status u !=? "uploading")
          then mret_ (reply 200 [("asset_id", text (up_assetId u)); ("upload_id", JStr (up_id u)); ("status", JStr (up_status u))])
          else
            do! now <- now_;
            do! _ <- query (fun _ => Uploads.updateStatus (up_id u) "completed" None (Some now));
            do! _ <- (match up_assetId u with
                      | Some a => if nonempty a
                                  then query (fun _ => Assets.updateStatus a "preparing"
                                         (Assets.mkFields None None None None None None None None None
                                            (Some (up_storageKey u)) None None))
                                  else mret_ tt
                      | None => mret_ tt
                      end);
            mret_ (reply 200 [("asset_id", text (up_assetId u)); ("upload_id", JStr (up_id u)); ("status", JStr "completed")])
      | None => mret_ (reply 404 (error_body "Upload not found."))
      end
  end.

(** ** routes/vod/playback.ts and routes/live/hlsProxy.ts, which need no key *)

(** GET /v1/playback/:id *)
Definition get_playback (params : json) : W Response :=
  match id_param params "id" with
  | None => mret_ (reply 400 (error_body "Invalid playback id."))
  | Some id =>
      do! found <- query_read (PlaybackIds.byId id);
      match found with
      | None => mret_ (reply 404 (error_body "Playback id not found."))
      | Some p =>
          if truthy (pb_liveStreamId p) && negb (truthy (pb_assetId p)) then
            do! t <- mget w_dir;
            mret_ (match dir_getByStreamId (pb_liveStreamId p ?? "") t with
                   | None => reply 404 [("status", JStr "error"); ("error", JStr "live_session_not_active");
                               ("message", JStr "live stream is not currently active")]
                   | Some route => reply 200 [("playback_id", JStr (pb_id p)); ("live_stream_id", text (pb_liveStreamId p));
                               ("hls_url", JStr (lv_hlsPlaybackUrl route)); ("policy", JStr (pb_policy p))]
                   end)
          else if negb (truthy (pb_assetId p)) || negb (pc_storageConfigured config)
          then mret_ (reply 503 [("status", JStr "error");
                        ("error", JStr (if pc_storageConfigured config then "asset_missing" else "s3_not_configured"))])
          else
            do! found <- query_read (Assets.byId (pb_assetId p ?? ""));
            match found with
            | None => mret_ (reply 404 (error_body "Asset not found."))
            | Some a =>
                if is_present (as_deletedAt a) then mret_ (reply 404 (error_body "Asset not found."))
                else if as_status a !=? "ready"
                then mret_ (reply 409 [("status", JStr "error"); ("error", JStr "asset_not_ready");
                              ("asset_status", JStr (as_status a))])
                else
                  do! hlsUrl <- call (getSignedDownloadUrl
                    (pathFor (mkPathFor (Some (as_id a)) None "manifest" None None "master.m3u8"))
                    (pc_playbackUrlTtlSec config));
                  mret_ (reply 200 [("playback_id", JStr (pb_id p)); ("asset_id", JStr (as_id a)); ("hls_url", JStr hlsUrl);
                           ("policy", JStr (pb_policy p))])
            end
      end
  end.

(** The text before the first slash. *)
Fixpoint first_segment (s : string) : string :=
  match s with
  | EmptyString => EmptyString
  | String "/" _ => EmptyString
  | String c s' => String c (first_segment s')
  end.

(** GET /_hls/* *)
Definition get_hls (suffix : string) : W Response :=
  do! t <- mget w_dir;
  match dir_get (first_segment suffix) t with
  | None => mret_ (reply 404 [("status", JStr "error"); ("error", JStr "playback_session_not_found")])
  | Some route =>
      mcatch (call (fetch_url (strip_slash (lv_brokerUrl route) +:+ "/_hls/" +:+ suffix)))
        (fun _ => mret_ (reply 502 [("status", JStr "error"); ("error", JStr "upstream_unavailable")]))
  end.

(** GET /api/v1/admin/operations of routes/auth/admin.ts, given the outcome of
    [operationsQuery.safeParse] *)
Definition get_operations (parsed : option (option PaidOperationKind * option string * Z)) : W Response :=
  match parsed with
  | None => mret_ (reply 400 (error_body "Invalid query."))
  | Some (kind, status, limit) =>
      if negb (pc_operationsConfigured config)
      then mret_ (reply 503 [("status", JStr "error"); ("error", JStr "paid_operations_not_configured");
                    ("message", JStr "LOC operation storage is not configured")])
      else
        do! operations <- query (fun _ d => let? l := listForAdmin kind status (NInt limit) d in Ok (l, d));
        do! now <- now_;
        mret_ (reply 200 [("items", JArr (map (fun o => adminOperationStatus o now) operations))])
  end.
End handlers.
