(* ===== verification/ProductSpec.v ===== *)
(** * Tenants are kept apart

    What the product routes promise: a request changes no asset, upload or stream of
    another API key; the id of another key's row is answered like one that does not exist;
    lists hold the caller's rows only; and storage keys of different assets differ. *)

From S2P Require Import Prelude Js Types Wire Http Interfaces RouteProtocol LocClient SessionClient.
From S2P Require Import Database OperationRepo OperationLease MediaRepos Directory SessionStore LiveReconciler LiveOpen.
From S2P Require Import VodUsage AbrExchange AbrOrchestrator RouteHealth RouteSelector HttpTransport Preserve Dispatcher ProductRoutes.
From S2P Require Import Samples SampleNet SampleWorld AbrSpec.
From Stdlib Require Import Ascii.
Open Scope Z_scope.

Inductive product_request : Type :=
| PostStream (requestId : string) (body : json)
| GetStreams
| GetStream (params : json)
| PostEnd (params : json)
| PostSubmit (body : json)
| GetAsset (k : string) (params : json)
| GetAssets (parsed : option AssetQuery)
| DeleteAsset (params : json)
| PostUpload (body : json)
| PostComplete (params : json).

(** ** Rows and their owners *)

Inductive tenant_row : Type :=
| AssetRow (a : Asset)
| UploadRow (u : Upload)
| StreamRow (s : LiveStream).
Definition row_owner (r : tenant_row) : string :=
  match r with AssetRow a => as_apiKeyId a | UploadRow u => up_apiKeyId u | StreamRow s => ls_apiKeyId s end.
Definition holds (r : tenant_row) (d : db) : Prop :=
  match r with
  | AssetRow a => db_assets d !! as_id a = Some a
  | UploadRow u => db_uploads d !! up_id u = Some u
  | StreamRow s => db_live_streams d !! ls_id s = Some s
  end.

(** Rows are stored under their ids, and an upload's asset is there, of the upload's key. *)
Record media_ok (d : db) : Prop := {
  mo_assets : map_Forall (fun k a => as_id a = k) (db_assets d);
  mo_uploads : map_Forall (fun k u => up_id u = k) (db_uploads d);
  mo_streams : map_Forall (fun k s => ls_id s = k) (db_live_streams d);
  mo_upload_assets : forall k u a, db_uploads d !! k = Some u -> up_assetId u = Some a ->
    exists x, db_assets d !! a = Some x /\ as_apiKeyId x = up_apiKeyId u
}.
Definition kept (r : tenant_row) (d : db) : Prop := media_ok d /\ holds r d.

#[export] Instance kept_media r : MediaProperty (kept r).
Proof.
  intros d d' (Hs & _ & _ & _ & Ha & Hu) [[H1 H2 H3 H4] Hr]. split.
  - split; rewrite ?Ha, ?Hu, ?Hs; done.
  - destruct r; cbn; by rewrite ?Ha, ?Hu, ?Hs.
Qed.

Section statements.
Context (r : tenant_row).

Lemma update_by_id_lookup {A} id (f : A -> A) (t : gmap string A) k :
  update_by_id id f t !! k = if decide (k = id) then f <$> t !! k else t !! k.
Proof.
  unfold update_by_id. destruct (decide (k = id)) as [->|Hne].
  - destruct (t !! id) eqn:E; [by rewrite lookup_insert_eq|by rewrite E].
  - destruct (t !! id); [by rewrite lookup_insert_ne|done].
Qed.
Lemma update_by_id_Forall {A} id (f : A -> A) (t : gmap string A) (Q : string -> A -> Prop) :
  (forall k a, Q k a -> Q k (f a)) -> map_Forall Q t -> map_Forall Q (update_by_id id f t).
Proof.
  intros Hf Ht k a. rewrite update_by_id_lookup. case_decide; [|apply Ht].
  intros (b & Hb & ->)%fmap_Some. by apply Hf, Ht.
Qed.

(** The row is not the asset (the upload, the stream) with this id. *)
Definition not_asset (id : string) : Prop := forall a, r = AssetRow a -> as_id a <> id.
Definition not_upload (id : string) : Prop := forall u, r = UploadRow u -> up_id u <> id.
Definition not_stream (id : string) : Prop := forall s, r = StreamRow s -> ls_id s <> id.

(** A row of the caller's is not the foreign one. *)
Section foreign.
Context (K : string) (foreign : row_owner r <> K).
Lemma own_asset_differs d id a : kept r d -> db_assets d !! id = Some a -> as_apiKeyId a = K -> not_asset id.
Proof. intros [_ Hr] Ha Hown a' -> <-. cbn in Hr, foreign. congruence. Qed.
Lemma own_upload_differs d id u : kept r d -> db_uploads d !! id = Some u -> up_apiKeyId u = K -> not_upload id.
Proof. intros [_ Hr] Hu Hown u' -> <-. cbn in Hr, foreign. congruence. Qed.
Lemma upload_asset_differs d id u a :
  kept r d -> db_uploads d !! id = Some u -> up_apiKeyId u = K -> up_assetId u = Some a -> not_asset a.
Proof.
  intros [Hok Hr] Hu Hown Ha a' -> <-. cbn in Hr, foreign.
  destruct (mo_upload_assets _ Hok _ _ _ Hu Ha) as (x & Hx & Hxo). congruence.
Qed.

End foreign.

(** An update of an asset that keeps its id and owner. *)
Lemma asset_update_kept id f d :
  (forall a, as_id (f a) = as_id a /\ as_apiKeyId (f a) = as_apiKeyId a) -> not_asset id ->
  kept r d -> kept r (d <| db_assets := update_by_id id f (db_assets d) |>).
Proof.
  intros Hf Hne [[H1 H2 H3 H4] Hr]. split.
  - split; cbn; try done.
    + apply update_by_id_Forall; [|done]. intros k a <-. apply Hf.
    + intros k u a Hu Ha. destruct (H4 _ _ _ Hu Ha) as (x & Hx & Ho). rewrite update_by_id_lookup, Hx.
      case_decide; [|by eauto]. exists (f x). split; [done|]. by rewrite (proj2 (Hf x)).
  - destruct r as [a|u|s] eqn:Er; [|exact Hr|exact Hr]. cbn in Hr |- *. rewrite update_by_id_lookup. case_decide; [|done].
    by destruct (Hne a Er).
Qed.

Lemma upload_update_kept id f d :
  (forall u, up_id (f u) = up_id u /\ up_apiKeyId (f u) = up_apiKeyId u /\ up_assetId (f u) = up_assetId u) ->
  not_upload id -> kept r d -> kept r (d <| db_uploads := update_by_id id f (db_uploads d) |>).
Proof.
  intros Hf Hne [[H1 H2 H3 H4] Hr]. split.
  - split; cbn; try done.
    + apply update_by_id_Forall; [|done]. intros k u <-. apply Hf.
    + intros k u a. rewrite update_by_id_lookup. case_decide; [|by apply H4].
      intros (y & Hy & ->)%fmap_Some. destruct (Hf y) as (_ & -> & ->). by apply (H4 k).
  - destruct r as [a|u|s] eqn:Er; [exact Hr| |exact Hr]. cbn in Hr |- *. rewrite update_by_id_lookup. case_decide; [|done].
    by destruct (Hne u Er).
Qed.

Lemma stream_update_kept id status f d :
  not_stream id ->
  kept r d -> kept r (match LiveStreams.updateStatus id status f d with Ok (_, d') => d' | Err _ => d end).
Proof.
  intros Hne [[H1 H2 H3 H4] Hr]. cbn. split.
  - split; cbn; try done. apply update_by_id_Forall; [|done]. by intros k s <-.
  - destruct r as [a|u|s] eqn:Er; [exact Hr|exact Hr|]. cbn in Hr |- *. rewrite update_by_id_lookup. case_decide; [|done].
    by destruct (Hne s Er).
Qed.

Lemma stream_insert_kept s o d d' :
  kept r d -> LiveStreams.insert s d = Ok (o, d') -> kept r d' /\ not_stream (ls_id s).
Proof.
  intros [[H1 H2 H3 H4] Hr]. unfold LiveStreams.insert.
  destruct (is_present (db_live_streams d !! ls_id s)) eqn:Hp; [done|]. cbn [orb].
  destruct (negb _ || negb _); [done|]. intros [= _ <-].
  assert (Hne : not_stream (ls_id s)).
  { intros s' -> Heq. cbn in Hr. rewrite <- Heq, Hr in Hp. done. }
  split; [|done]. split.
  - split; cbn; try done. by apply map_Forall_insert_2.
  - destruct r as [a|u|s'] eqn:Er; [exact Hr|exact Hr|]. cbn in Hr |- *. rewrite lookup_insert_ne; [done|].
    intros Heq. by apply (Hne s' Er).
Qed.

Lemma asset_insert_kept a o d d' : kept r d -> Assets.insert a d = Ok (o, d') -> kept r d'.
Proof.
  intros [[H1 H2 H3 H4] Hr]. unfold Assets.insert. destruct (is_present _) eqn:Hp; [done|]. cbn [orb].
  destruct (negb _); [done|]. intros [= _ <-]. split.
  - split; cbn; try done; [by apply map_Forall_insert_2|].
    intros k u b Hu Hb. destruct (H4 _ _ _ Hu Hb) as (x & Hx & Ho). exists x. split; [|done].
    rewrite lookup_insert_ne; [done|]. intros Heq. rewrite Heq, Hx in Hp. done.
  - destruct r as [b|u|s]; [|exact Hr|exact Hr]. cbn in Hr |- *. rewrite lookup_insert_ne; [done|].
    intros Heq. rewrite Heq, Hr in Hp. done.
Qed.
Lemma upload_insert_kept u o d d' :
  (forall a, up_assetId u = Some a -> exists x, db_assets d !! a = Some x /\ as_apiKeyId x = up_apiKeyId u) ->
  kept r d -> Uploads.insert u d = Ok (o, d') -> kept r d'.
Proof.
  intros Hasset [[H1 H2 H3 H4] Hr]. unfold Uploads.insert. destruct (is_present (db_uploads d !! up_id u)) eqn:Hp; [done|].
  cbn [orb]. destruct (negb _ || _); [done|]. intros [= _ <-]. split.
  - split; cbn; try done; [by apply map_Forall_insert_2|].
    intros k v b. rewrite lookup_insert_Some. intros [[<- <-]|[_ Hu]] Hb; [by apply Hasset|by eapply H4].
  - destruct r as [b|v|s]; [exact Hr| |exact Hr]. cbn in Hr |- *. rewrite lookup_insert_ne; [done|]. intros Heq.
    rewrite Heq, Hr in Hp. done.
Qed.
End statements.

(** ** Requests *)

Section requests.
Context `{Plat : Platform} `{Client : PaidSessionClient} `{Env : Environment} `{Store : StorageProvider}.
Context (config : ProductConfig) (options : PaidSessionStoreOptions).
Context (select_worker : Capability -> string -> string -> N (option SelectedWorkerRoute)) (first_issue : json -> string).

Definition serve (K : string) (q : product_request) : W Response :=
  match q with
  | PostStream requestId body => post_stream config options select_worker first_issue K requestId body
  | GetStreams => get_streams config K
  | GetStream params => get_stream config K params
  | PostEnd params => post_end config K params
  | PostSubmit body => do! out <- post_submit config select_worker first_issue K body; mret_ (fst out)
  | GetAsset k params => get_asset config k K params
  | GetAssets parsed => get_assets K parsed
  | DeleteAsset params => delete_asset K params
  | PostUpload body => post_upload config first_issue K body
  | PostComplete params => post_complete K params
  end.

(** What the rest of the system does to a row and to its table while the request runs:
    the row stays, rows stay under their ids, and an asset keeps its owner. *)
Record peaceful (r : tenant_row) : Prop := {
  pe_kept : forall n d, kept r d -> kept r (others n d);
  pe_owned : forall n d k a, db_assets d !! k = Some a ->
    exists a', db_assets (others n d) !! k = Some a' /\ as_apiKeyId a' = as_apiKeyId a
}.

Context (r : tenant_row) (K : string) (foreign : row_owner r <> K) (Hpeace : peaceful r).

Lemma others_kept n d : kept r d -> kept r (others n d).
Proof. apply (pe_kept _ Hpeace). Qed.
#[local] Hint Resolve others_kept : core.

Lemma kept_read_bind {A B} (f : db -> A) (k : A -> W B) :
  (forall d, kept r d -> preserves w_db (kept r) (k (f d))) -> preserves w_db (kept r) (mbind_ (query_read f) k).
Proof. apply preserves_read_bind. exact others_kept. Qed.


Lemma status_kept id status f : not_stream r id -> preserves w_db (kept r) (query (fun _ => LiveStreams.updateStatus id status f)).
Proof.
  intros Hne. apply preserves_query; [exact others_kept|]. intros n d o d' H Hd.
  pose proof (stream_update_kept r id status f d Hne Hd) as Hk. by rewrite H in Hk.
Qed.
Lemma asset_status_kept id status f : not_asset r id -> preserves w_db (kept r) (query (fun _ => Assets.updateStatus id status f)).
Proof.
  intros Hne. apply preserves_query; [exact others_kept|]. intros n d o d' [= _ <-] Hd.
  by apply (asset_update_kept r id).
Qed.

(** *** Opening a stream *)

Lemma open_body_kept input requestId keyRequestId streamKey intent :
  not_stream r (li_streamId input) ->
  preserves (fun s => w_db (fst s)) (kept r) (open_body (open_deps config options) input requestId keyRequestId streamKey intent).
Proof.
  pose proof others_kept as Hothers. intros Hne. assert (Hin : forall A (m : W A), preserves w_db (kept r) m ->
    preserves (fun s : world * OwnedPaidSession => w_db (fst s)) (kept r) (in_world m)).
  { intros A m Hm s Hs. unfold in_world. specialize (Hm (fst s) Hs). by destruct (m (fst s)). }
  unfold open_body.
  repeat first
    [ progress preserving
    | match goal with
      | |- preserves _ _ (in_world _) => apply Hin
      | |- preserves _ _ get_owned => apply preserves_get
      | |- preserves _ _ (set_owned _) => by intros ?
      | |- preserves _ _ (query (fun _ => LiveStreams.updateStatus _ _ _)) => by apply status_kept
      | |- preserves _ _ (query (fun _ => PlaybackIds.insert _)) =>
          apply preserves_query; [exact others_kept|]
      end ].
  intros n d row d'. unfold PlaybackIds.insert. destruct (_ || _); [done|]. intros [= _ <-] [[H1 H2 H3 H4] Hr].
  by split; [|destruct r].
Qed.

(** [m] keeps the row, and that it succeeds means [Q]. *)
Definition keeps_and {A} (Q : Prop) (m : W A) : Prop :=
  forall w, kept r (w_db w) -> kept r (w_db (snd (m w))) /\ (is_ok (fst (m w)) = true -> Q).

Lemma keeps_and_skip {A B} Q (m : W A) (k : A -> W B) :
  preserves w_db (kept r) m -> (forall a, keeps_and Q (k a)) -> keeps_and Q (mbind_ m k).
Proof.
  intros Hm Hk w Hw. unfold mbind_. specialize (Hm w Hw). destruct (m w) as [[a|e] w']; [by apply Hk|done].
Qed.
Lemma keeps_and_here {A B} Q (m : W A) (k : A -> W B) :
  keeps_and Q m -> (forall a, preserves w_db (kept r) (k a)) -> keeps_and Q (mbind_ m k).
Proof.
  intros Hm Hk w Hw. unfold mbind_. specialize (Hm w Hw). destruct (m w) as [[a|e] w']; [|done].
  split; [by apply Hk, Hm|]. intros _. by apply Hm.
Qed.
Lemma insert_keeps_and s : keeps_and (not_stream r (ls_id s)) (query (fun _ => LiveStreams.insert s)).
Proof.
  intros w Hw. unfold query, exec. destruct (LiveStreams.insert s _) as [[row d]|e] eqn:E; cbn.
  - apply (stream_insert_kept r) in E as [Hd Hne]; [done|by apply others_kept].
  - split; [by apply others_kept|done].
Qed.

Lemma prepare_open_kept input : keeps_and (not_stream r (li_streamId input)) (prepare_open (open_deps config options) input).
Proof.
  pose proof others_kept as Hothers. unfold prepare_open.
  repeat (apply keeps_and_skip; [solve [preserving]|intros ?]).
  apply keeps_and_here; [apply insert_keeps_and|intros ?; preserving].
Qed.

Lemma open_kept input : preserves w_db (kept r) (openPaidLiveStream (open_deps config options) input).
Proof.
  intros w Hw. unfold openPaidLiveStream, mbind_. destruct (prepare_open _ input w) as [[p|e] w1] eqn:E.
  - pose proof (prepare_open_kept input w Hw) as [Hw1 Hne]. rewrite E in Hw1, Hne. cbn in Hw1, Hne.
    assert (Hp : preserves (fun s => w_db (fst s)) (kept r) (mfinally
      (open_body (open_deps config options) input (pp_requestId p) (pp_keyRequestId p) (pp_streamKey p)
         (intent_of (open_deps config options) p)) release_latest)).
    { apply preserves_finally; [by apply open_body_kept; apply Hne|]. unfold release_latest.
      apply preserves_bind; [apply preserves_get|]. intros o s Hs. unfold mbind_, in_world.
      pose proof (preserves_release (kept r) others_kept o (fst s) Hs) as Hr. destruct (store_release o (fst s)) as [[b|e] w2]; done. }
    specialize (Hp (w1, pp_owned p) Hw1). destruct (mfinally _ _ _) as [x [w2 o2]]. exact Hp.
  - pose proof (prepare_open_kept input w Hw) as [Hw1 _]. by rewrite E in Hw1.
Qed.

(** *** The other handlers *)

Lemma post_stream_kept requestId body :
  preserves w_db (kept r) (post_stream config options select_worker first_issue K requestId body).
Proof.
  pose proof others_kept as Hothers. unfold post_stream, open_and_answer, store_byLiveStreamId. preserving; apply open_kept.
Qed.

Lemma own_stream_kept params handler :
  (forall s, preserves w_db (kept r) (handler s)) -> preserves w_db (kept r) (own_stream K params handler).
Proof. pose proof others_kept as Hothers. intros Hh. unfold own_stream. preserving. apply Hh. Qed.

Lemma post_submit_kept body : preserves w_db (kept r) (post_submit config select_worker first_issue K body).
Proof.
  pose proof others_kept as Hothers. unfold post_submit. destruct (submitBody body) as [parsed|]; [|apply preserves_ret].
  destruct (negb _ || negb _ || negb _); [apply preserves_ret|]. apply kept_read_bind. intros d Hd.
  destruct (Assets.byId _ d) as [a|] eqn:Ha; [|apply preserves_ret].
  destruct (is_present _ || _) eqn:Hown; [apply preserves_ret|]. bools.
  assert (Hne : not_asset r (as_id a)).
  { rewrite (mo_assets _ (proj1 Hd) _ _ Ha). by eapply own_asset_differs. }
  preserving. by apply asset_status_kept.
Qed.

Lemma delete_asset_kept params : preserves w_db (kept r) (delete_asset K params).
Proof.
  unfold delete_asset. destruct (id_param params "id") as [id|]; [|apply preserves_ret].
  apply kept_read_bind. intros d Hd. destruct (Assets.byId id d) as [a|] eqn:Ha; [|apply preserves_ret].
  case_bool_decide as Hown; [|apply preserves_ret]. cbn [negb].
  assert (Hne : not_asset r id) by (by eapply own_asset_differs).
  preserving. apply preserves_query; [exact others_kept|]. intros n d1 o d' [= _ <-] Hd1. by apply (asset_update_kept r id).
Qed.

Lemma post_complete_kept params : preserves w_db (kept r) (post_complete K params).
Proof.
  unfold post_complete. destruct (id_param params "id") as [id|]; [|apply preserves_ret].
  apply kept_read_bind. intros d Hd. destruct (Uploads.byId id d) as [u|] eqn:Hu; [|apply preserves_ret].
  case_bool_decide as Hown; [|apply preserves_ret]. cbn [negb]. destruct (_ && _); [apply preserves_ret|].
  assert (Hne : not_upload r (up_id u)).
  { rewrite (mo_uploads _ (proj1 Hd) _ _ Hu). by eapply own_upload_differs. }
  assert (Hna : forall a, up_assetId u = Some a -> not_asset r a) by (intros a Ha; by eapply upload_asset_differs).
  apply preserves_bind; [apply preserves_now|]. intros now. apply preserves_bind.
  { apply preserves_query; [exact others_kept|]. intros n d1 o d' [= _ <-] Hd1. by apply (upload_update_kept r (up_id u)). }
  intros _. apply preserves_bind; [|intros ?; apply preserves_ret].
  destruct (up_assetId u) as [a|]; [|apply preserves_ret]. destruct (nonempty a); [|apply preserves_ret].
  apply asset_status_kept. by apply Hna.
Qed.

(** The upload's asset is the one just stored; nobody has changed its owner since. *)
Lemma post_upload_kept body : preserves w_db (kept r) (post_upload config first_issue K body).
Proof.
  unfold post_upload. destruct (negb _); [apply preserves_ret|].
  destruct (uploadBody body) as [[filename contentType]|]; [|apply preserves_ret].
  do 4 (apply preserves_bind; [preserving|intros ?]). intros w Hw. unfold mbind_ at 1. unfold query at 1, exec at 1.
  destruct (Assets.insert _ _) as [[row d1]|e] eqn:E; [|by apply others_kept].
  pose proof (asset_insert_kept r _ _ _ _ (others_kept _ _ Hw) E) as Hd1.
  unfold Assets.insert in E. destruct (_ || _); [done|]. injection E as <- E.
  unfold mbind_. unfold query, exec. cbn [w_db w_tick].
  match goal with |- context [Uploads.insert ?u ?d] => destruct (Uploads.insert u d) as [[row2 d2]|e] eqn:E2 end;
    cbn; [|by apply others_kept].
  eapply (upload_insert_kept r); [|apply others_kept, Hd1|exact E2]. intros b [= <-].
  apply (pe_owned _ Hpeace (S (w_tick w)) d1 ("asset_" +:+ a)
    (mkAsset ("asset_" +:+ a) K "preparing" "upload" None None None None None None None None "standard" None None
       (db_now (others (w_tick w) (w_db w))) None None)).
  rewrite <- E. apply lookup_insert_eq.
Qed.

Lemma serve_kept q : preserves w_db (kept r) (serve K q).
Proof.
  pose proof others_kept as Hothers. destruct q; cbn [serve].
  - apply post_stream_kept.
  - unfold get_streams, stream_item, operation_of_stream, store_byLiveStreamId. preserving.
  - apply own_stream_kept. intros s. unfold operation_of_stream, store_byLiveStreamId. preserving.
  - apply own_stream_kept. intros s. preserving.
  - apply preserves_bind; [apply post_submit_kept|]. intros out. apply preserves_ret.
  - unfold get_asset, fetchAssetBundle. preserving.
  - unfold get_assets. preserving.
  - apply delete_asset_kept.
  - apply post_upload_kept.
  - apply post_complete_kept.
Qed.

(** A request changes nothing of another tenant.  Whatever a request with one API key
    asks for, an asset, an upload or a live stream of another key is afterwards exactly as
    it was, as long as nobody else changes it meanwhile, rows are stored under their ids,
    and an upload's asset is of the upload's key. *)
Lemma tenants_are_isolated q w :
  media_ok (w_db w) -> holds r (w_db w) -> holds r (w_db (snd (serve K q w))).
Proof. intros Hok Hr. by apply (serve_kept q w). Qed.
End requests.

(** ** Ids of others *)

Inductive target : Type := AssetId (id : string) | UploadId (id : string) | StreamId (id : string).
(** The row there is not of this key, or there is none. *)
Definition not_own (K : string) (t : target) (d : db) : Prop :=
  match t with
  | AssetId id => match db_assets d !! id with Some a => as_apiKeyId a <> K | None => True end
  | UploadId id => match db_uploads d !! id with Some u => up_apiKeyId u <> K | None => True end
  | StreamId id => match db_live_streams d !! id with Some s => ls_apiKeyId s <> K | None => True end
  end.
Definition not_found (t : target) : Response :=
  reply 404 (error_body (match t with
                         | AssetId _ => "Asset not found."
                         | UploadId _ => "Upload not found."
                         | StreamId _ => "Stream not found."
                         end)).

Section targets.
Context `{Plat : Platform} `{Client : PaidSessionClient} `{Env : Environment} `{Store : StorageProvider}.
Context (config : ProductConfig) (options : PaidSessionStoreOptions).
Context (select_worker : Capability -> string -> string -> N (option SelectedWorkerRoute)) (first_issue : json -> string).

(** The row a request names. *)
Definition request_target (q : product_request) : option target :=
  match q with
  | GetStream params | PostEnd params => StreamId <$> id_param params "id"
  | GetAsset k params => AssetId <$> id_param params k
  | DeleteAsset params => AssetId <$> id_param params "id"
  | PostComplete params => UploadId <$> id_param params "id"
  | PostSubmit body =>
      if negb (pc_storageConfigured config) || negb (pc_jobsConfigured config) || negb (pc_operationsConfigured config)
      then None else (fun b => AssetId (sb_asset_id b)) <$> submitBody body
  | _ => None
  end.

(** C39: another tenant's id looks like no id.  A request that names an asset, an upload or
    a stream of another key gets the same answer as one that names a row that does not
    exist, after one read and with no other effect, no call to the network included; and
    the lists hold rows of the caller's key only. *)
Theorem foreign_ids_look_missing K w :
  (forall q t, request_target q = Some t -> not_own K t (others (w_tick w) (w_db w)) ->
     serve config options select_worker first_issue K q w =
     (Ok (not_found t), w <| w_db := others (w_tick w) (w_db w) |> <| w_tick := S (w_tick w) |>)) /\
  (forall d includeDeleted cursor limit,
     Forall (fun a => as_apiKeyId a = K) (Assets.p_items (Assets.list_ K includeDeleted cursor limit d)) /\
     Forall (fun s => ls_apiKeyId s = K) (LiveStreams.listForApiKey K d)).
Proof.
  split.
  - intros q t Ht Hn. destruct q as [| |p|p|body|k p| |p| |p]; cbn [request_target] in Ht; try done; cbn [serve].
    + unfold get_stream, own_stream. destruct (id_param p "id") as [id|]; [|done]. injection Ht as <-. cbn in Hn.
      unfold mbind_ at 1, query_read, query, exec, LiveStreams.byId. destruct (_ !! id) as [s|]; [|done].
      by rewrite bool_decide_eq_false_2.
    + unfold post_end, own_stream. destruct (id_param p "id") as [id|]; [|done]. injection Ht as <-. cbn in Hn.
      unfold mbind_ at 1, query_read, query, exec, LiveStreams.byId. destruct (_ !! id) as [s|]; [|done].
      by rewrite bool_decide_eq_false_2.
    + unfold post_submit. destruct (submitBody body) as [parsed|]; [|by destruct (_ || _)].
      destruct (_ || _); [done|]. injection Ht as <-. cbn in Hn.
      unfold mbind_ at 2, query_read, query, exec, Assets.byId. unfold mbind_ at 1.
      destruct (_ !! sb_asset_id parsed) as [a|]; [|done]. rewrite (bool_decide_eq_false_2 (_ = K)) by done.
      by rewrite orb_true_r.
    + unfold get_asset, fetchAssetBundle. destruct (id_param p k) as [id|]; [|done]. injection Ht as <-. cbn in Hn.
      unfold mbind_ at 2, query_read, query, exec, Assets.byId. unfold mbind_ at 1.
      destruct (_ !! id) as [a|]; [|done]. by rewrite bool_decide_eq_false_2.
    + unfold delete_asset. destruct (id_param p "id") as [id|]; [|done]. injection Ht as <-. cbn in Hn.
      unfold mbind_ at 1, query_read, query, exec, Assets.byId. destruct (_ !! id) as [a|]; [|done].
      by rewrite bool_decide_eq_false_2.
    + unfold post_complete. destruct (id_param p "id") as [id|]; [|done]. injection Ht as <-. cbn in Hn.
      unfold mbind_ at 1, query_read, query, exec, Uploads.byId. destruct (_ !! id) as [u|]; [|done].
      by rewrite bool_decide_eq_false_2.
  - intros d includeDeleted cursor limit. split.
    + apply Forall_forall. intros a Ha. cbn in Ha. apply elem_of_take in Ha as (i & Ha & _).
      apply lookup_take_Some in Ha as [Ha _]. apply list_elem_of_lookup_2 in Ha. rewrite merge_sort_Permutation in Ha.
      apply elem_of_rows_where in Ha as [Hp _]. bools. done.
    + apply Forall_forall. intros s Hs. unfold LiveStreams.listForApiKey in Hs. apply elem_of_take in Hs as (i & Hs & _).
      apply list_elem_of_lookup_2 in Hs. unfold order_desc in Hs. rewrite merge_sort_Permutation in Hs.
      apply elem_of_rows_where in Hs as [Hp _]. by bools.
Qed.
End targets.

(** ** Storage keys *)

(** A name without slashes. *)
Definition one_segment (s : string) : Prop := nonempty s = true /\ until_slash s = None.

Lemma until_slash_app a x : until_slash a = None -> until_slash (a +:+ String "/" x) = Some (a, x).
Proof.
  induction a as [|c a IH]; [done|]. intros H. change (String c a +:+ String "/" x) with (String c (a +:+ String "/" x)).
  assert (Hc : c <> "/"%char) by (intros ->; done).
  assert (Ha : until_slash a = None).
  { destruct c as [[] [] [] [] [] [] [] []]; first [by destruct Hc | cbn in H; by destruct (until_slash a) as [[]|]]. }
  specialize (IH Ha). destruct c as [[] [] [] [] [] [] [] []]; first [by destruct Hc | cbn [until_slash]; by rewrite IH].
Qed.

Lemma join_cons a b l : join "/" (a :: b :: l) = a +:+ String "/" (join "/" (b :: l)).
Proof. reflexivity. Qed.

Definition simple_kinds : list string := ["source"; "rendition"; "manifest"; "thumbnail"; "metadata"].

Lemma upload_path_segments o :
  uo_kind o ∈ simple_kinds -> one_segment (uo_assetId o) ->
  exists prefix rest, assoc (uo_kind o) PATH_KIND_PREFIX = Some prefix /\
    until_slash (pathFor (upload_path o)) = Some (prefix, uo_assetId o +:+ String "/" rest) /\
    until_slash (uo_assetId o +:+ String "/" rest) = Some (uo_assetId o, rest).
Proof.
  intros Hk [Hne Hs]. unfold pathFor, upload_path. cbn [pf_kind pf_assetId pf_streamId pf_codec pf_resolution pf_filename].
  assert (exists prefix, assoc (uo_kind o) PATH_KIND_PREFIX = Some prefix /\ until_slash prefix = None) as (prefix & Hp & Hps).
  { unfold simple_kinds in Hk. repeat (apply elem_of_cons in Hk as [->|Hk]; [by eexists|]). by apply not_elem_of_nil in Hk. }
  rewrite Hp. change (some_text (Some (uo_assetId o))) with (if nonempty (uo_assetId o) then [uo_assetId o] else []).
  rewrite Hne. change (some_text None) with (@nil string). cbn [or_default app].
  match goal with |- context [join "/" (prefix :: uo_assetId o :: ?t)] => destruct t as [|b l] eqn:El end.
  { destruct (truthy _ && truthy _); discriminate El. }
  exists prefix, (join "/" (b :: l)). rewrite !join_cons. split_and!; [done|by apply until_slash_app|by apply until_slash_app].
Qed.

(** Objects of different assets have different keys.  When two uploads, of sources, of
    renditions, of manifests, thumbnails or metadata, get the same storage key, they are
    uploads of the same kind for the same asset, whatever file names the callers chose. *)
Lemma storage_keys_are_separate o1 o2 :
  uo_kind o1 ∈ simple_kinds -> uo_kind o2 ∈ simple_kinds -> one_segment (uo_assetId o1) -> one_segment (uo_assetId o2) ->
  pathFor (upload_path o1) = pathFor (upload_path o2) ->
  uo_assetId o1 = uo_assetId o2 /\ uo_kind o1 = uo_kind o2.
Proof.
  intros Hk1 Hk2 Ha1 Ha2 Heq.
  destruct (upload_path_segments _ Hk1 Ha1) as (p1 & r1 & Hp1 & Hu1 & Hx1).
  destruct (upload_path_segments _ Hk2 Ha2) as (p2 & r2 & Hp2 & Hu2 & Hx2).
  rewrite Heq, Hu2 in Hu1. injection Hu1 as <- Hrest. rewrite Hrest, Hx1 in Hx2. injection Hx2 as <- _. split; [done|].
  clear -Hk1 Hk2 Hp1 Hp2. revert Hk1 Hk2 Hp1 Hp2. generalize (uo_kind o1), (uo_kind o2). intros k1 k2 Hk1 Hk2 Hp1 Hp2.
  unfold simple_kinds in *.
  repeat (apply elem_of_cons in Hk1 as [->|Hk1]; [|]); try by apply not_elem_of_nil in Hk1.
  all: repeat (apply elem_of_cons in Hk2 as [->|Hk2]; [first [reflexivity | vm_compute in Hp1, Hp2; congruence]|]).
  all: by apply not_elem_of_nil in Hk2.
Qed.

Lemma storage_keys_are_separate_witness :
  pathFor (upload_path (mkUploadOptions "asset_1" "source" None None "a/b.mp4" "video/mp4" 60)) = "sources/asset_1/a/b.mp4" /\
  uo_assetId (mkUploadOptions "asset_1" "source" None None "a/b.mp4" "video/mp4" 60) =
  uo_assetId (mkUploadOptions "asset_1" "source" (Some "h264") None "a/b.mp4" "video/mp4" 9).
Proof.
  split; [reflexivity|].
  apply (storage_keys_are_separate (mkUploadOptions "asset_1" "source" None None "a/b.mp4" "video/mp4" 60)
    (mkUploadOptions "asset_1" "source" (Some "h264") None "a/b.mp4" "video/mp4" 9));
    [vm_compute; repeat constructor|vm_compute; repeat constructor|split; reflexivity|split; reflexivity|reflexivity].
Defined.

(** ** Two tenants *)

Definition tenant_db : db := (idle_db "active") <| db_api_keys := {["key"; "other"]} |>.
Definition tenant_world : world := live_world tenant_db.
Definition tenant_config : ProductConfig :=
  mkProductConfig (Some "rtmp://gateway/live") true "live" "vod" 10 100 60 60 true true true true.
Definition no_worker (_ : Capability) (_ _ : string) : N (option SelectedWorkerRoute) := mret_ None.
Definition any_issue (_ : json) : string := "Invalid body.".
Definition upload_request : product_request := PostUpload (JObj [("filename", JStr "a.mp4")]).

Lemma tenant_db_ok : media_ok tenant_db.
Proof.
  assert (Ea : db_assets tenant_db = {["asset" := sample_asset]}) by (vm_compute; reflexivity).
  assert (Eu : db_uploads tenant_db = ∅) by (vm_compute; reflexivity).
  assert (Es : db_live_streams tenant_db = {["stream" := sample_stream]}) by (vm_compute; reflexivity).
  split; rewrite ?Ea, ?Eu, ?Es.
  - by apply map_Forall_singleton.
  - apply map_Forall_empty.
  - by apply map_Forall_singleton.
  - intros k u a. by rewrite lookup_empty.
Qed.
Lemma tenant_holds : holds (StreamRow sample_stream) tenant_db.
Proof. vm_compute. reflexivity. Qed.
Lemma tenant_peace : peaceful (Env := sample_env) (StreamRow sample_stream).
Proof. split; [intros n d H; exact H|]. intros n d k a H. exists a. split; [exact H|reflexivity]. Qed.

(** The upload of the second tenant is stored; the first one's stream is as it was. *)
Example second_tenant_uploads :
  as_apiKeyId <$> db_assets (w_db (snd (serve (Env := sample_env) tenant_config sample_options no_worker any_issue "other"
    upload_request tenant_world))) !! "asset_0" = Some "other".
Proof. vm_compute. reflexivity. Qed.

Lemma tenants_are_isolated_witness :
  holds (StreamRow sample_stream) (w_db (snd (serve (Env := sample_env) tenant_config sample_options no_worker any_issue
    "other" upload_request tenant_world))).
Proof.
  apply (tenants_are_isolated (Env := sample_env) tenant_config sample_options no_worker any_issue
    (StreamRow sample_stream) "other" ltac:(discriminate) tenant_peace upload_request tenant_world tenant_db_ok tenant_holds).
Defined.

Lemma foreign_ids_look_missing_witness :
  fst (serve (Env := sample_env) tenant_config sample_options no_worker any_issue "other"
    (GetStream (JObj [("id", JStr "stream")])) tenant_world) = Ok (reply 404 (error_body "Stream not found.")).
Proof.
  rewrite (proj1 (foreign_ids_look_missing (Env := sample_env) tenant_config sample_options no_worker any_issue "other"
    tenant_world) (GetStream (JObj [("id", JStr "stream")])) (StreamId "stream") eq_refl).
  - reflexivity.
  - vm_compute. discriminate.
Defined.
