(* ===== verification/OperationSecrets.v ===== *)
(** * The encryption of operation secrets (livepeer/operationSecrets.ts)

    Envelope encryption over an authenticated cipher: a fresh data key seals the secrets,
    the wrapping key seals the data key, and both are bound to the operation and the key
    id.  The cipher is node's AES-256-GCM, a parameter; the class of the repository is
    discharged by this implementation. *)

From S2P Require Import Prelude Js Types Wire Http Database OperationRepo RouteProtocol.
Open Scope Z_scope.

Definition buffer (s : string) : bytes := String.list_byte_of_string s.

(** createCipheriv and createDecipheriv: sealing gives the ciphertext and the tag, opening
    fails when the tag does not fit the key, the text, the vector and the added data. *)
Class Aead := {
  seal : bytes -> bytes -> bytes -> bytes -> bytes * bytes;
  open_ : bytes -> bytes -> bytes -> bytes -> bytes -> option bytes;
  open_seal : forall key text iv aad,
    open_ key (fst (seal key text iv aad)) iv (snd (seal key text iv aad)) aad = Some text
}.
(** Authenticity of the added data. *)
Definition binds_aad (A : Aead) : Prop :=
  forall key text iv aad aad' text',
    open_ key (fst (seal key text iv aad)) iv (snd (seal key text iv aad)) aad' = Some text' -> aad' = aad.

(** What [encrypt] draws. *)
Record Draw := mkSecretDraw {
  dw_dataKey : bytes;
  dw_wrappedKeyIv : bytes;
  dw_payloadIv : bytes
}.

Definition KEY_BYTES : nat := 32.

Section cipher.
Context `{Plat : Platform} `{Crypto : Aead}.

(** [Buffer.from(encoded, "base64")] and back, of the platform. *)
Definition decodeWrappingKey (from_base64 : string -> bytes) (encoded : string) : result exn bytes :=
  let key := from_base64 encoded in
  throw_if negb (Nat.eqb (length key) KEY_BYTES) || (base64 key !=? encoded)
    with PlainError "LIVEPEER_OPERATION_SECRETS_KEK must be canonical base64 for exactly 32 bytes" ;;
  Ok key.

(** The object that is serialized: an absent property is left out. *)
Definition secrets_json (v : PaidOperationSecrets) : json :=
  JObj (opt_prop "openIntent" id (sec_openIntent v) ++ opt_prop "routeIntent" id (sec_routeIntent v) ++
        opt_prop "sessionParams" id (sec_sessionParams v) ++ opt_prop "grants" id (sec_grants v) ++
        opt_prop "control" id (sec_control v) ++ opt_prop "loc" id (sec_loc v) ++
        opt_prop "runnerIngestUrl" JStr (sec_runnerIngestUrl v) ++ opt_prop "runnerIngestKey" JStr (sec_runnerIngestKey v) ++
        opt_prop "credentials" id (sec_credentials v) ++ opt_prop "refillIntent" id (sec_refillIntent v)).
Definition text_property (j : option json) : option string := match j with Some (JStr s) => Some s | _ => None end.
Definition secrets_of (f : list (string * json)) : PaidOperationSecrets :=
  mkSecrets (assoc "openIntent" f) (assoc "routeIntent" f) (assoc "sessionParams" f) (assoc "grants" f)
    (assoc "control" f) (assoc "loc" f) (text_property (assoc "runnerIngestUrl" f))
    (text_property (assoc "runnerIngestKey" f)) (assoc "credentials" f) (assoc "refillIntent" f).

Definition wrapAad (operationId keyId : string) : bytes := buffer ("paid-operation:" +:+ operationId +:+ ":dek:" +:+ keyId).
Definition payloadAad (operationId keyId : string) : bytes :=
  buffer ("paid-operation:" +:+ operationId +:+ ":payload:" +:+ keyId).

Definition valid_cipher (keyId : string) (kek : bytes) : bool := nonempty keyId && Nat.eqb (length kek) KEY_BYTES.

Definition encrypt_secrets (keyId : string) (kek : bytes) (draw : Draw) (operationId : string) (value : PaidOperationSecrets) :
    EncryptedOperationSecrets :=
  let wrapped := seal kek (dw_dataKey draw) (dw_wrappedKeyIv draw) (wrapAad operationId keyId) in
  let payload := seal (dw_dataKey draw) (buffer (stringify (secrets_json value))) (dw_payloadIv draw)
                   (payloadAad operationId keyId) in
  mkEncrypted keyId (fst wrapped) (dw_wrappedKeyIv draw) (snd wrapped) (fst payload) (dw_payloadIv draw) (snd payload).

Definition unreadable : exn := PlainError "unable to authenticate data".
Definition decrypt_secrets (keyId : string) (kek : bytes) (operationId : string) (value : EncryptedOperationSecrets) :
    result exn PaidOperationSecrets :=
  throw_if enc_keyId value !=? keyId with PlainError "operation secret key is unavailable" ;;
  match open_ kek (enc_wrappedKey value) (enc_wrappedKeyIv value) (enc_wrappedKeyTag value) (wrapAad operationId keyId) with
  | None => Err unreadable
  | Some dataKey =>
      match open_ dataKey (enc_ciphertext value) (enc_payloadIv value) (enc_payloadTag value)
              (payloadAad operationId keyId) with
      | None => Err unreadable
      | Some plaintext =>
          match json_parse (String.string_of_list_byte plaintext) with
          | None => Err (PlainError "Unexpected token")
          | Some (JObj f) => Ok (secrets_of f)
          | Some _ => Err (PlainError "decrypted operation secrets are not an object")
          end
      end
  end.

(** ** Properties *)

(** The value survives [JSON.stringify] and [JSON.parse]. *)
Definition serializable (v : PaidOperationSecrets) : Prop := json_parse (stringify (secrets_json v)) = Some (secrets_json v).

Lemma assoc_skip {A} k k' (to : A -> json) o l : k <> k' -> assoc k (opt_prop k' to o ++ l) = assoc k l.
Proof. intros Hne. destruct o; cbn; [by rewrite bool_decide_eq_false_2|done]. Qed.
Lemma assoc_hit {A} k (to : A -> json) o l : assoc k l = None -> assoc k (opt_prop k to o ++ l) = to <$> o.
Proof. intros Hl. destruct o; cbn; [by rewrite bool_decide_eq_true_2|done]. Qed.
Lemma text_property_str o : text_property (JStr <$> o) = o.
Proof. by destruct o. Qed.
Lemma id_property (o : option json) : id <$> o = o.
Proof. by destruct o. Qed.

(** Reads one property of the serialized object. *)
Ltac read_property :=
  repeat rewrite assoc_skip by discriminate;
  rewrite assoc_hit by (repeat rewrite assoc_skip by discriminate; reflexivity).

Lemma secrets_of_json v : exists f, secrets_json v = JObj f /\ secrets_of f = v.
Proof.
  exists (match secrets_json v with JObj f => f | _ => [] end). split; [done|].
  destruct v as [o1 o2 o3 o4 o5 o6 o7 o8 o9 o10]. unfold secrets_of, secrets_json.
  cbn [sec_openIntent sec_routeIntent sec_sessionParams sec_grants sec_control sec_loc sec_runnerIngestUrl
    sec_runnerIngestKey sec_credentials sec_refillIntent].
  rewrite <- (app_nil_r (opt_prop "refillIntent" id o10)).
  f_equal; read_property; first [apply id_property | apply text_property_str].
Qed.

Lemma decrypt_encrypt_secrets keyId kek draw operationId v :
  serializable v ->
  decrypt_secrets keyId kek operationId (encrypt_secrets keyId kek draw operationId v) = Ok v.
Proof.
  intros Hv. unfold decrypt_secrets, encrypt_secrets. cbn [enc_keyId enc_wrappedKey enc_wrappedKeyIv enc_wrappedKeyTag
    enc_ciphertext enc_payloadIv enc_payloadTag]. rewrite bool_decide_eq_true_2 by done. cbn [negb refuse_if result_bind].
  rewrite open_seal, open_seal. unfold buffer. rewrite String.string_of_list_byte_of_string, Hv.
  destruct (secrets_of_json v) as (f & -> & Hf). by rewrite Hf.
Qed.

Lemma app_inj_string (a b c : string) : a +:+ c = b +:+ c -> a = b.
Proof.
  assert (Hlen : forall x y : string, String.length (x +:+ y) = (String.length x + String.length y)%nat).
  { induction x as [|ch x IH]; intros y; [done|]. change (S (String.length (x +:+ y)) = S (String.length x + String.length y)%nat).
    by rewrite IH. }
  revert b. induction a as [|x a IH]; intros [|y b] H.
  - done.
  - exfalso. apply (f_equal String.length) in H. rewrite !Hlen in H. cbn in H. lia.
  - exfalso. apply (f_equal String.length) in H. rewrite !Hlen in H. cbn in H. lia.
  - change (String x (a +:+ c) = String y (b +:+ c)) in H. injection H as -> H. f_equal. by apply IH.
Qed.
Lemma wrapAad_inj id id' keyId : wrapAad id keyId = wrapAad id' keyId -> id = id'.
Proof.
  unfold wrapAad, buffer. intros H. apply (f_equal String.string_of_list_byte) in H.
  rewrite !String.string_of_list_byte_of_string in H.
  assert (Happ : forall p a b : string, p +:+ a = p +:+ b -> a = b).
  { induction p as [|c p IH]; intros a b Hp; [exact Hp|]. change (String c (p +:+ a) = String c (p +:+ b)) in Hp.
    injection Hp as Hp. by apply IH. }
  apply Happ in H. by apply app_inj_string in H.
Qed.

(** C38: stored secrets open for their operation only.  What was encrypted for an operation
    is read back exactly, for every draw of keys and vectors; read for another operation,
    or with a cipher of another key id, it is an error and nothing is returned. *)
Theorem secrets_open_for_their_operation_only keyId kek draw operationId v :
  serializable v -> binds_aad Crypto ->
  decrypt_secrets keyId kek operationId (encrypt_secrets keyId kek draw operationId v) = Ok v /\
  (forall other, other <> operationId ->
     is_ok (decrypt_secrets keyId kek other (encrypt_secrets keyId kek draw operationId v)) = false) /\
  (forall keyId' kek', keyId' <> keyId ->
     is_ok (decrypt_secrets keyId' kek' operationId (encrypt_secrets keyId kek draw operationId v)) = false).
Proof.
  intros Hv Hb. split; [by apply decrypt_encrypt_secrets|]. split.
  - intros other Hne. unfold decrypt_secrets, encrypt_secrets. cbn [enc_keyId enc_wrappedKey enc_wrappedKeyIv enc_wrappedKeyTag].
    rewrite bool_decide_eq_true_2 by done. cbn [negb refuse_if result_bind].
    destruct (open_ kek _ _ _ _) as [k|] eqn:E; [|done]. by apply Hb, wrapAad_inj in E.
  - intros keyId' kek' Hne. unfold decrypt_secrets, encrypt_secrets. cbn [enc_keyId].
    by rewrite bool_decide_eq_false_2 by (by apply not_eq_sym).
Qed.

(** The interface of the repository, where every value the gateway stores is serializable. *)
Definition operation_secret_cipher (keyId : string) (kek : bytes) (all : forall v, serializable v) :
    OperationSecretCipher Draw :=
  {| encrypt := encrypt_secrets keyId kek; decrypt := decrypt_secrets keyId kek;
     decrypt_encrypt := fun draw operationId v => decrypt_encrypt_secrets keyId kek draw operationId v (all v) |}.
End cipher.

(** A cipher whose tag is the key with the added data. *)
#[local] Instance byte_decision : EqDecision Byte.byte := Byte.byte_eq_dec.
#[refine] Definition plain_aead : Aead := {|
  seal := fun key text iv aad => (text, key ++ aad);
  open_ := fun key text iv tag aad => if bool_decide (tag = key ++ aad) then Some text else None;
  open_seal := _
|}.
Proof. intros. cbn. by rewrite bool_decide_eq_true_2. Defined.
Lemma plain_aead_binds : binds_aad plain_aead.
Proof. intros key text iv aad aad' text'. cbn. case_bool_decide as H; [|done]. intros _. symmetry. by apply app_inv_head in H. Qed.

Definition witness_secrets : PaidOperationSecrets :=
  mkSecrets None None None None None None None (Some "ingest") None None.
Definition secrets_platform : Platform := {|
  is_url := fun _ => true; is_uuid := fun _ => true; new_URL := fun _ => None;
  stringify := fun _ => "secrets"; json_parse := fun _ => Some (JObj [("runnerIngestKey", JStr "ingest")]);
  base64_text := fun s => s; sha256_hex := fun s => s; date_parse := fun _ => None; toISOString := fun _ => "";
  headers_valid := fun _ => true; caller_publicKey := ""; signAuthorization := fun a => Ok a
|}.

Lemma secrets_open_for_their_operation_only_witness :
  decrypt_secrets (Plat := secrets_platform) (Crypto := plain_aead) "local-v1" [Byte.x01] "op"
    (encrypt_secrets (Plat := secrets_platform) (Crypto := plain_aead) "local-v1" [Byte.x01]
       (mkSecretDraw [Byte.x02] [] []) "op" witness_secrets) = Ok witness_secrets /\
  is_ok (decrypt_secrets (Plat := secrets_platform) (Crypto := plain_aead) "local-v1" [Byte.x01] "other"
    (encrypt_secrets (Plat := secrets_platform) (Crypto := plain_aead) "local-v1" [Byte.x01]
       (mkSecretDraw [Byte.x02] [] []) "op" witness_secrets)) = false.
Proof.
  destruct (secrets_open_for_their_operation_only (Plat := secrets_platform) (Crypto := plain_aead) "local-v1" [Byte.x01]
    (mkSecretDraw [Byte.x02] [] []) "op" witness_secrets eq_refl plain_aead_binds) as (H1 & H2 & _).
  split; [exact H1|]. apply H2. discriminate.
Defined.
