(* ===== verification/CallerProof.v ===== *)
(** * Base64 text and caller proofs (livepeer/callerProof.ts)

    First the text: [Buffer.from(s, "base64")] beside [base64] of [Http]: the decoder of the platform is
    lenient (it skips foreign characters, takes both alphabets and ends at the first
    padding), so the code compares the text encoded again with what it was given.  The
    two directions are inverse on bytes, and the texts that pass the comparison are
    exactly the encodings.  Then the proof that the gateway is the caller an authorization
    was signed for. *)

From S2P Require Import Prelude Js Types Http.
From Stdlib Require Import Ascii ZifyNat.
Open Scope nat_scope.

Definition sextet (c : ascii) : option nat :=
  let n := code c in
  if is_upper c then Some (n - 65)
  else if is_lower c then Some (n - 71)
  else if is_digit c then Some (n + 4)
  else if bool_decide (c ∈ ["+"; "-"]%char) then Some 62
  else if bool_decide (c ∈ ["/"; "_"]%char) then Some 63
  else None.

Fixpoint sextets (s : string) : list nat :=
  match s with
  | EmptyString => []
  | String "=" _ => []
  | String c s' => match sextet c with Some n => n :: sextets s' | None => sextets s' end
  end.

Definition octet (n : nat) : Byte.byte := match Byte.of_nat n with Some b => b | None => Byte.x00 end.

(** Four digits are three bytes; two or three digits at the end are one or two. *)
Fixpoint octets (l : list nat) : bytes :=
  match l with
  | a :: b :: c :: d :: l' =>
      octet (a * 4 + b / 16) :: octet (b mod 16 * 16 + c / 4) :: octet (c mod 4 * 64 + d) :: octets l'
  | [a; b; c] => [octet (a * 4 + b / 16); octet (b mod 16 * 16 + c / 4)]
  | [a; b] => [octet (a * 4 + b / 16)]
  | _ => []
  end.

Definition from_base64 (s : string) : bytes := octets (sextets s).

Definition base64_char (c : ascii) : bool :=
  is_upper c || is_lower c || is_digit c || bool_decide (c ∈ ["+"; "/"]%char).

(** What is left after the leading characters of the alphabet. *)
Fixpoint after_digits (s : string) : string :=
  match s with
  | EmptyString => EmptyString
  | String c s' => if base64_char c then after_digits s' else s
  end.

(** The regular expression of callerProof.ts: one or more digits, at most two signs of padding. *)
Definition base64_shape (s : string) : bool :=
  match s with
  | String c s' => base64_char c && bool_decide (after_digits s' ∈ [""; "="; "=="])
  | EmptyString => false
  end.

(** ** Decoding an encoding *)

Lemma digit_facts n :
  n < 64 -> sextet (base64_digit n) = Some n /\ base64_char (base64_digit n) = true /\ base64_digit n <> "="%char.
Proof.
  intros H. do 64 (destruct n as [|n]; [by vm_compute|]). lia.
Qed.

Lemma sextets_digit n s : n < 64 -> sextets (String (base64_digit n) s) = n :: sextets s.
Proof.
  intros H. destruct (digit_facts n H) as (Hs & _ & Hne).
  transitivity (match sextet (base64_digit n) with Some m => m :: sextets s | None => sextets s end).
  { destruct (base64_digit n) as [[] [] [] [] [] [] [] []]; try reflexivity; done. }
  by rewrite Hs.
Qed.

Lemma to_nat_bound b : Byte.to_nat b < 256.
Proof. by destruct b; apply Nat.ltb_lt. Qed.
Lemma octet_to_nat b n : n = Byte.to_nat b -> octet n = b.
Proof. intros ->. unfold octet. by rewrite Byte.of_to_nat. Qed.

#[local] Ltac Zify.zify_post_hook ::= Z.div_mod_to_equations.

(** Induction over a list in groups of three. *)
Lemma by_threes {A} (P : list A -> Prop) :
  P [] -> (forall a, P [a]) -> (forall a b, P [a; b]) -> (forall a b c l, P l -> P (a :: b :: c :: l)) -> forall l, P l.
Proof.
  intros H0 H1 H2 H3. fix IH 1. intros [|a [|b [|c l]]]; [done|apply H1|apply H2|apply H3, IH].
Qed.

Lemma from_base64_base64 l : from_base64 (base64 l) = l.
Proof.
  unfold from_base64.
  induction l as [|a|a b|a b c l IH] using by_threes; cbn [base64]; [done|..];
    rewrite !sextets_digit by (pose proof (to_nat_bound a); try pose proof (to_nat_bound b);
                               try pose proof (to_nat_bound c); lia);
    cbn [sextets octets];
    pose proof (to_nat_bound a); try pose proof (to_nat_bound b); try pose proof (to_nat_bound c);
    rewrite ?IH; repeat f_equal; apply octet_to_nat; lia.
Qed.

Lemma base64_inj l l' : base64 l = base64 l' -> l = l'.
Proof. intros H. by rewrite <- (from_base64_base64 l), <- (from_base64_base64 l'), H. Qed.

(** ** Canonical text *)

Lemma after_digit n s : n < 64 -> after_digits (String (base64_digit n) s) = after_digits s.
Proof. intros H. destruct (digit_facts n H) as (_ & Hc & _). cbn. by rewrite Hc. Qed.

Lemma base64_tail l : after_digits (base64 l) ∈ [""; "="; "=="].
Proof.
  induction l as [|a|a b|a b c l IH] using by_threes; cbn [base64];
    try pose proof (to_nat_bound a); try pose proof (to_nat_bound b); try pose proof (to_nat_bound c);
    rewrite ?after_digit by lia; cbn [after_digits base64_char]; [set_solver..|done].
Qed.

Lemma base64_length l : String.length (base64 l) mod 4 = 0.
Proof. induction l as [|a|a b|a b c l IH] using by_threes; cbn [base64 String.length]; lia. Qed.

Lemma base64_nonempty l : l <> [] -> exists n s, n < 64 /\ base64 l = String (base64_digit n) s.
Proof.
  destruct l as [|a [|b [|c l]]]; [done|..]; intros _; cbn [base64];
    exists (Byte.to_nat a / 4); pose proof (to_nat_bound a); eexists; (split; [lia|done]).
Qed.

Lemma base64_has_shape l : l <> [] -> base64_shape (base64 l) = true.
Proof.
  intros H. destruct (base64_nonempty l H) as (n & s & Hn & E). pose proof (base64_tail l) as Ht.
  rewrite E in *. rewrite after_digit in Ht by done. destruct (digit_facts n Hn) as (_ & Hc & _).
  cbn [base64_shape]. rewrite Hc. by apply bool_decide_eq_true.
Qed.

(** ** Caller proofs (livepeer/callerProof.ts)

    LOC signs an authorization to spend; the gateway proves that it is the caller it was
    signed for by signing the authorization with its own key, and the broker recovers the
    key from the proof.  Curve and hash are those of the noble packages: a class with the
    laws of recoverable signatures. *)

Definition utf8 (s : string) : bytes := String.list_byte_of_string s.

(** [secp256k1] and [keccak_256].  A recovered signature is the recovery bit and the two
    32-byte halves of the signature; [recover] is the receiver's function. *)
Class Secp256k1 := {
  isValidSecretKey : bytes -> bool;
  getPublicKey : bytes -> bytes;
  sign : bytes -> bytes -> bytes;
  keccak_256 : bytes -> bytes;
  recover : Byte.byte -> bytes -> bytes -> option bytes;
  sign_recovers : forall digest key, isValidSecretKey key = true ->
    exists bit half, sign digest key = bit :: half /\ length half = 64 /\ Byte.to_nat bit < 4 /\
      recover bit half digest = Some (getPublicKey key)
}.

Definition PROOF_DOMAIN : bytes := utf8 "livepeer-invocation-proof/v1" ++ [Byte.x00].
Definition PERSONAL_SIGN_PREFIX : bytes := [Byte.x19] ++ utf8 "Ethereum Signed Message:" ++ [Byte.x0a] ++ utf8 "32".

(** [/^[0-9a-f]{64}$/] *)
Definition PRIVATE_KEY (s : string) : bool := Nat.eqb (String.length s) 64 && all_chars is_lowhex s.

Definition not_canonical : exn := PlainError "LOC spend_authorization is not canonical base64".

Definition decodeCanonicalBase64 (value : string) : result exn bytes :=
  throw_if Nat.eqb (String.length value) 0 || negb (Nat.eqb (String.length value mod 4) 0) || negb (base64_shape value)
    with not_canonical ;;
  let decoded := from_base64 value in
  throw_if base64 decoded !=? value with not_canonical ;;
  Ok decoded.

(** [Buffer.toString("hex")] *)
Definition hex_char (n : nat) : ascii := ascii_of_nat (if Nat.ltb n 10 then 48 + n else 87 + n).
Fixpoint hex_of (l : bytes) : string :=
  match l with
  | [] => EmptyString
  | b :: l' => String (hex_char (Byte.to_nat b / 16)) (String (hex_char (Byte.to_nat b mod 16)) (hex_of l'))
  end.

Section proof.
Context `{Curve : Secp256k1}.

Record CallerProofIdentity := mkIdentity {
  ci_publicKey : string;
  ci_signAuthorization : string -> result exn string
}.

(** What is signed: the digest of the authorization's bytes under the proof's domain, as a
    personal message. *)
Definition personal_digest (authorization : bytes) : bytes :=
  keccak_256 (PERSONAL_SIGN_PREFIX ++ keccak_256 (PROOF_DOMAIN ++ authorization)).

(** The 65 bytes of the proof: the two halves and the recovery bit, moved by 27. *)
Definition proof_wire (recovered : bytes) : bytes :=
  tl recovered ++ [octet (Byte.to_nat (hd Byte.x00 recovered) + 27)].

Definition sign_authorization (privateKey : bytes) (authorization : string) : result exn string :=
  let? authorizationBytes := decodeCanonicalBase64 authorization in
  Ok (base64 (proof_wire (sign (personal_digest authorizationBytes) privateKey))).

Definition createCallerProofIdentity (privateKeyHex : string) : result exn CallerProofIdentity :=
  throw_if negb (PRIVATE_KEY privateKeyHex)
    with PlainError "LIVEPEER_CALLER_PRIVATE_KEY must be 64 lowercase hex characters" ;;
  let privateKey := bytes_of_hex privateKeyHex in
  throw_if negb (isValidSecretKey privateKey)
    with PlainError "LIVEPEER_CALLER_PRIVATE_KEY is not a valid secp256k1 private key" ;;
  Ok (mkIdentity (hex_of (getPublicKey privateKey)) (sign_authorization privateKey)).

(** The broker's check: the proof's text is the canonical encoding of 65 bytes, and the
    key that its signature of the authorization recovers is the caller's. *)
Definition caller_of (authorization proof : string) : option string :=
  match decodeCanonicalBase64 authorization, decodeCanonicalBase64 proof with
  | Ok message, Ok wire =>
      if Nat.eqb (length wire) 65
      then hex_of <$> recover (octet (Byte.to_nat (List.last wire Byte.x00) - 27)) (take 64 wire) (personal_digest message)
      else None
  | _, _ => None
  end.
End proof.

(** *** Canonical text *)

Lemma decodeCanonicalBase64_spec value decoded :
  decodeCanonicalBase64 value = Ok decoded <-> decoded <> [] /\ value = base64 decoded.
Proof.
  unfold decodeCanonicalBase64. split.
  - rewrite !guard_Ok. intros (H & Hc & [= <-]). bools.
    split; [|done]. intros E. rewrite E in Hc. by subst value.
  - intros [Hne ->].
    destruct (base64_nonempty decoded Hne) as (n & s & _ & E).
    assert (String.length (base64 decoded) <> 0) as Hl by (by rewrite E).
    pose proof (base64_length decoded) as Hm. pose proof (base64_has_shape decoded Hne) as Hs.
    rewrite from_base64_base64.
    rewrite (proj2 (Nat.eqb_neq _ _) Hl), (proj2 (Nat.eqb_eq _ _) Hm), Hs, bool_decide_eq_true_2 by done. done.
Qed.

(** *** Proofs identify the caller *)

Section spec.
Context `{Curve : Secp256k1}.

Lemma proof_wire_reads bit half :
  length half = 64 -> Byte.to_nat bit < 4 ->
  length (proof_wire (bit :: half)) = 65 /\ take 64 (proof_wire (bit :: half)) = half /\
  octet (Byte.to_nat (List.last (proof_wire (bit :: half)) Byte.x00) - 27) = bit.
Proof.
  intros Hl Hb. unfold proof_wire. cbn [tl hd].
  rewrite length_app, Hl, take_app_length', List.last_last by done.
  split_and!; [done..|]. apply octet_to_nat.
  assert (exists b, Byte.of_nat (Byte.to_nat bit + 27) = Some b) as [b Eb].
  { destruct (Byte.of_nat _) eqn:E; [eauto|]. apply Byte.of_nat_None_iff in E. lia. }
  unfold octet. rewrite Eb. apply Byte.to_of_nat in Eb. lia.
Qed.

(** C25: a proof names the caller it was made by.  An identity is made only from a valid
    private key.  Its signature of an authorization exists exactly for canonical base64
    text of at least one byte, and then the broker, who decodes both texts and recovers
    the key from the 65 bytes, gets the identity's public key. *)
Theorem caller_proof_names_the_caller privateKeyHex identity :
  createCallerProofIdentity privateKeyHex = Ok identity ->
  PRIVATE_KEY privateKeyHex = true /\ isValidSecretKey (bytes_of_hex privateKeyHex) = true /\
  forall authorization,
    (is_ok (ci_signAuthorization identity authorization) = true <->
       exists message, message <> [] /\ authorization = base64 message) /\
  (forall proof, ci_signAuthorization identity authorization = Ok proof ->
       caller_of authorization proof = Some (ci_publicKey identity)).
Proof.
  unfold createCallerProofIdentity. rewrite !guard_Ok. intros (Hf & Hv & [= <-]). bools.
  split_and!; [done..|]. intros authorization. cbn. unfold sign_authorization, caller_of.
  destruct (decodeCanonicalBase64 authorization) as [message|e] eqn:E; cbn.
  - apply decodeCanonicalBase64_spec in E. split; [naive_solver|].
    destruct (sign_recovers (personal_digest message) (bytes_of_hex privateKeyHex) Hv)
      as (bit & half & -> & Hl & Hb & Hr).
    destruct (proof_wire_reads bit half Hl Hb) as (W1 & W2 & W3).
    intros proof [= <-].
    rewrite (proj2 (decodeCanonicalBase64_spec _ (proof_wire (bit :: half)))) by
      (split; [by intros E0; rewrite E0 in W1|done]).
    rewrite W1, W2, W3, Hr. done.
  - split; [|done]. split; [done|]. intros (m & Hm & Ha).
    by rewrite (proj2 (decodeCanonicalBase64_spec _ m)) in E.
Qed.
End spec.

(** A curve whose signature is the key itself. *)
#[refine] Definition sample_curve : Secp256k1 := {|
  isValidSecretKey := fun k => Nat.eqb (length k) 32;
  getPublicKey := fun k => Byte.x02 :: k;
  sign := fun _ k => Byte.x01 :: k ++ k;
  keccak_256 := fun m => m;
  recover := fun _ half _ => Some (Byte.x02 :: take 32 half);
  sign_recovers := _
|}.
Proof.
  intros digest key H. apply Nat.eqb_eq in H. exists Byte.x01, (key ++ key).
  rewrite length_app, H, take_app_length' by done. cbn. split_and!; [done..|lia|done].
Defined.

Definition sample_private_key : string := repeat_char "7" 64.
Definition sample_identity : result exn CallerProofIdentity := createCallerProofIdentity (Curve := sample_curve) sample_private_key.

Lemma caller_proof_names_the_caller_witness :
  exists identity, sample_identity = Ok identity /\
  is_ok (ci_signAuthorization identity "QUJD") = true /\ is_ok (ci_signAuthorization identity "QUJ=") = false.
Proof.
  eexists. split; [reflexivity|].
  destruct (caller_proof_names_the_caller (Curve := sample_curve) sample_private_key _ eq_refl) as (_ & _ & H).
  split; [|by vm_compute].
  apply H. exists (utf8 "ABC"). by vm_compute.
Defined.
