(* ===== verification/ControlSource.v ===== *)
(** * The control channel (livepeer/paidSessionControlSource.ts)

    One read of the channel opens a socket to the broker, collects the frames that arrive
    and resolves when the window is over or the socket ends.  The promise resolves with
    the array itself: a frame that arrives after that is still appended to it, and the
    reconciler, which awaits between two frames, may see it. *)

From S2P Require Import Prelude Js Types Http LiveReconciler.
Open Scope Z_scope.

Inductive socket_event : Type :=
| Message (data : string)
| SocketError
| SocketClose
| WindowOver.

Inductive settlement : Type :=
| Resolved
| Rejected (e : exn).

(** The variables of one call: the array, [settled] with what the promise became, whether
    the timer is armed and whether the socket was told to close. *)
Record reading := mkReading {
  rd_frames : list json;
  rd_settled : option settlement;
  rd_timer : bool;
  rd_closing : bool
}.
#[export] Instance reading_eta : RecEta reading := fun s =>
  mkReading (rd_frames s) (rd_settled s) (rd_timer s) (rd_closing s).
Definition opened : reading := mkReading [] None true false.

Section source.
Context `{Plat : Platform}.

Definition finish (error : option exn) (s : reading) : reading :=
  if is_present (rd_settled s) then s
  else
    s <| rd_settled := Some (match error, rd_frames s with
                             | Some e, [] => Rejected e
                             | _, _ => Resolved
                             end) |>
      <| rd_timer := false |> <| rd_closing := true |>.

Definition invalid_frame : exn := PlainError "paid session control frame is invalid".
Definition unavailable : exn := PlainError "paid session control unavailable".

Definition on_event (s : reading) (e : socket_event) : reading :=
  match e with
  | Message data =>
      match json_parse data with
      | Some frame => s <| rd_frames := rd_frames s ++ [frame] |>
      | None => finish (Some invalid_frame) s
      end
  | SocketError => finish (Some unavailable) s
  | SocketClose => finish None s
  | WindowOver => if rd_timer s then finish None s else s
  end.

Definition valid_window (windowMs : jsnum) : bool :=
  safe_at_least 10 windowMs && match windowMs with NInt z => z <=? 10000 | _ => false end.

(** The address is checked before a socket is opened; [None] is a socket that opens. *)
Definition refused_url (eventsWs : string) : option exn :=
  match new_URL eventsWs with
  | None => Some (PlainError "Invalid URL")
  | Some url =>
      if (negb (url_protocol url ==? "ws:") && negb (url_protocol url ==? "wss:")) || nonempty (url_username url) ||
         nonempty (url_password url) || nonempty (url_hash url)
      then Some (PlainError "paid session control URL is invalid")
      else None
  end.

(** A read during which these events happen, as its consumer sees it when it is done with
    the array: [None] when the promise has not settled. *)
Definition read_control (input : ControlReadInput) (events : list socket_event) : option (result exn (list json)) :=
  match refused_url (cr_eventsWs input) with
  | Some e => Some (Err e)
  | None =>
      let s := foldl on_event opened events in
      match rd_settled s with
      | None => None
      | Some Resolved => Some (Ok (rd_frames s))
      | Some (Rejected e) => Some (Err e)
      end
  end.

Definition createPaidSessionControlSource (windowMs : jsnum) :
    result exn (ControlReadInput -> list socket_event -> option (result exn (list json))) :=
  throw_if negb (valid_window windowMs) with PlainError "paid session control window is invalid" ;;
  Ok read_control.

(** ** How a read ends *)

(** The error of the event that ends a read, if it is one. *)
Definition ending (e : socket_event) : option (option exn) :=
  match e with
  | Message data => match json_parse data with Some _ => None | None => Some (Some invalid_frame) end
  | SocketError => Some (Some unavailable)
  | SocketClose | WindowOver => Some None
  end.
Fixpoint frames_of (l : list socket_event) : list json :=
  match l with
  | [] => []
  | Message data :: l' => match json_parse data with Some j => j :: frames_of l' | None => frames_of l' end
  | _ :: l' => frames_of l'
  end.
(** The frames before the first ending event, and its error. *)
Fixpoint first_ending (l : list socket_event) : option (list json * option exn) :=
  match l with
  | [] => None
  | e :: l' =>
      match ending e with
      | Some error => Some ([], error)
      | None => (fun '(before, error) => (frames_of [e] ++ before, error)) <$> first_ending l'
      end
  end.

Lemma frames_of_app l l' : frames_of (l ++ l') = frames_of l ++ frames_of l'.
Proof. induction l as [|[d| | |] l IH]; cbn; try done. destruct (json_parse d); cbn; by rewrite IH. Qed.

(** A settled read only gains frames. *)
Lemma settled_stays l s o :
  rd_settled s = Some o -> rd_timer s = false ->
  foldl on_event s l = s <| rd_frames := rd_frames s ++ frames_of l |>.
Proof.
  revert s. induction l as [|e l IH]; intros [f x t c]; cbn; intros -> ->; [by rewrite app_nil_r|].
  destruct e as [d| | |]; cbn; [|by rewrite (IH (mkReading f (Some o) false c))..].
  destruct (json_parse d) as [j|]; cbn.
  - rewrite IH by done. unfold update_field; cbn. by rewrite <- app_assoc.
  - by rewrite (IH (mkReading f (Some o) false c)).
Qed.

(** An event that does not end an open read adds its frame. *)
Lemma open_continues e f :
  ending e = None -> on_event (mkReading f None true false) e = mkReading (f ++ frames_of [e]) None true false.
Proof. destruct e as [d| | |]; cbn; try done. by destruct (json_parse d). Qed.

Lemma open_ends e f error :
  ending e = Some error ->
  on_event (mkReading f None true false) e =
    mkReading f (Some (match error, f with Some x, [] => Rejected x | _, _ => Resolved end)) false true /\
  frames_of [e] = [].
Proof. destruct e as [d| | |]; cbn; try (by intros [= <-]). destruct (json_parse d); by try intros [= <-]. Qed.

Lemma reading_spec l f :
  match first_ending l with
  | None => foldl on_event (mkReading f None true false) l = mkReading (f ++ frames_of l) None true false
  | Some (before, error) =>
      foldl on_event (mkReading f None true false) l =
        mkReading (f ++ frames_of l)
          (Some (match error, f ++ before with Some x, [] => Rejected x | _, _ => Resolved end)) false true /\
      before `prefix_of` frames_of l
  end.
Proof.
  revert f. induction l as [|e l IH]; intros f; cbn [first_ending foldl]; [by rewrite app_nil_r|].
  rewrite (frames_of_app [e] l : frames_of (e :: l) = frames_of [e] ++ frames_of l).
  destruct (ending e) as [error|] eqn:E.
  - destruct (open_ends e f error E) as [-> ->]. rewrite app_nil_l, app_nil_r. split; [|apply prefix_nil].
    by erewrite settled_stays.
  - rewrite (open_continues e f E). specialize (IH (f ++ frames_of [e])).
    destruct (first_ending l) as [[before error]|]; cbn [fmap option_fmap option_map].
    + destruct IH as [-> Hp]. rewrite <- !app_assoc. split; [done|]. by apply prefix_app.
    + rewrite IH. by rewrite <- app_assoc.
Qed.

(** C26: a read of the control channel ends, once.  A read settles when, and only when, an
    ending event occurs: the window is over, the socket closes or fails, or a frame is
    not JSON.  It fails only if the first such event is a failure and no frame came
    before it.  Otherwise it gives the frames in the order they came, every frame before
    the end among them; a frame that comes later is only appended.  Once settled, the
    timer is off and the socket was told to close. *)
Theorem control_read_settles_once input events :
  refused_url (cr_eventsWs input) = None ->
  let s := foldl on_event opened events in
  match first_ending events with
  | None => read_control input events = None /\ rd_timer s = true
  | Some ([], Some error) => read_control input events = Some (Err error) /\ rd_timer s = false /\ rd_closing s = true
  | Some (before, _) =>
      exists late, read_control input events = Some (Ok (before ++ late)) /\ before ++ late = frames_of events /\
        rd_timer s = false /\ rd_closing s = true
  end.
Proof.
  intros Hu s. unfold read_control. rewrite Hu. fold s.
  pose proof (reading_spec events []) as H. change (mkReading [] None true false) with opened in H. fold s in H.
  destruct (first_ending events) as [[before error]|]; [|by rewrite H].
  destruct H as [-> [late Hl]]. cbn.
  destruct before as [|j before]; destruct error as [error|]; cbn; rewrite ?Hl; eauto 7.
Qed.
End source.

(** ** Witness *)

Definition control_platform : Platform := {|
  is_url := fun _ => true; is_uuid := fun _ => true; new_URL := fun _ => Some (mkURL "wss:" "" "" "");
  stringify := fun _ => ""; json_parse := fun s => if startsWith "{" s then Some (JStr s) else None;
  base64_text := fun s => s; sha256_hex := fun s => s; date_parse := fun _ => None; toISOString := fun _ => "";
  headers_valid := fun _ => true; caller_publicKey := ""; signAuthorization := fun a => Ok a
|}.
Definition two_frames : list socket_event := [Message "{1}"; WindowOver; Message "{2}"; SocketClose].

Lemma control_read_settles_once_witness :
  read_control (Plat := control_platform) (mkControlRead "wss://broker" "token" None) two_frames =
    Some (Ok [JStr "{1}"; JStr "{2}"]) /\
  read_control (Plat := control_platform) (mkControlRead "wss://broker" "token" None) [Message "no"; WindowOver] =
    Some (Err invalid_frame).
Proof.
  split.
  - destruct (control_read_settles_once (Plat := control_platform) (mkControlRead "wss://broker" "token" None) two_frames
      eq_refl) as (late & H & E & _).
    by rewrite H, E.
  - by destruct (control_read_settles_once (Plat := control_platform) (mkControlRead "wss://broker" "token" None)
      [Message "no"; WindowOver] eq_refl) as [H _].
Defined.
