(* ===== verification/Numbers.v ===== *)
(** * Numbers from text

    [Number(text)]: white space is trimmed, the empty string is zero, hexadecimal, octal
    and binary literals are integers, and a decimal may be signed, have a fraction and an
    exponent; everything else is not a number.  The value is the double nearest to what
    is written. *)

From S2P Require Import Prelude Js Types JsonCompare.
From Stdlib Require Import Ascii.
Open Scope Z_scope.

(** The leading digits and the rest. *)
Fixpoint span_digits (s : string) : string * string :=
  match s with
  | EmptyString => (EmptyString, EmptyString)
  | String c s' => if is_digit c then let '(d, r) := span_digits s' in (String c d, r) else (EmptyString, s)
  end.

(** The double nearest to [n * 10^e]. *)
Definition scaled (n e : Z) : jsnum :=
  if 0 <=? e then round_double (n * 10 ^ e) 1 else round_double n (Z.to_pos (10 ^ (- e))).

(** What may follow the digits of a number: nothing, or an exponent. *)
Definition exponent (s : string) : option Z :=
  match s with
  | EmptyString => Some 0
  | String ("e" | "E") (String "-" d) => Z.opp <$> radix_literal 10 d
  | String ("e" | "E") (String "+" d) => radix_literal 10 d
  | String ("e" | "E") d => radix_literal 10 d
  | _ => None
  end.

Definition unsigned_decimal (s : string) : jsnum :=
  if s ==? "Infinity" then NInf false
  else
    let '(whole, rest) := span_digits s in
    let '(part, rest) := match rest with String "." rest' => span_digits rest' | _ => (EmptyString, rest) end in
    match exponent rest, radix_literal 10 (whole +:+ part) with
    | Some e, Some n => scaled n (e - str_len part)
    | _, _ => NNaN
    end.

Definition Number_ (text : string) : jsnum :=
  let literal radix s := match radix_literal radix s with Some z => round_double z 1 | None => NNaN end in
  match trim text with
  | EmptyString => NInt 0
  | String "0" (String ("x" | "X") s) => literal 16 s
  | String "0" (String ("o" | "O") s) => literal 8 s
  | String "0" (String ("b" | "B") s) => literal 2 s
  | String "-" s => num_opp (unsigned_decimal s)
  | String "+" s => unsigned_decimal s
  | s => unsigned_decimal s
  end.

(** [a / b] *)
Definition num_div (a b : jsnum) : jsnum :=
  match fraction a, fraction b with
  | Some (x, d), Some (Zpos y, e) => round_double (x * Zpos e) (d * y)
  | Some (x, d), Some (Zneg y, e) => round_double (- x * Zpos e) (d * y)
  | Some (x, _), Some (0, _) => if x =? 0 then NNaN else NInf (x <? 0)
  | Some _, None => match b with NInf _ => NInt 0 | _ => NNaN end
  | None, Some (y, _) => match a with NInf s => NInf (if 0 <=? y then s else negb s) | _ => NNaN end
  | None, None => NNaN
  end.

Example numbers_read :
  map Number_ ["12.5"; " 7 "; ""; "1e3"; "0x1F"; "-2"; "1.0e-1x"; "."; "Infinity"; "30000.000"] =
  [NFrac 25 2; NInt 7; NInt 0; NInt 1000; NInt 31; NInt (-2); NNaN; NNaN; NInf false; NInt 30000].
Proof. by vm_compute. Qed.
Example rates_read : num_div (NInt 30000) (NInt 1001) = NFrac 1054476685978981 (2 ^ 45).
Proof. by vm_compute. Qed.

(** ** Decimal integers *)

Lemma radix_digits acc s z : digits_value acc s = Some z -> radix_value 10 acc s = Some z.
Proof.
  revert acc. induction s as [|c s IH]; intros acc; cbn; [done|].
  unfold radix_digit. destruct (is_digit c) eqn:E; [|done].
  assert ((digit_value c <? 10) = true) as ->.
  { unfold is_digit, in_range in E. bools. apply Z.ltb_lt. unfold digit_value.
    apply Nat.leb_le in H, H0. lia. }
  apply IH.
Qed.

Lemma round_safe n : 0 <= n <= MAX_SAFE_INTEGER -> round_double n 1 = NInt n.
Proof.
  intros [H0 H1]. destruct n as [|p|p]; [done| |lia]. cbn [round_double]. set (n := Zpos p) in *.
  assert (0 < n) as Hn by done. unfold round_positive. change (Z.log2 1) with 0. rewrite Z.sub_0_r.
  pose proof (Z.log2_spec n Hn) as Hl. pose proof (Z.log2_nonneg n) as Hl0.
  rewrite (proj2 (Z.leb_le 0 (Z.log2 n))) by lia. rewrite Z.mul_1_l, (proj2 (Z.ltb_ge n _)) by lia.
  assert (Z.log2 n < 53) as Hlt.
  { apply Z.log2_lt_pow2; [done|]. unfold MAX_SAFE_INTEGER in H1. change (2 ^ 53) with 9007199254740992. lia. }
  set (k := Z.max (Z.log2 n - 52) (-1074)). destruct (0 <=? k) eqn:Ek; bools.
  - assert (k = 0) as -> by lia. rewrite Z.mul_1_l, Z.pow_0_r, Z.mod_1_r, Z.div_1_r, Z.mul_1_r.
    change (2 * 0 ?= 1) with Lt. cbv iota. rewrite (proj2 (Z.leb_gt (2 ^ 1024) n)).
    + cbn [andb]. rewrite dyadic_integer by done. by rewrite Z.mul_1_r.
    + eapply Z.le_lt_trans; [exact H1|]. by vm_compute.
  - rewrite Z.mod_1_r, Z.div_1_r. change (2 * 0 ?= 1) with Lt. cbv iota. cbn [andb].
    assert (- k = Z.of_nat (Z.to_nat (- k))) as Hk by lia.
    rewrite Hk. replace k with (- Z.of_nat (Z.to_nat (- k))) at 2 by lia. apply dyadic_shift. lia.
Qed.

Lemma digits_value_all acc s z : digits_value acc s = Some z -> all_chars is_digit s = true.
Proof. revert acc. induction s as [|c s IH]; intros acc; cbn; [done|]. destruct (is_digit c); [apply IH|done]. Qed.

Lemma digit_not_space c : is_digit c = true -> is_space c = false.
Proof. by destruct c as [[] [] [] [] [] [] [] []]. Qed.

Lemma trim_digits s : all_chars is_digit s = true -> trim s = s.
Proof.
  intros H. unfold trim. assert (trim_start s = s) as ->.
  { destruct s as [|c s]; [done|]. cbn in *. bools. by rewrite digit_not_space. }
  induction s as [|c s IH]; [done|]. cbn in H. bools. cbn. rewrite IH by done.
  destruct s; [|done]. by rewrite digit_not_space.
Qed.

Lemma append_nil s : s +:+ EmptyString = s.
Proof. induction s as [|c s IH]; [done|]. unfold String.append in *. cbn. by rewrite IH. Qed.

Lemma span_all s : all_chars is_digit s = true -> span_digits s = (s, EmptyString).
Proof. induction s as [|c s IH]; cbn; [done|]. intros H. bools. by rewrite H, IH. Qed.

(** A canonical decimal in the safe range is read as the integer it writes. *)
Lemma Number_decimal s z : decimal_value s = Some z -> z <= MAX_SAFE_INTEGER -> Number_ s = NInt z.
Proof.
  unfold decimal_value. destruct (canonical_decimal s) eqn:Hc; [|done]. intros H Hz.
  pose proof (digits_value_all _ _ _ H) as Ha. pose proof (digits_value_nonneg 0 s z ltac:(done) H) as H0.
  assert (unsigned_decimal s = NInt z) as Hu.
  { unfold unsigned_decimal. rewrite span_all by done.
    rewrite bool_decide_eq_false_2 by (by intros ->). cbn [exponent].
    rewrite append_nil. unfold radix_literal.
    destruct (nonempty s) eqn:En; [|by destruct s].
    rewrite (radix_digits _ _ _ H). unfold scaled. cbn. rewrite Z.mul_1_r. by apply round_safe. }
  unfold Number_. rewrite trim_digits by done. destruct s as [|c s]; [done|].
  destruct (decide (c = "0"%char)) as [->|Hne].
  - cbn in Hc. bools. subst s. cbn in H. by injection H as <-.
  - cbn in Ha. bools. destruct c as [[] [] [] [] [] [] [] []]; try done; exact Hu.
Qed.
