(* ===== verification/SourceProbe.v ===== *)
(** * Probing a source (runtime/sourceProbe.ts)

    ffprobe describes the source of a VOD job; what it prints is checked before anything
    is priced with it.  The process is a parameter: it prints a text or fails, and some
    failures are timeouts. *)

From S2P Require Import Prelude Js Types Wire Http VodUsage AbrOrchestrator JsonCompare Numbers.
From Stdlib Require Import Ascii.
Open Scope Z_scope.

Inductive CodecType : Type := video_stream | audio_stream.
#[export] Instance CodecType_eq_dec : EqDecision CodecType.
Proof. solve_decision. Defined.

Record ProbeStream := mkProbeStream {
  st_codec_type : CodecType;
  st_codec_name : string;
  st_width : option Z;
  st_height : option Z;
  st_avg_frame_rate : option string
}.

Definition probeStreamWire : decoder ProbeStream := z_object (fun f =>
  codec_type ← field f "codec_type" (z_enum [("video", video_stream); ("audio", audio_stream)]);
  codec_name ← field f "codec_name" z_text;
  width ← opt_field f "width" z_positive;
  height ← opt_field f "height" z_positive;
  avg_frame_rate ← opt_field f "avg_frame_rate" z_string;
  Some (mkProbeStream codec_type codec_name width height avg_frame_rate)).

(** The streams and the duration; further properties are passed through. *)
Definition probeWire : decoder (list ProbeStream * string) := z_object (fun f =>
  streams ← field f "streams" (z_array 0 probeStreamWire);
  duration ← field f "format" (z_object (fun g => field g "duration" z_text));
  Some (streams, duration)).

(** [^(\d+)\/(\d+)$] *)
Definition ratio_parts (value : string) : option (string * string) :=
  match span_digits value with
  | (numerator, String "/" rest) =>
      if nonempty numerator && nonempty rest && all_chars is_digit rest then Some (numerator, rest) else None
  | _ => None
  end.
Definition rational (value : string) : jsnum :=
  match ratio_parts value with
  | None => Number_ value
  | Some (n, d) =>
      let numerator := Number_ n in
      let denominator := Number_ d in
      if num_eqb denominator (NInt 0) then NNaN else num_div numerator denominator
  end.

Class Ffprobe := {
  run_ffprobe : string -> list string -> Z -> N string;
  isTimeout : exn -> bool
}.

Section probe.
Context `{Plat : Platform} `{Process : Ffprobe}.

Definition validInputUrl (value : string) : bool :=
  match new_URL value with
  | Some url => ((url_protocol url ==? "http:") || (url_protocol url ==? "https:")) &&
                (url_username url ==? "") && (url_password url ==? "")
  | None => false
  end.

Definition first_stream (type : CodecType) (streams : list ProbeStream) : option ProbeStream :=
  List.find (fun s => st_codec_type s ==? type) streams.

(** What the text of ffprobe says of the source, if all of it is usable. *)
Definition read_probe (stdout : string) : option ProbeResult :=
  raw ← json_parse stdout;
  '(streams, duration) ← probeWire raw;
  video ← first_stream video_stream streams;
  width ← st_width video;
  height ← st_height video;
  avg_frame_rate ← st_avg_frame_rate video;
  let durationSec := Number_ duration in
  let frameRate := rational avg_frame_rate in
  if negb (nonempty avg_frame_rate) || negb (finitePositive durationSec) || negb (finitePositive frameRate) then None
  else Some (mkProbe durationSec width height frameRate
               ((st_codec_name <$> first_stream audio_stream streams) ?? "none") (st_codec_name video) raw).

Definition probe_arguments (inputUrl : string) : list string :=
  ["-v"; "error"; "-show_entries"; "format=duration:stream=codec_type,codec_name,width,height,avg_frame_rate";
   "-of"; "json"; inputUrl].

Definition probe_source (binary : string) (timeoutMs : Z) (inputUrl : string) : N ProbeResult :=
  if negb (validInputUrl inputUrl) then mthrow (SourceProbeError "source_probe_invalid" false)
  else
    do! stdout <- mcatch (run_ffprobe binary (probe_arguments inputUrl) timeoutMs)
      (fun e => mthrow (SourceProbeError (if isTimeout e then "source_probe_timeout" else "source_probe_failed") true));
    match read_probe stdout with
    | Some r => mret_ r
    | None => mthrow (SourceProbeError "source_probe_invalid" false)
    end.

Definition createSourceProbe (ffprobeBin : option string) (timeoutMs : Z) : result exn SourceProbe :=
  throw_if negb (safe_integer timeoutMs) || (timeoutMs <? 1) with PlainError "source probe timeout is invalid" ;;
  Ok {| probe := probe_source (ffprobeBin ?? "ffprobe") timeoutMs |}.
End probe.

(** ** What a probe promises *)

Lemma find_stream_type type streams s :
  first_stream type streams = Some s -> s ∈ streams /\ st_codec_type s = type.
Proof.
  intros H. apply find_some in H as [Hin Hb]. apply bool_decide_eq_true in Hb.
  split; [by apply list_elem_of_In|done].
Qed.

Lemma probeStreamWire_spec j s :
  probeStreamWire j = Some s ->
  nonempty (st_codec_name s) = true /\
  (forall w, st_width s = Some w -> 1 <= w <= MAX_SAFE_INTEGER) /\
  (forall h, st_height s = Some h -> 1 <= h <= MAX_SAFE_INTEGER).
Proof.
  unfold probeStreamWire. destruct j as [| | | | |f]; try done. cbn.
  destruct (field f "codec_type" _) as [t|]; [|done]. cbn.
  destruct (field f "codec_name" z_text) as [n|] eqn:En; [|done]. cbn.
  destruct (opt_field f "width" z_positive) as [w|] eqn:Ew; [|done]. cbn.
  destruct (opt_field f "height" z_positive) as [h|] eqn:Eh; [|done]. cbn.
  destruct (opt_field f "avg_frame_rate" z_string) as [r|]; [|done]. cbn. intros [= <-]. cbn.
  assert (forall k o v, opt_field f k z_positive = Some o -> o = Some v -> 1 <= v <= MAX_SAFE_INTEGER) as Hp.
  { intros k o v. unfold opt_field. destruct (assoc k f) as [x|]; [|by intros [= <-]].
    destruct (z_positive x) as [z|] eqn:Ez; [|done]. intros [= <-] [= ->]. apply z_int_from_spec in Ez. lia. }
  split_and!; [|naive_solver..].
  unfold field in En. destruct (assoc "codec_name" f) as [x|]; [|done]. by eapply z_text_nonempty.
Qed.

Lemma decode_all_elem {A} (dec : decoder A) l out a :
  decode_all dec l = Some out -> a ∈ out -> exists j, j ∈ l /\ dec j = Some a.
Proof.
  revert out. induction l as [|j l IH]; intros out; cbn; [by intros [= <-] ?%elem_of_nil|].
  destruct (dec j) as [b|] eqn:Ej; [|done]. cbn. destruct (decode_all dec l) as [r|]; [|done]. cbn.
  intros [= <-] [->|Ha]%elem_of_cons; [exists j; split; [by left|done]|].
  destruct (IH r eq_refl Ha) as (j' & H1 & H2). exists j'. split; [by right|done].
Qed.

Lemma probeWire_streams j streams duration s :
  probeWire j = Some (streams, duration) -> s ∈ streams -> exists j', probeStreamWire j' = Some s.
Proof.
  unfold probeWire. destruct j as [| | | | |f]; try done. cbn [z_object].
  destruct (field f "streams" _) as [out|] eqn:E; [|done]. cbn.
  destruct (field f "format" _) as [d|]; [|done]. cbn. intros [= -> ->] Hs. unfold field in E.
  destruct (assoc "streams" f) as [[| | | |l|]|]; try done.
  destruct (decode_all_elem _ _ _ _ E Hs) as (j' & _ & H). eauto.
Qed.

(** A description with a stream that is neither video nor audio, such as subtitles or
    a time code, is refused as a whole. *)
Lemma other_streams_refuse_the_source f l g :
  assoc "streams" f = Some (JArr l) -> JObj g ∈ l ->
  (forall t, assoc "codec_type" g = Some (JStr t) -> t <> "video" /\ t <> "audio") ->
  probeWire (JObj f) = None.
Proof.
  intros Hs Hg Ht. cbn [probeWire z_object].
  assert (probeStreamWire (JObj g) = None) as Hn.
  { cbn [probeStreamWire z_object].
    replace (field g "codec_type" _) with (@None CodecType); [done|]. unfold field.
    destruct (assoc "codec_type" g) as [[| | |t| |]|] eqn:E; try done.
    destruct (Ht t eq_refl) as [H1 H2]. cbn. by rewrite !bool_decide_eq_false_2. }
  replace (field f "streams" _) with (@None (list ProbeStream)); [done|]. unfold field. rewrite Hs. cbn [z_array Nat.leb].
  clear -Hg Hn. induction l as [|j l IH]; [by apply elem_of_nil in Hg|]. cbn.
  apply elem_of_cons in Hg as [<-|Hg]; [by rewrite Hn|]. rewrite <- IH by done.
  by destruct (probeStreamWire j).
Qed.

Section spec.
Context `{Plat : Platform} `{Process : Ffprobe}.

Record measured (r : ProbeResult) : Prop := {
  measured_width : 1 <= pb_width r <= MAX_SAFE_INTEGER;
  measured_height : 1 <= pb_height r <= MAX_SAFE_INTEGER;
  measured_duration : finitePositive (pb_durationSec r) = true;
  measured_rate : finitePositive (pb_frameRate r) = true;
  measured_codecs : nonempty (pb_videoCodec r) = true /\ nonempty (pb_audioCodec r) = true
}.

Lemma read_probe_measured stdout r : read_probe stdout = Some r -> measured r.
Proof.
  unfold read_probe. destruct (json_parse stdout) as [raw|]; [|done]. cbn.
  destruct (probeWire raw) as [[streams duration]|] eqn:Ew; [|done]. cbn.
  destruct (first_stream video_stream streams) as [v|] eqn:Ev; [|done]. cbn.
  destruct (st_width v) as [w|] eqn:Hw; [|done]. cbn. destruct (st_height v) as [h|] eqn:Hh; [|done]. cbn.
  destruct (st_avg_frame_rate v) as [a|]; [|done]. cbn. destruct (_ || _) eqn:Eb; [done|].
  intros [= <-]. apply orb_false_iff in Eb as [Eb Hr]. apply orb_false_iff in Eb as [_ Hd]. bools.
  apply find_stream_type in Ev as [Hin _].
  destruct (probeWire_streams _ _ _ _ Ew Hin) as [j Hj]. apply probeStreamWire_spec in Hj as (Hn & H1 & H2).
  constructor; cbn; [naive_solver..|]. split; [done|].
  destruct (first_stream audio_stream streams) as [s|] eqn:Es; [|done]. cbn.
  apply find_stream_type in Es as [Hs _]. destruct (probeWire_streams _ _ _ _ Ew Hs) as [j' Hj'].
  by apply probeStreamWire_spec in Hj' as [? _].
Qed.

(** C27: what the pricing gets is measured.  A probe starts the process only for an HTTP
    or HTTPS address without credentials, with the address as its last argument.  What
    it returns has dimensions of at least one pixel, a finite positive duration and
    frame rate, the two numbers the funding of a ladder refuses to do without, and named
    codecs.  Every failure is a probe error: retryable when the process failed, final
    when the address or the description is unusable. *)
Theorem probed_source_is_measured binary timeoutMs inputUrl n r n' :
  probe_source binary timeoutMs inputUrl n = (r, n') ->
  match r with
  | Ok p => validInputUrl inputUrl = true /\ measured p /\
      exists stdout, run_ffprobe binary (probe_arguments inputUrl) timeoutMs n = (Ok stdout, n') /\
        read_probe stdout = Some p
  | Err e =>
      (e = SourceProbeError "source_probe_invalid" false /\ (validInputUrl inputUrl = false -> n' = n)) \/
      (exists code, e = SourceProbeError code true /\ code ∈ ["source_probe_timeout"; "source_probe_failed"] /\
        is_ok (fst (run_ffprobe binary (probe_arguments inputUrl) timeoutMs n)) = false)
  end.
Proof.
  unfold probe_source. destruct (validInputUrl inputUrl) eqn:Eu; cbn.
  2:{ intros [= <- <-]. by left. }
  unfold mbind_, mcatch. destruct (run_ffprobe _ _ _ n) as [[stdout|e] n1] eqn:Er; cbn.
  - destruct (read_probe stdout) as [p|] eqn:Ep; intros [= <- <-].
    + split_and!; [done|by eapply read_probe_measured|eauto].
    + by left.
  - intros [= <- <-]. right. eexists. split; [done|]. split; [|done]. destruct (isTimeout e); set_solver.
Qed.
End spec.

(** ** Witness *)

Definition probe_json : json :=
  JObj [("streams", JArr [JObj [("codec_type", JStr "video"); ("codec_name", JStr "h264"); ("width", JNum (NInt 1920));
                                ("height", JNum (NInt 1080)); ("avg_frame_rate", JStr "30000/1001")];
                          JObj [("codec_type", JStr "audio"); ("codec_name", JStr "aac")]]);
        ("format", JObj [("duration", JStr "12.500000")])].
Definition probe_platform : Platform := {|
  is_url := fun _ => true; is_uuid := fun _ => true; new_URL := fun _ => Some (mkURL "https:" "" "" "");
  stringify := fun _ => ""; json_parse := fun _ => Some probe_json; base64_text := fun s => s; sha256_hex := fun s => s;
  date_parse := fun _ => None; toISOString := fun _ => ""; headers_valid := fun _ => true; caller_publicKey := "";
  signAuthorization := fun a => Ok a
|}.
Definition sample_process : Ffprobe := {|
  run_ffprobe := fun _ _ _ => mret_ "{}";
  isTimeout := fun _ => false
|}.

Lemma probed_source_is_measured_witness :
  exists p, probe_source (Plat := probe_platform) (Process := sample_process) "ffprobe" 30000 "https://source" (mkNet 0 []) =
    (Ok p, mkNet 0 []) /\ measured p /\ pb_durationSec p = NFrac 25 2.
Proof.
  eexists. split; [by vm_compute|]. split; [|done].
  by destruct (probed_source_is_measured (Plat := probe_platform) (Process := sample_process) "ffprobe" 30000 "https://source"
    (mkNet 0 []) _ _ ltac:(by vm_compute)) as (_ & H & _).
Defined.
