(* ===== verification/Config.v ===== *)
(** * Configuration (config.ts, storage/s3.ts)

    The environment variables are read once, when the process starts; a process whose
    variables do not fit does not start.  A variable is absent or a text. *)

From S2P Require Import Prelude Js Types Wire Http HttpTransport CallerProof ControlSource Numbers SourceProbe SessionStore.
From S2P Require Import AbrOrchestrator AuthRoutes LiveReconciler ProductRoutes.
Open Scope Z_scope.

Definition environment : Type := list (string * string).
Definition env_get (k : string) (env : environment) : option string := assoc k env.

Record Config := mkConfig {
  c_DATABASE_URL : string;
  c_ADMIN_TOKEN : string;
  c_API_KEY_HASH_PEPPER : string;
  c_IP_HASH_PEPPER : option string;
  c_SESSION_TTL_HOURS : Z;
  c_VERIFICATION_TOKEN_TTL_HOURS : Z;
  c_RESEND_API_KEY : option string;
  c_RESEND_BASE_URL : string;
  c_FROM_EMAIL : string;
  c_BASE_URL : string;
  c_SITE_URL : string;
  c_PORTAL_URL : string;
  c_PORT : Z;
  c_LOG_LEVEL : string;
  c_ALLOWED_ORIGINS : string;
  c_LIVEPEER_VOD_OFFERING_DEFAULT : string;
  c_LIVEPEER_LIVE_OFFERING_DEFAULT : string;
  c_LIVEPEER_LIVE_INITIAL_RUNWAY_UNITS : Z;
  c_LIVEPEER_LIVE_MAX_TOTAL_UNITS : Z;
  c_LIVEPEER_LIVE_REFILL_THRESHOLD_UNITS : Z;
  c_LIVEPEER_LIVE_MAX_REFILLS : Z;
  c_LIVEPEER_LIVE_RECONCILE_INTERVAL_MS : Z;
  c_LIVEPEER_LIVE_CONTROL_WINDOW_MS : Z;
  c_LIVEPEER_LIVE_DISCONNECT_GRACE_MS : Z;
  c_LIVEPEER_SESSION_RECOVERY_LEASE_MS : Z;
  c_LIVEPEER_OPERATION_SECRETS_KEK : option string;
  c_LIVEPEER_OPERATION_SECRETS_KEY_ID : string;
  c_LIVEPEER_LOC_URL : option string;
  c_LIVEPEER_LOC_API_KEY : option string;
  c_LIVEPEER_CALLER_PRIVATE_KEY : option string;
  c_LIVEPEER_LOC_TIMEOUT_MS : Z;
  c_LIVEPEER_LOC_CLIENT_ID : string;
  c_S3_REGION : option string;
  c_S3_BUCKET : option string;
  c_S3_ACCESS_KEY_ID : option string;
  c_S3_SECRET_ACCESS_KEY : option string;
  c_S3_ENDPOINT : option string;
  c_S3_FORCE_PATH_STYLE : option string;
  c_VOD_UPLOAD_URL_TTL_SEC : Z;
  c_VOD_PLAYBACK_URL_TTL_SEC : Z;
  c_VOD_SOURCE_PROBE_TIMEOUT_MS : Z;
  c_VOD_FFPROBE_BIN : string;
  c_VOD_RECOVERY_INTERVAL_MS : Z;
  c_VOD_RECOVERY_LEASE_MS : Z;
  c_VOD_RECOVERY_RETRY_MS : Z;
  c_RTMP_LISTEN_PORT : Z;
  c_RTMP_LISTEN_HOST : string;
  c_LIVEPEER_GATEWAY_EXTERNAL_RTMP_URL : option string;
  c_RTMP_RELAY_ENABLED : bool;
  c_RTMP_RELAY_FFMPEG_BIN : string
}.

(** ** Reading one variable: [None] is an issue *)

(** [z.string().min(n)] *)
Definition required_text (n : Z) (v : option string) : option string :=
  match v with Some s => if n <=? str_len s then Some s else None | None => None end.
(** [z.string().optional()], and with a check *)
Definition optional_if (p : string -> bool) (v : option string) : option (option string) :=
  match v with Some s => if p s then Some (Some s) else None | None => Some None end.
Definition any_text (_ : string) : bool := true.
Definition optional_ : option string -> option (option string) := optional_if any_text.
(** A text with a check and a default. *)
Definition defaulted (p : string -> bool) (d : string) (v : option string) : option string :=
  match v with Some s => if p s then Some s else None | None => Some d end.
(** [z.coerce.number().int()] with bounds and a default *)
Definition count_within (lo hi d : Z) (v : option string) : option Z :=
  match v with
  | Some s => match Number_ s with
              | NInt z => if safe_integer z && (lo <=? z) && (z <=? hi) then Some z else None
              | _ => None
              end
  | None => Some d
  end.
Definition count (lo d : Z) (v : option string) : option Z := count_within lo MAX_SAFE_INTEGER d v.
(** [z.coerce.boolean()] with a default *)
Definition coerced_boolean (d : bool) (v : option string) : option bool :=
  Some (match v with Some s => nonempty s | None => d end).

Definition log_level (s : string) : bool :=
  bool_decide (s ∈ ["fatal"; "error"; "warn"; "info"; "debug"; "trace"; "silent"]).

Section config.
Context `{Plat : Platform} `{Web : WebPlatform}.

Definition resend_url (s : string) : bool :=
  is_url s &&
  match web_URL s with
  | Some url => bool_decide (wu_protocol url ∈ ["http:"; "https:"]) && negb (nonempty (wu_username url)) &&
                negb (nonempty (wu_password url)) && negb (nonempty (wu_search url)) && negb (nonempty (wu_hash url))
  | None => false
  end.

Definition read_config (env : environment) : option Config :=
  database_url ← required_text 1 (env_get "DATABASE_URL" env);
  admin_token ← required_text 16 (env_get "ADMIN_TOKEN" env);
  api_key_hash_pepper ← required_text 16 (env_get "API_KEY_HASH_PEPPER" env);
  ip_hash_pepper ← optional_ (env_get "IP_HASH_PEPPER" env);
  session_ttl_hours ← count 1 24 (env_get "SESSION_TTL_HOURS" env);
  verification_token_ttl_hours ← count 1 48 (env_get "VERIFICATION_TOKEN_TTL_HOURS" env);
  resend_api_key ← optional_ (env_get "RESEND_API_KEY" env);
  resend_base_url ← defaulted resend_url "https://api.resend.com" (env_get "RESEND_BASE_URL" env);
  from_email ← defaulted any_text "Livepeer Transcode <noreply@example.com>" (env_get "FROM_EMAIL" env);
  base_url ← defaulted is_url "http://localhost:4000" (env_get "BASE_URL" env);
  site_url ← defaulted is_url "http://localhost:3000" (env_get "SITE_URL" env);
  portal_url ← defaulted is_url "http://localhost:3002" (env_get "PORTAL_URL" env);
  port ← count 1 4000 (env_get "PORT" env);
  log_level ← defaulted log_level "info" (env_get "LOG_LEVEL" env);
  allowed_origins ← defaulted any_text "*" (env_get "ALLOWED_ORIGINS" env);
  livepeer_vod_offering_default ← defaulted any_text "abr-default" (env_get "LIVEPEER_VOD_OFFERING_DEFAULT" env);
  livepeer_live_offering_default ← defaulted any_text "gateway-ingest" (env_get "LIVEPEER_LIVE_OFFERING_DEFAULT" env);
  livepeer_live_initial_runway_units ← count 1 60 (env_get "LIVEPEER_LIVE_INITIAL_RUNWAY_UNITS" env);
  livepeer_live_max_total_units ← count 1 3600 (env_get "LIVEPEER_LIVE_MAX_TOTAL_UNITS" env);
  livepeer_live_refill_threshold_units ← count 0 15 (env_get "LIVEPEER_LIVE_REFILL_THRESHOLD_UNITS" env);
  livepeer_live_max_refills ← count 1 60 (env_get "LIVEPEER_LIVE_MAX_REFILLS" env);
  livepeer_live_reconcile_interval_ms ← count 250 5000 (env_get "LIVEPEER_LIVE_RECONCILE_INTERVAL_MS" env);
  livepeer_live_control_window_ms ← count_within 10 10000 250 (env_get "LIVEPEER_LIVE_CONTROL_WINDOW_MS" env);
  livepeer_live_disconnect_grace_ms ← count 1000 15000 (env_get "LIVEPEER_LIVE_DISCONNECT_GRACE_MS" env);
  livepeer_session_recovery_lease_ms ← count 1000 60000 (env_get "LIVEPEER_SESSION_RECOVERY_LEASE_MS" env);
  livepeer_operation_secrets_kek ← optional_ (env_get "LIVEPEER_OPERATION_SECRETS_KEK" env);
  livepeer_operation_secrets_key_id ← defaulted nonempty "local-v1" (env_get "LIVEPEER_OPERATION_SECRETS_KEY_ID" env);
  livepeer_loc_url ← optional_if is_url (env_get "LIVEPEER_LOC_URL" env);
  livepeer_loc_api_key ← optional_if nonempty (env_get "LIVEPEER_LOC_API_KEY" env);
  livepeer_caller_private_key ← optional_if PRIVATE_KEY (env_get "LIVEPEER_CALLER_PRIVATE_KEY" env);
  livepeer_loc_timeout_ms ← count 1 15000 (env_get "LIVEPEER_LOC_TIMEOUT_MS" env);
  livepeer_loc_client_id ← defaulted nonempty "livepeer-modules-transcode/0.0.0" (env_get "LIVEPEER_LOC_CLIENT_ID" env);
  s3_region ← optional_ (env_get "S3_REGION" env);
  s3_bucket ← optional_ (env_get "S3_BUCKET" env);
  s3_access_key_id ← optional_ (env_get "S3_ACCESS_KEY_ID" env);
  s3_secret_access_key ← optional_ (env_get "S3_SECRET_ACCESS_KEY" env);
  s3_endpoint ← optional_ (env_get "S3_ENDPOINT" env);
  s3_force_path_style ← optional_ (env_get "S3_FORCE_PATH_STYLE" env);
  vod_upload_url_ttl_sec ← count 1 3600 (env_get "VOD_UPLOAD_URL_TTL_SEC" env);
  vod_playback_url_ttl_sec ← count 1 3600 (env_get "VOD_PLAYBACK_URL_TTL_SEC" env);
  vod_source_probe_timeout_ms ← count 1 30000 (env_get "VOD_SOURCE_PROBE_TIMEOUT_MS" env);
  vod_ffprobe_bin ← defaulted nonempty "ffprobe" (env_get "VOD_FFPROBE_BIN" env);
  vod_recovery_interval_ms ← count 1 5000 (env_get "VOD_RECOVERY_INTERVAL_MS" env);
  vod_recovery_lease_ms ← count 1 60000 (env_get "VOD_RECOVERY_LEASE_MS" env);
  vod_recovery_retry_ms ← count 1 2000 (env_get "VOD_RECOVERY_RETRY_MS" env);
  rtmp_listen_port ← count 1 1935 (env_get "RTMP_LISTEN_PORT" env);
  rtmp_listen_host ← defaulted any_text "0.0.0.0" (env_get "RTMP_LISTEN_HOST" env);
  livepeer_gateway_external_rtmp_url ← optional_ (env_get "LIVEPEER_GATEWAY_EXTERNAL_RTMP_URL" env);
  rtmp_relay_enabled ← coerced_boolean true (env_get "RTMP_RELAY_ENABLED" env);
  rtmp_relay_ffmpeg_bin ← defaulted any_text "ffmpeg" (env_get "RTMP_RELAY_FFMPEG_BIN" env);
  Some (mkConfig database_url admin_token api_key_hash_pepper ip_hash_pepper session_ttl_hours
    verification_token_ttl_hours resend_api_key resend_base_url from_email base_url site_url portal_url port
    log_level allowed_origins livepeer_vod_offering_default livepeer_live_offering_default
    livepeer_live_initial_runway_units livepeer_live_max_total_units livepeer_live_refill_threshold_units
    livepeer_live_max_refills livepeer_live_reconcile_interval_ms livepeer_live_control_window_ms
    livepeer_live_disconnect_grace_ms livepeer_session_recovery_lease_ms livepeer_operation_secrets_kek
    livepeer_operation_secrets_key_id livepeer_loc_url livepeer_loc_api_key livepeer_caller_private_key
    livepeer_loc_timeout_ms livepeer_loc_client_id s3_region s3_bucket s3_access_key_id s3_secret_access_key
    s3_endpoint s3_force_path_style vod_upload_url_ttl_sec vod_playback_url_ttl_sec vod_source_probe_timeout_ms
    vod_ffprobe_bin vod_recovery_interval_ms vod_recovery_lease_ms vod_recovery_retry_ms rtmp_listen_port
    rtmp_listen_host livepeer_gateway_external_rtmp_url rtmp_relay_enabled rtmp_relay_ffmpeg_bin).

(** [superRefine] *)
Definition consistent (c : Config) : bool :=
  Bool.eqb (truthy (c_LIVEPEER_LOC_URL c)) (truthy (c_LIVEPEER_LOC_API_KEY c)) &&
  negb (truthy (c_LIVEPEER_LOC_URL c) && negb (truthy (c_LIVEPEER_CALLER_PRIVATE_KEY c))) &&
  negb (c_LIVEPEER_LIVE_MAX_TOTAL_UNITS c <? c_LIVEPEER_LIVE_INITIAL_RUNWAY_UNITS c) &&
  negb (c_LIVEPEER_LIVE_INITIAL_RUNWAY_UNITS c <=? c_LIVEPEER_LIVE_REFILL_THRESHOLD_UNITS c).

Definition REMOVED : list string :=
  ["LIVEPEER_PAYER_SOCKET"; "LIVEPEER_PAYER_PROTO_ROOT"; "LIVEPEER_FUNDED_VALUE_WEI"; "LIVEPEER_FACE_VALUE_WEI"].

(** The list of the issues in the last message is left out. *)
Definition loadConfig (env : environment) : result exn Config :=
  throw_if is_present (env_get "LIVEPEER_RESOLVER_SOCKET" env)
    with PlainError "LIVEPEER_RESOLVER_SOCKET is removed; configure LIVEPEER_LOC_URL and LIVEPEER_LOC_API_KEY for LOC HTTP discovery" ;;
  let removed := List.filter (fun key => is_present (env_get key env)) REMOVED in
  throw_if negb (removed ==? [])
    with PlainError ("Removed v0 configuration is not supported: " +:+ String.concat ", " removed) ;;
  match read_config env with
  | Some c => if consistent c then Ok c else Err (PlainError "Invalid environment")
  | None => Err (PlainError "Invalid environment")
  end.
End config.

(** ** Object storage *)

Record S3StorageConfig := mkS3Config {
  s3_endpoint : option string;
  s3_region : string;
  s3_bucket : string;
  s3_accessKeyId : string;
  s3_secretAccessKey : string;
  s3_forcePathStyle : bool
}.
Definition loadS3ConfigFromEnv (env : environment) : option S3StorageConfig :=
  let set_ k := match env_get k env with Some s => if nonempty s then Some s else None | None => None end in
  region ← set_ "S3_REGION";
  bucket ← set_ "S3_BUCKET";
  accessKeyId ← set_ "S3_ACCESS_KEY_ID";
  secretAccessKey ← set_ "S3_SECRET_ACCESS_KEY";
  Some (mkS3Config (set_ "S3_ENDPOINT") region bucket accessKeyId secretAccessKey
          (negb (env_get "S3_FORCE_PATH_STYLE" env ==? Some "false"))).

(** ** A configuration that loads *)

Lemma count_within_spec lo hi d v z :
  safe_integer d && (lo <=? d) && (d <=? hi) = true -> count_within lo hi d v = Some z ->
  safe_integer z = true /\ lo <= z <= hi.
Proof.
  intros Hd H. assert (safe_integer z && (lo <=? z) && (z <=? hi) = true) as Hz.
  { unfold count_within in H. destruct v as [s|]; [|by simplify_eq].
    destruct (Number_ s) as [n| | |]; try done.
    destruct (safe_integer n && (lo <=? n) && (n <=? hi)) eqn:E; [|done]. by simplify_eq. }
  by bools.
Qed.
Lemma defaulted_spec p d v s : p d = true -> defaulted p d v = Some s -> p s = true.
Proof. unfold defaulted. destruct v as [x|]; [|by intros ? [= <-]]. destruct (p x) eqn:E; [|done]. by intros _ [= <-]. Qed.
Lemma optional_if_spec p v o s : optional_if p v = Some o -> o = Some s -> p s = true.
Proof. unfold optional_if. destruct v as [x|]; [|by intros [= <-]]. destruct (p x) eqn:E; [|done]. by intros [= <-] [= ->]. Qed.

(** Takes a hypothesis about a sequence of readings apart. *)
Ltac readings H := repeat (
  match type of H with
  | (?x ≫= _) = Some _ => let E := fresh "R" in destruct x eqn:E; [|discriminate H]; cbn beta iota delta [mbind option_bind] in H
  end).

Section loaded.
Context `{Plat : Platform} `{Web : WebPlatform}.

(** What the readers of the single variables ensure. *)
Record checked (c : Config) : Prop := {
  checked_key : forall s, c_LIVEPEER_LOC_API_KEY c = Some s -> nonempty s = true;
  checked_caller : forall s, c_LIVEPEER_CALLER_PRIVATE_KEY c = Some s -> PRIVATE_KEY s = true;
  checked_client : nonempty (c_LIVEPEER_LOC_CLIENT_ID c) = true;
  checked_timeout : safe_integer (c_LIVEPEER_LOC_TIMEOUT_MS c) = true /\ 1 <= c_LIVEPEER_LOC_TIMEOUT_MS c;
  checked_window : safe_integer (c_LIVEPEER_LIVE_CONTROL_WINDOW_MS c) = true /\
                   10 <= c_LIVEPEER_LIVE_CONTROL_WINDOW_MS c <= 10000;
  checked_lease : safe_integer (c_LIVEPEER_SESSION_RECOVERY_LEASE_MS c) = true /\ 1000 <= c_LIVEPEER_SESSION_RECOVERY_LEASE_MS c;
  checked_probe : safe_integer (c_VOD_SOURCE_PROBE_TIMEOUT_MS c) = true /\ 1 <= c_VOD_SOURCE_PROBE_TIMEOUT_MS c;
  checked_runway : 1 <= c_LIVEPEER_LIVE_INITIAL_RUNWAY_UNITS c;
  checked_threshold : 0 <= c_LIVEPEER_LIVE_REFILL_THRESHOLD_UNITS c;
  checked_key_id : nonempty (c_LIVEPEER_OPERATION_SECRETS_KEY_ID c) = true
}.

Lemma read_config_checked env c : read_config env = Some c -> checked c.
Proof.
  unfold read_config. intros H. readings H. injection H as <-. unfold count in *.
  repeat match goal with
  | R : count_within _ _ _ _ = Some _ |- _ => apply count_within_spec in R; [|done]
  | R : defaulted nonempty _ _ = Some _ |- _ => apply defaulted_spec in R; [|done]
  end.
  constructor; cbn [c_LIVEPEER_LOC_API_KEY c_LIVEPEER_CALLER_PRIVATE_KEY c_LIVEPEER_LOC_CLIENT_ID c_LIVEPEER_LOC_TIMEOUT_MS
    c_LIVEPEER_LIVE_CONTROL_WINDOW_MS c_LIVEPEER_SESSION_RECOVERY_LEASE_MS c_VOD_SOURCE_PROBE_TIMEOUT_MS
    c_LIVEPEER_LIVE_INITIAL_RUNWAY_UNITS c_LIVEPEER_LIVE_REFILL_THRESHOLD_UNITS c_LIVEPEER_OPERATION_SECRETS_KEY_ID];
    try (by intuition lia); intros;
    match goal with R : optional_if ?p _ = Some ?o, Hs : ?o = Some _ |- _ => exact (optional_if_spec p _ _ _ R Hs) end.
Qed.

(** A process that starts can serve.  When the configuration loads, none of the
    removed variables is set; a LOC address comes with its key and a caller key of the
    right form; the initial runway is positive and within the maximum, and the refill
    threshold below it; and what the constructors of the services check holds: of the
    control channel, the source probe, the session store and, for a LOC address that is
    a plain origin, of the LOC transport. *)
Lemma loaded_configuration_starts_services `{Process : Ffprobe} env c :
  loadConfig env = Ok c ->
  Forall (fun k => env_get k env = None) ("LIVEPEER_RESOLVER_SOCKET" :: REMOVED) /\
  1 <= c_LIVEPEER_LIVE_INITIAL_RUNWAY_UNITS c <= c_LIVEPEER_LIVE_MAX_TOTAL_UNITS c /\
  0 <= c_LIVEPEER_LIVE_REFILL_THRESHOLD_UNITS c < c_LIVEPEER_LIVE_INITIAL_RUNWAY_UNITS c /\
  is_ok (createPaidSessionControlSource (NInt (c_LIVEPEER_LIVE_CONTROL_WINDOW_MS c))) = true /\
  is_ok (createSourceProbe (Some (c_VOD_FFPROBE_BIN c)) (c_VOD_SOURCE_PROBE_TIMEOUT_MS c)) = true /\
  (forall owner, 1 <= str_len owner <= 255 ->
     valid_options (mkStoreOptions owner (c_LIVEPEER_SESSION_RECOVERY_LEASE_MS c)) = true) /\
  (truthy (c_LIVEPEER_LOC_URL c) = true ->
     exists url key caller, c_LIVEPEER_LOC_URL c = Some url /\ c_LIVEPEER_LOC_API_KEY c = Some key /\
       c_LIVEPEER_CALLER_PRIVATE_KEY c = Some caller /\ PRIVATE_KEY caller = true /\
       forall origin protocol href, web_URL url = Some (mkWebURL href origin protocol "" "" "/" "" "") ->
         protocol ∈ ["http:"; "https:"] ->
         is_ok (createLocHttpTransport (mkTransportOptions url key (c_LIVEPEER_LOC_CLIENT_ID c)
                  (NInt (c_LIVEPEER_LOC_TIMEOUT_MS c)))) = true).
Proof.
  unfold loadConfig. rewrite !guard_Ok. intros (Hr & Hf & H).
  destruct (read_config env) as [c0|] eqn:Ec; [|done]. destruct (consistent c0) eqn:Hc; [|done].
  injection H as ->. apply read_config_checked in Ec. destruct Ec. unfold consistent in Hc. bools.
  split_and!; try lia.
  - constructor; [by destruct (env_get _ env)|]. apply Forall_forall. intros k Hk.
    destruct (env_get k env) eqn:Ek; [|done]. exfalso.
    assert (k ∈ List.filter (fun key => is_present (env_get key env)) REMOVED) as Hin.
    { apply list_elem_of_In, filter_In. split; [by apply list_elem_of_In|by rewrite Ek]. }
    rewrite Hf in Hin. by apply elem_of_nil in Hin.
  - unfold createPaidSessionControlSource, valid_window, safe_at_least. destruct checked_window0 as [-> [? ?]].
    by rewrite !(proj2 (Z.leb_le _ _)) by lia.
  - unfold createSourceProbe. destruct checked_probe0 as [-> ?]. by rewrite (proj2 (Z.ltb_ge _ _)) by lia.
  - intros owner Ho. unfold valid_options. cbn. destruct checked_lease0 as [-> ?].
    rewrite !(proj2 (Z.leb_le _ _)) by lia. destruct owner; [unfold str_len in Ho; cbn in Ho; lia|done].
  - intros Hu. rewrite Hu in *. destruct (c_LIVEPEER_LOC_URL c) as [url|]; [|done].
    destruct (c_LIVEPEER_LOC_API_KEY c) as [key|]; [|done].
    destruct (c_LIVEPEER_CALLER_PRIVATE_KEY c) as [caller|]; [|by cbn in *; intuition].
    exists url, key, caller. split_and!; [done..|by apply checked_caller0|].
    intros origin protocol href Hw Hp. unfold createLocHttpTransport. cbn [ht_baseUrl]. rewrite Hw. cbn.
    rewrite (checked_key0 key), checked_client0 by done. destruct checked_timeout0 as [-> ?].
    rewrite (proj2 (Z.leb_le _ _)) by lia. rewrite !elem_of_cons, elem_of_nil in Hp.
    by destruct Hp as [->|[->|[]]].
Qed.
End loaded.

(** ** Witness *)

Definition config_web : WebPlatform := {|
  web_URL := fun s => Some (mkWebURL s s "https:" "" "" "/" "" "");
  web_resolve := fun _ b => Some b;
  timed_out := fun _ => false
|}.
Definition sample_env_vars : environment :=
  [("DATABASE_URL", "postgres://db"); ("ADMIN_TOKEN", "0123456789abcdef"); ("API_KEY_HASH_PEPPER", "pepper-of-16-chars");
   ("LIVEPEER_LOC_URL", "https://loc.example"); ("LIVEPEER_LOC_API_KEY", "key");
   ("LIVEPEER_CALLER_PRIVATE_KEY", sample_private_key); ("LIVEPEER_LIVE_MAX_TOTAL_UNITS", "600"); ("PORT", " 4100 ")].
Definition sample_config : result exn Config := loadConfig (Plat := control_platform) (Web := config_web) sample_env_vars.

Lemma sample_config_loads :
  exists c, sample_config = Ok c /\ c_PORT c = 4100 /\ truthy (c_LIVEPEER_LOC_URL c) = true /\
    is_ok (createPaidSessionControlSource (Plat := control_platform) (NInt (c_LIVEPEER_LIVE_CONTROL_WINDOW_MS c))) = true.
Proof.
  eexists. split; [vm_compute; reflexivity|]. split; [done|]. split; [done|].
  by destruct (loaded_configuration_starts_services (Plat := control_platform) (Web := config_web)
    (Process := sample_process) sample_env_vars _ ltac:(vm_compute; reflexivity)) as (_ & _ & _ & H & _).
Qed.
