(* ===== verification/Migrations.v ===== *)
(** * Migrations (db/migrate.ts)

    Every instance brings the schema up to date before it serves.  A migration is a file
    of SQL that is run in one transaction with the entry of its name in a table whose
    primary key is the name; instances that start together run the same files against
    the same database.

    The schema and what a script does to it are parameters; a transaction that fails
    leaves nothing behind.  [ms_log] is the table in the order of its entries, with the
    script that was run beside each name. *)

From S2P Require Import Prelude Js Types.
Open Scope Z_scope.

Lemma StronglySorted_List_filter {A} (R : A -> A -> Prop) (p : A -> bool) l :
  StronglySorted R l -> StronglySorted R (List.filter p l).
Proof.
  induction 1 as [|x l Hs IH Hf]; [constructor|]. cbn. destruct (p x); [|done]. constructor; [done|].
  apply Forall_forall. intros y Hy. apply (proj1 (Forall_forall _ _) Hf).
  apply list_elem_of_In, filter_In in Hy as [Hy _]. by apply list_elem_of_In.
Qed.

Section migrations.
Context {schema : Type}.

Record mstate := mkMstate {
  ms_table : bool;                        (* the table exists *)
  ms_log : list (string * string);
  ms_schema : schema
}.
Definition recorded (s : mstate) : list string := map fst (ms_log s).

(** The server: what a script does, or the message of the error it ends with. *)
Context (run_sql : string -> schema -> result string schema).

Definition create_table (s : mstate) : mstate := mkMstate true (ms_log s) (ms_schema s).

(** BEGIN; the script; INSERT INTO _migrations; COMMIT *)
Definition apply_file (file sql : string) (s : mstate) : result string mstate :=
  match run_sql sql (ms_schema s) with
  | Err message => Err message
  | Ok schema' =>
      if negb (ms_table s) then Err "relation does not exist"
      else if bool_decide (file ∈ recorded s) then Err "duplicate key value violates unique constraint"
      else Ok (mkMstate true (ms_log s ++ [(file, sql)]) schema')
  end.

Inductive migrate_step : mstate -> mstate -> Prop :=
| step_create s : migrate_step s (create_table s)
| step_apply file sql s s' : apply_file file sql s = Ok s' -> migrate_step s s'.

(** What the other instances do before the [n]th statement, and the directory of this one. *)
Context (others : nat -> mstate -> mstate) (readdir : list string) (readFile : string -> option string).

Record mworld := mkMworld {
  mw_state : mstate;
  mw_tick : nat
}.

Definition statement {A} (t : mstate -> result string (A * mstate)) : M mworld string A := fun w =>
  let s := others (mw_tick w) (mw_state w) in
  match t s with
  | Ok (a, s') => (Ok a, mkMworld s' (S (mw_tick w)))
  | Err e => (Err e, mkMworld s (S (mw_tick w)))
  end.

Fixpoint ends_with (suffix s : string) : bool :=
  (s ==? suffix) || match s with EmptyString => false | String _ s' => ends_with suffix s' end.
Definition sqlFiles : list string := sort_by String.compare (List.filter (ends_with ".sql") readdir).

Definition migrate_file (applied : list string) (newlyApplied : list string) (file : string) : M mworld string (list string) :=
  if bool_decide (file ∈ applied) then mret_ newlyApplied
  else
    match readFile file with
    | None => mthrow ("cannot read " +:+ file)
    | Some sql =>
        run! mcatch (statement (fun s => let? s' := apply_file file sql s in Ok (tt, s')))
               (fun message => mthrow ("Migration " +:+ file +:+ " failed: " +:+ message));
        mret_ (newlyApplied ++ [file])
    end.

Definition runMigrations : M mworld string (list string) :=
  run! statement (fun s => Ok (tt, create_table s));
  do! applied <- statement (fun s => Ok (recorded s, s));
  mfold (migrate_file applied) [] sqlFiles.

(** ** Histories *)

Fixpoint replay (log : list (string * string)) (s : schema) : result string schema :=
  match log with
  | [] => Ok s
  | (_, sql) :: log' => let? s' := run_sql sql s in replay log' s'
  end.
Lemma replay_app l l' s : replay (l ++ l') s = result_bind (replay l s) (replay l').
Proof. revert s. induction l as [|[f x] l IH]; intros s; cbn; [done|]. by destruct (run_sql x s); cbn. Qed.

(** The schema is what the recorded scripts make of the first one, in the order of the
    records, and no name is recorded twice. *)
Record migrated (s0 : schema) (s : mstate) : Prop := {
  migrated_replay : replay (ms_log s) s0 = Ok (ms_schema s);
  migrated_once : NoDup (recorded s)
}.

Lemma apply_file_spec file sql s s' :
  apply_file file sql s = Ok s' ->
  run_sql sql (ms_schema s) = Ok (ms_schema s') /\ ms_log s' = ms_log s ++ [(file, sql)] /\ (file ∉ recorded s) /\
  ms_table s' = true.
Proof.
  unfold apply_file. destruct (run_sql sql (ms_schema s)) as [x|]; [|done].
  destruct (ms_table s); [|done]. cbn. case_bool_decide; [done|]. by intros [= <-].
Qed.

Lemma step_extends s s' : migrate_step s s' -> ms_log s `prefix_of` ms_log s'.
Proof. intros [?|f x ? ? (_ & -> & _)%apply_file_spec]; [done|by apply prefix_app_r]. Qed.
Lemma steps_extend s s' : rtc migrate_step s s' -> ms_log s `prefix_of` ms_log s'.
Proof. induction 1; [done|]. etrans; [by eapply step_extends|done]. Qed.

Lemma step_migrated s0 s s' : migrate_step s s' -> migrated s0 s -> migrated s0 s'.
Proof.
  intros [?|f x ? ? (Hr & Hl & Hf & _)%apply_file_spec] [H1 H2]; [by constructor|]. constructor.
  - rewrite Hl, replay_app, H1. cbn. by rewrite Hr.
  - unfold recorded. rewrite Hl, map_app. apply NoDup_app. split_and!; [done| |apply NoDup_singleton].
    intros y Hy ->%list_elem_of_singleton. done.
Qed.
Lemma steps_migrated s0 s s' : rtc migrate_step s s' -> migrated s0 s -> migrated s0 s'.
Proof. induction 1; eauto using step_migrated. Qed.

Context (others_steps : forall n s, rtc migrate_step s (others n s)).

Lemma statement_steps {A} (t : mstate -> result string (A * mstate)) w r w' :
  (forall s a s', t s = Ok (a, s') -> rtc migrate_step s s') -> statement t w = (r, w') ->
  rtc migrate_step (mw_state w) (mw_state w') /\
  (forall a, r = Ok a -> exists s, rtc migrate_step (mw_state w) s /\ t s = Ok (a, mw_state w')).
Proof.
  intros Ht. unfold statement. set (s := others _ _).
  assert (rtc migrate_step (mw_state w) s) as Hs by apply others_steps.
  destruct (t s) as [[a s']|e] eqn:E; intros [= <- <-]; cbn.
  - split; [etrans; [done|by eapply Ht]|]. intros b [= <-]. eauto.
  - done.
Qed.

Lemma apply_steps file sql s (a : unit) s' :
  (let? s1 := apply_file file sql s in Ok (tt, s1)) = Ok (a, s') -> apply_file file sql s = Ok s'.
Proof. destruct (apply_file file sql s); cbn; [by intros [= _ <-]|done]. Qed.

Lemma migrate_file_spec applied acc file w r w' :
  migrate_file applied acc file w = (r, w') ->
  rtc migrate_step (mw_state w) (mw_state w') /\
  match r with
  | Ok newly => (file ∈ applied /\ newly = acc) \/
      ((file ∉ applied) /\ newly = acc ++ [file] /\
       exists sql, readFile file = Some sql /\ (file, sql) ∈ ms_log (mw_state w'))
  | Err _ => True
  end.
Proof.
  unfold migrate_file. case_bool_decide; [intros [= <- <-]; split; [done|by left]|].
  destruct (readFile file) as [sql|]; [|by intros [= <- <-]].
  unfold mbind_, mcatch. destruct (statement _ w) as [[[]|e] w1] eqn:E.
  - apply statement_steps in E as [Hs Ha].
    2:{ intros s a s' H1%apply_steps. by apply rtc_once, (step_apply file sql). }
    intros [= <- <-]. split; [done|]. right. split_and!; [done..|]. exists sql. split; [done|].
    destruct (Ha tt eq_refl) as (s & _ & H1%apply_steps%apply_file_spec). destruct H1 as (_ & -> & _). set_solver.
  - apply statement_steps in E as [Hs _].
    2:{ intros s a s' H1%apply_steps. by apply rtc_once, (step_apply file sql). }
    by intros [= <- <-].
Qed.

Lemma migrate_all_spec applied files acc w r w' :
  mfold (migrate_file applied) acc files w = (r, w') ->
  rtc migrate_step (mw_state w) (mw_state w') /\
  match r with
  | Ok newly => newly = acc ++ List.filter (fun f => negb (bool_decide (f ∈ applied))) files /\
      forall f, f ∈ files -> f ∈ applied \/ exists sql, readFile f = Some sql /\ (f, sql) ∈ ms_log (mw_state w')
  | Err _ => True
  end.
Proof.
  revert acc w. induction files as [|f files IH]; intros acc w; cbn.
  { intros [= <- <-]. split; [done|]. rewrite app_nil_r. split; [done|]. by intros ? ?%elem_of_nil. }
  unfold mbind_. destruct (migrate_file applied acc f w) as [[newly|e] w1] eqn:E.
  2:{ intros [= <- <-]. by apply migrate_file_spec in E as [? _]. }
  apply migrate_file_spec in E as [Hs Hf]. intros H. apply IH in H as [Hs' Hr]. split; [by etrans|].
  destruct r as [out|e]; [|done]. destruct Hr as [-> Hall].
  pose proof (steps_extend _ _ Hs') as Hp.
  destruct Hf as [[Hin ->]|(Hin & -> & sql & Hsql & Hlog)].
  - rewrite bool_decide_eq_true_2 by done. cbn. split; [done|]. intros g [->|Hg]%elem_of_cons; eauto.
  - rewrite bool_decide_eq_false_2 by done. cbn. rewrite <- app_assoc. split; [done|].
    intros g [->|Hg]%elem_of_cons; [|eauto]. right. exists sql. split; [done|]. destruct Hp as [k ->]. set_solver.
Qed.

Lemma steps_table s s' : rtc migrate_step s s' -> ms_table s = true -> ms_table s' = true.
Proof.
  induction 1 as [|s s1 s2 H1 _ IH]; [done|]. intros Ht. apply IH.
  by destruct H1 as [?|? ? ? ? (_ & _ & _ & ?)%apply_file_spec].
Qed.

Lemma all_recorded applied files acc w :
  (forall f, f ∈ files -> f ∈ applied) -> mfold (migrate_file applied) acc files w = (Ok acc, w).
Proof.
  induction files as [|f files IH]; intros H; [done|]. cbn. unfold mbind_, migrate_file at 1.
  rewrite bool_decide_eq_true_2 by (apply H; by left). apply IH. intros g Hg. apply H. by right.
Qed.

(** A run that finds everything recorded changes nothing. *)
Lemma run_again w :
  (forall n s, others n s = s) -> ms_table (mw_state w) = true ->
  (forall f, f ∈ readdir -> ends_with ".sql" f = true -> f ∈ recorded (mw_state w)) ->
  exists n, runMigrations w = (Ok [], mkMworld (mw_state w) n).
Proof.
  intros Hid Ht Hall. destruct w as [[table log sch] n]. cbn in Ht. subst table. exists (S (S n)).
  unfold runMigrations, mbind_, statement. cbn. rewrite !Hid. cbn.
  apply all_recorded. intros f Hf. apply elem_of_sort_by, list_elem_of_In, filter_In in Hf as [Hf Hb].
  apply Hall; [by apply list_elem_of_In|done].
Qed.

(** C24: every migration runs once.  Whatever other instances migrate at the same time,
    a run that succeeds leaves every SQL file of its directory recorded; the files it
    applied itself are those not recorded when it looked, in the order of their names,
    each with the script this instance read.  Whether it succeeds or fails, the schema
    is what the recorded scripts made of the first one, one after the other, no name is
    recorded twice, and no record is lost.  With no other instance, running again
    changes nothing. *)
Theorem migrations_run_once s0 w r w' :
  migrated s0 (mw_state w) -> runMigrations w = (r, w') ->
  migrated s0 (mw_state w') /\ ms_log (mw_state w) `prefix_of` ms_log (mw_state w') /\
  (forall newly, r = Ok newly ->
     (forall f, f ∈ readdir -> ends_with ".sql" f = true -> f ∈ recorded (mw_state w')) /\
     StronglySorted (cmp_le String.compare) newly /\
     (forall f, f ∈ newly -> (f ∉ recorded (mw_state w)) /\
        exists sql, readFile f = Some sql /\ (f, sql) ∈ ms_log (mw_state w')) /\
     ((forall n s, others n s = s) ->
        exists n, runMigrations w' = (Ok [], mkMworld (mw_state w') n))).
Proof.
  intros Hm. unfold runMigrations. unfold mbind_ at 1.
  destruct (statement _ w) as [[[]|e] w1] eqn:E1.
  2:{ unfold statement in E1. done. }
  apply statement_steps in E1 as [S1 A1]; [|intros s a s' [= _ <-]; apply rtc_once, step_create].
  unfold mbind_ at 1. destruct (statement _ w1) as [[applied|e] w2] eqn:E2.
  2:{ unfold statement in E2. done. }
  apply statement_steps in E2 as [S2 A2]; [|intros s a s' [= _ <-]; done].
  destruct (A2 _ eq_refl) as (s2 & _ & [= Ha Hs2]). subst s2.
  intros H. apply migrate_all_spec in H as [S3 Hr].
  assert (rtc migrate_step (mw_state w) (mw_state w')) as S by (etrans; [exact S1|]; by etrans).
  assert (ms_log (mw_state w2) `prefix_of` ms_log (mw_state w')) as Hp by by apply steps_extend.
  split_and!; [by eapply steps_migrated|by apply steps_extend|]. intros newly ->. destruct Hr as [-> Hall].
  assert (forall f, f ∈ readdir -> ends_with ".sql" f = true -> f ∈ recorded (mw_state w')) as Hrec.
  { intros f Hf He. assert (f ∈ sqlFiles) as Hs.
    { apply elem_of_sort_by, list_elem_of_In, filter_In. split; [by apply list_elem_of_In|done]. }
    unfold recorded in *. destruct (Hall f Hs) as [Hin|(sql & _ & Hl)].
    - rewrite <- Ha in Hin. destruct Hp as [k ->]. rewrite map_app. set_solver.
    - apply list_elem_of_In, in_map_iff. exists (f, sql). split; [done|]. by apply list_elem_of_In. }
  split_and!; [done|..].
  - apply StronglySorted_List_filter, sort_by_sorted, _.
  - intros f Hf. apply list_elem_of_In, filter_In in Hf as [Hf Hb]. bools. split.
    + intros Hw. apply Hb. rewrite <- Ha. destruct (steps_extend _ _ (transitivity S1 S2)) as [k Hk].
      unfold recorded in *. rewrite Hk, map_app. set_solver.
    + destruct (Hall f) as [?|?]; [by apply list_elem_of_In|done|done].
  - intros Hid. apply run_again; [done| |done].
    destruct (A1 tt eq_refl) as (s & _ & [= H1]). apply (steps_table (mw_state w1)); [|by rewrite <- H1]. by etrans.
Qed.
End migrations.

(** ** Witness: two files, the first of them applied by another instance meanwhile *)

Definition sample_sql (sql : string) (tables : list string) : result string (list string) :=
  if bool_decide (sql ∈ tables) then Err "relation already exists" else Ok (tables ++ [sql]).
Definition sample_files : list string := ["0002_b.sql"; "README"; "0001_a.sql"].
Definition sample_contents (f : string) : option string := Some ("create " +:+ f).
Definition quick_instance (n : nat) (s : mstate (schema := list string)) : mstate :=
  if Nat.eqb n 1 then match apply_file sample_sql "0001_a.sql" "create 0001_a.sql" s with Ok s' => s' | Err _ => s end else s.
Lemma quick_instance_steps n s : rtc (migrate_step sample_sql) s (quick_instance n s).
Proof.
  unfold quick_instance. destruct (Nat.eqb n 1); [|done].
  destruct (apply_file _ _ _ s) eqn:E; [|done]. by eapply rtc_once, step_apply.
Qed.
Definition empty_mworld : mworld (schema := list string) := mkMworld (mkMstate false [] []) 0.

Lemma migrations_run_once_witness :
  exists w', runMigrations sample_sql quick_instance sample_files sample_contents empty_mworld = (Ok ["0002_b.sql"], w') /\
    migrated sample_sql [] (mw_state w') /\ recorded (mw_state w') = ["0001_a.sql"; "0002_b.sql"].
Proof.
  eexists. split; [by vm_compute|]. split; [|by vm_compute].
  refine (proj1 (migrations_run_once sample_sql quick_instance sample_files sample_contents quick_instance_steps []
    empty_mworld (Ok ["0002_b.sql"]) _ _ ltac:(by vm_compute))).
  constructor; [done|constructor].
Defined.
