(* ===== verification/Email.v ===== *)
(** * E-mail (email/client.ts, email/templates.ts)

    Three messages are sent: the link to verify an address, the note that it is verified,
    and the API key.  What the customer typed is escaped before it is put into the HTML.
    Messages go to the provider with one request, or nowhere when no key is configured.

    In the texts below the grave accent stands for the double quote. *)

From S2P Require Import Prelude Js Types Http HttpTransport RouteHealth Numbers.
From Stdlib Require Import Ascii.
Open Scope Z_scope.

(** [s.replaceAll(c, r)] for a single character *)
Fixpoint replaceAll (c : ascii) (r s : string) : string :=
  match s with
  | EmptyString => EmptyString
  | String x s' => if bool_decide (x = c) then r +:+ replaceAll c r s' else String x (replaceAll c r s')
  end.
Definition quoted (s : string) : string := replaceAll "`" dquote s.

Definition escapeHtml (s : string) : string :=
  replaceAll "'" "&#39;" (replaceAll "034" "&quot;" (replaceAll ">" "&gt;" (replaceAll "<" "&lt;" (replaceAll "&" "&amp;" s)))).

Record EmailText := mkEmailText {
  em_subject : string;
  em_html : string
}.

Definition SHELL_STYLE : string :=
  quoted "font-family: system-ui, -apple-system, `Segoe UI`, sans-serif; " +:+
  "max-width: 600px; margin: 0 auto; padding: 40px 20px; color: #111; background: #fff;".
Definition CTA_STYLE : string :=
  "display: inline-block; padding: 14px 28px; background: #111; color: #fff; " +:+
  "text-decoration: none; border-radius: 6px; font-weight: 600;".
Definition KEY_BLOCK_STYLE : string :=
  "background: #f3f4f6; border: 1px solid #d1d5db; border-radius: 6px; " +:+
  "padding: 16px; font-family: ui-monospace, monospace; font-size: 13px; word-break: break-all;".
Definition FOOTER_STYLE : string := "font-size: 12px; color: #6b7280; margin-top: 32px;".

(** A template: literal parts and the places where a value goes. *)
Inductive part : Type :=
| Lit (s : string)
| Val (s : string).
Definition render (l : list part) : string :=
  String.concat "" (map (fun p => match p with Lit s => quoted s | Val s => s end) l).

Definition opening (title : string) : list part :=
  [Lit "<!DOCTYPE html><html><head><meta charset=`utf-8`></head>"; Lit newline; Lit "<body style=`"; Lit SHELL_STYLE; Lit "`>";
   Lit newline; Lit "  <h1 style=`font-size: 22px; margin-bottom: 16px;`>"; Lit title; Lit "</h1>"; Lit newline].
Definition greeting (name : string) : list part := [Lit "  <p>Hi "; Val name; Lit ",</p>"; Lit newline].
Definition closing (text : string) : list part :=
  [Lit "  <p style=`"; Lit FOOTER_STYLE; Lit "`>"; Lit text; Lit "</p>"; Lit newline; Lit "</body></html>"].

Definition verification_parts (name url : string) : list part :=
  opening "Verify your email" ++ greeting name ++
  [Lit "  <p>Thanks for signing up for Livepeer Transcode. Confirm your email to join the waitlist:</p>"; Lit newline;
   Lit "  <p style=`text-align: center; margin: 32px 0;`>"; Lit newline;
   Lit "    <a href=`"; Val url; Lit "` style=`"; Lit CTA_STYLE; Lit "`>Verify Email</a>"; Lit newline;
   Lit "  </p>"; Lit newline;
   Lit "  <p style=`font-size: 13px; color: #6b7280;`>Or copy this link:<br><a href=`"; Val url; Lit "`>"; Val url;
   Lit "</a></p>"; Lit newline] ++
  closing "If you didn't sign up, you can ignore this email.".
Definition verificationEmail (name verifyUrl : string) : EmailText :=
  mkEmailText "Verify your email — Livepeer Transcode" (render (verification_parts (escapeHtml name) (escapeHtml verifyUrl))).

Definition verified_parts (name : string) : list part :=
  opening "You're on the waitlist" ++ greeting name ++
  [Lit ("  <p>Your email is confirmed. We review signups on a rolling basis and you'll get an email with your API key " +:+
        "once you're approved.</p>"); Lit newline;
   Lit "  <p>No action needed from you for now.</p>"; Lit newline] ++
  closing "Livepeer Transcode".
Definition verifiedEmail (name : string) : EmailText :=
  mkEmailText "You're on the waitlist — Livepeer Transcode" (render (verified_parts (escapeHtml name))).

Definition api_key_parts (name key portal : string) : list part :=
  opening "You're approved" ++ greeting name ++
  [Lit "  <p>Here's your API key. <strong>Keep it safe — it won't be shown again.</strong></p>"; Lit newline;
   Lit "  <div style=`"; Lit KEY_BLOCK_STYLE; Lit "`>"; Val key; Lit "</div>"; Lit newline; Lit newline;
   Lit "  <h2 style=`font-size: 16px; margin-top: 28px;`>Quick start</h2>"; Lit newline;
   Lit "  <p>Submit a VOD transcode job with curl:</p>"; Lit newline;
   Lit "  <div style=`"; Lit KEY_BLOCK_STYLE; Lit "`>curl -X POST https://api.example.com/v1/uploads \"; Lit newline;
   Lit "  -H `Authorization: Bearer "; Val key; Lit "`</div>"; Lit newline; Lit newline;
   Lit "  <p>Or push an RTMP live stream — see <a href=`"; Val portal; Lit "`>the portal</a> for the full guide and to manage your key.</p>";
   Lit newline; Lit newline;
   Lit "  <p style=`text-align: center; margin: 32px 0;`>"; Lit newline;
   Lit "    <a href=`"; Val portal; Lit "` style=`"; Lit CTA_STYLE; Lit "`>Open the Portal</a>"; Lit newline;
   Lit "  </p>"; Lit newline; Lit newline] ++
  closing "Livepeer Transcode".
Definition apiKeyEmail (name apiKey portalUrl : string) : EmailText :=
  mkEmailText "Your Livepeer Transcode API key is ready"
    (render (api_key_parts (escapeHtml name) (escapeHtml apiKey) (escapeHtml portalUrl))).

(** ** The client *)

(** [s.replace(/\/+$/, "")] *)
Fixpoint strip_slashes (s : string) : string :=
  match s with
  | EmptyString => EmptyString
  | String c s' =>
      match strip_slashes s' with
      | EmptyString => if bool_decide (c = "/"%char) then EmptyString else String c EmptyString
      | t => String c t
      end
  end.

Record EmailConfig := mkEmailConfig {
  ec_RESEND_API_KEY : option string;
  ec_RESEND_BASE_URL : string;
  ec_FROM_EMAIL : string
}.

Section client.
Context `{Plat : Platform} `{F : Fetch} (config : EmailConfig).

Definition email_request (to_ : string) (m : EmailText) : HttpRequest :=
  mkHttpRequest "POST" (strip_slashes (ec_RESEND_BASE_URL config) +:+ "/emails")
    [("authorization", "Bearer " +:+ (ec_RESEND_API_KEY config ?? "undefined")); ("content-type", "application/json")]
    (Some (stringify (JObj [("from", JStr (ec_FROM_EMAIL config)); ("to", JArr [JStr to_]); ("subject", JStr (em_subject m));
                            ("html", JStr (em_html m))]))).

(** A request that fails, or is aborted after ten seconds, throws what [fetch] throws. *)
Definition send (to_ : string) (m : EmailText) : N unit :=
  if negb (truthy (ec_RESEND_API_KEY config)) then mret_ tt
  else
    do! response <- fetch (email_request to_ m);
    if negb (response_ok response)
    then mthrow (PlainError ("Resend " +:+ string_of_Z (rs_status response) +:+ ": " +:+ rs_body response))
    else mret_ tt.
End client.

(** ** Reading HTML

    Where a reader is: in text, in a tag, after an equals sign in a tag, or in a value in
    double quotes.  [skeleton] is the markup: the tags without the texts and without the
    quoted values.  [decode] resolves the five references [escapeHtml] makes. *)

Inductive html_mode : Type := InText | InTag | AfterEquals | InValue.
Definition next_mode (m : html_mode) (c : ascii) : html_mode :=
  match m with
  | InText => if bool_decide (c = "<"%char) then InTag else InText
  | InTag => if bool_decide (c = ">"%char) then InText else if bool_decide (c = "="%char) then AfterEquals else InTag
  | AfterEquals => if bool_decide (c = "034"%char) then InValue else if bool_decide (c = ">"%char) then InText
                   else if is_space c then AfterEquals else InTag
  | InValue => if bool_decide (c = "034"%char) then InTag else InValue
  end.
Fixpoint mode_after (m : html_mode) (s : string) : html_mode :=
  match s with EmptyString => m | String c s' => mode_after (next_mode m c) s' end.
Definition in_markup (m : html_mode) (c : ascii) : bool :=
  match m with
  | InText => bool_decide (c = "<"%char)
  | InValue => bool_decide (c = "034"%char)
  | _ => true
  end.
Fixpoint skeleton (m : html_mode) (s : string) : string :=
  match s with
  | EmptyString => EmptyString
  | String c s' => if in_markup m c then String c (skeleton (next_mode m c) s') else skeleton (next_mode m c) s'
  end.
Fixpoint decode (s : string) : string :=
  match s with
  | EmptyString => EmptyString
  | String "&" (String "a" (String "m" (String "p" (String ";" s')))) => String "&" (decode s')
  | String "&" (String "l" (String "t" (String ";" s'))) => String "<" (decode s')
  | String "&" (String "g" (String "t" (String ";" s'))) => String ">" (decode s')
  | String "&" (String "q" (String "u" (String "o" (String "t" (String ";" s'))))) => String "034" (decode s')
  | String "&" (String "#" (String "3" (String "9" (String ";" s')))) => String "'" (decode s')
  | String c s' => String c (decode s')
  end.

Lemma append_cons c s t : String c s +:+ t = String c (s +:+ t).
Proof. done. Qed.
Lemma append_assoc_str (a b c : string) : (a +:+ b) +:+ c = a +:+ b +:+ c.
Proof. induction a as [|x a IH]; [done|]. rewrite !append_cons. by rewrite IH. Qed.
Lemma replaceAll_app c r s t : replaceAll c r (s +:+ t) = replaceAll c r s +:+ replaceAll c r t.
Proof.
  induction s as [|x s IH]; [done|]. rewrite append_cons. cbn [replaceAll]. rewrite IH.
  case_bool_decide; [by rewrite append_assoc_str|done].
Qed.

Definition escape_char (c : ascii) : string :=
  if bool_decide (c = "&"%char) then "&amp;" else if bool_decide (c = "<"%char) then "&lt;"
  else if bool_decide (c = ">"%char) then "&gt;" else if bool_decide (c = "034"%char) then "&quot;"
  else if bool_decide (c = "'"%char) then "&#39;" else String c EmptyString.

Lemma escape_cons c s : escapeHtml (String c s) = escape_char c +:+ escapeHtml s.
Proof.
  unfold escapeHtml, escape_char.
  assert (forall x r t, replaceAll x r (String c t) = replaceAll x r (String c EmptyString) +:+ replaceAll x r t) as Hc.
  { intros x r t. by rewrite <- (replaceAll_app x r (String c EmptyString) t). }
  rewrite Hc, !replaceAll_app. f_equal. cbn.
  repeat case_bool_decide; subst; try done; cbn; by repeat (rewrite bool_decide_eq_false_2 by done; cbn).
Qed.

Lemma decode_other c s : c <> "&"%char -> decode (String c s) = String c (decode s).
Proof. intros H. destruct c as [[] [] [] [] [] [] [] []]; try reflexivity; done. Qed.

Lemma decode_escape s : decode (escapeHtml s) = s.
Proof.
  induction s as [|c s IH]; [done|]. rewrite escape_cons. unfold escape_char.
  repeat case_bool_decide; subst; [(unfold String.append; cbn; by rewrite IH)..|].
  rewrite append_cons, decode_other by done. by rewrite (IH : decode ("" +:+ escapeHtml s) = s).
Qed.

Definition takes_values (m : html_mode) : bool := match m with InText | InValue => true | _ => false end.

Lemma skeleton_app m s t : skeleton m (s +:+ t) = skeleton m s +:+ skeleton (mode_after m s) t.
Proof.
  revert m. induction s as [|c s IH]; intros m; [done|]. rewrite append_cons. cbn. rewrite IH.
  by destruct (in_markup m c).
Qed.
Lemma mode_after_app m s t : mode_after m (s +:+ t) = mode_after (mode_after m s) t.
Proof. revert m. induction s as [|c s IH]; intros m; [done|]. rewrite append_cons. cbn. apply IH. Qed.

(** Escaped text is invisible to the markup, in a text and in a quoted value. *)
Lemma escaped_char_hidden m c :
  takes_values m = true -> skeleton m (escape_char c) = EmptyString /\ mode_after m (escape_char c) = m.
Proof.
  intros Hm. unfold escape_char. repeat case_bool_decide; subst; try (by destruct m).
  destruct m; cbn; try done; by rewrite bool_decide_eq_false_2.
Qed.
Lemma escaped_hidden m s :
  takes_values m = true -> skeleton m (escapeHtml s) = EmptyString /\ mode_after m (escapeHtml s) = m.
Proof.
  intros Hm. induction s as [|c s [IH1 IH2]]; [done|].
  destruct (escaped_char_hidden m c Hm) as [H1 H2].
  rewrite escape_cons, skeleton_app, mode_after_app, H1, H2, IH1, IH2. done.
Qed.

Definition blank (l : list part) : list part := map (fun p => match p with Lit s => Lit s | Val _ => Val "" end) l.
(** Every value of a template is in a text or in a quoted value, and the text ends in text. *)
Fixpoint placed (m : html_mode) (l : list part) : bool :=
  match l with
  | [] => match m with InText => true | _ => false end
  | Lit s :: l' => placed (mode_after m (quoted s)) l'
  | Val _ :: l' => takes_values m && placed m l'
  end.
Definition escaped_values (l : list part) : Prop :=
  Forall (fun p => match p with Val s => exists x, s = escapeHtml x | Lit _ => True end) l.

Lemma render_cons p l : render (p :: l) = match p with Lit s => quoted s | Val s => s end +:+ render l.
Proof. unfold render. destruct l; [|done]. cbn. by rewrite append_nil. Qed.

Lemma placed_skeleton m l :
  placed m l = true -> escaped_values l ->
  skeleton m (render l) = skeleton m (render (blank l)) /\ mode_after m (render l) = InText.
Proof.
  intros Hp Hv. revert m Hp. induction Hv as [|p l Hx Hv IH]; intros m; cbn [placed].
  { by destruct m. }
  destruct p as [s|s]; cbn [blank map]; rewrite !render_cons, !skeleton_app, !mode_after_app; fold (blank l); intros Hp.
  - destruct (IH _ Hp) as [-> ->]. done.
  - destruct Hx as [x ->]. apply andb_true_iff in Hp as [Hm Hp].
    destruct (escaped_hidden m x Hm) as [-> ->]. destruct (IH _ Hp) as [-> ->]. done.
Qed.

Lemma same_skeleton m l l' :
  placed m l = true -> placed m l' = true -> blank l = blank l' -> escaped_values l -> escaped_values l' ->
  skeleton m (render l) = skeleton m (render l').
Proof.
  intros Hp Hp' Hb He He'. destruct (placed_skeleton m l Hp He) as [-> _].
  destruct (placed_skeleton m l' Hp' He') as [-> _]. by rewrite Hb.
Qed.

(** C28: a message carries what was typed, and no markup of it.  The references that
    escaping makes resolve to exactly the text that was escaped; and the tags and
    attributes of each of the three messages are those of the message with nothing
    filled in, whatever name, link, key and portal address are filled in. *)
Theorem emails_carry_text_only name url key portal :
  decode (escapeHtml name) = name /\
  skeleton InText (em_html (verificationEmail name url)) = skeleton InText (em_html (verificationEmail "" "")) /\
  skeleton InText (em_html (verifiedEmail name)) = skeleton InText (em_html (verifiedEmail "")) /\
  skeleton InText (em_html (apiKeyEmail name key portal)) = skeleton InText (em_html (apiKeyEmail "" "" "")).
Proof.
  split; [apply decode_escape|].
  split_and!; unfold verificationEmail, verifiedEmail, apiKeyEmail; cbn [em_html];
    apply same_skeleton; try (by vm_compute); repeat constructor; eexists; done.
Qed.

(** The quotes of the font name end the style of the body: a reader takes the rest of the
    style for attributes without a value. *)
Fixpoint first_value (m : html_mode) (s : string) : string :=
  match s with
  | EmptyString => EmptyString
  | String c s' =>
      match m, next_mode m c with
      | InValue, InValue => String c (first_value InValue s')
      | InValue, _ => EmptyString
      | _, m' => first_value m' s'
      end
  end.
Lemma body_style_ends_early :
  first_value InText (quoted "<body style=`" +:+ SHELL_STYLE +:+ quoted "`>") = "font-family: system-ui, -apple-system, ".
Proof. by vm_compute. Qed.
