(* ===== verification/Manifest.v ===== *)
(** * Playlists and playback addresses (engine/service/manifestBuilder.ts, playbackUrlBuilder.ts)

    The master playlist names the variants of an asset with their bandwidth, size and
    codecs; a player reads it line by line. *)

From S2P Require Import Prelude Js Types Http Database VodUsage JsonCompare RouteHealth Selection Numbers Email.
From Stdlib Require Import Ascii.
Open Scope Z_scope.

Record ManifestRendition := mkManifestRendition {
  mr_codec : Codec;
  mr_resolution : Resolution;
  mr_bitrateKbps : Z;
  mr_variantUri : string
}.

Definition RESOLUTION_PIXELS (r : Resolution) : Z * Z :=
  match r with
  | p240 => (426, 240) | p360 => (640, 360) | p480 => (854, 480)
  | p720 => (1280, 720) | p1080 => (1920, 1080) | p2160 => (3840, 2160)
  end.
Definition CODEC_STRING (c : Codec) : string :=
  match c with h264 => "avc1.640028" | hevc => "hvc1.1.6.L120.B0" | av1 => "av01.0.05M.08" end.
Definition AUDIO_STRING : string := "mp4a.40.2".

Definition codecs_of (c : Codec) : string := CODEC_STRING c +:+ "," +:+ AUDIO_STRING.
Definition stream_inf (r : ManifestRendition) : string :=
  let '(w, h) := RESOLUTION_PIXELS (mr_resolution r) in
  "#EXT-X-STREAM-INF:BANDWIDTH=" +:+ string_of_Z (mr_bitrateKbps r * 1000) +:+ ",RESOLUTION=" +:+ string_of_Z w +:+ "x" +:+
  string_of_Z h +:+ ",CODECS=" +:+ dquote +:+ codecs_of (mr_codec r) +:+ dquote.
Definition manifest_lines (renditions : list ManifestRendition) : list string :=
  ["#EXTM3U"; "#EXT-X-VERSION:6"; "#EXT-X-INDEPENDENT-SEGMENTS"; ""] ++
  flat_map (fun r => [stream_inf r; mr_variantUri r]) renditions.
Definition buildMasterManifest (renditions : list ManifestRendition) : string :=
  join newline (manifest_lines renditions) +:+ newline.

Definition manifestRenditionsFromSpecs (specs : list Rung) (variantUri : Rung -> string) : list ManifestRendition :=
  map (fun s => mkManifestRendition (rg_codec s) (rg_resolution s) (rg_bitrateKbps s) (variantUri s)) specs.

Definition buildPlaybackUrl (playbackId : PlaybackId) (baseUrl : string) (signedToken : option string) : string :=
  let url := strip_slash baseUrl +:+ "/" +:+ pb_id playbackId +:+ ".m3u8" in
  if (pb_policy playbackId ==? "signed") && truthy signedToken
  then url +:+ "?token=" +:+ encodeURIComponent (signedToken ?? "")
  else url.

(** ** The player's side *)

Fixpoint lines (s : string) : list string :=
  match s with
  | EmptyString => [EmptyString]
  | String c s' =>
      if bool_decide (c = "010"%char) then EmptyString :: lines s'
      else match lines s' with l :: ls => String c l :: ls | [] => [String c EmptyString] end
  end.
Fixpoint after_prefix (p s : string) : option string :=
  match p, s with
  | EmptyString, _ => Some s
  | String a p', String b s' => if bool_decide (a = b) then after_prefix p' s' else None
  | _, EmptyString => None
  end.
Fixpoint until_quote (s : string) : string :=
  match s with
  | EmptyString => EmptyString
  | String c s' => if bool_decide (c = "034"%char) then EmptyString else String c (until_quote s')
  end.
Record Variant := mkVariant {
  va_bandwidth : Z;
  va_width : Z;
  va_height : Z;
  va_codecs : string;
  va_uri : string
}.
Definition read_variant (inf uri : string) : option Variant :=
  r ← after_prefix "#EXT-X-STREAM-INF:BANDWIDTH=" inf;
  let '(bw, r) := span_digits r in
  r ← after_prefix ",RESOLUTION=" r;
  let '(w, r) := span_digits r in
  r ← after_prefix "x" r;
  let '(h, r) := span_digits r in
  r ← after_prefix (",CODECS=" +:+ dquote) r;
  bandwidth ← decimal_value bw;
  width ← decimal_value w;
  height ← decimal_value h;
  Some (mkVariant bandwidth width height (until_quote r) uri).
Fixpoint read_variants (l : list string) : list Variant :=
  match l with
  | inf :: ((uri :: l') as rest) =>
      match read_variant inf uri with Some v => v :: read_variants l' | None => read_variants rest end
  | _ => []
  end.

(** ** Reading back *)

Lemma after_prefix_app p s : after_prefix p (p +:+ s) = Some s.
Proof. induction p as [|c p IH]; [done|]. rewrite append_cons. cbn. by rewrite bool_decide_eq_true_2. Qed.

Definition no_digit_first (p : string) : bool := match p with String c _ => negb (is_digit c) | EmptyString => false end.
Lemma span_digits_app s p t :
  all_chars is_digit s = true -> no_digit_first p = true -> span_digits (s +:+ p +:+ t) = (s, p +:+ t).
Proof.
  intros Hs Hc. induction s as [|x s IH].
  - destruct p as [|c p]; [done|]. cbn [no_digit_first] in Hc. bools. change ("" +:+ ?y) with y.
    rewrite append_cons. cbn [span_digits]. by rewrite Hc.
  - rewrite append_cons. cbn [all_chars] in Hs. bools. cbn [span_digits]. by rewrite H, IH.
Qed.
Lemma string_of_Z_digits z : 0 <= z -> all_chars is_digit (string_of_Z z) = true.
Proof.
  intros H. apply string_of_Z_value in H. unfold decimal_value in H. destruct (canonical_decimal _); [|done].
  by eapply digits_value_all.
Qed.

Lemma read_variant_inf r uri :
  0 <= mr_bitrateKbps r ->
  read_variant (stream_inf r) uri =
  Some (mkVariant (mr_bitrateKbps r * 1000) (fst (RESOLUTION_PIXELS (mr_resolution r)))
          (snd (RESOLUTION_PIXELS (mr_resolution r))) (codecs_of (mr_codec r)) uri).
Proof.
  intros Hb. unfold read_variant, stream_inf.
  destruct (RESOLUTION_PIXELS (mr_resolution r)) as [w h] eqn:E. cbn [fst snd].
  assert (0 <= w /\ 0 <= h) as [Hw Hh] by (destruct (mr_resolution r); injection E as <- <-; lia).
  rewrite after_prefix_app. cbn [mbind option_bind].
  rewrite span_digits_app by (done || apply string_of_Z_digits; lia). rewrite after_prefix_app. cbn [mbind option_bind].
  rewrite span_digits_app by (done || by apply string_of_Z_digits). rewrite after_prefix_app. cbn [mbind option_bind].
  rewrite span_digits_app by (done || by apply string_of_Z_digits).
  rewrite <- (append_assoc_str ",CODECS="), after_prefix_app. cbn [mbind option_bind].
  rewrite !string_of_Z_value by lia. cbn [mbind option_bind]. by destruct (mr_codec r).
Qed.

Definition one_line (s : string) : bool := all_chars (fun c => negb (bool_decide (c = "010"%char))) s.
Lemma lines_app x t : one_line x = true -> lines (x +:+ newline +:+ t) = x :: lines t.
Proof.
  induction x as [|c x IH]; intros H; [done|]. unfold one_line in *. cbn [all_chars] in H. bools.
  rewrite append_cons. cbn [lines]. rewrite bool_decide_eq_false_2, IH by done. done.
Qed.
Lemma lines_join l : l <> [] -> Forall (fun x => one_line x = true) l -> lines (join newline l +:+ newline) = l ++ [EmptyString].
Proof.
  intros Hl H. induction H as [|x l Hx H IH]; [done|]. destruct l as [|y l].
  - cbn [join app]. rewrite <- (append_nil newline). by rewrite lines_app.
  - change (join newline (x :: y :: l)) with (x +:+ newline +:+ join newline (y :: l)).
    rewrite !append_assoc_str, lines_app, IH by done. done.
Qed.

Lemma one_line_app x y : one_line (x +:+ y) = one_line x && one_line y.
Proof. unfold one_line. induction x as [|c x IH]; [done|]. rewrite append_cons. cbn [all_chars]. by rewrite IH, andb_assoc. Qed.
Lemma digits_one_line s : all_chars is_digit s = true -> one_line s = true.
Proof.
  unfold one_line. induction s as [|c s IH]; [done|]. cbn [all_chars]. intros H. bools. rewrite IH by done.
  rewrite bool_decide_eq_false_2; [done|]. by intros ->.
Qed.
Lemma stream_inf_one_line r : 0 <= mr_bitrateKbps r -> one_line (stream_inf r) = true.
Proof.
  intros Hb. unfold stream_inf. destruct (RESOLUTION_PIXELS (mr_resolution r)) as [w h] eqn:E.
  assert (0 <= w /\ 0 <= h) as [Hw Hh] by (destruct (mr_resolution r); injection E as <- <-; lia).
  rewrite !one_line_app, !(digits_one_line (string_of_Z _)) by (apply string_of_Z_digits; lia).
  by destruct (mr_codec r).
Qed.

(** A player reads from the playlist, in order, the bandwidth, size, codecs and address of
    every variant that was put into it. *)
Lemma manifest_reads_back renditions :
  Forall (fun r => 0 <= mr_bitrateKbps r /\ one_line (mr_variantUri r) = true) renditions ->
  read_variants (skipn 4 (lines (buildMasterManifest renditions))) =
  map (fun r => mkVariant (mr_bitrateKbps r * 1000) (fst (RESOLUTION_PIXELS (mr_resolution r)))
                  (snd (RESOLUTION_PIXELS (mr_resolution r))) (codecs_of (mr_codec r)) (mr_variantUri r)) renditions.
Proof.
  intros H. unfold buildMasterManifest. rewrite lines_join; [|done|].
  - unfold manifest_lines. cbn [app skipn]. rewrite drop_0.
    induction H as [|r l [Hb Hu] H IH]; [done|]. cbn [flat_map app map read_variants].
    rewrite read_variant_inf by done. cbn [app]. by rewrite IH.
  - unfold manifest_lines. repeat (apply Forall_cons; split; [done|]).
    induction H as [|r l [Hb Hu] H IH]; [done|]. cbn [flat_map app].
    apply Forall_cons. split; [by apply stream_inf_one_line|]. apply Forall_cons. by split.
Qed.
