(* ===== verification/Catalog.v ===== *)
(** * The capability catalog and the statistics (routes/catalog.ts, auth/waitlist.ts,
    routes/auth/admin.ts)

    What LOC can run and at which price, for the portal and for the administrators.  The
    answer of LOC is projected on the properties of the schema.  The sign-ups
    of the administration page are counted per day. *)

From S2P Require Import Prelude Js Types Wire Http Interfaces RouteProtocol LocClient Database SessionStore.
From S2P Require Import Accounts AccountsSpec AuthRoutes LiveReconciler ProductRoutes.
Open Scope Z_scope.

(** ** The schema *)

(** [/^\d+$/] *)
Definition integer_text (s : string) : bool := nonempty s && all_chars is_digit s.
(** [dec.nullable()]: [Some None] is null. *)
Definition z_nullable {A} (dec : decoder A) : decoder (option A) := fun j =>
  match j with JNull => Some None | _ => Some <$> dec j end.

Record CatalogSession := mkCatalogSession {
  cs_descriptor_schema : option string;
  cs_attachment : option string;
  cs_metering : option string
}.
(** A property that may be absent or null is an option of an option. *)
Record CatalogOffering := mkCatalogOffering {
  co_id : string;
  co_protocol : string;
  co_work_unit : option (option string);
  co_price_per_work_unit_wei : option string;
  co_units_per_price : string;
  co_job : option (option (option (list string)));
  co_session : option (option CatalogSession)
}.
Record CatalogCapability := mkCatalogCapability {
  cc_name : string;
  cc_work_unit : option (option string);
  cc_offerings : list CatalogOffering
}.

Definition catalog_job : decoder (option (list string)) := z_object (fun f => opt_field f "transports" (z_array 0 z_string)).
Definition catalog_session : decoder CatalogSession := z_object (fun f =>
  descriptor ← opt_field f "descriptor_schema" z_string;
  attachment ← opt_field f "attachment" z_string;
  metering ← opt_field f "metering" z_string;
  Some (mkCatalogSession descriptor attachment metering)).
Definition catalog_offering : decoder CatalogOffering := z_object (fun f =>
  id ← field f "id" z_string;
  protocol ← field f "protocol" z_string;
  work_unit ← opt_field f "work_unit" (z_nullable z_string);
  price ← field f "price_per_work_unit_wei" (z_nullable (z_refined integer_text));
  units ← field f "units_per_price" (z_refined (fun s => integer_text s && match digits_value 0 s with Some z => 0 <? z | None => false end));
  job ← opt_field f "job" (z_nullable catalog_job);
  sess ← opt_field f "session" (z_nullable catalog_session);
  Some (mkCatalogOffering id protocol work_unit price units job sess)).
Definition catalog_capability : decoder CatalogCapability := z_object (fun f =>
  name ← field f "name" z_string;
  work_unit ← opt_field f "work_unit" (z_nullable z_string);
  offerings ← field f "offerings" (z_array 0 catalog_offering);
  Some (mkCatalogCapability name work_unit offerings)).
Definition catalogWire : decoder (list CatalogCapability) := z_object (fun f => field f "items" (z_array 0 catalog_capability)).

(** ** The answer *)

Definition nullable {A} (f : A -> json) (o : option A) : json := match o with Some a => f a | None => JNull end.
Definition session_fields (s : CatalogSession) : list (string * json) :=
  opt_prop "descriptor_schema" JStr (cs_descriptor_schema s) ++ opt_prop "attachment" JStr (cs_attachment s) ++
  opt_prop "metering" JStr (cs_metering s).
Definition job_fields (transports : option (list string)) : list (string * json) :=
  opt_prop "transports" (fun l => JArr (map JStr l)) transports.
Definition offering_fields (o : CatalogOffering) : list (string * json) :=
  [("id", JStr (co_id o)); ("protocol", JStr (co_protocol o))] ++
  opt_prop "work_unit" (nullable JStr) (co_work_unit o) ++
  [("price_per_work_unit_wei", nullable JStr (co_price_per_work_unit_wei o)); ("units_per_price", JStr (co_units_per_price o))] ++
  opt_prop "job" (nullable (fun j => JObj (job_fields j))) (co_job o) ++
  opt_prop "session" (nullable (fun s => JObj (session_fields s))) (co_session o).

Section catalog.
Context `{Plat : Platform} `{Transport : LocTransport}.
Context (vod_default live_default : string).

Definition configured_for_gateway (cap : CatalogCapability) (off : CatalogOffering) : bool :=
  ((cc_name cap ==? "video:transcode.abr") && (co_id off ==? vod_default) && (co_protocol off ==? "paid-job/v1")) ||
  ((cc_name cap ==? "video:transcode.live") && (co_id off ==? live_default) && (co_protocol off ==? "paid-session/v1")).

Definition capability_json (cap : CatalogCapability) : json :=
  JObj ([("name", JStr (cc_name cap))] ++ opt_prop "work_unit" (nullable JStr) (cc_work_unit cap) ++
    [("offerings", JArr (map (fun off => JObj (offering_fields off ++
       [("configured_for_gateway", JBool (configured_for_gateway cap off))])) (cc_offerings cap)))]).

(** The handler, behind the session check of the portal or the administrator's. *)
Definition get_catalog `{Env : Environment} (configured : bool) : W Response :=
  do! answer <- (
    if negb configured then mret_ (reply 503 [("message", JStr "LOC is not configured for this gateway.")])
    else mcatch
      (do! data <- call (transport_request (mkLocRequest "GET" "/v1/capabilities" catalogWire None None));
       do! now <- now_;
       mret_ (reply 200 [("source", JStr "LOC"); ("price_basis", JStr "network_wholesale");
                         ("fetched_at", JStr (toISOString now)); ("items", JArr (map capability_json data))]))
      (fun _ => mret_ (reply 503 [("message",
         JStr "LOC catalog is currently unavailable. Retry to fetch current capabilities and prices.")])));
  mret_ (no_store answer).
End catalog.

(** ** The projection is faithful *)

Lemma z_nullable_again {A} (dec : decoder A) (to : A -> json) j o :
  (forall j a, dec j = Some a -> dec (to a) = Some a) -> (forall a, to a <> JNull) ->
  z_nullable dec j = Some o -> z_nullable dec (nullable to o) = Some o.
Proof.
  intros Hd Hn H. destruct o as [a|]; [|done]. cbn. unfold z_nullable in *.
  assert (dec j = Some a) as Hj. { destruct j; [done|..]; apply fmap_Some in H as (? & Hb & [= <-]); exact Hb. }
  specialize (Hd _ _ Hj). specialize (Hn a). destruct (to a); [done|..]; by rewrite Hd.
Qed.
Lemma z_string_again j s : z_string j = Some s -> z_string (JStr s) = Some s.
Proof. done. Qed.

Lemma decode_all_again {A} (dec : decoder A) (to : A -> json) :
  (forall j a, dec j = Some a -> dec (to a) = Some a) ->
  forall js l, decode_all dec js = Some l -> decode_all dec (map to l) = Some l.
Proof.
  intros Hd js. induction js as [|j js IH]; intros l; cbn; [by intros [= <-]|].
  intros (a & Ha & H)%bind_Some. apply bind_Some in H as (r & Hr & [= <-]). cbn.
  rewrite (Hd _ _ Ha). cbn. by rewrite (IH _ Hr).
Qed.
Lemma z_array_again {A} (dec : decoder A) (to : A -> json) j l :
  (forall j a, dec j = Some a -> dec (to a) = Some a) ->
  z_array 0 dec j = Some l -> z_array 0 dec (JArr (map to l)) = Some l.
Proof. intros Hd H. destruct j; try done. cbn in *. by eapply decode_all_again. Qed.

Lemma session_again s : catalog_session (JObj (session_fields s)) = Some s.
Proof. by destruct s as [[?|] [?|] [?|]]. Qed.
Lemma job_again t : catalog_job (JObj (job_fields t)) = Some t.
Proof.
  apply (opt_field_at t _ _ (fun l => JArr (map JStr l))); [by destruct t|]. intros l _. cbn [z_array Nat.leb].
  induction l as [|x l IH]; [done|]. cbn [map decode_all]. by rewrite IH.
Qed.

Lemma opt_field_here {A} f k j (dec : decoder A) a :
  assoc k f = Some j -> dec j = Some a -> opt_field f k dec = Some (Some a).
Proof. unfold opt_field. by intros -> ->. Qed.
Lemma opt_field_absent {A} f k (dec : decoder A) : assoc k f = None -> opt_field f k dec = Some None.
Proof. unfold opt_field. by intros ->. Qed.
Lemma nullable_text o : z_nullable z_string (nullable JStr o) = Some o.
Proof. by destruct o. Qed.
Lemma nullable_job o : z_nullable catalog_job (nullable (fun j => JObj (job_fields j)) o) = Some o.
Proof. destruct o; [|done]. cbn -[catalog_job]. by rewrite job_again. Qed.
Lemma nullable_session o : z_nullable catalog_session (nullable (fun s => JObj (session_fields s)) o) = Some o.
Proof. destruct o; [|done]. cbn -[catalog_session]. by rewrite session_again. Qed.
Ltac reading_options := repeat (
  first [ rewrite opt_field_absent by reflexivity
        | erewrite opt_field_here; [|reflexivity|first [apply nullable_text|apply nullable_job|apply nullable_session]] ];
  cbn [mbind option_bind]).

(** What was read of an offering is read of its projection, whatever is added to it. *)
Lemma offering_again j o b :
  catalog_offering j = Some o -> catalog_offering (JObj (offering_fields o ++ [("configured_for_gateway", JBool b)])) = Some o.
Proof.
  intros (f & -> & H)%z_object_Some. decoding H. injection H as <-.
  apply field_Some in D2 as (jp & _ & Hp). apply field_Some in D3 as (ju & _ & Hu%z_refined_again).
  assert (z_nullable (z_refined integer_text) (nullable JStr x2) = Some x2) as Hprice.
  { eapply z_nullable_again; [|done|exact Hp]. intros j a. apply z_refined_again. }
  unfold catalog_offering, offering_fields. cbn [z_object co_id co_protocol co_work_unit co_price_per_work_unit_wei
    co_units_per_price co_job co_session].
  destruct x1 as [w|], x4 as [jb|], x5 as [se|]; cbn [opt_prop app];
    (reading "id" as x by done); (reading "protocol" as x0 by done); cbn [mbind option_bind];
    (reading "price_per_work_unit_wei" as x2 by exact Hprice);
    (reading "units_per_price" as x3 by exact Hu); cbn [mbind option_bind]; by reading_options.
Qed.

Lemma capability_again vod live j c : catalog_capability j = Some c -> catalog_capability (capability_json vod live c) = Some c.
Proof.
  intros (f & -> & H)%z_object_Some. decoding H. injection H as <-.
  apply field_Some in D1 as (jo & _ & Ho).
  assert (z_array 0 catalog_offering (JArr (map (fun off => JObj (offering_fields off ++ [("configured_for_gateway",
    JBool (configured_for_gateway vod live (mkCatalogCapability x x0 x1) off))])) x1)) = Some x1) as Hl.
  { eapply z_array_again; [|exact Ho]. intros j a. by apply offering_again. }
  unfold catalog_capability, capability_json. cbn [cc_name cc_work_unit cc_offerings].
  destruct x0 as [w|]; cbn [opt_prop app z_object]; (reading "name" as x by done); cbn [mbind option_bind]; reading_options;
    by (reading "offerings" as x1 by exact Hl).
Qed.

(** What the users of the catalog read of its items is what LOC said of them. *)
Lemma catalog_reads_back vod live j data :
  catalogWire j = Some data -> catalogWire (JObj [("items", JArr (map (capability_json vod live) data))]) = Some data.
Proof.
  intros (f & -> & (jo & _ & H)%field_Some)%z_object_Some.
  unfold catalogWire. cbn [z_object]. eapply field_at; [done|]. eapply z_array_again; [|exact H].
  intros j a. apply capability_again.
Qed.

(** Nothing else of LOC's answer is passed on: an offering has these properties only. *)
Lemma catalog_offering_keys o :
  Forall (fun kv => fst kv ∈ ["id"; "protocol"; "work_unit"; "price_per_work_unit_wei"; "units_per_price"; "job"; "session"])
    (offering_fields o).
Proof. destruct o as [? ? [?|] ? ? [?|] [?|]]; cbn; repeat constructor; set_solver. Qed.

(** ** Sign-up statistics (auth/waitlist.ts, routes/auth/admin.ts)

    The administration page counts the sign-ups of today, of this week and of this month
    and lists the last thirty days.  Days are those of the database server. *)

(** The date of an instant as a number of days, the first day of a date's week and month,
    and a date's text. *)
Class Calendar := {
  day_of : Z -> Z;
  week_start : Z -> Z;
  month_start : Z -> Z;
  date_text : Z -> string;
  week_start_le : forall d, week_start d <= d <= week_start d + 6;
  month_start_le : forall d, month_start d <= d <= month_start d + 30
}.

Record Stats := mkStats {
  sa_totalSignups : Z;
  sa_today : Z;
  sa_thisWeek : Z;
  sa_thisMonth : Z;
  sa_dailyCounts : list (string * Z)
}.

Section stats.
Context `{Cal : Calendar}.

Definition signups (d : adb) : list Signup := (map_to_list (ad_waitlist d)).*2.
Definition created_day (r : Signup) : Z := day_of (sg_createdAt r).
(** [COUNT] of the rows created on a day or later *)
Definition count_since (day : Z) (d : adb) : Z :=
  Z.of_nat (length (List.filter (fun r => day <=? created_day r) (signups d))).

(** [GROUP BY] the date, latest first *)
Definition latest_first : Z -> Z -> comparison := reversed Z.compare.
Definition days_since (day : Z) (d : adb) : list Z :=
  sort_by latest_first (remove_dups (created_day <$> List.filter (fun r => day <=? created_day r) (signups d))).
Definition daily_counts (day : Z) (d : adb) : list (Z * Z) :=
  map (fun x => (x, Z.of_nat (length (List.filter (fun r => created_day r =? x) (signups d))))) (days_since day d).

Context `{Env : AccountsEnv} (config : AuthConfig).

(** The five queries; the others may write between them. *)
Definition stats : A_ Stats :=
  do! total <- select_ countAll;
  do! today <- select_ (fun d => count_since (day_of (ad_now d)) d);
  do! week <- select_ (fun d => count_since (week_start (day_of (ad_now d))) d);
  do! month <- select_ (fun d => count_since (month_start (day_of (ad_now d))) d);
  do! daily <- select_ (fun d => daily_counts (day_of (ad_now d) - 30) d);
  mret_ (mkStats total today week month (map (fun '(x, n) => (date_text x, n)) daily)).

(** GET /api/v1/admin/stats *)
Definition get_stats (authorization : option string) : A_ Reply :=
  with_admin config authorization (
    do! s <- stats;
    mret_ (ok_reply [("total_signups", JNum (NInt (sa_totalSignups s))); ("today", JNum (NInt (sa_today s)));
      ("this_week", JNum (NInt (sa_thisWeek s))); ("this_month", JNum (NInt (sa_thisMonth s)));
      ("daily_counts", JArr (map (fun '(date, n) => JObj [("date", JStr date); ("count", JNum (NInt n))]) (sa_dailyCounts s)))])).
End stats.

(** *** The counts agree *)

Section agree.
Context `{Cal : Calendar}.

Lemma filter_count_mono {A} (p q : A -> bool) l :
  (forall x, p x = true -> q x = true) -> (length (List.filter p l) <= length (List.filter q l))%nat.
Proof.
  intros H. induction l as [|x l IH]; [done|]. cbn. destruct (p x) eqn:E.
  - rewrite (H x E). cbn. lia.
  - destruct (q x); cbn; lia.
Qed.

Lemma filter_length_le {A} (p : A -> bool) l : (length (List.filter p l) <= length l)%nat.
Proof. induction l as [|x l IH]; [done|]. cbn. destruct (p x); cbn; lia. Qed.

Lemma bool_decide_eq_Zleb a b : bool_decide (a <= b) = (a <=? b).
Proof. destruct (a <=? b) eqn:E; [apply bool_decide_eq_true|apply bool_decide_eq_false]; lia. Qed.

(** The rows of a list, counted by a key over the distinct keys of some of them. *)
Lemma count_by_key {A} (key : A -> Z) (keys : list Z) (l : list A) :
  NoDup keys ->
  sum_list_with (fun k => length (List.filter (fun x => key x =? k) l)) keys =
  length (List.filter (fun x => bool_decide (key x ∈ keys)) l).
Proof.
  intros Hn. induction l as [|x l IH].
  { cbn. clear Hn. by induction keys. }
  cbn. destruct (bool_decide (key x ∈ keys)) eqn:E; bools; cbn; rewrite <- IH; clear IH.
  - induction Hn as [|k keys Hk Hn IH]; [by apply elem_of_nil in E|]. cbn. destruct (key x =? k) eqn:Ek; bools.
    + cbn. f_equal. f_equal. subst k. clear -Hk. induction keys as [|k keys IH]; [done|]. cbn.
      apply not_elem_of_cons in Hk as [H1 H2]. rewrite (proj2 (Z.eqb_neq (key x) k)) by done. by rewrite IH.
    + rewrite IH; [lia|]. by apply elem_of_cons in E as [?|?].
  - clear Hn. induction keys as [|k keys IH]; [done|]. apply not_elem_of_cons in E as [H1 H2]. cbn.
    rewrite (proj2 (Z.eqb_neq (key x) k)) by done. by rewrite IH.
Qed.

Lemma sum_Z_of_nat {A} (f : A -> nat) l : foldr Z.add 0 (map (fun x => Z.of_nat (f x)) l) = Z.of_nat (sum_list_with f l).
Proof. induction l as [|x l IH]; [done|]. cbn. rewrite IH. lia. Qed.

(** On one state of the tables: today's sign-ups are among the week's and the month's,
    which are among all; the days are listed once each, latest first; and their counts
    add up to the sign-ups of the thirty days. *)
Lemma statistics_agree d :
  let today := day_of (ad_now d) in
  0 <= count_since today d <= count_since (week_start today) d /\
  count_since today d <= count_since (month_start today) d /\
  count_since (week_start today) d <= countAll d /\ count_since (month_start today) d <= countAll d /\
  NoDup (daily_counts (today - 30) d).*1 /\
  StronglySorted (cmp_le latest_first) (daily_counts (today - 30) d).*1 /\
  foldr Z.add 0 (daily_counts (today - 30) d).*2 = count_since (today - 30) d.
Proof.
  intros today. unfold count_since.
  assert (forall a b : Z, a <= b -> (length (List.filter (fun r => (b <=? created_day r)%Z) (signups d)) <=
                                     length (List.filter (fun r => (a <=? created_day r)%Z) (signups d)))%nat) as Hm.
  { intros a b Hab. apply filter_count_mono. intros r Hr. bools. apply Z.leb_le. lia. }
  assert (forall a : Z, (length (List.filter (fun r => (a <=? created_day r)%Z) (signups d)) <= length (signups d))%nat) as Ht
    by (intros a; apply filter_length_le).
  assert (countAll d = Z.of_nat (length (signups d))) as Hc.
  { unfold countAll, rows_where, signups. f_equal. induction ((map_to_list _).*2) as [|x l IH]; [done|]. cbn. by rewrite IH. }
  pose proof (week_start_le today). pose proof (month_start_le today).
  assert ((daily_counts (today - 30) d).*1 = days_since (today - 30) d) as Hk.
  { unfold daily_counts. rewrite <- list_fmap_compose. apply list_fmap_id. }
  assert (NoDup (days_since (today - 30) d)) as Hn.
  { unfold days_since. rewrite sort_by_Permutation. apply NoDup_remove_dups. }
  rewrite Hk, Hc. split_and!; try lia; try (apply inj_le, Ht); try (apply inj_le, Hm; lia); try done.
  - apply sort_by_sorted, _.
  - unfold daily_counts. rewrite <- list_fmap_compose.
    etrans; [apply (sum_Z_of_nat (fun x => length (List.filter (fun r => created_day r =? x) (signups d))))|].
    f_equal. rewrite count_by_key by done. f_equal.
    apply List.filter_ext_in. intros r Hr. rewrite <- (bool_decide_eq_Zleb (today - 30) (created_day r)).
    apply bool_decide_ext. unfold days_since. rewrite sort_by_Permutation, elem_of_remove_dups, list_elem_of_fmap. split.
    + intros (r' & -> & Hr'). apply list_elem_of_In, filter_In in Hr' as [_ Hr']. by apply Z.leb_le.
    + intros Hle. exists r. split; [done|]. apply list_elem_of_In, filter_In. split; [done|]. by apply Z.leb_le.
Qed.
End agree.
