(* ===== verification/Startup.v ===== *)
(** * Starting the gateway (index.ts, server.ts)

    [main] loads the configuration, migrates the database and constructs the services
    that the configuration asks for; what is not configured is left out, and the routes
    answer 503 for it.  [wire] is the construction, with the constructors' checks in the
    order of the code; the records after it are the options that the services and the
    routes get. *)

From S2P Require Import Prelude Js Types Wire Http Interfaces RouteProtocol LocClient Database SessionStore LiveReconciler.
From S2P Require Import AbrOrchestrator AbrRecovery RouteSelector HttpTransport Accounts AccountsSpec AuthRoutes ProductRoutes OperationSecrets.
From S2P Require Import CallerProof ControlSource SourceProbe Config Migrations.
Open Scope Z_scope.

Definition ControlRead : Type := ControlReadInput -> list socket_event -> option (result exn (list json)).

(** What runs: an absent service is [null] in the code. *)
Record Services := mkServices {
  sv_storage : option S3StorageConfig;
  sv_sourceProbe : AbrOrchestrator.SourceProbe;
  sv_caller : option CallerProofIdentity;
  sv_locTransport : option WebURL;
  sv_cipher : option (string * bytes);
  sv_sessionStore : option PaidSessionStoreOptions;
  sv_catalogTransport : option WebURL;
  sv_controlSource : option ControlRead;
  sv_rtmpListener : bool
}.

Inductive startup : Type :=
| Migrated
| Listening (config : Config) (services : Services).

Section start.
Context `{Plat : Platform} `{Web : WebPlatform} `{Process : Ffprobe} `{Curve : Secp256k1}.

(** [config.LIVEPEER_LOC_URL && config.LIVEPEER_LOC_API_KEY] *)
Definition loc_configured (c : Config) : bool := truthy (c_LIVEPEER_LOC_URL c) && truthy (c_LIVEPEER_LOC_API_KEY c).
Definition transport_options (c : Config) : LocHttpTransportOptions :=
  mkTransportOptions (c_LIVEPEER_LOC_URL c ?? "") (c_LIVEPEER_LOC_API_KEY c ?? "") (c_LIVEPEER_LOC_CLIENT_ID c)
    (NInt (c_LIVEPEER_LOC_TIMEOUT_MS c)).
Definition store_options (c : Config) (owner : string) : PaidSessionStoreOptions :=
  mkStoreOptions owner (c_LIVEPEER_SESSION_RECOVERY_LEASE_MS c).

(** The encrypted operation storage. *)
Definition wire_operations (c : Config) (owner : string) : result exn (option (string * bytes) * option PaidSessionStoreOptions) :=
  if truthy (c_LIVEPEER_OPERATION_SECRETS_KEK c) then
    let? kek := decodeWrappingKey from_base64 (c_LIVEPEER_OPERATION_SECRETS_KEK c ?? "") in
    throw_if negb (nonempty (c_LIVEPEER_OPERATION_SECRETS_KEY_ID c))
      with PlainError "operation secret key ID must not be empty" ;;
    throw_if negb (Nat.eqb (length kek) KEY_BYTES)
      with PlainError "operation secret wrapping key must be 32 bytes" ;;
    throw_if negb (valid_options (store_options c owner))
      with PlainError "paid session store options are invalid" ;;
    Ok (Some (c_LIVEPEER_OPERATION_SECRETS_KEY_ID c, kek), Some (store_options c owner))
  else Ok (None, None).

(** A key that is not set reads as the text of [undefined] in the constructor's test. *)
Definition wire_loc (c : Config) (owner : string) :
    result exn (option CallerProofIdentity * option WebURL * (option (string * bytes) * option PaidSessionStoreOptions)) :=
  if loc_configured c then
    let? caller := createCallerProofIdentity (c_LIVEPEER_CALLER_PRIVATE_KEY c ?? "undefined") in
    let? transport := createLocHttpTransport (transport_options c) in
    let? operations := wire_operations c owner in
    Ok (Some caller, Some transport, operations)
  else Ok (None, None, (None, None)).

Definition wire (env : environment) (c : Config) (owner : string) : result exn Services :=
  let storage := loadS3ConfigFromEnv env in
  let? sourceProbe := createSourceProbe (Some (c_VOD_FFPROBE_BIN c)) (c_VOD_SOURCE_PROBE_TIMEOUT_MS c) in
  let? loc := wire_loc c owner in
  let '(caller, transport, (cipher, store)) := loc in
  let? catalog := (if loc_configured c
                   then let? t := createLocHttpTransport (transport_options c) in Ok (Some t) else Ok None) in
  let? control := (if is_present caller && is_present store
                   then let? read := createPaidSessionControlSource (NInt (c_LIVEPEER_LIVE_CONTROL_WINDOW_MS c)) in Ok (Some read)
                   else Ok None) in
  Ok (mkServices storage sourceProbe caller transport cipher store catalog control
        (truthy (c_LIVEPEER_GATEWAY_EXTERNAL_RTMP_URL c) && c_RTMP_RELAY_ENABLED c && is_present store)).

(** ** main *)

Context {schema : Type} (run_sql : string -> schema -> result string schema)
  (others : nat -> @mstate schema -> @mstate schema) (readdir : list string) (readFile : string -> option string).

Definition migrate : M (@mworld schema) exn (list string) := fun w =>
  match runMigrations run_sql others readdir readFile w with
  | (Ok l, w') => (Ok l, w')
  | (Err message, w') => (Err (PlainError message), w')
  end.

Definition recovery_owner (pid : Z) (uuid : string) : string := "gateway:" +:+ string_of_Z pid +:+ ":" +:+ uuid.

Definition main (env : environment) (migrateOnly : bool) (pid : Z) (uuid : string) : M (@mworld schema) exn startup :=
  do! config <- mlift (loadConfig env);
  do! _ <- migrate;
  if migrateOnly then mret_ Migrated
  else do! services <- mlift (wire env config (recovery_owner pid uuid)); mret_ (Listening config services).

(** [main().catch]: the exit code of a process that does not serve. *)
Definition exit_code (outcome : result exn startup) : option Z :=
  match outcome with
  | Ok (Listening _ _) => None
  | Ok Migrated => Some 0
  | Err _ => Some 1
  end.
End start.

(** ** The options of the services and of the routes *)

Definition product_config (c : Config) (s : Services) : ProductConfig := mkProductConfig
  (c_LIVEPEER_GATEWAY_EXTERNAL_RTMP_URL c) (c_RTMP_RELAY_ENABLED c) (c_LIVEPEER_LIVE_OFFERING_DEFAULT c)
  (c_LIVEPEER_VOD_OFFERING_DEFAULT c) (c_LIVEPEER_LIVE_INITIAL_RUNWAY_UNITS c) (c_LIVEPEER_LIVE_MAX_TOTAL_UNITS c)
  (c_VOD_UPLOAD_URL_TTL_SEC c) (c_VOD_PLAYBACK_URL_TTL_SEC c)
  (is_present (sv_caller s) && is_present (sv_sessionStore s)) (is_present (sv_caller s)) (is_present (sv_storage s))
  (is_present (sv_cipher s)).
Definition auth_config (c : Config) : AuthConfig := mkAuthConfig
  (Some (c_API_KEY_HASH_PEPPER c)) (c_IP_HASH_PEPPER c) (c_SESSION_TTL_HOURS c) (c_VERIFICATION_TOKEN_TTL_HOURS c)
  (c_ADMIN_TOKEN c) (c_RESEND_API_KEY c).
Definition recovery_deps (c : Config) (owner : string) : PaidAbrRecoveryDeps :=
  mkAbrRecoveryDeps owner (c_VOD_RECOVERY_LEASE_MS c) (c_VOD_RECOVERY_RETRY_MS c).
Definition orchestrator_deps (c : Config) (owner : string) : PaidAbrOrchestratorDeps :=
  mkAbrDeps owner (c_VOD_RECOVERY_LEASE_MS c).
Definition reconciler_deps (c : Config) (owner : string) (read : ControlReadInput -> N (list json)) : PaidLiveReconcilerDeps :=
  mkReconcilerDeps (store_options c owner) (Some read) (c_LIVEPEER_LIVE_REFILL_THRESHOLD_UNITS c)
    (c_LIVEPEER_LIVE_MAX_TOTAL_UNITS c) (c_LIVEPEER_LIVE_MAX_REFILLS c) (c_LIVEPEER_LIVE_DISCONNECT_GRACE_MS c).

(** ** A configuration that loads starts the gateway *)

Section started.
Context `{Plat : Platform} `{Web : WebPlatform} `{Process : Ffprobe} `{Curve : Secp256k1}.

(** What loading the configuration does not check. *)
Definition plain_origin (url : string) : Prop :=
  exists u, web_URL url = Some u /\ wu_protocol u ∈ ["http:"; "https:"] /\ wu_username u = "" /\ wu_password u = "" /\
    wu_pathname u = "/" /\ wu_search u = "" /\ wu_hash u = "".
Definition on_curve (key : option string) : Prop := isValidSecretKey (bytes_of_hex (key ?? "")) = true.
Definition canonical_kek (kek : option string) : Prop :=
  truthy kek = true -> exists key, length key = KEY_BYTES /\ kek = Some (base64 key).

Lemma decodeWrappingKey_ok kek : is_ok (decodeWrappingKey from_base64 kek) = true <-> exists key, length key = KEY_BYTES /\ kek = base64 key.
Proof.
  unfold decodeWrappingKey. split.
  - intros H. destruct (negb _ || _) eqn:E; [done|]. bools. apply Nat.eqb_eq in H0. exists (from_base64 kek). by split.
  - intros (key & Hl & ->). rewrite from_base64_base64, Hl. by rewrite bool_decide_true.
Qed.

Lemma transport_ok o :
  is_ok (createLocHttpTransport o) = true <->
  plain_origin (ht_baseUrl o) /\ nonempty (ht_apiKey o) && nonempty (ht_clientId o) && safe_at_least 1 (ht_timeoutMs o) = true.
Proof.
  unfold createLocHttpTransport, plain_origin. destruct (web_URL (ht_baseUrl o)) as [u|]; [|split; [done|intros [(? & ? & _) _]; done]].
  split.
  - intros Hok. destruct (_ && _ || _ || _ || _ || _ || _) eqn:E1; [done|]. destruct (negb _ || _ || _) eqn:E2; [done|].
    split; [|by destruct (nonempty _), (nonempty _), (safe_at_least _ _)].
    exists u. do 5 (apply orb_false_iff in E1 as [E1 ?%negb_bool_decide_false]).
    apply andb_false_iff in E1. split_and!; try done. rewrite !elem_of_cons.
    destruct E1 as [E1%negb_bool_decide_false|E1%negb_bool_decide_false]; auto.
  - intros [(u' & [= <-] & Hp & -> & -> & -> & -> & ->) Hv]. apply andb_true_iff in Hv as [[H1 H2]%andb_true_iff H3].
    rewrite H1, H2, H3. cbn.
    rewrite !elem_of_cons, elem_of_nil in Hp. by destruct Hp as [->|[->|[]]].
Qed.

Lemma caller_ok key : is_ok (createCallerProofIdentity key) = true <-> PRIVATE_KEY key = true /\ isValidSecretKey (bytes_of_hex key) = true.
Proof. unfold createCallerProofIdentity. destruct (PRIVATE_KEY key), (isValidSecretKey _); cbn; naive_solver. Qed.

Lemma is_ok_bind {A B} (x : result exn A) (f : A -> result exn B) :
  is_ok (let? a := x in f a) = true <-> exists a, x = Ok a /\ is_ok (f a) = true.
Proof. destruct x as [a|]; cbn; naive_solver. Qed.
Lemma is_ok_iff {A} (x : result exn A) : is_ok x = true <-> exists a, x = Ok a.
Proof. destruct x; cbn; naive_solver. Qed.

Lemma wire_operations_ok c owner :
  nonempty (c_LIVEPEER_OPERATION_SECRETS_KEY_ID c) = true -> valid_options (store_options c owner) = true ->
  is_ok (wire_operations c owner) = true <-> canonical_kek (c_LIVEPEER_OPERATION_SECRETS_KEK c).
Proof.
  intros Hid Hv. unfold wire_operations, canonical_kek. destruct (truthy _) eqn:Ht; [|done].
  destruct (c_LIVEPEER_OPERATION_SECRETS_KEK c) as [kek|]; [|done]. unfold or_default. rewrite is_ok_bind. split.
  - intros (key & Hk & _) _. destruct (proj1 (decodeWrappingKey_ok kek)) as (key' & Hl & ->); [by rewrite Hk|]. eauto.
  - intros H. destruct (H eq_refl) as (key & Hl & [= ->]).
    assert (is_ok (decodeWrappingKey from_base64 (base64 key)) = true) as (k & Hk)%is_ok_iff by (apply decodeWrappingKey_ok; eauto).
    exists k. split; [done|]. rewrite Hid, Hv. unfold decodeWrappingKey in Hk. destruct (_ || _) eqn:E; [done|]. injection Hk as <-.
    apply orb_false_iff in E as [->%negb_false_iff _]. done.
Qed.

(** What the operator is left to get right. *)
Definition loc_usable (c : Config) : Prop :=
  truthy (c_LIVEPEER_LOC_URL c) = true ->
  plain_origin (c_LIVEPEER_LOC_URL c ?? "") /\ on_curve (c_LIVEPEER_CALLER_PRIVATE_KEY c) /\
  canonical_kek (c_LIVEPEER_OPERATION_SECRETS_KEK c).

(** The parts of a loaded configuration that the constructors look at. *)
Lemma loaded_checks env c owner :
  loadConfig env = Ok c -> 1 <= str_len owner <= 255 ->
  loc_configured c = truthy (c_LIVEPEER_LOC_URL c) /\ valid_options (store_options c owner) = true /\
  is_ok (createSourceProbe (Some (c_VOD_FFPROBE_BIN c)) (c_VOD_SOURCE_PROBE_TIMEOUT_MS c)) = true /\
  is_ok (createPaidSessionControlSource (NInt (c_LIVEPEER_LIVE_CONTROL_WINDOW_MS c))) = true /\
  nonempty (c_LIVEPEER_OPERATION_SECRETS_KEY_ID c) = true /\
  nonempty (c_LIVEPEER_LOC_CLIENT_ID c) = true /\ safe_at_least 1 (NInt (c_LIVEPEER_LOC_TIMEOUT_MS c)) = true /\
  (truthy (c_LIVEPEER_LOC_URL c) = true -> nonempty (c_LIVEPEER_LOC_API_KEY c ?? "") = true /\
     PRIVATE_KEY (c_LIVEPEER_CALLER_PRIVATE_KEY c ?? "undefined") = true /\
     c_LIVEPEER_CALLER_PRIVATE_KEY c ?? "" = c_LIVEPEER_CALLER_PRIVATE_KEY c ?? "undefined").
Proof.
  intros Hload Howner. destruct (loaded_configuration_starts_services env c Hload) as (_ & _ & _ & Hcontrol & Hprobe & Hstore & Hloc).
  unfold loadConfig in Hload. rewrite !guard_Ok in Hload. destruct Hload as (_ & _ & Hload).
  destruct (read_config env) as [c0|] eqn:Ec; [|done]. destruct (consistent c0) eqn:Hc; [|done].
  injection Hload as ->. apply read_config_checked in Ec. destruct Ec. unfold consistent in Hc.
  do 3 (apply andb_true_iff in Hc as [Hc _]). apply eqb_prop in Hc.
  split_and!; try done; [|by apply Hstore| |].
  - unfold loc_configured. rewrite <- Hc. apply andb_diag.
  - unfold safe_at_least. destruct checked_timeout as [-> ?]. by apply Z.leb_le.
  - intros Ht. destruct (Hloc Ht) as (url & key & caller & _ & Hk & -> & Hp & _). split_and!; [|done|done].
    rewrite Hk. cbn. by apply checked_key.
Qed.

Lemma wire_loc_ok env c owner :
  loadConfig env = Ok c -> 1 <= str_len owner <= 255 -> is_ok (wire_loc c owner) = true <-> loc_usable c.
Proof.
  intros Hload Howner. destruct (loaded_checks env c owner Hload Howner) as (Hcfg & Hv & _ & _ & Hid & Hcl & Ht & Hloc).
  unfold wire_loc, loc_usable. rewrite Hcfg. destruct (truthy (c_LIVEPEER_LOC_URL c)) eqn:Hu; [|done].
  destruct (Hloc eq_refl) as (Hkey & Hp & Hsame). unfold on_curve. rewrite Hsame.
  pose proof (transport_ok (transport_options c)) as Htr. cbn [ht_baseUrl ht_apiKey ht_clientId ht_timeoutMs transport_options] in Htr.
  rewrite Hkey, Hcl, Ht in Htr.
  rewrite <- (wire_operations_ok c owner Hid Hv). rewrite is_ok_bind. setoid_rewrite is_ok_bind. setoid_rewrite is_ok_bind. split.
  - intros (caller & Hca & t & Htt & ops & Hops & _) _. rewrite Hops. split_and!; [|by apply caller_ok; rewrite Hca|done].
    apply Htr. by rewrite Htt.
  - intros H. destruct (H eq_refl) as (Hor & Hon & (ops & Hops)%is_ok_iff).
    assert (is_ok (createCallerProofIdentity (c_LIVEPEER_CALLER_PRIVATE_KEY c ?? "undefined")) = true) as (caller & Hca)%is_ok_iff
      by (by apply caller_ok).
    assert (is_ok (createLocHttpTransport (transport_options c)) = true) as (t & Htt)%is_ok_iff by (by apply Htr).
    by eauto 10.
Qed.

Lemma wire_ok env c owner :
  loadConfig env = Ok c -> 1 <= str_len owner <= 255 -> is_ok (wire env c owner) = true <-> loc_usable c.
Proof.
  intros Hload Howner. rewrite <- (wire_loc_ok env c owner Hload Howner).
  destruct (loaded_checks env c owner Hload Howner) as (Hcfg & _ & (p & Hp)%is_ok_iff & (r & Hr)%is_ok_iff & _).
  unfold wire. rewrite Hp. cbn [result_bind]. destruct (wire_loc c owner) as [[[caller t] [cipher store]]|e] eqn:Hl; [|done].
  cbn [result_bind]. assert (is_ok (if loc_configured c then let? t' := createLocHttpTransport (transport_options c) in Ok (Some t')
    else Ok None) = true) as (cat & ->)%is_ok_iff.
  { unfold wire_loc in Hl. destruct (loc_configured c); [|done]. destruct (createCallerProofIdentity _); [|done]. cbn in Hl.
    by destruct (createLocHttpTransport _). }
  rewrite Hr. cbn. by destruct (is_present caller && is_present store).
Qed.

(** What is there is what the configuration asks for. *)
Definition as_configured (c : Config) (s : Services) : Prop :=
  let loc := truthy (c_LIVEPEER_LOC_URL c) in
  let operations := loc && truthy (c_LIVEPEER_OPERATION_SECRETS_KEK c) in
  is_present (sv_caller s) = loc /\ is_present (sv_locTransport s) = loc /\ is_present (sv_catalogTransport s) = loc /\
  is_present (sv_cipher s) = operations /\ is_present (sv_sessionStore s) = operations /\
  is_present (sv_controlSource s) = operations /\
  sv_rtmpListener s = truthy (c_LIVEPEER_GATEWAY_EXTERNAL_RTMP_URL c) && c_RTMP_RELAY_ENABLED c && operations.

Lemma wire_operations_present c owner cipher store :
  wire_operations c owner = Ok (cipher, store) ->
  is_present cipher = truthy (c_LIVEPEER_OPERATION_SECRETS_KEK c) /\ is_present store = truthy (c_LIVEPEER_OPERATION_SECRETS_KEK c).
Proof.
  unfold wire_operations. destruct (truthy _); [|by intros [= <- <-]].
  destruct (decodeWrappingKey _ _); [|done]. cbn [result_bind]. rewrite !guard_Ok. by intros (_ & _ & _ & [= <- <-]).
Qed.
Lemma wire_as_configured env c owner s :
  loc_configured c = truthy (c_LIVEPEER_LOC_URL c) -> wire env c owner = Ok s -> as_configured c s.
Proof.
  intros Hcfg. unfold wire. destruct (createSourceProbe _ _); [|done]. cbn [result_bind].
  unfold wire_loc, as_configured. rewrite Hcfg. destruct (truthy (c_LIVEPEER_LOC_URL c)); cbn [andb].
  - destruct (createCallerProofIdentity _); [|done]. cbn [result_bind]. destruct (createLocHttpTransport _); [|done].
    cbn [result_bind]. destruct (wire_operations c owner) as [[cipher store]|] eqn:Eo; [|done]. cbn [result_bind].
    destruct (wire_operations_present _ _ _ _ Eo) as [Hc Hs]. cbn [is_present andb].
    destruct store as [o|]; cbn [is_present andb] in *.
    + destruct (createPaidSessionControlSource _); [|done]. cbn [result_bind]. intros [= <-]. cbn. rewrite <- Hs in *. by rewrite Hc.
    + intros [= <-]. cbn. rewrite <- Hs in *. by rewrite Hc.
  - cbn. intros [= <-]. cbn. by rewrite !andb_false_r.
Qed.

Context {schema : Type} (run_sql : string -> schema -> result string schema)
  (others : nat -> @mstate schema -> @mstate schema) (readdir : list string) (readFile : string -> option string).

Lemma main_config env migrateOnly pid uuid w c s :
  fst (main run_sql others readdir readFile env migrateOnly pid uuid w) = Ok (Listening c s) -> loadConfig env = Ok c.
Proof.
  unfold main, mbind_, mlift. destruct (loadConfig env) as [c'|]; [|done]. destruct (migrate _ _ _ _ w) as [[l|e] w1]; [|done].
  destruct migrateOnly; [done|]. destruct (wire _ _ _); [|done]. by intros [= <- _].
Qed.

(** C23: a loaded configuration starts the gateway.  When the configuration loads and the
    migrations succeed, the process serves exactly if no LOC address is set, or it is a
    plain HTTP origin, the caller's key is on the curve, and a wrapping key, if there is
    one, is the canonical text of 32 bytes: no other check of a constructor can fail.
    The process exits with 1 otherwise.  What runs then is what was configured: the LOC
    clients with the LOC address, the operation storage and the control channel with a
    wrapping key too, and the RTMP listener only if there is operation storage. *)
Theorem loaded_configuration_starts_the_gateway env c pid uuid w applied w' :
  loadConfig env = Ok c -> str_len (recovery_owner pid uuid) <= 255 ->
  migrate run_sql others readdir readFile w = (Ok applied, w') ->
  let outcome := fst (main run_sql others readdir readFile env false pid uuid w) in
  (exit_code outcome = None <-> loc_usable c) /\
  (exit_code outcome <> None -> exit_code outcome = Some 1) /\
  (forall c' s, outcome = Ok (Listening c' s) -> c' = c /\ as_configured c s).
Proof.
  intros Hload Howner Hm outcome.
  assert (1 <= str_len (recovery_owner pid uuid)) as Hlo by
    (unfold recovery_owner; generalize (string_of_Z pid +:+ ":" +:+ uuid); intros x; unfold str_len;
     change (String.length ("gateway:" +:+ x)) with (8 + String.length x)%nat; lia).
  assert (outcome = let? s := wire env c (recovery_owner pid uuid) in Ok (Listening c s)) as ->.
  { unfold outcome, main, mbind_, mlift, mret_. rewrite Hload, Hm. by destruct (wire _ _ _). }
  pose proof (wire_ok env c (recovery_owner pid uuid) Hload (conj Hlo Howner)) as Hok.
  destruct (loaded_checks env c _ Hload (conj Hlo Howner)) as (Hcfg & _).
  destruct (wire env c (recovery_owner pid uuid)) as [s|e] eqn:Ew; cbn in *.
  - split_and!; [naive_solver|done|]. intros c' s' [= <- <-]. split; [done|]. by eapply wire_as_configured.
  - split_and!; [naive_solver|done|done].
Qed.
End started.

(** ** Witness *)

Definition startup_env_vars : environment := ("LIVEPEER_OPERATION_SECRETS_KEK", base64 (repeat Byte.x00 32)) :: sample_env_vars.
#[local] Definition startup_main : result exn startup :=
  fst (main (Plat := control_platform) (Web := config_web) (Process := sample_process) (Curve := sample_curve)
         sample_sql quick_instance sample_files sample_contents startup_env_vars false 7 "uuid" empty_mworld).

Lemma startup_listens :
  match startup_main with Ok (Listening c s) => is_present (sv_sessionStore s) && negb (sv_rtmpListener s) | _ => false end = true.
Proof. vm_compute. reflexivity. Qed.
Lemma startup_migrates : is_ok (fst (migrate sample_sql quick_instance sample_files sample_contents empty_mworld)) = true.
Proof. vm_compute. reflexivity. Qed.

Lemma loaded_configuration_starts_the_gateway_witness :
  exists c s, startup_main = Ok (Listening c s) /\ as_configured c s /\ is_present (sv_sessionStore s) = true /\
    sv_rtmpListener s = false /\ loc_usable (Web := config_web) (Curve := sample_curve) c.
Proof.
  pose proof startup_listens as Hl. destruct startup_main as [[|c s]|] eqn:E; [discriminate Hl| |discriminate Hl].
  apply andb_prop in Hl as [Hst Hr]. exists c, s. split; [reflexivity|].
  pose proof (main_config _ _ _ _ _ _ _ _ _ _ _ E) as Hc. pose proof startup_migrates as Hm.
  destruct (migrate sample_sql quick_instance sample_files sample_contents empty_mworld) as [[applied|] w'] eqn:Em; [|discriminate Hm].
  destruct (loaded_configuration_starts_the_gateway (Plat := control_platform) (Web := config_web) (Process := sample_process)
    (Curve := sample_curve) sample_sql quick_instance sample_files sample_contents startup_env_vars c 7 "uuid" empty_mworld
    applied w' Hc ltac:(vm_compute; discriminate) Em) as (H1 & _ & H3).
  destruct (H3 c s E) as [_ Hs]. split; [exact Hs|]. split; [exact Hst|]. split; [by destruct (sv_rtmpListener s)|].
  apply H1. change (exit_code startup_main = None). by rewrite E.
Defined.
