(* ===== verification/Gateway.v ===== *)
(** * The running gateway (index.ts, server.ts, runtime/rtmp/index.ts)

    The services are one process: HTTP requests, the events of the RTMP listener, the two
    recovery timers, the runs that submissions started, and the signal to stop.  [react] is
    what one event does.  The calls of other events between two awaits of a handler are
    part of what [others] and [acc_others] stand for. *)

From S2P Require Import Prelude Js Types Wire Http Interfaces RouteProtocol LocClient SessionClient Database OperationRepo.
From S2P Require Import OperationLease MediaRepos Directory SessionStore LiveReconciler LiveReconcilerSpec LiveOpen LiveOpenSpec.
From S2P Require Import VodUsage AbrExchange JobClient AbrOrchestrator AbrRecovery AbrSpec RouteSelector HttpTransport.
From S2P Require Import Js Accounts AccountsSpec AuthRoutes AuthRoutesSpec Preserve Dispatcher ProductRoutes ProductSpec Catalog.
From S2P Require Import Config Startup.
Open Scope Z_scope.

Record gateway := mkGateway {
  gw_accounts : aworld;
  gw_dispatcher : dispatcher;
  gw_runs : list Submission;
  gw_recovering : bool;
  gw_vodPasses : nat;
  gw_vodTimer : bool;
  gw_reconcilingLive : bool;
  gw_livePasses : nat;
  gw_liveTimer : bool;
  gw_stopping : bool;
  gw_exited : bool
}.
#[export] Instance gateway_eta : RecEta gateway := fun g =>
  mkGateway (gw_accounts g) (gw_dispatcher g) (gw_runs g) (gw_recovering g) (gw_vodPasses g) (gw_vodTimer g)
    (gw_reconcilingLive g) (gw_livePasses g) (gw_liveTimer g) (gw_stopping g) (gw_exited g).

Definition gw_world (g : gateway) : world := dp_world (gw_dispatcher g).
Definition with_world (w : world) (g : gateway) : gateway := g <| gw_dispatcher := (gw_dispatcher g) <| dp_world := w |> |>.
Definition gw_db (g : gateway) : db := w_db (gw_world g).
Definition gw_adb (g : gateway) : adb := aw_db (gw_accounts g).

(** ** Requests *)

Inductive request : Type :=
| Health
| Playback (params : json)
| Hls (suffix : string)
| Product (authorization : option string) (q : product_request)
| Account (q : account_request)
| StatsOf (authorization : option string)
| Operations (authorization : option string) (parsed : option (option PaidOperationKind * option string * Z))
| UserCatalog (authorization : option string)
| AdminCatalog (authorization : option string).

Definition of_reply (r : Reply) : Response := mkResponse (ry_code r) [] (ry_body r).
Definition unauthorized : Response := of_reply (error_reply 401 "Unauthorized.").
(** [app.setErrorHandler] *)
Definition internal_error : Response := reply 500 (error_body "Internal server error.").

Definition G (A : Type) : Type := M gateway exn A.
Definition accounts_ {A} (m : A_ A) : G A := fun g => let '(r, a) := m (gw_accounts g) in (r, g <| gw_accounts := a |>).
Definition media_ {A} (m : W A) : G A := fun g => let '(r, w) := m (gw_world g) in (r, with_world w g).
Definition start_run (o : option Submission) : G unit := mmodify (fun g => g <| gw_runs := gw_runs g ++ option_list o |>).

Section gateway.
Context `{Plat : Platform} `{Sessions : PaidSessionClient} `{Jobs : PaidJobClient} `{Env : Environment}
  `{Store : StorageProvider} `{Prober : SourceProbe} `{Accs : !AccountsEnv} `{Coll : Collation} `{Cal : Calendar}
  `{Transport : LocTransport}.
Context (c : Config) (s : Services) (owner : string).
Context (select_worker : Capability -> string -> string -> N (option SelectedWorkerRoute)) (issue : json -> string)
  (fetch_url : string -> N Response) (control_read : ControlReadInput -> N (list json)).

#[local] Abbreviation product := (product_config c s).
#[local] Abbreviation auth := (auth_config c).
#[local] Abbreviation options := (store_options c owner).

(** The [preHandler] of the product routes: the id of the key. *)
Definition api_key_auth (authorization : option string) : A_ (option string) :=
  match extractBearer authorization with
  | None => mret_ None
  | Some token =>
      if negb (startsWith "tc_" token) then mret_ None
      else
        do! record <- select_ (lookupActiveByCandidates token (cf_apiKeyPepper auth));
        match record with
        | None => mret_ None
        | Some record =>
            do! profile <- select_ (profileByApiKeyId (kr_id record));
            mret_ (match profile with
                   | Some p => if bool_decide (pf_accountStatus p = approved) then Some (kr_id record) else None
                   | None => None
                   end)
        end
  end.

(** A submission hands its run back. *)
Definition serve_product (K : string) (q : product_request) : W (Response * option Submission) :=
  match q with
  | PostSubmit body => post_submit product select_worker issue K body
  | _ => do! r <- ProductSpec.serve product options select_worker issue K q; mret_ (r, None)
  end.

Definition catalog_ : G Response :=
  media_ (get_catalog (c_LIVEPEER_VOD_OFFERING_DEFAULT c) (c_LIVEPEER_LIVE_OFFERING_DEFAULT c)
            (is_present (sv_catalogTransport s))).

(** [createServer]: the routes with their checks. *)
Definition route (q : request) : G Response :=
  match q with
  | Health => mret_ (reply 200 [("status", JStr "ok")])
  | Playback params => media_ (get_playback product params)
  | Hls suffix => media_ (get_hls fetch_url suffix)
  | Product authorization q =>
      do! key <- accounts_ (api_key_auth authorization);
      match key with
      | None => mret_ unauthorized
      | Some K =>
          do! out <- media_ (serve_product K q);
          run! start_run (snd out);
          mret_ (fst out)
      end
  | Account q => do! r <- accounts_ (AuthRoutesSpec.serve auth q); mret_ (of_reply r)
  | StatsOf authorization => do! r <- accounts_ (get_stats auth authorization); mret_ (of_reply r)
  | Operations authorization parsed =>
      if adminAuth (cf_adminToken auth) authorization then media_ (get_operations product parsed) else mret_ unauthorized
  | UserCatalog authorization =>
      do! session_ <- accounts_ (statement (fun _ => userAuth (cf_sessionTtlHours auth) authorization));
      if is_present session_ then catalog_ else mret_ unauthorized
  | AdminCatalog authorization =>
      if adminAuth (cf_adminToken auth) authorization then catalog_ else mret_ unauthorized
  end.
Definition respond (q : request) : G Response := mcatch (route q) (fun _ => mret_ internal_error).

(** ** Events *)

Inductive gateway_event : Type :=
| Request (q : request)
| Rtmp (e : dispatch_event)
| VodTick
| VodPassEnds
| LiveTick
| LivePassEnds
| RunEnds (n : nat)
| StopSignal
| Exit.

(** [recoverVod] up to its [await], and from there on: the flag is cleared whatever the
    pass ends with. *)
Definition recoverVod (g : gateway) : gateway :=
  if gw_recovering g then g else g <| gw_recovering := true |> <| gw_vodPasses := S (gw_vodPasses g) |>.
Definition vod_pass_ends (g : gateway) : gateway :=
  match gw_vodPasses g with
  | O => g
  | S n => (with_world (snd (recoverPaidAbrOperations (recovery_deps c owner) 10 (gw_world g))) g)
             <| gw_recovering := false |> <| gw_vodPasses := n |>
  end.
Definition reconcileLive (g : gateway) : gateway :=
  if gw_reconcilingLive g then g else g <| gw_reconcilingLive := true |> <| gw_livePasses := S (gw_livePasses g) |>.
Definition live_pass_ends (g : gateway) : gateway :=
  match gw_livePasses g with
  | O => g
  | S n => (with_world (snd (reconcilePaidLiveSessions (reconciler_deps c owner control_read) 25 (gw_world g))) g)
             <| gw_reconcilingLive := false |> <| gw_livePasses := n |>
  end.

(** A run in the background; its error is logged. *)
Definition run_ends (n : nat) (g : gateway) : gateway :=
  match gw_runs g !! n with
  | None => g
  | Some r => (with_world (snd (runPaidAbrAsset (orchestrator_deps c owner) (sm_asset r) (sm_route r) (gw_world g))) g)
                <| gw_runs := delete n (gw_runs g) |>
  end.

(** [shutdown]: the timers and the relays are stopped before the first wait. *)
Definition shutdown (g : gateway) : gateway :=
  g <| gw_vodTimer := false |> <| gw_liveTimer := false |> <| gw_stopping := true |>
    <| gw_dispatcher := (if sv_rtmpListener s then stop (gw_dispatcher g) else gw_dispatcher g) |>.

Definition react (e : gateway_event) (g : gateway) : gateway :=
  if gw_exited g then g
  else match e with
       | Request q => snd (respond q g)
       | Rtmp e => if sv_rtmpListener s then g <| gw_dispatcher := handle options "live" e (gw_dispatcher g) |> else g
       | VodTick => if gw_vodTimer g then recoverVod g else g
       | VodPassEnds => vod_pass_ends g
       | LiveTick => if gw_liveTimer g then reconcileLive g else g
       | LivePassEnds => live_pass_ends g
       | RunEnds n => run_ends n g
       | StopSignal => shutdown g
       | Exit => if gw_stopping g then g <| gw_exited := true |> else g
       end.
Definition run_gateway (l : list gateway_event) (g : gateway) : gateway := foldl (fun g e => react e g) g l.

(** The process when it starts to listen: the first passes were started before the timers. *)
Definition started (a : aworld) (w : world) : gateway :=
  let vod := is_present (sv_caller s) && is_present (sv_cipher s) in
  let live := is_present (sv_caller s) && is_present (sv_sessionStore s) in
  mkGateway a (mkDispatcher w no_relays []) [] vod (if vod then 1 else 0) vod live (if live then 1 else 0) live false false.
End gateway.
