(* ===== verification/GatewaySpec.v ===== *)
(** * The gateway as a whole

    Whatever happens to the process, in whatever order, and whatever other instances do:
    the operation tables change by repository transactions only, the account tables by
    account transactions only, and no recovery pass overlaps another of its kind.  And a
    request changes a customer's row only with a key of that customer. *)

From S2P Require Import Prelude Js Types Wire Http Interfaces RouteProtocol LocClient SessionClient Database OperationRepo.
From S2P Require Import OperationLease MediaRepos Directory SessionStore LiveReconciler LiveReconcilerSpec LiveOpen LiveOpenSpec.
From S2P Require Import VodUsage AbrExchange JobClient AbrOrchestrator AbrRecovery AbrSpec RouteSelector HttpTransport.
From S2P Require Import Js Accounts AccountsSpec AuthRoutes AuthRoutesSpec Preserve Dispatcher ProductRoutes ProductSpec Catalog.
From S2P Require Import Config Startup Gateway.
From S2P Require Import Samples SampleNet SampleWorld AbrSpec CallerProof.
Open Scope Z_scope.

(** ** The media statements of the product routes *)

Lemma assets_insert_media a : media_only (Assets.insert a).
Proof. intros d o d'. unfold Assets.insert. repeat case_match; try done; by intros [= _ <-]. Qed.
Lemma assets_softDelete_media id at_ : media_only (Assets.softDelete id at_).
Proof. intros d o d' [= _ <-]. done. Qed.
Lemma uploads_insert_media u : media_only (Uploads.insert u).
Proof. intros d o d'. unfold Uploads.insert. repeat case_match; try done; by intros [= _ <-]. Qed.
Lemma uploads_updateStatus_media id st k at_ : media_only (Uploads.updateStatus id st k at_).
Proof. intros d o d'. unfold Uploads.updateStatus. repeat case_match; try done; by intros [= _ <-]. Qed.
#[export] Hint Resolve assets_insert_media assets_softDelete_media uploads_insert_media uploads_updateStatus_media : gateway.

(** Breaks a computation along the monad; the media statements are those of the hints. *)
Ltac acting_media := acting; try (apply acts_query_media; intros; auto with gateway).

Section acts.
Context `{Plat : Platform} `{Sessions : PaidSessionClient} `{Env : Environment} `{Store : StorageProvider}.
Context (config : ProductConfig) (options : PaidSessionStoreOptions).
Context (select_worker : Capability -> string -> string -> N (option SelectedWorkerRoute)) (issue : json -> string)
  (fetch_url : string -> N Response).

Lemma post_stream_acts K requestId body : acts (post_stream config options select_worker issue K requestId body).
Proof.
  assert (forall input, acts (openPaidLiveStream (open_deps config options) input)) as Hopen by (intros; apply openPaidLiveStream_acts).
  unfold post_stream, open_and_answer, store_byLiveStreamId. acting.
Qed.
Lemma post_submit_acts K body : acts (post_submit config select_worker issue K body).
Proof. unfold post_submit. acting_media. Qed.
Lemma product_acts K q : acts (ProductSpec.serve config options select_worker issue K q).
Proof.
  destruct q; cbn [ProductSpec.serve]; [apply post_stream_acts|..].
  - unfold get_streams, stream_item, operation_of_stream, store_byLiveStreamId. acting.
  - unfold get_stream, own_stream, operation_of_stream, store_byLiveStreamId. acting.
  - unfold post_end, own_stream. acting.
  - apply acts_bind; [apply post_submit_acts|]. acting.
  - unfold get_asset, fetchAssetBundle. acting.
  - unfold get_assets. acting.
  - unfold delete_asset. acting_media.
  - unfold post_upload. acting_media.
  - unfold post_complete. acting_media.
Qed.
Lemma get_playback_acts params : acts (get_playback config params).
Proof. unfold get_playback. acting. Qed.
Lemma get_hls_acts suffix : acts (get_hls fetch_url suffix).
Proof. unfold get_hls. acting. Qed.
Lemma get_operations_acts parsed : acts (get_operations config parsed).
Proof.
  unfold get_operations. acting. apply acts_query. intros n d a d' Hq. apply result_bind_Ok in Hq as (l & _ & [= _ <-]). done.
Qed.
End acts.

(** ** The RTMP events *)

Section rtmp.
Context `{Env : Environment} {Plat : Platform} (options : PaidSessionStoreOptions) (app : string).

Lemma persistRelayState_acts id st status gen at_ : acts (persistRelayState options id st status gen at_).
Proof. unfold persistRelayState. acting. Qed.
#[local] Hint Resolve persistRelayState_acts : gateway.
Lemma scheduleReconcile_acts id st : acts (scheduleAuthoritativeReconcile options id st).
Proof. unfold scheduleAuthoritativeReconcile. acting_media. Qed.
Lemma decideDispatch_acts path : acts (decideDispatch path app (store_lookups options)).
Proof. unfold decideDispatch, store_lookups. cbn [lk_byStreamKeyHash lk_claimByLiveStreamId lk_readSecrets lk_release]. acting. Qed.
#[local] Hint Resolve decideDispatch_acts : gateway.
Lemma publish_step_acts session_ path j r : acts (publish_step options app session_ path j r).
Proof. destruct j; cbn [publish_step]; acting_media. Qed.

Lemma run_task_acts t w r : rtc repo_step (w_db w) (w_db (snd (fst (run_task options app t w r)))).
Proof.
  destruct t as [session_ path j|id st]; cbn [run_task].
  - destruct (publish_step options app session_ path j r w) as [x w'] eqn:E.
    pose proof (publish_step_acts session_ path j r w _ _ E) as H. by destruct x as [[[j'|] r']|e].
  - cbn [fst snd]. destruct (scheduleAuthoritativeReconcile options id st w) as [x w'] eqn:E.
    exact (scheduleReconcile_acts id st w _ _ E).
Qed.
Lemma handle_acts e d : rtc repo_step (w_db (dp_world d)) (w_db (dp_world (handle options app e d))).
Proof.
  destruct e as [session_ path|session_|i|i|n]; cbn [handle].
  - unfold postPublish. case_match; done.
  - unfold donePublish. repeat case_match; done.
  - unfold child_error. repeat case_match; done.
  - unfold child_exit. repeat case_match; done.
  - unfold await_task. destruct (dp_tasks d !! n) as [t|]; [|done].
    pose proof (run_task_acts t (dp_world d) (dp_relays d)) as H. by destruct (run_task _ _ _ _ _) as [[next w] r].
Qed.
End rtmp.

(** ** All events *)

Section gateway.
Context `{Plat : Platform} `{Sessions : PaidSessionClient} `{Jobs : PaidJobClient} `{Env : Environment}
  `{Store : StorageProvider} `{Prober : SourceProbe} `{Accs : !AccountsEnv} `{Coll : Collation} `{Cal : Calendar}
  `{Transport : LocTransport}.
Context (c : Config) (s : Services) (owner : string).
Context (select_worker : Capability -> string -> string -> N (option SelectedWorkerRoute)) (issue : json -> string)
  (fetch_url : string -> N Response) (control_read : ControlReadInput -> N (list json)).

(** Both sets of tables change by their own transactions. *)
Definition both_step (g g' : gateway) : Prop :=
  rtc repo_step (gw_db g) (gw_db g') /\ rtc account_step (gw_adb g) (gw_adb g').
Lemma both_refl g : both_step g g.
Proof. by split. Qed.
Lemma both_trans g1 g2 g3 : both_step g1 g2 -> both_step g2 g3 -> both_step g1 g3.
Proof. intros [H1 H2] [H3 H4]. split; by etrans. Qed.

(** The flags and counts that only the timers change. *)
Definition same_passes (g g' : gateway) : Prop :=
  gw_recovering g' = gw_recovering g /\ gw_vodPasses g' = gw_vodPasses g /\
  gw_reconcilingLive g' = gw_reconcilingLive g /\ gw_livePasses g' = gw_livePasses g /\
  gw_stopping g' = gw_stopping g /\ gw_vodTimer g' = gw_vodTimer g /\ gw_liveTimer g' = gw_liveTimer g.

Lemma same_passes_trans g1 g2 g3 : same_passes g1 g2 -> same_passes g2 g3 -> same_passes g1 g3.
Proof. unfold same_passes. intuition congruence. Qed.

(** A computation of a request: it steps both tables and leaves the passes alone. *)
Definition served {A} (m : G A) : Prop := forall g, both_step g (snd (m g)) /\ same_passes g (snd (m g)).

Lemma served_ret {A} (a : A) : served (mret_ a).
Proof. intros g. split; [apply both_refl|done]. Qed.
Lemma served_bind {A B} (m : G A) (k : A -> G B) : served m -> (forall a, served (k a)) -> served (mbind_ m k).
Proof.
  intros Hm Hk g. unfold mbind_. destruct (Hm g) as [H1 H2]. destruct (m g) as [[a|e] g1]; [|done].
  destruct (Hk a g1) as [H3 H4]. split; [by eapply both_trans|]. by eapply same_passes_trans.
Qed.
Lemma served_catch {A} (m : G A) h : served m -> (forall e, served (h e)) -> served (mcatch m h).
Proof.
  intros Hm Hk g. unfold mcatch. destruct (Hm g) as [H1 H2]. destruct (m g) as [[a|e] g1]; [done|].
  destruct (Hk e g1) as [H3 H4]. split; [by eapply both_trans|]. by eapply same_passes_trans.
Qed.
Lemma served_accounts {A} (m : A_ A) : keeps m -> served (accounts_ m).
Proof.
  intros Hm g. unfold accounts_. specialize (Hm (gw_accounts g)). destruct (m (gw_accounts g)) as [r a]. split; [|done].
  by split.
Qed.
Lemma served_media {A} (m : W A) : acts m -> served (media_ m).
Proof.
  intros Hm g. unfold media_. destruct (m (gw_world g)) as [r w] eqn:E. apply Hm in E. split; [|done]. by split.
Qed.
Lemma served_start o : served (start_run o).
Proof. intros g. split; [|done]. by split. Qed.

Lemma keeps_api_key_auth a : keeps (api_key_auth c a).
Proof.
  unfold api_key_auth. destruct (extractBearer a) as [token|]; [|apply keeps_ret]. case_match; [apply keeps_ret|].
  apply keeps_bind; [apply keeps_select|]. intros [record|]; [|apply keeps_ret].
  apply keeps_bind; [apply keeps_select|]. intros. apply keeps_ret.
Qed.
Lemma keeps_get_stats a : keeps (get_stats (auth_config c) a).
Proof.
  unfold get_stats. apply keeps_with_admin, keeps_bind; [|intros; apply keeps_ret]. unfold stats.
  do 5 (apply keeps_bind; [apply keeps_select|intros ?]). apply keeps_ret.
Qed.
Lemma served_catalog : served (catalog_ c s).
Proof. apply served_media. unfold get_catalog. acting. Qed.

Lemma respond_served q : served (respond c s owner select_worker issue fetch_url q).
Proof.
  apply served_catch; [|intros; apply served_ret]. destruct q; cbn [route].
  - apply served_ret.
  - apply served_media, get_playback_acts.
  - apply served_media, get_hls_acts.
  - apply served_bind; [apply served_accounts, keeps_api_key_auth|]. intros [K|]; [|apply served_ret].
    apply served_bind.
    { apply served_media. unfold serve_product. destruct q; try (apply acts_bind; [apply product_acts|acting]). apply post_submit_acts. }
    intros out. apply served_bind; [apply served_start|intros; apply served_ret].
  - apply served_bind; [apply served_accounts, keeps_serve|intros; apply served_ret].
  - apply served_bind; [apply served_accounts, keeps_get_stats|intros; apply served_ret].
  - case_match; [apply served_media, get_operations_acts|apply served_ret].
  - apply served_bind; [apply served_accounts, keeps_statement; intros n d x d' H; by eapply userAuth_step|].
    intros x. case_match; [apply served_catalog|apply served_ret].
  - case_match; [apply served_catalog|apply served_ret].
Qed.

(** At most one pass of a kind, and the flag is up while there is one. *)
Record one_pass (g : gateway) : Prop := {
  op_vod : gw_vodPasses g = if gw_recovering g then 1%nat else 0%nat;
  op_live : gw_livePasses g = if gw_reconcilingLive g then 1%nat else 0%nat
}.

#[local] Abbreviation react := (react c s owner select_worker issue fetch_url control_read).
#[local] Abbreviation run_gateway := (run_gateway c s owner select_worker issue fetch_url control_read).

(** Replacing the world by what a computation left of it. *)
Lemma with_world_both {A} (m : W A) g : acts m -> both_step g (with_world (snd (m (gw_world g))) g).
Proof. intros Hm. split; [|done]. destruct (m (gw_world g)) as [r w] eqn:E. exact (Hm _ _ _ E). Qed.

Lemma react_both e g : both_step g (react e g).
Proof.
  unfold Gateway.react. destruct (gw_exited g); [apply both_refl|]. destruct e.
  - apply respond_served.
  - case_match; [|apply both_refl]. split; [apply handle_acts|done].
  - case_match; [|apply both_refl]. unfold recoverVod. by case_match.
  - unfold vod_pass_ends. case_match; [apply both_refl|]. apply (with_world_both _ g), recoverPaidAbr_acts.
  - case_match; [|apply both_refl]. unfold reconcileLive. by case_match.
  - unfold live_pass_ends. case_match; [apply both_refl|]. apply (with_world_both _ g), reconcile_acts.
  - unfold run_ends. case_match; [|apply both_refl]. apply (with_world_both _ g), runPaidAbrAsset_acts.
  - unfold shutdown. by destruct (sv_rtmpListener s).
  - by case_match.
Qed.
Lemma run_both l g : both_step g (run_gateway l g).
Proof.
  revert g. induction l as [|e l IH]; intros g; [apply both_refl|]. cbn. eapply both_trans; [apply react_both|apply IH].
Qed.

Lemma react_one_pass e g : one_pass g -> one_pass (react e g).
Proof.
  intros [Hv Hl]. unfold Gateway.react. destruct (gw_exited g); [by split|]. destruct e; try by split.
  - destruct (respond_served q g) as [_ (H1 & H2 & H3 & H4 & _)]. split; [by rewrite H1, H2|by rewrite H3, H4].
  - destruct (sv_rtmpListener s); by split.
  - destruct (gw_vodTimer g); [|by split]. unfold recoverVod. destruct (gw_recovering g) eqn:E; [split; [by rewrite E|done]|].
    split; [|done]. cbn. by rewrite Hv.
  - unfold vod_pass_ends. destruct (gw_vodPasses g) as [|n] eqn:E; [split; [by rewrite E|done]|].
    split; [|done]. cbn. destruct (gw_recovering g); congruence.
  - destruct (gw_liveTimer g); [|by split]. unfold reconcileLive. destruct (gw_reconcilingLive g) eqn:E; [split; [done|by rewrite E]|].
    split; [done|]. cbn. by rewrite Hl.
  - unfold live_pass_ends. destruct (gw_livePasses g) as [|n] eqn:E; [split; [done|by rewrite E]|].
    split; [done|]. cbn. destruct (gw_reconcilingLive g); congruence.
  - unfold run_ends. destruct (gw_runs g !! n); by split.
  - destruct (gw_stopping g); by split.
Qed.
Lemma run_one_pass l g : one_pass g -> one_pass (run_gateway l g).
Proof. revert g. induction l as [|e l IH]; intros g Hg; [done|]. by apply IH, react_one_pass. Qed.
Lemma started_one_pass a w : one_pass (started s a w).
Proof. by split. Qed.

(** No pass starts once the process was told to stop. *)
Definition winding_down (g : gateway) : Prop := gw_stopping g = true -> gw_vodTimer g = false /\ gw_liveTimer g = false.
Lemma react_winds_down e g :
  winding_down g -> winding_down (react e g) /\
  (gw_stopping g = true -> gw_stopping (react e g) = true /\
     (gw_vodPasses (react e g) <= gw_vodPasses g)%nat /\ (gw_livePasses (react e g) <= gw_livePasses g)%nat).
Proof.
  unfold winding_down, Gateway.react. intros Hg. destruct (gw_exited g); [by split_and!|]. destruct e.
  - destruct (respond_served q g) as [_ (_ & H2 & _ & H4 & H5 & H6 & H7)]. rewrite H2, H4, H5, H6, H7. by split_and!.
  - case_match; by split_and!.
  - destruct (gw_vodTimer g) eqn:E; [|rewrite E; by split_and!]. unfold recoverVod. case_match; cbn; rewrite ?E;
      (split; [done|]; intros Hs; by destruct (Hg Hs)).
  - unfold vod_pass_ends. destruct (gw_vodPasses g) as [|n] eqn:E; cbn; rewrite ?E; (split; [exact Hg|]; intros Hs; split_and!; [exact Hs|lia|lia]).
  - destruct (gw_liveTimer g) eqn:E; [|rewrite E; by split_and!]. unfold reconcileLive. case_match; cbn; rewrite ?E;
      (split; [done|]; intros Hs; by destruct (Hg Hs)).
  - unfold live_pass_ends. destruct (gw_livePasses g) as [|n] eqn:E; cbn; rewrite ?E; (split; [exact Hg|]; intros Hs; split_and!; [exact Hs|lia|lia]).
  - unfold run_ends. case_match; by split_and!.
  - unfold shutdown. by destruct (sv_rtmpListener s).
  - destruct (gw_stopping g) eqn:E; cbn; rewrite ?E; by split_and!.
Qed.
Lemma run_winds_down l g :
  winding_down g -> gw_stopping g = true ->
  (gw_vodPasses (run_gateway l g) <= gw_vodPasses g)%nat /\ (gw_livePasses (run_gateway l g) <= gw_livePasses g)%nat.
Proof.
  revert g. induction l as [|e l IH]; intros g Hw Hs; [by split|]. destruct (react_winds_down e g Hw) as [Hw' H].
  destruct (H Hs) as (Hs' & H1 & H2). destruct (IH _ Hw' Hs') as [H3 H4]. unfold run_gateway, Gateway.run_gateway in *. cbn. lia.
Qed.
Lemma run_winding_down l g : winding_down g -> winding_down (run_gateway l g).
Proof. revert g. induction l as [|e l IH]; intros g Hg; [done|]. apply IH. by apply react_winds_down. Qed.

(** C11: the whole process keeps the books.  From the start on, through any sequence of
    requests, RTMP events, timer ticks, passes, background runs and signals, in any order
    and with any interference of other instances: the operation tables and the account
    tables stay well formed; an operation that is settled at some point is byte for byte
    the same ever after; at most one recovery pass of each kind is in flight, also when
    passes fail; and no pass starts after the signal to stop. *)
Theorem gateway_keeps_the_books a w l1 l2 :
  db_wf (w_db w) -> accounts_wf (aw_db a) ->
  let g1 := run_gateway l1 (started s a w) in
  let g2 := run_gateway l2 g1 in
  db_wf (gw_db g2) /\ accounts_wf (gw_adb g2) /\
  (forall id row, db_paid_operations (gw_db g1) !! id = Some row -> row_terminal_at row <> None ->
     db_paid_operations (gw_db g2) !! id = Some row) /\
  (gw_vodPasses g2 <= 1)%nat /\ (gw_livePasses g2 <= 1)%nat /\
  (gw_stopping g1 = true -> (gw_vodPasses g2 <= gw_vodPasses g1)%nat /\ (gw_livePasses g2 <= gw_livePasses g1)%nat).
Proof.
  intros Hwf Hacc g1 g2.
  destruct (run_both l1 (started s a w)) as [H1 A1]. destruct (run_both l2 g1) as [H2 A2]. fold g1 in H1, A1. fold g2 in H2, A2.
  assert (db_wf (gw_db g1)) as Hwf1 by (by eapply row_steps_wf; [apply repo_steps_rows|]).
  assert (one_pass g2) as [Hv Hl] by (apply run_one_pass, run_one_pass, started_one_pass).
  split_and!; [by eapply row_steps_wf; [apply repo_steps_rows|]|..].
  - eapply reachable_wf; [exact A2|]. eapply reachable_wf; [exact A1|exact Hacc].
  - intros id row Hrow Ht. by eapply settled_forever.
  - rewrite Hv. destruct (gw_recovering g2); lia.
  - rewrite Hl. destruct (gw_reconcilingLive g2); lia.
  - intros Hs. apply run_winds_down; [|exact Hs]. by apply run_winding_down.
Qed.

(** ** Whose key it takes *)

Lemma preserves_accounts {A} (P : db -> Prop) (m : A_ A) : preserves gw_db P (accounts_ m).
Proof. intros g Hg. unfold accounts_. by destruct (m (gw_accounts g)). Qed.
Lemma preserves_media {A} (P : db -> Prop) (m : W A) : preserves w_db P m -> preserves gw_db P (media_ m).
Proof. intros Hm g Hg. unfold media_. specialize (Hm (gw_world g) Hg). by destruct (m (gw_world g)). Qed.

Lemma api_key_auth_Some a w K w' :
  accounts_wf (aw_db w) -> api_key_auth c a w = (Ok (Some K), w') ->
  exists token d k, extractBearer a = Some token /\ rtc account_step (aw_db w) d /\ ad_api_keys d !! K = Some k /\
    ak_hash k ∈ apiKeyHashCandidates token (Some (c_API_KEY_HASH_PEPPER c)) /\ key_active k = true /\ vetted d (ak_userId k).
Proof.
  intros Hwf. unfold api_key_auth. destruct (extractBearer a) as [token|]; [|done].
  destruct (negb _); [done|]. rewrite mbind_Ok. intros (record & w1 & Hq & H).
  apply select_Ok in Hq as (Hd & ->). set (d := aw_db w1) in *.
  destruct (lookupActiveByCandidates _ _ d) as [record|] eqn:El; [|done].
  apply mbind_Ok in H as (profile & w2 & _ & H).
  destruct profile as [p|]; [|done]. case_bool_decide; [|done]. injection H as <- _.
  assert (accounts_wf d) as Hwfd by (by eapply reachable_wf).
  apply lookupActive_spec in El as (k & Hk & Hh & Ha & _); [|done].
  exists token, d, k. split_and!; try done. by apply (aw_keys _ Hwfd _ _ Hk).
Qed.

Section owners.
Context (r : tenant_row) (Hpeace : peaceful r).

Lemma serve_product_kept K q :
  row_owner r <> K -> preserves w_db (kept r) (serve_product c s owner select_worker issue K q).
Proof.
  intros Hf. unfold serve_product.
  destruct q; try (apply preserves_bind; [by apply serve_kept|intros x; apply preserves_ret]). by apply post_submit_kept.
Qed.
Lemma catalog_kept : preserves gw_db (kept r) (catalog_ c s).
Proof. apply preserves_media. unfold get_catalog. preserving. Qed.

(** C12: a customer's row changes with the customer's key only.  When an HTTP request, of
    whatever kind and whatever it answers, changes or removes an asset, an upload or a
    live stream, it was a product request whose bearer token is, by its hash, an active
    API key: the key the row belongs to, held by a vetted user.  No other route of the
    server, public, portal or administration, can do it. *)
Theorem rows_change_with_their_owners_key q g :
  accounts_wf (gw_adb g) -> media_ok (gw_db g) -> holds r (gw_db g) ->
  ~ holds r (gw_db (snd (respond c s owner select_worker issue fetch_url q g))) ->
  exists authorization pq token d k,
    q = Product authorization pq /\ extractBearer authorization = Some token /\ rtc account_step (gw_adb g) d /\
    ad_api_keys d !! row_owner r = Some k /\ ak_hash k ∈ apiKeyHashCandidates token (Some (c_API_KEY_HASH_PEPPER c)) /\
    key_active k = true /\ vetted d (ak_userId k).
Proof.
  intros Hacc Hok Hr Hchange.
  assert (preserves gw_db (kept r) (respond c s owner select_worker issue fetch_url q) -> False) as Hno.
  { intros Hp. apply Hchange. by apply (Hp g). }
  assert (forall m, preserves gw_db (kept r) m -> preserves gw_db (kept r) (mcatch m (fun _ : exn => mret_ internal_error))) as Hcatch.
  { intros m Hm. apply preserves_catch; [done|]. intros. apply preserves_ret. }
  pose proof (others_kept r Hpeace) as Hothers.
  destruct q as [|params|suffix|a pq|aq|a|a parsed|a|a]; 
    match type of Hno with context [Product _ _] => idtac | _ => exfalso; apply Hno, Hcatch; cbn [route] end.
  - apply preserves_ret.
  - apply preserves_media. unfold get_playback. preserving.
  - apply preserves_media. unfold get_hls. preserving.
  - unfold respond, mcatch, route in Hchange. unfold mbind_ at 1 in Hchange. unfold accounts_ in Hchange.
    destruct (api_key_auth c a (gw_accounts g)) as [[[K|]|e] a'] eqn:Ek; [|exfalso; apply Hchange; exact Hr..].
    destruct (decide (K = row_owner r)) as [->|Hne].
    + apply api_key_auth_Some in Ek as (token & d & k & H); [|done]. by exists a, pq, token, d, k.
    + exfalso. apply Hchange. revert Hchange. set (g1 := g <| gw_accounts := a' |>). intros _.
      assert (kept r (gw_db g1)) as Hk by (by split).
      assert (preserves gw_db (kept r) (mcatch (do! out <- media_ (serve_product c s owner select_worker issue K pq);
        run! start_run (snd out); mret_ (fst out)) (fun _ => mret_ internal_error))) as Hp.
      { apply Hcatch. apply preserves_bind; [apply preserves_media; by apply serve_product_kept|]. intros out.
        apply preserves_bind; [by intros x|]. intros. apply preserves_ret. }
      by apply (Hp g1).
  - apply preserves_bind; [apply preserves_accounts|]. intros. apply preserves_ret.
  - apply preserves_bind; [apply preserves_accounts|]. intros. apply preserves_ret.
  - case_match; [|apply preserves_ret]. apply preserves_media. unfold get_operations. preserving.
    apply preserves_query; [done|]. intros n d out d' Hq. by apply result_bind_Ok in Hq as (l & _ & [= _ <-]).
  - apply preserves_bind; [apply preserves_accounts|]. intros x. case_match; [apply catalog_kept|apply preserves_ret].
  - case_match; [apply catalog_kept|apply preserves_ret].
Qed.
End owners.
End gateway.

(** ** A gateway with one customer *)

Definition gateway_config : Config.
Proof. let c := eval vm_compute in sample_config in match c with Ok ?x => exact x end. Defined.
Definition gateway_services : Services := mkServices None sample_probe
  (Some (mkIdentity "key" (fun _ => Ok "proof"))) None (Some ("local-v1", [])) (Some sample_options) None None true.
#[local] Instance plain_calendar : Calendar.
Proof. refine {| day_of := fun t => t; week_start := fun d => d; month_start := fun d => d; date_text := fun _ => "" |}; lia. Defined.

Definition customer_accounts : aworld :=
  serve_all (Env := one_customer) (Coll := code_unit_collation) (auth_config gateway_config)
    [Waitlist "10.0.0.1" (JObj [("name", JStr "Ann"); ("email", JStr "ann@example.org")]);
     Verify (JObj [("token", JStr "00")]);
     Approve (Some "Bearer 0123456789abcdef") (JObj [("ids", JArr [JStr "a"])])]
    (mkAworld (mkAdb 0 ∅ ∅ ∅ ∅ ∅) [] [] 0).
Lemma customer_accounts_wf : accounts_wf (aw_db customer_accounts).
Proof. eapply (reachable_wf (Plat := routes_platform)); [apply serve_all_steps|apply empty_accounts]. Qed.

Definition customer_asset : Asset := sample_asset <| as_apiKeyId := "c" |>.
Definition customer_db : db := tenant_db <| db_assets := {["asset" := customer_asset]} |>.
Definition sample_gateway : gateway := started gateway_services customer_accounts (live_world customer_db).

#[local] Abbreviation sample_respond :=
  (respond (Plat := routes_platform) (Env := sample_env) (Accs := one_customer) (Coll := code_unit_collation)
     gateway_config gateway_services "alice" no_worker any_issue (fun _ => mret_ (reply 200 []))).
#[local] Abbreviation sample_run :=
  (run_gateway (Plat := routes_platform) (Env := sample_env) (Accs := one_customer) (Coll := code_unit_collation)
     gateway_config gateway_services "alice" no_worker any_issue (fun _ => mret_ (reply 200 [])) (fun _ => mret_ [])).
Definition delete_request (key : string) : request := Product (Some ("Bearer " +:+ key)) (DeleteAsset (JObj [("id", JStr "asset")])).

Definition answer_code (r : result exn Response) : Z := match r with Ok x => rp_code x | Err _ => 0 end.

(** The customer deletes the asset; with another key nothing happens. *)
Example customer_deletes : answer_code (fst (sample_respond (delete_request "tc_2") sample_gateway)) = 204.
Proof. vm_compute. reflexivity. Qed.
Example stranger_refused : answer_code (fst (sample_respond (delete_request "tc_3") sample_gateway)) = 401.
Proof. vm_compute. reflexivity. Qed.

Lemma customer_db_ok : media_ok customer_db.
Proof.
  assert (Eu : db_uploads tenant_db = ∅) by (vm_compute; reflexivity). pose proof tenant_db_ok as Hok.
  unfold customer_db. revert Eu Hok. generalize tenant_db. intros d Eu [H1 H2 H3 H4].
  split; [by apply map_Forall_singleton|exact H2|exact H3|]. intros k u a. cbn. by rewrite Eu, lookup_empty.
Qed.
Lemma customer_db_wf : db_wf customer_db.
Proof.
  pose proof (idle_db_wf "active") as H. unfold customer_db, tenant_db. revert H. generalize (idle_db "active").
  intros d H. eapply row_steps_wf; [|exact H]. apply repo_steps_rows; [exact H|]. apply rtc_once, step_media; [by split|done].
Qed.
Lemma customer_peace : peaceful (Env := sample_env) (AssetRow customer_asset).
Proof. split; [intros n d H; exact H|]. intros n d k a H. exists a. split; [exact H|reflexivity]. Qed.
Lemma customer_asset_deleted : holds (AssetRow customer_asset) (gw_db (snd (sample_respond (delete_request "tc_2") sample_gateway))) -> False.
Proof. vm_compute. discriminate. Qed.

Lemma rows_change_with_their_owners_key_witness :
  exists authorization pq token, delete_request "tc_2" = Product authorization pq /\ extractBearer authorization = Some token.
Proof.
  destruct (rows_change_with_their_owners_key (Plat := routes_platform) (Env := sample_env) (Accs := one_customer)
    (Coll := code_unit_collation) gateway_config gateway_services "alice" no_worker any_issue (fun _ => mret_ (reply 200 []))
    (AssetRow customer_asset) customer_peace (delete_request "tc_2") sample_gateway customer_accounts_wf customer_db_ok
    ltac:(vm_compute; reflexivity) customer_asset_deleted) as (a & pq & token & d & k & H1 & H2 & _).
  exists a, pq, token. split; [exact H1|exact H2].
Defined.

Definition busy_day : list gateway_event :=
  [VodTick; Request Health; LivePassEnds; LiveTick; VodPassEnds; Request (delete_request "tc_2"); VodTick].
Example busy_day_passes :
  let g := sample_run busy_day sample_gateway in
  (gw_vodPasses g, gw_livePasses g, gw_recovering g, gw_stopping g) = (1%nat, 1%nat, true, false).
Proof. vm_compute. reflexivity. Qed.

Lemma gateway_keeps_the_books_witness :
  let g := sample_run [StopSignal; VodTick; LiveTick] (sample_run busy_day sample_gateway) in
  db_wf (gw_db g) /\ accounts_wf (gw_adb g) /\ (gw_vodPasses g <= 1)%nat.
Proof.
  destruct (gateway_keeps_the_books (Plat := routes_platform) (Env := sample_env) (Accs := one_customer)
    (Coll := code_unit_collation) gateway_config gateway_services "alice" no_worker any_issue (fun _ => mret_ (reply 200 []))
    (fun _ => mret_ []) customer_accounts (live_world customer_db) busy_day [StopSignal; VodTick; LiveTick]
    customer_db_wf customer_accounts_wf) as (H1 & H2 & _ & H4 & _).
  split; [exact H1|]. split; [exact H2|exact H4].
Defined.
