(* ===== verification/Browser.v ===== *)
(** * The browser side: addresses, requests and a page

    What the front ends use of the browser: the encoding of addresses, [fetch], the
    session storage and the events of the window.  Text is UTF-8 here.  The server is a
    parameter: a function of the request and of its own state. *)

From S2P Require Import Prelude Js Types Http.
From Stdlib Require Import Ascii.
Open Scope Z_scope.

(** ** Addresses *)

Definition is_letter (c : ascii) : bool :=
  let n := Ascii.nat_of_ascii c in (Nat.leb 65 n && Nat.leb n 90) || (Nat.leb 97 n && Nat.leb n 122).
Definition one_of (l : string) (c : ascii) : bool := bool_decide (c ∈ String.list_ascii_of_string l).
(** What [encodeURIComponent] and the form encoding leave as it is. *)
Definition uri_unreserved (c : ascii) : bool := is_letter c || is_digit c || one_of "-_.!~*'()" c.
Definition form_unreserved (c : ascii) : bool := is_letter c || is_digit c || one_of "*-._" c.

Definition upper_digit (n : nat) : ascii := Ascii.ascii_of_nat (if Nat.ltb n 10 then 48 + n else 55 + n).
Definition percent (c : ascii) : string :=
  let n := Ascii.nat_of_ascii c in
  String "%" (String (upper_digit (Nat.div n 16)) (String (upper_digit (Nat.modulo n 16)) EmptyString)).

Fixpoint encode_with (enc : ascii -> string) (s : string) : string :=
  match s with EmptyString => EmptyString | String c s' => enc c +:+ encode_with enc s' end.
Definition encodeURIComponent : string -> string :=
  encode_with (fun c => if uri_unreserved c then String c EmptyString else percent c).
Definition form_encode : string -> string :=
  encode_with (fun c => if form_unreserved c then String c EmptyString
                        else if one_of " " c then "+" else percent c).

(** [URLSearchParams]: [set] on keys that are not there yet, and [toString]. *)
Definition search_params (l : list (string * string)) : string :=
  String.concat "&" (map (fun '(k, v) => form_encode k +:+ "=" +:+ form_encode v) l).

(** What the server does with a segment of the path. *)
Definition upper_value (c : ascii) : option nat :=
  let n := Ascii.nat_of_ascii c in
  if Nat.leb 48 n && Nat.leb n 57 then Some (n - 48)%nat
  else if Nat.leb 65 n && Nat.leb n 70 then Some (n - 55)%nat else None.
Fixpoint decodeURIComponent (s : string) : option string :=
  match s with
  | EmptyString => Some EmptyString
  | String "%" (String a (String b s')) =>
      x ← upper_value a; y ← upper_value b; rest ← decodeURIComponent s';
      Some (String (Ascii.ascii_of_nat (16 * x + y)) rest)
  | String "%" _ => None
  | String c s' => rest ← decodeURIComponent s'; Some (String c rest)
  end.

Lemma upper_value_digit n : (n < 16)%nat -> upper_value (upper_digit n) = Some n.
Proof. intros H. do 16 (destruct n as [|n]; [reflexivity|]). lia. Qed.
Lemma decode_percent c s : decodeURIComponent (percent c +:+ s) = (rest ← decodeURIComponent s; Some (String c rest)).
Proof.
  pose proof (Ascii.nat_ascii_bounded c) as Hc. set (n := Ascii.nat_of_ascii c) in *.
  change (percent c +:+ s) with (String "%" (String (upper_digit (Nat.div n 16)) (String (upper_digit (Nat.modulo n 16)) s))).
  cbn [decodeURIComponent].
  rewrite !upper_value_digit; [|apply Nat.Div0.div_lt_upper_bound; lia|apply Nat.mod_upper_bound; lia].
  cbn [mbind option_bind]. replace (Ascii.ascii_of_nat _) with c; [done|].
  rewrite <- (Ascii.ascii_nat_embedding c). f_equal. fold n. pose proof (Nat.div_mod n 16). lia.
Qed.
Lemma decode_plain c s : uri_unreserved c = true -> decodeURIComponent (String c s) = (rest ← decodeURIComponent s; Some (String c rest)).
Proof. destruct c as [[] [] [] [] [] [] [] []]; try reflexivity; intros H; vm_compute in H; discriminate H. Qed.

Lemma encode_cons c s :
  encodeURIComponent (String c s) =
  if uri_unreserved c then String c (encodeURIComponent s) else percent c +:+ encodeURIComponent s.
Proof. unfold encodeURIComponent. cbn [encode_with]. by destruct (uri_unreserved c). Qed.
(** Text that was encoded is read back by the server. *)
Lemma decode_encode s : decodeURIComponent (encodeURIComponent s) = Some s.
Proof.
  induction s as [|c s IH]; [done|]. rewrite encode_cons. destruct (uri_unreserved c) eqn:Hc.
  - rewrite decode_plain by done. by rewrite IH.
  - rewrite decode_percent. by rewrite IH.
Qed.

Definition uri_char (c : ascii) : bool := uri_unreserved c || one_of "%" c.
Lemma all_chars_app p a b : all_chars p (a +:+ b) = all_chars p a && all_chars p b.
Proof. induction a as [|c a IH]; [done|]. change (String c a +:+ b) with (String c (a +:+ b)). cbn [all_chars]. by rewrite IH, andb_assoc. Qed.
(** It has none of the characters that divide an address. *)
Lemma encode_chars s : all_chars uri_char (encodeURIComponent s) = true.
Proof.
  induction s as [|c s IH]; [done|]. rewrite encode_cons. destruct (uri_unreserved c) eqn:Hc.
  - cbn [all_chars]. unfold uri_char at 1. by rewrite Hc, IH.
  - rewrite all_chars_app, IH. by destruct c as [[] [] [] [] [] [] [] []].
Qed.

(** ** Requests and answers *)

Record web_request := mkWebRequest {
  wr_method : string;
  wr_url : string;
  wr_headers : list (string * string);
  wr_body : option string
}.
Record web_response := mkWebResponse {
  ws_status : Z;
  ws_statusText : string;
  ws_contentType : option string;
  ws_text : string
}.
Definition res_ok (r : web_response) : bool := (200 <=? ws_status r) && (ws_status r <=? 299).

(** The [init] argument of the request helpers. *)
Record request_init := mkInit {
  in_method : option string;
  in_headers : list (string * string);
  in_body : option string
}.
Definition no_init : request_init := mkInit None [] None.
Definition post_init (body : option string) : request_init := mkInit (Some "POST") [] body.

(** Spreading [extra] over an object: a later property replaces an earlier one. *)
Definition spread (base extra : list (string * string)) : list (string * string) :=
  List.filter (fun kv => negb (is_present (assoc (fst kv) extra))) base ++ extra.

(** [String(value)], given the text of numbers. *)
Fixpoint js_String (number_text : jsnum -> string) (j : json) : string :=
  match j with
  | JNull => "null"
  | JBool b => if b then "true" else "false"
  | JNum n => number_text n
  | JStr s => s
  | JArr l => String.concat "," (map (fun x => match x with JNull => EmptyString | _ => js_String number_text x end) l)
  | JObj _ => "[object Object]"
  end.

(** [includes] of a string *)
Fixpoint includes_text (t s : string) : bool :=
  startsWith t s || match s with EmptyString => false | String _ s' => includes_text t s' end.

(** ** A page *)

Section page.
Context {Srv : Type}.

Record page := mkPage {
  pg_storage : gmap string string;
  pg_events : list string;
  pg_sent : list web_request;
  pg_server : Srv
}.
#[export] Instance page_eta : RecEta page := fun p => mkPage (pg_storage p) (pg_events p) (pg_sent p) (pg_server p).

Definition P_ (A : Type) : Type := M page exn A.

Definition getItem (k : string) : P_ (option string) := mget (fun p => pg_storage p !! k).
Definition setItem (k v : string) : P_ unit := mmodify (fun p => p <| pg_storage := <[k := v]> (pg_storage p) |>).
Definition removeItem (k : string) : P_ unit := mmodify (fun p => p <| pg_storage := delete k (pg_storage p) |>).
Definition dispatchEvent (e : string) : P_ unit := mmodify (fun p => p <| pg_events := pg_events p ++ [e] |>).

Context (server : web_request -> Srv -> result exn web_response * Srv).

Definition fetch_ (rq : web_request) : P_ web_response := fun p =>
  let '(r, sv) := server rq (pg_server p) in (r, p <| pg_sent := pg_sent p ++ [rq] |> <| pg_server := sv |>).
End page.
Arguments page : clear implicits.
Arguments P_ : clear implicits.

Section bodies.
Context `{Plat : Platform}.
Definition res_json (r : web_response) : result exn json :=
  match json_parse (ws_text r) with Some j => Ok j | None => Err (PlainError "Unexpected token") end.
(** The body by its content type. *)
Definition res_body (r : web_response) : result exn json :=
  if includes_text "application/json" (ws_contentType r ?? "") then res_json r else Ok (JStr (ws_text r)).
Definition message_of (body : json) : option json := match body with JObj f => assoc "message" f | _ => None end.
End bodies.
