(* ===== verification/Portal.v ===== *)
(** * The customer portal (portal/lib/session.js, api.js, paid-operation-view.js, router.js)

    The portal keeps the session token, the API key and the profile in the tab's session
    storage, and talks to the gateway with the token or with the key. *)

From S2P Require Import Prelude Js Types Http Browser.
From Stdlib Require Import Ascii.
Open Scope Z_scope.

(** ** session.js *)

Definition KEYS_session : string := "lmt-session-token".
Definition KEYS_apiKey : string := "lmt-api-key".
Definition KEYS_profile : string := "lmt-user-profile".

Section portal.
Context `{Plat : Platform} {Srv : Type} (server : web_request -> Srv -> result exn web_response * Srv).
Context (API_BASE : string) (number_text : jsnum -> string).
Abbreviation P := (P_ Srv).

Definition getSession : P string := do! t <- getItem KEYS_session; mret_ (t ?? "").
Definition setSession (token : string) : P unit := setItem KEYS_session token.
Definition getApiKey : P string := do! t <- getItem KEYS_apiKey; mret_ (t ?? "").
Definition setApiKey (key : string) : P unit := setItem KEYS_apiKey key.
(** An unreadable profile is none. *)
Definition getProfile : P json :=
  do! raw <- getItem KEYS_profile;
  mret_ (if truthy raw then json_parse (raw ?? "") ?? JNull else JNull).
Definition setProfile (profile : option json) : P unit :=
  setItem KEYS_profile (match profile with Some j => stringify j | None => "undefined" end).
Definition clearAll : P unit := run! removeItem KEYS_session; run! removeItem KEYS_apiKey; removeItem KEYS_profile.
Definition hasSession : P bool := do! t <- getSession; mret_ (nonempty t).

(** ** api.js *)

(** [String(msg)] of a failed answer *)
Definition failure_message (res : web_response) (body : json) : string :=
  match message_of body with
  | Some m => js_String number_text m
  | None => string_of_Z (ws_status res) +:+ " " +:+ ws_statusText res
  end.

Definition fetchJson (path : string) (init : request_init) : P json :=
  do! res <- fetch_ server (mkWebRequest (in_method init ?? "GET") (API_BASE +:+ path) (in_headers init) (in_body init));
  if ws_status res =? 401 then
    run! clearAll;
    run! dispatchEvent "lmt-unauthorized";
    mthrow (PlainError "Unauthorized")
  else
    do! body <- mlift (res_body res);
    if negb (res_ok res) then mthrow (PlainError (failure_message res body))
    else mret_ body.

Definition json_headers (credential : string) (init : request_init) : request_init :=
  mkInit (in_method init)
    (spread [("Content-Type", "application/json"); ("Authorization", "Bearer " +:+ credential)] (in_headers init)) (in_body init).
Definition userRequest (path : string) (init : request_init) : P json :=
  do! token <- getSession; fetchJson path (json_headers token init).
Definition productRequest (path : string) (init : request_init) : P json :=
  do! key <- getApiKey; fetchJson path (json_headers key init).

(** [sessionStorage.setItem] of a property of an answer: what is not text is converted. *)
Definition stored_text (body : json) (k : string) : result exn string :=
  match body with
  | JObj f => Ok (match assoc k f with Some j => js_String number_text j | None => "undefined" end)
  | JNull => Err (PlainError "Cannot read properties of null")
  | _ => Ok "undefined"
  end.
Definition prop_of_body (body : json) (k : string) : option json := match body with JObj f => assoc k f | _ => None end.

Definition login (apiKey : string) : P json :=
  do! body <- fetchJson "/api/v1/user/login"
    (mkInit (Some "POST") [("Content-Type", "application/json")] (Some (stringify (JObj [("api_key", JStr apiKey)]))));
  do! token <- mlift (stored_text body "session_token");
  run! setSession token;
  run! setApiKey apiKey;
  run! setProfile (prop_of_body body "user");
  mret_ body.
Definition fetchProfile : P json := userRequest "/api/v1/user/profile" no_init.
Definition rotateKey : P json :=
  do! body <- userRequest "/api/v1/user/rotate-key" (post_init None);
  do! token <- mlift (stored_text body "session_token");
  run! setSession token;
  do! key <- mlift (stored_text body "api_key");
  run! setApiKey key;
  mret_ body.
Definition logout : P unit :=
  run! mcatch (do! _ <- userRequest "/api/v1/user/logout" (post_init None); mret_ tt) (fun _ => mret_ tt);
  clearAll.
Definition fetchCatalog : P json := userRequest "/api/v1/user/catalog" no_init.

(** [opts] of the list: a limit of zero and an empty cursor are left out. *)
Record list_opts := mkListOpts {
  lo_limit : option Z;
  lo_cursor : option string;
  lo_includeDeleted : bool
}.
Definition list_query (o : list_opts) : string :=
  search_params ((match lo_limit o with Some n => if n =? 0 then [] else [("limit", string_of_Z n)] | None => [] end) ++
    (if truthy (lo_cursor o) then [("cursor", lo_cursor o ?? "")] else []) ++
    (if lo_includeDeleted o then [("include_deleted", "true")] else [])).
Definition query_suffix (q : string) : string := if nonempty q then "?" +:+ q else "".

Definition listAssets (o : list_opts) : P json := productRequest ("/v1/videos/assets" +:+ query_suffix (list_query o)) no_init.
Definition getAsset (id : string) : P json := productRequest ("/v1/videos/assets/" +:+ encodeURIComponent id) no_init.
(** Not by way of [fetchJson]. *)
Definition deleteAsset (id : string) : P unit :=
  do! key <- getApiKey;
  do! res <- fetch_ server (mkWebRequest "DELETE" (API_BASE +:+ "/v1/videos/assets/" +:+ encodeURIComponent id)
                              [("Authorization", "Bearer " +:+ key)] None);
  if negb (res_ok res) && negb (ws_status res =? 204)
  then mthrow (PlainError ("Delete failed: " +:+ string_of_Z (ws_status res)))
  else mret_ tt.
Definition createUpload (input : json) : P json := productRequest "/v1/uploads" (post_init (Some (stringify input))).
Definition completeUpload (id : string) : P json :=
  productRequest ("/v1/uploads/" +:+ encodeURIComponent id +:+ "/complete") (post_init (Some "{}")).
Definition submitVod (input : json) : P json := productRequest "/v1/vod/submit" (post_init (Some (stringify input))).
Definition listLiveStreamsByApi : P (option json) :=
  do! body <- productRequest "/v1/live/streams" no_init;
  match body with
  | JNull => mthrow (PlainError "Cannot read properties of null")
  | _ => mret_ (prop_of_body body "streams")
  end.
Definition createLiveStream (input : json) : P json := productRequest "/v1/live/streams" (post_init (Some (stringify input))).
Definition getLiveStream (id : string) : P json := productRequest ("/v1/live/streams/" +:+ encodeURIComponent id) no_init.
Definition endLiveStream (id : string) : P json :=
  productRequest ("/v1/live/streams/" +:+ encodeURIComponent id +:+ "/end") (post_init (Some "{}")).
End portal.

(** *** The upload to the presigned address *)

Inductive xhr_event : Type :=
| Progress (lengthComputable : bool) (loaded total : Z)
| Load (status : Z)
| XhrError
| XhrAbort.
Record xhr := mkXhr {
  xh_settled : option (result exn unit);
  xh_progress : list (Z * Z)
}.
(** The first settlement of a promise is the one that counts. *)
Definition settle (r : result exn unit) (x : xhr) : xhr :=
  mkXhr (match xh_settled x with Some r' => Some r' | None => Some r end) (xh_progress x).
Definition on_xhr (onProgress : bool) (x : xhr) (e : xhr_event) : xhr :=
  match e with
  | Progress computable loaded total =>
      if computable && onProgress then mkXhr (xh_settled x) (xh_progress x ++ [(loaded, total)]) else x
  | Load status =>
      settle (if (200 <=? status) && (status <? 300) then Ok tt
              else Err (PlainError ("S3 PUT failed: " +:+ string_of_Z status))) x
  | XhrError => settle (Err (PlainError "S3 PUT network error")) x
  | XhrAbort => settle (Err (PlainError "S3 PUT aborted")) x
  end.
Definition putToPresignedUrl (url fileType : string) (onProgress : bool) (events : list xhr_event) : web_request * xhr :=
  (mkWebRequest "PUT" url [("Content-Type", if nonempty fileType then fileType else "application/octet-stream")] None,
   foldl (on_xhr onProgress) (mkXhr None []) events).

(** ** paid-operation-view.js *)

Record operation_view := mkOperationView {
  ov_state : string;
  ov_output_status : option string;
  ov_error_code : option string;
  ov_last_failure_code : option string;
  ov_claimed_units : option string;
  ov_work_unit : string;
  ov_winddown_reason : option string;
  ov_recovered : bool
}.
Definition TERMINAL : list string := ["settled"; "encumbered"; "failed"; "debit_failed"].
Definition shouldPollOperation (o : option operation_view) : bool :=
  match o with Some v => negb (bool_decide (ov_state v ∈ TERMINAL)) | None => false end.
Definition operationTone (o : option operation_view) : string :=
  match o with
  | None => ""
  | Some v =>
      if (ov_output_status v ==? Some "stalled") || (ov_output_status v ==? Some "output_failed") then "error"
      else if ov_state v ==? "settled" then "ok"
      else if bool_decide (ov_state v ∈ TERMINAL) || (ov_error_code v ==? Some "debit_failed") then "error"
      else "warn"
  end.
(** [replaceAll("_", " ")] *)
Fixpoint spaced (s : string) : string :=
  match s with EmptyString => EmptyString | String c s' => String (if bool_decide (c = "_"%char) then " "%char else c) (spaced s') end.
Definition failure_suffix (code : option string) : string :=
  if truthy code then " (" +:+ spaced (code ?? "") +:+ ")" else "".
Definition operationSummary (o : option operation_view) : string :=
  match o with
  | None => "No paid operation has been recorded yet."
  | Some v =>
      if (ov_error_code v ==? Some "debit_failed") || (ov_state v ==? "encumbered")
      then "Payment could not be finalized; the result remains unavailable."
      else if ov_output_status v ==? Some "output_failed"
      then "Runner output failed" +:+ failure_suffix (ov_last_failure_code v) +:+ "."
      else if ov_output_status v ==? Some "stalled"
      then "Runner output is stalled" +:+ failure_suffix (ov_last_failure_code v) +:+ "."
      else if ov_state v ==? "settled"
      then "Settled " +:+ (ov_claimed_units v ?? "0") +:+ " " +:+ ov_work_unit v +:+ "."
      else if truthy (ov_winddown_reason v)
      then "Ending safely (" +:+ spaced (ov_winddown_reason v ?? "") +:+ "); settlement is still pending."
      else if ov_recovered v then "Recovered after an interrupted exchange; reconciliation is continuing."
      else "The paid exchange is still in progress."
  end.

(** ** router.js *)

Fixpoint split_slash (s : string) : list string :=
  match s with
  | EmptyString => [EmptyString]
  | String c s' =>
      if bool_decide (c = "/"%char) then EmptyString :: split_slash s'
      else match split_slash s' with
           | x :: l => String c x :: l
           | [] => [String c EmptyString]
           end
  end.
Definition or_else (s d : string) : string := if nonempty s then s else d.
(** [current], of the hash without its sign. *)
Definition current (hash : string) : string * option string :=
  match split_slash (or_else hash "dashboard") with
  | view :: rest => (or_else view "dashboard", let p := String.concat "/" rest in if nonempty p then Some p else None)
  | [] => ("dashboard", None)
  end.
Definition navigate (view : string) (param : option string) : string :=
  if truthy param then view +:+ "/" +:+ (param ?? "") else view.
