(* ===== verification/PortalSpec.v ===== *)
(** * What the portal promises

    Each operation of the portal makes one request, with the credential of its kind; the
    credentials are forgotten when the gateway refuses them and at a logout; ids and
    routes survive the address; and against the account routes, a login in the portal
    opens the portal. *)

From S2P Require Import Prelude Js Types Http Database Accounts AccountsSpec AuthRoutes AuthRoutesSpec Browser Portal.
From Stdlib Require Import Ascii.
Open Scope Z_scope.

Inductive portal_op : Type :=
| Login (apiKey : string)
| FetchProfile
| RotateKey
| Logout
| FetchCatalog
| ListAssets (o : list_opts)
| GetAsset (id : string)
| DeleteAsset (id : string)
| CreateUpload (input : json)
| CompleteUpload (id : string)
| SubmitVod (input : json)
| ListLiveStreams
| CreateLiveStream (input : json)
| GetLiveStream (id : string)
| EndLiveStream (id : string).

Section portal.
Context `{Plat : Platform} {Srv : Type} (server : web_request -> Srv -> result exn web_response * Srv).
Context (API_BASE : string) (number_text : jsnum -> string).

Definition discard {A} (m : P_ Srv A) : P_ Srv unit := do! _ <- m; mret_ tt.
Definition perform (op : portal_op) : P_ Srv unit :=
  match op with
  | Login apiKey => discard (login server API_BASE number_text apiKey)
  | FetchProfile => discard (fetchProfile server API_BASE number_text)
  | RotateKey => discard (rotateKey server API_BASE number_text)
  | Logout => logout server API_BASE number_text
  | FetchCatalog => discard (fetchCatalog server API_BASE number_text)
  | ListAssets o => discard (listAssets server API_BASE number_text o)
  | GetAsset id => discard (getAsset server API_BASE number_text id)
  | DeleteAsset id => deleteAsset server API_BASE id
  | CreateUpload input => discard (createUpload server API_BASE number_text input)
  | CompleteUpload id => discard (completeUpload server API_BASE number_text id)
  | SubmitVod input => discard (submitVod server API_BASE number_text input)
  | ListLiveStreams => discard (listLiveStreamsByApi server API_BASE number_text)
  | CreateLiveStream input => discard (createLiveStream server API_BASE number_text input)
  | GetLiveStream id => discard (getLiveStream server API_BASE number_text id)
  | EndLiveStream id => discard (endLiveStream server API_BASE number_text id)
  end.

(** The address of an operation and the credential it carries. *)
Definition op_path (op : portal_op) : string :=
  match op with
  | Login _ => "/api/v1/user/login"
  | FetchProfile => "/api/v1/user/profile"
  | RotateKey => "/api/v1/user/rotate-key"
  | Logout => "/api/v1/user/logout"
  | FetchCatalog => "/api/v1/user/catalog"
  | ListAssets o => "/v1/videos/assets" +:+ query_suffix (list_query o)
  | GetAsset id | DeleteAsset id => "/v1/videos/assets/" +:+ encodeURIComponent id
  | CreateUpload _ => "/v1/uploads"
  | CompleteUpload id => "/v1/uploads/" +:+ encodeURIComponent id +:+ "/complete"
  | SubmitVod _ => "/v1/vod/submit"
  | ListLiveStreams | CreateLiveStream _ => "/v1/live/streams"
  | GetLiveStream id => "/v1/live/streams/" +:+ encodeURIComponent id
  | EndLiveStream id => "/v1/live/streams/" +:+ encodeURIComponent id +:+ "/end"
  end.
Definition bearer_of (storage : gmap string string) (key : string) : option string := Some ("Bearer " +:+ (storage !! key ?? "")).
Definition op_credential (op : portal_op) (storage : gmap string string) : option string :=
  match op with
  | Login _ => None
  | FetchProfile | RotateKey | Logout | FetchCatalog => bearer_of storage KEYS_session
  | _ => bearer_of storage KEYS_apiKey
  end.

Definition signed_out (p : page Srv) : Prop :=
  pg_storage p !! KEYS_session = None /\ pg_storage p !! KEYS_apiKey = None /\ pg_storage p !! KEYS_profile = None.
Definition refused (answer : result exn web_response) : bool :=
  match answer with Ok res => ws_status res =? 401 | Err _ => false end.

Lemma clear_signed_out p : signed_out (snd (clearAll (Srv := Srv) p)).
Proof. unfold signed_out. cbn. split_and!; by simplify_map_eq. Qed.

(** One call of [fetchJson]. *)
Lemma fetchJson_effect path init p r p' :
  fetchJson server API_BASE number_text path init p = (r, p') ->
  let rq := mkWebRequest (in_method init ?? "GET") (API_BASE +:+ path) (in_headers init) (in_body init) in
  let answer := fst (server rq (pg_server p)) in
  pg_sent p' = pg_sent p ++ [rq] /\ pg_server p' = snd (server rq (pg_server p)) /\
  if refused answer
  then signed_out p' /\ pg_events p' = pg_events p ++ ["lmt-unauthorized"] /\ r = Err (PlainError "Unauthorized")
  else pg_storage p' = pg_storage p /\ pg_events p' = pg_events p.
Proof.
  unfold fetchJson, fetch_, mbind_. cbn zeta. destruct (server _ (pg_server p)) as [[res|e] sv] eqn:E; cbn [fst snd refused].
  - destruct (ws_status res =? 401) eqn:Hs.
    + intros [= <- <-]. cbn. split_and!; try done; unfold signed_out; cbn; by simplify_map_eq.
    + unfold mlift. destruct (res_body res); [|by intros [= <- <-]]. by destruct (negb (res_ok res)); intros [= <- <-].
  - by intros [= <- <-].
Qed.

(** An operation through [fetchJson] whose further work touches the storage only if it
    stores what the gateway answered. *)
Definition stores (op : portal_op) : bool := match op with Login _ | RotateKey => true | _ => false end.
(** What every operation but a deletion and a logout does. *)
Definition guarded (op : portal_op) (p : page Srv) (r : result exn unit) (p' : page Srv) : Prop :=
  exists rq, pg_sent p' = pg_sent p ++ [rq] /\ wr_url rq = API_BASE +:+ op_path op /\
    assoc "Authorization" (wr_headers rq) = op_credential op (pg_storage p) /\
    pg_server p' = snd (server rq (pg_server p)) /\
    if refused (fst (server rq (pg_server p)))
    then signed_out p' /\ pg_events p' = pg_events p ++ ["lmt-unauthorized"] /\ r = Err (PlainError "Unauthorized")
    else pg_events p' = pg_events p /\ (stores op = true \/ pg_storage p' = pg_storage p).

Lemma fetch_guarded {A} op (F : P_ Srv json) path init (k : json -> P_ Srv A) p r p' :
  F p = fetchJson server API_BASE number_text path init p -> path = op_path op -> assoc "Authorization" (in_headers init) = op_credential op (pg_storage p) ->
  (forall j p1 r1 p2, k j p1 = (r1, p2) -> pg_sent p2 = pg_sent p1 /\ pg_server p2 = pg_server p1 /\ pg_events p2 = pg_events p1 /\
     (stores op = true \/ pg_storage p2 = pg_storage p1)) ->
  (do! _ <- (do! j <- F; k j); mret_ tt) p = (r, p') ->
  guarded op p r p'.
Proof.
  intros HF -> Ha Hk. unfold mbind_. rewrite HF. destruct (fetchJson _ _ _ _ _ p) as [[j|e] p1] eqn:E.
  - apply fetchJson_effect in E as (H1 & H2 & H3). cbn zeta in H3. destruct (k j p1) as [[x|e] p2] eqn:Ek;
      apply Hk in Ek as (K1 & K2 & K3 & K4); intros [= <- <-]; (eexists; split_and!; [by rewrite K1|done|done|by rewrite K2|]);
      (destruct (refused _); [by destruct H3 as (_ & _ & [=])|]; destruct H3 as [H3 H4]; split; [congruence|]; destruct K4; [auto|right; congruence]).
  - apply fetchJson_effect in E as (H1 & H2 & H3). cbn zeta in H3. intros [= <- <-]. eexists. split_and!; try done.
    destruct (refused _); [|naive_solver]. by destruct H3 as (H3 & H4 & [= ->]).
Qed.

Lemma fetch_plain op (F : P_ Srv json) path init p r p' :
  F p = fetchJson server API_BASE number_text path init p -> path = op_path op ->
  assoc "Authorization" (in_headers init) = op_credential op (pg_storage p) ->
  discard F p = (r, p') -> guarded op p r p'.
Proof.
  intros HF Hp Ha H. apply (fetch_guarded op F path init mret_ p); [done|done|done| |].
  - intros j p1 r1 p2 [= _ <-]. auto.
  - revert H. unfold discard, mbind_. by destruct (F p) as [[j|e] p1].
Qed.
Lemma user_plain op path method body p r p' :
  path = op_path op -> op_credential op (pg_storage p) = bearer_of (pg_storage p) KEYS_session ->
  discard (userRequest server API_BASE number_text path (mkInit method [] body)) p = (r, p') -> guarded op p r p'.
Proof. intros Hp Ha. by apply (fetch_plain op _ path (json_headers (pg_storage p !! KEYS_session ?? "") (mkInit method [] body))). Qed.
Lemma product_plain op path method body p r p' :
  path = op_path op -> op_credential op (pg_storage p) = bearer_of (pg_storage p) KEYS_apiKey ->
  discard (productRequest server API_BASE number_text path (mkInit method [] body)) p = (r, p') -> guarded op p r p'.
Proof. intros Hp Ha. by apply (fetch_plain op _ path (json_headers (pg_storage p !! KEYS_apiKey ?? "") (mkInit method [] body))). Qed.

(** What an operation does, by its kind. *)
Lemma perform_guarded op p r p' :
  perform op p = (r, p') ->
  match op with
  | DeleteAsset _ =>
      pg_storage p' = pg_storage p /\ pg_events p' = pg_events p /\ exists rq, pg_sent p' = pg_sent p ++ [rq] /\ wr_url rq = API_BASE +:+ op_path op /\
        assoc "Authorization" (wr_headers rq) = op_credential op (pg_storage p)
  | Logout =>
      r = Ok tt /\ signed_out p' /\ exists rq, pg_sent p' = pg_sent p ++ [rq] /\ wr_url rq = API_BASE +:+ op_path op /\
        assoc "Authorization" (wr_headers rq) = op_credential op (pg_storage p)
  | _ => guarded op p r p'
  end.
Proof.
  destruct op; cbn [perform].
  - apply (fetch_guarded (Login apiKey) _ _ _ _ p r p' eq_refl); [done|done|]. intros j p1 r1 p2. unfold mlift, mbind_.
    destruct (stored_text _ _ _); by intros [= _ <-]; auto.
  - by apply user_plain.
  - apply (fetch_guarded RotateKey (userRequest server API_BASE number_text "/api/v1/user/rotate-key" (post_init None)) _
      (json_headers (pg_storage p !! KEYS_session ?? "") (post_init None)) _ p r p' eq_refl);
      [done|done|]. intros j p1 r1 p2. unfold mlift, mbind_. destruct (stored_text _ _ "session_token"); [|by intros [= _ <-]; auto].
    cbn. destruct (stored_text _ _ "api_key"); by intros [= _ <-]; auto.
  - unfold logout, mcatch. fold (discard (userRequest server API_BASE number_text "/api/v1/user/logout" (post_init None))).
    unfold mbind_ at 1. destruct (discard _ p) as [x p1] eqn:E.
    assert (guarded Logout p x p1) as (rq & H1 & H2 & H3 & _) by
      (by eapply (user_plain Logout _ (Some "POST") None); [..|exact E]).
    intros H. assert (p' = snd (clearAll p1) /\ r = Ok tt) as [-> ->] by (by destruct x; injection H as <- <-).
    split_and!; [done|apply clear_signed_out|]. by exists rq.
  - by apply user_plain.
  - by apply product_plain.
  - by apply product_plain.
  - unfold deleteAsset, fetch_, mbind_. cbn. destruct (server _ _) as [[res|e] sv].
    + destruct (negb _ && _); intros [= _ <-]; split_and!; try done; by eexists.
    + intros [= _ <-]. split_and!; [done..|]. by eexists.
  - by apply product_plain.
  - by apply product_plain.
  - by apply product_plain.
  - apply (fetch_guarded ListLiveStreams (productRequest server API_BASE number_text "/v1/live/streams" no_init) _
      (json_headers (pg_storage p !! KEYS_apiKey ?? "") no_init) _ p r p' eq_refl); [done|done|].
    intros j p1 r1 p2. destruct j; intros [= _ <-]; auto.
  - by apply product_plain.
  - by apply product_plain.
  - by apply product_plain.
Qed.

End portal.

(** ** Routes and ids *)

Definition no_slash (s : string) : bool := all_chars (fun c => negb (bool_decide (c = "/"%char))) s.
Lemma split_view view rest : no_slash view = true -> split_slash (view +:+ String "/" rest) = view :: split_slash rest.
Proof.
  induction view as [|c view IH]; [done|]. intros H. cbn [no_slash all_chars] in H. apply andb_true_iff in H as [Hc H].
  change (String c view +:+ String "/" rest) with (String c (view +:+ String "/" rest)). cbn [split_slash].
  rewrite (IH H). by destruct (bool_decide (c = "/"%char)).
Qed.
Lemma split_plain view : no_slash view = true -> split_slash view = [view].
Proof.
  induction view as [|c view IH]; [done|]. cbn [no_slash all_chars]. intros [Hc H]%andb_true_iff. cbn [split_slash].
  rewrite (IH H). by destruct (bool_decide (c = "/"%char)).
Qed.
Lemma concat_split s : String.concat "/" (split_slash s) = s /\ split_slash s <> [].
Proof.
  induction s as [|c s [IH Hn]]; [done|]. cbn [split_slash]. case_bool_decide as Hc.
  - subst c. split; [|done]. destruct (split_slash s) as [|x l]; [done|]. cbn [String.concat]. by rewrite <- IH.
  - destruct (split_slash s) as [|x l]; [done|]. split; [|done]. destruct l; [cbn in *; by rewrite <- IH|].
    cbn [String.concat] in *. rewrite <- IH. done.
Qed.
(** The router reads back where it was told to go, whatever the parameter contains. *)
Lemma current_navigate view param :
  nonempty view = true -> no_slash view = true -> param <> Some "" -> current (navigate view param) = (view, param).
Proof.
  intros Hne Hs Hp. unfold navigate, current, or_else. destruct param as [x|]; cbn [truthy].
  - destruct (nonempty x) eqn:Hx; [|by destruct x]. cbn [or_default].
    assert (nonempty (view +:+ "/" +:+ x) = true) as -> by (by destruct view).
    change (view +:+ "/" +:+ x) with (view +:+ String "/" x). rewrite split_view, Hne by done.
    destruct (concat_split x) as [-> _]. by rewrite Hx.
  - by rewrite Hne, split_plain, Hne.
Qed.

(** ** The portal and the account routes *)

Section accounts.
Context `{Env : AccountsEnv} (config : AuthConfig) (API_BASE ip : string) (number_text : jsnum -> string).
(** The server's reading of a body, before the handlers and their checks run. *)
Context (parse_body : web_request -> result exn json).

Definition answer_of (code : Z) (body : json) : web_response :=
  mkWebResponse code "" (Some "application/json; charset=utf-8") (stringify body).
Definition authorization_of (rq : web_request) : option string := assoc "Authorization" (wr_headers rq).

Definition at_route (rq : web_request) (method path : string) : bool :=
  (wr_method rq ==? method) && (wr_url rq ==? API_BASE +:+ path).
(** The account routes of the portal; an error is the server's answer 500. *)
Definition portal_route (rq : web_request) : A_ Reply :=
  if at_route rq "POST" "/api/v1/user/login" then do! body <- mlift (parse_body rq); post_login config ip body
  else if at_route rq "GET" "/api/v1/user/profile" then get_profile config (authorization_of rq)
  else if at_route rq "POST" "/api/v1/user/rotate-key"
  then do! _ <- mlift (parse_body rq); post_rotate_key config (authorization_of rq)
  else if at_route rq "POST" "/api/v1/user/logout" then do! _ <- mlift (parse_body rq); post_logout config (authorization_of rq)
  else mret_ (error_reply 404 "Not Found").
Lemma at_own method path headers body : at_route (mkWebRequest method (API_BASE +:+ path) headers body) method path = true.
Proof. unfold at_route. cbn [wr_method wr_url]. by rewrite !bool_decide_true. Qed.
Lemma at_other method path headers body m p :
  path <> p -> at_route (mkWebRequest method (API_BASE +:+ path) headers body) m p = false.
Proof.
  intros Hp. unfold at_route. cbn [wr_method wr_url]. rewrite (bool_decide_false (_ +:+ _ = _)); [apply andb_false_r|].
  intros H. by apply (inj (String.append API_BASE)) in H.
Qed.
Definition portal_server (rq : web_request) (w : aworld) : result exn web_response * aworld :=
  match portal_route rq w with
  | (Ok r, w') => (Ok (answer_of (ry_code r) (ry_body r)), w')
  | (Err _, w') => (Ok (answer_of 500 (ry_body (error_reply 500 "Internal server error."))), w')
  end.

Definition login_body (apiKey : string) : json := JObj [("api_key", JStr apiKey)].
Definition login_request (apiKey : string) : web_request :=
  mkWebRequest "POST" (API_BASE +:+ "/api/v1/user/login") [("Content-Type", "application/json")] (Some (stringify (login_body apiKey))).

Lemma portal_server_login apiKey w :
  parse_body (login_request apiKey) = Ok (login_body apiKey) ->
  portal_server (login_request apiKey) w =
  match post_login config ip (login_body apiKey) w with
  | (Ok r, w') => (Ok (answer_of (ry_code r) (ry_body r)), w')
  | (Err _, w') => (Ok (answer_of 500 (ry_body (error_reply 500 "Internal server error."))), w')
  end.
Proof.
  intros Hb. unfold portal_server, portal_route, mbind_, mlift. unfold login_request at 1. rewrite at_own. by rewrite Hb.
Qed.

(** Text that has no space is its own trimmed text. *)
Lemma trim_plain s : all_chars (fun c => negb (is_space c)) s = true -> trim s = s.
Proof.
  intros H. unfold trim. assert (trim_start s = s) as ->.
  { destruct s as [|c s]; [done|]. cbn [all_chars] in H. apply andb_true_iff in H as [H _]. cbn. by destruct (is_space c). }
  induction s as [|c s IH]; [done|]. cbn [all_chars] in H. apply andb_true_iff in H as [Hc H]. cbn [trim_end]. rewrite (IH H).
  destruct s; [|done]. by destruct (is_space c).
Qed.
Lemma token_plain random32 : all_chars (fun c => negb (is_space c)) (generateSessionToken random32) = true.
Proof.
  unfold generateSessionToken. rewrite all_chars_app. cbn [all_chars]. induction random32 as [|b l IH]; [done|].
  change (toHex (b :: l)) with (low_hex b +:+ toHex l). rewrite all_chars_app. apply andb_true_iff in IH as [_ IH]. rewrite IH.
  by destruct b.
Qed.

(** A live session lets its bearer in. *)
Lemma session_admits random32 ttl d sid s k :
  ad_sessions d !! sid = Some s -> se_hash s = sha256_hex (generateSessionToken random32) -> se_revokedAt s = None ->
  ad_now d < se_expiresAt s -> ad_api_keys d !! se_apiKeyId s = Some k -> key_active k = true ->
  exists keyId userId d', userAuth ttl (Some ("Bearer " +:+ generateSessionToken random32)) d =
    Ok (Some (keyId, userId, generateSessionToken random32), d').
Proof.
  intros Hs Hh Hr Hn Hk Ha. set (token := generateSessionToken random32) in *.
  assert (extractBearer (Some ("Bearer " +:+ token)) = Some token) as Hb.
  { unfold extractBearer. change (nonempty ("Bearer " +:+ token)) with true. change (startsWith "Bearer " ("Bearer " +:+ token)) with true.
    cbn [negb]. change (drop 7 ("Bearer " +:+ token)) with token. cbv zeta. by rewrite (trim_plain token) by apply token_plain. }
  unfold userAuth. rewrite Hb. change (startsWith "sess_" token) with true. cbn [negb]. unfold lookupSession. cbn [result_bind fst snd].
  destruct (head _) as [[keyId userId]|] eqn:Hh'; [by eexists _, _, _|]. exfalso.
  apply head_None in Hh'. assert ((se_apiKeyId s, ak_userId k) ∈ ([] : list (string * string))) as Hin; [|by apply elem_of_nil in Hin].
  rewrite <- Hh'. apply list_elem_of_omap. exists s. rewrite Hk, Ha. split; [|done]. apply elem_of_rows_where. split; [|by exists sid].
  unfold session_live. rewrite Hh, Hr. apply andb_true_iff. split; [by rewrite bool_decide_true|by apply Z.ltb_lt].
Qed.

Lemma login_codes body w reply w' :
  post_login config ip body w = (Ok reply, w') -> ry_code reply ∈ [200; 400; 401; 429].
Proof.
  unfold post_login. rewrite mbind_Ok. intros (ok & w1 & _ & H).
  destruct (negb ok); [injection H as <- _; set_solver|]. destruct (bounded_string _ _ _); [|injection H as <- _; set_solver].
  destruct (negb _); [injection H as <- _; set_solver|].
  apply mbind_Ok in H as (rec & w2 & _ & H). destruct rec; [|injection H as <- _; set_solver].
  apply mbind_Ok in H as (pf & w3 & _ & H). destruct pf; [|injection H as <- _; set_solver].
  case_bool_decide; [injection H as <- _; set_solver|]. apply mbind_Ok in H as (se & w4 & _ & H). injection H as <- _. set_solver.
Qed.

#[local] Abbreviation portal := (login portal_server API_BASE number_text).

(** A login of the portal that succeeds is a login the gateway answered with 200. *)
Lemma login_answered apiKey p body p' :
  parse_body (login_request apiKey) = Ok (login_body apiKey) ->
  portal apiKey p = (Ok body, p') ->
  exists reply w' token, post_login config ip (login_body apiKey) (pg_server p) = (Ok reply, w') /\ ry_code reply = 200 /\
    json_parse (stringify (ry_body reply)) = Some body /\ stored_text number_text body "session_token" = Ok token /\
    pg_server p' = w' /\ pg_storage p' !! KEYS_session = Some token /\ pg_storage p' !! KEYS_apiKey = Some apiKey.
Proof.
  intros Hb. unfold login. rewrite mbind_Ok. intros (j & p1 & Hf & H).
  pose proof (fetchJson_effect portal_server API_BASE number_text _ _ _ _ _ Hf) as (_ & Hs & _).
  cbn [in_method in_headers in_body or_default] in Hs. fold (login_body apiKey) in Hs. fold (login_request apiKey) in Hs.
  unfold fetchJson, fetch_ in Hf. cbn [in_method in_headers in_body or_default] in Hf. fold (login_body apiKey) in Hf.
  fold (login_request apiKey) in Hf. unfold mbind_ at 1 in Hf. rewrite portal_server_login in Hf, Hs by done.
  destruct (post_login config ip (login_body apiKey) (pg_server p)) as [[reply|e] w'] eqn:El; cbn in Hs.
  - pose proof (login_codes _ _ _ _ El) as Hc. rewrite !elem_of_cons, elem_of_nil in Hc.
    destruct Hc as [Hc|[Hc|[Hc|[Hc|[]]]]]; cbn in Hf; rewrite Hc in Hf; cbn in Hf.
    + unfold mbind_, mlift, res_body, res_json in Hf. cbn [answer_of ws_contentType ws_text ws_status or_default] in Hf.
      change (includes_text _ _) with true in Hf. cbv iota in Hf.
      destruct (json_parse (stringify (ry_body reply))) as [j'|] eqn:Ej; [|done]. cbn in Hf. injection Hf as <- <-.
      apply mbind_Ok in H as (token & p2 & Ht & H). unfold mlift in Ht. injection Ht as Ht <-.
      injection H as <- <-. exists reply, w', token. split_and!; try done; cbn; by simplify_map_eq.
    + unfold mbind_, mlift in Hf. destruct (res_body _); [|done]. discriminate Hf.
    + discriminate Hf.
    + unfold mbind_, mlift in Hf. destruct (res_body _); [|done]. discriminate Hf.
  - cbn in Hf. unfold mbind_, mlift in Hf. destruct (res_body _); [|done]. discriminate Hf.
Qed.

(** C21: a login in the portal opens the portal.  Against the gateway's account routes,
    with a server that reads the body the portal sent and an answer that survives its
    JSON text: when the login of the portal succeeds, the key that was typed is, by its
    hash, an active key of a vetted user; the portal has stored that key and the token
    of a new session of it; and as long as the session has not expired and the key is
    active, the request for the profile that the portal makes next is let in. *)
Theorem portal_login_opens_the_portal apiKey p body p' :
  accounts_wf (aw_db (pg_server p)) ->
  parse_body (login_request apiKey) = Ok (login_body apiKey) ->
  (forall reply w', post_login config ip (login_body apiKey) (pg_server p) = (Ok reply, w') ->
     json_parse (stringify (ry_body reply)) = Some (ry_body reply)) ->
  portal apiKey p = (Ok body, p') ->
  exists token d k sid s,
    rtc account_step (aw_db (pg_server p)) d /\ ad_api_keys d !! se_apiKeyId s = Some k /\ key_active k = true /\
    vetted d (ak_userId k) /\ ak_hash k ∈ apiKeyHashCandidates (trim apiKey) (cf_apiKeyPepper config) /\
    pg_storage p' !! KEYS_session = Some token /\ pg_storage p' !! KEYS_apiKey = Some apiKey /\
    ad_sessions (aw_db (pg_server p')) !! sid = Some s /\ se_hash s = sha256_hex token /\
    (ad_now (aw_db (pg_server p')) < se_expiresAt s ->
     (exists k', ad_api_keys (aw_db (pg_server p')) !! se_apiKeyId s = Some k' /\ key_active k' = true) ->
     exists keyId userId d', userAuth (cf_sessionTtlHours config) (op_credential FetchProfile (pg_storage p'))
       (aw_db (pg_server p')) = Ok (Some (keyId, userId, token), d')).
Proof.
  intros Hwf Hb Hjson Hlogin. destruct (login_answered apiKey p body p' Hb Hlogin) as (reply & w' & token & El & Hc & Hj & Ht & Hs & H1 & H2).
  rewrite (Hjson _ _ El) in Hj. injection Hj as <-.
  destruct (login_opens_a_session config ip _ _ _ _ Hwf El Hc)
    as (raw & token' & expires & d & k & sid & s & Hraw & Htok & _ & Hd & _ & Hk & Ha & Hv & Hh & Hsid & Hsh & Hrev & Hexp & random32 & ->).
  assert (raw = apiKey) as ->.
  { unfold login_body, bounded_string in Hraw. cbn in Hraw. rewrite bool_decide_true in Hraw by done. destruct (_ && _); [|done]. by injection Hraw. }
  assert (token = generateSessionToken random32) as ->.
  { unfold stored_text in Ht. destruct (ry_body reply); try done. cbn in Htok. rewrite Htok in Ht. by injection Ht as <-. }
  exists (generateSessionToken random32), d, k, sid, s. rewrite Hs. split_and!; try done.
  intros Hn (k' & Hk' & Ha'). cbn [op_credential]. unfold bearer_of. rewrite H1. cbn [or_default].
  by apply (session_admits random32 _ _ sid s k').
Qed.

(** A server that refuses a JSON request without a body, as Fastify documents it, runs
    neither of the two operations that send none: the key is not rotated, and a logout
    leaves its session alive. *)
Section empty_bodies.
Context (Hempty : forall rq, assoc "Content-Type" (wr_headers rq) = Some "application/json" -> wr_body rq = None ->
           exists e, parse_body rq = Err e).

Lemma empty_post_does_nothing path credential w :
  path ∈ ["/api/v1/user/rotate-key"; "/api/v1/user/logout"] ->
  portal_server (mkWebRequest "POST" (API_BASE +:+ path)
    (in_headers (json_headers credential (post_init None))) None) w =
  (Ok (answer_of 500 (ry_body (error_reply 500 "Internal server error."))), w).
Proof.
  intros Hp. unfold portal_server, portal_route.
  destruct (Hempty (mkWebRequest "POST" (API_BASE +:+ path) (in_headers (json_headers credential (post_init None))) None))
    as [e He]; [done|done|].
  rewrite !elem_of_cons, elem_of_nil in Hp. destruct Hp as [->|[->|[]]].
  - rewrite 2!at_other, at_own by done. unfold mbind_, mlift. by rewrite He.
  - rewrite 3!at_other, at_own by done. unfold mbind_, mlift. by rewrite He.
Qed.

Lemma empty_post_fails path p r p' :
  path ∈ ["/api/v1/user/rotate-key"; "/api/v1/user/logout"] ->
  userRequest portal_server API_BASE number_text path (post_init None) p = (r, p') ->
  (exists e, r = Err e) /\ pg_server p' = pg_server p.
Proof.
  intros Hp. change (userRequest portal_server API_BASE number_text path (post_init None) p) with
    (fetchJson portal_server API_BASE number_text path (json_headers (pg_storage p !! KEYS_session ?? "") (post_init None)) p).
  unfold fetchJson, fetch_, mbind_. cbn [in_method in_body post_init json_headers or_default].
  rewrite (empty_post_does_nothing path (pg_storage p !! KEYS_session ?? "") (pg_server p) Hp). cbn [ws_status answer_of Z.eqb].
  unfold mlift. destruct (res_body _); intros [= <- <-]; eauto.
Qed.
Lemma rotation_never_happens p r p' :
  rotateKey portal_server API_BASE number_text p = (r, p') -> (exists e, r = Err e) /\ pg_server p' = pg_server p.
Proof.
  unfold rotateKey. unfold mbind_ at 1. destruct (userRequest _ _ _ _ _ p) as [x p1] eqn:E.
  apply empty_post_fails in E as [[e ->] Hs]; [|set_solver]. intros [= <- <-]. eauto.
Qed.
Lemma logout_revokes_nothing p r p' : logout portal_server API_BASE number_text p = (r, p') -> pg_server p' = pg_server p.
Proof.
  unfold logout, mcatch. unfold mbind_ at 1. unfold mbind_ at 1. destruct (userRequest _ _ _ _ _ p) as [x p1] eqn:E.
  apply empty_post_fails in E as [[e ->] Hs]; [|set_solver]. by intros [= <- <-].
Qed.
End empty_bodies.
End accounts.

(** ** Witnesses *)

Definition broken_network (_ : web_request) (_ : unit) : result exn web_response * unit := (Err (PlainError "Failed to fetch"), tt).
Definition signed_in : page unit := mkPage {[KEYS_session := "sess_1"; KEYS_apiKey := "tc_1"]} [] [] tt.


(** A refused deletion leaves the credentials where they are. *)
Example refused_deletion_keeps_the_key :
  let '(r, p) := deleteAsset (fun _ w => (Ok (mkWebResponse 401 "Unauthorized" None ""), w)) "" "asset" signed_in in
  (r, pg_storage p !! KEYS_apiKey) = (Err (PlainError "Delete failed: 401"), Some "tc_1").
Proof. vm_compute. reflexivity. Qed.

Definition customer_answer : json := Eval vm_compute in
  match post_login (Env := one_customer) one_config "10.0.0.1" customer_login customer_world with
  | (Ok r, _) => ry_body r | _ => JNull
  end.
(** The JSON texts of this exchange have names. *)
Definition portal_platform : Platform := {|
  is_url := @is_url routes_platform; is_uuid := @is_uuid routes_platform; new_URL := @new_URL routes_platform;
  stringify := fun j => match j with JObj (("session_token", _) :: _) => "answer" | _ => "login" end;
  json_parse := fun s => if s ==? "answer" then Some customer_answer else Some (login_body "tc_2");
  base64_text := @base64_text routes_platform; sha256_hex := @sha256_hex routes_platform; date_parse := @date_parse routes_platform;
  toISOString := @toISOString routes_platform; headers_valid := @headers_valid routes_platform;
  caller_publicKey := @caller_publicKey routes_platform; signAuthorization := @signAuthorization routes_platform
|}.
#[local, refine] Instance portal_customer : AccountsEnv (Plat := portal_platform) := {|
  acc_others := fun _ d => d;
  draw_id := @draw_id routes_platform one_customer;
  draw_bytes := @draw_bytes routes_platform one_customer;
  gateway_clock := @gateway_clock routes_platform one_customer;
  send_email := @send_email routes_platform one_customer;
  is_email := @is_email routes_platform one_customer;
  first_issue := @first_issue routes_platform one_customer
|}.
Proof. intros. apply rtc_refl. Defined.
Definition portal_parse (rq : web_request) : result exn json :=
  match wr_body rq with Some _ => Ok (login_body "tc_2") | None => Err (PlainError "FST_ERR_CTP_EMPTY_JSON_BODY") end.
Definition fresh_page : page aworld := mkPage ∅ [] [] customer_world.
#[local] Abbreviation portal_login :=
  (login (Plat := portal_platform) (portal_server (Env := portal_customer) one_config "" "10.0.0.1" portal_parse) "" (fun _ => "")).

Lemma portal_logs_in : is_ok (fst (portal_login "tc_2" fresh_page)) = true.
Proof. vm_compute. reflexivity. Qed.
Lemma customer_answered :
  match post_login (Env := portal_customer) one_config "10.0.0.1" (login_body "tc_2") customer_world with
  | (Ok r, _) => ry_body r = customer_answer | _ => False end.
Proof. vm_compute. reflexivity. Qed.

Lemma portal_login_opens_the_portal_witness :
  exists body p' token, portal_login "tc_2" fresh_page = (Ok body, p') /\ pg_storage p' !! KEYS_session = Some token /\
    pg_storage p' !! KEYS_apiKey = Some "tc_2".
Proof.
  pose proof portal_logs_in as H. destruct (portal_login "tc_2" fresh_page) as [[body|e] p'] eqn:E; [|discriminate H].
  destruct (portal_login_opens_the_portal (Env := portal_customer) one_config "" "10.0.0.1" (fun _ => "") portal_parse "tc_2"
    fresh_page body p' customer_world_wf eq_refl) as (token & d & k & sid & s & _ & _ & _ & _ & _ & H1 & H2 & _).
  - intros reply w' Hl. pose proof customer_answered as Ha. change (pg_server fresh_page) with customer_world in Hl.
    rewrite Hl in Ha. rewrite Ha. reflexivity.
  - exact E.
  - exists body, p', token. split; [reflexivity|]. split; [exact H1|exact H2].
Defined.
