(* ===== verification/AdminPages.v ===== *)
(** * The administration page and the public site (admin/lib, site/lib)

    The administrator's token is kept in the tab's session storage and sent with every
    call; the public site sends no credential. *)

From S2P Require Import Prelude Js Types Http Database Accounts AccountsSpec AuthRoutes AuthRoutesSpec Browser Portal PortalSpec.
Open Scope Z_scope.

(** ** admin/lib/session.js *)

Definition ADMIN_KEY : string := "lmt-admin-token".

Section admin.
Context `{Plat : Platform} {Srv : Type} (server : web_request -> Srv -> result exn web_response * Srv).
Context (API_BASE : string) (number_text : jsnum -> string).
#[local] Abbreviation P := (P_ Srv).

Definition getAdminToken : P string := do! t <- getItem ADMIN_KEY; mret_ (t ?? "").
Definition setAdminToken (token : string) : P unit := setItem ADMIN_KEY token.
Definition clearAdminToken : P unit := removeItem ADMIN_KEY.
Definition hasAdminToken : P bool := do! t <- getAdminToken; mret_ (nonempty t).

(** ** admin/lib/api.js *)

Definition admin_failure (res : web_response) (body : json) : string :=
  match message_of body with Some m => js_String number_text m | None => string_of_Z (ws_status res) end.

Definition adminRequest (path : string) (init : request_init) : P json :=
  do! token <- getAdminToken;
  do! res <- fetch_ server (mkWebRequest (in_method init ?? "GET") (API_BASE +:+ path)
                              (in_headers (json_headers token init)) (in_body init));
  if ws_status res =? 401 then
    run! clearAdminToken;
    run! dispatchEvent "lmt-unauthorized";
    mthrow (PlainError "Unauthorized")
  else
    do! body <- mlift (res_body res);
    if negb (res_ok res) then mthrow (PlainError (admin_failure res body)) else mret_ body.

Definition verifyAdminToken : P json := adminRequest "/api/v1/admin/waitlist/count" no_init.
Definition fetchStats : P json := adminRequest "/api/v1/admin/stats" no_init.

(** A filter that is not set is left out. *)
Definition param (k : string) (o : option string) : list (string * string) := if truthy o then [(k, o ?? "")] else [].
Definition number_param (k : string) (o : option Z) : list (string * string) :=
  match o with Some n => if n =? 0 then [] else [(k, string_of_Z n)] | None => [] end.

Definition listOperations (kind status : option string) (limit : option Z) : P json :=
  adminRequest ("/api/v1/admin/operations" +:+
    query_suffix (search_params (param "kind" kind ++ param "status" status ++ number_param "limit" limit))) no_init.

Record waitlist_opts := mkWaitlistOpts {
  wo_page : option Z;
  wo_perPage : option Z;
  wo_sort : option string;
  wo_order : option string;
  wo_search : option string;
  wo_status : option string;
  wo_verified : option bool
}.
Definition waitlist_params (o : waitlist_opts) : list (string * string) :=
  number_param "page" (wo_page o) ++ number_param "per_page" (wo_perPage o) ++ param "sort" (wo_sort o) ++
  param "order" (wo_order o) ++ param "search" (wo_search o) ++ param "status" (wo_status o) ++
  match wo_verified o with Some b => [("verified", if b then "true" else "false")] | None => [] end.
Definition listWaitlist (o : waitlist_opts) : P json :=
  adminRequest ("/api/v1/admin/waitlist?" +:+ search_params (waitlist_params o)) no_init.

Definition approveBatch (ids : list string) (sendEmails : bool) : P json :=
  adminRequest "/api/v1/admin/waitlist/approve"
    (post_init (Some (stringify (JObj [("ids", JArr (map JStr ids)); ("send_emails", JBool sendEmails)])))).
Definition rejectBatch (ids : list string) : P json :=
  adminRequest "/api/v1/admin/waitlist/reject" (post_init (Some (stringify (JObj [("ids", JArr (map JStr ids))])))).
Definition deleteOne (id : string) : P json :=
  adminRequest ("/api/v1/admin/waitlist/" +:+ encodeURIComponent id) (mkInit (Some "DELETE") [] None).
(** A link: the browser follows it without the headers of [adminRequest]. *)
Definition exportUrl : P string :=
  do! token <- getAdminToken; mret_ (API_BASE +:+ "/api/v1/admin/waitlist/export?_auth=" +:+ encodeURIComponent token).
Definition follow_link (url : string) : web_request := mkWebRequest "GET" url [] None.
Definition resendVerification (id : string) : P json :=
  adminRequest ("/api/v1/admin/waitlist/" +:+ encodeURIComponent id +:+ "/resend-verification") (post_init (Some "{}")).
Definition fetchCatalog : P json := adminRequest "/api/v1/admin/catalog" no_init.

(** ** site/lib/api.js *)

(** [body.message ||] the text; an answer that is no JSON has no message. *)
Definition site_failure (what : string) (res : web_response) : string :=
  let message := match res_json res with Ok body => message_of body | Err _ => None end in
  let fallback := what +:+ " failed: " +:+ string_of_Z (ws_status res) in
  match message with
  | Some (JStr s) => if nonempty s then s else fallback
  | Some JNull | Some (JBool false) | None => fallback
  | Some (JNum (NInt 0)) | Some (JNum NNaN) => fallback
  | Some j => js_String number_text j
  end.
Definition site_answer (what : string) (res : web_response) : result exn json :=
  if negb (res_ok res)
  then match res_json res with
       | Ok JNull => Err (PlainError "Cannot read properties of null")
       | _ => Err (PlainError (site_failure what res))
       end
  else res_json res.

Definition submitWaitlist (input : json) : P json :=
  do! res <- fetch_ server (mkWebRequest "POST" (API_BASE +:+ "/api/v1/waitlist") [("Content-Type", "application/json")]
                              (Some (stringify input)));
  mlift (site_answer "signup" res).
Definition verifyEmail (token : string) : P json :=
  do! res <- fetch_ server (mkWebRequest "GET" (API_BASE +:+ "/api/v1/waitlist/verify?token=" +:+ encodeURIComponent token) [] None);
  mlift (site_answer "verify" res).

(** ** Properties *)

(** Every call carries the token of the tab and nothing else; a refusal forgets it. *)
Lemma adminRequest_effect path method body p r p' :
  adminRequest path (mkInit method [] body) p = (r, p') ->
  exists rq, pg_sent p' = pg_sent p ++ [rq] /\ wr_url rq = API_BASE +:+ path /\
    assoc "Authorization" (wr_headers rq) = Some ("Bearer " +:+ (pg_storage p !! ADMIN_KEY ?? "")) /\
    if refused (fst (server rq (pg_server p)))
    then pg_storage p' !! ADMIN_KEY = None /\ r = Err (PlainError "Unauthorized")
    else pg_storage p' = pg_storage p.
Proof.
  unfold adminRequest, getAdminToken, getItem, mget, fetch_, mbind_, mret_. cbn [in_method in_headers in_body].
  match goal with |- context [server ?q _] => set (rq := q) end. intros H. exists rq.
  destruct (server rq (pg_server p)) as [[res|e] sv] eqn:E; cbn [fst refused].
  - destruct (ws_status res =? 401) eqn:Hs.
    + injection H as <- <-. split_and!; try done. cbn. by simplify_map_eq.
    + unfold mlift in H. destruct (res_body res) as [j|e0]; [|by injection H as <- <-].
      by destruct (negb (res_ok res)); injection H as <- <-.
  - by injection H as <- <-.
Qed.
End admin.

(** The link to the export is never let in: the check reads the header alone, and a link
    is followed without one, whatever its address says. *)
Lemma export_link_is_refused `{Env : AccountsEnv} config url w :
  get_export config (assoc "Authorization" (wr_headers (follow_link url))) w = (Ok (error_reply 401 "Unauthorized."), w).
Proof. done. Qed.
