(* ===== verification/Polling.v ===== *)
(** * Pages that refresh themselves (portal/components/portal-asset-detail.js,
    portal-live-streams.js, portal-live-detail.js, admin/components/admin-operations.js)

    Four elements of the front ends load their data when they are shown and again every
    five seconds.  An element is its fields with the timers it has set and the handlers
    that wait for an answer; events are handled one at a time, and a handler runs up to
    its next [await].  What an API call answers is a value or the message of its error;
    the calls themselves are those of [Portal] and [AdminPages]. *)

From S2P Require Import Prelude Js Types Http Browser Portal.
Open Scope Z_scope.

(** ** Elements *)

Inductive api_call : Type :=
| GetAsset (id : string)
| DeleteAsset (id : string)
| ListLiveStreams
| CreateLiveStream (input : json)
| EndLiveStream (id : string)
| GetLiveStream (id : string)
| ListOperations (kind status : string) (limit : Z).

(** [undefined] is [None]. *)
Definition answer : Type := result string (option json).

Record element (V T : Type) := mkElement {
  el_view : V;
  el_connected : bool;
  el_pollTimer : option nat;
  el_next : nat;
  el_pending : list nat;
  el_tasks : list T;
  el_calls : list api_call;
  el_toasts : list string;
  el_hash : option string
}.
Arguments mkElement {V T}.
Arguments el_view {V T}.
Arguments el_connected {V T}.
Arguments el_pollTimer {V T}.
Arguments el_next {V T}.
Arguments el_pending {V T}.
Arguments el_tasks {V T}.
Arguments el_calls {V T}.
Arguments el_toasts {V T}.
Arguments el_hash {V T}.
#[export] Instance element_eta V T : RecEta (element V T) := fun e =>
  mkElement (el_view e) (el_connected e) (el_pollTimer e) (el_next e) (el_pending e) (el_tasks e) (el_calls e)
    (el_toasts e) (el_hash e).

Section element.
Context {V T : Type}.
#[local] Abbreviation E := (element V T).

Definition constructed (v : V) : E := mkElement v false None 0 [] [] [] [] None.
Definition update_view (f : V -> V) (e : E) : E := e <| el_view := f (el_view e) |>.
Definition without (id : option nat) (l : list nat) : list nat :=
  List.filter (fun i => negb (bool_decide (Some i = id))) l.
(** [clearTimeout(this._pollTimer)] *)
Definition clear_timer (e : E) : E := e <| el_pending := without (el_pollTimer e) (el_pending e) |>.
(** [this._pollTimer = setTimeout(() => this._load(), 5000)] *)
Definition set_timer (e : E) : E :=
  e <| el_pollTimer := Some (el_next e) |> <| el_pending := el_pending e ++ [el_next e] |> <| el_next := S (el_next e) |>.
(** The call of the API with which a handler waits *)
Definition await_call (c : api_call) (t : T) (e : E) : E :=
  e <| el_tasks := el_tasks e ++ [t] |> <| el_calls := el_calls e ++ [c] |>.
Definition toast (message : string) (e : E) : E := e <| el_toasts := el_toasts e ++ [message] |>.
End element.

(** What the code of an element is: [_load] up to its [await], what a handler does with
    the answer, and what the user can do. *)
Class Element (V T U : Type) := {
  el_load : element V T -> element V T;
  el_resume : T -> answer -> element V T -> element V T;
  el_act : U -> element V T -> element V T
}.

Inductive page_event (U : Type) : Type :=
| Connect
| Disconnect
| Fires (id : nat)
| Returned (k : nat) (r : answer)
| User (u : U).
Arguments Connect {U}.
Arguments Disconnect {U}.
Arguments Fires {U}.
Arguments Returned {U}.
Arguments User {U}.

Section react.
Context `{El : Element V T U}.
Definition react_page (e : element V T) (ev : page_event U) : element V T :=
  match ev with
  | Connect => if el_connected e then e else el_load (e <| el_connected := true |>)
  | Disconnect => clear_timer (e <| el_connected := false |>)
  | Fires id =>
      if bool_decide (id ∈ el_pending e) then el_load (e <| el_pending := without (Some id) (el_pending e) |>) else e
  | Returned k r =>
      match el_tasks e !! k with
      | Some t => el_resume t r (e <| el_tasks := delete k (el_tasks e) |>)
      | None => e
      end
  | User u => if el_connected e then el_act u e else e
  end.
Definition run_page (l : list (page_event U)) (e : element V T) : element V T := foldl react_page e l.
End react.

(** ** The components *)

(** A property of a JSON value: [None] when JavaScript throws, [Some None] when it is
    [undefined]. *)
Definition property (j : option json) (k : string) : option (option json) :=
  match j with
  | None | Some JNull => None
  | Some j => Some (prop_of_body j k)
  end.
Definition is_text (o : option json) (s : string) : bool :=
  match o with Some (JStr t) => bool_decide (t = s) | _ => false end.
(** [shouldPollOperation] of a JSON value *)
Definition shouldPoll (operation : option json) : option bool :=
  match operation with
  | Some JNull => Some false
  | _ => match property operation "state" with
         | None => None
         | Some state => Some (negb (existsb (is_text state) TERMINAL))
         end
  end.
Definition null_message : string := "Cannot read properties of null".
Definition or_null (o : option json) : option json := match o with None => Some JNull | _ => o end.

Module PortalAssetDetail.
Record view := mkView { vw_id : string; vw_asset : option json; vw_loading : bool; vw_error : string }.
#[export] Instance view_eta : RecEta view := fun v => mkView (vw_id v) (vw_asset v) (vw_loading v) (vw_error v).
Inductive task : Type := Loading | Deleting.
Inductive action : Type := Delete (confirmed : bool) | SetId (id : string).
#[local] Abbreviation E := (element view task).

Definition initial (id : string) : view := mkView id (Some JNull) true "".
Definition no_asset (o : option json) : bool := match o with Some JNull => true | _ => false end.
Definition load (e : E) : E :=
  let v := el_view e in
  await_call (GetAsset (vw_id v)) Loading (e <| el_view := v <| vw_loading := no_asset (vw_asset v) |> <| vw_error := "" |> |>).
(** [this.asset?.status], [this.asset?.paid_operation ?? null] *)
Definition polls (asset : option json) : bool :=
  let get k := match property asset k with Some o => o | None => None end in
  is_text (get "status") "queued" || (shouldPoll (or_null (get "paid_operation")) ?? false).
Definition schedulePoll (e : E) : E :=
  let e := clear_timer e in if polls (vw_asset (el_view e)) then set_timer e else e.
Definition resume (t : task) (r : answer) (e : E) : E :=
  match t, r with
  | Loading, Ok a => update_view (fun v => v <| vw_loading := false |>) (schedulePoll (update_view (fun v => v <| vw_asset := a |>) e))
  | Loading, Err m => update_view (fun v => v <| vw_error := or_else m "Asset not found." |> <| vw_loading := false |>) e
  | Deleting, Ok _ => (toast "Asset deleted." e) <| el_hash := Some "#assets" |>
  | Deleting, Err m => toast (or_else m "Delete failed.") e
  end.
(** Another address of the same view gives the element another [id] and no more. *)
Definition act (u : action) (e : E) : E :=
  match u with
  | Delete confirmed => if confirmed then await_call (DeleteAsset (vw_id (el_view e))) Deleting e else e
  | SetId id => update_view (fun v => v <| vw_id := id |>) e
  end.
#[export] Instance code : Element view task action := { el_load := load; el_resume := resume; el_act := act }.
End PortalAssetDetail.

Module PortalLiveStreams.
Record view := mkView {
  vw_items : option json;
  vw_inFlight : bool;
  vw_name : string;
  vw_encodingTier : string;
  vw_error : string
}.
#[export] Instance view_eta : RecEta view := fun v =>
  mkView (vw_items v) (vw_inFlight v) (vw_name v) (vw_encodingTier v) (vw_error v).
Inductive task : Type := Loading | Creating | CreatedLoading | Ending (id : string) | EndedLoading.
Inductive action : Type := Create | End (id : string) (confirmed : bool) | SetName (name : string) | SetTier (tier : string).
#[local] Abbreviation E := (element view task).

Definition initial : view := mkView (Some (JArr [])) false "" "standard" "".
Definition load_as (t : task) (e : E) : E := await_call ListLiveStreams t e.
Definition load (e : E) : E := load_as Loading e.
Definition loaded (r : answer) (e : E) : E :=
  let e := update_view (fun v => match r with
                                 | Ok items => v <| vw_items := items |>
                                 | Err m => v <| vw_error := or_else m "Could not load streams." |>
                                 end) e in
  let e := clear_timer e in
  if el_connected e then set_timer e else e.
Definition failed (m : string) (e : E) : E :=
  update_view (fun v => v <| vw_error := or_else m "Could not create stream." |> <| vw_inFlight := false |>) e.
(** [[body, ...this.items]]; only a list is spread. *)
Definition with_created (body : option json) (items : option json) : option (option json) :=
  match items with Some (JArr l) => Some (Some (JArr (option_list body ++ l))) | _ => None end.
Definition created (body : option json) (e : E) : E :=
  match with_created body (vw_items (el_view e)) with
  | None => failed "this.items is not iterable" e
  | Some items =>
      let e := update_view (fun v => v <| vw_items := items |> <| vw_name := "" |>) e in
      match property body "status" with
      | None => failed null_message e
      | Some status =>
          load_as CreatedLoading
            (toast (if is_text status "opening" then "Stream setup is pending. It will update automatically."
                    else "Stream ready. Open its details for publishing instructions.") e)
      end
  end.
(** [s.stream_id === id ? { ...s, status: "ending" } : s] *)
Definition mark_ending (id : string) (s : json) : option json :=
  match property (Some s) "stream_id", s with
  | None, _ => None
  | Some stream_id, JObj f =>
      Some (if is_text stream_id id
            then JObj (List.filter (fun kv => negb (bool_decide (fst kv = "status"))) f ++ [("status", JStr "ending")])
            else s)
  | Some _, _ => Some s
  end.
Definition ended (id : string) (e : E) : E :=
  match vw_items (el_view e) with
  | Some (JArr l) =>
      match mapM (mark_ending id) l with
      | None => toast null_message e
      | Some l =>
          load_as EndedLoading (toast "Ending stream. Waiting for the network to confirm closure."
                                  (update_view (fun v => v <| vw_items := Some (JArr l) |>) e))
      end
  | _ => toast "this.items.map is not a function" e
  end.
Definition resume (t : task) (r : answer) (e : E) : E :=
  match t, r with
  | Loading, _ | EndedLoading, _ => loaded r e
  | CreatedLoading, _ => update_view (fun v => v <| vw_inFlight := false |>) (loaded r e)
  | Creating, Ok body => created body e
  | Creating, Err m => failed m e
  | Ending id, Ok _ => ended id e
  | Ending id, Err m => toast (or_else m "End failed.") e
  end.
Definition create_input (v : view) : json :=
  JObj ((if nonempty (vw_name v) then [("name", JStr (vw_name v))] else []) ++ [("encoding_tier", JStr (vw_encodingTier v))]).
Definition act (u : action) (e : E) : E :=
  match u with
  | Create =>
      if vw_inFlight (el_view e) then e
      else await_call (CreateLiveStream (create_input (el_view e))) Creating
             (update_view (fun v => v <| vw_inFlight := true |> <| vw_error := "" |>) e)
  | End id confirmed => if confirmed then await_call (EndLiveStream id) (Ending id) e else e
  | SetName name => update_view (fun v => v <| vw_name := name |>) e
  | SetTier tier => update_view (fun v => v <| vw_encodingTier := tier |>) e
  end.
#[export] Instance code : Element view task action := { el_load := load; el_resume := resume; el_act := act }.
End PortalLiveStreams.

Module PortalLiveDetail.
Record view := mkView { vw_id : string; vw_stream : option json; vw_loading : bool; vw_error : string }.
#[export] Instance view_eta : RecEta view := fun v => mkView (vw_id v) (vw_stream v) (vw_loading v) (vw_error v).
#[local] Abbreviation E := (element view unit).

Definition initial (id : string) : view := mkView id (Some JNull) true "".
Definition load (e : E) : E := await_call (GetLiveStream (vw_id (el_view e))) tt e.
Definition failed (m : string) (e : E) : E :=
  let e := update_view (fun v => v <| vw_error := or_else m "Could not refresh stream." |>) e in
  if el_connected e then set_timer e else e.
(** [this.stream.status !== "ended" && shouldPollOperation(this.stream.paid_operation)] *)
Definition polls (stream : option json) : option bool :=
  match property stream "status" with
  | None => None
  | Some status =>
      if is_text status "ended" then Some false
      else match property stream "paid_operation" with Some o => shouldPoll o | None => None end
  end.
Definition loaded (stream : option json) (e : E) : E :=
  let e := clear_timer (update_view (fun v => v <| vw_stream := stream |> <| vw_error := "" |>) e) in
  if el_connected e then
    match polls stream with
    | Some true => set_timer e
    | Some false => e
    | None => failed null_message e
    end
  else e.
Definition resume (_ : unit) (r : answer) (e : E) : E :=
  update_view (fun v => v <| vw_loading := false |>) (match r with Ok s => loaded s e | Err m => failed m e end).
Definition act (id : string) (e : E) : E := update_view (fun v => v <| vw_id := id |>) e.
#[export] Instance code : Element view unit string := { el_load := load; el_resume := resume; el_act := act }.
End PortalLiveDetail.

Module AdminOperations.
Record view := mkView {
  vw_items : option json;
  vw_loading : bool;
  vw_error : string;
  vw_kind : string;
  vw_status : string
}.
#[export] Instance view_eta : RecEta view := fun v => mkView (vw_items v) (vw_loading v) (vw_error v) (vw_kind v) (vw_status v).
Inductive action : Type := SetKind (kind : string) | SetStatus (status : string).
#[local] Abbreviation E := (element view unit).

Definition initial : view := mkView (Some (JArr [])) true "" "" "".
Definition load (e : E) : E :=
  let e := clear_timer e in await_call (ListOperations (vw_kind (el_view e)) (vw_status (el_view e)) 100) tt e.
Definition resume (_ : unit) (r : answer) (e : E) : E :=
  let e := update_view (fun v =>
    match (match r with Ok result => match property result "items" with Some i => Ok i | None => Err null_message end
                      | Err m => Err m end) with
    | Ok items => v <| vw_items := items |> <| vw_error := "" |>
    | Err m => v <| vw_error := or_else m "Could not load operations." |>
    end) e in
  set_timer (update_view (fun v => v <| vw_loading := false |>) e).
(** The status is trimmed by its handler. *)
Definition act (u : action) (e : E) : E :=
  load (update_view (fun v => match u with
                              | SetKind kind => v <| vw_kind := kind |>
                              | SetStatus status => v <| vw_status := trim status |>
                              end) e).
#[export] Instance code : Element view unit action := { el_load := load; el_resume := resume; el_act := act }.
End AdminOperations.

#[export] Existing Instances PortalAssetDetail.code PortalLiveStreams.code PortalLiveDetail.code AdminOperations.code.

(** The function of paid-operation-view.js, on the operations it is written for. *)
Lemma shouldPoll_operation f v :
  assoc "state" f = Some (JStr (ov_state v)) -> shouldPoll (Some (JObj f)) = Some (shouldPollOperation (Some v)).
Proof.
  intros H. cbn [shouldPoll property prop_of_body]. rewrite H. f_equal. unfold shouldPollOperation. f_equal.
  generalize TERMINAL as l. induction l as [|s l IH]; [done|]. cbn [existsb is_text]. rewrite IH.
  rewrite (bool_decide_ext _ _ (elem_of_cons l (ov_state v) s)), bool_decide_or. done.
Qed.

(** ** Polling ends with the page *)

Lemma without_self id : without (Some id) [id] = [].
Proof. cbn. by rewrite bool_decide_true. Qed.

Section polling.
Context {V T : Type}.
Implicit Types (e : element V T).

(** At most one timer is set, the one the element remembers. *)
Definition one_timer e : Prop := el_pending e = [] \/ exists id, el_pollTimer e = Some id /\ el_pending e = [id].

Lemma clear_none e : one_timer e -> el_pending (clear_timer e) = [].
Proof.
  intros [H|(id & H1 & H2)]; unfold clear_timer; cbn; [by rewrite H|]. rewrite H1, H2. apply without_self.
Qed.
Lemma set_one e : el_pending e = [] -> one_timer (set_timer e).
Proof. intros H. right. exists (el_next e). cbn. by rewrite H. Qed.
Lemma fired_none id e : one_timer e -> id ∈ el_pending e -> without (Some id) (el_pending e) = [].
Proof.
  intros [H|(i & _ & H)]; rewrite H; intros Hid; [set_solver|]. apply list_elem_of_singleton in Hid as ->. apply without_self.
Qed.
End polling.

Definition total (l : list nat) : nat := foldr Nat.add 0%nat l.
Lemma total_app l1 l2 : total (l1 ++ l2) = (total l1 + total l2)%nat.
Proof. induction l1 as [|x l IH]; [done|]. unfold total in *. cbn. lia. Qed.
Lemma total_delete {A} (f : A -> nat) (l : list A) k x :
  l !! k = Some x -> (total (map f l) = f x + total (map f (delete k l)))%nat.
Proof.
  revert k. induction l as [|y l IH]; intros [|k] H; [done..| |].
  - by injection H as ->.
  - cbn in H. change (f y + total (map f l) = f x + (f y + total (map f (delete k l))))%nat. rewrite (IH k) by done. lia.
Qed.

(** What an element owes to the rest of the page: while it is shown one timer at most is
    set, and it refreshes itself until it has nothing to wait for; once it is gone, a
    handler sets no timer, and makes no more calls than [el_cost] says. *)
Class Courteous (V T U : Type) `{El : Element V T U} := {
  el_ok : element V T -> Prop;
  el_finished : V -> bool;
  el_loads : T -> bool;
  el_cost : T -> nat;
  ok_connect v : let e := el_load ((constructed v) <| el_connected := true |>) in el_ok e /\ el_connected e = true;
  ok_react e ev : el_ok e -> el_connected e = true -> ev <> Connect -> ev <> Disconnect ->
    el_ok (react_page e ev) /\ el_connected (react_page e ev) = true;
  ok_timer e : el_ok e -> one_timer e;
  ok_alive e : el_ok e -> el_connected e = true ->
    el_pending e <> [] \/ Exists (fun t => el_loads t = true) (el_tasks e) \/ el_finished (el_view e) = true;
  left_resume t r e : el_connected e = false -> el_pending e = [] ->
    let e' := el_resume t r e in
    el_connected e' = false /\ el_pending e' = [] /\
    exists ts cs, el_tasks e' = el_tasks e ++ ts /\ el_calls e' = el_calls e ++ cs /\
      (length cs + total (map el_cost ts) <= el_cost t)%nat
}.

Section visits.
Context `{Courteous V T U}.
Implicit Types (e : element V T) (l : list (page_event U)).

Definition while_shown (ev : page_event U) : bool := match ev with Connect | Disconnect => false | _ => true end.
Definition once_left (ev : page_event U) : bool := match ev with Connect => false | _ => true end.

Lemma shown_ok l : forall e, el_ok e -> el_connected e = true -> forallb while_shown l = true ->
  el_ok (run_page l e) /\ el_connected (run_page l e) = true.
Proof.
  induction l as [|ev l IH]; intros e Hok Hc Hl; [done|]. cbn in Hl. apply andb_prop in Hl as [Hev Hl]. cbn [run_page foldl].
  destruct (ok_react e ev Hok Hc) as [Hok' Hc']; [by intros ->..|]. by apply IH.
Qed.

Definition owed (e : element V T) : nat := (length (el_calls e) + total (map el_cost (el_tasks e)))%nat.

Lemma left_react e ev : el_connected e = false -> el_pending e = [] -> once_left ev = true ->
  let e' := react_page e ev in el_connected e' = false /\ el_pending e' = [] /\ (owed e' <= owed e)%nat.
Proof.
  intros Hc Hp Hev. destruct ev as [| |id|k r|u]; cbn [react_page]; [done| | | |].
  - unfold clear_timer. cbn. by rewrite Hp.
  - rewrite Hp, bool_decide_false by set_solver. done.
  - destruct (el_tasks e !! k) as [t|] eqn:Hk; [|done].
    set (e0 := e <| el_tasks := _ |>). destruct (left_resume t r e0 Hc Hp) as (H1 & H2 & ts & cs & Ht & Hs & Hle).
    split_and!; [exact H1|exact H2|]. unfold owed. rewrite Ht, Hs. cbn. rewrite length_app, map_app, total_app.
    rewrite (total_delete el_cost (el_tasks e) k t Hk). lia.
  - by rewrite Hc.
Qed.
Lemma left_run l : forall e, el_connected e = false -> el_pending e = [] -> forallb once_left l = true ->
  let e' := run_page l e in el_pending e' = [] /\ (owed e' <= owed e)%nat.
Proof.
  induction l as [|ev l IH]; intros e Hc Hp Hl; [done|]. cbn in Hl. apply andb_prop in Hl as [Hev Hl]. cbn [run_page foldl].
  destruct (left_react e ev Hc Hp Hev) as (Hc' & Hp' & Ho). destruct (IH _ Hc' Hp' Hl) as [H1 H2].
  split; [done|]. change (foldl react_page (react_page e ev) l) with (run_page l (react_page e ev)). lia.
Qed.

(** A visit: the page is shown, something happens, the page is left, more happens. *)
Lemma courteous_visit v shown gone :
  forallb while_shown shown = true -> forallb once_left gone = true ->
  let e1 := run_page (Connect :: shown) (constructed v) in
  let e2 := run_page (Disconnect :: gone) e1 in
  (length (el_pending e1) <= 1)%nat /\
  (el_pending e1 <> [] \/ Exists (fun t => el_loads t = true) (el_tasks e1) \/ el_finished (el_view e1) = true) /\
  el_pending e2 = [] /\ (length (el_calls e2) <= length (el_calls e1) + total (map el_cost (el_tasks e1)))%nat.
Proof.
  intros Hs Hg e1 e2.
  destruct (ok_connect v) as [Hok0 Hc0]. destruct (shown_ok shown _ Hok0 Hc0 Hs) as [Hok Hc].
  change (run_page shown _) with e1 in Hok, Hc. pose proof (ok_timer e1 Hok) as Ht.
  assert (Hp : el_pending (react_page e1 Disconnect) = []) by (apply clear_none; exact Ht).
  destruct (left_run gone (react_page e1 Disconnect)) as [H1 H2]; [done|exact Hp|done|].
  split_and!.
  - destruct Ht as [-> | (? & _ & ->)]; cbn; lia.
  - by apply ok_alive.
  - exact H1.
  - change (owed (react_page e1 Disconnect)) with (owed e1) in H2. unfold owed in H2.
    change (run_page gone (react_page e1 Disconnect)) with e2 in H2. lia.
Qed.
End visits.

(** *** The live pages *)

Definition stays_alive {V T} (loads : T -> bool) (finished : V -> bool) (e : element V T) : Prop :=
  el_pending e <> [] \/ Exists (fun t => loads t = true) (el_tasks e) \/ finished (el_view e) = true.

Section alive.
Context {V T : Type} (loads : T -> bool) (finished : V -> bool).
Implicit Types (e : element V T).

(** A step that leaves the timer alone and starts handlers only *)
Definition continues (e e' : element V T) : Prop :=
  el_connected e' = el_connected e /\ el_pending e' = el_pending e /\ el_pollTimer e' = el_pollTimer e /\
  exists ts, el_tasks e' = el_tasks e ++ ts.
Lemma continues_timer e e' : continues e e' -> one_timer e -> one_timer e'.
Proof. intros (_ & Hp & Ht & _). unfold one_timer. by rewrite Hp, Ht. Qed.
Lemma continues_alive e e' : (forall v, finished v = false) -> continues e e' -> stays_alive loads finished e -> stays_alive loads finished e'.
Proof.
  intros Hf (_ & Hp & _ & ts & Ht) [H|[H|H]]; [left; by rewrite Hp| |by rewrite Hf in H].
  right. left. rewrite Ht. apply Exists_app. by left.
Qed.

Lemma set_alive e : stays_alive loads finished (set_timer e).
Proof. left. cbn. by destruct (el_pending e). Qed.
Lemma delete_alive k t e : el_tasks e !! k = Some t -> loads t = false ->
  stays_alive loads finished e -> stays_alive loads finished (e <| el_tasks := delete k (el_tasks e) |>).
Proof.
  intros Hk Ht [H|[H|H]]; [by left| |by right; right]. right. left. cbn. apply Exists_exists in H as (x & Hx & Hl).
  apply list_elem_of_lookup in Hx as [i Hi]. apply Exists_exists. exists x. split; [|done]. apply list_elem_of_lookup.
  destruct (decide (i < k)%nat); [exists i; by rewrite list_lookup_delete_lt|].
  destruct (decide (i = k)) as [->|]; [rewrite Hk in Hi; injection Hi as ->; by rewrite Ht in Hl|].
  exists (pred i). rewrite list_lookup_delete_ge by lia. by replace (S (pred i)) with i by lia.
Qed.
Lemma await_alive c t e : loads t = true -> stays_alive loads finished (await_call c t e).
Proof. intros H. right. left. cbn. apply Exists_app. right. by constructor. Qed.
End alive.

Module LiveStreamsPage.
Import PortalLiveStreams.
Definition loads (t : task) : bool := match t with Loading | CreatedLoading | EndedLoading => true | _ => false end.
Definition cost (t : task) : nat := match t with Creating | Ending _ => 1 | _ => 0 end.
Definition never (v : view) : bool := false.
Definition ok (e : element view task) : Prop := one_timer e /\ stays_alive loads never e.

Lemma loaded_ok r e : el_connected e = true -> one_timer e -> ok (loaded r e) /\ el_connected (loaded r e) = true.
Proof.
  intros Hc Ht. unfold loaded. set (e1 := update_view _ e). assert (H1 : el_connected (clear_timer e1) = true) by done.
  rewrite H1. split; [split|done]; [|apply set_alive]. apply set_one, clear_none. exact Ht.
Qed.

Ltac continues_now := repeat split; try done; cbn; (exists []; by rewrite app_nil_r) || eexists; reflexivity.
Lemma created_continues body e : continues e (created body e).
Proof.
  unfold created. destruct (with_created _ _); [|continues_now]. destruct (property body "status"); continues_now.
Qed.
Lemma ended_continues id e : continues e (ended id e).
Proof.
  unfold ended. destruct (vw_items (el_view e)) as [[]|]; try continues_now. destruct (mapM _ _); continues_now.
Qed.
Lemma resume_continues t r e : loads t = false -> continues e (resume t r e).
Proof.
  intros H. destruct t, r; try done; cbn [resume]; try (apply created_continues || apply ended_continues); continues_now.
Qed.
Lemma act_continues u e : continues e (act u e).
Proof. destruct u as [|id []|name|tier]; cbn [act]; [destruct (vw_inFlight (el_view e))|..]; continues_now. Qed.
Lemma continues_ok e e' : continues e e' -> ok e -> ok e' /\ el_connected e' = el_connected e.
Proof.
  intros H [Ht Ha]. split; [split|by destruct H]; [by eapply continues_timer|by eapply continues_alive].
Qed.

Lemma react_ok e ev : ok e -> el_connected e = true -> ev <> Connect -> ev <> Disconnect ->
  ok (react_page e ev) /\ el_connected (react_page e ev) = true.
Proof.
  intros Hok Hc H1 H2. destruct ev as [| |id|k r|u]; [done..| | |].
  - unfold react_page. case_bool_decide as Hid; [|done]. destruct Hok as [Ht _]. split; [split|done].
    + left. cbn. by apply fired_none.
    + by apply await_alive.
  - unfold react_page. destruct (el_tasks e !! k) as [t|] eqn:Hk; [|done]. destruct Hok as [Ht Ha].
    set (e0 := e <| el_tasks := _ |>). destruct (loads t) eqn:Hl.
    + assert (Hr : el_resume t r e0 = loaded r e0 \/
                   el_resume t r e0 = update_view (fun v => v <| vw_inFlight := false |>) (loaded r e0))
        by (destruct t, r; try done; by (left + right)).
      destruct (loaded_ok r e0 Hc Ht) as [Hok' Hc']. destruct Hr as [-> | ->]; [done|]. split; [exact Hok'|exact Hc'].
    + assert (H0 : ok e0) by (split; [exact Ht|by eapply delete_alive]).
      destruct (continues_ok _ _ (resume_continues t r e0 Hl) H0) as [? Hc']. split; [done|]. by rewrite <- Hc.
  - cbn [react_page]. rewrite Hc. destruct (continues_ok _ _ (act_continues u e) Hok) as [? Hc']. split; [done|].
    by rewrite <- Hc.
Qed.

Lemma resume_left t r e : el_connected e = false -> el_pending e = [] ->
  let e' := resume t r e in
  el_connected e' = false /\ el_pending e' = [] /\
  exists ts cs, el_tasks e' = el_tasks e ++ ts /\ el_calls e' = el_calls e ++ cs /\
    (length cs + total (map cost ts) <= cost t)%nat.
Proof.
  intros Hc Hp.
  assert (Hl : let e' := loaded r e in el_connected e' = false /\ el_pending e' = [] /\
                 el_tasks e' = el_tasks e /\ el_calls e' = el_calls e).
  { unfold loaded. set (e1 := update_view _ e). assert (H1 : el_connected (clear_timer e1) = false) by done.
    rewrite H1. cbn. by rewrite Hp. }
  assert (Hq : forall e' : element view task, el_connected e' = false -> el_pending e' = [] -> el_tasks e' = el_tasks e -> el_calls e' = el_calls e ->
                 el_connected e' = false /\ el_pending e' = [] /\ exists ts cs, el_tasks e' = el_tasks e ++ ts /\
                   el_calls e' = el_calls e ++ cs /\ (length cs + total (map cost ts) <= cost t)%nat).
  { intros e' H1 H2 H3 H4. split_and!; [done..|]. exists [], []. rewrite !app_nil_r. split_and!; [done..|]. cbn. lia. }
  destruct t; cbn [resume]; try (apply Hq; by destruct Hl as (? & ? & ? & ?)).
  - destruct r as [body|m]; [|by apply Hq]. unfold created. destruct (with_created _ _); [|by apply Hq].
    destruct (property body "status"); [|by apply Hq]. split_and!; [done..|]. exists [CreatedLoading], [ListLiveStreams].
    split_and!; [done..|]. cbn. lia.
  - destruct r as [body|m]; [|by apply Hq]. unfold ended. destruct (vw_items (el_view e)) as [[]|]; try by apply Hq.
    destruct (mapM _ _); [|by apply Hq]. split_and!; [done..|]. exists [EndedLoading], [ListLiveStreams].
    split_and!; [done..|]. cbn. lia.
Qed.
#[export] Instance courteous : Courteous view task action.
Proof.
  refine {| el_ok := ok; el_finished := never; el_loads := loads; el_cost := cost |}.
  - intros v. split; [split|done]; [by left|by apply await_alive].
  - apply react_ok.
  - by intros e [].
  - by intros e [].
  - apply resume_left.
Defined.
End LiveStreamsPage.

Module LiveDetailPage.
Import PortalLiveDetail.
(** Nothing more to wait for: the last answer says that the stream has ended or its
    operation is over. *)
Definition finished (v : view) : bool := bool_decide (polls (vw_stream v) = Some false) && bool_decide (vw_error v = "").
Definition loads (_ : unit) : bool := true.
Definition ok (e : element view unit) : Prop :=
  one_timer e /\ stays_alive loads finished e /\ (length (el_tasks e) + length (el_pending e) <= 1)%nat.

Lemma detail_resume_ok r e : el_connected e = true -> el_tasks e = [] -> el_pending e = [] ->
  ok (resume tt r e) /\ el_connected (resume tt r e) = true.
Proof.
  intros Hc Ht Hp.
  assert (Hs : forall e' : element view unit, el_connected e' = true -> el_tasks e' = [] -> el_pending e' = [] ->
    let e2 := update_view (fun v => v <| vw_loading := false |>) (set_timer e') in ok e2 /\ el_connected e2 = true).
  { intros e' H1 H2 H3. split; [|done]. split_and!; [exact (set_one e' H3)|exact (set_alive loads finished e')|].
    cbn. rewrite H2, H3. cbn. lia. }
  unfold resume. destruct r as [s|m].
  - unfold loaded. set (e1 := update_view _ e). assert (Hp1 : el_pending (clear_timer e1) = []) by (cbn; by rewrite Hp).
    assert (H1 : el_connected (clear_timer e1) = true) by done. rewrite H1. destruct (polls s) as [[]|] eqn:Hpoll.
    + by apply Hs.
    + split; [|done]. split_and!; [left; exact Hp1| |].
      * right. right. apply andb_true_intro. split; apply bool_decide_eq_true; [exact Hpoll|reflexivity].
      * cbn. rewrite Ht, Hp. cbn. lia.
    + unfold failed. set (e2 := update_view _ (clear_timer e1)). assert (H2 : el_connected e2 = true) by done. rewrite H2.
      by apply Hs.
  - unfold failed. set (e2 := update_view _ e). assert (H2 : el_connected e2 = true) by done. rewrite H2. by apply Hs.
Qed.

Lemma detail_react_ok e ev : ok e -> el_connected e = true -> ev <> Connect -> ev <> Disconnect ->
  ok (react_page e ev) /\ el_connected (react_page e ev) = true.
Proof.
  intros (Ht & Ha & Hn) Hc H1 H2. destruct ev as [| |id|k r|u]; [done..| | |].
  - unfold react_page. case_bool_decide as Hid; [|by split]. pose proof (fired_none id e Ht Hid) as Hf.
    split; [|done]. split_and!; [by left|by apply await_alive|]. cbn. rewrite Hf.
    destruct (el_pending e); [set_solver|]. destruct (el_tasks e); cbn in *; lia.
  - unfold react_page. destruct (el_tasks e !! k) as [[]|] eqn:Hk; [|by split].
    destruct (el_tasks e) as [|[] [|]] eqn:Htasks; [done| |cbn in Hn; lia]. destruct k; [|done].
    apply detail_resume_ok; [done..|]. cbn in Hn |- *. by destruct (el_pending e); [|cbn in Hn; lia].
  - cbn [react_page]. rewrite Hc. split; [|done]. split_and!; [exact Ht| |exact Hn]. exact Ha.
Qed.
Lemma detail_left r e : el_connected e = false -> el_pending e = [] ->
  let e' := resume tt r e in
  el_connected e' = false /\ el_pending e' = [] /\ el_tasks e' = el_tasks e /\ el_calls e' = el_calls e.
Proof.
  intros Hc Hp. unfold resume. destruct r as [s|m].
  - unfold loaded. set (e1 := update_view _ e). assert (H1 : el_connected (clear_timer e1) = false) by done. rewrite H1.
    cbn. by rewrite Hp.
  - unfold failed. set (e2 := update_view _ e). assert (H2 : el_connected e2 = false) by done. rewrite H2. done.
Qed.
#[export] Instance courteous : Courteous view unit string.
Proof.
  refine {| el_ok := ok; el_finished := finished; el_loads := loads; el_cost := fun _ => 0%nat |}.
  - intros v. split; [|done]. split_and!; [by left|by apply await_alive|cbn; lia].
  - apply detail_react_ok.
  - by intros e [].
  - by intros e (_ & ? & _).
  - intros [] r e Hc Hp. destruct (detail_left r e Hc Hp) as (H1 & H2 & H3 & H4). split_and!; [exact H1|exact H2|].
    exists [], []. rewrite !app_nil_r. split_and!; [exact H3|exact H4|cbn; lia].
Defined.
End LiveDetailPage.
#[export] Existing Instances LiveStreamsPage.courteous LiveDetailPage.courteous.

(** The live pages refresh themselves while they are shown, and stop when they are
    left.  Whatever the gateway answers, whatever the user does and in whatever order
    answers and timers come: a shown page has one timer at most, and a refresh of it is
    always under way or scheduled, except on the page of one stream whose last answer
    said that it is over.  Once the page is left no timer is set any more, and the only
    further calls are one reading of the list for each stream that was just being created
    or ended. *)
Lemma live_pages_poll_while_shown :
  (forall v (shown gone : list (page_event PortalLiveStreams.action)),
    forallb while_shown shown = true -> forallb once_left gone = true ->
    let e1 := run_page (Connect :: shown) (@constructed PortalLiveStreams.view PortalLiveStreams.task v) in
    let e2 := run_page (Disconnect :: gone) e1 in
    (length (el_pending e1) <= 1)%nat /\
    (el_pending e1 <> [] \/ Exists (fun t => LiveStreamsPage.loads t = true) (el_tasks e1)) /\
    el_pending e2 = [] /\
    (length (el_calls e2) <= length (el_calls e1) + total (map LiveStreamsPage.cost (el_tasks e1)))%nat) /\
  (forall v (shown gone : list (page_event string)), forallb while_shown shown = true -> forallb once_left gone = true ->
    let e1 := run_page (Connect :: shown) (@constructed PortalLiveDetail.view unit v) in
    let e2 := run_page (Disconnect :: gone) e1 in
    (length (el_pending e1) <= 1)%nat /\
    (el_pending e1 <> [] \/ el_tasks e1 <> [] \/ PortalLiveDetail.polls (PortalLiveDetail.vw_stream (el_view e1)) = Some false) /\
    el_pending e2 = [] /\ (length (el_calls e2) <= length (el_calls e1))%nat).
Proof.
  split; intros v shown gone Hs Hg e1 e2.
  - destruct (courteous_visit v shown gone Hs Hg) as (H1 & [H2|[H2|H2]] & H3 & H4); [| |done]; split_and!; auto.
  - destruct (courteous_visit v shown gone Hs Hg) as (H1 & H2 & H3 & H4). split_and!; [exact H1| |exact H3|].
    + destruct H2 as [H2|[H2|H2]]; [by left| |].
      * right. left. intros H. apply Exists_exists in H2 as (t & Ht & _). fold e1 in Ht. rewrite H in Ht. set_solver.
      * right. right. apply andb_prop in H2 as [H2 _]. by apply bool_decide_eq_true in H2.
    + assert (Hz : total (map el_cost (el_tasks e1)) = 0%nat) by (generalize (el_tasks e1) as l; by induction l).
      fold e1 e2 in H4. rewrite Hz in H4. lia.
Qed.

(** Two visits: a stream is created while the list refreshes, and the page is left before
    the gateway has answered. *)
Definition live_visit : list (page_event PortalLiveStreams.action) :=
  [Returned 0 (Ok (Some (JArr []))); User (PortalLiveStreams.SetName "show"); User PortalLiveStreams.Create; Fires 0].
Definition live_answers : list (page_event PortalLiveStreams.action) :=
  [Returned 0 (Ok (Some (JObj [("stream_id", JStr "live_1"); ("status", JStr "opening")]))); Fires 1;
   Returned 1 (Err "Failed to fetch"); Returned 0 (Ok (Some (JArr [])))].
Definition ended_stream : json := JObj [("status", JStr "ended"); ("paid_operation", JNull)].
Example live_page_left :
  let e1 := run_page (Connect :: live_visit) (constructed PortalLiveStreams.initial) in
  let e2 := run_page (Disconnect :: live_answers) e1 in
  el_tasks e1 = [PortalLiveStreams.Creating; PortalLiveStreams.Loading] /\ el_tasks e2 = [] /\
  el_calls e2 = [ListLiveStreams; CreateLiveStream (JObj [("name", JStr "show"); ("encoding_tier", JStr "standard")]);
                 ListLiveStreams; ListLiveStreams].
Proof. by vm_compute. Qed.
Lemma live_pages_poll_while_shown_witness :
  let e1 := run_page (Connect :: live_visit) (@constructed PortalLiveStreams.view PortalLiveStreams.task PortalLiveStreams.initial) in
  let e2 := run_page (Disconnect :: live_answers) e1 in
  el_pending e2 = [] /\ (length (el_calls e2) <= length (el_calls e1) + 1)%nat /\
  let d1 := run_page [Connect; Returned 0 (Ok (Some ended_stream))] (@constructed PortalLiveDetail.view unit (PortalLiveDetail.initial "live_1")) in
  (length (el_calls (run_page [Disconnect; Fires 0%nat] d1)) <= length (el_calls d1))%nat.
Proof.
  intros e1 e2. pose proof (proj1 live_pages_poll_while_shown PortalLiveStreams.initial live_visit live_answers) as Hl.
  pose proof (proj2 live_pages_poll_while_shown (PortalLiveDetail.initial "live_1") [Returned 0 (Ok (Some ended_stream))] [Fires 0%nat]) as Hd.
  split_and!; [exact (proj1 (proj2 (proj2 (Hl eq_refl eq_refl))))| |].
  - exact (proj2 (proj2 (proj2 (Hl eq_refl eq_refl)))).
  - exact (proj2 (proj2 (proj2 (Hd eq_refl eq_refl)))).
Defined.

(** ** Pages that poll on

    Neither of the two other elements looks whether it is still shown when its answer
    comes. *)

Section endless.
Context `{El : Element V T U} (polling : T) (again : answer -> Prop).
(** A left element whose handler waits for its data, with no timer set. *)
Definition waits (e : element V T) : Prop := el_connected e = false /\ el_tasks e = [polling] /\ el_pending e = [].
Lemma polls_on (step : forall e r, waits e -> again r ->
    let e' := react_page (react_page e (Returned 0 r)) (Fires (el_next e)) in
    waits e' /\ el_next e' = S (el_next e) /\ length (el_calls e') = S (length (el_calls e))) rs :
  Forall again rs -> forall e, waits e ->
  exists l, forallb once_left l = true /\ length (el_calls (run_page l e)) = (length (el_calls e) + length rs)%nat.
Proof.
  induction 1 as [|r rs Hr _ IH]; intros e He; [exists []; split; [done|cbn; lia]|].
  destruct (step e r He Hr) as (Hw & _ & Hc). destruct (IH _ Hw) as (l & Hl & Hn).
  exists (Returned 0 r :: Fires (el_next e) :: l). split; [done|].
  change (run_page (_ :: _ :: l) e) with (run_page l (react_page (react_page e (Returned 0 r)) (Fires (el_next e)))).
  rewrite Hn, Hc. cbn. lia.
Qed.
End endless.

(** The list of operations is left while it loads: it is loaded again for every answer,
    an error too, for as long as the page of the browser stays open. *)
Lemma operations_poll_on (rs : list answer) :
  exists l, forallb once_left l = true /\
    let left := run_page [Connect; Disconnect] (constructed AdminOperations.initial) in
    length (el_calls (run_page l left)) = S (length rs).
Proof.
  apply (polls_on tt (fun _ => True)); [|by apply Forall_true|done].
  intros [v c pt n p ts cs to h] r (Hc & Ht & Hp) _. cbn in Hc, Ht, Hp. subst c ts p.
  unfold waits. cbn. rewrite (bool_decide_true (n ∈ [n])), (bool_decide_true (Some n = Some n)) by set_solver.
  cbn. rewrite length_app. cbn. split_and!; (done || lia).
Qed.

(** The page of an asset is left while it loads: it is loaded again as long as the asset
    waits for its turn. *)
Lemma asset_page_polls_on id (rs : list answer) :
  Forall (fun r => exists a, r = Ok a /\ PortalAssetDetail.polls a = true) rs ->
  exists l, forallb once_left l = true /\
    let left := run_page [Connect; Disconnect] (constructed (PortalAssetDetail.initial id)) in
    length (el_calls (run_page l left)) = S (length rs).
Proof.
  intros Hrs. apply (polls_on PortalAssetDetail.Loading (fun r => exists a, r = Ok a /\ PortalAssetDetail.polls a = true)); [|done..].
  intros [v c pt n p ts cs to h] r (Hc & Ht & Hp) (a & -> & Ha). cbn in Hc, Ht, Hp. subst c ts p.
  unfold waits. cbn. unfold PortalAssetDetail.schedulePoll. cbn. rewrite Ha. cbn.
  rewrite (bool_decide_true (n ∈ [n])), (bool_decide_true (Some n = Some n)) by set_solver.
  cbn. rewrite length_app. cbn. split_and!; (done || lia).
Qed.

(** The address changes from one asset to another: the page goes on showing the first
    one, and its button deletes the second. *)
Example other_asset_is_deleted :
  let shown := JObj [("asset_id", JStr "asset_1"); ("status", JStr "ready")] in
  let e := run_page [Connect; Returned 0 (Ok (Some shown)); User (PortalAssetDetail.SetId "asset_2"); User (PortalAssetDetail.Delete true)]
             (constructed (PortalAssetDetail.initial "asset_1")) in
  PortalAssetDetail.vw_asset (el_view e) = Some shown /\ el_calls e = [GetAsset "asset_1"; DeleteAsset "asset_2"].
Proof. by vm_compute. Qed.
