(* ===== verification/Shell.v ===== *)
(** * The shells of the front ends (portal/components/portal-app.js, portal-login.js,
    admin/components/admin-app.js, admin-login.js)

    The portal shows its login or one of its pages; what it shows depends on its own
    [authenticated] flag, which events of the window change, and not on the storage.  The
    operations of the pages are those of [PortalSpec]; the login form waits for its
    answer, and other events are handled meanwhile. *)

From S2P Require Import Prelude Js Types Http Database Browser Portal PortalSpec AdminPages.
Open Scope Z_scope.

(** ** portal-app.js *)

Record PortalApp := mkApp {
  pa_authenticated : bool;
  pa_menuOpen : bool;
  pa_view : string;
  pa_param : option string;
  pa_hash : string
}.
#[export] Instance PortalApp_eta : RecEta PortalApp := fun a =>
  mkApp (pa_authenticated a) (pa_menuOpen a) (pa_view a) (pa_param a) (pa_hash a).

(** The constructor, at an address whose hash is [hash]. *)
Definition app_constructed (authenticated : bool) (hash : string) : PortalApp :=
  mkApp authenticated false (fst (current hash)) (snd (current hash)) hash.
Definition onRoute (a : PortalApp) : PortalApp :=
  a <| pa_menuOpen := false |> <| pa_view := fst (current (pa_hash a)) |> <| pa_param := snd (current (pa_hash a)) |>.
Definition on_window (event : string) (a : PortalApp) : PortalApp :=
  if event ==? "lmt-unauthorized" then a <| pa_menuOpen := false |> <| pa_authenticated := false |>
  else if event ==? "lmt-authenticated" then a <| pa_authenticated := true |> <| pa_hash := "dashboard" |>
  else a.
Definition app_logout (a : PortalApp) : PortalApp :=
  a <| pa_menuOpen := false |> <| pa_authenticated := false |> <| pa_hash := "" |>.

Inductive screen : Type :=
| LoginScreen | CatalogScreen | DashboardScreen | AccountScreen
| AssetScreen (id : string) | AssetsScreen | UploadScreen
| LiveScreen (id : string) | LiveStreamsScreen
| UnknownScreen (view : string).
Definition renderView (a : PortalApp) : screen :=
  if pa_view a ==? "catalog" then CatalogScreen
  else if pa_view a ==? "dashboard" then DashboardScreen
  else if pa_view a ==? "account" then AccountScreen
  else if pa_view a ==? "assets" then match pa_param a with Some id => AssetScreen id | None => AssetsScreen end
  else if pa_view a ==? "upload" then UploadScreen
  else if pa_view a ==? "live" then match pa_param a with Some id => LiveScreen id | None => LiveStreamsScreen end
  else UnknownScreen (pa_view a).
Definition render (a : PortalApp) : screen := if pa_authenticated a then renderView a else LoginScreen.

(** ** portal-login.js *)

Record PortalLogin := mkLogin {
  pl_inFlight : bool;
  pl_error : string;
  pl_key : option string
}.
Definition login_constructed : PortalLogin := mkLogin false "" None.
Definition wrong_key : string := "API keys start with tc_. Check the email we sent.".
(** [_onSubmit] up to the call of [login]: the key it waits with. *)
Definition onSubmit (typed : string) (l : PortalLogin) : PortalLogin :=
  if pl_inFlight l then l
  else let key := trim typed in
       if negb (startsWith "tc_" key) then mkLogin (pl_inFlight l) wrong_key (pl_key l)
       else mkLogin true "" (Some key).

(** ** The portal *)

Section shell.
Context `{Plat : Platform} {Srv : Type} (server : web_request -> Srv -> result exn web_response * Srv).
Context (API_BASE : string) (number_text : jsnum -> string).

Record portal := mkPortal {
  po_app : PortalApp;
  po_login : PortalLogin;
  po_page : page Srv
}.
#[export] Instance portal_eta : RecEta portal := fun p => mkPortal (po_app p) (po_login p) (po_page p).

Definition error_text (e : exn) : string := match e with PlainError m => m | _ => "" end.

(** The events of the window since [p], handled by the shell. *)
Definition notify (p p' : page Srv) (a : PortalApp) : PortalApp :=
  foldl (fun a e => on_window e a) a (skipn (length (pg_events p)) (pg_events p')).
Definition operate (op : portal_op) (s : portal) : portal :=
  let '(_, p') := perform server API_BASE number_text op (po_page s) in
  s <| po_app := notify (po_page s) p' (po_app s) |> <| po_page := p' |>.
(** The rest of [_onSubmit] *)
Definition login_returns (s : portal) : portal :=
  match pl_key (po_login s) with
  | None => s
  | Some key =>
      let '(r, p') := perform server API_BASE number_text (Login key) (po_page s) in
      let a := notify (po_page s) p' (po_app s) in
      match r with
      | Ok _ => mkPortal (on_window "lmt-authenticated" a) (mkLogin false "" None) (snd (dispatchEvent "lmt-authenticated" p'))
      | Err e => mkPortal a (mkLogin false (Portal.or_else (error_text e) "Login failed.") None) p'
      end
  end.
(** [_logout]: [logout] of the library, [clearAll] once more, then the flag. *)
Definition sign_out (s : portal) : portal :=
  let s := operate Logout s in
  s <| po_page := snd (clearAll (po_page s)) |> <| po_app := app_logout (po_app s) |>.
Definition reload (s : portal) : portal :=
  let has := match fst (hasSession (po_page s)) with Ok b => b | Err _ => false end in
  mkPortal (app_constructed has (pa_hash (po_app s))) login_constructed (po_page s).

Inductive shell_event : Type :=
| Submit (typed : string)
| LoginReturns
| Operate (op : portal_op)
| SignOut
| Reload
| Navigate (hash : string)
| RouteChanged
| Menu (open : bool).
(** A login goes by the form; a key is rotated on a page of the account, and other calls
    may still come from pages that are left. *)
Definition of_pages (op : portal_op) : bool := match op with Login _ | Logout => false | _ => true end.
Definition shell_react (s : portal) (e : shell_event) : portal :=
  match e with
  | Submit typed => if pa_authenticated (po_app s) then s else s <| po_login := onSubmit typed (po_login s) |>
  | LoginReturns => login_returns s
  | Operate op => if of_pages op && (pa_authenticated (po_app s) || negb (stores op)) then operate op s else s
  | SignOut => sign_out s
  | Reload => reload s
  | Navigate hash => s <| po_app := (po_app s) <| pa_hash := hash |> |>
  | RouteChanged => s <| po_app := onRoute (po_app s) |>
  | Menu open => s <| po_app := (po_app s) <| pa_menuOpen := open |> |>
  end.
Definition run_shell (l : list shell_event) (s : portal) : portal := foldl shell_react s l.

(** ** The shell follows the session *)

Abbreviation session_of p := (pg_storage p !! KEYS_session).

(** What an operation does to the session and tells the window. *)
Definition told (op : portal_op) (p : page Srv) (r : result exn unit) (p' : page Srv) : Prop :=
  (pg_events p' = pg_events p ++ ["lmt-unauthorized"] /\ session_of p' = None /\ is_ok r = false) \/
  (pg_events p' = pg_events p /\ session_of p' = session_of p /\ (is_ok r = true -> forall key, op <> Login key)) \/
  (pg_events p' = pg_events p /\ is_ok r = true /\ stores op = true /\ is_present (session_of p') = true).

Lemma guarded_told op p r p' : stores op = false -> guarded server API_BASE op p r p' -> told op p r p'.
Proof.
  intros Hs (rq & _ & _ & _ & _ & H). destruct (refused _).
  - destruct H as ((H1 & _) & H2 & ->). by left.
  - destruct H as [H1 [H2|H2]]; [by rewrite Hs in H2|]. right. left. split_and!; [done|by rewrite H2|]. intros _ key ->. done.
Qed.
Lemma stored_told {A} op (F : P_ Srv json) path init (k : json -> P_ Srv A) p r p' :
  F p = fetchJson server API_BASE number_text path init p -> stores op = true ->
  (forall j p1 r1 p2, k j p1 = (r1, p2) -> pg_events p2 = pg_events p1 /\
     (is_ok r1 = false /\ session_of p2 = session_of p1 \/ is_ok r1 = true /\ is_present (session_of p2) = true)) ->
  (do! _ <- (do! j <- F; k j); mret_ tt) p = (r, p') -> told op p r p'.
Proof.
  intros HF Hs Hk. unfold mbind_. rewrite HF. destruct (fetchJson _ _ _ _ _ p) as [[j|e] p1] eqn:E;
    apply fetchJson_effect in E as (_ & _ & H); cbn zeta in H; destruct (refused _).
  - by destruct H as (_ & _ & [=]).
  - destruct H as [H1 H2]. destruct (k j p1) as [r1 p2] eqn:Ek. apply Hk in Ek as [K1 K2]. intros H.
    assert (p' = p2 /\ is_ok r = is_ok r1) as [-> Hr] by (by destruct r1; injection H as <- <-). rewrite <- Hr in K2.
    destruct K2 as [[K2 K3]|[K2 K3]]; right; [left|right].
    + split_and!; [congruence|by rewrite K3, H1|]. by rewrite K2.
    + split_and!; [congruence|done..].
  - destruct H as ((H1 & _) & H2 & _). intros [= <- <-]. by left.
  - destruct H as [H1 H2]. intros [= <- <-]. right. left. split_and!; [done|by rewrite H1|done].
Qed.
Lemma perform_session op p r p' : perform server API_BASE number_text op p = (r, p') -> op <> Logout -> told op p r p'.
Proof.
  intros H Hop. pose proof (perform_guarded server API_BASE number_text op p r p' H) as G.
  destruct op; try done; try (by apply guarded_told).
  - revert H. apply (stored_told (Login apiKey) _ _ _ _ p r p' eq_refl eq_refl).
    intros j p1 r1 p2. unfold mlift, mbind_. destruct (stored_text _ _ _); intros [= <- <-]; cbn; [|auto].
    split; [done|]. right. by simplify_map_eq.
  - revert H. apply (stored_told RotateKey (userRequest server API_BASE number_text "/api/v1/user/rotate-key" (post_init None)) _
      (json_headers (pg_storage p !! KEYS_session ?? "") (post_init None)) _ p r p' eq_refl eq_refl).
    intros j p1 r1 p2. unfold mlift, mbind_. destruct (stored_text _ _ "session_token") eqn:E1; [|by intros [= <- <-]; auto].
    cbn. destruct (stored_text _ _ "api_key") eqn:E2; [|by destruct j].
    intros [= <- <-]. cbn. split; [done|]. right. by simplify_map_eq.
  - destruct G as (G1 & G2 & _). right. left. split_and!; [done|by rewrite G1|done].
Qed.

Lemma notify_none p p' a : pg_events p' = pg_events p -> notify p p' a = a.
Proof. intros H. unfold notify. by rewrite H, skipn_all. Qed.
Lemma notify_unauthorized p p' a : pg_events p' = pg_events p ++ ["lmt-unauthorized"] ->
  notify p p' a = a <| pa_menuOpen := false |> <| pa_authenticated := false |>.
Proof. intros H. unfold notify. by rewrite H, skipn_app, skipn_all, Nat.sub_diag. Qed.
Lemma on_authenticated a : on_window "lmt-authenticated" a = a <| pa_authenticated := true |> <| pa_hash := "dashboard" |>.
Proof. done. Qed.

(** The flag says whether a token is stored; the form waits with keys only. *)
Record in_step (s : portal) : Prop := mkInStep {
  is_signed_in : pa_authenticated (po_app s) = true -> is_present (session_of (po_page s)) = true;
  is_signed_out : pa_authenticated (po_app s) = false -> nonempty (session_of (po_page s) ?? "") = false;
  is_key key : pl_key (po_login s) = Some key -> startsWith "tc_" key = true
}.

Lemma operate_in_step op s : of_pages op = true -> pa_authenticated (po_app s) = true \/ stores op = false ->
  in_step s -> in_step (operate op s).
Proof.
  intros Hop Ha [H1 H2 H3]. unfold operate. destruct (perform _ _ _ op (po_page s)) as [r p'] eqn:E.
  apply perform_session in E; [|by intros ->]. destruct E as [(E1 & E2 & _)|[(E1 & E2 & _)|(E1 & _ & E2 & E3)]].
  - rewrite (notify_unauthorized _ _ _ E1). split; cbn; [done|by rewrite E2|done].
  - rewrite (notify_none _ _ _ E1). split; cbn; [by rewrite E2|by rewrite E2|done].
  - rewrite (notify_none _ _ _ E1). destruct Ha as [Ha|Ha]; [|by rewrite Ha in E2]. split; cbn; [done|by rewrite Ha|done].
Qed.
Lemma login_in_step s : in_step s -> in_step (login_returns s).
Proof.
  intros H. unfold login_returns. destruct (pl_key (po_login s)) as [key|]; [|exact H]. destruct H as [H1 H2 H3].
  destruct (perform _ _ _ (Login key) (po_page s)) as [r p'] eqn:E. apply perform_session in E; [|done].
  destruct E as [(E1 & E2 & E3)|[(E1 & E2 & E3)|(E1 & E2 & _ & E3)]].
  - destruct r; [done|]. rewrite (notify_unauthorized _ _ _ E1). split; cbn; [done|by rewrite E2|done].
  - destruct r; [by destruct (E3 eq_refl key)|]. rewrite (notify_none _ _ _ E1). split; cbn; [by rewrite E2|by rewrite E2|done].
  - destruct r; [|done]. rewrite on_authenticated. split; cbn; [done|done|done].
Qed.
Lemma sign_out_in_step s : in_step s -> in_step (sign_out s).
Proof.
  intros H. unfold sign_out, operate. destruct (perform _ _ _ Logout (po_page s)) as [r p'].
  destruct (clear_signed_out (Srv := Srv) p') as (Hs & _). split; cbn; [done|intros _; by simplify_map_eq|by apply H].
Qed.
Lemma reload_in_step s : in_step (reload s).
Proof.
  split; cbn; [|by intros ->|done]. by destruct (pg_storage (po_page s) !! KEYS_session).
Qed.
Lemma react_in_step s e : in_step s -> in_step (shell_react s e).
Proof.
  intros H. destruct e as [typed| |op| | |hash| |open]; cbn [shell_react].
  - destruct (pa_authenticated (po_app s)); [done|]. destruct H as [H1 H2 H3]. split; cbn; [done..|].
    unfold onSubmit. destruct (pl_inFlight (po_login s)); [done|]. destruct (startsWith "tc_" (trim typed)) eqn:E; [|done].
    intros key [= <-]. done.
  - by apply login_in_step.
  - destruct (of_pages op) eqn:Hop; [|done]. cbn [andb]. destruct (pa_authenticated (po_app s)) eqn:Ha; cbn [orb].
    + apply operate_in_step; auto.
    + destruct (stores op) eqn:Hs; [done|]. apply operate_in_step; auto.
  - by apply sign_out_in_step.
  - apply reload_in_step.
  - by destruct H.
  - by destruct H.
  - by destruct H.
Qed.

(** The portal shows its pages exactly to who is signed in.  From the moment it is
    loaded, through any sequence of logins, operations of its pages, refusals of the
    gateway, failures of the network, sign-outs, reloads and changes of the address: when
    anything but the login is shown a session token is stored, when the login is shown
    none is, and the form sends nothing but keys with the prefix of the gateway. *)
Lemma shell_follows_the_session l s0 :
  let s := run_shell l (reload s0) in
  (render (po_app s) <> LoginScreen -> is_present (session_of (po_page s)) = true) /\
  (render (po_app s) = LoginScreen -> nonempty (session_of (po_page s) ?? "") = false) /\
  (forall key, pl_key (po_login s) = Some key -> startsWith "tc_" key = true).
Proof.
  intros s. assert (H : in_step s).
  { subst s. unfold run_shell. generalize (reload_in_step s0). generalize (reload s0). induction l as [|e l IH]; intros s H; [done|].
    cbn. by apply IH, react_in_step. }
  destruct H as [H1 H2 H3]. unfold render. split_and!; [| |done]; destruct (pa_authenticated (po_app s)).
  - auto.
  - done.
  - intros Hr. exfalso. revert Hr. unfold renderView. by repeat (case_bool_decide; [try done|]); destruct (pa_param (po_app s)).
  - auto.
Qed.
End shell.

(** ** admin-app.js and admin-login.js *)

Record AdminApp := mkAdminApp {
  aa_authenticated : bool;
  aa_menuOpen : bool;
  aa_view : string;
  aa_hash : string
}.
#[export] Instance AdminApp_eta : RecEta AdminApp := fun a =>
  mkAdminApp (aa_authenticated a) (aa_menuOpen a) (aa_view a) (aa_hash a).
Definition admin_on_window (event : string) (a : AdminApp) : AdminApp :=
  if event ==? "lmt-unauthorized" then a <| aa_menuOpen := false |> <| aa_authenticated := false |>
  else if event ==? "lmt-authenticated" then a <| aa_authenticated := true |> <| aa_hash := "dashboard" |>
  else a.
Definition admin_onRoute (a : AdminApp) : AdminApp := a <| aa_menuOpen := false |> <| aa_view := fst (current (aa_hash a)) |>.

Record AdminLogin := mkAdminLogin {
  al_inFlight : bool;
  al_error : string
}.

Section admin_shell.
Context `{Plat : Platform} {Srv : Type} (server : web_request -> Srv -> result exn web_response * Srv).
Context (API_BASE : string) (number_text : jsnum -> string).

Record administration := mkAdministration {
  ad_app : AdminApp;
  ad_login : AdminLogin;
  ad_page : page Srv
}.

Definition admin_reload (hash : string) (p : page Srv) : administration :=
  let has := match fst (hasAdminToken p) with Ok b => b | Err _ => false end in
  mkAdministration (mkAdminApp has false (fst (current hash)) hash) (mkAdminLogin false "") p.
(** [_onSubmit] up to its [await]: the token is stored before it is tried. *)
Definition admin_onSubmit (typed : string) (s : administration) : administration :=
  if al_inFlight (ad_login s) then s
  else let token := trim typed in
       if negb (nonempty token) then mkAdministration (ad_app s) (mkAdminLogin false "Paste your admin token.") (ad_page s)
       else mkAdministration (ad_app s) (mkAdminLogin true "") (snd (setAdminToken token (ad_page s))).
Definition admin_returns (s : administration) : administration :=
  if negb (al_inFlight (ad_login s)) then s
  else
    let '(r, p') := verifyAdminToken server API_BASE number_text (ad_page s) in
    let a := foldl (fun a e => admin_on_window e a) (ad_app s) (skipn (length (pg_events (ad_page s))) (pg_events p')) in
    match r with
    | Ok _ => mkAdministration (admin_on_window "lmt-authenticated" a) (mkAdminLogin false "")
                (snd (dispatchEvent "lmt-authenticated" p'))
    | Err e =>
        let error := if error_text e ==? "Unauthorized" then "That admin token was rejected by the gateway."
                     else Portal.or_else (error_text e) "Login failed." in
        mkAdministration a (mkAdminLogin false error) p'
    end.
Definition admin_logout (s : administration) : administration :=
  mkAdministration ((ad_app s) <| aa_menuOpen := false |> <| aa_authenticated := false |> <| aa_hash := "" |>) (ad_login s)
    (snd (clearAdminToken (ad_page s))).
End admin_shell.

(** Without the gateway a token is stored that nobody looked at; the page shown again is
    that of an administrator. *)
Example unverified_token_opens_the_page `{Plat : Platform} :
  let page0 : page unit := mkPage ∅ [] [] tt in
  let down : web_request -> unit -> result exn web_response * unit := fun _ s => (Err (PlainError "Failed to fetch"), s) in
  let s := admin_returns down "" (fun _ => "") (admin_onSubmit "anything" (admin_reload "" page0)) in
  al_error (ad_login s) = "Failed to fetch" /\ aa_authenticated (ad_app s) = false /\
  aa_authenticated (ad_app (admin_reload "" (ad_page s))) = true.
Proof. done. Qed.
