(* ===== verification/Pages.v ===== *)
(** * The upload page and the waiting list (portal/components/portal-upload.js,
    admin/components/admin-signups.js, admin-pagination.js)

    Both elements act through several calls in a row; what the user may do in between is
    what [render] offers. *)

From S2P Require Import Prelude Js Types Http Browser Portal Polling.
Open Scope Z_scope.

(** ** portal-upload.js *)

Module PortalUpload.
Inductive phase : Type := idle | preparing | uploading | submitting | done_ | error_.
#[export] Instance phase_eq_dec : EqDecision phase.
Proof. solve_decision. Defined.

Record File := mkFile { fl_name : string; fl_type : string }.
(** The calls, with the properties of the gateway's answer as they are passed on. *)
Inductive call : Type :=
| CreateUpload (filename contentType : string)
| PutFile (url : option json) (file : File)
| CompleteUpload (upload_id : option json)
| SubmitVod (asset_id : option json) (encoding_tier : string).
(** Where [_start] waits, with the answer it holds. *)
Inductive stage : Type :=
| Preparing
| Uploading (init : json)
| Completing (init : json)
| Submitting (init : json).

Record element := mkUpload {
  up_phase : phase;
  up_progress : Z * Z;
  up_file : option File;
  up_assetId : option json;
  up_error : string;
  up_stages : list stage;
  up_calls : list call;
  up_toasts : list string
}.
#[export] Instance element_eta : RecEta element := fun e =>
  mkUpload (up_phase e) (up_progress e) (up_file e) (up_assetId e) (up_error e) (up_stages e) (up_calls e) (up_toasts e).

Definition constructed : element := mkUpload idle (0, 1) None None "" [] [] [].
Definition call_api (c : call) (s : stage) (e : element) : element :=
  e <| up_calls := up_calls e ++ [c] |> <| up_stages := up_stages e ++ [s] |>.
Definition start (e : element) : element :=
  match up_file e with
  | None => e
  | Some f =>
      call_api (CreateUpload (fl_name f) (if nonempty (fl_type f) then fl_type f else "application/octet-stream")) Preparing
        (e <| up_phase := preparing |> <| up_error := "" |> <| up_progress := (0, 1) |>)
  end.
Definition failed (m : string) (e : element) : element :=
  e <| up_phase := error_ |> <| up_error := Portal.or_else m "Upload failed." |>.
Definition answered (s : stage) (r : answer) (e : element) : element :=
  match r with
  | Err m => failed m e
  | Ok body =>
      match s with
      | Preparing =>
          match body with
          | None | Some JNull => failed null_message e
          | Some init =>
              let e := e <| up_assetId := prop_of_body init "asset_id" |> <| up_phase := uploading |> in
              match up_file e with
              | None => failed null_message e
              | Some file => call_api (PutFile (prop_of_body init "upload_url") file) (Uploading init) e
              end
          end
      | Uploading init => call_api (CompleteUpload (prop_of_body init "upload_id")) (Completing init) (e <| up_phase := submitting |>)
      | Completing init => call_api (SubmitVod (prop_of_body init "asset_id") "standard") (Submitting init) e
      | Submitting init => e <| up_phase := done_ |> <| up_toasts := up_toasts e ++ ["Upload submitted for transcoding."] |>
      end
  end.
Definition reset (e : element) : element :=
  e <| up_phase := idle |> <| up_progress := (0, 1) |> <| up_file := None |> <| up_assetId := None |> <| up_error := "" |>.

Inductive event : Type :=
| Pick (file : option File)
| Start
| Reset
| Progress (loaded total : Z)
| Answered (k : nat) (r : answer).
(** What [render] offers: the file and the button while idle, the other button when all
    is done. *)
Definition offered (ev : event) (e : element) : bool :=
  match ev with
  | Pick _ => bool_decide (up_phase e = idle)
  | Start => is_present (up_file e) && bool_decide (up_phase e = idle)
  | Reset => bool_decide (up_phase e = done_)
  | Progress _ _ | Answered _ _ => true
  end.
Definition react (e : element) (ev : event) : element :=
  if offered ev e then
    match ev with
    | Pick file => e <| up_file := file |>
    | Start => start e
    | Reset => reset e
    | Progress loaded total => e <| up_progress := (loaded, total) |>
    | Answered k r =>
        match up_stages e !! k with
        | Some s => answered s r (e <| up_stages := delete k (up_stages e) |>)
        | None => e
        end
    end
  else e.
Definition run (l : list event) (e : element) : element := foldl react e l.

(** *** An upload is all of its calls, in their order *)

(** The calls of one upload, by how far it came. *)
Definition created (f : File) : call :=
  CreateUpload (fl_name f) (if nonempty (fl_type f) then fl_type f else "application/octet-stream").
Definition steps (f : File) (init : json) : list call :=
  [created f; PutFile (prop_of_body init "upload_url") f; CompleteUpload (prop_of_body init "upload_id");
   SubmitVod (prop_of_body init "asset_id") "standard"].
(** A finished upload, as the gateway's first answer described it. *)
Inductive uploads : list call -> Prop :=
| no_uploads : uploads []
| one_more l f init : uploads l -> uploads (l ++ steps f init).

(** The state between two events. *)
Inductive flow (e : element) : Prop :=
| flow_idle : up_phase e = idle -> up_stages e = [] -> uploads (up_calls e) -> flow e
| flow_preparing l f : up_phase e = preparing -> up_stages e = [Preparing] -> up_file e = Some f ->
    uploads l -> up_calls e = l ++ [created f] -> flow e
| flow_uploading l f init : up_phase e = uploading -> up_stages e = [Uploading init] -> up_assetId e = prop_of_body init "asset_id" ->
    uploads l -> up_calls e = l ++ firstn 2 (steps f init) -> flow e
| flow_completing l f init : up_phase e = submitting -> up_stages e = [Completing init] -> up_assetId e = prop_of_body init "asset_id" ->
    uploads l -> up_calls e = l ++ firstn 3 (steps f init) -> flow e
| flow_submitting l f init : up_phase e = submitting -> up_stages e = [Submitting init] -> up_assetId e = prop_of_body init "asset_id" ->
    uploads l -> up_calls e = l ++ steps f init -> flow e
| flow_done l f init : up_phase e = done_ -> up_stages e = [] -> up_assetId e = prop_of_body init "asset_id" ->
    uploads l -> up_calls e = l ++ steps f init -> flow e
| flow_error l f init n : up_phase e = error_ -> up_stages e = [] -> nonempty (up_error e) = true ->
    uploads l -> (1 <= n)%nat -> up_calls e = l ++ firstn n (steps f init) -> flow e.

Lemma failed_flow e l f init n m : up_stages e = [] -> uploads l -> (1 <= n)%nat ->
  up_calls e = l ++ firstn n (steps f init) -> flow (failed m e).
Proof.
  intros Hs Hl Hn Hc. eapply flow_error with (n := n); [done|exact Hs| |exact Hl|exact Hn|exact Hc].
  unfold failed, Portal.or_else. cbn. by destruct m.
Qed.
Lemma only_stage {A} (l : list A) s k : l = [s] -> forall x, l !! k = Some x -> x = s /\ delete k l = [].
Proof. intros -> x. destruct k; [|done]. by intros [= <-]. Qed.

(** An answer moves the upload to its next call, to its end or to its error. *)
Lemma answered_flow e k s r : flow e -> up_stages e !! k = Some s -> flow (answered s r (e <| up_stages := delete k (up_stages e) |>)).
Proof.
  intros H Hk. destruct H as [H1 H2 H3|l f H1 H2 H3 H4 H5|l f init H1 H2 H3 H4 H5|l f init H1 H2 H3 H4 H5|l f init H1 H2 H3 H4 H5
    |l f init H1 H2 H3 H4 H5|l f init n H1 H2 H3 H4 H5 H6]; try by rewrite H2 in Hk.
  all: destruct (only_stage _ _ _ H2 _ Hk) as [-> Hd]; destruct r as [body|m]; cbn [answered].
  - assert (Hf : forall e', up_stages e' = [] -> up_calls e' = up_calls e -> flow (failed null_message e')).
    { intros e' E1 E2. apply (failed_flow e' l f JNull 1); [exact E1|exact H4|lia|by rewrite E2, H5]. }
    destruct body as [init|]; [|by apply Hf]. destruct init; try (by apply Hf); cbn zeta;
      change (up_file (_ <| up_phase := uploading |>)) with (up_file e); rewrite H3;
      (eapply flow_uploading with (l := l) (f := f); [done|cbn; by rewrite Hd|done|exact H4|cbn; by rewrite H5, <- app_assoc]).
  - apply (failed_flow _ l f JNull 1); [exact Hd|exact H4|lia|exact H5].
  - eapply flow_completing with (l := l) (f := f) (init := init); [done|cbn; by rewrite Hd|exact H3|exact H4|cbn; by rewrite H5, <- app_assoc].
  - apply (failed_flow _ l f init 2); [exact Hd|exact H4|lia|exact H5].
  - eapply flow_submitting with (l := l) (f := f) (init := init); [exact H1|cbn; by rewrite Hd|exact H3|exact H4|cbn; by rewrite H5, <- app_assoc].
  - apply (failed_flow _ l f init 3); [exact Hd|exact H4|lia|exact H5].
  - eapply flow_done with (l := l) (f := f) (init := init); [done|exact Hd|exact H3|exact H4|exact H5].
  - apply (failed_flow _ l f init 4); [exact Hd|exact H4|lia|exact H5].
Qed.

Lemma react_flow e ev : flow e -> flow (react e ev).
Proof.
  intros H. unfold react. destruct (offered ev e) eqn:Ho; [|done]. destruct ev as [file| | |loaded total_|k r]; cbn [offered] in Ho.
  - apply bool_decide_eq_true in Ho. destruct H; try congruence. by apply flow_idle.
  - apply andb_prop in Ho as [Hf Ho]. apply bool_decide_eq_true in Ho. destruct H as [H1 H2 H3| | | | | |]; try congruence.
    unfold start. destruct (up_file e) as [f|] eqn:Ef; [|done].
    apply (flow_preparing _ (up_calls e) f); [done|cbn; by rewrite H2|exact Ef|exact H3|done].
  - apply bool_decide_eq_true in Ho. destruct H as [| | | | |l f init H1 H2 H3 H4 H5|]; try congruence.
    apply flow_idle; [done|exact H2|]. cbn. rewrite H5. by apply one_more.
  - destruct H; [by apply flow_idle|by eapply flow_preparing|by eapply flow_uploading|by eapply flow_completing
      |by eapply flow_submitting|by eapply flow_done|by eapply flow_error].
  - destruct (up_stages e !! k) as [s|] eqn:Hk; [|done]. by apply answered_flow.
Qed.
Lemma run_flow l : forall e, flow e -> flow (run l e).
Proof. induction l as [|ev l IH]; intros e H; [done|]. cbn. by apply IH, react_flow. Qed.

(** An upload is all of its calls in their order, or an error.  Whatever is picked,
    pressed and answered, and in whatever order: the calls of the page are those of
    finished uploads followed by a first part of one more, each the four of the upload
    with the address and the ids the gateway gave for it, one at a time.  The page says
    done only after all four succeeded, with a link to that asset, and a failure at any
    of them is shown. *)
Lemma upload_is_all_or_error l :
  let e := run l constructed in
  exists before f init n, uploads before /\ up_calls e = before ++ firstn n (steps f init) /\
    (length (up_stages e) <= 1)%nat /\
    match up_phase e with
    | idle => n = 0%nat /\ up_stages e = []
    | preparing => n = 1%nat /\ up_stages e = [Preparing]
    | uploading => n = 2%nat /\ up_stages e = [Uploading init]
    | submitting => n = 3%nat /\ up_stages e = [Completing init] \/ n = 4%nat /\ up_stages e = [Submitting init]
    | done_ => n = 4%nat /\ up_stages e = [] /\ up_assetId e = prop_of_body init "asset_id"
    | error_ => (1 <= n)%nat /\ up_stages e = [] /\ nonempty (up_error e) = true
    end.
Proof.
  intros e. assert (H : flow e) by (apply run_flow; by apply flow_idle; [..|constructor]).
  destruct H as [H1 H2 H3|l' f H1 H2 H3 H4 H5|l' f init H1 H2 H3 H4 H5|l' f init H1 H2 H3 H4 H5|l' f init H1 H2 H3 H4 H5
    |l' f init H1 H2 H3 H4 H5|l' f init n H1 H2 H3 H4 H5 H6]; rewrite H1, H2.
  - exists (up_calls e), (mkFile "" ""), JNull, 0%nat. cbn. rewrite app_nil_r. split_and!; (done || lia).
  - exists l', f, JNull, 1%nat. split_and!; (done || (cbn; lia)).
  - exists l', f, init, 2%nat. split_and!; (done || (cbn; lia)).
  - exists l', f, init, 3%nat. split_and!; [done..|cbn; lia|by left].
  - exists l', f, init, 4%nat. split_and!; [done..|cbn; lia|by right].
  - exists l', f, init, 4%nat. split_and!; (done || (cbn; lia)).
  - exists l', f, init, n. split_and!; (done || (cbn; lia)).
Qed.

(** After an error the page offers nothing: neither the file nor the button comes back. *)
Lemma failed_upload_is_stuck l : forall e, flow e -> up_phase e = error_ ->
  up_phase (run l e) = error_ /\ up_calls (run l e) = up_calls e.
Proof.
  induction l as [|ev l IH]; intros e H He; [done|]. cbn.
  assert (Hr : up_phase (react e ev) = error_ /\ up_calls (react e ev) = up_calls e).
  { assert (Hs : up_stages e = []) by (destruct H; congruence). unfold react.
    destruct ev; cbn [offered]; rewrite ?He; cbn; rewrite ?andb_false_r; [done..|]. by rewrite Hs. }
  destruct Hr as [H1 H2]. destruct (IH _ (react_flow e ev H) H1) as [H3 H4]. split; [done|]. by rewrite <- H2.
Qed.

(** An upload that succeeds. *)
Example upload_succeeds :
  let init := JObj [("upload_id", JStr "up_1"); ("asset_id", JStr "asset_1"); ("upload_url", JStr "https://s3/raw")] in
  let ok := Answered 0 (Ok (Some (JObj []))) in
  let e := run [Pick (Some (mkFile "a.mp4" "")); Start; Start; Answered 0 (Ok (Some init)); Progress 1 2; ok; ok; ok] constructed in
  up_phase e = done_ /\ up_assetId e = Some (JStr "asset_1") /\
  up_calls e = [CreateUpload "a.mp4" "application/octet-stream"; PutFile (Some (JStr "https://s3/raw")) (mkFile "a.mp4" "");
                CompleteUpload (Some (JStr "up_1")); SubmitVod (Some (JStr "asset_1")) "standard"].
Proof. by vm_compute. Qed.
End PortalUpload.

(** ** admin-signups.js and admin-pagination.js *)

Module AdminSignups.
Record Row := mkRow {
  rw_id : string;
  rw_email : string;
  rw_name : string;
  rw_status : string;
  rw_verified : bool;
  rw_created_at : string
}.
Record IssuedKey := mkIssuedKey { ik_email : string; ik_key : string }.
Record Approval := mkApproval {
  ap_approved : Z;
  ap_emails_sent : Z;
  ap_emails_dryrun : bool;
  ap_keys : list IssuedKey;
  ap_skipped : list (string * string);
  ap_email_errors : list string
}.
(** The answers of the administration routes as the element reads them. *)
Inductive reply : Type :=
| Listed (rows : list Row) (total_pages : Z)
| Approved (res : Approval)
| Rejected (count : Z)
| Resent (delivery : string)
| Deleted.
Inductive call : Type :=
| ListWaitlist (page perPage : Z) (status search : string)
| ApproveBatch (ids : list string) (sendEmails : bool)
| RejectBatch (ids : list string)
| DeleteOne (id : string)
| ResendVerification (id : string).
Inductive task : Type := Loading | Approving | Rejecting | Deleting | Resending (row : Row).

Record element := mkSignups {
  su_actionMessage : string;
  su_resending : option string;
  su_rows : list Row;
  su_page : Z;
  su_perPage : Z;
  su_totalPages : Z;
  su_status : string;
  su_search : string;
  su_selected : list string;
  su_sendEmails : bool;
  su_loading : bool;
  su_error : string;
  su_issuedKeys : list IssuedKey;
  su_tasks : list task;
  su_calls : list call;
  su_toasts : list string
}.
#[export] Instance element_eta : RecEta element := fun e =>
  mkSignups (su_actionMessage e) (su_resending e) (su_rows e) (su_page e) (su_perPage e) (su_totalPages e) (su_status e)
    (su_search e) (su_selected e) (su_sendEmails e) (su_loading e) (su_error e) (su_issuedKeys e) (su_tasks e) (su_calls e)
    (su_toasts e).

Definition constructed : element := mkSignups "" None [] 1 50 1 "pending" "" [] true true "" [] [] [] [].
Definition call_api (c : call) (t : task) (e : element) : element :=
  e <| su_calls := su_calls e ++ [c] |> <| su_tasks := su_tasks e ++ [t] |>.
Definition toast (m : string) (e : element) : element := e <| su_toasts := su_toasts e ++ [m] |>.
Definition load (e : element) : element :=
  call_api (ListWaitlist (su_page e) (su_perPage e) (su_status e) (su_search e)) Loading
    (e <| su_loading := true |> <| su_error := "" |>).

(** [new Set(l)]: the first of equal elements stays. *)
Fixpoint set_of (l : list string) : list string :=
  match l with [] => [] | x :: l => x :: List.filter (fun y => negb (bool_decide (y = x))) (set_of l) end.
Definition toggle (id : string) (e : element) : element :=
  e <| su_selected := if bool_decide (id ∈ su_selected e) then List.filter (fun y => negb (bool_decide (y = id))) (su_selected e)
                      else su_selected e ++ [id] |>.
Definition toggleAll (e : element) : element :=
  e <| su_selected := if bool_decide (length (su_selected e) = length (su_rows e)) then [] else set_of (map rw_id (su_rows e)) |>.

Definition skip_reason (reason : string) : string :=
  if reason ==? "email_not_verified" then "Verify email first; use Resend verification below."
  else if reason ==? "not_pending" then "This signup is no longer pending." else reason.
Definition skip_text (rows : list Row) (s : string * string) : string :=
  let email := match List.find (fun r => bool_decide (rw_id r = fst s)) rows with Some r => Portal.or_else (rw_email r) (fst s) | None => fst s end in
  email +:+ ": " +:+ skip_reason (snd s).
Definition approval_message (rows : list Row) (res : Approval) : string :=
  String.concat " " (["Approved " +:+ string_of_Z (ap_approved res) +:+ ". Emails accepted by provider: " +:+ string_of_Z (ap_emails_sent res) +:+ "."] ++
    (if ap_emails_dryrun res then ["Email is in dry-run mode; nothing was delivered."] else []) ++
    map (skip_text rows) (ap_skipped res) ++ map (fun x => "Email failed: " +:+ x) (ap_email_errors res)).

Definition approve (confirmed : bool) (e : element) : element :=
  match su_selected e with
  | [] => e
  | ids => if confirmed then call_api (ApproveBatch ids (su_sendEmails e)) Approving e else e
  end.
Definition reject (confirmed : bool) (e : element) : element :=
  match su_selected e with
  | [] => e
  | ids => if confirmed then call_api (RejectBatch ids) Rejecting e else e
  end.
Definition delete_ (id : string) (confirmed : bool) (e : element) : element :=
  if confirmed then call_api (DeleteOne id) Deleting e else e.
Definition resend (row : Row) (e : element) : element :=
  match su_resending e with
  | Some _ => e
  | None => call_api (ResendVerification (rw_id row)) (Resending row) (e <| su_resending := Some (rw_id row) |> <| su_actionMessage := "" |>)
  end.

(** What a handler does with its answer; an answer of another route does not come. *)
Definition resume (t : task) (r : result string reply) (e : element) : element :=
  match t, r with
  | Loading, Ok (Listed rows total_pages) =>
      e <| su_rows := rows |> <| su_totalPages := if total_pages =? 0 then 1 else total_pages |> <| su_loading := false |>
  | Loading, Err m => e <| su_error := Portal.or_else m "Could not load waitlist." |> <| su_loading := false |>
  | Approving, Ok (Approved res) =>
      load (e <| su_issuedKeys := ap_keys res ++ su_issuedKeys e |>
              <| su_selected := set_of (map fst (ap_skipped res)) |>
              <| su_actionMessage := approval_message (su_rows e) res |>)
  | Approving, Err m => toast (Portal.or_else m "Approve failed.") e
  | Rejecting, Ok (Rejected n) => load (toast ("Rejected " +:+ string_of_Z n +:+ ".") (e <| su_selected := [] |>))
  | Rejecting, Err m => toast (Portal.or_else m "Reject failed.") e
  | Deleting, Ok _ => load (toast "Deleted." e)
  | Deleting, Err m => toast (Portal.or_else m "Delete failed.") e
  | Resending row, Ok (Resent delivery) =>
      e <| su_resending := None |>
        <| su_actionMessage := if delivery ==? "accepted"
             then "Verification email accepted by the provider for " +:+ rw_email row +:+ ". Open that link, then refresh and approve the signup."
             else "Email is in dry-run mode; no email was sent." |>
  | Resending _, Err m => e <| su_resending := None |> <| su_actionMessage := Portal.or_else m "Resend failed." |>
  | _, _ => e
  end.

(** [_go] of the pagination: the page it announces. *)
Definition go (p page totalPages : Z) : option Z :=
  if (p <? 1) || (totalPages <? p) || (p =? page) then None else Some p.

Inductive event : Type :=
| Connect | Refresh
| Toggle (id : string) | ToggleAll
| Approve (confirmed : bool) | Reject (confirmed : bool) | Delete (id : string) (confirmed : bool) | Resend (row : Row)
| SetStatus (status : string) | SetSearch (search : string) | SetSendEmails (on : bool)
| Go (p : Z)
| DismissKeys
| Returned (k : nat) (r : result string reply).
(** What [render] offers: the table and its pages only when it is loaded and has rows. *)
Definition table_shown (e : element) : bool := negb (su_loading e) && negb (bool_decide (su_rows e = [])).
#[export] Instance Row_eq_dec : EqDecision Row.
Proof. solve_decision. Defined.
Definition offered (ev : event) (e : element) : bool :=
  match ev with
  | Toggle id | Delete id _ => table_shown e && bool_decide (id ∈ map rw_id (su_rows e))
  | ToggleAll => table_shown e
  | Resend row => table_shown e && bool_decide (row ∈ su_rows e) && (rw_status row ==? "pending") && negb (rw_verified row)
  | Go p => table_shown e && (1 <? su_totalPages e)
  | _ => true
  end.
Definition react (e : element) (ev : event) : element :=
  if offered ev e then
    match ev with
    | Connect | Refresh => load e
    | Toggle id => toggle id e
    | ToggleAll => toggleAll e
    | Approve confirmed => approve confirmed e
    | Reject confirmed => reject confirmed e
    | Delete id confirmed => delete_ id confirmed e
    | Resend row => resend row e
    | SetStatus status => load (e <| su_status := status |> <| su_page := 1 |>)
    | SetSearch search => load (e <| su_search := search |> <| su_page := 1 |>)
    | SetSendEmails on => e <| su_sendEmails := on |>
    | Go p => match go p (su_page e) (su_totalPages e) with Some p => load (e <| su_page := p |>) | None => e end
    | DismissKeys => e <| su_issuedKeys := [] |>
    | Returned k r =>
        match su_tasks e !! k with
        | Some t => resume t r (e <| su_tasks := delete k (su_tasks e) |>)
        | None => e
        end
    end
  else e.
Definition run (l : list event) : element := foldl react constructed l.

(** *** What the administrator acts on *)

Definition ids_of (r : result string reply) : list string :=
  match r with Ok (Listed rows _) => map rw_id rows | Ok (Approved res) => map fst (ap_skipped res) | _ => [] end.
(** A sign-up the gateway has listed, or reported as skipped. *)
Definition Seen (l : list event) (id : string) : Prop := exists k r, Returned k r ∈ l /\ id ∈ ids_of r.
Definition target_ids (c : call) : list string :=
  match c with
  | ListWaitlist _ _ _ _ => []
  | ApproveBatch ids _ | RejectBatch ids => ids
  | DeleteOne id | ResendVerification id => [id]
  end.
Definition acts_on (P : string -> Prop) (c : call) : Prop :=
  match c with
  | ListWaitlist page _ _ _ => 1 <= page
  | _ => target_ids c <> [] /\ Forall P (target_ids c)
  end.
Record shown (P : string -> Prop) (e : element) : Prop := mkShown {
  sh_page : 1 <= su_page e;
  sh_rows : Forall P (map rw_id (su_rows e));
  sh_selected : Forall P (su_selected e);
  sh_calls : Forall (acts_on P) (su_calls e)
}.

Lemma set_of_elem l x : x ∈ set_of l -> x ∈ l.
Proof.
  induction l as [|y l IH]; cbn; [done|]. rewrite !elem_of_cons. intros [->|H]; [by left|right].
  apply elem_of_filter_bool in H as [_ H]. auto.
Qed.
Lemma Forall_set_of (P : string -> Prop) l : Forall P l -> Forall P (set_of l).
Proof. rewrite !Forall_forall. intros H x Hx. by apply H, set_of_elem. Qed.
Lemma Forall_filter_bool {A} (P : A -> Prop) f l : Forall P l -> Forall P (List.filter f l).
Proof. rewrite !Forall_forall. intros H x Hx. apply elem_of_filter_bool in Hx as [_ Hx]. auto. Qed.
#[local] Hint Resolve Forall_set_of Forall_filter_bool : core.

Lemma Forall_elem {A} (P : A -> Prop) l x : Forall P l -> x ∈ l -> P x.
Proof. rewrite Forall_forall. auto. Qed.

Section step.
Context (P : string -> Prop).
Lemma load_shown e : shown P e -> shown P (load e).
Proof. intros [H1 H2 H3 H4]. split; cbn; [done..|]. apply Forall_app. split; [done|]. by constructor. Qed.
Lemma call_shown c t e : acts_on P c -> shown P e -> shown P (call_api c t e).
Proof. intros Hc [H1 H2 H3 H4]. split; cbn; [done..|]. apply Forall_app. split; [done|]. by constructor. Qed.
Lemma resume_shown t r e : Forall P (ids_of r) -> shown P e -> shown P (resume t r e).
Proof.
  intros Hr [H1 H2 H3 H4]. destruct t, r as [[]|]; cbn [resume]; try done; try apply load_shown; split; cbn in *; auto.
Qed.
Lemma react_shown ev e : (forall k r, ev = Returned k r -> Forall P (ids_of r)) -> shown P e -> shown P (react e ev).
Proof.
  intros Hev H. unfold react. destruct (offered ev e) eqn:Ho; [|done]. pose proof H as [H1 H2 H3 H4].
  destruct ev as [| |id| |confirmed|confirmed|id confirmed|row|status|search|on|p| |k r]; cbn [offered] in Ho.
  - by apply load_shown.
  - by apply load_shown.
  - apply andb_prop in Ho as [_ Ho]. apply bool_decide_eq_true in Ho. split; cbn; [done..| |done]. case_bool_decide; [auto|].
    apply Forall_app. split; [done|]. constructor; [|done]. exact (Forall_elem _ _ _ H2 Ho).
  - split; cbn; [done..| |done]. case_bool_decide; [constructor|auto].
  - unfold approve. destruct (su_selected e) eqn:E; [done|]. destruct confirmed; [|done]. by apply call_shown.
  - unfold reject. destruct (su_selected e) eqn:E; [done|]. destruct confirmed; [|done]. by apply call_shown.
  - apply andb_prop in Ho as [_ Ho]. apply bool_decide_eq_true in Ho. destruct confirmed; [|done]. apply call_shown; [|done].
    split; [done|]. constructor; [|done]. exact (Forall_elem _ _ _ H2 Ho).
  - apply andb_prop in Ho as [Ho _]. apply andb_prop in Ho as [Ho _]. apply andb_prop in Ho as [_ Ho].
    apply bool_decide_eq_true in Ho. unfold resend. destruct (su_resending e); [done|]. apply call_shown; [|by split].
    split; [done|]. constructor; [|done]. apply (Forall_elem _ _ _ H2). by apply (list_elem_of_fmap_2 rw_id).
  - apply load_shown. by split.
  - apply load_shown. by split.
  - by split.
  - unfold go. destruct (p <? 1) eqn:Hp; [done|]. destruct (_ || _); [done|]. apply load_shown. split; cbn; [lia|done..].
  - by split.
  - destruct (su_tasks e !! k) as [t|]; [|done]. apply resume_shown; [by eapply Hev|by split].
Qed.
End step.

Lemma shown_weaken (P Q : string -> Prop) e : (forall x, P x -> Q x) -> shown P e -> shown Q e.
Proof.
  intros HPQ [H1 H2 H3 H4]. split; [done|by eapply Forall_impl..|]. eapply Forall_impl; [exact H4|].
  intros [] H; cbn in *; [done|..]; (destruct H as [Hn H]; split; [done|by eapply Forall_impl]).
Qed.
Lemma run_shown l : shown (Seen l) (run l).
Proof.
  induction l as [|ev l IH] using rev_ind.
  - by split.
  - unfold run in *. rewrite foldl_app. cbn. apply react_shown.
    + intros k r ->. apply Forall_forall. intros id Hid. exists k, r. split; [set_solver|done].
    + eapply shown_weaken; [|exact IH]. intros id (k & r & H1 & H2). exists k, r. split; [set_solver|done].
Qed.

(** Keys stay until they are dismissed. *)
Lemma keys_grow ev e : ev <> DismissKeys -> exists new, su_issuedKeys (react e ev) = new ++ su_issuedKeys e.
Proof.
  intros Hev. assert (H0 : forall e', su_issuedKeys e' = su_issuedKeys e -> exists new, su_issuedKeys e' = new ++ su_issuedKeys e)
    by (intros e' ->; by exists []).
  unfold react. destruct (offered ev e); [|by apply H0].
  destruct ev as [| |id| |confirmed|confirmed|id confirmed|row|status|search|on|p| |k r]; try done; try (by apply H0).
  - apply H0. unfold approve. destruct (su_selected e); [done|]. by destruct confirmed.
  - apply H0. unfold reject. destruct (su_selected e); [done|]. by destruct confirmed.
  - apply H0. by destruct confirmed.
  - apply H0. unfold resend. by destruct (su_resending e).
  - apply H0. by destruct (go _ _ _).
  - destruct (su_tasks e !! k) as [t|]; [|by apply H0].
    destruct t, r as [[]|]; cbn [resume]; try (by apply H0). by eexists.
Qed.
Lemma keys_stay l : forall e, DismissKeys ∉ l -> exists new, su_issuedKeys (foldl react e l) = new ++ su_issuedKeys e.
Proof.
  induction l as [|ev l IH]; intros e Hl; [by exists []|]. cbn. apply not_elem_of_cons in Hl as [H1 H2].
  destruct (IH (react e ev) H2) as [n1 E1]. destruct (keys_grow ev e) as [n2 E2]; [by intros ->|].
  exists (n1 ++ n2). by rewrite E1, E2, app_assoc.
Qed.

(** The administrator acts on sign-ups that were shown, and no new key is lost.  After
    any sequence of clicks and answers: a batch is never empty, and whatever is approved,
    rejected, deleted or sent a new message has been listed by the gateway, or reported as
    skipped by it; every reading of the list asks for a page from the first on; and the
    keys of an approval are on the page from its answer on, until they are dismissed. *)
Lemma signups_act_on_what_was_shown l :
  Forall (acts_on (Seen l)) (su_calls (run l)) /\
  (forall l1 k res l2, l = l1 ++ Returned k (Ok (Approved res)) :: l2 -> su_tasks (run l1) !! k = Some Approving ->
     DismissKeys ∉ l2 -> forall key, key ∈ ap_keys res -> key ∈ su_issuedKeys (run l)).
Proof.
  split; [apply run_shown|]. intros l1 k res l2 -> Hk Hl2 key Hkey. unfold run. rewrite foldl_app. cbn [foldl].
  destruct (keys_stay l2 (react (foldl react constructed l1) (Returned k (Ok (Approved res)))) Hl2) as [new ->].
  apply elem_of_app. right. unfold react at 1. cbn [offered]. unfold run in Hk. rewrite Hk. cbn. apply elem_of_app. by left.
Qed.

(** *** A day of the administrator *)

Definition row (id : string) : Row := mkRow id (id +:+ "@example.com") id "pending" true "2025-01-01T00:00:00.000Z".
Definition approval : Approval := mkApproval 1 1 false [mkIssuedKey "a@example.com" "tc_1"] [("b", "email_not_verified")] [].
Definition approval_day : list event :=
  [Connect; Returned 0 (Ok (Listed [row "a"; row "b"] 2)); ToggleAll; Approve true].
Definition approval_rest : list event := [Returned 0 (Ok (Listed [row "b"] 1)); Approve false].
Lemma signups_act_on_what_was_shown_witness :
  let l := approval_day ++ Returned 0 (Ok (Approved approval)) :: approval_rest in
  Forall (acts_on (Seen l)) (su_calls (run l)) /\ mkIssuedKey "a@example.com" "tc_1" ∈ su_issuedKeys (run l).
Proof.
  intros l. destruct (signups_act_on_what_was_shown l) as [H1 H2]. split; [exact H1|].
  apply (H2 approval_day 0%nat approval approval_rest eq_refl eq_refl); [|by left].
  unfold approval_rest. rewrite !not_elem_of_cons. split_and!; [done..|]. apply not_elem_of_nil.
Defined.

(** The selection outlives the page it was made on: all of the first page is selected;
    on the second, as long, the box for all shows a tick, and clicking it selects none of
    the shown rows but drops the selection; approving first would have approved rows that
    are no longer shown. *)
Definition second_page : list event :=
  [Connect; Returned 0 (Ok (Listed [row "a"; row "b"] 2)); ToggleAll; Go 2; Returned 0 (Ok (Listed [row "c"; row "d"] 2))].
Example selection_outlives_its_page :
  su_selected (run second_page) = ["a"; "b"] /\ map rw_id (su_rows (run second_page)) = ["c"; "d"] /\
  su_selected (run (second_page ++ [ToggleAll])) = [] /\
  List.last (su_calls (run (second_page ++ [Reject true]))) (DeleteOne "") = RejectBatch ["a"; "b"].
Proof. by vm_compute. Qed.

(** When the last rows of the last page leave the list, the page is past the end: nothing
    is shown, and the control that would lead back is not shown either. *)
Example page_past_the_end :
  let e := run [Connect; Returned 0 (Ok (Listed [row "a"] 2)); Go 2; Returned 0 (Ok (Listed [row "c"] 2)); ToggleAll; Approve true;
                Returned 0 (Ok (Approved (mkApproval 1 1 false [] [] []))); Returned 0 (Ok (Listed [] 1))] in
  su_page e = 2 /\ su_totalPages e = 1 /\ su_rows e = [] /\ offered (Go 1) e = false.
Proof. by vm_compute. Qed.

(** Answers are taken in the order they come, not in the order of the questions: the list
    of the first filter replaces that of the second, and nothing asks again. *)
Example late_answer_replaces_the_list :
  let e := run [Connect; Returned 0 (Ok (Listed [] 1)); SetStatus "approved"; SetStatus "rejected";
                Returned 1 (Ok (Listed [row "r"] 1)); Returned 0 (Ok (Listed [row "a"] 1))] in
  su_status e = "rejected" /\ map rw_id (su_rows e) = ["a"] /\ su_tasks e = [].
Proof. by vm_compute. Qed.
End AdminSignups.
