(* ===== verification/Elements.v ===== *)
(** * Elements that load and show (portal/components/portal-assets.js, portal-account.js,
    portal-key-display.js, portal-dashboard.js, portal-catalog.js,
    site/components/lmt-signup-form.js, lmt-email-verify.js, lmt-toast.js)

    Small elements of the front ends: their fields, and their handlers cut into steps at
    the awaits. *)

From S2P Require Import Prelude Js Types Http Browser Portal Polling.
From Stdlib Require Import Ascii.
Open Scope Z_scope.

(** ** portal-assets.js *)

Module PortalAssets.
Record view := mkView {
  vw_items : list json;
  vw_nextCursor : option string;
  vw_loading : bool;
  vw_error : string;
  vw_waiting : list (option string);
  vw_calls : list list_opts
}.
#[export] Instance view_eta : RecEta view := fun v =>
  mkView (vw_items v) (vw_nextCursor v) (vw_loading v) (vw_error v) (vw_waiting v) (vw_calls v).
Definition initial : view := mkView [] None true "" [] [].

(** A page of the gateway: the items and the cursor of the next page. *)
Definition page_answer : Type := result string (list json * option string).
(** [_load(cursor)] up to its [await] *)
Definition load (cursor : option string) (v : view) : view :=
  let opts := mkListOpts (Some 50) (if truthy cursor then cursor else None) false in
  v <| vw_loading := true |> <| vw_error := "" |> <| vw_waiting := vw_waiting v ++ [cursor] |> <| vw_calls := vw_calls v ++ [opts] |>.
Definition loaded (cursor : option string) (r : page_answer) (v : view) : view :=
  match r with
  | Ok (items, next) =>
      v <| vw_items := if truthy cursor then vw_items v ++ items else items |> <| vw_nextCursor := next |> <| vw_loading := false |>
  | Err m => v <| vw_error := Portal.or_else m "Could not load assets." |> <| vw_loading := false |>
  end.
Inductive event : Type := Connect | LoadMore | Returned (k : nat) (r : page_answer).
Definition react (v : view) (e : event) : view :=
  match e with
  | Connect => load None v
  | LoadMore => if truthy (vw_nextCursor v) && negb (bool_decide (vw_items v = [])) then load (vw_nextCursor v) v else v
  | Returned k r =>
      match vw_waiting v !! k with
      | Some cursor => loaded cursor r (v <| vw_waiting := delete k (vw_waiting v) |>)
      | None => v
      end
  end.

(** The library of a user who waits for every page: the pages one after the other.
    [pages c] is what the gateway answers for the cursor [c]. *)
Section patient.
Context (pages : option string -> list json * option string).
Fixpoint follow (n : nat) (cursor : option string) : list json * option string :=
  let '(items, next) := pages cursor in
  match n with
  | O => (items, next)
  | S n => if truthy next then let '(more, last) := follow n next in (items ++ more, last) else (items, next)
  end.
Definition one_page (v : view) : view := react (react v LoadMore) (Returned 0 (Ok (pages (vw_nextCursor v)))).
Definition first_page : view := react (react initial Connect) (Returned 0 (Ok (pages None))).

Lemma one_page_spec v : vw_waiting v = [] -> truthy (vw_nextCursor v) = true -> vw_items v <> [] ->
  let '(items, next) := pages (vw_nextCursor v) in
  vw_items (one_page v) = vw_items v ++ items /\ vw_nextCursor (one_page v) = next /\ vw_waiting (one_page v) = [].
Proof.
  intros Hw Ht Hi. unfold one_page. cbn [react]. rewrite Ht, bool_decide_false by done. cbn [negb andb].
  unfold load. cbn. rewrite Hw. cbn. destruct (pages (vw_nextCursor v)) as [items next] eqn:E. cbn. rewrite Ht. done.
Qed.
Lemma no_cursor v : vw_waiting v = [] -> truthy (vw_nextCursor v) = false -> one_page v = v.
Proof. intros Hw Ht. unfold one_page. cbn [react]. rewrite Ht. cbn [andb]. by rewrite Hw. Qed.
Lemma pages_follow n : forall v, vw_waiting v = [] -> vw_items v <> [] -> truthy (vw_nextCursor v) = true ->
  let v' := Nat.iter (S n) one_page v in
  vw_items v' = vw_items v ++ fst (follow n (vw_nextCursor v)) /\ vw_nextCursor v' = snd (follow n (vw_nextCursor v)).
Proof.
  induction n as [|n IH]; intros v Hw Hi Ht v'; subst v'; pose proof (one_page_spec v Hw Ht Hi) as Hp;
    cbn [follow]; destruct (pages (vw_nextCursor v)) as [items next] eqn:Ep; destruct Hp as (H1 & H2 & H3).
  - change (Nat.iter 1 one_page v) with (one_page v). by rewrite H1, H2.
  - rewrite Nat.iter_succ_r. destruct (truthy next) eqn:Hn.
    + assert (Hi' : vw_items (one_page v) <> []) by (rewrite H1; by destruct (vw_items v)).
      rewrite <- H2 in Hn. destruct (IH (one_page v) H3 Hi' Hn) as [I1 I2]. rewrite I1, I2, H1, H2.
      destruct (follow n next) as [more last]. cbn [fst snd]. by rewrite app_assoc.
    + assert (Hs : forall m, Nat.iter m one_page (one_page v) = one_page v).
      { intros m. induction m as [|m IHm]; [done|]. rewrite Nat.iter_succ_r, no_cursor; [done|done|by rewrite H2]. }
      rewrite Hs. by rewrite H1, H2.
Qed.
End patient.

(** The button stays enabled while a page loads: pressed twice, it shows a page twice. *)
Example impatient_user_sees_a_page_twice :
  let a := JStr "a" in let b := JStr "b" in
  let v := foldl react initial [Connect; Returned 0 (Ok ([a], Some "a")); LoadMore; LoadMore;
             Returned 0 (Ok ([b], None)); Returned 0 (Ok ([b], None))] in
  vw_items v = [a; b; b].
Proof. by vm_compute. Qed.
End PortalAssets.

(** ** portal-account.js and portal-key-display.js *)

Module PortalAccount.
Record view := mkView {
  vw_inFlight : bool;
  vw_confirming : bool;
  vw_error : string;
  vw_key : string;
  vw_revealed : bool;
  vw_toasts : list string;
  vw_rotations : nat
}.
#[export] Instance view_eta : RecEta view := fun v =>
  mkView (vw_inFlight v) (vw_confirming v) (vw_error v) (vw_key v) (vw_revealed v) (vw_toasts v) (vw_rotations v).
(** The page with the key that is stored in the tab. *)
Definition initial (stored : string) : view := mkView false false "" stored false [] 0.
Inductive event : Type := AskRotate | Cancel | DoRotate | Rotated (r : result string unit) (stored : string) | Reveal.
(** The confirmation's button is offered while confirming; [Rotated] comes with what the
    tab stores then, which [refresh] of the key display reads. *)
Definition react (v : view) (e : event) : view :=
  match e with
  | AskRotate => if vw_confirming v then v else v <| vw_confirming := true |> <| vw_error := "" |>
  | Cancel => v <| vw_confirming := false |>
  | DoRotate =>
      if negb (vw_confirming v) || vw_inFlight v then v
      else v <| vw_inFlight := true |> <| vw_error := "" |> <| vw_rotations := S (vw_rotations v) |>
  | Rotated r stored =>
      if negb (vw_inFlight v) then v
      else match r with
           | Ok _ => v <| vw_toasts := vw_toasts v ++ ["API key rotated. New key cached in this tab."] |>
                       <| vw_confirming := false |> <| vw_key := stored |> <| vw_inFlight := false |>
           | Err m => v <| vw_error := Portal.or_else m "Key rotation failed." |> <| vw_inFlight := false |>
           end
  | Reveal => v <| vw_revealed := negb (vw_revealed v) |>
  end.

(** [slice(0, n)] and [slice(-n)] *)
Definition slice_to (n : nat) (s : string) : string := String.substring 0 n s.
Definition slice_last (n : nat) (s : string) : string := String.substring (String.length s - n) n s.
Definition mask (k : string) : string :=
  if nonempty k then slice_to 6 k +:+ "…" +:+ slice_last 4 k else "(no key cached)".
Definition key_shown (v : view) : string :=
  if vw_revealed v then Portal.or_else (vw_key v) "(no key cached)" else mask (vw_key v).

(** One rotation at a time, each asked for and confirmed. *)
Definition settled_rotation (e : event) : bool := match e with Rotated _ _ => true | _ => false end.
Lemma rotations_are_confirmed l stored :
  let v := foldl react (initial stored) l in
  (vw_rotations v <= length (List.filter settled_rotation l) + (if vw_inFlight v then 1 else 0))%nat.
Proof.
  induction l as [|e l IH] using rev_ind; [done|]. rewrite foldl_app, List.filter_app, length_app. cbn [foldl] in *.
  set (v := foldl react (initial stored) l) in *. destruct e as [| | |r s|]; cbn [react settled_rotation List.filter length].
  - destruct (vw_confirming v); cbn; lia.
  - cbn. lia.
  - destruct (negb (vw_confirming v) || vw_inFlight v) eqn:E; [lia|]. apply orb_false_elim in E as [_ E]. rewrite E in IH. cbn. lia.
  - destruct (vw_inFlight v) eqn:E; cbn [negb]; [|rewrite E; lia]. destruct r; cbn; lia.
  - cbn. lia.
Qed.

(** Two keys with the same first six and last four characters look the same. *)
Lemma substring_all s : String.substring 0 (String.length s) s = s.
Proof. induction s as [|c s IH]; [done|]. cbn. by rewrite IH. Qed.
Lemma substring_first a b : String.substring 0 (String.length a) (a +:+ b) = a.
Proof. induction a as [|c a IH]; [by destruct b|]. change ((String c a) +:+ b) with (String c (a +:+ b)). cbn. by rewrite IH. Qed.
Lemma substring_rest a b : String.substring (String.length a) (String.length b) (a +:+ b) = b.
Proof. induction a as [|c a IH]; [apply substring_all|]. exact IH. Qed.
Lemma length_append a b : String.length (a +:+ b) = (String.length a + String.length b)%nat.
Proof. induction a as [|c a IH]; [done|]. change ((String c a) +:+ b) with (String c (a +:+ b)). cbn. by rewrite IH. Qed.
Lemma mask_hides first middle middle' last :
  String.length first = 6%nat -> String.length last = 4%nat ->
  mask (first +:+ middle +:+ last) = mask (first +:+ middle' +:+ last).
Proof.
  intros Hf Hl. assert (H : forall m, mask (first +:+ m +:+ last) = first +:+ "…" +:+ last); [|by rewrite !H].
  intros m. unfold mask, slice_to, slice_last.
  assert (Hn : nonempty (first +:+ m +:+ last) = true) by (by destruct first). rewrite Hn, <- Hf, substring_first.
  do 2 f_equal. assert (E : first +:+ m +:+ last = (first +:+ m) +:+ last).
  { clear. induction first as [|c f IH]; [done|]. change (String c (f +:+ m +:+ last) = String c ((f +:+ m) +:+ last)). by rewrite IH. }
  rewrite E, length_append, Hl. replace (_ + 4 - 4)%nat with (String.length (first +:+ m)) by lia.
  rewrite <- Hl at 1. apply substring_rest.
Qed.
End PortalAccount.

(** ** portal-dashboard.js, admin-dashboard.js and the catalogue *)

Module Dashboards.
Record view := mkView {
  vw_profile : option json;
  vw_assets : option json;
  vw_loading : bool;
  vw_error : string
}.
(** [Promise.allSettled]: either call may fail without the other. *)
Definition loaded (profile assets : result string json) (v : view) : view :=
  mkView (match profile with Ok p => Some p | Err _ => vw_profile v end)
    (match assets with Ok a => prop_of_body a "items" | Err _ => vw_assets v end) false
    (String.concat "; " ((match profile with Err m => [m] | Ok _ => [] end) ++ (match assets with Err m => [m] | Ok _ => [] end))).

Record stats_view := mkStatsView { sv_stats : option json; sv_loading : bool; sv_error : string }.
Definition stats_loaded (r : result string json) : stats_view :=
  match r with
  | Ok stats => mkStatsView (Some stats) false ""
  | Err m => mkStatsView None false (Portal.or_else m "Could not load stats.")
  end.

(** The capabilities the catalogue shows: of video or all, with the searched text in the
    name or in the ids of the offerings. *)
Record Capability := mkCapability { cp_name : string; cp_offerings : list string }.
Definition searched (c : Capability) : string := cp_name c +:+ " " +:+ String.concat " " (cp_offerings c).
Definition listed (scope search : string) (items : list Capability) : list Capability :=
  List.filter (fun c => ((scope ==? "all") || startsWith "video:" (cp_name c)) &&
                        includes_text (toLowerCase search) (toLowerCase (searched c))) items.
End Dashboards.

(** ** The public site: lmt-signup-form.js and lmt-email-verify.js *)

Module PublicSite.
Record form := mkForm {
  fm_inFlight : bool;
  fm_message : option string;
  fm_kind : option string;
  fm_sent : list (string * string);
  fm_name : string;
  fm_email : string
}.
#[export] Instance form_eta : RecEta form := fun f =>
  mkForm (fm_inFlight f) (fm_message f) (fm_kind f) (fm_sent f) (fm_name f) (fm_email f).
Definition empty_form : form := mkForm false None None [] "" "".
Inductive event : Type := Type_ (name email : string) | Submit | Answered (r : result string json).
Definition submit (f : form) : form :=
  if fm_inFlight f then f
  else let name := trim (fm_name f) in
       let email := trim (fm_email f) in
       if negb (nonempty name) || negb (nonempty email)
       then f <| fm_message := Some "Please provide both name and email." |> <| fm_kind := Some "error" |>
       else f <| fm_inFlight := true |> <| fm_message := None |> <| fm_kind := None |> <| fm_sent := fm_sent f ++ [(name, email)] |>.
(** [res.message || ...], of an answer whose message is a text; [form.reset()] empties
    the fields. *)
Definition answered (r : result string json) (f : form) : form :=
  if negb (fm_inFlight f) then f
  else match r with
       | Ok JNull => f <| fm_message := Some null_message |> <| fm_kind := Some "error" |> <| fm_inFlight := false |>
       | Ok body =>
           let message := match prop_of_body body "message" with
                          | Some (JStr s) => Portal.or_else s "Check your inbox for a verification link."
                          | _ => "Check your inbox for a verification link."
                          end in
           f <| fm_message := Some message |> <| fm_kind := Some "ok" |> <| fm_name := "" |> <| fm_email := "" |> <| fm_inFlight := false |>
       | Err m => f <| fm_message := Some (Portal.or_else m "Something went wrong. Please try again.") |>
                    <| fm_kind := Some "error" |> <| fm_inFlight := false |>
       end.
Definition react (f : form) (e : event) : form :=
  match e with
  | Type_ name email => f <| fm_name := name |> <| fm_email := email |>
  | Submit => submit f
  | Answered r => answered r f
  end.

(** What is sent has a name and an address, one request at a time, and what was typed is
    not lost when it fails. *)
Definition filled (x : string * string) : Prop := nonempty (fst x) = true /\ nonempty (snd x) = true.
Lemma signups_are_filled l : Forall filled (fm_sent (foldl react empty_form l)).
Proof.
  induction l as [|e l IH] using rev_ind; [constructor|]. rewrite foldl_app. cbn [foldl].
  set (f := foldl react empty_form l) in *. destruct e as [name email| |r]; cbn [react]; [done| |].
  - unfold submit. destruct (fm_inFlight f); [done|]. destruct (nonempty (trim (fm_name f))) eqn:Hn; [|done].
    destruct (nonempty (trim (fm_email f))) eqn:He; [|done]. cbn. apply Forall_app. split; [done|]. by constructor.
  - unfold answered. destruct (negb _); [done|]. by destruct r as [[]|].
Qed.
Lemma failed_signup_keeps_the_fields m f : fm_inFlight f = true ->
  let f' := answered (Err m) f in
  fm_name f' = fm_name f /\ fm_email f' = fm_email f /\ fm_kind f' = Some "error" /\ fm_inFlight f' = false.
Proof. intros H. unfold answered. by rewrite H. Qed.

(** [connectedCallback] of the page a verification link leads to *)
Inductive verification : Type := Verified | Invalid (message : string) | Failed (message : string).
Definition verify (token : option string) (r : result string json) : verification :=
  if truthy token then
    match r with
    | Ok JNull => Failed null_message
    | Ok body => if is_text (prop_of_body body "status") "verified" then Verified
                 else Invalid "This verification link is invalid or expired."
    | Err m => Failed (Portal.or_else m "Something went wrong. Please try again.")
    end
  else Invalid "No verification token in this link.".
End PublicSite.

(** ** lmt-toast.js *)

Module Toast.
Record toast := mkToast { ts_message : string; ts_timer : option nat; ts_next : nat; ts_pending : list nat }.
Inductive event : Type := Show (message : string) | Fires (id : nat).
Definition quiet : toast := mkToast "" None 0 [].
(** A message replaces the one before it, and its own timer replaces the other's. *)
Definition react (t : toast) (e : event) : toast :=
  match e with
  | Show message =>
      mkToast message (Some (ts_next t)) (S (ts_next t)) (without (ts_timer t) (ts_pending t) ++ [ts_next t])
  | Fires id =>
      if bool_decide (id ∈ ts_pending t) then mkToast "" (ts_timer t) (ts_next t) (without (Some id) (ts_pending t)) else t
  end.
(** A shown message has its timer: nothing stays, and no old timer cuts a new message short. *)
Lemma toasts_time_out l :
  let t := foldl react quiet l in
  ts_pending t = [] /\ ts_message t = "" \/ exists id, ts_timer t = Some id /\ ts_pending t = [id].
Proof.
  induction l as [|e l IH] using rev_ind; [by left|]. rewrite foldl_app. cbn [foldl].
  set (t := foldl react quiet l) in *. destruct e as [m|id]; cbn [react].
  - right. exists (ts_next t). split; [done|]. cbn. destruct IH as [[-> _]|(i & -> & ->)]; [done|]. by rewrite without_self.
  - case_bool_decide as Hid; [|done]. destruct IH as [[H _]|(i & H1 & H2)]; [rewrite H in Hid; set_solver|].
    rewrite H2 in Hid. apply list_elem_of_singleton in Hid as ->. left. cbn. by rewrite H2, without_self.
Qed.
End Toast.
