(* ===== verification/Backends.v ===== *)
(** * Object storage, the media server and the hooks of the server

    The parts at the edge of the gateway, each a thin layer over code that is not of the
    repository: the object store over the AWS SDK, the RTMP listener over
    node-media-server and Node's TCP server, the request log over Hono and the connection
    pool over pg. *)

From S2P Require Import Prelude.
From S2P Require Import Js Types Http Interfaces AbrExchange AbrOrchestrator ProductRoutes ProductSpec Browser Config Dispatcher.
From S2P Require Import Wire Database OperationRepo Samples OperationLease MediaRepos Directory SessionStore.
From Stdlib Require Import Ascii.
Open Scope Z_scope.

(** ** Object storage (storage/s3.ts)

    The provider of [createS3StorageProvider] over the AWS SDK: the settings of its client
    and the commands its methods sign or send.  The SDK is a class; what S3 documents of
    the commands is a second one, over which the provider is a store of its bucket. *)

Module Storage.
(** *** The SDK *)

Inductive s3_body : Type :=
| TextBody (s : string)
| BufferBody (b : bytes).
Inductive s3_command : Type :=
| PutObjectCommand (Bucket Key : string) (Body : option s3_body) (ContentType : option string)
| GetObjectCommand (Bucket Key : string)
| DeleteObjectCommand (Bucket Key : string)
| CopyObjectCommand (Bucket CopySource Key : string).
Record S3ClientConfig := mkS3ClientConfig {
  sc_region : string;
  sc_accessKeyId : string;
  sc_secretAccessKey : string;
  sc_endpoint : option string;
  sc_forcePathStyle : option bool
}.
Class AwsSdk (St : Type) := {
  getSignedUrl : S3ClientConfig -> s3_command -> Z -> M St exn string;
  send : S3ClientConfig -> s3_command -> M St exn unit
}.

(** *** The provider *)

Definition clientCfg (config : S3StorageConfig) : S3ClientConfig :=
  mkS3ClientConfig (s3_region config) (s3_accessKeyId config) (s3_secretAccessKey config)
    (if truthy (s3_endpoint config) then s3_endpoint config else None)
    (Some (s3_forcePathStyle config)).

(** [body]: a string, or the bytes of an array *)
Definition body_of (body : string + bytes) : s3_body :=
  match body with inl s => TextBody s | inr b => BufferBody b end.

Record S3Provider (St : Type) := mkS3Provider {
  sp_putSignedUploadUrl : UploadOptions -> M St exn Artifact;
  sp_getSignedDownloadUrl : string -> Z -> M St exn string;
  sp_putObject : string -> string + bytes -> option string -> M St exn unit;
  sp_delete : string -> M St exn unit;
  sp_copyObject : string -> string -> M St exn unit;
  sp_pathFor : PathForOpts -> string
}.

Arguments mkS3Provider {St}.
Arguments sp_putSignedUploadUrl {St}.
Arguments sp_getSignedDownloadUrl {St}.
Arguments sp_putObject {St}.
Arguments sp_delete {St}.
Arguments sp_copyObject {St}.
Arguments sp_pathFor {St}.

Section provider.
Context `{Sdk : AwsSdk St} (config : S3StorageConfig).
#[local] Abbreviation client := (clientCfg config).
#[local] Abbreviation bucket := (s3_bucket config).

Definition provider_putSignedUploadUrl (opts : UploadOptions) : M St exn Artifact :=
  let storageKey := pathFor (upload_path opts) in
  let cmd := PutObjectCommand bucket storageKey None (Some (uo_contentType opts)) in
  do! url <- getSignedUrl client cmd (uo_expiresInSec opts);
  mret_ (mkArtifact storageKey url).
Definition provider_getSignedDownloadUrl (storageKey : string) (expiresInSec : Z) : M St exn string :=
  getSignedUrl client (GetObjectCommand bucket storageKey) expiresInSec.
Definition provider_putObject (storageKey : string) (body : string + bytes) (contentType : option string) : M St exn unit :=
  send client (PutObjectCommand bucket storageKey (Some (body_of body)) contentType).
Definition provider_delete (storageKey : string) : M St exn unit := send client (DeleteObjectCommand bucket storageKey).
Definition provider_copyObject (srcKey dstKey : string) : M St exn unit :=
  send client (CopyObjectCommand bucket (bucket +:+ "/" +:+ srcKey) dstKey).

Definition createS3StorageProvider : S3Provider St :=
  mkS3Provider provider_putSignedUploadUrl provider_getSignedDownloadUrl provider_putObject provider_delete
    provider_copyObject pathFor.
End provider.

(** The two methods the gateway's services call *)
Definition storage_of (p : S3Provider net) : StorageProvider := {|
  putSignedUploadUrl := sp_putSignedUploadUrl p;
  getSignedDownloadUrl := sp_getSignedDownloadUrl p
|}.

(** *** A bucket as a store *)

(** The object a copy source names: a bucket, a slash and the URL-encoded key. *)
Definition copy_source (s : string) : option (string * string) :=
  '(b, k) ← until_slash s; k' ← Browser.decodeURIComponent k; Some (b, k').

Definition object : Type := s3_body * option string.
(** The documented effect of a command that succeeds, on the objects by bucket and key *)
Definition apply_command (c : s3_command) (o : gmap (string * string) object) : gmap (string * string) object :=
  match c with
  | PutObjectCommand b k body t => <[(b, k) := (body ?? TextBody "", t)]> o
  | GetObjectCommand _ _ => o
  | DeleteObjectCommand b k => delete (b, k) o
  | CopyObjectCommand b source k =>
      match copy_source source ≫= (o !!.) with
      | Some x => <[(b, k) := x]> o
      | None => o
      end
  end.
(** S3: a command the service answers has its effect; one that fails has it or none. *)
Class S3Service `{Sdk : AwsSdk St} := {
  objects : St -> gmap (string * string) object;
  send_applies c cfg n : fst (send cfg c n) = Ok tt -> objects (snd (send cfg c n)) = apply_command c (objects n);
  send_fails c cfg n e : fst (send cfg c n) = Err e ->
    objects (snd (send cfg c n)) = objects n \/ objects (snd (send cfg c n)) = apply_command c (objects n);
  copy_needs_source cfg b s k n : fst (send cfg (CopyObjectCommand b s k) n) = Ok tt ->
    is_Some (copy_source s ≫= (objects n !!.))
}.

(** What the interface promises: a store of objects by their keys *)
Inductive store_op : Type :=
| StorePut (k : string) (body : string + bytes) (contentType : option string)
| StoreDelete (k : string)
| StoreCopy (src dst : string).
Definition run_op `{AwsSdk St} (config : S3StorageConfig) (op : store_op) : M St exn unit :=
  let p := createS3StorageProvider config in
  match op with
  | StorePut k body t => sp_putObject p k body t
  | StoreDelete k => sp_delete p k
  | StoreCopy src dst => sp_copyObject p src dst
  end.
Definition abstract_op (op : store_op) (s : string -> option object) : string -> option object := fun key =>
  match op with
  | StorePut k body t => if key ==? k then Some (body_of body, t) else s key
  | StoreDelete k => if key ==? k then None else s key
  | StoreCopy src dst => if key ==? dst then s src else s key
  end.
(** Keys that are their own URL encoding *)
Definition plain_op (op : store_op) : Prop :=
  match op with StoreCopy src _ => Browser.decodeURIComponent src = Some src | _ => True end.

Section store.
Context `{Srv : S3Service} (config : S3StorageConfig).
Context (no_slash : until_slash (s3_bucket config) = None).

(** The objects of the configured bucket *)
Definition stored (n : St) : string -> option object := fun k => objects n !! (s3_bucket config, k).

(** The command an operation sends *)
Definition command_of (op : store_op) : s3_command :=
  match op with
  | StorePut k body t => PutObjectCommand (s3_bucket config) k (Some (body_of body)) t
  | StoreDelete k => DeleteObjectCommand (s3_bucket config) k
  | StoreCopy src dst => CopyObjectCommand (s3_bucket config) (s3_bucket config +:+ "/" +:+ src) dst
  end.
Lemma run_op_sends op : run_op config op = send (clientCfg config) (command_of op).
Proof. by destruct op. Qed.

Lemma plain_source src : Browser.decodeURIComponent src = Some src ->
  copy_source (s3_bucket config +:+ "/" +:+ src) = Some (s3_bucket config, src).
Proof. intros Hp. unfold copy_source. change ("/" +:+ src) with (String "/"%char src). rewrite until_slash_app by done. cbn. by rewrite Hp. Qed.

Lemma command_stored op n k :
  plain_op op -> (forall src dst, op = StoreCopy src dst -> is_Some (stored n src)) ->
  apply_command (command_of op) (objects n) !! (s3_bucket config, k) = abstract_op op (stored n) k.
Proof.
  intros Hp Hsrc. destruct op as [key body t|key|src dst]; cbn; unfold stored.
  - case_bool_decide; [subst; by rewrite lookup_insert_eq|rewrite lookup_insert_ne; congruence].
  - case_bool_decide; [subst; by rewrite lookup_delete_eq|rewrite lookup_delete_ne; congruence].
  - destruct (Hsrc _ _ eq_refl) as [x Hx]. rewrite plain_source by done. cbn. unfold stored in Hx. rewrite Hx.
    case_bool_decide; [subst; by rewrite lookup_insert_eq|rewrite lookup_insert_ne; congruence].
Qed.
Lemma command_confined op o b k :
  b <> s3_bucket config -> apply_command (command_of op) o !! (b, k) = o !! (b, k).
Proof.
  intros Hb. destruct op as [key body t|key|src dst]; cbn.
  - rewrite lookup_insert_ne; congruence.
  - rewrite lookup_delete_ne; congruence.
  - destruct (_ ≫= _); [|done]. rewrite lookup_insert_ne; congruence.
Qed.

(** The provider is a store of its bucket.  A put, a deletion or a copy (of a key that is its
    own URL encoding) that succeeds changes the objects of the configured bucket exactly as
    the abstract store does, and no operation, succeeding or not, changes an object of
    another bucket. *)
Lemma provider_is_a_store op n :
  plain_op op ->
  (fst (run_op config op n) = Ok tt -> forall k, stored (snd (run_op config op n)) k = abstract_op op (stored n) k) /\
  (forall b k, b <> s3_bucket config -> objects (snd (run_op config op n)) !! (b, k) = objects n !! (b, k)).
Proof.
  intros Hp. rewrite run_op_sends. split.
  - intros Hok k. unfold stored at 1. rewrite send_applies by done. apply command_stored; [done|]. intros src dst ->.
    apply copy_needs_source in Hok. rewrite plain_source in Hok by done. exact Hok.
  - intros b k Hb. destruct (fst (send (clientCfg config) (command_of op) n)) as [[]|e] eqn:E.
    + rewrite send_applies by done. by apply command_confined.
    + destruct (send_fails _ _ _ _ E) as [->| ->]; [done|by apply command_confined].
Qed.
End store.

(** A signed upload is for the key the caller gets, with its content type. *)
Lemma signed_upload_is_for_its_key `{Sdk : AwsSdk St} config opts (s s' : St) a :
  provider_putSignedUploadUrl config opts s = (Ok a, s') ->
  getSignedUrl (clientCfg config) (PutObjectCommand (s3_bucket config) (af_artifact_uri a) None (Some (uo_contentType opts)))
    (uo_expiresInSec opts) s = (Ok (af_upload_url a), s') /\ af_artifact_uri a = pathFor (upload_path opts).
Proof. unfold provider_putSignedUploadUrl. rewrite mbind_Ok. by intros (url & s1 & Hs & [= <- <-]). Qed.

(** *** A service in memory *)

Definition memory : Type := gmap (string * string) object.
#[local] Instance memory_sdk : AwsSdk memory := {|
  getSignedUrl := fun _ _ _ => mret_ "https://signed";
  send := fun _ c o =>
    match c with
    | CopyObjectCommand _ source _ =>
        match copy_source source ≫= (o !!.) with
        | Some _ => (Ok tt, apply_command c o)
        | None => (Err (PlainError "NoSuchKey"), o)
        end
    | _ => (Ok tt, apply_command c o)
    end
|}.
#[local, refine] Instance memory_service : S3Service := {| objects := fun o : memory => o |}.
Proof.
  - intros c cfg n. destruct c; cbn; try done. by destruct (_ ≫= _).
  - intros c cfg n e. destruct c; cbn; try done. destruct (_ ≫= _); [done|]. by left.
  - intros cfg b s k n. cbn. destruct (_ ≫= _) eqn:E; [|done]. by eexists.
Defined.
Definition one_bucket : S3StorageConfig := mkS3Config None "eu" "media" "id" "secret" true.
(** A key with an escape in it is decoded: another object, or none, is copied. *)
Example copy_decodes_its_source :
  let o : memory := {[("media", "a b") := (TextBody "other", None); ("media", "a%20b") := (TextBody "this", None)]} in
  stored one_bucket (snd (run_op one_bucket (StoreCopy "a%20b" "c") o)) "c" = Some (TextBody "other", None) /\
  stored one_bucket (snd (run_op one_bucket (StoreCopy "a b" "c") o)) "c" = Some (TextBody "other", None).
Proof. vm_compute. done. Qed.
Lemma provider_is_a_store_witness :
  stored one_bucket (snd (run_op one_bucket (StoreCopy "sources/x/a.mp4" "b") {[("media", "sources/x/a.mp4") := (TextBody "v", None)]})) "b" =
  Some (TextBody "v", None).
Proof.
  destruct (provider_is_a_store one_bucket eq_refl (StoreCopy "sources/x/a.mp4" "b")
    ({[("media", "sources/x/a.mp4") := (TextBody "v", None)]} : memory) eq_refl) as [H _].
  rewrite H by (vm_compute; reflexivity). vm_compute. reflexivity.
Defined.
End Storage.

(** ** The media server and the listener (runtime/rtmp/server.ts, runtime/rtmp/index.ts)

    node-media-server terminates RTMP; the gateway gives it a host and a port, registers
    its handlers and stops it by closing the TCP server inside.  The TCP server is that of
    Node: once closed it accepts no connection, and the callbacks of [close] run when the
    last connection has ended.  The listener is the server with the dispatcher attached. *)

Module MediaServer.
(** *** A TCP server of Node *)

Record tcp_server := mkTcp {
  tcp_listening : bool;
  tcp_connections : list string;
  tcp_closing : nat;       (* callbacks of [close] that have not run *)
  tcp_closed : nat         (* and those that have *)
}.
#[export] Instance tcp_eta : RecEta tcp_server := fun t =>
  mkTcp (tcp_listening t) (tcp_connections t) (tcp_closing t) (tcp_closed t).
Definition emit_close_if_drained (t : tcp_server) : tcp_server :=
  if tcp_listening t then t
  else match tcp_connections t with
       | [] => t <| tcp_closing := 0%nat |> <| tcp_closed := (tcp_closed t + tcp_closing t)%nat |>
       | _ => t
       end.
Definition tcp_close (t : tcp_server) : tcp_server :=
  emit_close_if_drained (t <| tcp_listening := false |> <| tcp_closing := S (tcp_closing t) |>).
Definition tcp_accept (id : string) (t : tcp_server) : tcp_server :=
  if tcp_listening t then t <| tcp_connections := tcp_connections t ++ [id] |> else t.
Definition tcp_end (id : string) (t : tcp_server) : tcp_server :=
  if bool_decide (id ∈ tcp_connections t)
  then emit_close_if_drained (t <| tcp_connections := List.filter (fun x => x !=? id) (tcp_connections t) |>)
  else t.

(** *** createRtmpServer *)

Record RtmpServerConfig := mkRtmpServerConfig { rs_host : string; rs_port : Z }.
Record NmsConstructorConfig := mkNmsConfig { nc_bind : string; nc_rtmp_port : Z }.
Definition nms_config (cfg : RtmpServerConfig) : NmsConstructorConfig := mkNmsConfig (rs_host cfg) (rs_port cfg).

(** The instance: its settings, the events with a listener, and the TCP server inside
    where the instance shows it. *)
Record nms := mkNms {
  nms_settings : NmsConstructorConfig;
  nms_tcp : option tcp_server;
  nms_on : list string
}.
#[export] Instance nms_eta : RecEta nms := fun n => mkNms (nms_settings n) (nms_tcp n) (nms_on n).
Definition listening_server : tcp_server := mkTcp true [] 0 0.

(** [new NodeMediaServer(...)] and [run()]: [exposes] is whether the instance has
    [rtmpServer.tcpServer]. *)
Definition createRtmpServer (exposes : bool) (cfg : RtmpServerConfig) : nms :=
  mkNms (nms_config cfg) (if exposes then Some listening_server else None) [].
Definition server_on (event : string) (n : nms) : nms := n <| nms_on := nms_on n ++ [event] |>.
(** [stop] up to its [await]: the second part says whether it returned at once. *)
Definition server_stop (n : nms) : nms * bool :=
  match nms_tcp n with
  | None => (n, true)
  | Some inner => (n <| nms_tcp := Some (tcp_close inner) |>, false)
  end.

(** *** createRtmpListener *)

Record listener := mkListener {
  ln_server : nms;
  ln_dispatcher : dispatcher;
  ln_stops : nat;         (* calls of [stop] *)
  ln_returned : nat       (* that returned without waiting *)
}.
#[export] Instance listener_eta : RecEta listener := fun l =>
  mkListener (ln_server l) (ln_dispatcher l) (ln_stops l) (ln_returned l).

Definition createRtmpListener (exposes : bool) (host : string) (port : Z) (w : world) : listener :=
  let server := createRtmpServer exposes (mkRtmpServerConfig host port) in
  let attached := server_on "donePublish" (server_on "postPublish" server) in
  mkListener attached (mkDispatcher w no_relays []) 0 0.
(** [await dispatcher.stop(); await server.stop()] *)
Definition listener_stop (l : listener) : listener :=
  let '(server, returned) := server_stop (ln_server l) in
  mkListener server (stop (ln_dispatcher l)) (S (ln_stops l)) (if returned then S (ln_returned l) else ln_returned l).

(** How many calls of [stop] are done *)
Definition stops_done (l : listener) : nat :=
  (ln_returned l + match nms_tcp (ln_server l) with Some t => tcp_closed t | None => 0 end)%nat.
Definition connections (l : listener) : list string :=
  match nms_tcp (ln_server l) with Some t => tcp_connections t | None => [] end.

Section events.
Context `{Env : Environment} {Plat : Platform} (options : PaidSessionStoreOptions).

Inductive listener_event : Type :=
| Connected (id : string)
| Ended (id : string)
| Dispatch (e : dispatch_event)
| Stop.
Definition with_tcp (f : tcp_server -> tcp_server) (l : listener) : listener :=
  l <| ln_server := (ln_server l) <| nms_tcp := f <$> nms_tcp (ln_server l) |> |>.
Definition listener_react (l : listener) (e : listener_event) : listener :=
  match e with
  | Connected id => with_tcp (tcp_accept id) l
  | Ended id => with_tcp (tcp_end id) l
  | Dispatch e => l <| ln_dispatcher := handle options "live" e (ln_dispatcher l) |>
  | Stop => listener_stop l
  end.
Definition run_listener (es : list listener_event) (l : listener) : listener := foldl listener_react l es.

(** *** Stopping *)

(** What holds of the TCP server: as long as it listens nobody waits for its end, and a
    wait goes on only while a connection is open. *)
Record tcp_ok (stops : nat) (t : tcp_server) : Prop := {
  tk_listening : tcp_listening t = true -> tcp_closing t = 0%nat /\ stops = 0%nat;
  tk_waiting : tcp_closing t <> 0%nat -> tcp_connections t <> [];
  tk_open : tcp_connections t <> [] -> tcp_closed t = 0%nat;
  tk_count : (tcp_closing t + tcp_closed t)%nat = stops
}.
Lemma drained_ok stops t :
  (tcp_listening t = true -> tcp_closing t = 0%nat /\ stops = 0%nat) ->
  (tcp_connections t <> [] -> tcp_closed t = 0%nat) -> (tcp_closing t + tcp_closed t)%nat = stops ->
  tcp_ok stops (emit_close_if_drained t).
Proof.
  intros Hl Ho Hc. unfold emit_close_if_drained. destruct (tcp_listening t) eqn:El.
  - destruct (Hl eq_refl) as [H1 H2]. split; [done|by rewrite H1|done|done].
  - destruct (tcp_connections t) eqn:Ec; split; cbn; rewrite ?El, ?Ec; try done; lia.
Qed.

Definition listener_ok (l : listener) : Prop :=
  match nms_tcp (ln_server l) with
  | Some t => tcp_ok (ln_stops l) t /\ ln_returned l = 0%nat
  | None => ln_returned l = ln_stops l
  end.
Lemma listener_react_ok l e : listener_ok l -> listener_ok (listener_react l e).
Proof.
  unfold listener_ok. destruct e as [id|id|e|]; cbn [listener_react].
  - unfold with_tcp. cbn. destruct (nms_tcp _) as [t|]; [|done]. cbn. intros [Hok Hr]. split; [|done]. pose proof Hok as [Hl Hw Ho Hc].
    unfold tcp_accept. destruct (tcp_listening t) eqn:El; [|done]. destruct (Hl eq_refl) as [H1 H2]. split; cbn; [done|by rewrite H1|lia|done].
  - unfold with_tcp. cbn. destruct (nms_tcp _) as [t|]; [|done]. cbn. intros [Hok Hr]. split; [|done]. pose proof Hok as [Hl Hw Ho Hc].
    unfold tcp_end. case_bool_decide as Hin; [|done]. apply drained_ok; [done| |done]. intros _. apply Ho. by destruct (tcp_connections t); [apply not_elem_of_nil in Hin|].
  - done.
  - unfold listener_stop, server_stop. destruct (nms_tcp (ln_server l)) as [t|] eqn:Et.
    + cbn -[tcp_close]. intros [[Hl Hw Ho Hc] Hr]. split; [|done]. apply drained_ok; cbn; [done|done|lia].
    + cbn. rewrite Et. congruence.
Qed.
Lemma created_ok exposes host port w : listener_ok (createRtmpListener exposes host port w).
Proof. destruct exposes; [|done]. split; [|done]. by split. Qed.
Lemma listener_run_ok es l : listener_ok l -> listener_ok (run_listener es l).
Proof. revert l. induction es as [|e es IH]; intros l Hl; [done|]. by apply IH, listener_react_ok. Qed.

(** Once stopped, the server accepts nobody. *)
Lemma stopped_accepts_nobody e l :
  listener_ok l -> ln_stops l <> 0%nat -> connections (listener_react l e) ⊆ connections l /\ ln_stops (listener_react l e) <> 0%nat.
Proof.
  unfold listener_ok, connections. intros Hok Hs. destruct e as [id|id|e|]; cbn [listener_react].
  - cbn. destruct (nms_tcp _) as [t|]; [|done]. split; [|done]. destruct Hok as [[Hl _ _ _] _]. cbn. unfold tcp_accept.
    destruct (tcp_listening t) eqn:El; [|done]. by destruct (Hl eq_refl).
  - cbn. destruct (nms_tcp _) as [t|]; [|done]. split; [|done]. cbn. unfold tcp_end. case_bool_decide; [|done].
    unfold emit_close_if_drained. cbn. assert (Hsub : List.filter (fun x => x !=? id) (tcp_connections t) ⊆ tcp_connections t).
    { intros x. rewrite elem_of_filter_bool. tauto. }
    destruct (tcp_listening t); [done|]. destruct (List.filter _ _); exact Hsub.
  - done.
  - unfold listener_stop, server_stop. destruct (nms_tcp (ln_server l)) as [t|] eqn:Et; [|by cbn; rewrite Et].
    cbn. split; [|done]. unfold tcp_close, emit_close_if_drained. cbn. destruct (tcp_connections t) eqn:Ec; by cbn; rewrite Ec.
Qed.

(** Stopping waits for the publishers.  After any history, when no connection is open every call
    of [stop] is done, and when one is open none is. *)
Lemma stop_waits_for_publishers exposes host port w es :
  let l := run_listener es (createRtmpListener exposes host port w) in
  (connections l = [] -> stops_done l = ln_stops l) /\ (connections l <> [] -> stops_done l = 0%nat).
Proof.
  cbn zeta. pose proof (listener_run_ok es _ (created_ok exposes host port w)) as Hok.
  set (l := run_listener _ _) in *. unfold listener_ok, connections, stops_done in *.
  destruct (nms_tcp (ln_server l)) as [t|]; [|split; [lia|done]]. destruct Hok as [[Hl Hw Ho Hc] ->]. cbn. split.
  - intros Hn. destruct (decide (tcp_closing t = 0%nat)) as [Hz|Hz]; [lia|]. by destruct (Hw Hz).
  - exact Ho.
Qed.
(** ... and [stop] ends no connection: the dispatcher tells its relays to end and forgets
    them, the sockets of the publishers are left open. *)
Lemma stop_leaves_publishers l :
  connections (listener_stop l) = connections l /\
  rl_destroyed (dp_relays (ln_dispatcher (listener_stop l))) = rl_destroyed (dp_relays (ln_dispatcher l)).
Proof.
  unfold listener_stop, server_stop, connections. destruct (nms_tcp (ln_server l)) as [t|] eqn:Et; cbn; [|by rewrite Et].
  split; [|done]. unfold tcp_close, emit_close_if_drained. cbn. destruct (tcp_connections t) eqn:Ec; by cbn; rewrite Ec.
Qed.
End events.

(** *** The gateway with a publisher that stays *)

Example publisher_holds_the_shutdown `{Env : Environment} {Plat : Platform} options w :
  let l := run_listener options [Connected "a"; Stop; Connected "b"] (createRtmpListener true "0.0.0.0" 1935 w) in
  connections l = ["a"] /\ stops_done l = 0%nat /\ stops_done (run_listener options [Ended "a"] l) = 1%nat.
Proof. done. Qed.
End MediaServer.

(** ** The request log and the connection pool (middleware/requestLogger.ts, db/pool.ts)

    Two hooks of the server: a request gets an id and a start time when it arrives, and a
    line of the log when it is answered.  [serve_log] is a server with its requests in
    flight. *)

Module ServerHooks.
(** *** createPool *)

Record PoolConfig := mkPoolConfig {
  pl_connectionString : string;
  pl_max : Z;
  pl_idleTimeoutMillis : Z;
  pl_connectionTimeoutMillis : Z
}.
Definition createPool (databaseUrl : string) : PoolConfig := mkPoolConfig databaseUrl 20 30000 5000.

(** *** registerRequestLogger *)

Record logged_request := mkLogged {
  lr_requestId : option string;
  lr_startedAt : option Z;
  lr_method : string;
  lr_url : string
}.
#[export] Instance logged_eta : RecEta logged_request := fun r =>
  mkLogged (lr_requestId r) (lr_startedAt r) (lr_method r) (lr_url r).
Record request_line := mkRequestLine {
  ln_request_id : option string;
  ln_method : string;
  ln_path : string;
  ln_status : Z;
  ln_duration_ms : Z
}.

Definition onRequest (randomUUID : string) (now : Z) (req : logged_request) : logged_request :=
  req <| lr_requestId := Some randomUUID |> <| lr_startedAt := Some now |>.
(** [Date.now()] is read twice when the start time is missing; the second is not earlier. *)
Definition onResponse (now later : Z) (req : logged_request) (statusCode : Z) : request_line :=
  let durationMs := now - (lr_startedAt req ?? later) in
  mkRequestLine (lr_requestId req) (lr_method req) (lr_url req) statusCode durationMs.

(** *** A server with the hooks *)

Record log_server := mkLogServer {
  sl_clock : Z;
  sl_next : nat;
  sl_flight : gmap nat logged_request;
  sl_log : list (nat * request_line)
}.
#[export] Instance log_server_eta : RecEta log_server := fun s =>
  mkLogServer (sl_clock s) (sl_next s) (sl_flight s) (sl_log s).
Definition empty_server (clock : Z) : log_server := mkLogServer clock 0 ∅ [].

Inductive log_event : Type :=
| Arrives (method url : string)
| Answered (request : nat) (status : Z)
| Passes (ms : BinNums.N).

Section server.
Context (uuid : nat -> string).
Definition react_log (s : log_server) (e : log_event) : log_server :=
  match e with
  | Arrives method url =>
      s <| sl_flight := <[sl_next s := onRequest (uuid (sl_next s)) (sl_clock s) (mkLogged None None method url)]> (sl_flight s) |>
        <| sl_next := S (sl_next s) |>
  | Answered k status =>
      match sl_flight s !! k with
      | Some req => s <| sl_flight := delete k (sl_flight s) |>
                      <| sl_log := sl_log s ++ [(k, onResponse (sl_clock s) (sl_clock s) req status)] |>
      | None => s
      end
  | Passes ms => s <| sl_clock := sl_clock s + Z.of_N ms |>
  end.
Definition serve_log (l : list log_event) (s : log_server) : log_server := foldl react_log s l.

Record log_ok (s : log_server) : Prop := {
  lo_flight : forall k req, sl_flight s !! k = Some req ->
    (k < sl_next s)%nat /\ lr_requestId req = Some (uuid k) /\ exists t, lr_startedAt req = Some t /\ t <= sl_clock s;
  lo_log : forall k line, (k, line) ∈ sl_log s ->
    (k < sl_next s)%nat /\ sl_flight s !! k = None /\ ln_request_id line = Some (uuid k) /\ 0 <= ln_duration_ms line;
  lo_once : NoDup (map fst (sl_log s));
  lo_all : forall k, (k < sl_next s)%nat -> is_Some (sl_flight s !! k) \/ k ∈ map fst (sl_log s)
}.

Lemma in_log k s : k ∈ map fst (sl_log s) -> exists line, (k, line) ∈ sl_log s.
Proof. rewrite list_elem_of_fmap. intros ([k' line] & -> & H). by exists line. Qed.

Lemma react_log_ok s e : log_ok s -> log_ok (react_log s e).
Proof.
  intros [Hf Hl Ho Ha]. destruct e as [method url|k status|ms]; cbn [react_log].
  - split; cbn.
    + intros k req. rewrite lookup_insert_Some. intros [[<- <-]|[Hne Hk]]; [split; [lia|]; cbn; eauto with lia|].
      destruct (Hf _ _ Hk) as (? & ? & ?). split; [lia|done].
    + intros k line Hk. destruct (Hl _ _ Hk) as (? & ? & ?). split; [lia|]. by rewrite lookup_insert_ne by lia.
    + done.
    + intros k Hk. destruct (decide (k = sl_next s)) as [->|Hne]; [left; rewrite lookup_insert_eq; by eexists|].
      rewrite lookup_insert_ne by done. apply Ha. lia.
  - destruct (sl_flight s !! k) as [req|] eqn:Ek; [|by split]. destruct (Hf _ _ Ek) as (Hlt & Hid & t & Ht & Hle). split; cbn.
    + intros k' req'. rewrite lookup_delete_Some. intros [_ Hk']. by apply Hf.
    + intros k' line. rewrite elem_of_app, list_elem_of_singleton. intros [Hk'|[= -> ->]].
      * destruct (Hl _ _ Hk') as (? & Hn & ?). split; [done|]. by rewrite lookup_delete_None; auto.
      * rewrite lookup_delete_eq. cbn. rewrite Hid, Ht. cbn. split_and!; try done. lia.
    + rewrite map_app. apply NoDup_app. split_and!; [done| |apply NoDup_singleton].
      intros k' Hk'. apply in_log in Hk' as (line & Hk'). destruct (Hl _ _ Hk') as (_ & Hn & _). cbn.
      rewrite list_elem_of_singleton. congruence.
    + intros k' Hk'. rewrite map_app, elem_of_app. cbn. rewrite list_elem_of_singleton.
      destruct (decide (k' = k)) as [->|Hne]; [by right; right|]. rewrite lookup_delete_ne by done.
      destruct (Ha _ Hk'); auto.
  - split; cbn; try done. intros k req Hk. destruct (Hf _ _ Hk) as (? & ? & t & ? & ?). split_and!; try done. exists t. split; [done|lia].
Qed.

(** Every request is logged once, when it is answered.  After any history a request that
    arrived is in flight or has exactly one line in the log, and the line has the id the
    request was given and a duration that is not negative. *)
Lemma requests_are_logged_once l clock k :
  let s := serve_log l (empty_server clock) in
  (k < sl_next s)%nat ->
  is_Some (sl_flight s !! k) /\ ~ k ∈ map fst (sl_log s) \/
  sl_flight s !! k = None /\ NoDup (map fst (sl_log s)) /\
  exists line, (k, line) ∈ sl_log s /\ ln_request_id line = Some (uuid k) /\ 0 <= ln_duration_ms line.
Proof.
  cbn zeta. assert (Hok : log_ok (serve_log l (empty_server clock))).
  - assert (H0 : log_ok (empty_server clock)).
    { split; cbn; [done|intros ? ? ?%not_elem_of_nil; done|constructor|lia]. }
    revert H0. generalize (empty_server clock). induction l as [|e l IH]; intros s Hs; [done|]. by apply IH, react_log_ok.
  - destruct Hok as [Hf Hl Ho Ha]. intros Hk. destruct (Ha _ Hk) as [Hs|Hin].
    + left. split; [done|]. intros (line & Hin)%in_log. destruct (Hl _ _ Hin) as (_ & Hn & _). rewrite Hn in Hs. by destruct Hs.
    + right. apply in_log in Hin as (line & Hin). destruct (Hl _ _ Hin) as (_ & Hn & Hid & Hd). split_and!; [done..|].
      by exists line.
Qed.
End server.

Example logged :
  map snd (sl_log (serve_log (fun _ => "id") [Arrives "GET" "/healthz"; Passes 7; Answered 0 200; Answered 0 200] (empty_server 100))) =
  [mkRequestLine (Some "id") "GET" "/healthz" 200 7].
Proof. vm_compute. done. Qed.
End ServerHooks.
