(* ===== verification/Dynamic.v ===== *)
(** * Dynamic values

    What JavaScript does with a value it has parsed and not checked: reading a property,
    [||] and [if] on it, its conversion to a number or to text, [toFixed], [join], [map]
    and [for ... of].  A value is an optional [json], [None] for [undefined]; an operation
    that throws a [TypeError] is an [Err].  The wording of the engine's messages is not
    kept.  Also the two conversions of settings the test programs use: [parseInt] and the
    delay [setTimeout] makes of a number. *)

From S2P Require Import Prelude Js Types JsonCompare Numbers Browser.
From Stdlib Require Import Ascii.
Open Scope Z_scope.

Definition value : Type := option json.
Definition type_error (what : string) : exn := PlainError ("TypeError: " +:+ what).

(** [value[k]] *)
Definition get_prop (v : value) (k : string) : result exn value :=
  match v with
  | None | Some JNull => Err (type_error k)
  | Some (JObj f) => Ok (assoc k f)
  | Some (JArr l) => Ok (if k ==? "length" then Some (JNum (NInt (Z.of_nat (length l)))) else None)
  | Some (JStr s) => Ok (if k ==? "length" then Some (JNum (NInt (str_len s))) else None)
  | Some _ => Ok None
  end.

Definition truthy_value (v : value) : bool :=
  match v with
  | None | Some JNull => false
  | Some (JBool b) => b
  | Some (JNum n) => match n with NInt 0 | NNaN => false | _ => true end
  | Some (JStr s) => nonempty s
  | Some (JArr _) | Some (JObj _) => true
  end.
(** [a || b] *)
Definition or_value (a b : value) : value := if truthy_value a then a else b.

(** [a === b] of values that come from two different parses: an object is equal to itself
    only. *)
Definition strict_eq (a b : value) : bool :=
  match a, b with
  | None, None | Some JNull, Some JNull => true
  | Some (JBool x), Some (JBool y) => Bool.eqb x y
  | Some (JNum x), Some (JNum y) => num_eqb x y
  | Some (JStr x), Some (JStr y) => x ==? y
  | _, _ => false
  end.
(** [v === "text"] *)
Definition is_string (v : value) (s : string) : bool := strict_eq v (Some (JStr s)).
Definition is_undefined (v : value) : bool := negb (is_present v).

(** An object literal with a property that may be [undefined], as [JSON.stringify] sees it. *)
Definition field (k : string) (v : value) : list (string * json) :=
  match v with Some j => [(k, j)] | None => [] end.

Section text.
Context (number_text : jsnum -> string).

(** [`${v}`] *)
Definition text (v : value) : string := match v with None => "undefined" | Some j => js_String number_text j end.

(** [Number(v)], which the arithmetic and relational operators apply *)
Definition to_number (v : value) : jsnum :=
  match v with
  | None | Some (JObj _) => NNaN
  | Some JNull => NInt 0
  | Some (JBool b) => NInt (if b then 1 else 0)
  | Some (JNum n) => n
  | Some (JStr s) => Number_ s
  | Some (JArr l) => Number_ (js_String number_text (JArr l))
  end.
(** [v > 0] *)
Definition positive_value (v : value) : bool := num_pos (to_number v).

(** [Number.prototype.toFixed]: the integer nearest to [x * 10^digits], the larger one of
    two, with the point put back; from 10^21 on the text of the number itself. *)
Definition fixed_digits (digits : nat) (n : Z) : string :=
  let p := 10 ^ Z.of_nat digits in
  match digits with
  | O => string_of_Z n
  | _ =>
      let fraction := string_of_Z (n mod p) in
      string_of_Z (n / p) +:+ "." +:+ repeat_char "0" (digits - String.length fraction) +:+ fraction
  end.
Definition toFixed (digits : nat) (x : jsnum) : string :=
  match fraction x with
  | None => match x with NNaN => "NaN" | _ => number_text x end
  | Some (n, d) =>
      if 10 ^ 21 * Zpos d <=? Z.abs n then number_text x
      else
        (if n <? 0 then "-" else "") +:+
        fixed_digits digits ((2 * Z.abs n * 10 ^ Z.of_nat digits + Zpos d) / (2 * Zpos d))
  end.
(** [v.toFixed(digits)]: only a number has the method. *)
Definition value_toFixed (v : value) (digits : nat) : result exn string :=
  match v with
  | Some (JNum n) => Ok (toFixed digits n)
  | _ => Err (type_error "toFixed")
  end.

(** [for (const x of v)] *)
Definition iterate (v : value) : result exn (list value) :=
  match v with
  | Some (JArr l) => Ok (map Some l)
  | Some (JStr s) => Ok (map (fun c => Some (JStr (String c EmptyString))) (String.list_ascii_of_string s))
  | _ => Err (type_error "not iterable")
  end.
(** The receiver of [v.map] and [v.join]: only an array has the methods. *)
Definition as_array (v : value) : result exn (list value) :=
  match v with
  | Some (JArr l) => Ok (map Some l)
  | _ => Err (type_error "not a function")
  end.
(** [l.join(separator)] *)
Definition join (separator : string) (l : list value) : string :=
  String.concat separator (map (fun v => match v with None | Some JNull => EmptyString | _ => text v end) l).
(** [Object.keys(v)] *)
Definition object_keys (v : value) : result exn (list string) :=
  match v with
  | None | Some JNull => Err (type_error "Object.keys")
  | Some (JObj f) => Ok (map fst f)
  | Some (JArr l) => Ok (map (fun i => string_of_Z (Z.of_nat i)) (seq 0 (length l)))
  | Some (JStr s) => Ok (map (fun i => string_of_Z (Z.of_nat i)) (seq 0 (String.length s)))
  | Some _ => Ok []
  end.
End text.

Fixpoint map_result {A B} (f : A -> result exn B) (l : list A) : result exn (list B) :=
  match l with
  | [] => Ok []
  | x :: l' => let? y := f x in let? ys := map_result f l' in Ok (y :: ys)
  end.

Definition decimal_prefix (s : string) : option Z := radix_literal 10 (fst (span_digits s)).
(** [parseInt(text, 10)]: the digits the text starts with, after white space and a sign. *)
Definition parseInt (text : string) : jsnum :=
  let digits s := match decimal_prefix s with Some z => round_double z 1 | None => NNaN end in
  match trim_start text with
  | String "-" s => num_opp (digits s)
  | String "+" s => digits s
  | s => digits s
  end.

(** The delay of [setTimeout(f, n)]: truncated to an integer, and one millisecond when it is
    not between 1 and 2^31-1. *)
Definition timer_delay (n : jsnum) : Z :=
  match fraction n with
  | Some (x, d) => if (Zpos d <=? x) && (x <=? 2147483647 * Zpos d) then x / Zpos d else 1
  | None => 1
  end.
Lemma timer_delay_positive n : 1 <= timer_delay n.
Proof.
  unfold timer_delay. destruct (fraction n) as [[x d]|]; [|lia]. destruct (_ && _) eqn:E; [|lia]. bools.
  apply Z.div_le_lower_bound; lia.
Qed.

Example toFixed_examples (t : jsnum -> string) :
  map (toFixed t 1) [NInt 100; NFrac 5 2; NFrac 1 8; NFrac 9999 100; NInt 0; NFrac (-1) 100; NNaN] =
  ["100.0"; "2.5"; "0.1"; "100.0"; "0.0"; "-0.0"; "NaN"] /\ toFixed t 0 (NFrac 5 2) = "3" /\ toFixed t 2 (NFrac 1 8) = "0.13".
Proof. by vm_compute. Qed.
Example parseInt_examples :
  map parseInt ["3000"; " 12ms"; "-5"; "+7"; "x"; ""; "1.9"] = [NInt 3000; NInt 12; NInt (-5); NInt 7; NNaN; NNaN; NInt 1].
Proof. by vm_compute. Qed.
Example timer_delays : map timer_delay [NInt 3000; NInt 0; NInt (-5); NNaN; NInf false; NInt 2147483648; NFrac 5 2] = [3000; 1; 1; 1; 1; 1; 2].
Proof. by vm_compute. Qed.
