(* ===== verification/Testers.v ===== *)
(** * The integration tests (transcode-tester/test-transcode.mjs, test-abr.mjs)

    Two command-line programs that submit a job to a transcoder, poll its status and end
    with an exit code.  A program runs over a clock, a console, a network that answers a
    request after some time, and timers that are late by some time; it stops by
    [process.exit], by an error nobody catches, or by returning.  Nothing is assumed of the
    answers: what they parse to is read as JavaScript reads it. *)

From S2P Require Import Prelude Js Types Http Numbers Browser Dynamic.
Open Scope Z_scope.

(** ** A running program *)

Inductive line : Type :=
| Log (s : string)
| LogError (s : string)
| LogErrorWith (s : string) (v : value).

(** Why a program stops before its end; [Unfinished] is a loop that exhausts its bound. *)
Inductive stop : Type :=
| Exit (code : Z)
| Thrown (e : exn)
| Unfinished.

(** [err.message]; an error that is not a plain one has its code. *)
Definition err_message (e : exn) : string :=
  match e with
  | PlainError m => m
  | PaidSessionClientError c _ | PaidJobClientError c _ | AbrExchangeError c _ | SourceProbeError c _ | AbrUsageError c => c
  | LocTransportError e => loc_code e
  end.

Section tester.
Context {W : Type}.

Record tester := mkTester {
  te_clock : Z;
  te_console : list line;
  te_trace : list (web_request * result exn web_response);
  te_failures : list string;
  te_world : W
}.
#[export] Instance tester_eta : RecEta tester := fun t =>
  mkTester (te_clock t) (te_console t) (te_trace t) (te_failures t) (te_world t).

Definition T_ (A : Type) : Type := M tester stop A.

Definition print (l : line) : T_ unit := mmodify (fun t => t <| te_console := te_console t ++ [l] |>).
Definition log (s : string) : T_ unit := print (Log s).
Definition log_error (s : string) : T_ unit := print (LogError s).
Definition exit {A} (code : Z) : T_ A := mthrow (Exit code).
Definition lift {A} (r : result exn A) : T_ A :=
  match r with Ok a => mret_ a | Err e => mthrow (Thrown e) end.
(** [Date.now()] *)
Definition now : T_ Z := mget te_clock.
(** [try { m } catch (err) { h }]: [process.exit] is not caught. *)
Definition try_catch {A} (m : T_ A) (h : exn -> T_ A) : T_ A := fun t =>
  match m t with
  | (Err (Thrown e), t') => h e t'
  | r => r
  end.
(** [failures.push(message)] after a condition that is false *)
Definition assert (condition : bool) (message : string) : T_ unit :=
  if condition then mret_ tt
  else
    run! log_error ("  ASSERTION FAILED: " +:+ message);
    mmodify (fun t => t <| te_failures := te_failures t ++ [message] |>).

(** The network answers a request made at a time, after so many milliseconds; a timer
    fires late by so many. *)
Context (net : web_request -> Z -> W -> (result exn web_response * BinNums.N) * W).
Context (late : Z -> Z -> W -> BinNums.N * W).

Definition fetch_at (rq : web_request) : T_ web_response := fun t =>
  let '((r, d), w) := net rq (te_clock t) (te_world t) in
  let t' := t <| te_clock := te_clock t + Z.of_N d |> <| te_trace := te_trace t ++ [(rq, r)] |> <| te_world := w |> in
  lift r t'.

Definition sleep (ms : jsnum) : T_ unit := fun t =>
  let '(d, w) := late (timer_delay ms) (te_clock t) (te_world t) in
  (Ok tt, t <| te_clock := te_clock t + timer_delay ms + Z.of_N d |> <| te_world := w |>).

Definition get_request (url : string) : web_request := mkWebRequest "GET" url [] None.
Definition json_headers : list (string * string) := [("Content-Type", "application/json")].
Definition post_request `{Platform} (url : string) (body : json) : web_request :=
  mkWebRequest "POST" url json_headers (Some (stringify body)).

(** The exit code: a program that returns exits with 0, one that throws with 1. *)
Definition exit_code (r : result stop unit) : option Z :=
  match r with
  | Ok _ => Some 0
  | Err (Exit c) => Some c
  | Err (Thrown _) => Some 1
  | Err Unfinished => None
  end.
End tester.
Arguments tester : clear implicits.
Arguments T_ : clear implicits.

(** A setting of the environment, or a default when it is missing or empty *)
Definition setting (env : string -> option string) (k d : string) : string := if truthy (env k) then env k ?? d else d.

(** A text between double quotes *)
Definition quoted (s : string) : string :=
  let q := String (Ascii.ascii_of_nat 34) EmptyString in q +:+ s +:+ q.

Definition newline : string := String (Ascii.ascii_of_nat 10) EmptyString.

(** ** test-transcode.mjs *)

Module Transcode.
Section program.
Context `{Plat : Platform} {W : Type}.
Context (net : web_request -> Z -> W -> (result exn web_response * BinNums.N) * W).
Context (late : Z -> Z -> W -> BinNums.N * W).
Context (number_text : jsnum -> string) (env : string -> option string) (argv2 : option string).
#[local] Abbreviation T := (T_ W).
#[local] Abbreviation fetch := (fetch_at net).
#[local] Abbreviation show := (text number_text).
#[local] Abbreviation fixed := (value_toFixed number_text).

Definition proxyURL : string := setting env "OPENAI_BASE_URL" "http://localhost:8090/v1".
Definition submitEndpoint : string := proxyURL +:+ "/video/transcode".
Definition statusEndpoint : string := proxyURL +:+ "/video/transcode/status".
Definition presetsEndpoint : string := proxyURL +:+ "/video/transcode/presets".
Definition pollIntervalMs : jsnum := parseInt (setting env "POLL_INTERVAL_MS" "3000").
Definition mode : string := if truthy argv2 then argv2 ?? "" else "quick".
Definition defaultInputURL : string :=
  "https://test-videos.co.uk/vids/bigbuckbunny/mp4/h264/720/Big_Buck_Bunny_720_10s_1MB.mp4".
Definition inputURL : string := setting env "INPUT_URL" defaultInputURL.
Definition outputURL : string := setting env "OUTPUT_URL" "".
Definition preset : string := setting env "PRESET" "h264-720p".

(** An answer that is not a success ends the program. *)
Definition require_ok (response : web_response) : T unit :=
  if res_ok response then mret_ tt
  else
    run! log_error ("Error: HTTP " +:+ string_of_Z (ws_status response) +:+ " — " +:+ ws_text response);
    exit 1.

Definition count_text (n : list string) : string := string_of_Z (Z.of_nat (length n)).

Definition print_preset (p : value) : T unit :=
  do! gpu_required <- lift (get_prop p "gpu_required");
  let encoder := if truthy_value gpu_required then "GPU" else "CPU" in
  do! name <- lift (get_prop p "name");
  do! video_codec <- lift (get_prop p "video_codec");
  do! width <- lift (get_prop p "width");
  do! height <- lift (get_prop p "height");
  do! bitrate <- lift (get_prop p "bitrate");
  log ("  [" +:+ show name +:+ "] " +:+ show video_codec +:+ " " +:+ show width +:+ "x" +:+ show height +:+ " @ " +:+
       show bitrate +:+ " (" +:+ encoder +:+ ")").

Definition testPresets : T unit :=
  run! log "=== Transcode Presets Test ===";
  run! log ("  Endpoint: " +:+ presetsEndpoint);
  run! log "";
  do! response <- fetch (get_request presetsEndpoint);
  run! require_ok response;
  do! body <- lift (res_json response);
  let result := Some body in
  do! gpu <- lift (get_prop result "gpu");
  run! log ("GPU:     " +:+ show (or_value gpu (Some (JStr "none"))));
  do! count <- lift (get_prop result "count");
  run! log ("Presets: " +:+ show count);
  run! log "";
  do! presets <- lift (get_prop result "presets");
  do! present <- (if truthy_value presets
                  then do! n <- lift (get_prop presets "length"); mret_ (positive_value number_text n)
                  else mret_ false);
  run! (if present : bool then
          run! log "Available presets:";
          do! items <- lift (iterate presets);
          mfold (fun _ p => print_preset p) tt items
        else mret_ tt);
  run! assert (positive_value number_text count) "at least one preset should be available";
  run! log "";
  do! failures <- mget te_failures;
  run! (match failures with
        | [] => mret_ tt
        | _ => run! log_error ("=== FAILED (" +:+ count_text failures +:+ " assertion failure(s)) ==="); exit 1
        end);
  log "=== PASSED ===".

Definition maxPollTime : Z := 5 * 60 * 1000.

(** The variables of the polling loop *)
Record polling := mkPolling { po_lastPhase : value; po_done : bool; po_hadError : bool }.
#[export] Instance polling_eta : RecEta polling := fun p => mkPolling (po_lastPhase p) (po_done p) (po_hadError p).

Definition status_request (jobId : value) : web_request := post_request statusEndpoint (JObj (field "job_id" jobId)).

(** One request for the status: [None] where the loop goes on to the next. *)
Definition ask_status (jobId : value) : T (option json) :=
  try_catch
    (do! statusResponse <- fetch (status_request jobId);
     if res_ok statusResponse then do! j <- lift (res_json statusResponse); mret_ (Some j)
     else
       run! log_error ("  Poll error: HTTP " +:+ string_of_Z (ws_status statusResponse) +:+ " — " +:+ ws_text statusResponse);
       mret_ None)
    (fun err => run! log_error ("  Poll error: " +:+ err_message err); mret_ None).

Definition print_progress (statusResult phase progress : value) : T unit :=
  if is_string phase "encoding" && negb (is_undefined progress) then
    do! encoding_fps <- lift (get_prop statusResult "encoding_fps");
    do! speed <- lift (get_prop statusResult "speed");
    do! p <- lift (fixed progress 1);
    do! fps <- lift (fixed (or_value encoding_fps (Some (JNum (NInt 0)))) 1);
    log ("  Progress: " +:+ p +:+ "% | FPS: " +:+ fps +:+ " | Speed: " +:+ show (or_value speed (Some (JStr ""))))
  else if is_string phase "downloading" || is_string phase "uploading" then
    (if is_undefined progress then mret_ tt
     else do! p <- lift (fixed progress 1); log ("  Progress: " +:+ p +:+ "%"))
  else mret_ tt.

Definition print_input (inp : value) : T unit :=
  do! video_codec <- lift (get_prop inp "video_codec");
  do! width <- lift (get_prop inp "width");
  do! height <- lift (get_prop inp "height");
  do! fps <- lift (get_prop inp "fps");
  do! duration <- lift (get_prop inp "duration");
  do! d <- lift (fixed duration 1);
  log ("  Input:  " +:+ show video_codec +:+ " " +:+ show width +:+ "x" +:+ show height +:+ " @ " +:+ show fps +:+
       "fps, " +:+ d +:+ "s").
Definition megabytes (size : value) : string :=
  toFixed number_text 1 (num_div (num_div (to_number number_text size) (NInt 1024)) (NInt 1024)) +:+ "MB".
Definition print_output (out : value) : T unit :=
  do! video_codec <- lift (get_prop out "video_codec");
  do! width <- lift (get_prop out "width");
  do! height <- lift (get_prop out "height");
  do! fps <- lift (get_prop out "fps");
  do! file_size <- lift (get_prop out "file_size");
  log ("  Output: " +:+ show video_codec +:+ " " +:+ show width +:+ "x" +:+ show height +:+ " @ " +:+ show fps +:+
       "fps, " +:+ megabytes file_size).
Definition print_result (statusResult : value) : T unit :=
  run! log "";
  run! log "--- Result ---";
  do! input <- lift (get_prop statusResult "input");
  run! (if truthy_value input then print_input input else mret_ tt);
  do! output <- lift (get_prop statusResult "output");
  run! (if truthy_value output then print_output output else mret_ tt);
  do! gpu <- lift (get_prop statusResult "gpu");
  run! log ("  GPU:    " +:+ show (or_value gpu (Some (JStr "none"))));
  do! seconds <- lift (get_prop statusResult "processing_time_seconds");
  do! t <- lift (fixed seconds 1);
  log ("  Time:   " +:+ t +:+ "s").

(** [statusResult.input && statusResult.input.video_codec] *)
Definition codec_detected (statusResult : value) : result exn bool :=
  let? input := get_prop statusResult "input" in
  if truthy_value input then let? codec := get_prop input "video_codec" in Ok (truthy_value codec) else Ok false.

Definition print_error (statusResult : value) : T unit :=
  run! log "";
  do! error <- lift (get_prop statusResult "error");
  run! log_error ("  ERROR: " +:+ show error);
  do! error_code <- lift (get_prop statusResult "error_code");
  log_error ("  Code:  " +:+ show error_code).

(** An upload error when no output was given *)
Definition expected_error (statusResult : value) : result exn bool :=
  if nonempty outputURL then Ok false
  else let? error_code := get_prop statusResult "error_code" in Ok (is_string error_code "UPLOAD_ERROR").

Definition handle_status (statusResult : value) (po : polling) : T polling :=
  do! phase <- lift (get_prop statusResult "phase");
  do! status <- lift (get_prop statusResult "status");
  do! progress <- lift (get_prop statusResult "progress");
  do! po <- (if truthy_value phase && negb (strict_eq phase (po_lastPhase po))
             then run! log ("--- Phase: " +:+ show phase +:+ " ---"); mret_ (po <| po_lastPhase := phase |>)
             else mret_ po);
  run! print_progress statusResult phase progress;
  if is_string status "complete" then
    run! print_result statusResult;
    do! ok <- lift (codec_detected statusResult);
    run! assert ok "input should have video_codec detected";
    mret_ (po <| po_done := true |>)
  else if is_string status "error" then
    run! print_error statusResult;
    do! expected <- lift (expected_error statusResult);
    if expected : bool then
      run! log "";
      run! log "  (Upload error is expected when no OUTPUT_URL is set)";
      run! log "  Encoding phase completed successfully.";
      do! ok <- lift (codec_detected statusResult);
      run! assert ok "input should have video_codec detected before upload failure";
      mret_ (po <| po_done := true |>)
    else mret_ (po <| po_hadError := true |> <| po_done := true |>)
  else mret_ po.

Definition poll_once (jobId : value) (po : polling) : T polling :=
  run! sleep late pollIntervalMs;
  do! answer <- ask_status jobId;
  match answer with
  | None => mret_ po
  | Some j => handle_status (Some j) po
  end.

Fixpoint poll_loop (fuel : nat) (jobId : value) (startTime : Z) (po : polling) : T polling :=
  do! time <- now;
  if negb (po_done po) && (time - startTime <? maxPollTime) then
    match fuel with
    | O => mthrow Unfinished
    | S fuel' => do! po' <- poll_once jobId po; poll_loop fuel' jobId startTime po'
    end
  else mret_ po.

(** The polls that fit in the five minutes *)
Definition max_polls : Z := maxPollTime / timer_delay pollIntervalMs + 1.

Definition print_banner : T unit :=
  run! log "=== Transcode Quick Test ===";
  run! log ("  Submit:    " +:+ submitEndpoint);
  run! log ("  Status:    " +:+ statusEndpoint);
  run! log ("  Input:     " +:+ inputURL);
  run! log ("  Output:    " +:+ (if nonempty outputURL then outputURL else "(none — will test up to encoding)"));
  run! log ("  Preset:    " +:+ preset);
  run! log ("  Poll:      " +:+ number_text pollIntervalMs +:+ "ms");
  run! log "";
  if nonempty outputURL then mret_ tt
  else
    run! log "NOTE: No OUTPUT_URL set. Job will complete encoding but fail at upload.";
    run! log "      Set OUTPUT_URL to a pre-signed PUT URL for full end-to-end test.";
    log "".

Definition submit_request : web_request :=
  post_request submitEndpoint
    (JObj [("input_url", JStr inputURL);
           ("output_url", JStr (if nonempty outputURL then outputURL else "https://example.com/output.mp4"));
           ("preset", JStr preset)]).

(** Submitting the job: its id *)
Definition submit_job : T value :=
  run! log "Submitting job...";
  do! submitResponse <- fetch submit_request;
  run! require_ok submitResponse;
  do! body <- lift (res_json submitResponse);
  let submitResult := Some body in
  do! jobId <- lift (get_prop submitResult "job_id");
  run! assert (truthy_value jobId) "job_id should be present in response";
  do! status <- lift (get_prop submitResult "status");
  run! assert (is_string status "queued")
         ("status should be " +:+ quoted "queued" +:+ ", got " +:+ quoted (show status));
  run! log ("  Job ID: " +:+ show jobId);
  run! log ("  Status: " +:+ show status);
  run! log "";
  if truthy_value jobId then mret_ jobId
  else run! log_error "Cannot continue without job_id"; exit 1.

Definition elapsed_text (digits : nat) (ms : Z) : string := toFixed number_text digits (num_div (NInt ms) (NInt 1000)).

Definition conclude (startTime : Z) (po : polling) : T unit :=
  do! hadError <- (if po_done po then mret_ (po_hadError po)
                   else run! log_error "Timeout: job did not complete within 5 minutes"; mret_ true);
  do! time <- now;
  let elapsed := elapsed_text 1 (time - startTime) in
  run! log "";
  do! failures <- mget te_failures;
  if hadError || negb (failures ==? []) then
    run! log_error ("=== FAILED after " +:+ elapsed +:+ "s" +:+
                    (if failures ==? [] then "" else " (" +:+ count_text failures +:+ " assertion failure(s))") +:+ " ===");
    exit 1
  else
    run! log ("=== PASSED in " +:+ elapsed +:+ "s ===");
    exit 0.

Definition testQuick : T unit :=
  run! print_banner;
  do! jobId <- submit_job;
  do! startTime <- now;
  do! po <- poll_loop (Z.to_nat max_polls) jobId startTime (mkPolling (Some (JStr "")) false false);
  conclude startTime po.

Definition main : T unit :=
  try_catch
    (if mode ==? "presets" then testPresets
     else if mode ==? "quick" then testQuick
     else
       run! log_error ("Unknown mode: " +:+ quoted mode +:+ ". Use " +:+ quoted "quick" +:+ " or " +:+ quoted "presets" +:+ ".");
       exit 1)
    (fun err => run! log_error ("Error: " +:+ err_message err); exit 1).
End program.
End Transcode.

(** ** test-abr.mjs *)

Module Abr.
Section program.
Context `{Plat : Platform} {W : Type}.
Context (net : web_request -> Z -> W -> (result exn web_response * BinNums.N) * W).
Context (late : Z -> Z -> W -> BinNums.N * W).
Context (number_text : jsnum -> string) (env : string -> option string) (argv2 : option string).
#[local] Abbreviation T := (T_ W).
#[local] Abbreviation show := (text number_text).
#[local] Abbreviation fixed := (value_toFixed number_text).

Definition PROXY : string := setting env "PROXY_URL" "http://localhost:8090".
Definition MODE : string := if truthy argv2 then argv2 ?? "" else "presets".

(** The status and the parsed body, or the text of a body that does not parse *)
Definition reading (res : web_response) : Z * value :=
  (ws_status res, Some (match json_parse (ws_text res) with Some j => j | None => JStr (ws_text res) end)).
Definition post (path : string) (body : json) : T (Z * value) :=
  do! res <- fetch_at net (post_request (PROXY +:+ path) body); mret_ (reading res).
Definition get (path : string) : T (Z * value) :=
  do! res <- fetch_at net (get_request (PROXY +:+ path)); mret_ (reading res).

Definition print_preset (p : value) : T unit :=
  do! name <- lift (get_prop p "name");
  do! description <- lift (get_prop p "description");
  run! log ("  [" +:+ show name +:+ "] " +:+ show description);
  do! renditions <- lift (get_prop p "renditions");
  do! items <- lift (as_array renditions);
  do! names <- lift (map_result (fun r => get_prop r "name") items);
  run! log ("    Renditions: " +:+ join number_text ", " names);
  do! segment_duration <- lift (get_prop p "segment_duration");
  run! log ("    Segment duration: " +:+ show segment_duration +:+ "s");
  log "".

Definition testPresets : T unit :=
  run! log ("Fetching ABR presets..." +:+ newline);
  do! answer <- get "/v1/video/transcode/abr/presets";
  let '(status, data) := answer in
  run! log ("Status: " +:+ string_of_Z status);
  run! (if status =? 200 then mret_ tt else run! print (LogErrorWith "Failed to fetch presets:" data); exit 1);
  do! gpu <- lift (get_prop data "gpu");
  run! log ("GPU: " +:+ show gpu);
  do! count <- lift (get_prop data "count");
  run! log ("Presets: " +:+ show count +:+ newline);
  do! presets <- lift (get_prop data "presets");
  do! items <- lift (iterate presets);
  run! mfold (fun _ p => print_preset p) tt items;
  log "Presets test passed.".

Definition timeout : Z := 30 * 60 * 1000.
Definition poll_interval : jsnum := NInt 3000.

Definition rendition_summary (r : value) : result exn string :=
  let? progress := get_prop r "progress" in
  let? pct := fixed progress 1 in
  let? encoding_fps := get_prop r "encoding_fps" in
  let? fps := (if positive_value number_text encoding_fps
               then let? f := fixed encoding_fps 0 in Ok (" " +:+ f +:+ "fps")
               else Ok "") in
  let? speed := get_prop r "speed" in
  let speed := or_value speed (Some (JStr "")) in
  let? name := get_prop r "name" in
  let? status := get_prop r "status" in
  Ok (show name +:+ ":" +:+ show status +:+ "(" +:+ pct +:+ "%" +:+ fps +:+
      (if truthy_value speed then " " +:+ show speed else "") +:+ ")").

Definition print_status (elapsed : string) (st : value) : T unit :=
  do! renditions <- lift (get_prop st "renditions");
  do! items <- lift (as_array renditions);
  do! summaries <- lift (map_result rendition_summary items);
  let rendSummary := String.concat " | " summaries in
  do! phase <- lift (get_prop st "phase");
  do! overall_progress <- lift (get_prop st "overall_progress");
  do! overall <- lift (fixed overall_progress 1);
  log ("[" +:+ elapsed +:+ "s] " +:+ show phase +:+ " overall=" +:+ overall +:+ "% " +:+ rendSummary).

Definition print_input (input : value) : T unit :=
  do! width <- lift (get_prop input "width");
  do! height <- lift (get_prop input "height");
  do! video_codec <- lift (get_prop input "video_codec");
  do! duration <- lift (get_prop input "duration");
  do! d <- lift (fixed duration 1);
  log ("Input: " +:+ show width +:+ "x" +:+ show height +:+ " " +:+ show video_codec +:+ " " +:+ d +:+ "s").
Definition print_rendition (r : value) : T unit :=
  do! file_size <- lift (get_prop r "file_size");
  let size := if truthy_value file_size then Transcode.megabytes number_text file_size else "?" in
  do! name <- lift (get_prop r "name");
  do! bitrate <- lift (get_prop r "bitrate");
  log ("  " +:+ show name +:+ ": bitrate=" +:+ show (or_value bitrate (Some (JStr "?"))) +:+ " size=" +:+ size).
Definition print_complete (st : value) : T unit :=
  do! seconds <- lift (get_prop st "processing_time_seconds");
  do! t <- lift (fixed seconds 1);
  run! log (newline +:+ "Job complete in " +:+ t +:+ "s");
  do! gpu <- lift (get_prop st "gpu");
  run! log ("GPU: " +:+ show gpu);
  do! input <- lift (get_prop st "input");
  run! (if truthy_value input then print_input input else mret_ tt);
  do! renditions <- lift (get_prop st "renditions");
  do! items <- lift (iterate renditions);
  run! mfold (fun _ r => print_rendition r) tt items;
  log (newline +:+ "Quick test passed.").

Definition status_request (jobId : value) : web_request :=
  post_request (PROXY +:+ "/v1/video/transcode/abr/status") (JObj (field "job_id" jobId)).

(** One turn of the loop: whether the job is complete *)
Definition poll_once (jobId : value) (startTime : Z) : T bool :=
  run! sleep late poll_interval;
  do! answer <- post "/v1/video/transcode/abr/status" (JObj (field "job_id" jobId));
  let '(_, st) := answer in
  do! time <- now;
  run! print_status (Transcode.elapsed_text number_text 0 (time - startTime)) st;
  do! status <- lift (get_prop st "status");
  if is_string status "complete" then run! print_complete st; mret_ true
  else if is_string status "error" then
    do! error <- lift (get_prop st "error");
    do! error_code <- lift (get_prop st "error_code");
    run! log_error (newline +:+ "Job failed: " +:+ show error +:+ " (" +:+ show error_code +:+ ")");
    exit 1
  else mret_ false.

(** The loop returns [true] where the program returns from it, [false] where time is up. *)
Fixpoint poll_loop (fuel : nat) (jobId : value) (startTime : Z) : T bool :=
  do! time <- now;
  if time - startTime <? timeout then
    match fuel with
    | O => mthrow Unfinished
    | S fuel' =>
        do! complete <- poll_once jobId startTime;
        if complete : bool then mret_ true else poll_loop fuel' jobId startTime
    end
  else mret_ false.

Definition max_polls : Z := timeout / timer_delay poll_interval + 1.

Definition presetName : string := setting env "ABR_PRESET" "abr-standard".

Definition submit_body (inputURL manifestURL : string) (renditionURLs : json) : json :=
  JObj [("input_url", JStr inputURL);
        ("output_urls", JObj [("manifest", JStr manifestURL); ("renditions", renditionURLs)]);
        ("preset", JStr presetName)].

(** The settings of the quick mode, [RENDITION_URLS] parsed *)
Definition quick_settings : T (string * string * json) :=
  if negb (truthy (env "INPUT_URL")) || negb (truthy (env "MANIFEST_URL")) || negb (truthy (env "RENDITION_URLS")) then
    run! log_error "Quick mode requires INPUT_URL, MANIFEST_URL, and RENDITION_URLS environment variables.";
    run! log_error ("RENDITION_URLS should be JSON like: '{" +:+ quoted "1080p" +:+ ":{" +:+ quoted "playlist" +:+ ":" +:+
                    quoted "..." +:+ "," +:+ quoted "stream" +:+ ":" +:+ quoted "..." +:+ "},...}'");
    exit 1
  else
    match json_parse (env "RENDITION_URLS" ?? "") with
    | Some renditionURLs => mret_ (env "INPUT_URL" ?? "", env "MANIFEST_URL" ?? "", renditionURLs)
    | None => run! print (LogErrorWith "RENDITION_URLS is not valid JSON:" (Some (JStr "Unexpected token"))); exit 1
    end.

Definition submit_job (inputURL manifestURL : string) (renditionURLs : json) : T value :=
  run! log ("Submitting ABR job with preset: " +:+ presetName);
  run! log ("Input: " +:+ String.substring 0 80 inputURL +:+ "...");
  do! names <- lift (object_keys (Some renditionURLs));
  run! log ("Renditions: " +:+ String.concat ", " names +:+ newline);
  do! answer <- post "/v1/video/transcode/abr" (submit_body inputURL manifestURL renditionURLs);
  let '(status, data) := answer in
  run! (if status =? 202 then mret_ tt
        else run! print (LogErrorWith ("Submit failed (HTTP " +:+ string_of_Z status +:+ "):") data); exit 1);
  do! jobId <- lift (get_prop data "job_id");
  run! log ("Job submitted: " +:+ show jobId);
  do! renditions <- lift (get_prop data "renditions");
  do! items <- lift (as_array renditions);
  run! log ("Renditions: " +:+ join number_text ", " items +:+ newline);
  mret_ jobId.

Definition testQuick : T unit :=
  do! settings <- quick_settings;
  let '(inputURL, manifestURL, renditionURLs) := settings in
  do! jobId <- submit_job inputURL manifestURL renditionURLs;
  do! startTime <- now;
  do! complete <- poll_loop (Z.to_nat max_polls) jobId startTime;
  if complete : bool then mret_ tt
  else run! log_error "Timeout waiting for job completion"; exit 1.

Definition main : T unit :=
  if MODE ==? "presets" then testPresets
  else if MODE ==? "quick" then testQuick
  else
    run! log_error ("Unknown mode: " +:+ MODE +:+ ". Use " +:+ quoted "presets" +:+ " or " +:+ quoted "quick" +:+ ".");
    exit 1.
End program.
End Abr.
