(* ===== verification/TestersSpec.v ===== *)
(** * What the integration tests decide

    A test always ends, after a bounded number of requests; it passes only when the server
    accepted the job and the last status it gave is a finished one. *)

From S2P Require Import Prelude Js Types Http Numbers Browser Dynamic Testers.
Open Scope Z_scope.

(** ** Computations of a test *)

Section generic.
Context {W : Type}.
#[local] Abbreviation T := (T_ W).
#[local] Abbreviation tester := (tester W).

(** Nothing changes but the console. *)
Definition silent (t t' : tester) : Prop :=
  te_clock t' = te_clock t /\ te_trace t' = te_trace t /\ te_failures t' = te_failures t /\ te_world t' = te_world t.
Lemma silent_refl t : silent t t.
Proof. done. Qed.
Lemma silent_trans t1 t2 t3 : silent t1 t2 -> silent t2 t3 -> silent t1 t3.
Proof. unfold silent. intuition congruence. Qed.

(** A computation that only prints, and may throw *)
Definition quiet {A} (m : T A) : Prop :=
  forall t, silent t (snd (m t)) /\ match fst (m t) with Ok _ | Err (Thrown _) => True | _ => False end.

Lemma quiet_ret {A} (a : A) : quiet (mret_ a).
Proof. by intros t. Qed.
Lemma quiet_print l : quiet (print l).
Proof. by intros t. Qed.
Lemma quiet_log s : quiet (log s).
Proof. apply quiet_print. Qed.
Lemma quiet_log_error s : quiet (log_error s).
Proof. apply quiet_print. Qed.
Lemma quiet_lift {A} (r : result exn A) : quiet (lift r).
Proof. by destruct r; intros t. Qed.
Lemma quiet_now : quiet now.
Proof. by intros t. Qed.
Lemma quiet_get {A} (f : tester -> A) : quiet (mget f).
Proof. by intros t. Qed.
Lemma quiet_bind {A B} (m : T A) (k : A -> T B) : quiet m -> (forall a, quiet (k a)) -> quiet (mbind_ m k).
Proof.
  intros Hm Hk t. unfold mbind_. specialize (Hm t). destruct (m t) as [[a|e] t1]; [|done].
  destruct Hm as [H1 _]. specialize (Hk a t1) as [H2 H3]. split; [by eapply silent_trans|done].
Qed.
Lemma quiet_fold {A} (f : A -> T unit) l : (forall a, quiet (f a)) -> quiet (mfold (fun _ => f) tt l).
Proof.
  intros Hf. induction l as [|x l IH]; [apply quiet_ret|]. cbn. apply quiet_bind; [done|]. by intros [].
Qed.

(** What a run satisfies *)
Definition wp {A} (m : T A) (Q : result stop A -> tester -> Prop) (t : tester) : Prop := Q (fst (m t)) (snd (m t)).

Lemma wp_bind {A B} (m : T A) (k : A -> T B) Q t :
  wp m (fun r t' => match r with Ok a => wp (k a) Q t' | Err e => Q (Err e) t' end) t -> wp (mbind_ m k) Q t.
Proof. unfold wp, mbind_. by destruct (m t) as [[a|e] t1]. Qed.
Lemma wp_mono {A} (m : T A) (Q Q' : result stop A -> tester -> Prop) t :
  (forall r t', Q r t' -> Q' r t') -> wp m Q t -> wp m Q' t.
Proof. unfold wp. auto. Qed.
Lemma wp_quiet {A} (m : T A) (Q : result stop A -> tester -> Prop) t :
  quiet m -> (forall a t', silent t t' -> Q (Ok a) t') -> (forall e t', silent t t' -> Q (Err (Thrown e)) t') -> wp m Q t.
Proof.
  intros Hm Hok Herr. unfold wp. specialize (Hm t). destruct (m t) as [[a|[c|e|]] t']; destruct Hm as [Hs Hr]; try done.
  - by apply Hok.
  - by apply Herr.
Qed.
Lemma wp_bind_quiet {A B} (m : T A) (k : A -> T B) (Q : result stop B -> tester -> Prop) t :
  quiet m -> (forall a t', silent t t' -> wp (k a) Q t') -> (forall e t', silent t t' -> Q (Err (Thrown e)) t') ->
  wp (mbind_ m k) Q t.
Proof. intros Hm Hok Herr. apply wp_bind, wp_quiet; [done|exact Hok|exact Herr]. Qed.
Lemma wp_bind_lift {A B} (r : result exn A) (k : A -> T B) (Q : result stop B -> tester -> Prop) t :
  (forall a, r = Ok a -> wp (k a) Q t) -> (forall e, r = Err e -> Q (Err (Thrown e)) t) -> wp (mbind_ (lift r) k) Q t.
Proof. destruct r as [a|e]; unfold wp; cbn; intros Hok Herr; [by apply Hok|by apply Herr]. Qed.

(** Some time passes and some requests are made before a computation ends, with an exit
    code of 0 or 1 when it exits. *)
Definition ends_at {A} (requests : nat) (ms : Z) (m : T A) (t : tester) : Prop :=
  (length (te_trace (snd (m t))) <= length (te_trace t) + requests)%nat /\
  match fst (m t) with
  | Ok _ => te_clock t + ms <= te_clock (snd (m t))
  | Err (Exit c) => c = 0 \/ c = 1
  | Err (Thrown _) => te_clock t <= te_clock (snd (m t))
  | Err Unfinished => False
  end.
Definition ends {A} (requests : nat) (ms : Z) (m : T A) : Prop := forall t, ends_at requests ms m t.

Lemma ends_now {A} k d (f : Z -> T A) : (forall t, ends_at k d (f (te_clock t)) t) -> ends k d (mbind_ now f).
Proof. intros Hf t. exact (Hf t). Qed.
Lemma ends_at_bind {A B} k1 k2 (m : T A) (f : A -> T B) t :
  ends_at k1 0 m t -> (forall a, ends k2 0 (f a)) -> ends_at (k1 + k2) 0 (mbind_ m f) t.
Proof.
  intros [Hk Hr] Hf. unfold ends_at, mbind_. destruct (m t) as [[a|e] t1]; cbn in *.
  - specialize (Hf a t1) as [Hk' Hr']. split; [lia|]. destruct (fst (f a t1)) as [?|[]]; try done; lia.
  - split; [lia|done].
Qed.

Lemma ends_quiet {A} k (m : T A) : quiet m -> ends k 0 m.
Proof.
  intros Hm t. specialize (Hm t) as [(Hc & Ht & _) Hr]. unfold ends_at. rewrite Ht, Hc. split; [lia|].
  destruct (fst (m t)) as [?|[]]; try done; lia.
Qed.
Lemma ends_exit {A} k (c : Z) : c = 0 \/ c = 1 -> ends (A := A) k 0 (exit c).
Proof. intros Hc t. split; [cbn; lia|done]. Qed.
Lemma ends_bind {A B} k1 k2 d1 d2 (m : T A) (f : A -> T B) :
  0 <= d1 -> ends k1 d1 m -> (forall a, ends k2 d2 (f a)) -> ends (k1 + k2) (d1 + d2) (mbind_ m f).
Proof.
  intros Hd Hm Hf t. unfold ends_at, mbind_. specialize (Hm t) as [Hk Hr]. destruct (m t) as [[a|e] t1]; cbn in *.
  - specialize (Hf a t1) as [Hk' Hr']. split; [lia|]. destruct (fst (f a t1)) as [?|[]]; try done; lia.
  - split; [lia|done].
Qed.
(** A step that takes no request, before the rest *)
Lemma ends_then {A B} k d (m : T A) (f : A -> T B) : ends 0 0 m -> (forall a, ends k d (f a)) -> ends k d (mbind_ m f).
Proof. intros Hm Hf. exact (ends_bind 0 k 0 d m f (Z.le_refl 0) Hm Hf). Qed.
Lemma ends_after {A B} k d (m : T A) (f : A -> T B) : quiet m -> (forall a, ends k d (f a)) -> ends k d (mbind_ m f).
Proof. intros Hm. apply ends_then. by apply ends_quiet. Qed.
Lemma ends_assert b s : ends 0 0 (assert (W := W) b s).
Proof. destruct b; intros t; (split; [cbn; lia|]); cbn; lia. Qed.
Lemma ends_catch {A} k (m : T A) (h : exn -> T A) :
  ends k 0 m -> (forall e, ends 0 0 (h e)) -> ends k 0 (try_catch m h).
Proof.
  intros Hm Hh t. unfold ends_at, try_catch. specialize (Hm t) as [Hk Hr]. destruct (m t) as [[a|[c|e|]] t1]; cbn in *; try done.
  specialize (Hh e t1) as [Hk' Hr']. split; [lia|]. destruct (fst (h e t1)) as [?|[]]; try done; lia.
Qed.
Lemma ends_mono {A} k k' d (m : T A) : (k <= k')%nat -> ends k d m -> ends k' d m.
Proof. intros Hk Hm t. specialize (Hm t) as [H1 H2]. split; [lia|done]. Qed.

Context (net : web_request -> Z -> W -> (result exn web_response * BinNums.N) * W).
Context (late : Z -> Z -> W -> BinNums.N * W).
Lemma ends_fetch rq : ends 1 0 (fetch_at net rq).
Proof.
  intros t. unfold ends_at, fetch_at. destruct (net _ _ _) as [[r d] w]. destruct r as [a|e]; cbn; rewrite length_app; cbn; split; lia.
Qed.
Lemma ends_sleep ms : ends 0 (timer_delay ms) (sleep late ms).
Proof. intros t. unfold ends_at, sleep. destruct (late _ _ _) as [d w]. cbn. split; lia. Qed.
Lemma ends_fetch_bind {B} k d rq (f : web_response -> T B) :
  (forall a, ends k d (f a)) -> ends (S k) d (mbind_ (fetch_at net rq) f).
Proof. intros Hf. exact (ends_bind 1 k 0 d _ f (Z.le_refl 0) (ends_fetch rq) Hf). Qed.
End generic.

Ltac quiet_tac :=
  repeat first
    [ apply quiet_ret | apply quiet_log | apply quiet_log_error | apply quiet_print | apply quiet_lift | apply quiet_now
    | apply quiet_get | apply quiet_bind; [|intros ?] | apply quiet_fold; intros ? | case_match; cbv beta ].
Ltac ends_tac :=
  repeat first
    [ apply ends_fetch_bind; intros ?
    | apply ends_after; [solve [quiet_tac]|intros ?]
    | apply ends_then; [apply ends_assert|intros ?]
    | apply ends_exit; lia
    | apply ends_quiet; solve [quiet_tac]
    | apply ends_catch; [|intros ?]
    | case_match; cbv beta ].

Module TranscodeFacts.
Import Testers.Transcode.
Section program.
Context `{Plat : Platform} {W : Type}.
Context (net : web_request -> Z -> W -> (result exn web_response * BinNums.N) * W).
Context (late : Z -> Z -> W -> BinNums.N * W).
Context (number_text : jsnum -> string) (env : string -> option string) (argv2 : option string).

Lemma quiet_progress s p q : quiet (W := W) (print_progress number_text s p q).
Proof. unfold print_progress. quiet_tac. Qed.
Lemma quiet_result s : quiet (W := W) (print_result number_text s).
Proof. unfold print_result, print_input, print_output. quiet_tac. Qed.
Lemma quiet_error s : quiet (W := W) (print_error number_text s).
Proof. unfold print_error. quiet_tac. Qed.
Lemma quiet_banner : quiet (W := W) (print_banner number_text env).
Proof. unfold print_banner. quiet_tac. Qed.
Lemma ends_require r : ends (W := W) 0 0 (require_ok r).
Proof. unfold require_ok. ends_tac. Qed.

Lemma ends_presets : ends (W := W) 1 0 (testPresets net number_text env).
Proof.
  unfold testPresets, print_preset. do 3 (apply ends_after; [quiet_tac|intros ?]). apply ends_fetch_bind. intros r.
  apply ends_then; [apply ends_require|intros _]. ends_tac.
Qed.
Lemma ends_ask id : ends (W := W) 1 0 (ask_status net env id).
Proof. unfold ask_status. ends_tac. Qed.
Lemma ends_handle s po : ends (W := W) 0 0 (handle_status number_text env s po).
Proof.
  unfold handle_status. do 4 (apply ends_after; [quiet_tac|intros ?]). apply ends_after; [apply quiet_progress|intros _].
  case_match.
  - apply ends_after; [apply quiet_result|intros _]. ends_tac.
  - case_match; [|ends_tac]. apply ends_after; [apply quiet_error|intros _]. ends_tac.
Qed.
Lemma ends_poll id po :
  ends (W := W) 1 (timer_delay (pollIntervalMs env)) (poll_once net late number_text env id po).
Proof.
  unfold poll_once. rewrite <- (Z.add_0_r (timer_delay _)). change 1%nat with (0 + 1)%nat.
  apply ends_bind; [pose proof (timer_delay_positive (pollIntervalMs env)); lia|apply ends_sleep|intros _].
  apply (ends_bind 1 0 0 0); [lia|apply ends_ask|intros [j|]]; [apply ends_handle|apply ends_quiet, quiet_ret].
Qed.

(** With enough turns for the time left, the loop ends by itself. *)
Lemma loop_ends fuel id start po t :
  maxPollTime - (te_clock t - start) <= Z.of_nat fuel * timer_delay (pollIntervalMs env) ->
  ends_at fuel 0 (poll_loop net late number_text env fuel id start po) t.
Proof.
  revert po t. induction fuel as [|fuel IH]; intros po t Hleft; unfold ends_at; cbn [poll_loop];
    unfold mbind_, now, mget; cbn beta iota.
  - destruct (negb _ && _) eqn:E; [bools; lia|]. cbn. lia.
  - destruct (negb _ && _) eqn:E; [|cbn; lia].
    pose proof (ends_poll id po t) as [Hk Hr]. destruct (poll_once _ _ _ _ _ _ _) as [[po'|e] t1]; cbn in *.
    + pose proof (timer_delay_positive (pollIntervalMs env)).
      destruct (IH po' t1) as [H1 H2]; [lia|]. split; [lia|]. destruct (fst _) as [?|[]]; try done; lia.
    + split; [lia|]. by destruct e.
Qed.
Lemma max_polls_enough : maxPollTime <= Z.of_nat (Z.to_nat (max_polls env)) * timer_delay (pollIntervalMs env).
Proof.
  pose proof (timer_delay_positive (pollIntervalMs env)) as Hd. unfold max_polls.
  set (d := timer_delay _) in *. pose proof (Z.div_mod maxPollTime d). pose proof (Z.mod_pos_bound maxPollTime d).
  assert (0 <= maxPollTime / d) by (apply Z.div_pos; [done|lia]). nia.
Qed.
Lemma ends_submit : ends (W := W) 1 0 (submit_job net number_text env).
Proof.
  unfold submit_job. apply ends_after; [quiet_tac|intros _]. apply ends_fetch_bind. intros r.
  apply ends_then; [apply ends_require|intros _]. ends_tac.
Qed.
Lemma ends_conclude start po : ends (W := W) 0 0 (conclude number_text start po).
Proof. unfold conclude. ends_tac. Qed.
Lemma ends_test : ends (W := W) (1 + Z.to_nat (max_polls env)) 0 (testQuick net late number_text env).
Proof.
  unfold testQuick. apply ends_after; [apply quiet_banner|intros _].
  apply (ends_bind 1 _ 0 0); [lia|apply ends_submit|intros id]. apply ends_now. intros t.
  rewrite <- (Nat.add_0_r (Z.to_nat _)) at 1. apply ends_at_bind; [|intros po; apply ends_conclude].
  apply loop_ends. pose proof max_polls_enough. lia.
Qed.
Lemma ends_main : ends (W := W) (1 + Z.to_nat (max_polls env)) 0 (main net late number_text env argv2).
Proof.
  unfold main. apply ends_catch; [|intros e; ends_tac]. case_match; [|case_match].
  - apply (ends_mono 1); [lia|apply ends_presets].
  - apply ends_test.
  - apply (ends_mono 0); [lia|]. ends_tac.
Qed.

(** ** What a test decides *)

(** The body of a successful answer *)
Definition answered (a : result exn web_response) : option json :=
  match a with Ok r => if res_ok r then json_parse (ws_text r) else None | Err _ => None end.
Definition read (j : json) (k : string) : value :=
  match get_prop (Some j) k with Ok v => v | Err _ => None end.

Inductive verdict : Type :=
| Undecided
| Decided (codec : bool)
| Failed.
(** A finished job, or one that failed for want of an output, decides the test by the codec
    it found; another error fails it; everything else is asked again. *)
Definition detected (j : json) : bool := match codec_detected (Some j) with Ok b => b | Err _ => false end.
Definition verdict_of (j : json) : verdict :=
  if is_string (read j "status") "complete" then Decided (detected j)
  else if is_string (read j "status") "error" then
    if negb (nonempty (outputURL env)) && is_string (read j "error_code") "UPLOAD_ERROR" then Decided (detected j)
    else Failed
  else Undecided.
Definition answer_verdict (a : result exn web_response) : verdict :=
  match answered a with Some j => verdict_of j | None => Undecided end.

(** The variables and the failures after a status *)
Definition follows (v : verdict) (po po' : polling) (before after : list string) : Prop :=
  match v with
  | Undecided => po_done po' = po_done po /\ po_hadError po' = po_hadError po /\ after = before
  | Decided true => po_done po' = true /\ po_hadError po' = po_hadError po /\ after = before
  | Decided false => po_done po' = true /\ po_hadError po' = po_hadError po /\ after <> []
  | Failed => po_done po' = true /\ po_hadError po' = true /\ after = before
  end.

Lemma wp_assert (b : bool) (s : string) (Q : result stop unit -> tester W -> Prop) t :
  (forall t', te_trace t' = te_trace t -> te_failures t' = (if b then te_failures t else te_failures t ++ [s]) -> Q (Ok tt) t') ->
  wp (assert b s) Q t.
Proof. intros HQ. unfold wp, assert. destruct b; by apply HQ. Qed.

(** What a quiet step leaves, in the vocabulary of the postconditions *)
Definition decides (v : verdict) (po : polling) (t : tester W) (r : result stop polling) (t' : tester W) : Prop :=
  match r with
  | Ok po' => te_trace t' = te_trace t /\ follows v po po' (te_failures t) (te_failures t')
  | Err (Exit _) => False
  | _ => True
  end.

Lemma detected_decides j s po po1 t t1 :
  po_done po1 = po_done po -> po_hadError po1 = po_hadError po -> silent t t1 ->
  wp (do! ok <- lift (codec_detected (Some j)); run! assert ok s; mret_ (po1 <| po_done := true |>))
     (decides (Decided (detected j)) po t) t1.
Proof.
  intros Hd He (_ & Ht & Hf & _). apply wp_bind_lift; [intros ok Hok|done]. apply wp_bind, wp_assert. intros t2 Ht2 Hf2.
  unfold wp, decides, detected. rewrite Hok. cbn. rewrite Ht2, Ht, Hf2, Hf.
  destruct ok; (split; [done|]); (split; [done|]); (split; [done|]); [done|]. by destruct (te_failures t).
Qed.

Lemma handle_verdict j po t :
  wp (handle_status number_text env (Some j) po) (decides (verdict_of j) po t) t.
Proof.
  unfold handle_status. apply wp_bind_lift; [intros phase Hp|done]. apply wp_bind_lift; [intros status Hs|done].
  apply wp_bind_lift; [intros progress _|done].
  assert (Hr : read j "status" = status) by (unfold read; by rewrite Hs).
  set (rest := fun po1 => mbind_ _ _). 
  assert (Hrest : forall po1 t1, po_done po1 = po_done po -> po_hadError po1 = po_hadError po -> silent t t1 ->
    wp (rest po1) (decides (verdict_of j) po t) t1).
  - intros po1 t1 Hd He S1. apply wp_bind_quiet; [apply quiet_progress| |done]. intros _ t2 S2.
    pose proof (silent_trans _ _ _ S1 S2) as S3. unfold verdict_of. rewrite Hr. destruct (is_string status "complete").
    + apply wp_bind_quiet; [apply quiet_result| |done]. intros _ t3 S4. apply detected_decides; [done..|].
      by eapply silent_trans.
    + destruct (is_string status "error").
      * apply wp_bind_quiet; [apply quiet_error| |done]. intros _ t3 S4. pose proof (silent_trans _ _ _ S3 S4) as S5.
        apply wp_bind_lift; [intros expected Hx|done].
        assert (Hy : negb (nonempty (outputURL env)) && is_string (read j "error_code") "UPLOAD_ERROR" = expected).
        { unfold expected_error in Hx. destruct (nonempty _); cbn; [by injection Hx|].
          unfold read. destruct (get_prop _ "error_code"); [|done]. by injection Hx. }
        rewrite Hy. destruct expected.
        -- do 3 (apply wp_bind_quiet; [apply quiet_log|intros ? ? ?|done]). apply detected_decides; [done..|].
           repeat (eapply silent_trans; [|eassumption]). apply silent_refl.
        -- destruct S5 as (_ & Ht & Hf & _). unfold wp, decides. cbn. by rewrite Ht, Hf.
      * destruct S3 as (_ & Ht & Hf & _). unfold wp, decides. cbn. by rewrite Ht, Hf.
  - apply wp_bind. destruct (_ && _).
    + apply wp_bind_quiet; [apply quiet_log| |done]. intros _ t1 S1. unfold wp at 1. cbn. by apply Hrest.
    + unfold wp at 1. cbn. by apply Hrest.
Qed.

Lemma ask_answers id t :
  wp (ask_status net env id) (fun r t' => exists a, r = Ok (answered a) /\
    te_trace t' = te_trace t ++ [(status_request env id, a)] /\ te_failures t' = te_failures t) t.
Proof.
  unfold wp, ask_status, try_catch, fetch_at, mbind_. destruct (net _ _ _) as [[a d] w]. exists a.
  destruct a as [rs|e]; cbn; [|done]. destruct (res_ok rs); cbn; [|done].
  unfold lift, res_json. by destruct (json_parse _).
Qed.

(** The answers to the requests for the status of a job *)
Definition asked (id : value) (l : list (result exn web_response)) : list (web_request * result exn web_response) :=
  map (fun a => (status_request env id, a)) l.

Lemma poll_verdict id po t :
  wp (poll_once net late number_text env id po) (fun r t' =>
    match r with
    | Ok po' => exists a, te_trace t' = te_trace t ++ asked id [a] /\
        follows (answer_verdict a) po po' (te_failures t) (te_failures t')
    | Err (Exit _) => False
    | _ => True
    end) t.
Proof.
  unfold poll_once. apply wp_bind. unfold wp at 1, sleep. destruct (late _ _ _) as [d w]. cbn.
  set (t1 := t <| te_clock := _ |> <| te_world := _ |>). apply wp_bind.
  eapply wp_mono; [|apply ask_answers]. intros r t2 (a & -> & Ht & Hf). destruct (answered a) as [j|] eqn:Ej.
  - eapply wp_mono; [|apply handle_verdict]. intros [po'|[c|e|]] t'; cbn; try done. intros [Ht' Hv].
    exists a. rewrite Ht', Ht. split; [done|]. unfold answer_verdict. rewrite Ej. by rewrite Hf in Hv.
  - unfold wp. cbn. exists a. rewrite Ht, Hf. unfold answer_verdict. by rewrite Ej.
Qed.

Definition undecided (a : result exn web_response) : Prop := answer_verdict a = Undecided.

(** The answers of a whole loop: all of them undecided, or the last one alone decided. *)
Definition loop_outcome (id : value) (po : polling) (t : tester W) (r : result stop polling) (t' : tester W) : Prop :=
  match r with
  | Ok po' => exists l, te_trace t' = te_trace t ++ asked id l /\
      ((po_done po' = false /\ Forall undecided l) \/
       exists init a, l = init ++ [a] /\ Forall undecided init /\ ~ undecided a /\
         follows (answer_verdict a) po po' (te_failures t) (te_failures t'))
  | Err (Exit _) => False
  | _ => True
  end.

Lemma loop_decided fuel id start po po1 a t t1 :
  te_trace t1 = te_trace t ++ asked id [a] -> ~ undecided a -> follows (answer_verdict a) po po1 (te_failures t) (te_failures t1) ->
  wp (poll_loop net late number_text env fuel id start po1) (loop_outcome id po t) t1.
Proof.
  intros Ht Ha Hv.
  assert (Hdone : po_done po1 = true) by (unfold undecided in Ha; destruct (answer_verdict a) as [|[]|]; [done|apply Hv..]).
  destruct fuel; cbn [poll_loop]; unfold wp; cbn; rewrite Hdone; cbn; exists [a]; (split; [done|]); right; by exists [], a.
Qed.

Lemma loop_verdict fuel id start po t :
  po_done po = false -> wp (poll_loop net late number_text env fuel id start po) (loop_outcome id po t) t.
Proof.
  revert po t. induction fuel as [|fuel IH]; intros po t Hd; cbn [poll_loop]; apply wp_bind; unfold wp at 1; cbn;
    rewrite Hd; cbn; destruct (_ <? _).
  - done.
  - exists []. rewrite app_nil_r. split; [done|]. by left.
  - apply wp_bind. eapply wp_mono; [|apply poll_verdict]. intros [po1|[c|e|]] t1; try done. intros (a & Ht & Hv).
    destruct (answer_verdict a) eqn:Ea.
    + destruct Hv as (Hd1 & He1 & Hf1). eapply wp_mono; [|apply IH; by rewrite Hd1].
      intros [po'|[c|e|]] t'; try done. intros (l & Ht' & Hl). exists (a :: l).
      split; [by rewrite Ht', Ht, <- app_assoc|]. destruct Hl as [[Hn Hl]|(init & b & -> & Hi & Hb & Hv)].
      * left. split; [done|]. by constructor.
      * right. exists (a :: init), b. split; [done|]. split; [by constructor|]. split; [done|].
        rewrite Hf1 in Hv. unfold follows in *. rewrite Hd1, He1 in Hv. exact Hv.
    + by apply (loop_decided _ _ _ _ _ a); [done|by unfold undecided; rewrite Ea|rewrite Ea].
    + by apply (loop_decided _ _ _ _ _ a); [done|by unfold undecided; rewrite Ea|rewrite Ea].
  - exists []. rewrite app_nil_r. split; [done|]. by left.
Qed.

Lemma require_wp r (Q : result stop unit -> tester W -> Prop) t :
  (res_ok r = true -> Q (Ok tt) t) -> (forall t', Q (Err (Exit 1)) t') -> wp (require_ok r) Q t.
Proof. intros Hok Hex. unfold wp, require_ok. destruct (res_ok r); cbn; auto. Qed.

Lemma submit_accepted t :
  wp (submit_job net number_text env) (fun r t' =>
    match r with
    | Ok id => exists sub body, te_trace t' = te_trace t ++ [(submit_request env, Ok sub)] /\ res_ok sub = true /\
        json_parse (ws_text sub) = Some body /\ id = read body "job_id" /\ truthy_value id = true /\
        (te_failures t' = [] -> is_string (read body "status") "queued" = true)
    | Err (Exit c) => c = 1
    | _ => True
    end) t.
Proof.
  unfold submit_job. apply wp_bind_quiet; [apply quiet_log| |done]. intros _ t1 (_ & Ht1 & _).
  apply wp_bind. unfold wp at 1, fetch_at. destruct (net _ _ _) as [[[sub|e] d] w]; [|done]. cbn -[get_prop].
  apply wp_bind, require_wp; [|done]. intros Hsub. apply wp_bind_lift; [|done]. intros body Hbody.
  unfold res_json in Hbody. destruct (json_parse _) as [j|] eqn:Ej; [|done]. injection Hbody as ->.
  apply wp_bind_lift; [|done]. intros id Hid. apply wp_bind, wp_assert. intros t2 Ht2 _.
  apply wp_bind_lift; [|done]. intros status Hs. apply wp_bind, wp_assert. intros t3 Ht3 Hf3.
  do 3 (apply wp_bind_quiet; [apply quiet_log|intros ? ? ?|done]).
  destruct (truthy_value id) eqn:Eid; [|done]. unfold wp. cbn -[get_prop]. exists sub, body. unfold read. rewrite Hid, Hs.
  unfold silent in *. destruct_and!. split_and!; [|done..|].
  - cbn in Ht2. congruence.
  - intros Hnil. assert (Hf : te_failures t3 = []) by congruence. rewrite Hf3 in Hf.
    destruct (is_string status "queued"); [done|]. by destruct (te_failures t2).
Qed.

Lemma conclude_passes start po (t : tester W) :
  wp (conclude number_text start po) (fun r t' => exit_code r = Some 0 ->
    te_trace t' = te_trace t /\ po_done po = true /\ po_hadError po = false /\ te_failures t = []) t.
Proof.
  unfold wp, conclude, mbind_. destruct (po_done po); cbn.
  - destruct (po_hadError po); cbn; [done|]. by destruct (te_failures t).
  - done.
Qed.

Lemma quick_passes (t : tester W) :
  te_failures t = [] ->
  wp (testQuick net late number_text env) (fun r t' => exit_code r = Some 0 ->
    exists sub body init a,
      te_trace t' = te_trace t ++ (submit_request env, Ok sub) :: asked (read body "job_id") (init ++ [a]) /\
      res_ok sub = true /\ json_parse (ws_text sub) = Some body /\ truthy_value (read body "job_id") = true /\
      is_string (read body "status") "queued" = true /\ Forall undecided init /\ answer_verdict a = Decided true) t.
Proof.
  intros Hf0. unfold testQuick. apply wp_bind_quiet; [apply quiet_banner| |done].
  intros _ t1 (_ & Ht1 & Hf1 & _). apply wp_bind. eapply wp_mono; [|apply submit_accepted].
  intros [id|[c|e|]] t2; [|by intros ->|done..].
  intros (sub & body & Ht2 & Hsub & Hbody & Hid & Htr & Hq). apply wp_bind. unfold wp at 1. cbn.
  apply wp_bind. eapply wp_mono; [|by apply loop_verdict].
  intros [po|[c|e|]] t3; [|done..]. intros (l & Ht3 & Hl).
  eapply wp_mono; [|apply conclude_passes]. intros r t' H He. destruct (H He) as (Ht' & Hd & Hh & Hf).
  destruct Hl as [[Hn _]|(init & a & -> & Hi & Ha & Hv)]; [congruence|]. exists sub, body, init, a.
  assert (Hv' : answer_verdict a = Decided true /\ te_failures t2 = []).
  - unfold undecided, follows in *. destruct (answer_verdict a) as [|[]|]; cbn in *; [done|..]; destruct_and!; try congruence.
    split; congruence.
  - destruct Hv' as [Hv' Hf2]. subst id. split_and!; try done; [|by apply Hq].
    by rewrite Ht', Ht3, Ht2, Ht1, <- app_assoc.
Qed.
End program.
End TranscodeFacts.

Module AbrFacts.
Import Testers.Abr.
Section program.
Context `{Plat : Platform} {W : Type}.
Context (net : web_request -> Z -> W -> (result exn web_response * BinNums.N) * W).
Context (late : Z -> Z -> W -> BinNums.N * W).
Context (number_text : jsnum -> string) (env : string -> option string) (argv2 : option string).

Lemma abr_ends_presets : ends (W := W) 1 0 (testPresets net number_text env).
Proof. unfold testPresets, get, print_preset. apply ends_after; [quiet_tac|intros _]. apply (ends_bind 1 0 0 0); [lia|ends_tac|intros [status data]]. ends_tac. Qed.
Lemma abr_quiet_status s v : quiet (W := W) (print_status number_text s v).
Proof. unfold print_status. quiet_tac. Qed.
Lemma abr_quiet_complete v : quiet (W := W) (print_complete number_text v).
Proof. unfold print_complete, print_input, print_rendition. quiet_tac. Qed.
Lemma abr_ends_post path body : ends (W := W) 1 0 (post net env path body).
Proof. unfold post. ends_tac. Qed.
Lemma abr_ends_poll id start : ends (W := W) 1 3000 (poll_once net late number_text env id start).
Proof.
  unfold poll_once. change 3000 with (timer_delay poll_interval + 0).
  apply (ends_bind 0 1); [done|apply ends_sleep|intros _].
  apply (ends_bind 1 0 0 0); [lia|apply abr_ends_post|intros [? st]]. apply ends_after; [apply quiet_now|intros time].
  apply ends_after; [apply abr_quiet_status|intros _]. apply ends_after; [quiet_tac|intros status]. case_match.
  - apply ends_after; [apply abr_quiet_complete|intros _]. ends_tac.
  - ends_tac.
Qed.
Lemma abr_loop_ends fuel id start t :
  timeout - (te_clock t - start) <= Z.of_nat fuel * 3000 ->
  ends_at fuel 0 (poll_loop net late number_text env fuel id start) t.
Proof.
  revert t. induction fuel as [|fuel IH]; intros t Hleft; unfold ends_at; cbn [poll_loop]; unfold mbind_, now, mget; cbn beta iota.
  - destruct (_ <? _) eqn:E; [bools; lia|]. cbn. lia.
  - destruct (_ <? _) eqn:E; [|cbn; lia].
    pose proof (abr_ends_poll id start t) as [Hk Hr]. destruct (poll_once _ _ _ _ _ _ _) as [[[]|e] t1]; cbn in *.
    + split; lia.
    + destruct (IH t1) as [H1 H2]; [lia|]. split; [lia|]. destruct (fst _) as [?|[]]; try done; lia.
    + split; [lia|]. by destruct e.
Qed.
Lemma abr_ends_submit i m r : ends (W := W) 1 0 (submit_job net number_text env i m r).
Proof.
  unfold submit_job. do 4 (apply ends_after; [quiet_tac|intros ?]). 
  apply (ends_bind 1 0 0 0); [lia|apply abr_ends_post|intros [status data]]. ends_tac.
Qed.
Lemma abr_ends_settings : ends (W := W) 0 0 (quick_settings env).
Proof. unfold quick_settings. ends_tac. Qed.
Lemma abr_ends_main : ends (W := W) (1 + Z.to_nat max_polls) 0 (main net late number_text env argv2).
Proof.
  unfold main. case_match; [|case_match].
  - apply (ends_mono 1); [lia|apply abr_ends_presets].
  - unfold testQuick. apply ends_then; [apply abr_ends_settings|intros [[i m] r]].
    apply (ends_bind 1 _ 0 0); [lia|apply abr_ends_submit|intros id]. apply ends_now. intros t.
    rewrite <- (Nat.add_0_r (Z.to_nat _)) at 1. apply ends_at_bind; [|intros []; ends_tac].
    apply abr_loop_ends. replace (Z.of_nat (Z.to_nat max_polls)) with 601 by by vm_compute. unfold timeout. lia.
  - apply (ends_mono 0); [lia|]. ends_tac.
Qed.

(** The status an answer gives *)
Definition status_of (r : web_response) : value :=
  match get_prop (snd (reading r)) "status" with Ok v => v | Err _ => None end.
Definition running (r : web_response) : Prop :=
  is_string (status_of r) "complete" = false /\ is_string (status_of r) "error" = false.
Definition asked (id : value) (l : list web_response) : list (web_request * result exn web_response) :=
  map (fun r => (status_request env id, Ok r)) l.

Lemma wp_post path body (Q : result stop (Z * value) -> tester W -> Prop) t :
  (forall r t', te_trace t' = te_trace t ++ [(post_request (PROXY env +:+ path) body, Ok r)] -> Q (Ok (reading r)) t') ->
  (forall e t', Q (Err (Thrown e)) t') -> wp (post net env path body) Q t.
Proof.
  intros Hok Herr. unfold wp, post, mbind_, fetch_at. destruct (net _ _ _) as [[[r|e] d] w]; cbn; [by apply Hok|by apply Herr].
Qed.

Lemma abr_poll_answers id start t :
  wp (poll_once net late number_text env id start) (fun x t' =>
    match x with
    | Ok b => exists r, te_trace t' = te_trace t ++ asked id [r] /\
        if b : bool then is_string (status_of r) "complete" = true else running r
    | Err (Exit c) => c = 1
    | _ => True
    end) t.
Proof.
  unfold poll_once. apply wp_bind. unfold wp at 1, sleep. destruct (late _ _ _) as [d w]. cbn -[get_prop].
  set (t1 := t <| te_clock := _ |> <| te_world := _ |>). apply wp_bind, wp_post; [|done]. intros r t2 Ht2. cbn -[get_prop reading].
  destruct (reading r) as [code st] eqn:Er. apply wp_bind. unfold wp at 1. cbn -[get_prop].
  apply wp_bind_quiet; [apply abr_quiet_status| |done]. intros _ t3 S3. apply wp_bind_lift; [|done]. intros status Hs.
  assert (Hst : status_of r = status) by (unfold status_of; rewrite Er; cbn -[get_prop]; by rewrite Hs).
  destruct S3 as (_ & Ht3 & _). destruct (is_string status "complete") eqn:E1.
  - apply wp_bind_quiet; [apply abr_quiet_complete| |done]. intros _ t4 (_ & Ht4 & _). unfold wp. cbn -[get_prop].
    exists r. rewrite Hst. split; [by rewrite Ht4, Ht3, Ht2|done].
  - destruct (is_string status "error") eqn:E2.
    + apply wp_bind_lift; [|done]. intros error _. apply wp_bind_lift; [|done]. by intros error_code _.
    + unfold wp. cbn -[get_prop]. exists r. unfold running. rewrite Hst. split; [by rewrite Ht3, Ht2|done].
Qed.

Lemma abr_loop_answers fuel id start t :
  wp (poll_loop net late number_text env fuel id start) (fun x t' =>
    match x with
    | Ok true => exists init r, te_trace t' = te_trace t ++ asked id (init ++ [r]) /\ Forall running init /\
        is_string (status_of r) "complete" = true
    | Err (Exit c) => c = 1
    | _ => True
    end) t.
Proof.
  revert t. induction fuel as [|fuel IH]; intros t; cbn [poll_loop]; apply wp_bind; unfold wp at 1; cbn; destruct (_ <? _); try done.
  apply wp_bind. eapply wp_mono; [|apply abr_poll_answers]. intros [b|[c|e|]] t1; try done. intros (r & Ht1 & Hb). destruct b.
  - unfold wp. cbn. by exists [], r.
  - eapply wp_mono; [|apply IH]. intros [[]|[c|e|]] t'; try done. intros (init & r' & Ht' & Hi & Hr').
    exists (r :: init), r'. split; [by rewrite Ht', Ht1, <- app_assoc|]. split; [by constructor|done].
Qed.

Lemma abr_quick_passes (t : tester W) :
  wp (testQuick net late number_text env) (fun x t' => exit_code x = Some 0 ->
    exists i m rs sub id init r,
      te_trace t' = te_trace t ++ (post_request (PROXY env +:+ "/v1/video/transcode/abr") (submit_body env i m rs), Ok sub) ::
                    asked id (init ++ [r]) /\
      ws_status sub = 202 /\ get_prop (snd (reading sub)) "job_id" = Ok id /\
      Forall running init /\ is_string (status_of r) "complete" = true) t.
Proof.
  unfold testQuick. apply wp_bind. unfold wp at 1, quick_settings. destruct (_ || _); [done|].
  destruct (json_parse _) as [rs|]; [|done]. cbn -[get_prop]. unfold submit_job.
  apply wp_bind, wp_bind_quiet; [quiet_tac| |done]. intros _ t1 S1. apply wp_bind_quiet; [quiet_tac| |done]. intros _ t2 S2.
  apply wp_bind_quiet; [quiet_tac| |done]. intros names t3 S3. apply wp_bind_quiet; [quiet_tac| |done]. intros _ t4 S4.
  assert (Ht4 : te_trace t4 = te_trace t) by (unfold silent in *; intuition congruence).
  apply wp_bind, wp_post; [|done]. intros sub t5 Ht5. destruct (reading sub) as [code data] eqn:Er.
  apply wp_bind. destruct (Z.eqb_spec code 202) as [H202|]; [|done]. unfold wp at 1. cbn -[get_prop].
  apply wp_bind_lift; [|done]. intros id Hid. apply wp_bind_quiet; [quiet_tac| |done]. intros _ t6 S6.
  apply wp_bind_lift; [|done]. intros l _. apply wp_bind_lift; [|done]. intros items _.
  apply wp_bind_quiet; [quiet_tac| |done]. intros _ t7 S7. unfold wp at 1. cbn -[get_prop]. apply wp_bind. unfold wp at 1. cbn -[get_prop].
  apply wp_bind. eapply wp_mono; [|apply abr_loop_answers]. intros [[]|[c|e|]] t8; try done; [|by intros ->].
  intros (init & r & Ht8 & Hi & Hr). unfold wp. cbn -[get_prop]. intros _.
  exists (env "INPUT_URL" ?? ""), (env "MANIFEST_URL" ?? ""), rs, sub, id, init, r.
  assert (Ht7 : te_trace t7 = te_trace t5) by (unfold silent in *; intuition congruence).
  split_and!; [|by rewrite <- H202; exact (f_equal fst Er)| |done..]; [|by rewrite <- Hid; exact (f_equal (fun p => get_prop (snd p) "job_id") Er)].
  by rewrite Ht8, Ht7, Ht5, Ht4, <- app_assoc.
Qed.
End program.
End AbrFacts.

(** ** Theorems *)

Lemma ends_exit_code {W} k (m : T_ W unit) t :
  ends k 0 m -> exists c, exit_code (fst (m t)) = Some c /\ (c = 0 \/ c = 1) /\
    (length (te_trace (snd (m t))) <= length (te_trace t) + k)%nat.
Proof. intros Hm. specialize (Hm t) as [Hk Hr]. destruct (fst (m t)) as [[]|[c|e|]]; cbn; eauto 6; done. Qed.

Section theorems.
Context `{Plat : Platform} {W : Type}.
Context (net : web_request -> Z -> W -> (result exn web_response * BinNums.N) * W).
Context (late : Z -> Z -> W -> BinNums.N * W).
Context (number_text : jsnum -> string) (env : string -> option string) (argv2 : option string).

(** C30: The integration tests always end.  Whatever the server answers or fails to answer, however
    long an answer takes and however late a timer fires, for every setting of the environment (a
    poll interval that is no number included), each test program ends with exit code 0 or 1,
    after at most one request and the polls that fit in its five or thirty minutes at its
    interval; the loops never need more turns than that. *)
Theorem integration_tests_end (t : tester W) :
  (exists c, exit_code (fst (Transcode.main net late number_text env argv2 t)) = Some c /\ (c = 0 \/ c = 1) /\
     (length (te_trace (snd (Transcode.main net late number_text env argv2 t))) <=
      length (te_trace t) + (1 + Z.to_nat (Transcode.max_polls env)))%nat) /\
  (exists c, exit_code (fst (Abr.main net late number_text env argv2 t)) = Some c /\ (c = 0 \/ c = 1) /\
     (length (te_trace (snd (Abr.main net late number_text env argv2 t))) <= length (te_trace t) + 602)%nat).
Proof.
  split.
  - apply ends_exit_code, TranscodeFacts.ends_main.
  - apply ends_exit_code, AbrFacts.abr_ends_main.
Qed.

(** C31: A test passes on a finished job only.  When the quick test of a transcode exits with 0,
    its first request submitted the job, the server accepted it with a queued job and an id,
    and every other request asked for the status of that id: all answers but the last left the
    job undecided (unanswered, refused, unreadable or still running), and the last said
    it is complete, or that it failed at the upload when no output was given, with the codec
    of the input detected.  The quick test of an ABR job passes only when the job was accepted
    with 202, every status but the last said it was still running, and the last said
    complete. *)
Theorem test_passes_on_a_finished_job (t : tester W) :
  te_trace t = [] -> te_failures t = [] -> argv2 = Some "quick" ->
  (exit_code (fst (Transcode.main net late number_text env argv2 t)) = Some 0 ->
   exists sub body init a,
     te_trace (snd (Transcode.main net late number_text env argv2 t)) =
       (Transcode.submit_request env, Ok sub) ::
       TranscodeFacts.asked env (TranscodeFacts.read body "job_id") (init ++ [a]) /\
     res_ok sub = true /\ json_parse (ws_text sub) = Some body /\
     truthy_value (TranscodeFacts.read body "job_id") = true /\
     is_string (TranscodeFacts.read body "status") "queued" = true /\
     Forall (TranscodeFacts.undecided env) init /\ TranscodeFacts.answer_verdict env a = TranscodeFacts.Decided true) /\
  (exit_code (fst (Abr.main net late number_text env argv2 t)) = Some 0 ->
   exists i m rs sub id init r,
     te_trace (snd (Abr.main net late number_text env argv2 t)) =
       (post_request (Abr.PROXY env +:+ "/v1/video/transcode/abr") (Abr.submit_body env i m rs), Ok sub) ::
       AbrFacts.asked env id (init ++ [r]) /\
     ws_status sub = 202 /\ get_prop (snd (Abr.reading sub)) "job_id" = Ok id /\
     Forall AbrFacts.running init /\ is_string (AbrFacts.status_of r) "complete" = true).
Proof.
  intros Ht Hf ->. split.
  - intros He. pose proof (TranscodeFacts.quick_passes net late number_text env t Hf) as Hq.
    unfold Transcode.main, wp, try_catch in *. rewrite Ht in Hq. revert Hq He. cbn [truthy Transcode.mode].
    change (Transcode.mode (Some "quick") ==? "presets") with false.
    change (Transcode.mode (Some "quick") ==? "quick") with true. cbn iota.
    destruct (Transcode.testQuick _ _ _ _ t) as [[x|[c|e|]] t']; cbn; auto; done.
  - intros He. pose proof (AbrFacts.abr_quick_passes net late number_text env t) as Hq. rewrite Ht in Hq. exact (Hq He).
Qed.
End theorems.

(** ** A server for the tests *)

Definition tester_platform : Platform := {|
  is_url := fun _ => true; is_uuid := fun _ => true; new_URL := fun _ => None; stringify := fun _ => "{}";
  json_parse := fun s =>
    if s ==? "accepted" then Some (JObj [("job_id", JStr "j1"); ("status", JStr "queued"); ("renditions", JArr [JStr "720p"])])
    else if s ==? "running" then
      Some (JObj [("status", JStr "running"); ("phase", JStr "encoding"); ("progress", JNum (NFrac 81 2));
                  ("overall_progress", JNum (NInt 40)); ("renditions", JArr [])])
    else if s ==? "complete" then
      Some (JObj [("status", JStr "complete"); ("phase", JStr "done"); ("overall_progress", JNum (NInt 100));
                  ("renditions", JArr [JObj [("name", JStr "720p"); ("status", JStr "complete"); ("progress", JNum (NInt 100))]]);
                  ("processing_time_seconds", JNum (NFrac 25 2));
                  ("input", JObj [("video_codec", JStr "h264"); ("duration", JNum (NInt 10))])])
    else if s ==? "{}" then Some (JObj [("720p", JObj [])])
    else None;
  base64_text := fun s => s; sha256_hex := fun s => s; date_parse := fun _ => None; toISOString := fun _ => "";
  headers_valid := fun _ => true; caller_publicKey := ""; signAuthorization := fun s => Ok s
|}.
(** Answers given in turn, each after 40 milliseconds *)
Definition scripted (rq : web_request) (time : Z) (l : list (result exn web_response)) :=
  match l with
  | [] => ((Err (PlainError "connect ECONNREFUSED"), 40%N), [])
  | a :: l' => ((a, 40%N), l')
  end.
Definition on_time (ms time : Z) (l : list (result exn web_response)) := (0%N, l).
Definition answer_text (status : Z) (s : string) : result exn web_response := Ok (mkWebResponse status "" None s).
Definition tester_start (l : list (result exn web_response)) : tester (list (result exn web_response)) :=
  mkTester 1000 [] [] [] l.
Definition tester_env (k : string) : option string :=
  if k ==? "INPUT_URL" then Some "https://in" else if k ==? "MANIFEST_URL" then Some "https://m"
  else if k ==? "RENDITION_URLS" then Some "{}" else None.
(** A poll that is not answered and one that is refused are asked again. *)
Definition transcode_script : list (result exn web_response) :=
  [answer_text 200 "accepted"; Err (PlainError "socket hang up"); answer_text 502 "bad gateway"; answer_text 200 "running";
   answer_text 200 "complete"].
Definition abr_script : list (result exn web_response) :=
  [answer_text 202 "accepted"; answer_text 200 "running"; answer_text 200 "complete"].

Definition transcode_run (l : list (result exn web_response)) :=
  Transcode.main (Plat := tester_platform) scripted on_time (fun _ => "n") tester_env (Some "quick") (tester_start l).
Definition abr_run (l : list (result exn web_response)) :=
  Abr.main (Plat := tester_platform) scripted on_time (fun _ => "n") tester_env (Some "quick") (tester_start l).
Example runs :
  exit_code (fst (transcode_run transcode_script)) = Some 0 /\ length (te_trace (snd (transcode_run transcode_script))) = 5%nat /\
  exit_code (fst (abr_run abr_script)) = Some 0 /\
  (* a refused poll ends the ABR test *)
  exit_code (fst (abr_run [answer_text 202 "accepted"; answer_text 502 "bad gateway"; answer_text 200 "complete"])) = Some 1 /\
  (* nothing decided: five minutes of polls every 3040 ms *)
  exit_code (fst (transcode_run [answer_text 200 "accepted"])) = Some 1 /\
  length (te_trace (snd (transcode_run [answer_text 200 "accepted"]))) = 100%nat /\
  Transcode.max_polls tester_env = 101.
Proof. vm_compute. done. Qed.

Lemma test_passes_on_a_finished_job_witness :
  exists sub body init a,
    te_trace (snd (transcode_run transcode_script)) =
      (Transcode.submit_request (Plat := tester_platform) tester_env, Ok sub) ::
      TranscodeFacts.asked (Plat := tester_platform) tester_env (TranscodeFacts.read body "job_id") (init ++ [a]) /\
    TranscodeFacts.answer_verdict (Plat := tester_platform) tester_env a = TranscodeFacts.Decided true.
Proof.
  destruct (test_passes_on_a_finished_job (Plat := tester_platform) scripted on_time (fun _ => "n") tester_env (Some "quick")
              (tester_start transcode_script) eq_refl eq_refl eq_refl) as [H _].
  destruct H as (sub & body & init & a & H1 & _ & _ & _ & _ & _ & H2); [vm_compute; reflexivity|].
  exists sub, body, init, a. split; [exact H1|exact H2].
Defined.
