(* ===== verification/Templates.v ===== *)
(** * The templates of the pages (the [render] methods of portal-asset-detail.js,
    portal-live-detail.js, portal-live-streams.js, portal-assets.js, portal-key-display.js
    and admin-operations.js)

    A template makes a tree of the fields of its element and of the values the API answered,
    which it reads without checking them: a property of a missing value throws, and the page
    is not rendered.  An interpolated value is a text node, never markup; a value that is
    missing is no node.  White space between the elements is left out.

    The catalogue and the dashboards are in Module CatalogPages; the drawer, the theme
    switch, the display of the key and the shells follow, then the forms (Forms) and the
    waiting list (SignupsPage). *)

From S2P Require Import Prelude Js Types Http Browser Numbers Portal Polling Elements Dynamic.
From S2P Require Import Shell Pages.
Open Scope Z_scope.

(** ** Trees *)

(** An element with its attributes; [.value] is a property, [@click] names the handler. *)
Inductive html : Type :=
| Tag (name : string) (attrs : list (string * string)) (kids : list html)
| Txt (s : string).

Section templates.
Context (number_text : jsnum -> string).
(** [new Date(v).toLocaleString()] *)
Context (locale_date : value -> string).

(** An interpolated child *)
Fixpoint child_json (j : json) : list html :=
  match j with
  | JNull => []
  | JArr l => flat_map child_json l
  | j => [Txt (js_String number_text j)]
  end.
Definition child (v : value) : list html := match v with None => [] | Some j => child_json j end.
(** An interpolated attribute *)
Definition attr (v : value) : string := match v with None | Some JNull => "" | _ => text number_text v end.

Definition p_ (attrs : list (string * string)) (kids : list html) : html := Tag "p" attrs kids.
Definition cls (c : string) : list (string * string) := [("class", c)].
Definition code_ (kids : list html) : html := Tag "code" [] kids.
Definition strong (kids : list html) : html := Tag "strong" [] kids.
Definition badge (tone : string) (kids : list html) : html := Tag "span" (cls ("badge " +:+ tone)) kids.
Definition muted (s : string) : html := p_ (cls "muted") [Txt s].
Definition dash : html := Tag "span" (cls "muted") [Txt "—"].
Definition portal_main (kids : list html) : html := Tag "section" (cls "portal-main") kids.
Definition th (s : string) : html := Tag "th" [] [Txt s].
Definition table_ (heads : list string) (rows : list html) : html :=
  Tag "div" (cls "table-wrap") [Tag "table" [] [Tag "thead" [] [Tag "tr" [] (map th heads)]; Tag "tbody" [] rows]].
Definition td (kids : list html) : html := Tag "td" [] kids.
Definition alert (message : string) : html := Tag "div" [("class", "msg error"); ("role", "alert")] [Txt message].
Definition disabled (b : bool) : list (string * string) := if b then [("disabled", "")] else [].

(** ** Reading values *)

(** [v?.length] *)
Definition length_of (v : value) : result exn value :=
  match v with None | Some JNull => Ok None | _ => get_prop v "length" end.
(** [a ?? b] *)
Definition coalesce (a b : value) : value := match a with None | Some JNull => b | _ => a end.
(** [v.slice(0, n)] *)
Definition slice_ (n : nat) (v : value) : result exn value :=
  match v with
  | Some (JStr s) => Ok (Some (JStr (String.substring 0 n s)))
  | Some (JArr l) => Ok (Some (JArr (take n l)))
  | _ => Err (type_error "slice")
  end.
(** [v.replaceAll("_", " ")] *)
Definition replace_underscores (v : value) : result exn string :=
  match v with Some (JStr s) => Ok (spaced s) | _ => Err (type_error "replaceAll") end.
(** [Math.round(n)] *)
Definition math_round (n : jsnum) : jsnum :=
  match fraction n with Some (a, d) => NInt ((2 * a + Zpos d) / (2 * Zpos d)) | None => n end.
Definition round_value (v : value) : value := Some (JNum (math_round (to_number number_text v))).
Definition when (b : bool) (r : result exn (list html)) : result exn (list html) := if b then r else Ok [].

(** ** paid-operation-view.js on a value *)

Definition in_terminal (v : value) : bool := existsb (is_string v) TERMINAL.
Definition operation_tone (operation : value) : result exn string :=
  if negb (truthy_value operation) then Ok ""
  else
    let? output_status := get_prop operation "output_status" in
    let? state := get_prop operation "state" in
    let? error_code := get_prop operation "error_code" in
    Ok (if is_string output_status "stalled" || is_string output_status "output_failed" then "error"
        else if is_string state "settled" then "ok"
        else if in_terminal state || is_string error_code "debit_failed" then "error"
        else "warn").
Definition failure_text (operation : value) : result exn string :=
  let? code := get_prop operation "last_failure_code" in
  if truthy_value code then let? t := replace_underscores code in Ok (" (" +:+ t +:+ ")") else Ok "".
Definition operation_summary (operation : value) : result exn string :=
  if negb (truthy_value operation) then Ok "No paid operation has been recorded yet."
  else
    let? error_code := get_prop operation "error_code" in
    let? state := get_prop operation "state" in
    let? output_status := get_prop operation "output_status" in
    if is_string error_code "debit_failed" || is_string state "encumbered"
    then Ok "Payment could not be finalized; the result remains unavailable."
    else if is_string output_status "output_failed"
    then let? t := failure_text operation in Ok ("Runner output failed" +:+ t +:+ ".")
    else if is_string output_status "stalled"
    then let? t := failure_text operation in Ok ("Runner output is stalled" +:+ t +:+ ".")
    else if is_string state "settled" then
      let? claimed := get_prop operation "claimed_units" in
      let? unit := get_prop operation "work_unit" in
      Ok ("Settled " +:+ text number_text (coalesce claimed (Some (JStr "0"))) +:+ " " +:+ text number_text unit +:+ ".")
    else
      let? winddown := get_prop operation "winddown_reason" in
      if truthy_value winddown
      then let? t := replace_underscores winddown in Ok ("Ending safely (" +:+ t +:+ "); settlement is still pending.")
      else
        let? recovered := get_prop operation "recovered" in
        Ok (if truthy_value recovered then "Recovered after an interrupted exchange; reconciliation is continuing."
            else "The paid exchange is still in progress.").

(** The lines both cards of an operation have *)
Definition status_line (operation : value) : result exn html :=
  let? tone := operation_tone operation in
  let? state := get_prop operation "state" in
  Ok (p_ [] [Txt "Status: "; badge tone (child state)]).
Definition warning_lines (operation : value) : result exn (list html) :=
  let? warnings := get_prop operation "warnings" in
  let? items := as_array warnings in
  map_result (fun w => let? t := replace_underscores w in Ok (p_ (cls "warn") [Txt t])) items.
Definition error_line (operation : value) : result exn (list html) :=
  let? error_code := get_prop operation "error_code" in
  Ok (if truthy_value error_code then [p_ (cls "error") (child error_code)] else []).

(** ** portal-asset-detail.js *)

Definition tone3 (v : value) (ok error : string) : string :=
  if is_string v ok then "ok" else if is_string v error then "error" else "warn".
(** [html`...` for a property that is truthy] *)
Definition shown (v : value) (k : list html -> html) : list html := if truthy_value v then [k (child v)] else [].

Definition asset_card (a : value) : result exn html :=
  let? status := get_prop a "status" in
  let? tier := get_prop a "encoding_tier" in
  let? duration := get_prop a "duration_sec" in
  let? width := get_prop a "width" in
  let? height := get_prop a "height" in
  let? error_message := get_prop a "error_message" in
  let? playback_id := get_prop a "playback_id" in
  let? playback_url := get_prop a "playback_url" in
  let? created_at := get_prop a "created_at" in
  let? ready_at := get_prop a "ready_at" in
  Ok (Tag "div" (cls "card") (
    [p_ [] [Txt "Status: "; badge (tone3 status "ready" "errored") (child status)];
     p_ [] [Txt "Encoding tier: "; strong (child tier)]] ++
    (if truthy_value duration then [p_ [] ([Txt "Duration: "] ++ child (round_value duration) ++ [Txt "s"])] else []) ++
    (if truthy_value width && truthy_value height
     then [p_ [] ([Txt "Resolution: "] ++ child width ++ [Txt "×"] ++ child height)] else []) ++
    (if truthy_value error_message then [p_ (cls "error") ([Txt "Error: "] ++ child error_message)] else []) ++
    (if truthy_value playback_id
     then [p_ [] [Txt "Playback: "; Tag "a" [("href", attr playback_url)] [code_ (child playback_id)]]] else []) ++
    [p_ (cls "muted") ([Txt "Created "; Txt (locale_date created_at)] ++
       (if truthy_value ready_at then [Txt ("; ready " +:+ locale_date ready_at)] else []))])).

Definition job_card (operation : value) : result exn (list html) :=
  when (truthy_value operation)
    (let? status := status_line operation in
     let? summary := operation_summary operation in
     let? claimed := get_prop operation "claimed_units" in
     let? unit := get_prop operation "work_unit" in
     let? warnings := warning_lines operation in
     let? error := error_line operation in
     let? request_id := get_prop operation "request_id" in
     let? recovered := get_prop operation "recovered" in
     Ok [Tag "div" [("class", "card"); ("aria-live", "polite")] (
       [Tag "h3" [] [Txt "Paid job"]; status; p_ [] [Txt summary];
        p_ [] ([Txt "Usage: "; strong (child (coalesce claimed (Some (JStr "pending")))); Txt " "] ++ child unit)] ++
       warnings ++ error ++
       [p_ (cls "muted") ([Txt "Request "; code_ (child request_id)] ++
          (if truthy_value recovered then [Txt "; recovered"] else []))])]).

Definition rendition_row (r : value) : result exn html :=
  let? codec := get_prop r "codec" in
  let? resolution := get_prop r "resolution" in
  let? bitrate := get_prop r "bitrate_kbps" in
  let? status := get_prop r "status" in
  Ok (Tag "tr" [] [td [code_ (child codec)]; td (child resolution); td (child bitrate ++ [Txt " kbps"]);
                   td [badge (tone3 status "completed" "failed") (child status)]]).
Definition job_row (j : value) : result exn html :=
  let? kind := get_prop j "kind" in
  let? status := get_prop j "status" in
  let? error_message := get_prop j "error_message" in
  Ok (Tag "tr" [] [td [code_ (child kind)]; td [badge (tone3 status "completed" "failed") (child status)];
                   td (match error_message with None | Some JNull => [dash] | _ => child error_message end)]).
(** A card with a table of items, or a line when there are none *)
Definition items_card (title none : string) (heads : list string) (row : value -> result exn html) (items : value) : result exn html :=
  let? n := length_of items in
  let? body := (if truthy_value n
                then let? l := as_array items in let? rows := map_result row l in Ok (table_ heads rows)
                else Ok (muted none)) in
  Ok (Tag "div" (cls "card")
        [Tag "h3" [] ([Txt (title +:+ " (")] ++ child (coalesce n (Some (JNum (NInt 0)))) ++ [Txt ")"]); body]).

Definition delete_button : html :=
  Tag "button" [("type", "button"); ("class", "danger"); ("@click", "_delete")] [Txt "Delete asset (soft)"].
Definition asset_detail (v : PortalAssetDetail.view) : result exn (list html) :=
  if PortalAssetDetail.vw_loading v then Ok [portal_main [muted "Loading…"]]
  else if nonempty (PortalAssetDetail.vw_error v) then Ok [portal_main [alert (PortalAssetDetail.vw_error v)]]
  else
    let a := PortalAssetDetail.vw_asset v in
    when (truthy_value a)
      (let? asset_id := get_prop a "asset_id" in
       let? short := slice_ 14 asset_id in
       let? card := asset_card a in
       let? operation := get_prop a "paid_operation" in
       let? paid_job := job_card operation in
       let? renditions := get_prop a "renditions" in
       let? rendition_card := items_card "Renditions" "No renditions yet." ["Codec"; "Resolution"; "Bitrate"; "Status"] rendition_row renditions in
       let? jobs := get_prop a "jobs" in
       let? jobs_card := items_card "Jobs" "No jobs yet." ["Kind"; "Status"; "Error"] job_row jobs in
       let? status := get_prop a "status" in
       Ok [portal_main (
         [p_ [] [Tag "a" [("href", "#assets")] [Txt "← Back to asset library"]];
          Tag "h1" [] ([Txt "Asset "] ++ child short ++ [Txt "…"]); card] ++ paid_job ++ [rendition_card; jobs_card] ++
         (if is_string status "deleted" then [] else [delete_button]))]).

(** ** portal-live-detail.js *)

Definition live_card (s : value) : result exn html :=
  let? status := get_prop s "status" in
  let? session_id := get_prop s "session_id" in
  let? playback_url := get_prop s "playback_url" in
  let? created_at := get_prop s "created_at" in
  let? ended_at := get_prop s "ended_at" in
  Ok (Tag "div" (cls "card") (
    [p_ [] [Txt "Status: "; badge (if is_string status "live" then "live" else "") (child status)]] ++
    shown session_id (fun kids => p_ [] [Txt "Session: "; code_ kids]) ++
    shown playback_url (fun kids => p_ [] [Txt "Playback: "; Tag "a" [("href", attr playback_url)] [code_ kids]]) ++
    [p_ (cls "muted") ([Txt "Created "; Txt (locale_date created_at)] ++
       (if truthy_value ended_at then [Txt ("; ended " +:+ locale_date ended_at)] else []))])).

(** The key is the value of a password field. *)
Definition publish_card (s : value) : result exn (list html) :=
  let? stream_key := get_prop s "stream_key" in
  let? rtmp_push_url := get_prop s "rtmp_push_url" in
  Ok (if truthy_value stream_key && truthy_value rtmp_push_url then
        [Tag "div" (cls "card")
          [Tag "h3" [] [Txt "Publish with OBS or FFmpeg"];
           Tag "label" [] [Txt "RTMP server"; Tag "input" [("readonly", ""); (".value", attr rtmp_push_url)] []];
           Tag "label" [] [Txt "Stream key"; Tag "input" [("readonly", ""); ("type", "password"); (".value", attr stream_key)] []];
           Tag "button" [("type", "button"); ("@click", "copy")] [Txt "Copy stream key"];
           muted "Keep your stream key private. Paste the server and key into your streaming software."]]
      else []).

Definition session_card (operation : value) : result exn (list html) :=
  when (truthy_value operation)
    (let? status := status_line operation in
     let? summary := operation_summary operation in
     let? output_status := get_prop operation "output_status" in
     let? since := get_prop operation "output_state_since" in
     let? output := when (truthy_value output_status)
       (let? t := replace_underscores output_status in
        Ok [p_ [] ([Txt "Output: "; strong [Txt t]] ++
              (if truthy_value since then [Txt (" since " +:+ locale_date since)] else []))]) in
     let? failure_code := get_prop operation "last_failure_code" in
     let? failure := when (truthy_value failure_code)
       (let? t := replace_underscores failure_code in Ok [p_ (cls "error") [Txt "Runner failure: "; Txt t]]) in
     let? delivered := get_prop operation "delivered_units" in
     let? claimed := get_prop operation "claimed_units" in
     let? unit := get_prop operation "work_unit" in
     let? balance := get_prop operation "balance_units" in
     let? lease := get_prop operation "lease_expires_at" in
     let? warnings := warning_lines operation in
     let? error := error_line operation in
     Ok [Tag "div" [("class", "card"); ("aria-live", "polite")] (
       [Tag "h3" [] [Txt "Paid session"]; status; p_ [] [Txt summary]] ++ output ++ failure ++
       [p_ [] ([Txt "Delivered: "; strong (child (coalesce (coalesce delivered claimed) (Some (JStr "0")))); Txt " "] ++ child unit)] ++
       (match balance with
        | Some JNull => []
        | _ => [p_ [] ([Txt "Funded balance: "] ++ child balance ++ [Txt " "] ++ child unit)]
        end) ++
       (if truthy_value lease then [p_ [] [Txt "Lease: "; Txt (locale_date lease)]] else []) ++ warnings ++ error)]).

Definition live_detail (v : PortalLiveDetail.view) : result exn (list html) :=
  let s := PortalLiveDetail.vw_stream v in
  if PortalLiveDetail.vw_loading v then Ok [portal_main [muted "Loading…"]]
  else if nonempty (PortalLiveDetail.vw_error v) && negb (truthy_value s) then Ok [portal_main [alert (PortalLiveDetail.vw_error v)]]
  else
    when (truthy_value s)
      (let? name := get_prop s "name" in
       let? stream_id := get_prop s "stream_id" in
       let? card := live_card s in
       let? status := get_prop s "status" in
       let? publish := publish_card s in
       let? operation := get_prop s "paid_operation" in
       let? paid_session := session_card operation in
       Ok [portal_main (
         [p_ [] [Tag "a" [("href", "#live")] [Txt "← Back to live streams"]];
          Tag "h1" [] (child (or_value name stream_id)); card] ++
         (if is_string status "opening"
          then [p_ [("role", "status")] [Txt "Stream setup is pending. Keep this page open; do not submit another stream."]] else []) ++
         (if is_string status "ending"
          then [p_ [("role", "status")] [Txt "Ending stream. Network cleanup and settlement are still pending."]] else []) ++
         publish ++ paid_session)]).

(** ** portal-live-streams.js *)

Definition option_ (v : string) (selected : bool) (label : string) : html :=
  Tag "option" ([("value", v)] ++ (if selected then [("selected", "")] else [])) [Txt label].
Definition create_form (v : PortalLiveStreams.view) (opening : bool) : html :=
  Tag "form" [("class", "form"); ("@submit", "_create")] (
    [Tag "label" [] [Txt "Name (optional)"; Tag "input" [("maxlength", "160"); (".value", PortalLiveStreams.vw_name v)] []];
     Tag "label" [] [Txt "Encoding tier";
       Tag "select" [(".value", PortalLiveStreams.vw_encodingTier v)]
         [option_ "baseline" false "baseline (h264)"; option_ "standard" true "standard (h264 + hevc)";
          option_ "premium" false "premium (h264 + hevc + av1)"]];
     Tag "button" ([("type", "submit")] ++ disabled (PortalLiveStreams.vw_inFlight v || opening))
       [Txt (if PortalLiveStreams.vw_inFlight v then "Creating…" else "Create")]] ++
    (if nonempty (PortalLiveStreams.vw_error v)
     then [Tag "div" [("class", "error"); ("role", "alert")] [Txt (PortalLiveStreams.vw_error v)]] else [])).
Definition end_button : html := Tag "button" [("type", "button"); ("class", "danger"); ("@click", "_end")] [Txt "End"].
Definition stream_row (s : value) : result exn html :=
  let? stream_id := get_prop s "stream_id" in
  let? name := get_prop s "name" in
  let? label := (if truthy_value name then Ok name else slice_ 14 stream_id) in
  let? status := get_prop s "status" in
  let href := [("href", "#live/" +:+ text number_text stream_id)] in
  Ok (Tag "tr" []
    [td [Tag "a" href (child label ++ [Txt "…"])]; td [Tag "a" href [Txt "View details"]];
     td [badge (if is_string status "live" then "live" else "") (child status)];
     td (if is_string status "ready" || is_string status "live" then [end_button] else [])]).
(** [items.some((s) => s.status === "opening")]: it stops at the first one. *)
Fixpoint some_opening (l : list value) : result exn bool :=
  match l with
  | [] => Ok false
  | s :: l' => let? status := get_prop s "status" in if is_string status "opening" then Ok true else some_opening l'
  end.
Definition live_streams (v : PortalLiveStreams.view) : result exn (list html) :=
  let items := PortalLiveStreams.vw_items v in
  let? opening := (if PortalLiveStreams.vw_inFlight v then Ok true else let? l := as_array items in some_opening l) in
  let? n := get_prop items "length" in
  let? body := (if strict_eq n (Some (JNum (NInt 0))) then Ok (muted "No streams yet.")
                else let? l := as_array items in let? rows := map_result stream_row l in
                     Ok (table_ ["Name"; "Setup"; "Status"; ""] rows)) in
  Ok [portal_main
    [Tag "h1" [] [Txt "Live streams"];
     Tag "div" (cls "card") [Tag "h3" [] [Txt "Start a new stream"]; create_form v opening];
     Tag "div" (cls "card")
       [Tag "h3" [] ([Txt "Your streams ("] ++ child n ++ [Txt ")"]);
        muted "The latest 100 streams for your API key appear here. Status updates automatically."; body]]].

(** ** portal-assets.js *)

Definition status_badge (status : value) : html :=
  if is_string status "ready" then badge "ok" [Txt "ready"]
  else if is_string status "errored" then badge "error" [Txt "errored"]
  else if is_string status "deleted" then Tag "span" (cls "badge") [Txt "deleted"]
  else badge "warn" (child status).
Definition asset_row (a : value) : result exn html :=
  let? id := get_prop a "id" in
  let? short := slice_ 14 id in
  let? status := get_prop a "status" in
  let? tier := get_prop a "encoding_tier" in
  let? created_at := get_prop a "created_at" in
  let href := [("href", "#assets/" +:+ text number_text id)] in
  Ok (Tag "tr" [] [td [Tag "a" href (child short ++ [Txt "…"])]; td [status_badge status]; td (child tier);
                   td [Txt (locale_date created_at)]; td [Tag "a" href [Txt "View →"]]]).
Definition asset_list (v : Elements.PortalAssets.view) : result exn (list html) :=
  let items := Elements.PortalAssets.vw_items v in
  let? body := (match items with
    | [] => Ok (if Elements.PortalAssets.vw_loading v then [muted "Loading…"]
                else [Tag "div" (cls "card") [p_ [] [Txt "No assets yet. "; Tag "a" [("href", "#upload")] [Txt "Upload one"]; Txt " to get started."]]])
    | _ =>
        let? rows := map_result asset_row (map Some items) in
        Ok ([table_ ["ID"; "Status"; "Tier"; "Created"; ""] rows] ++
            (if truthy (Elements.PortalAssets.vw_nextCursor v)
             then [Tag "button" [("type", "button"); ("class", "secondary"); ("@click", "_load")] [Txt "Load more"]] else []))
    end) in
  Ok [portal_main (
    [Tag "h1" [] [Txt "Asset library"];
     p_ (cls "muted") [Txt "VOD assets you've uploaded. "; Tag "a" [("href", "#upload")] [Txt "Upload a new one"]; Txt "."]] ++
    (if nonempty (Elements.PortalAssets.vw_error v) then [alert (Elements.PortalAssets.vw_error v)] else []) ++ body)].

(** ** admin-operations.js *)

Definition operation_row (item : value) : result exn html :=
  let? protocol := get_prop item "protocol" in
  let? kind := get_prop item "kind" in
  let? asset_id := get_prop item "asset_id" in
  let? live_stream_id := get_prop item "live_stream_id" in
  let? state := get_prop item "state" in
  let? output_status := get_prop item "output_status" in
  let? terminal_at := get_prop item "terminal_at" in
  let? recovered := get_prop item "recovered" in
  let? output := when (truthy_value output_status)
    (let? t := replace_underscores output_status in Ok [Tag "br" [] []; Tag "span" (cls "muted") [Txt "output: "; Txt t]]) in
  let? claimed := get_prop item "claimed_units" in
  let? delivered := get_prop item "delivered_units" in
  let? unit := get_prop item "work_unit" in
  let? operation_id := get_prop item "operation_id" in
  let? request_id := get_prop item "request_id" in
  let? failure := get_prop item "last_failure_code" in
  let? error_code := get_prop item "error_code" in
  let? winddown := get_prop item "winddown_reason" in
  let? problem := (match coalesce (coalesce failure error_code) winddown with
    | None | Some JNull =>
        let? warnings := get_prop item "warnings" in
        let? l := as_array warnings in
        let joined := join number_text ", " l in
        Ok (if nonempty joined then [Txt joined] else [dash])
    | v => Ok (child v)
    end) in
  let failed := is_string output_status "output_failed" in
  let tone := if is_string state "settled" && negb failed then "ok"
              else if truthy_value terminal_at || is_string output_status "stalled" || failed then "error" else "warn" in
  Ok (Tag "tr" []
    [td [code_ (child protocol); Tag "br" [] []; Tag "span" (cls "muted") (child kind)];
     td [code_ (child (coalesce (coalesce asset_id live_stream_id) (Some (JStr "—"))))];
     td ([badge tone (child state)] ++
         (if truthy_value recovered then [Tag "br" [] []; Tag "span" (cls "muted") [Txt "recovered"]] else []) ++ output);
     td (child (coalesce (coalesce claimed delivered) (Some (JStr "pending"))) ++ [Txt " "] ++ child unit);
     td [code_ (child operation_id); Tag "br" [] []; code_ (child request_id)];
     td problem]).
Definition operation_list (v : AdminOperations.view) : result exn (list html) :=
  let items := AdminOperations.vw_items v in
  let? body := (if AdminOperations.vw_loading v then Ok (muted "Loading…")
    else
      let? n := get_prop items "length" in
      let none := if strict_eq n (Some (JNum (NInt 0)))
                  then [Tag "tr" [] [Tag "td" [("colspan", "6"); ("class", "muted")] [Txt "No operations match these filters."]]] else [] in
      let? l := as_array items in
      let? rows := map_result operation_row l in
      Ok (Tag "div" (cls "card") [table_ ["Protocol"; "Product"; "State"; "Usage"; "Correlation"; "Warning / error"] (none ++ rows)])) in
  Ok [Tag "section" (cls "admin-main") (
    [Tag "h1" [] [Txt "Paid operations"];
     Tag "div" (cls "toolbar")
       [Tag "label" [] [Txt "Kind "; Tag "select" [(".value", AdminOperations.vw_kind v)]
          [option_ "" false "all"; option_ "job" false "job"; option_ "session" false "session"]];
        Tag "label" [] [Txt "Status "; Tag "input" [(".value", AdminOperations.vw_status v)] []]]] ++
    (if nonempty (AdminOperations.vw_error v) then [alert (AdminOperations.vw_error v)] else []) ++ [body])].
End templates.

(** ** The catalogue and the dashboards (portal-catalog.js, admin-catalog.js,
    portal-dashboard.js, admin-dashboard.js)

    The catalogue page in full, the same element in both applications but for the class of
    its section, and the templates of the two dashboards.  What the gateway answers for the
    catalogue, for the statistics and for the assets is rendered without an error. *)

Module CatalogPages.
Section pages.
Context (number_text : jsnum -> string).
(** [toLocaleTimeString()] and [toLocaleDateString()] of a date *)
Context (locale_time locale_date : value -> string).

Definition refresh_button (loading : bool) : html :=
  Tag "button" ([("class", "ghost small")] ++ disabled loading ++ [("@click", "_load")]) [Tag "refresh" [] []; Txt " Refresh"].
Definition heading (title : string) (loading : bool) : html :=
  Tag "div" (cls "page-heading") [Tag "h1" [] [Txt title]; refresh_button loading].
Definition status_text (s : string) : html := p_ [("class", "muted"); ("role", "status")] [Txt s].

(** *** The catalogue *)

Record catalog_view := mkCatalogView {
  ca_data : value;
  ca_loading : bool;
  ca_error : string;
  ca_scope : string;
  ca_search : string
}.
#[export] Instance catalog_view_eta : RecEta catalog_view := fun v =>
  mkCatalogView (ca_data v) (ca_loading v) (ca_error v) (ca_scope v) (ca_search v).
Definition catalog_constructed : catalog_view := mkCatalogView (Some JNull) true "" "video" "".
(** [_load] up to its [await], and from there on *)
Definition catalog_load (v : catalog_view) : catalog_view := v <| ca_loading := true |> <| ca_error := "" |>.
Definition catalog_loaded (r : result string value) (v : catalog_view) : catalog_view :=
  (match r with
   | Ok data => v <| ca_data := data |>
   | Err m => v <| ca_data := Some JNull |> <| ca_error := Portal.or_else m "Catalog unavailable." |>
   end) <| ca_loading := false |>.

(** [v.startsWith("video:")] *)
Definition is_video (name : value) : result exn bool :=
  match name with Some (JStr s) => Ok (startsWith "video:" s) | _ => Err (type_error "startsWith") end.
Definition offering_ids (c : value) : result exn string :=
  let? offerings := get_prop c "offerings" in
  let? l := as_array offerings in
  let? ids := map_result (fun o => get_prop o "id") l in
  Ok (join number_text " " ids).
(** The filter of a capability: the search is not looked at outside the scope. *)
Definition capability_listed (v : catalog_view) (c : value) : result exn bool :=
  let? name := get_prop c "name" in
  let? in_scope := (if ca_scope v ==? "all" then Ok true else is_video name) in
  if in_scope : bool then
    let? ids := offering_ids c in
    Ok (includes_text (toLowerCase (ca_search v)) (toLowerCase (text number_text name +:+ " " +:+ ids)))
  else Ok false.
Fixpoint filter_result {A} (f : A -> result exn bool) (l : list A) : result exn (list A) :=
  match l with
  | [] => Ok []
  | x :: l' => let? b := f x in let? r := filter_result f l' in Ok (if b : bool then x :: r else r)
  end.
(** [(this.data?.items || []).filter(...)] *)
Definition catalog_items (v : catalog_view) : result exn (list value) :=
  let? items := (match ca_data v with None | Some JNull => Ok None | d => get_prop d "items" end) in
  let? l := (if truthy_value items then as_array items else Ok []) in
  filter_result (capability_listed v) l.

(** [o.job?.transports?.length ? ...] *)
Definition transports_of (o : value) : result exn (list html) :=
  let? job_ := get_prop o "job" in
  let? transports := (match job_ with None | Some JNull => Ok None | _ => get_prop job_ "transports" end) in
  let? n := length_of transports in
  when (truthy_value n)
    (let? l := as_array transports in Ok [Tag "span" (cls "sub") [Txt (join number_text ", " l)]]).
Definition offering_row (cap o : value) : result exn html :=
  let? id := get_prop o "id" in
  let? protocol := get_prop o "protocol" in
  let? transports := transports_of o in
  let? price := get_prop o "price_per_work_unit_wei" in
  let? units := get_prop o "units_per_price" in
  let? unit := get_prop o "work_unit" in
  let? cap_unit := get_prop cap "work_unit" in
  let? configured := get_prop o "configured_for_gateway" in
  Ok (Tag "tr" []
    [td [code_ (child number_text id)];
     td ([Tag "span" (cls "badge") (child number_text protocol)] ++ transports);
     td (match price with
         | Some JNull => [Txt "Not quoted"]
         | _ => [Tag "span" (cls "num") (child number_text price ++ [Txt " wei"]);
                 Tag "span" (cls "sub") ([Txt "per "] ++ child number_text units ++ [Txt " "] ++
                   child number_text (or_value unit (or_value cap_unit (Some (JStr "work units")))))]
         end);
     td [if truthy_value configured then badge "ok" [Txt "Configured"]
         else Tag "span" (cls "muted") [Txt "Network catalog only"]]]).
Definition capability_card (cap : value) : result exn html :=
  let? name := get_prop cap "name" in
  let? offerings := get_prop cap "offerings" in
  let? n := get_prop offerings "length" in
  let? unit := get_prop cap "work_unit" in
  let? l := as_array offerings in
  let? rows := map_result (offering_row cap) l in
  Ok (Tag "div" (cls "card")
    [Tag "h3" [] [code_ (child number_text name)];
     p_ (cls "muted small") (child number_text n ++ [Txt " offerings · work unit: ";
       code_ (child number_text (or_value unit (Some (JStr "See offering"))))]);
     table_ ["Offering"; "Protocol"; "Network price"; "This gateway"] rows]).
Definition catalog_note : string :=
  "Advertised network offerings from LOC. Prices below are network wholesale rates, not a customer invoice or a reserved quote. Availability and pricing are checked when a job starts.".
Definition catalog_page (section_class : string) (v : catalog_view) : result exn (list html) :=
  let? items := catalog_items v in
  let? updated := when (truthy_value (ca_data v))
    (let? fetched_at := get_prop (ca_data v) "fetched_at" in
     Ok [Tag "span" (cls "muted small") [Txt "Updated "; Txt (locale_time fetched_at)]]) in
  let? cards := map_result capability_card items in
  Ok [Tag "section" (cls section_class) (
    [heading "Capabilities & prices" (ca_loading v); p_ (cls "muted mb-2") [Txt catalog_note];
     Tag "div" (cls "toolbar") (
       [Tag "label" [] [Txt "Scope"; Tag "select" [(".value", ca_scope v)]
          [option_ "video" false "Video capabilities"; option_ "all" false "All network capabilities"]];
        Tag "label" [] [Txt "Search"; Tag "input" [("type", "search"); ("placeholder", "Capability or offering"); (".value", ca_search v)] []]] ++
       updated)] ++
    (if ca_loading v then [status_text "Loading capabilities…"] else []) ++
    (if nonempty (ca_error v) then [alert (ca_error v)] else []) ++
    (if negb (ca_loading v) && negb (nonempty (ca_error v)) && bool_decide (length items = 0%nat)
     then [Tag "div" (cls "card") [muted "No capabilities match these filters."]] else []) ++ cards)].

(** The element of each application *)
Definition portal_catalog : catalog_view -> result exn (list html) := catalog_page "portal-main".
Definition admin_catalog : catalog_view -> result exn (list html) := catalog_page "admin-main".

(** *** admin-dashboard.js *)

Definition metric (accent : string) (label : string) (v sub : list html) : html :=
  Tag "div" (cls ("metric" +:+ accent)) [Tag "div" (cls "label") [Txt label]; Tag "div" (cls "value") v; Tag "div" (cls "sub") sub].
Definition daily_row (d : value) : result exn html :=
  let? date := get_prop d "date" in
  let? count := get_prop d "count" in
  Ok (Tag "tr" [] [td (child number_text date); td (child number_text count)]).
Definition admin_dashboard (v : Dashboards.stats_view) : result exn (list html) :=
  let s := Dashboards.sv_stats v in
  if Dashboards.sv_loading v then Ok [Tag "section" (cls "admin-main") [muted "Loading…"]]
  else if nonempty (Dashboards.sv_error v) then Ok [Tag "section" (cls "admin-main") [alert (Dashboards.sv_error v)]]
  else
    let? total := get_prop s "total_signups" in
    let? today := get_prop s "today" in
    let? week := get_prop s "this_week" in
    let? month := get_prop s "this_month" in
    let? daily := get_prop s "daily_counts" in
    let? n := length_of daily in
    let? body := (if truthy_value n
                  then let? l := as_array daily in let? rows := map_result daily_row l in Ok (table_ ["Date"; "Signups"] rows)
                  else Ok (muted "No signups in the last 30 days.")) in
    Ok [Tag "section" (cls "admin-main")
      [Tag "h1" [] [Txt "Overview"]; p_ (cls "muted mb-2") [Txt "Access requests and signup activity."];
       Tag "div" (cls "metric-grid")
         [metric "" "Total signups" (child number_text total) [Txt "All access requests"];
          metric "" "Today" (child number_text today) [Txt "Signups today"];
          metric "" "This week" (child number_text week) [Txt "Signups this week"];
          metric "" "This month" (child number_text month) [Txt "Signups this month"]];
       Tag "div" (cls "card") [Tag "h3" [] [Txt "Last 30 days"]; body]]].

(** *** portal-dashboard.js *)

(** [p?.k] *)
Definition optional_prop (p : value) (k : string) : result exn value :=
  match p with None | Some JNull => Ok None | _ => get_prop p k end.
Definition recent_row (a : value) : result exn html :=
  let? id := get_prop a "id" in
  let? short := slice_ 14 id in
  let? status := get_prop a "status" in
  let? tier := get_prop a "encoding_tier" in
  let? created_at := get_prop a "created_at" in
  Ok (Tag "tr" []
    [td [Tag "a" [("href", "#assets/" +:+ text number_text id)] (child number_text short ++ [Txt "…"])];
     td [badge (tone3 status "ready" "errored") (child number_text status)]; td (child number_text tier); td [Txt (locale_date created_at)]]).
Definition next_steps : html :=
  Tag "div" (cls "card") [Tag "h3" [] [Txt "Next steps"]; Tag "ul" (cls "next-steps")
    [Tag "li" [] [Tag "a" [("href", "#upload")] [Txt "Upload a video"]; Txt " to create an adaptive streaming asset."];
     Tag "li" [] [Tag "a" [("href", "#live")] [Txt "Start a live stream"]; Txt " and get your ingest and playback details."];
     Tag "li" [] [Tag "a" [("href", "#account")] [Txt "Manage your API key"]; Txt " to connect your application."]]].
Definition portal_dashboard (v : Dashboards.view) : result exn (list html) :=
  let p := Dashboards.vw_profile v in
  let error := Dashboards.vw_error v in
  let none s := Some (JStr s) in
  let? email := optional_prop p "email" in
  let? account_status := optional_prop p "account_status" in
  let? key_prefix := optional_prop p "key_prefix" in
  let? member_since := optional_prop p "member_since" in
  let? assets := (if Dashboards.vw_loading v then Ok (status_text "Loading assets…")
    else
      let? n := get_prop (Dashboards.vw_assets v) "length" in
      if truthy_value n then
        let? l := as_array (Dashboards.vw_assets v) in
        let? rows := map_result recent_row l in
        Ok (table_ ["Asset"; "Status"; "Tier"; "Created"] rows)
      else Ok (muted (if nonempty error then "Assets could not be loaded." else "No assets yet. Upload a video to get started."))) in
  Ok [portal_main (
    [heading "Dashboard" (Dashboards.vw_loading v);
     p_ (cls "muted mb-2") (child number_text (or_value email (none "Your transcode workspace")))] ++
    (if nonempty error then [alert error] else []) ++
    [Tag "div" (cls "metric-grid")
       [metric " accent" "Account status" (child number_text (or_value account_status (none "—"))) [Txt "Transcode access"];
        Tag "div" (cls "metric") [Tag "div" (cls "label") [Txt "API key"];
          Tag "div" (cls "value mono") (child number_text (or_value key_prefix (none "—")));
          Tag "div" (cls "sub") [Tag "a" [("href", "#account")] [Txt "Manage your key"]]];
        metric "" "Member since" [Txt (if truthy_value member_since then locale_date member_since else "—")] [Txt "Account created"]];
     Tag "div" (cls "card")
       [Tag "div" (cls "page-heading") [Tag "h3" [] [Txt "Recent assets"]; Tag "a" [("href", "#assets")] [Txt "View all →"]]; assets];
     next_steps])].
End pages.
End CatalogPages.

(** ** Widgets of the front ends (the navigation drawer and the shell of portal-app.js and
    admin-app.js, lmt-theme-toggle.js, portal-key-display.js)

    The drawer is a menu over the page: while it is open the rest of the page is inert, the
    Tab key stays inside, Escape closes it, and closing gives the focus back to the button
    that opened it.  Its methods move the focus after the next update of the element. *)

Module Drawer.
(** What can have the focus: the button that opens the drawer, the buttons and links of the
    sidebar in document order (the first one closes it), anything else. *)
Inductive target : Type :=
| Hamburger
| Item (i : nat)
| Elsewhere.
#[export] Instance target_eq_dec : EqDecision target.
Proof. solve_decision. Defined.

(** A method that waits for [updateComplete], with what it does then *)
Inductive waiting : Type :=
| FocusClose
| Restore (focus : bool).
Record drawer := mkDrawer {
  dr_menuOpen : bool;
  dr_focus : target;
  dr_waiting : list waiting
}.
#[export] Instance drawer_eta : RecEta drawer := fun d => mkDrawer (dr_menuOpen d) (dr_focus d) (dr_waiting d).

Definition openMenu (d : drawer) : drawer := d <| dr_menuOpen := true |> <| dr_waiting := dr_waiting d ++ [FocusClose] |>.
Definition closeMenu (restore : bool) (d : drawer) : drawer :=
  let wasOpen := dr_menuOpen d in
  d <| dr_menuOpen := false |> <| dr_waiting := dr_waiting d ++ [Restore (wasOpen && restore)] |>.
(** [querySelector(...)?.focus()]: [rendered] is whether the shell is in the page. *)
Definition resume (rendered : bool) (d : drawer) (w : waiting) : drawer :=
  match w with
  | FocusClose => if rendered then d <| dr_focus := Item 0 |> else d
  | Restore focus => if focus && rendered then d <| dr_focus := Hamburger |> else d
  end.
Definition updated (rendered : bool) (d : drawer) : drawer :=
  foldl (resume rendered) (d <| dr_waiting := [] |>) (dr_waiting d).

Section keys.
Context (items : nat).
(** Where the browser takes the focus from a target with Tab, or with Shift and Tab *)
Context (native : bool -> target -> target).

(** [_drawerKey]: the focus it sets, [None] where the browser goes on by itself. *)
Definition tab_key (shift : bool) (d : drawer) : option target :=
  if negb (dr_menuOpen d) then None
  else
    match items with
    | O => None
    | S last =>
        if shift && bool_decide (dr_focus d = Item 0) then Some (Item last)
        else if negb shift && bool_decide (dr_focus d = Item last) then Some (Item 0)
        else None
    end.
Inductive event : Type :=
| OpenClicked
| CloseClicked
| Desktop (matches : bool)
| Routed
| SignedOut
| Escape
| Tab (shift : bool)
| Focused (t : target)
| Updated (rendered : bool).
Definition react (d : drawer) (e : event) : drawer :=
  match e with
  | OpenClicked => openMenu d
  | CloseClicked | Routed => closeMenu true d
  | Desktop matches => if matches then closeMenu false d else d
  | SignedOut => d <| dr_menuOpen := false |>
  | Escape => if dr_menuOpen d then closeMenu true d else d
  | Tab shift => d <| dr_focus := match tab_key shift d with Some t => t | None => native shift (dr_focus d) end |>
  | Focused t => d <| dr_focus := t |>
  | Updated rendered => updated rendered d
  end.
Definition run (l : list event) (d : drawer) : drawer := foldl react d l.

(** Inside the sidebar the browser follows the document. *)
Hypothesis native_next : forall i, (S i < items)%nat -> native false (Item i) = Item (S i).
Hypothesis native_previous : forall i, (S i < items)%nat -> native true (Item (S i)) = Item i.

Definition trapped (d : drawer) : Prop := dr_menuOpen d = true /\ exists i, (i < items)%nat /\ dr_focus d = Item i.
Lemma tab_trapped shift d : trapped d -> trapped (react d (Tab shift)).
Proof.
  intros (Ho & i & Hi & Hf). split; [done|]. cbn. unfold tab_key. rewrite Ho, Hf. cbn [negb].
  destruct items as [|last]; [lia|]. destruct shift; cbn [negb andb].
  - destruct i as [|i]; [exists last; split; [lia|by rewrite bool_decide_eq_true_2]|].
    rewrite bool_decide_eq_false_2 by congruence. exists i. split; [lia|]. by apply native_previous.
  - case_bool_decide as Hl; [exists 0%nat; split; [lia|done]|]. exists (S i).
    assert (i <> last) by congruence. split; [lia|]. apply native_next. lia.
Qed.
(** The open drawer keeps the focus, however often Tab is pressed; Escape closes it and,
    after the update, the button that opened it has the focus. *)
Lemma drawer_keeps_focus shifts d :
  trapped d ->
  let d' := run (map Tab shifts) d in
  trapped d' /\ dr_menuOpen (react d' Escape) = false /\
  (dr_waiting d = [] -> dr_focus (run [Escape; Updated true] d') = Hamburger).
Proof.
  intros Ht. assert (H : trapped (run (map Tab shifts) d) /\ dr_waiting (run (map Tab shifts) d) = dr_waiting d).
  - revert d Ht. induction shifts as [|s shifts IH]; intros d Ht; [done|]. by apply (IH (react d (Tab s))), tab_trapped.
  - destruct H as [H Hw]. split; [done|]. destruct H as (Ho & _). cbn. rewrite Ho. split; [done|]. intros Hn.
    unfold updated. cbn. by rewrite Hw, Hn, Ho.
Qed.
End keys.

(** The sidebar in the page: its items follow each other. *)
Definition in_order (shift : bool) (t : target) : target :=
  match t, shift with
  | Item (S i), true => Item i
  | Item i, false => Item (S i)
  | _, _ => Elsewhere
  end.
Lemma drawer_keeps_focus_witness :
  dr_focus (run 5 in_order [OpenClicked; Updated true; Tab true; Tab false] (mkDrawer false Hamburger [])) = Item 0 /\
  trapped 5 (run 5 in_order (map Tab [true; false]) (mkDrawer true (Item 0) [])).
Proof.
  split; [vm_compute; reflexivity|].
  apply (drawer_keeps_focus 5 in_order ltac:(by intros [|i] _) ltac:(done) [true; false] (mkDrawer true (Item 0) [])).
  split; [done|]. exists 0%nat. split; [lia|done].
Defined.
End Drawer.

Module Theme.
(** The toggle's field, the attribute of the document and the stored choice *)
Record theme := mkTheme {
  th_theme : string;
  th_attribute : option string;
  th_stored : option string
}.
Definition constructed (attribute stored : option string) : theme :=
  mkTheme (if truthy attribute then attribute ?? "" else "dark") attribute stored.
Definition toggle (t : theme) : theme :=
  let next := if th_theme t ==? "dark" then "light" else "dark" in mkTheme next (Some next) (Some next).
Definition theme_button (attrs : list (string * string)) (t : theme) : html :=
  Tag "span" (cls "theme-toggle")
    [Tag "button" ([("type", "button")] ++ attrs ++ [("aria-label", "Toggle theme"); ("@click", "_toggle")])
       [Txt (if th_theme t ==? "dark" then "Light" else "Dark")]].
Definition render : theme -> html := theme_button [].
(** The two applications have the same toggle with a class on its button. *)
Definition portal_render : theme -> html := theme_button (cls "secondary").
Definition admin_render : theme -> html := portal_render.
(** From the first click on, what is shown, what the document has and what is stored agree,
    and a second click undoes the first. *)
Lemma toggle_agrees t : th_attribute (toggle t) = Some (th_theme (toggle t)) /\ th_stored (toggle t) = Some (th_theme (toggle t)).
Proof. done. Qed.
Lemma toggle_twice t : th_theme t ∈ ["dark"; "light"] -> th_theme (toggle (toggle t)) = th_theme t.
Proof. destruct t as [th a s]. cbn. rewrite !elem_of_cons. intros [->|[->|H]]; [done|done|by apply not_elem_of_nil in H]. Qed.
End Theme.

Module KeyDisplay.
Import Elements.PortalAccount.
Record display := mkDisplay { kd_revealed : bool; kd_key : string }.
#[export] Instance display_eta : RecEta display := fun d => mkDisplay (kd_revealed d) (kd_key d).
(** [getApiKey()]: the key of the session's storage, empty when there is none *)
Definition constructed (stored : string) : display := mkDisplay false stored.
Definition refresh (stored : string) (d : display) : display := d <| kd_key := stored |>.
Definition reveal (d : display) : display := d <| kd_revealed := negb (kd_revealed d) |>.
(** [_copy]: what is written to the clipboard, and the toast after the answer *)
Definition copy (d : display) : option string := if nonempty (kd_key d) then Some (kd_key d) else None.
Definition copy_toast (written : bool) : string :=
  if written then "API key copied to clipboard." else "Could not copy automatically; select the text manually.".
Definition render (d : display) : html :=
  Tag "div" [] (
    [Tag "div" (cls "key-display") [Txt (if kd_revealed d then Portal.or_else (kd_key d) "(no key cached)" else mask (kd_key d))];
     Tag "div" (cls "lmt-actions lmt-space-top")
       [Tag "button" [("type", "button"); ("class", "secondary"); ("@click", "reveal")] [Txt (if kd_revealed d then "Hide" else "Reveal")];
        Tag "button" ([("type", "button"); ("class", "secondary")] ++ disabled (negb (nonempty (kd_key d))) ++ [("@click", "_copy")])
          [Txt "Copy"]]] ++
    (if nonempty (kd_key d) then []
     else [p_ (cls "muted lmt-space-top")
       [Txt "The raw key is only cached in this browser tab after login or key rotation. If you switched tabs, sign out and sign in again (or rotate your key)."]])).
End KeyDisplay.

Module ShellView.
(** A link of the sidebar, [aria-current] on the one of the view that is shown *)
Record entry := mkEntry { en_view : string; en_icon : string; en_label : string }.
Definition isActive (view v : string) : string := if view ==? v then "active" else "".
Definition nav_link (view : string) (e : entry) : html :=
  Tag "a" ([("href", "#" +:+ en_view e); ("class", "sidebar-item " +:+ isActive view (en_view e))] ++
           (if view ==? en_view e then [("aria-current", "page")] else []))
    [Tag "span" [("class", "icon")] [Tag (en_icon e) [] []]; Txt (en_label e)].
Definition inert (b : bool) : list (string * string) := if b then [("inert", "")] else [].
Definition close_handler : string * string := ("@click", "_closeMenu").

(** The frame both applications have: the top bar, the drawer with its links, the view *)
Definition frame (menuOpen : bool) (view navigation brand section_ aside_label nav_label : string) (bar : list html) (entries : list entry)
    (content : html) : html :=
  Tag "div" (cls "shell") (
    [Tag "header" ([("class", "shell-topbar")] ++ inert menuOpen)
       [Tag "div" (cls "row")
          [Tag "button" [("class", "hamburger ghost"); ("aria-label", "Open navigation"); ("aria-controls", navigation);
                         ("aria-expanded", if menuOpen then "true" else "false"); ("@click", "_openMenu")] [Tag "menu" [] []];
           Tag "a" [("href", "#dashboard"); ("class", "brand")] [Txt brand]];
        Tag "div" (cls "row") (bar ++ [Tag "lmt-theme-toggle" [] [];
          Tag "button" [("class", "ghost signout"); ("aria-label", "Sign out"); ("@click", "_logout")]
            [Tag "logout" [] []; Tag "span" [] [Txt "Sign out"]]])]] ++
    (if menuOpen then [Tag "button" [("class", "shell-sidebar-backdrop"); ("aria-label", "Close navigation"); ("tabindex", "-1");
                                     close_handler] []] else []) ++
    [Tag "aside" [("class", "shell-sidebar " +:+ (if menuOpen then "open" else "")); ("id", navigation); ("aria-label", aside_label)]
       [Tag "button" [("class", "drawer-close ghost"); ("aria-label", "Close navigation"); close_handler] [Tag "x" [] []; Txt " Close"];
        Tag "div" (cls "sidebar-section") [Txt section_];
        Tag "nav" [("aria-label", nav_label); close_handler] (map (nav_link view) entries)];
     Tag "main" ([("class", "shell-content")] ++ inert menuOpen) [content]]).

Definition portal_entries : list entry :=
  [mkEntry "dashboard" "home" "Dashboard"; mkEntry "assets" "log" "Assets"; mkEntry "upload" "plus" "Upload video";
   mkEntry "live" "activity" "Live streams"; mkEntry "account" "key" "Account"; mkEntry "catalog" "search" "Capabilities & prices"].
Definition screen_tag (s : screen) : html :=
  match s with
  | LoginScreen => Tag "portal-login" [] []
  | CatalogScreen => Tag "portal-catalog" [] []
  | DashboardScreen => Tag "portal-dashboard" [] []
  | AccountScreen => Tag "portal-account" [] []
  | AssetScreen id => Tag "portal-asset-detail" [("id", id)] []
  | AssetsScreen => Tag "portal-assets" [] []
  | UploadScreen => Tag "portal-upload" [] []
  | LiveScreen id => Tag "portal-live-detail" [("id", id)] []
  | LiveStreamsScreen => Tag "portal-live-streams" [] []
  | UnknownScreen view => portal_main [p_ (cls "muted") [Txt "Unknown view: "; Txt view]]
  end.
(** [email] is that of the stored profile. *)
Definition portal_shell (email : option string) (a : PortalApp) : html :=
  if negb (pa_authenticated a) then screen_tag LoginScreen
  else frame (pa_menuOpen a) (pa_view a) "portal-navigation" "Livepeer Transcode" "Account" "Account navigation" "Account"
         (if truthy email then [Tag "span" (cls "muted user-email") [Txt (email ?? "")]] else []) portal_entries
         (screen_tag (renderView a)).

Definition admin_entries : list entry :=
  [mkEntry "dashboard" "home" "Overview"; mkEntry "signups" "users" "Signups"; mkEntry "operations" "activity" "Operations";
   mkEntry "catalog" "search" "Capabilities & prices"].
Definition admin_view (view : string) : html :=
  if existsb (fun v => view ==? v) ["catalog"; "dashboard"; "signups"; "operations"] then Tag ("admin-" +:+ view) [] []
  else Tag "section" (cls "admin-main") [muted "Unknown view."].
Definition admin_shell (a : AdminApp) : html :=
  if negb (aa_authenticated a) then Tag "admin-login" [] []
  else frame (aa_menuOpen a) (aa_view a) "admin-navigation" "Livepeer Transcode · Admin" "Operations" "Operations navigation" "Operations"
         [] admin_entries (admin_view (aa_view a)).

(** The links that say they are the current page *)
Definition current_links (view : string) (l : list entry) : list string :=
  map en_view (List.filter (fun e => existsb (fun kv => fst kv ==? "aria-current")
    (match nav_link view e with Tag _ attrs _ => attrs | Txt _ => [] end)) l).
Lemma marks_current view e :
  existsb (fun kv => fst kv ==? "aria-current") (match nav_link view e with Tag _ attrs _ => attrs | Txt _ => [] end) = (view ==? en_view e).
Proof. unfold nav_link. by destruct (view ==? en_view e). Qed.
(** Every view of the portal and of the administration with a link of its own has that link,
    and no other, as the current page. *)
Lemma one_current_link view l :
  NoDup (map en_view l) -> view ∈ map en_view l -> current_links view l = [view].
Proof.
  unfold current_links. induction l as [|e l IH]; intros Hnd Hin; [by apply not_elem_of_nil in Hin|].
  cbn [List.filter map] in *. apply NoDup_cons in Hnd as [Hn Hnd]. rewrite marks_current.
  assert (Hnone : ~ view ∈ map en_view l -> map en_view (List.filter (fun e => existsb (fun kv => fst kv ==? "aria-current")
    (match nav_link view e with Tag _ attrs _ => attrs | Txt _ => [] end)) l) = []).
  { clear. induction l as [|e l IH]; [done|]. cbn [List.filter map]. rewrite elem_of_cons, marks_current. intros Hno.
    rewrite bool_decide_eq_false_2 by tauto. apply IH. tauto. }
  case_bool_decide as Hv.
  - subst view. cbn [map]. by rewrite Hnone.
  - apply elem_of_cons in Hin as [Hin|Hin]; [done|]. by apply IH.
Qed.
Lemma one_current_link_witness : current_links "live" portal_entries = ["live"].
Proof. apply one_current_link; [vm_compute; repeat constructor; set_solver|vm_compute; set_solver]. Defined.
End ShellView.

(** ** The forms (portal-upload.js, portal-account.js, portal-login.js, admin-login.js,
    lmt-signup-form.js, lmt-email-verify.js, lmt-toast.js)

    What the forms show of the fields of their elements.  A handler that closes over a
    value is named with it. *)

Module Forms.
#[local] Existing Instance PortalUpload.phase_eq_dec.

Definition error_box (message : string) : list html :=
  if nonempty message then [Tag "div" [("class", "error"); ("role", "alert")] [Txt message]] else [].
Definition button_ (kind : string) (attrs : list (string * string)) (kids : list html) : html :=
  Tag "button" ([("type", kind)] ++ attrs) kids.
Definition label_ (s : string) (field : html) : html := Tag "label" [] [Txt s; field].

(** *** portal-upload.js *)

Definition phase_text (p : PortalUpload.phase) : string :=
  match p with
  | PortalUpload.idle => "idle" | PortalUpload.preparing => "preparing" | PortalUpload.uploading => "uploading"
  | PortalUpload.submitting => "submitting" | PortalUpload.done_ => "done" | PortalUpload.error_ => "error"
  end.
(** [e.loaded / e.total], of counts that are not negative *)
Definition progress_ratio (p : Z * Z) : jsnum :=
  match snd p with
  | Zpos total => round_double (fst p) total
  | _ => if fst p =? 0 then NNaN else NInf false
  end.
Definition percent (number_text : jsnum -> string) (p : Z * Z) : string :=
  number_text (math_round (num_mul (progress_ratio p) (NInt 100))).
Definition upload_progress (number_text : jsnum -> string) (e : PortalUpload.element) : list html :=
  if bool_decide (PortalUpload.up_phase e = PortalUpload.idle) then []
  else
    let pct := percent number_text (PortalUpload.up_progress e) in
    [Tag "div" [] [Tag "div" (cls "muted") [Txt "Phase: "; Txt (phase_text (PortalUpload.up_phase e))];
                   Tag "div" [("class", "progress"); ("style", "--pct: " +:+ pct +:+ "%")] [Tag "span" [] []];
                   Tag "div" (cls "muted") [Txt pct; Txt "%"]]].
Definition upload_page (number_text : jsnum -> string) (e : PortalUpload.element) : html :=
  let busy := negb (bool_decide (PortalUpload.up_phase e = PortalUpload.idle)) in
  portal_main
    [Tag "h1" [] [Txt "Upload a VOD file"];
     if bool_decide (PortalUpload.up_phase e = PortalUpload.done_)
     then Tag "div" (cls "card")
       [p_ (cls "success") [Txt "Upload submitted. Transcoding in progress."];
        p_ [] [Tag "a" [("href", "#assets/" +:+ text number_text (PortalUpload.up_assetId e))] [Txt "View asset →"]];
        button_ "button" [("class", "secondary"); ("@click", "_reset")] [Txt "Upload another"]]
     else Tag "div" (cls "card")
       [muted "Upload a video to create adaptive streaming renditions. Standard encoding includes H.264 and HEVC.";
        Tag "form" [("class", "form"); ("@submit", "_start")] (
          [label_ "File" (Tag "input" ([("type", "file"); ("accept", "video/*"); ("required", ""); ("@change", "_onFile")] ++ disabled busy) [])] ++
          upload_progress number_text e ++ error_box (PortalUpload.up_error e) ++
          [button_ "submit" (disabled (negb (is_present (PortalUpload.up_file e)) || busy))
             [Txt (if busy then "In progress…" else "Upload + submit")]])]].

(** *** portal-account.js *)

Definition account_page (v : Elements.PortalAccount.view) : html :=
  let inFlight := Elements.PortalAccount.vw_inFlight v in
  portal_main
    [Tag "h1" [] [Txt "Account"];
     Tag "div" (cls "card") [Tag "h3" [] [Txt "Current API key"];
       Tag "portal-key-display" [] [KeyDisplay.render (KeyDisplay.mkDisplay (Elements.PortalAccount.vw_revealed v) (Elements.PortalAccount.vw_key v))]];
     Tag "div" (cls "card") (
       [Tag "h3" [] [Txt "Rotate API key"];
        muted "Rotating revokes your current key and issues a new one. Existing scripts using the old key will start returning 401. All other browser tabs signed in with this key will be logged out."] ++
       (if Elements.PortalAccount.vw_confirming v
        then [Tag "div" (cls "warn lmt-space-bottom") [Txt "Are you sure? This action cannot be undone."];
              Tag "div" (cls "lmt-actions")
                [button_ "button" ([("class", "danger")] ++ disabled inFlight ++ [("@click", "_doRotate")])
                   [Txt (if inFlight then "Rotating…" else "Yes, rotate now")];
                 button_ "button" [("class", "secondary"); ("@click", "cancel")] [Txt "Cancel"]]]
        else [button_ "button" [("class", "danger"); ("@click", "confirm")] [Txt "Rotate API key…"]]) ++
       error_box (Elements.PortalAccount.vw_error v))].

(** *** The logins *)

Definition login_frame (brand : string) (nav card : list html) : html :=
  Tag "section" (cls "page")
    [Tag "header" (cls "header") [Tag "span" (cls "brand") [Txt brand];
       Tag "nav" [("class", "nav"); ("aria-label", "Account")] (nav ++ [Tag "lmt-theme-toggle" [] []])];
     Tag "main" (cls "card") card].
Definition login_form (label waiting : string) (field : list (string * string)) (inFlight : bool) (error : string) : html :=
  Tag "form" [("class", "form"); ("@submit", "_onSubmit")] (
    [label_ label (Tag "input" field []);
     Tag "button" ([("class", "primary"); ("type", "submit")] ++ disabled inFlight) [Txt (if inFlight then waiting else "Sign in")]] ++
    error_box error).
Definition secret_field (name : string) : list (string * string) :=
  [("name", name); ("type", "password"); ("required", ""); ("autocomplete", "off")].
Definition portal_login (siteUrl : string) (l : PortalLogin) : html :=
  login_frame "Livepeer Transcode" [Tag "a" [("href", siteUrl)] [Txt "Request access"]]
    [Tag "h1" [] [Txt "Sign in"]; muted "Paste the API key we emailed you when your waitlist signup was approved.";
     login_form "API key" "Signing in…" (secret_field "api_key" ++ [("placeholder", "tc_..."); ("minlength", "4"); ("maxlength", "128")])
       (pl_inFlight l) (pl_error l)].
Definition admin_login (l : AdminLogin) : html :=
  login_frame "Livepeer Transcode · Admin" []
    [Tag "h1" [] [Txt "Operator login"]; muted "Use your operator token to access the transcode dashboard.";
     login_form "Admin token" "Verifying…" (secret_field "token") (al_inFlight l) (al_error l)].

(** *** The public forms *)

Definition public_field (label : string) (attrs : list (string * string)) : html :=
  Tag "label" [] [Tag "span" (cls "sr-only") [Txt label]; Tag "input" attrs []].
Definition signup_form (f : Elements.PublicSite.form) : html :=
  let inFlight := Elements.PublicSite.fm_inFlight f in
  let message := Elements.PublicSite.fm_message f in
  Tag "form" [("class", "signup-form"); ("@submit", "_onSubmit")] (
    [public_field "Name" [("placeholder", "Your name"); ("name", "name"); ("required", ""); ("minlength", "1"); ("maxlength", "200"); ("autocomplete", "name")];
     public_field "Email" [("placeholder", "you@example.com"); ("type", "email"); ("name", "email"); ("required", ""); ("maxlength", "320"); ("autocomplete", "email")];
     button_ "submit" (disabled inFlight) [Txt (if inFlight then "Submitting…" else "Join the waitlist")]] ++
    (if truthy message
     then [Tag "div" [("class", "message " +:+ (Elements.PublicSite.fm_kind f ?? "")); ("role", "status")] [Txt (message ?? "")]]
     else [])).
(** [None] while the link is being checked *)
Definition email_verify (r : option Elements.PublicSite.verification) : html :=
  let result kind message := Tag "div" [("class", "verify-result " +:+ kind); ("role", "status")] [Txt message] in
  match r with
  | None => p_ [] [Txt "Checking your verification link…"]
  | Some Elements.PublicSite.Verified => result "ok" "Email verified. We'll email you an API key when your account is approved."
  | Some (Elements.PublicSite.Invalid m) | Some (Elements.PublicSite.Failed m) => result "error" m
  end.

(** *** lmt-toast.js *)

(** [_show]: the text of an event's detail *)
Definition toast_message (detail : value) : result exn value :=
  match detail with
  | Some (JStr s) => Ok (Some (JStr s))
  | None | Some JNull => Ok (Some (JStr ""))
  | _ => let? m := get_prop detail "message" in Ok (coalesce m (Some (JStr "")))
  end.
Definition toast_view (message : string) : list html :=
  if nonempty message then [Tag "div" [("class", "toast"); ("role", "status")] [Txt message]] else [].
End Forms.

(** ** admin-signups.js and admin-pagination.js *)

Module SignupsPage.
Import Forms.
Definition checked (b : bool) : list (string * string) := if b then [("checked", "")] else [].
Definition checkbox (attrs : list (string * string)) : html := Tag "input" ([("type", "checkbox")] ++ attrs) [].

Definition page_button (label : string) (off : bool) (p : Z) : html :=
  button_ "button" ([("class", "secondary")] ++ disabled off ++ [("@click", "_go " +:+ string_of_Z p)]) [Txt label].
Definition admin_pagination (page totalPages : Z) : list html :=
  if totalPages <=? 1 then []
  else [Tag "nav" (cls "lmt-actions lmt-space-top")
    [page_button "← Prev" (page <=? 1) (page - 1);
     Tag "span" (cls "muted") [Txt "Page "; Txt (string_of_Z page); Txt " of "; Txt (string_of_Z totalPages)];
     page_button "Next →" (totalPages <=? page) (page + 1)]].

Section signups.
(** [new Date(s).toLocaleString()], and the address of the export *)
Context (locale_date : string -> string) (exportUrl : string).

Definition signup_badge (row : AdminSignups.Row) : html :=
  if AdminSignups.rw_status row ==? "approved" then badge "ok" [Txt "approved"]
  else if AdminSignups.rw_status row ==? "rejected" then badge "error" [Txt "rejected"]
  else if AdminSignups.rw_verified row then badge "warn" [Txt "pending (verified)"]
  else Tag "span" (cls "badge") [Txt "pending (unverified)"].
Definition unverified (row : AdminSignups.Row) : bool :=
  (AdminSignups.rw_status row ==? "pending") && negb (AdminSignups.rw_verified row).
Definition resend_button (resending : option string) (row : AdminSignups.Row) : list html :=
  if unverified row
  then [button_ "button" ([("class", "ghost")] ++ disabled (is_present resending) ++ [("@click", "_resend " +:+ AdminSignups.rw_id row)])
          [Txt (if bool_decide (resending = Some (AdminSignups.rw_id row)) then "Sending…" else "Resend verification")]]
  else [].
Definition signup_row (e : AdminSignups.element) (row : AdminSignups.Row) : html :=
  let id := AdminSignups.rw_id row in
  Tag "tr" []
    [td [checkbox ([("aria-label", "Select " +:+ AdminSignups.rw_email row)] ++
           checked (bool_decide (id ∈ AdminSignups.su_selected e)) ++ [("@change", "_toggle " +:+ id)])];
     td [Txt (AdminSignups.rw_email row)]; td [Txt (AdminSignups.rw_name row)]; td [signup_badge row];
     td [Txt (locale_date (AdminSignups.rw_created_at row))];
     td [Tag "div" (cls "lmt-actions") (resend_button (AdminSignups.su_resending e) row ++
           [button_ "button" [("class", "danger"); ("@click", "_delete " +:+ id)] [Txt "Delete"]])]].
Definition all_selected (e : AdminSignups.element) : bool :=
  bool_decide (length (AdminSignups.su_selected e) = length (AdminSignups.su_rows e)) && (0 <? length (AdminSignups.su_rows e))%nat.
Definition signup_table (e : AdminSignups.element) : list html :=
  [Tag "div" (cls "table-wrap") [Tag "table" []
     [Tag "thead" [] [Tag "tr" [] (
        [Tag "th" [] [checkbox ([("aria-label", "Select all signups")] ++ checked (all_selected e) ++ [("@change", "_toggleAll")])]] ++
        map th ["Email"; "Name"; "Status"; "Created"; ""])];
      Tag "tbody" [] (map (signup_row e) (AdminSignups.su_rows e))]];
   Tag "admin-pagination" [] (admin_pagination (AdminSignups.su_page e) (AdminSignups.su_totalPages e))].
Definition signup_toolbar (e : AdminSignups.element) : html :=
  Tag "div" (cls "toolbar")
    [label_ "Status" (Tag "select" [(".value", AdminSignups.su_status e); ("@change", "status")]
       (map (fun s => option_ s false (Portal.or_else s "all")) [""; "pending"; "approved"; "rejected"]));
     label_ "Search" (Tag "input" [("type", "search"); ("placeholder", "name or email"); (".value", AdminSignups.su_search e); ("@change", "search")] []);
     button_ "button" [("class", "secondary"); ("@click", "_load")] [Txt "Refresh"];
     Tag "a" [("href", exportUrl); ("target", "_blank"); ("rel", "noopener"); ("class", "badge")] [Txt "Export CSV"]].
Definition issued_keys (keys : list AdminSignups.IssuedKey) : list html :=
  match keys with
  | [] => []
  | _ => [Tag "div" (cls "card") (
      [Tag "div" (cls "page-heading") [Tag "h3" [] [Txt "New API keys — save now"];
         button_ "button" [("class", "ghost small"); ("@click", "dismiss")] [Txt "Dismiss keys"]];
       muted "These keys are shown only for this approval response. Save them before leaving this page."] ++
      flat_map (fun k => [p_ [] [Txt (AdminSignups.ik_email k)]; Tag "div" (cls "key-display mb-2") [Txt (AdminSignups.ik_key k)]]) keys)]
  end.
Definition batch_card (e : AdminSignups.element) : html :=
  let none := bool_decide (AdminSignups.su_selected e = []) in
  Tag "div" (cls "card")
    [Tag "h3" [] [Txt "Batch actions on "; Txt (string_of_Z (Z.of_nat (length (AdminSignups.su_selected e)))); Txt " selected"];
     Tag "label" [] [checkbox (checked (AdminSignups.su_sendEmails e) ++ [("@change", "sendEmails")]); Txt "Email API keys on approve"];
     Tag "div" (cls "lmt-actions lmt-space-top")
       [button_ "button" ([("class", "success")] ++ disabled none ++ [("@click", "_approve")]) [Txt "Approve"];
        button_ "button" ([("class", "danger")] ++ disabled none ++ [("@click", "_reject")]) [Txt "Reject"]]].
Definition signups_page (e : AdminSignups.element) : html :=
  Tag "section" (cls "admin-main") (
    [Tag "h1" [] [Txt "Waitlist"]] ++
    (if nonempty (AdminSignups.su_actionMessage e)
     then [Tag "div" [("class", "msg mb-2"); ("role", "status")] [Txt (AdminSignups.su_actionMessage e)]] else []) ++
    issued_keys (AdminSignups.su_issuedKeys e) ++
    [Tag "div" (cls "card") (
       [signup_toolbar e] ++ (if nonempty (AdminSignups.su_error e) then [alert (AdminSignups.su_error e)] else []) ++
       (if AdminSignups.su_loading e then [muted "Loading…"]
        else match AdminSignups.su_rows e with [] => [muted "No signups match."] | _ => signup_table e end));
     batch_card e]).
End signups.
End SignupsPage.
