(* ===== verification/TemplatesSpec.v ===== *)
(** * What the pages show

    The templates read the answers of the API without checks: every answer the gateway gives
    is rendered, without an error.  The key of a stream is in the page at one place, the
    value of a password field.  The last part compares the events the pages offer with those
    their step models take. *)

From S2P Require Import Prelude Js Types Wire Http Interfaces RouteProtocol LocClient SessionClient Database OperationRepo.
From S2P Require Import OperationLease MediaRepos Directory SessionStore LiveReconciler LiveOpen AbrOrchestrator ProductRoutes Samples SampleNet SampleWorld Preserve ProductSpec.
From S2P Require Import Browser Portal Polling Elements Dynamic Templates.
From S2P Require Import AuthRoutes Accounts Catalog Shell Pages.
From Stdlib Require Import Ascii.
Import Templates.CatalogPages.
Open Scope Z_scope.

(** ** Rendering without errors *)

Lemma rendered_bind {E A B} (x : result E A) (f : A -> result E B) :
  is_ok x = true -> (forall a, x = Ok a -> is_ok (f a) = true) -> is_ok (result_bind x f) = true.
Proof. destruct x as [a|e]; [intros _ H; by apply H|done]. Qed.
Lemma rendered_prop {B} (f : list (string * json)) k (c : value -> result exn B) :
  is_ok (c (assoc k f)) = true -> is_ok (result_bind (get_prop (Some (JObj f)) k) c) = true.
Proof. done. Qed.
Lemma map_result_ok {A B} (f : A -> result exn B) l : Forall (fun a => is_ok (f a) = true) l -> is_ok (map_result f l) = true.
Proof.
  induction 1 as [|a l Ha _ IH]; [done|]. cbn. apply rendered_bind; [done|]. intros b _. by apply rendered_bind.
Qed.
Lemma rendered_when b r : (b = true -> is_ok r = true) -> is_ok (when b r) = true.
Proof. destruct b; [intros H; by apply H|done]. Qed.

(** A text, or nothing *)
Definition optional_text (v : value) : Prop := match v with None | Some JNull | Some (JStr _) => True | _ => False end.
Lemma replace_optional v : optional_text v -> truthy_value v = true -> is_ok (replace_underscores v) = true.
Proof. by destruct v as [[]|]. Qed.

(** An operation as the gateway reports it *)
Definition operation_shape (f : list (string * json)) : Prop :=
  (exists ws, assoc "warnings" f = Some (JArr (map JStr ws))) /\ optional_text (assoc "output_status" f) /\
  optional_text (assoc "last_failure_code" f) /\ optional_text (assoc "winddown_reason" f).
Definition operation_value (v : value) : Prop :=
  v = Some JNull \/ exists f, v = Some (JObj f) /\ operation_shape f.

Lemma customer_shape `{Platform} o now : operation_shape (customer_fields o now).
Proof.
  split; [by eexists|]. split; [|split].
  - change (optional_text (Some (ProductRoutes.text (outputStatus o)))). by destruct (outputStatus o).
  - change (optional_text (Some (ProductRoutes.text (match op_sessionRuntime o with Some rt => rt_lastFailureCode rt | None => None end)))).
    destruct (op_sessionRuntime o) as [rt|]; [|done]. by destruct (rt_lastFailureCode rt).
  - change (optional_text (Some (ProductRoutes.text (match op_sessionRuntime o with Some rt => rt_winddownReason rt | None => None end)))).
    destruct (op_sessionRuntime o) as [rt|]; [|done]. by destruct (rt_winddownReason rt).
Qed.
Lemma customer_value `{Platform} o now : operation_value (Some (customerOperationStatus o now)).
Proof. destruct o as [o|]; [|by left]. right. eexists. split; [done|apply customer_shape]. Qed.

Section rendering.
Context (number_text : jsnum -> string) (locale_date : value -> string).

Lemma warnings_ok f : operation_shape f -> is_ok (warning_lines (Some (JObj f))) = true.
Proof.
  intros ((ws & Hw) & _). unfold warning_lines. apply rendered_prop. rewrite Hw. cbn [as_array result_bind].
  apply map_result_ok. rewrite map_map. by apply Forall_map, Forall_true.
Qed.
Lemma failure_text_ok f : operation_shape f -> is_ok (failure_text (Some (JObj f))) = true.
Proof.
  intros (_ & _ & Hl & _). unfold failure_text. apply rendered_prop. destruct (truthy_value _) eqn:E; [|done].
  apply rendered_bind; [by apply replace_optional|done].
Qed.
Lemma summary_ok f : operation_shape f -> is_ok (operation_summary number_text (Some (JObj f))) = true.
Proof.
  intros Hf. pose proof Hf as (_ & _ & _ & Hw). unfold operation_summary. cbn [truthy_value negb].
  do 3 apply rendered_prop. repeat case_match; try done.
  - apply rendered_bind; [by apply failure_text_ok|done].
  - apply rendered_bind; [by apply failure_text_ok|done].
  - apply rendered_prop. destruct (truthy_value _) eqn:E; [|done]. apply rendered_bind; [by apply replace_optional|done].
Qed.
Lemma job_card_ok v : operation_value v -> is_ok (job_card number_text v) = true.
Proof.
  intros [->|(f & -> & Hf)]; [done|]. unfold job_card. apply rendered_when. intros _.
  apply rendered_bind; [done|intros ? _]. apply rendered_bind; [by apply summary_ok|intros ? _]. do 2 apply rendered_prop.
  apply rendered_bind; [by apply warnings_ok|intros ? _]. done.
Qed.
Lemma session_card_ok v : operation_value v -> is_ok (session_card number_text locale_date v) = true.
Proof.
  intros [->|(f & -> & Hf)]; [done|]. pose proof Hf as (_ & Ho & Hl & _). unfold session_card. apply rendered_when. intros _.
  apply rendered_bind; [done|intros ? _]. apply rendered_bind; [by apply summary_ok|intros ? _]. do 2 apply rendered_prop.
  apply rendered_bind; [apply rendered_when; intros Ht; apply rendered_bind; [by apply replace_optional|done]|intros ? _].
  apply rendered_prop.
  apply rendered_bind; [apply rendered_when; intros Ht; apply rendered_bind; [by apply replace_optional|done]|intros ? _].
  do 5 apply rendered_prop. apply rendered_bind; [by apply warnings_ok|intros ? _]. done.
Qed.

Lemma map_objects {A} (g : A -> json) (f : A -> list (string * json)) l : (forall a, g a = JObj (f a)) -> map g l = map JObj (map f l).
Proof. intros H. rewrite map_map. by apply map_ext. Qed.

(** The pages, for the shapes the gateway answers with *)
Lemma live_detail_ok f loading error id :
  operation_value (assoc "paid_operation" f) ->
  is_ok (live_detail number_text locale_date (PortalLiveDetail.mkView id (Some (JObj f)) loading error)) = true.
Proof.
  intros Hop. unfold live_detail. cbn [PortalLiveDetail.vw_loading PortalLiveDetail.vw_error PortalLiveDetail.vw_stream].
  destruct loading; [done|]. rewrite andb_false_r. apply rendered_when. intros _. do 2 apply rendered_prop.
  apply rendered_bind; [done|intros ? _]. apply rendered_prop. apply rendered_bind; [done|intros ? _]. apply rendered_prop.
  apply rendered_bind; [by apply session_card_ok|done].
Qed.
Definition objects (v : value) : Prop := exists l, v = Some (JArr (map JObj l)).
Lemma items_card_ok title none heads row v :
  objects v -> (forall f, is_ok (row (Some (JObj f))) = true) -> is_ok (items_card number_text title none heads row v) = true.
Proof.
  intros (l & ->) Hrow. unfold items_card. apply rendered_bind; [done|intros n _]. apply rendered_bind; [|done].
  destruct (truthy_value n); [|done]. cbn [as_array result_bind]. apply rendered_bind; [|done].
  apply map_result_ok. rewrite map_map. apply Forall_map, Forall_true. intros f. apply Hrow.
Qed.
Lemma asset_detail_ok f id loading error :
  (exists s, assoc "asset_id" f = Some (JStr s)) -> operation_value (assoc "paid_operation" f) ->
  objects (assoc "renditions" f) -> objects (assoc "jobs" f) ->
  is_ok (asset_detail number_text locale_date (PortalAssetDetail.mkView id (Some (JObj f)) loading error)) = true.
Proof.
  intros (s & Hs) Hop Hr Hj. unfold asset_detail.
  cbn [PortalAssetDetail.vw_loading PortalAssetDetail.vw_error PortalAssetDetail.vw_asset].
  destruct loading; [done|]. destruct (nonempty error); [done|]. apply rendered_when. intros _. apply rendered_prop. rewrite Hs.
  apply rendered_bind; [done|intros ? _]. apply rendered_bind; [done|intros ? _]. apply rendered_prop.
  apply rendered_bind; [by apply job_card_ok|intros ? _]. apply rendered_prop.
  apply rendered_bind; [by apply items_card_ok|intros ? _]. apply rendered_prop.
  apply rendered_bind; [by apply items_card_ok|done].
Qed.

Lemma stream_row_ok f s : assoc "stream_id" f = Some (JStr s) -> is_ok (stream_row number_text (Some (JObj f))) = true.
Proof.
  intros Hs. unfold stream_row. do 2 apply rendered_prop. apply rendered_bind; [|done].
  destruct (truthy_value _); [done|]. by rewrite Hs.
Qed.
Lemma some_opening_ok l : is_ok (some_opening (map (fun f => Some (JObj f)) l)) = true.
Proof. induction l as [|f l IH]; [done|]. cbn [map some_opening]. apply rendered_prop. by destruct (is_string _ _). Qed.
Lemma live_streams_ok l v :
  PortalLiveStreams.vw_items v = Some (JArr (map JObj l)) ->
  Forall (fun f => exists s, assoc "stream_id" f = Some (JStr s)) l -> is_ok (live_streams number_text v) = true.
Proof.
  intros Hv Hl. unfold live_streams. rewrite Hv. apply rendered_bind.
  - destruct (PortalLiveStreams.vw_inFlight v); [done|]. cbn [as_array result_bind]. rewrite map_map. apply some_opening_ok.
  - intros opening _. apply rendered_bind; [done|intros n _]. apply rendered_bind; [|done]. destruct (strict_eq _ _); [done|].
    cbn [as_array result_bind]. apply rendered_bind; [|done]. apply map_result_ok. rewrite map_map. apply Forall_map.
    eapply Forall_impl; [exact Hl|]. intros f (s & Hs). by eapply stream_row_ok.
Qed.
Lemma asset_row_ok f s : assoc "id" f = Some (JStr s) -> is_ok (asset_row number_text locale_date (Some (JObj f))) = true.
Proof. intros Hs. unfold asset_row. apply rendered_prop. by rewrite Hs. Qed.
Lemma asset_list_ok v :
  Forall (fun j => exists f s, j = JObj f /\ assoc "id" f = Some (JStr s)) (PortalAssets.vw_items v) ->
  is_ok (asset_list number_text locale_date v) = true.
Proof.
  intros Hl. unfold asset_list. apply rendered_bind; [|done]. destruct (PortalAssets.vw_items v) as [|j l]; [done|].
  apply rendered_bind; [|done]. apply map_result_ok, Forall_map. eapply Forall_impl; [exact Hl|].
  intros ? (f & s & -> & Hs). by eapply asset_row_ok.
Qed.
Lemma operation_row_ok f : operation_shape f -> is_ok (operation_row number_text (Some (JObj f))) = true.
Proof.
  intros ((ws & Hw) & Ho & _). unfold operation_row. do 8 apply rendered_prop.
  apply rendered_bind; [apply rendered_when; intros Ht; apply rendered_bind; [by apply replace_optional|done]|intros ? _].
  do 8 apply rendered_prop. apply rendered_bind; [|done].
  destruct (coalesce _ _) as [[]|]; try done; apply rendered_prop; by rewrite Hw.
Qed.
Lemma operation_list_ok l v :
  AdminOperations.vw_items v = Some (JArr (map JObj l)) -> Forall operation_shape l -> is_ok (operation_list number_text v) = true.
Proof.
  intros Hv Hl. unfold operation_list. rewrite Hv. apply rendered_bind; [|done]. destruct (AdminOperations.vw_loading v); [done|].
  apply rendered_bind; [done|intros n _]. cbn [as_array result_bind]. apply rendered_bind; [|done].
  apply map_result_ok. rewrite map_map. apply Forall_map. eapply Forall_impl; [exact Hl|]. apply operation_row_ok.
Qed.
End rendering.

(** ** The answers of the gateway *)

Section answers.
Context `{Plat : Platform} `{Client : PaidSessionClient} `{Env : Environment} `{Store : StorageProvider}.
Context (config : ProductConfig).

Lemma get_stream_body apiKeyId params w r w' :
  get_stream config apiKeyId params w = (Ok r, w') -> rp_code r = 200 ->
  exists f, rp_body r = JObj f /\ operation_value (assoc "paid_operation" f).
Proof.
  unfold get_stream, own_stream. destruct (id_param params "id") as [id|]; [|by intros [= <- _]].
  rewrite mbind_Ok. intros (found & w1 & _ & H). destruct found as [s|]; [|by injection H as <- _].
  destruct (_ !=? _); [by injection H as <- _|]. apply mbind_Ok in H as (t & w2 & _ & H).
  apply mbind_Ok in H as (operation & w3 & _ & H). apply mbind_Ok in H as (now & w4 & _ & H). injection H as <- _. intros _.
  eexists. split; [done|]. change (operation_value (Some (customerOperationStatus operation now))). apply customer_value.
Qed.

Lemma get_asset_body k apiKeyId params w r w' :
  get_asset config k apiKeyId params w = (Ok r, w') -> rp_code r = 200 ->
  exists f, rp_body r = JObj f /\ (exists s, assoc "asset_id" f = Some (JStr s)) /\ operation_value (assoc "paid_operation" f) /\
    objects (assoc "renditions" f) /\ objects (assoc "jobs" f).
Proof.
  unfold get_asset. destruct (id_param params k) as [id|]; [|by intros [= <- _]].
  rewrite mbind_Ok. intros (bundle & w1 & Hb & H). injection H as <- _. destruct bundle as [b|]; [|done]. intros _. cbn.
  unfold fetchAssetBundle in Hb. apply mbind_Ok in Hb as (found & w2 & _ & Hb). destruct found as [a|]; [|done].
  destruct (_ !=? _); [done|]. apply mbind_Ok in Hb as (playbacks & w3 & _ & Hb).
  apply mbind_Ok in Hb as (renditions & w4 & _ & Hb). apply mbind_Ok in Hb as (jobs & w5 & _ & Hb).
  apply mbind_Ok in Hb as (operation & w6 & _ & Hb). apply mbind_Ok in Hb as (now & w7 & _ & Hb). injection Hb as <- _.
  eexists. split; [done|]. split; [by eexists|]. split; [|split].
  - change (operation_value (Some (customerOperationStatus operation now))). apply customer_value.
  - change (objects (Some (JArr (map rendition_json renditions)))). eexists. do 2 f_equal. by apply map_objects.
  - change (objects (Some (JArr (map job_json jobs)))). eexists. do 2 f_equal. by apply map_objects.
Qed.

(** A list of objects with a text for an id *)
Definition with_id (k : string) (j : json) : Prop := exists f s, j = JObj f /\ assoc k f = Some (JStr s).
Lemma with_id_objects k l : Forall (with_id k) l ->
  exists fs, l = map JObj fs /\ Forall (fun f => exists s, assoc k f = Some (JStr s)) fs.
Proof.
  induction 1 as [|j l (f & s & -> & Hs) _ (fs & -> & IH)]; [by exists []|]. exists (f :: fs). split; [done|]. constructor; eauto.
Qed.
Lemma stream_items_ids streams acc w items w' :
  Forall (with_id "stream_id") acc ->
  mfold (fun acc s => do! j <- stream_item config s; mret_ (acc ++ [j])) acc streams w = (Ok items, w') ->
  Forall (with_id "stream_id") items.
Proof.
  revert acc w. induction streams as [|s streams IH]; intros acc w Hacc; cbn [mfold]; [by intros [= <- _]|].
  rewrite mbind_Ok. intros (acc1 & w1 & H1 & H). apply mbind_Ok in H1 as (j & w2 & Hj & [= <- <-]).
  eapply IH; [|exact H]. apply Forall_app. split; [done|]. constructor; [|done].
  unfold stream_item in Hj. apply mbind_Ok in Hj as (op & w3 & _ & Hj). apply mbind_Ok in Hj as (now & w4 & _ & Hj).
  injection Hj as <- _. by eexists _, _.
Qed.
Lemma get_streams_body apiKeyId w r w' :
  get_streams config apiKeyId w = (Ok r, w') ->
  exists l, prop_of_body (rp_body r) "streams" = Some (JArr (map JObj l)) /\
    Forall (fun f => exists s, assoc "stream_id" f = Some (JStr s)) l.
Proof.
  unfold get_streams. rewrite mbind_Ok. intros (streams & w1 & _ & H). apply mbind_Ok in H as (items & w2 & Hi & [= <- _]).
  apply stream_items_ids, with_id_objects in Hi as (fs & -> & Hfs); [|constructor]. by exists fs.
Qed.
Lemma get_assets_body apiKeyId parsed w r w' :
  get_assets apiKeyId parsed w = (Ok r, w') -> rp_code r = 200 ->
  exists l, prop_of_body (rp_body r) "items" = Some (JArr l) /\ Forall (with_id "id") l.
Proof.
  unfold get_assets. destruct parsed as [q|]; [|by intros [= <- _]]. rewrite mbind_Ok. intros (p & w1 & _ & [= <- _]) _.
  eexists. split; [done|]. apply Forall_map, Forall_true. intros a. by eexists _, _.
Qed.
Lemma get_operations_body parsed w r w' :
  get_operations config parsed w = (Ok r, w') -> rp_code r = 200 ->
  exists l, prop_of_body (rp_body r) "items" = Some (JArr (map JObj l)) /\ Forall operation_shape l.
Proof.
  unfold get_operations. destruct parsed as [[[kind status] limit]|]; [|by intros [= <- _]].
  destruct (negb _); [by intros [= <- _]|]. rewrite mbind_Ok. intros (operations & w1 & _ & H).
  apply mbind_Ok in H as (now & w2 & _ & [= <- _]). intros _. eexists. split.
  - cbn. do 2 f_equal. by apply map_objects.
  - apply Forall_map, Forall_true. intros o. destruct (customer_shape o now) as ((ws & Hw) & Ho & Hl & Hd).
    split; [by eexists|]. split; [exact Ho|]. split; [exact Hl|exact Hd].
Qed.

(** C29: The pages render what the gateway answers.  The templates read the answers without
    checking them; for every successful answer of the gateway's handlers (a live stream, the
    list of streams, an asset with its renditions and jobs, a page of the asset list, the
    operations of the administration), whatever rows and operation it reports and whatever
    else the element holds, rendering the page that shows it does not throw. *)
Theorem pages_render_the_gateways_answers (number_text : jsnum -> string) (locale_date : value -> string) :
  (forall apiKeyId params w r w' v, get_stream config apiKeyId params w = (Ok r, w') -> rp_code r = 200 ->
     PortalLiveDetail.vw_stream v = Some (rp_body r) -> is_ok (live_detail number_text locale_date v) = true) /\
  (forall apiKeyId w r w' v, get_streams config apiKeyId w = (Ok r, w') ->
     PortalLiveStreams.vw_items v = prop_of_body (rp_body r) "streams" -> is_ok (live_streams number_text v) = true) /\
  (forall k apiKeyId params w r w' v, get_asset config k apiKeyId params w = (Ok r, w') -> rp_code r = 200 ->
     PortalAssetDetail.vw_asset v = Some (rp_body r) -> is_ok (asset_detail number_text locale_date v) = true) /\
  (forall apiKeyId parsed w r w' v, get_assets apiKeyId parsed w = (Ok r, w') -> rp_code r = 200 ->
     Some (JArr (PortalAssets.vw_items v)) = prop_of_body (rp_body r) "items" ->
     is_ok (asset_list number_text locale_date v) = true) /\
  (forall parsed w r w' v, get_operations config parsed w = (Ok r, w') -> rp_code r = 200 ->
     AdminOperations.vw_items v = prop_of_body (rp_body r) "items" -> is_ok (operation_list number_text v) = true).
Proof.
  split_and!.
  - intros apiKeyId params w r w' [id s l e] H Hc Hv. destruct (get_stream_body _ _ _ _ _ H Hc) as (f & Hb & Hop).
    cbn in Hv. subst s. rewrite Hb. by apply live_detail_ok.
  - intros apiKeyId w r w' v H Hv. destruct (get_streams_body _ _ _ _ H) as (l & Hb & Hl). rewrite Hb in Hv.
    by eapply live_streams_ok.
  - intros k apiKeyId params w r w' [id s l e] H Hc Hv.
    destruct (get_asset_body _ _ _ _ _ _ H Hc) as (f & Hb & Hid & Hop & Hr & Hj). cbn in Hv. subst s. rewrite Hb.
    by apply asset_detail_ok.
  - intros apiKeyId parsed w r w' v H Hc Hv. destruct (get_assets_body _ _ _ _ _ H Hc) as (l & Hb & Hl).
    rewrite Hb in Hv. injection Hv as Hv. apply asset_list_ok. by rewrite Hv.
  - intros parsed w r w' v H Hc Hv. destruct (get_operations_body _ _ _ _ H Hc) as (l & Hb & Hl). rewrite Hb in Hv.
    by eapply operation_list_ok.
Qed.
End answers.

(** ** The key of a stream *)

(** The tree with the values of its password fields taken out *)
Definition masked_attrs (name : string) (attrs : list (string * string)) : list (string * string) :=
  if (name ==? "input") && (assoc "type" attrs ==? Some "password")
  then List.filter (fun kv => negb (bool_decide (fst kv = ".value"))) attrs else attrs.
Fixpoint masked (h : html) : html :=
  match h with
  | Tag name attrs kids => Tag name (masked_attrs name attrs) (map masked kids)
  | Txt s => Txt s
  end.
Definition masked_page (r : result exn (list html)) : result exn (list html) :=
  match r with Ok l => Ok (map masked l) | Err e => Err e end.

(** Two answers that agree on everything but the key *)
Definition same_but_key (f g : list (string * json)) : Prop := forall k, k <> "stream_key" -> assoc k f = assoc k g.
Definition key_text (f : list (string * json)) : Prop := exists c s, assoc "stream_key" f = Some (JStr (String c s)).

(** The key of a stream is shown in a password field only.  Two pages of streams that differ in
    nothing but their keys are the same tree once the values of the password fields are taken
    out: no text, link or attribute of the page depends on the key. *)
Lemma stream_key_is_masked number_text locale_date id loading error f g :
  same_but_key f g -> key_text f -> key_text g ->
  masked_page (live_detail number_text locale_date (PortalLiveDetail.mkView id (Some (JObj f)) loading error)) =
  masked_page (live_detail number_text locale_date (PortalLiveDetail.mkView id (Some (JObj g)) loading error)).
Proof.
  intros Hfg (cf & kf & Hf) (cg & kg & Hg). unfold live_detail, publish_card, live_card.
  cbn [PortalLiveDetail.vw_loading PortalLiveDetail.vw_error PortalLiveDetail.vw_stream].
  destruct loading; [done|]. rewrite !andb_false_r. unfold when. cbn [truthy_value get_prop result_bind].
  rewrite Hf, Hg. rewrite !(Hfg _) by discriminate. cbn [truthy_value nonempty andb].
  destruct (session_card _ _ _) as [card|e]; [|done]. cbn [result_bind masked_page].
  destruct (truthy_value (assoc "rtmp_push_url" g)); [|done].
  by destruct (is_string (assoc "status" g) "opening"), (is_string (assoc "status" g) "ending").
Qed.

(** ** Pages of a gateway *)

Definition sample_page_stream : list (string * json) :=
  [("stream_id", JStr "s1"); ("name", JStr "Show"); ("status", JStr "live"); ("rtmp_push_url", JStr "rtmp://in");
   ("stream_key", JStr "k1"); ("paid_operation", JNull); ("created_at", JStr "now"); ("ended_at", JNull)].
Lemma stream_key_is_masked_witness :
  masked_page (live_detail (fun _ => "n") (fun _ => "d") (PortalLiveDetail.mkView "s1" (Some (JObj sample_page_stream)) false "")) =
  masked_page (live_detail (fun _ => "n") (fun _ => "d")
    (PortalLiveDetail.mkView "s1" (Some (JObj (("stream_key", JStr "other") :: sample_page_stream))) false "")).
Proof.
  apply stream_key_is_masked.
  - intros k Hk. cbn [assoc]. by rewrite (bool_decide_eq_false_2 _ Hk).
  - by exists "k"%char, "1".
  - by exists "o"%char, "ther".
Defined.

Definition tenant_stream : result exn Response * world :=
  get_stream (Env := sample_env) tenant_config "key" (JObj [("id", JStr "stream")]) tenant_world.
Definition tenant_body : json := match fst tenant_stream with Ok r => rp_body r | Err _ => JNull end.
Lemma pages_render_the_gateways_answers_witness :
  is_ok (live_detail (fun _ => "n") (fun _ => "d") (PortalLiveDetail.mkView "stream" (Some tenant_body) false "")) = true.
Proof.
  destruct (pages_render_the_gateways_answers (Env := sample_env) tenant_config (fun _ => "n") (fun _ => "d")) as [H _].
  destruct tenant_stream as [[r|e] w'] eqn:E.
  - refine (H "key" (JObj [("id", JStr "stream")]) tenant_world r w'
              (PortalLiveDetail.mkView "stream" (Some tenant_body) false "") E _ _).
    + assert (Hc : match fst tenant_stream with Ok r => rp_code r | Err _ => 0 end = 200) by (vm_compute; reflexivity).
      rewrite E in Hc. exact Hc.
    + unfold tenant_body. rewrite E. reflexivity.
  - assert (Hc : is_ok (fst tenant_stream) = true) by (vm_compute; reflexivity). rewrite E in Hc. discriminate Hc.
Defined.

(** *** The answers of the gateway *)

Section shown.
Context (number_text : jsnum -> string) (locale_time locale_date : value -> string) (vod_default live_default : string).
#[local] Abbreviation cap_json := (capability_json vod_default live_default).

(** A capability as the page filters it *)
Definition searchable (c : CatalogCapability) : Dashboards.Capability :=
  Dashboards.mkCapability (cc_name c) (map co_id (cc_offerings c)).
Definition offering_json (c : CatalogCapability) (o : CatalogOffering) : json :=
  JObj (offering_fields o ++ [("configured_for_gateway", JBool (configured_for_gateway vod_default live_default c o))]).
Lemma capability_name c : get_prop (Some (cap_json c)) "name" = Ok (Some (JStr (cc_name c))).
Proof. done. Qed.
Lemma capability_offerings c :
  get_prop (Some (cap_json c)) "offerings" = Ok (Some (JArr (map (offering_json c) (cc_offerings c)))).
Proof. unfold capability_json. by destruct (cc_work_unit c). Qed.

Lemma offering_ids_text c : offering_ids number_text (Some (cap_json c)) = Ok (String.concat " " (map co_id (cc_offerings c))).
Proof.
  unfold offering_ids. rewrite capability_offerings. cbn [result_bind as_array].
  rewrite map_map. assert (H : forall l, map_result (fun o => get_prop o "id") (map (fun o => Some (offering_json c o)) l) =
    Ok (map (fun o => Some (JStr (co_id o))) l)).
  { induction l as [|o l IH]; [done|]. cbn [map map_result]. by rewrite IH. }
  rewrite H. cbn [result_bind]. unfold join. by rewrite map_map.
Qed.
Lemma listed_capability v c :
  capability_listed number_text v (Some (cap_json c)) =
  Ok (((ca_scope v ==? "all") || startsWith "video:" (cc_name c)) &&
      includes_text (toLowerCase (ca_search v)) (toLowerCase (Dashboards.searched (searchable c)))).
Proof.
  unfold capability_listed. rewrite capability_name. cbn [result_bind is_video].
  destruct (ca_scope v ==? "all"); cbn [result_bind orb].
  - by rewrite offering_ids_text.
  - destruct (startsWith "video:" (cc_name c)); [|done]. by rewrite offering_ids_text.
Qed.
Lemma filter_result_map {A B} (f : B -> result exn bool) (g : A -> bool) (h : A -> B) l :
  (forall a, f (h a) = Ok (g a)) -> filter_result f (map h l) = Ok (map h (List.filter g l)).
Proof. intros H. induction l as [|a l IH]; [done|]. cbn. rewrite H, IH. cbn. by destruct (g a). Qed.

(** The capabilities that match, as the gateway listed them *)
Definition matching (v : catalog_view) (data : list CatalogCapability) : list CatalogCapability :=
  List.filter (fun c => ((ca_scope v ==? "all") || startsWith "video:" (cc_name c)) &&
    includes_text (toLowerCase (ca_search v)) (toLowerCase (Dashboards.searched (searchable c)))) data.
Lemma matching_listed v data :
  map searchable (matching v data) = Dashboards.listed (ca_scope v) (ca_search v) (map searchable data).
Proof.
  unfold matching, Dashboards.listed. induction data as [|c data IH]; [done|]. cbn [List.filter map].
  change (Dashboards.cp_name (searchable c)) with (cc_name c). destruct (_ && _); cbn [map]; by rewrite IH.
Qed.

Lemma offering_row_ok cap c o : is_ok (offering_row number_text (Some (cap_json cap)) (Some (offering_json c o))) = true.
Proof.
  unfold offering_row. do 2 apply rendered_prop. apply rendered_bind; [|intros ? _; done].
  unfold transports_of. apply rendered_prop.
  assert (Hj : assoc "job" (offering_fields o ++ [("configured_for_gateway", JBool (configured_for_gateway vod_default live_default c o))]) =
    match co_job o with Some (Some j) => Some (JObj (job_fields j)) | Some None => Some JNull | None => None end).
  { unfold offering_fields. by destruct (co_work_unit o), (co_job o) as [[]|], (co_session o). }
  rewrite Hj. destruct (co_job o) as [[transports|]|]; [|done|done].
  destruct transports as [l|]; [|done]. apply rendered_bind; [done|]. intros tr [= <-]. apply rendered_bind; [done|].
  intros n _. apply rendered_when. intros _. done.
Qed.
Lemma capability_card_ok c : is_ok (capability_card number_text (Some (cap_json c))) = true.
Proof.
  unfold capability_card. rewrite capability_name, capability_offerings. cbn [result_bind]. apply rendered_bind; [done|intros n _].
  apply rendered_bind; [done|intros u _]. cbn [as_array result_bind]. apply rendered_bind; [|done].
  apply map_result_ok. rewrite map_map. apply Forall_map, Forall_true. intros o. apply offering_row_ok.
Qed.

(** The catalogue page shows what LOC offers.  When its data are an answer of the gateway, the
    page is rendered without an error, and the capabilities it shows are those of the answer
    that are in its scope and match its search, in the order of the answer. *)
Lemma catalogue_page_shows_the_catalogue `{Plat : Platform} `{Transport : LocTransport} `{Env : Environment} configured w r w' v :
  get_catalog vod_default live_default configured w = (Ok r, w') -> rp_code r = 200 -> ca_data v = Some (rp_body r) ->
  (forall c, is_ok (catalog_page number_text locale_time c v) = true) /\
  exists data, catalog_items number_text v = Ok (map (fun c => Some (cap_json c)) (matching v data)) /\
    prop_of_body (rp_body r) "items" = Some (JArr (map cap_json data)).
Proof.
  intros H Hc Hv.
  assert (Hb : exists data fields, rp_body r = JObj (fields ++ [("items", JArr (map cap_json data))]) /\ assoc "items" fields = None).
  - unfold get_catalog in H. apply mbind_Ok in H as (answer & w1 & H & [= <- <-]). destruct configured; cbn in H; [|by injection H as <- _].
    unfold mcatch in H. destruct (mbind_ _ _ w) as [[a|e] w2] eqn:E; injection H as <- _; [|done].
    apply mbind_Ok in E as (data & w3 & _ & E). apply mbind_Ok in E as (now & w4 & _ & [= <- _]).
    exists data, [("source", JStr "LOC"); ("price_basis", JStr "network_wholesale"); ("fetched_at", JStr (toISOString now))]. done.
  - destruct Hb as (data & fields & Hb & Hnone).
    assert (Hitems : assoc "items" (fields ++ [("items", JArr (map cap_json data))]) = Some (JArr (map cap_json data))).
    { clear -Hnone. induction fields as [|[k x] fields IH]; [done|]. cbn [assoc app] in *. destruct (bool_decide _); [done|]. by apply IH. }
    assert (Hi : catalog_items number_text v = Ok (map (fun c => Some (cap_json c)) (matching v data))).
    { unfold catalog_items. rewrite Hv, Hb. cbn [get_prop]. rewrite Hitems. cbn [result_bind truthy_value as_array].
      rewrite map_map. apply filter_result_map. intros c. apply listed_capability. }
    split; [|exists data; split; [done|rewrite Hb; exact Hitems]].
    intros cl. unfold catalog_page. rewrite Hi. cbn [result_bind]. apply rendered_bind; [rewrite Hv, Hb; done|intros ? _].
    apply rendered_bind; [|done]. apply map_result_ok, Forall_map, Forall_true. intros c. apply capability_card_ok.
Qed.

Lemma dashboards_ok :
  (forall f l, assoc "daily_counts" f = Some (JArr (map JObj l)) ->
     is_ok (admin_dashboard number_text (Dashboards.stats_loaded (Ok (JObj f)))) = true) /\
  (forall f l loading error, Forall (with_id "id") l ->
     is_ok (portal_dashboard number_text locale_date (Dashboards.mkView (Some (JObj f)) (Some (JArr l)) loading error)) = true).
Proof.
  split.
  - intros f l Hf. unfold admin_dashboard. cbn [Dashboards.stats_loaded Dashboards.sv_loading Dashboards.sv_error Dashboards.sv_stats nonempty].
    do 5 apply rendered_prop. rewrite Hf. apply rendered_bind; [done|intros n _]. apply rendered_bind; [|done].
    destruct (truthy_value n); [|done]. cbn [as_array result_bind]. apply rendered_bind; [|done].
    apply map_result_ok. rewrite map_map. by apply Forall_map, Forall_true.
  - intros f l loading error Hl. unfold portal_dashboard. cbn [optional_prop Dashboards.vw_profile]. do 4 apply rendered_prop.
    apply rendered_bind; [|done]. cbn [Dashboards.vw_loading Dashboards.vw_assets]. destruct loading; [done|].
    apply rendered_bind; [done|intros n _]. destruct (truthy_value n); [|done]. cbn [as_array result_bind].
    apply rendered_bind; [|done]. apply map_result_ok, Forall_map. eapply Forall_impl; [exact Hl|].
    intros j (g & s & -> & Hs). unfold recent_row. apply rendered_prop. by rewrite Hs.
Qed.
End shown.

(** ** What the pages offer

    The step models of the upload page, of the waiting list, of the account page and of the
    logins take an event only when their page offers it.  Here that is what the templates
    say: an event is offered exactly when the tree has an element with its handler that is not
    disabled, or a form with it whose button is not. *)

Definition is_event (name : string) : bool := match name with String "@" _ => true | _ => false end.
Definition handles (h : string) (attrs : list (string * string)) : bool :=
  existsb (fun kv => is_event (fst kv) && String.eqb h (snd kv)) attrs.
Definition is_disabled (attrs : list (string * string)) : bool := existsb (fun kv => String.eqb (fst kv) "disabled") attrs.
Fixpoint enabled (h : string) (t : html) : bool :=
  match t with
  | Tag _ attrs kids => handles h attrs && negb (is_disabled attrs) || existsb (enabled h) kids
  | Txt _ => false
  end.
Fixpoint submit_button (t : html) : bool :=
  match t with
  | Tag name attrs kids =>
      (name ==? "button") && bool_decide (assoc "type" attrs = Some "submit") && negb (is_disabled attrs) || existsb submit_button kids
  | Txt _ => false
  end.
Fixpoint submittable (h : string) (t : html) : bool :=
  match t with
  | Tag name attrs kids => (name ==? "form") && handles h attrs && existsb submit_button kids || existsb (submittable h) kids
  | Txt _ => false
  end.

(** The upload page offers the file and the button while idle, and another upload when done. *)
Lemma upload_page_offers number_text e file :
  enabled "_onFile" (Forms.upload_page number_text e) = PortalUpload.offered (PortalUpload.Pick file) e /\
  submittable "_start" (Forms.upload_page number_text e) = PortalUpload.offered PortalUpload.Start e /\
  enabled "_reset" (Forms.upload_page number_text e) = PortalUpload.offered PortalUpload.Reset e.
Proof. destruct e as [[] p [fl|] a [|c s] st ca ts]; vm_compute; auto. Qed.

(** The account page offers a rotation once it is confirmed, and one at a time; the forms are
    sent one at a time. *)
Lemma account_page_offers v :
  let confirming := Elements.PortalAccount.vw_confirming v in
  enabled "_doRotate" (Forms.account_page v) = confirming && negb (Elements.PortalAccount.vw_inFlight v) /\
  enabled "confirm" (Forms.account_page v) = negb confirming /\ enabled "cancel" (Forms.account_page v) = confirming.
Proof.
  destruct v as [[] [] error key rev ts n]; unfold Forms.account_page, KeyDisplay.render; cbn -[Elements.PortalAccount.mask String.append];
    destruct rev, error, (nonempty key); vm_compute; auto.
Qed.
Lemma logins_offer siteUrl l a f :
  submittable "_onSubmit" (Forms.portal_login siteUrl l) = negb (pl_inFlight l) /\
  submittable "_onSubmit" (Forms.admin_login a) = negb (al_inFlight a) /\
  submittable "_onSubmit" (Forms.signup_form f) = negb (Elements.PublicSite.fm_inFlight f).
Proof.
  destruct l as [[] [|c1 s1] k], a as [[] [|c2 s2]], f as [[] [[|c3 s3]|] [kind|] sent n m]; vm_compute; auto.
Qed.

(** *** The waiting list *)

Section waiting_list.
Context (locale_date : string -> string) (exportUrl : string).
Import SignupsPage.

Lemma existsb_map {A B} (g : B -> bool) (f : A -> B) l : existsb g (map f l) = existsb (fun a => g (f a)) l.
Proof. induction l as [|a l IH]; [done|]. cbn. by rewrite IH. Qed.
Lemma existsb_same {A} (f g : A -> bool) l : (forall a, a ∈ l -> f a = g a) -> existsb f l = existsb g l.
Proof. induction l as [|a l IH]; intros H; [done|]. cbn. rewrite H, IH; [done| |by left]. intros b Hb. apply H. by right. Qed.
Lemma existsb_none {A} (f : A -> bool) l : (forall a, f a = false) -> existsb f l = false.
Proof. intros H. induction l as [|a l IH]; [done|]. cbn. by rewrite H, IH. Qed.
Lemma existsb_elem (x : string) {A} (f : A -> string) l : existsb (fun a => String.eqb x (f a)) l = bool_decide (x ∈ map f l).
Proof.
  induction l as [|a l IH]; [done|]. cbn [existsb map]. rewrite IH. symmetry.
  rewrite (bool_decide_ext _ (x = f a \/ x ∈ map f l)) by apply elem_of_cons.
  rewrite bool_decide_or. f_equal. destruct (String.eqb_spec x (f a)) as [->|H]; [by apply bool_decide_eq_true|].
  apply bool_decide_eq_false. congruence.
Qed.
(** The handlers of each part of the page *)
Lemma issued_keys_part h keys : existsb (enabled h) (issued_keys keys) = negb (bool_decide (keys = [])) && String.eqb h "dismiss".
Proof.
  destruct keys as [|k keys]; [done|]. cbn [issued_keys existsb]. rewrite orb_false_r, bool_decide_false by done.
  set (l := k :: keys). clearbody l. cbn [enabled]. rewrite existsb_app. replace (existsb _ (flat_map _ l)) with false.
  - cbn. by rewrite ?andb_true_r, ?orb_false_r.
  - induction l as [|x l IH]; [done|]. cbn [flat_map]. by rewrite existsb_app, <- IH.
Qed.
Lemma toolbar_part h e : enabled h (signup_toolbar exportUrl e) = String.eqb h "status" || String.eqb h "search" || String.eqb h "_load".
Proof. cbn. by rewrite ?andb_true_r, ?orb_false_r, ?orb_assoc. Qed.
Lemma batch_part h e : enabled h (batch_card e) =
  String.eqb h "sendEmails" || negb (AdminSignups.su_selected e ==? []) && (String.eqb h "_approve" || String.eqb h "_reject").
Proof.
  unfold batch_card. destruct (bool_decide _), (AdminSignups.su_sendEmails e); cbn; by rewrite ?andb_true_r, ?andb_false_r, ?orb_false_r.
Qed.
Lemma page_parts h e : enabled h (signups_page locale_date exportUrl e) =
  negb (bool_decide (AdminSignups.su_issuedKeys e = [])) && String.eqb h "dismiss" ||
  (String.eqb h "status" || String.eqb h "search" || String.eqb h "_load") ||
  AdminSignups.table_shown e && existsb (enabled h) (signup_table locale_date e) ||
  (String.eqb h "sendEmails" || negb (AdminSignups.su_selected e ==? []) && (String.eqb h "_approve" || String.eqb h "_reject")).
Proof.
  rewrite <- issued_keys_part, <- toolbar_part with (e := e), <- batch_part. unfold signups_page. cbn [enabled]. rewrite !existsb_app.
  destruct e as [am rs rows pg pp tp stt sr sel se ld er ik tk ca ts].
  cbn [AdminSignups.table_shown AdminSignups.su_actionMessage AdminSignups.su_error AdminSignups.su_loading AdminSignups.su_rows AdminSignups.su_issuedKeys].
  cbn [existsb enabled]. rewrite !existsb_app. cbn [existsb].
  destruct (nonempty am), (nonempty er), ld, rows; cbn -[signup_table signup_toolbar batch_card issued_keys];
    by rewrite ?orb_false_r, ?orb_assoc.
Qed.
Lemma table_parts h e :
  existsb (enabled h) (signup_table locale_date e) =
  String.eqb h "_toggleAll" || existsb (fun r => enabled h (signup_row locale_date e r)) (AdminSignups.su_rows e) ||
  existsb (enabled h) (admin_pagination (AdminSignups.su_page e) (AdminSignups.su_totalPages e)).
Proof.
  unfold signup_table. destruct (all_selected e); cbn -[signup_row]; by rewrite existsb_map, ?orb_false_r, ?andb_true_r, ?orb_assoc.
Qed.
Lemma row_part h e r : enabled h (signup_row locale_date e r) =
  String.eqb h ("_toggle " +:+ AdminSignups.rw_id r) ||
  (negb (is_present (AdminSignups.su_resending e)) && unverified r && String.eqb h ("_resend " +:+ AdminSignups.rw_id r) ||
   String.eqb h ("_delete " +:+ AdminSignups.rw_id r)).
Proof.
  unfold signup_row, resend_button, signup_badge, checked. destruct (AdminSignups.su_resending e), (unverified r);
    repeat match goal with |- context [if ?b then _ else _] => destruct b end; cbn; by rewrite ?orb_false_r, ?andb_true_r, ?andb_false_r.
Qed.
Lemma pagination_part h page total : existsb (enabled h) (admin_pagination page total) =
  (1 <? total) && ((1 <? page) && String.eqb h ("_go " +:+ string_of_Z (page - 1)) ||
                   (page <? total) && String.eqb h ("_go " +:+ string_of_Z (page + 1))).
Proof.
  unfold admin_pagination. rewrite Z.leb_antisym. destruct (1 <? total); [|done]. unfold page_button. rewrite !Z.leb_antisym.
  destruct (1 <? page), (page <? total); cbn -[string_of_Z]; by rewrite ?andb_true_r, ?andb_false_r, ?orb_false_r.
Qed.

#[local] Ltac compare_handlers :=
  repeat match goal with
  | |- context [String.eqb (?p +:+ ?a) (?q +:+ ?b)] => change (String.eqb (p +:+ a) (q +:+ b)) with (String.eqb a b)
  | |- context [String.eqb ?x (?q +:+ ?b)] => change (String.eqb x (q +:+ b)) with false
  | |- context [String.eqb (?p +:+ ?a) ?x] => change (String.eqb (p +:+ a) x) with false
  end; rewrite ?andb_false_r, ?orb_false_r; cbn [orb andb].
Lemma row_toggle id e r : enabled ("_toggle " +:+ id) (signup_row locale_date e r) = String.eqb id (AdminSignups.rw_id r).
Proof. rewrite row_part. by compare_handlers. Qed.
Lemma row_delete id e r : enabled ("_delete " +:+ id) (signup_row locale_date e r) = String.eqb id (AdminSignups.rw_id r).
Proof. rewrite row_part. by compare_handlers. Qed.
Lemma row_resend id e r : enabled ("_resend " +:+ id) (signup_row locale_date e r) =
  negb (is_present (AdminSignups.su_resending e)) && unverified r && String.eqb id (AdminSignups.rw_id r).
Proof. rewrite row_part. by compare_handlers. Qed.
Lemma row_nothing h e r : h ∈ ["_toggleAll"; "_approve"; "_reject"] \/ (exists p, h = "_go " +:+ p) ->
  enabled h (signup_row locale_date e r) = false.
Proof. rewrite !elem_of_cons, row_part. intros [[->|[->|[->|H]]]|[p ->]]; [by compare_handlers..|by apply not_elem_of_nil in H|by compare_handlers]. Qed.

Lemma string_of_Z_eqb a b : String.eqb (string_of_Z a) (string_of_Z b) = (a =? b).
Proof.
  destruct (Z.eqb_spec a b) as [->|H]; [apply String.eqb_refl|]. destruct (String.eqb_spec (string_of_Z a) (string_of_Z b)) as [E|]; [|done].
  by apply (inj pretty) in E.
Qed.

(** The waiting list offers the events of its model: the boxes and the deletion of the rows
    that are shown, a message to the unverified ones while none is on its way, a batch when
    something is selected, and the pages beside the shown one. *)
Lemma signups_page_offers e id p confirmed :
  let page := signups_page locale_date exportUrl e in
  enabled ("_toggle " +:+ id) page = AdminSignups.offered (AdminSignups.Toggle id) e /\
  enabled ("_delete " +:+ id) page = AdminSignups.offered (AdminSignups.Delete id confirmed) e /\
  enabled "_toggleAll" page = AdminSignups.offered AdminSignups.ToggleAll e /\
  enabled ("_resend " +:+ id) page =
    negb (is_present (AdminSignups.su_resending e)) &&
    existsb (fun r => String.eqb id (AdminSignups.rw_id r) && AdminSignups.offered (AdminSignups.Resend r) e) (AdminSignups.su_rows e) /\
  enabled "_approve" page = negb (AdminSignups.su_selected e ==? []) /\
  enabled "_reject" page = negb (AdminSignups.su_selected e ==? []) /\
  enabled ("_go " +:+ string_of_Z p) page =
    AdminSignups.offered (AdminSignups.Go p) e &&
    ((p =? AdminSignups.su_page e - 1) && (1 <? AdminSignups.su_page e) ||
     (p =? AdminSignups.su_page e + 1) && (AdminSignups.su_page e <? AdminSignups.su_totalPages e)).
Proof.
  intros page. unfold page. rewrite !page_parts, !table_parts, !pagination_part. compare_handlers.
  cbn -[AdminSignups.offered AdminSignups.table_shown signup_row string_of_Z].
  rewrite (existsb_same _ _ _ (fun r _ => row_toggle id e r)), (existsb_same _ _ _ (fun r _ => row_delete id e r)), !existsb_elem.
  rewrite (existsb_same _ _ _ (fun r _ => row_resend id e r)), !string_of_Z_eqb.
  rewrite (existsb_none _ _ (fun r => row_nothing "_approve" e r ltac:(left; set_solver))).
  rewrite (existsb_none _ _ (fun r => row_nothing "_reject" e r ltac:(left; set_solver))).
  rewrite (existsb_none _ _ (fun r => row_nothing ("_go " +:+ string_of_Z p) e r ltac:(right; eauto))).
  rewrite !andb_true_r, !andb_false_r. split_and!; [done..| |done|done|].
  - rewrite (existsb_same (fun r => _ && AdminSignups.offered _ e)
      (fun r => AdminSignups.table_shown e && (unverified r && String.eqb id (AdminSignups.rw_id r)))).
    + destruct (AdminSignups.table_shown e), (is_present (AdminSignups.su_resending e)); cbn [negb andb]; try done.
      all: rewrite existsb_none; done.
    + intros r Hr. cbn [AdminSignups.offered]. rewrite (bool_decide_true _ Hr), andb_true_r, <- andb_assoc. change (_ && negb _) with (unverified r).
      by destruct (String.eqb id _), (AdminSignups.table_shown e), (unverified r).
  - cbn [AdminSignups.offered]. rewrite <- andb_assoc, (andb_comm (p =? _)), (andb_comm (p =? AdminSignups.su_page e + 1)). done.
Qed.
(** Unless the shown page is far past the last one, a button of a page that is offered leads
    to it. *)
Lemma offered_page_is_shown page total p : (1 <= page <= total + 1)%Z -> existsb (enabled ("_go " +:+ string_of_Z p)) (admin_pagination page total) = true ->
  AdminSignups.go p page total = Some p.
Proof.
  intros Hp. rewrite pagination_part. compare_handlers. rewrite !string_of_Z_eqb. intros H. unfold AdminSignups.go.
  destruct (p <? 1) eqn:E1, (total <? p) eqn:E2, (p =? page) eqn:E3; cbn; try done; lia.
Qed.
Lemma offered_page_is_shown_witness : AdminSignups.go 2 1 2 = Some 2.
Proof. apply offered_page_is_shown; [lia|vm_compute; reflexivity]. Defined.
End waiting_list.
